(* ===== verification/_CoqProject ===== *)
-Q . S2P
Prelude.v
Signal.v
SplInl.v
SplMath.v
SplVec.v
SplLpc.v
SplLevinson.v
SplFft.v
SplFilter.v
SplQmf.v
SplResample.v
SplResample22.v
VadFilter.v
VadCore.v
RingBuffer.v
IsacArith.v
IsacStream.v
IsacEncoder.v
IsacDecoder.v
IsacLogistic.v
IsacTransmit.v
IsacSpectrum.v
IsacTables.v
IsacPitch.v
IsacLar.v
IsacLpc.v
IsacPacket.v
IsacBwe.v
IsacState.v
IsacFilters.v
IsacLattice.v
IsacPitchFilter.v
IsacPitchEstimator.v
IsacTransform.v
IsacApi.v
IsacDecode.v
