(* ===== verification/Prelude.v ===== *)
(** * Verification of the fixed-point audio code of the workspace

    The repository is a GN workspace around a cut-down WebRTC tree.  Its own C
    code is the portable fixed-point audio code under
    [workspace/webrtc/common_audio] (the signal processing library SPL, the
    ring buffer, the voice activity detector VAD) and the fixed-point iSAC
    codec under [workspace/webrtc/modules/audio_coding/codecs/isac/fix].  This
    library translates that code into executable definitions and proves what
    the code promises.  Paths below are relative to [workspace/webrtc]; [SP] is
    [common_audio/signal_processing] and [IS] is
    [modules/audio_coding/codecs/isac/fix/source].

    ** How C is modelled

    Integers are [Z] kept in the range of their C type; every conversion and
    every operation that can leave its type is followed by [u8] ... [i64],
    which wrap modulo the width.  Where the C standard leaves signed overflow
    undefined the model wraps, as the compilers used do; theorems that matter
    show that the wrap does not happen.  Right shifts of negative values are
    arithmetic.  Arrays are lists.  An access the source does not guard is
    written with [rd] and [wr] (or [cell] and [set_cell] for word streams) in
    the option monad: [None] is an access outside the array, so a theorem
    [f x = Some r] includes memory safety; a failed [RTC_DCHECK] is [None] too
    (assertions about the value of a caller's argument that a total function
    cannot express are hypotheses of its theorems, and named where it is
    defined).  [arr] and [upd] are used where the index is a constant or bounded
    by a loop over a table.  A local array the source fills through pointers has
    its declared size and is an argument with arbitrary contents.  A pointer into an
    array is the array and an index, so aliasing buffers are one list.  Structs
    are records; a handle that may be null is an [option].

    Loops with a counter are [for_loop] and [for_opt].  Loops whose exit
    depends on the data carry fuel; each fuel constant is large enough for
    every exit of the C loop, or running out of it means the C loop does not
    end, and the lemma that says so is named beside the definition
    ([enc_renorm_total], [dec_renorm_spec], [clip_loop_spec], [scan_hangs]).

    ** The files

    - [Prelude]: machine integers, arrays, loops, checked memory, and the
      tactics and hints on them (databases [cint]).
    - [Signal]: what the filters share: running a step over a signal ([scan]),
      chains of filters, strided sub-signals, and loops that overwrite an array
      from the front.
    - [SplInl]: [SP/include/spl_inl.h], [SP/spl_inl.c] and the macros of
      [SP/include/signal_processing_library.h].  Leading-zero counts agree with
      the builtins, norms are the largest safe shifts, saturating operations
      clamp the exact result.
    - [SplMath]: [SP/division_operations.c], [SP/spl_sqrt.c],
      [common_audio/third_party/spl_sqrt_floor], and
      [SP/sqrt_of_one_minus_x_squared.c].  Exactness of the Q31 division and of
      the integer square root.
    - [SplVec]: [SP/min_max_operations.c], [copy_set_operations.c],
      [vector_scaling_operations.c], [get_scaling_square.c], [energy.c],
      [cross_correlation.c], [auto_correlation.c], [ilbc_specific_functions.c],
      [randomization_functions.c].  Correlation and energy are exact, extremes
      are extremes, the random generator is a bijection.
    - [SplLpc], [SplLevinson]: [SP/auto_corr_to_refl_coef.c],
      [refl_coef_to_lpc.c]; [levinson_durbin.c], [lpc_to_refl_coef.c].
      Reflection coefficients are below one in magnitude whatever the
      correlations; the double-precision recursion stays in its arrays and
      reports exactly the unstable rounds it tests.
    - [SplFft]: [SP/complex_bit_reverse.c], [complex_fft.c],
      [complex_fft_tables.h], [real_fft.c].  The in-place transforms are the
      recursive ones ([fft_ref]); where the fixed and the computed scaling
      exclude overflow; packing and unpacking of real spectra.
    - [SplFilter]: [SP/filter_ma_fast_q12.c], [filter_ar_fast_q12.c],
      [filter_ar.c], [downsample_fast.c], [get_hanning_window.c].  The filters
      compute their difference equations; a signal may be fed in pieces.
    - [SplQmf]: [SP/splitting_filter.c].  The all-pass cascades of the two-band
      filter bank are exact from states inside an invariant.
    - [SplResample]: [SP/resample_by_2_internal.c], [resample_fractional.c],
      [resample_48khz.c], [resample_by_2.c].  Safety of the converters on their
      shared scratch array; the fractional filter may work in place.
    - [SplResample22]: [SP/resample.c].  The same for 22 kHz: safety, and the
      fractional filters on overlapping input and output.
    - [VadFilter]: [common_audio/vad/vad_core.h] (the instance record),
      [vad_sp.c], [vad_gmm.c], [vad_filterbank.c].  The minimum tracker keeps
      the 16 smallest values sorted and ages them ([survivors]); the filter bank
      stays inside its local arrays ([VadLocals]) and the features in their
      range.
    - [VadCore]: [common_audio/vad/vad_core.c] and [webrtc_vad.c].  The
      instance invariant [vad_wf] and its preservation by every operation, the
      interface's error paths, the hangover.
    - [RingBuffer]: [common_audio/ring_buffer.c].  Refinement of an abstract
      circular memory, and of a bounded queue for forward operations.
    - [IsacArith], [IsacStream], [IsacEncoder], [IsacDecoder]:
      [IS/arith_routines.c], [IS/arith_routines_hist.c] and the structs of
      [IS/structs.h].  [IsacArith] has the definitions, [IsacStream] reads a
      word stream as a base-256 number, [IsacEncoder] shows that the encoder
      computes nested intervals of such numbers ([trace]), [IsacDecoder] that a
      decoder with any correct table search (class [CdfSearch], with an
      instance for each of the two search loops) follows the same intervals.
      The round trip, totality, and the one packet length at which termination
      writes past the array.
    - [IsacLogistic]: [IS/arith_routines_logist.c] and the stream set-up of
      [IS/isacfix.c].  Monotonicity of the piecewise cdf, the round trip of the
      spectrum, and the inputs on which the decoder fails.
    - [IsacTransmit]: the interface of the parameter coders.  A decoder is a
      function from a stream state to a result and a new state; [transmits]
      says that it returns given values when it starts where an encoder
      started and leaves the stream where the encoder left it; the class
      [StreamCodec] pairs an encoder with its decoder.  Sequencing lemmas let
      the files below compose codecs without looking inside them.
    - [IsacTables]: the constant tables of [IS/spectrum_ar_model_tables.c],
      [pitch_gain_tables.c], [pitch_lag_tables.c] and [lpc_tables.c].
    - [IsacSpectrum], [IsacPitch], [IsacLar], [IsacLpc]: the operations of
      [IS/entropy_coding.c].  [IsacSpectrum] codes the AR model and the
      dithered, quantised spectrum; [IsacPitch] the frame length, bandwidth
      index, pitch gains and pitch lags; [IsacLar] the conversion of
      reflection coefficients to log-area ratios and back; [IsacLpc] the
      transform, quantisation and coding of prediction coefficients and gains.
      Encoders return for arbitrary input inside their tables, and decoders
      return the quantised parameters.
    - [IsacPacket]: [WebRtcIsacfix_EncodeStoredData] of [IS/encode.c] and the
      bit stream part of [IS/decode.c].  A whole packet of one or two frames,
      written to bytes and read back.
    - [IsacBwe]: [IS/bandwidth_estimator.c] and [IS/decode_bwe.c].  The
      estimator's state record, every operation on it, and the invariant that
      keeps its rates, counters and table indices in range.
    - [IsacFilters]: [IS/filters.c], [IS/filterbanks.c] and
      [IS/filterbank_tables.c].  The autocorrelation is exact; analysis and
      synthesis filter banks and the decimator treat consecutive frames as one
      signal.
    - [IsacLattice]: [IS/lattice.c], [IS/lattice_c.c].  The lattice filters equal
      the lattice run sample by sample; the synthesis filter does not overflow.
    - [IsacPitchFilter]: [IS/pitch_filter.c], [IS/pitch_filter_c.c].  The filter is
      a scan of one exact step over the samples, independent of its local
      buffer; the gain search is exact for moderate amplitudes, and how it fails
      beyond.
    - [IsacPitchEstimator]: [IS/pitch_estimator.c], [IS/pitch_estimator_c.c].  The
      correlation, the peak search against a stable ranking, the range of the
      lags, and the invariant under which frame after frame is analysed with the
      pitch filter.
    - [IsacTransform]: [IS/fft.c], [IS/transform.c], [IS/transform_tables.c].
      The transform of 240 points in place is the mixed-radix recursion over its
      rounded butterflies ([dif]); both transforms of a frame are functions of
      the samples that never leave their arrays; where the 16 bits overflow.
    - [IsacState]: the instance structs of [IS/structs.h] and [IS/initialize.c].
    - [IsacApi]: [IS/isacfix.c] without coding and decoding of frames.  The
      instance invariant, its preservation by every call, the estimator updates
      that packet headers cause, and the error codes of the interface.
    - [IsacDecode]: the frame decoder of [IS/decode.c] and [WebRtcIsacfix_Decode].
      Decoding is parsing, then synthesis; every outcome of a call; the invariant
      of an instance through packets and all modelled calls; a packet built by
      the encoder comes out as speech without an error.

    ** Bounds

    The iSAC encoder array has 200 words, so renormalisation stops after at
    most 401 bytes ([enc_fuel]); a decoder stops at the end of its 305 words
    ([dec_fuel]).  Bisection halves a 16-bit size ([bisect_fuel] is 16).  The
    clipping loop moves an [int16_t] by 128 towards zero ([clip_fuel] is 260),
    and the scans of the logistic decoder have 512 candidates ([scan_fuel] is
    513).  The spectrum theorems ask for widths of at least 52, which is where
    the decoder's scans are known to end.  The ring buffer theorems hold for up
    to [2^30 - 1] elements, where the source's conversions to [int] are exact.
    The array [EncodeStoredData] leaves uninitialised for a scale of at most 0
    is the argument [junk].  The encoder and the decoder rebuild the shape of
    the prediction parameters with different rounding ([enc_shape] and
    [shape_of_indices]), so the round trip is stated with the decoder's.  In
    [IsacPitchFilter] a [None] also stands for a shift by more than 31 bits, in
    [IsacBwe] also for a division by zero, and the estimator
    theorems ask that the clocks advance by less than [2^31] samples between
    packets, as the code's signed differences do.

    The SPL transforms have at most ten passes ([fft_fuel] is 11, and
    [halve_until] gets a step for every bit of the length).  A forward transform
    is free of overflow for moduli up to 32758 ([fft_no_overflow]), an FIR
    filter for coefficient sums up to 65535, a fractional 22 kHz filter for
    samples up to 38000.  Uninitialised local arrays are arguments ([junk],
    [QmfBuffers], [VadLocals], [PitchLocals], [Buffers], the buffers of the real
    transforms), and the theorems hold for all contents.

    ** Not modelled

    Assembly, MIPS and NEON variants (the portable C variant is the one
    modelled), C++ code, the floating-point iSAC codec, vendored libraries.
    Of the fixed-point iSAC codec the masking model, loss concealment, the
    real-time encoder of [IS/encode.c] with its rate reduction loop, and with
    them the calls of [isacfix.c] that encode or conceal a frame or free memory;
    of SPL the selection of platform variants in [SP/spl_init.c]. *)
From Stdlib Require Export ZArith Lia.
From stdpp Require Export base list numbers option.
Open Scope Z_scope.

(** * Machine integers

    A C integer is a [Z] kept in the range of its type; every conversion the
    source performs is written out with one of the functions below.  Signed
    conversions wrap modulo [2^w] (two's complement), the behaviour of every
    compiler the repository builds with. *)

Definition u8 (z : Z) : Z := z mod 2 ^ 8.
Definition u16 (z : Z) : Z := z mod 2 ^ 16.
Definition u32 (z : Z) : Z := z mod 2 ^ 32.
Definition u64 (z : Z) : Z := z mod 2 ^ 64.
Definition i8 (z : Z) : Z := (z + 2 ^ 7) mod 2 ^ 8 - 2 ^ 7.
Definition i16 (z : Z) : Z := (z + 2 ^ 15) mod 2 ^ 16 - 2 ^ 15.
Definition i32 (z : Z) : Z := (z + 2 ^ 31) mod 2 ^ 32 - 2 ^ 31.
Definition i64 (z : Z) : Z := (z + 2 ^ 63) mod 2 ^ 64 - 2 ^ 63.

Definition is_u8 (z : Z) : Prop := 0 <= z < 2 ^ 8.
Definition is_u16 (z : Z) : Prop := 0 <= z < 2 ^ 16.
Definition is_u32 (z : Z) : Prop := 0 <= z < 2 ^ 32.
Definition is_u64 (z : Z) : Prop := 0 <= z < 2 ^ 64.
Definition is_i16 (z : Z) : Prop := - 2 ^ 15 <= z < 2 ^ 15.
Definition is_i32 (z : Z) : Prop := - 2 ^ 31 <= z < 2 ^ 31.
Definition is_i64 (z : Z) : Prop := - 2 ^ 63 <= z < 2 ^ 63.

#[export] Instance is_u8_dec z : Decision (is_u8 z).
Proof. unfold is_u8; apply _. Defined.
#[export] Instance is_u16_dec z : Decision (is_u16 z).
Proof. unfold is_u16; apply _. Defined.
#[export] Instance is_u32_dec z : Decision (is_u32 z).
Proof. unfold is_u32; apply _. Defined.
#[export] Instance is_i16_dec z : Decision (is_i16 z).
Proof. unfold is_i16; apply _. Defined.
#[export] Instance is_i32_dec z : Decision (is_i32 z).
Proof. unfold is_i32; apply _. Defined.

(** Unfolds every range predicate and conversion and calls [lia] with the
    equations of [Z.div] and [Z.modulo]. *)
Ltac cint_unfold :=
  unfold is_u8, is_u16, is_u32, is_u64, is_i16, is_i32, is_i64,
         u8, u16, u32, u64, i8, i16, i32, i64 in *.
Ltac cint := cint_unfold; Z.div_mod_to_equations; lia.

(** Reduces the option monad's binds and nothing else. *)
Ltac bind_simpl := cbn [mbind option_bind fst snd].

Create HintDb cint.

Section Ranges.
Implicit Types z : Z.

Lemma u8_range z : is_u8 (u8 z).
Proof. cint. Qed.
Lemma u16_range z : is_u16 (u16 z).
Proof. cint. Qed.
Lemma u32_range z : is_u32 (u32 z).
Proof. cint. Qed.
Lemma i16_range z : is_i16 (i16 z).
Proof. cint. Qed.
Lemma i32_range z : is_i32 (i32 z).
Proof. cint. Qed.
Lemma i64_range z : is_i64 (i64 z).
Proof. cint. Qed.

Lemma u8_id z : is_u8 z -> u8 z = z.
Proof. cint. Qed.
Lemma u16_id z : is_u16 z -> u16 z = z.
Proof. cint. Qed.
Lemma u32_id z : is_u32 z -> u32 z = z.
Proof. cint. Qed.
Lemma i16_id z : is_i16 z -> i16 z = z.
Proof. cint. Qed.
Lemma i32_id z : is_i32 z -> i32 z = z.
Proof. cint. Qed.
Lemma u64_id z : is_u64 z -> u64 z = z.
Proof. cint. Qed.
Lemma i64_id z : is_i64 z -> i64 z = z.
Proof. cint. Qed.

Lemma i16_i32 z : is_i16 z -> is_i32 z.
Proof. cint. Qed.
End Ranges.
#[export] Hint Resolve u8_range u16_range u32_range i16_range i32_range
  i64_range i16_i32 : cint.

(** * Bit operations *)

(** Saturation to an interval, the mathematical reading of every [Sat]
    function of the library. *)
Definition clamp (lo hi z : Z) : Z := Z.max lo (Z.min hi z).

Lemma shiftr_div z n : 0 <= n -> z ≫ n = z / 2 ^ n.
Proof. apply Z.shiftr_div_pow2. Qed.

Lemma shiftr_bounds lo hi z n :
  0 <= n -> lo * 2 ^ n <= z < hi * 2 ^ n -> lo <= z ≫ n < hi.
Proof.
  intros Hn [Hlo Hhi]. rewrite shiftr_div by done.
  assert (0 < 2 ^ n) by (apply Z.pow_pos_nonneg; lia). split.
  - apply Z.div_le_lower_bound; lia.
  - apply Z.div_lt_upper_bound; lia.
Qed.

(** An arithmetic right shift never leaves the range of a signed type. *)
Lemma shiftr_signed b z n : 0 <= n -> 0 <= b -> - b <= z < b -> - b <= z ≫ n < b.
Proof.
  intros Hn Hb Hz. assert (1 <= 2 ^ n) by (apply Z.pow_pos_nonneg with (a := 2) in Hn; lia).
  apply shiftr_bounds; [done|nia].
Qed.

Lemma i32_shiftr z n : 0 <= n -> is_i32 z -> is_i32 (z ≫ n).
Proof. intros; unfold is_i32 in *; apply shiftr_signed; lia. Qed.
Lemma i16_shiftr z n : 0 <= n -> is_i16 z -> is_i16 (z ≫ n).
Proof. intros; unfold is_i16 in *; apply shiftr_signed; lia. Qed.

Lemma land_ones_mod z n : 0 <= n -> Z.land z (2 ^ n - 1) = z mod 2 ^ n.
Proof. intros. rewrite <-Z.land_ones, Z.ones_equiv by lia. do 2 f_equal; lia. Qed.

(** A contiguous bit field. *)
Lemma land_field z m k : 0 <= m -> 0 <= k ->
  Z.land z ((2 ^ m - 1) ≪ k) = (z / 2 ^ k) mod 2 ^ m * 2 ^ k.
Proof.
  intros Hm Hk. rewrite <-Z.shiftl_mul_pow2, <-land_ones_mod, <-shiftr_div by lia.
  apply Z.bits_inj'. intros i Hi. rewrite Z.land_spec, !Z.shiftl_spec by lia.
  destruct (Z_lt_le_dec i k).
  - rewrite !(Z.testbit_neg_r _ (i - k)) by lia. apply andb_false_r.
  - rewrite Z.land_spec, Z.shiftr_spec by lia. by replace (i - k + k) with i by lia.
Qed.

(** Joining a value above bit [k] with one below it. *)
Lemma lor_disjoint a b k : 0 <= k -> a mod 2 ^ k = 0 -> 0 <= b < 2 ^ k -> Z.lor a b = a + b.
Proof.
  intros Hk Ha Hb. assert (Z.land a b = 0) as Hz.
  { apply Z.bits_inj'. intros i Hi. rewrite Z.land_spec, Z.bits_0.
    destruct (Z_lt_le_dec i k).
    - rewrite <-(Z.mod_pow2_bits_low a k i), Ha, Z.bits_0 by lia. done.
    - rewrite <-(Z.mod_small b (2 ^ k)), Z.mod_pow2_bits_high by lia. apply andb_false_r. }
  rewrite Z.add_nocarry_lxor, Z.lxor_lor by done. done.
Qed.

Lemma mul_i16 a b : is_i16 a -> is_i16 b -> - 2 ^ 30 <= a * b <= 2 ^ 30.
Proof. unfold is_i16; intros; nia. Qed.

(** * Arrays

    A C array is the list of its cells.  [arr l i] reads cell [i]; reads of
    the modelled code stay inside the array, which the length invariants of
    each component show.  Where an access may leave the array, the model reads
    with [!!] and propagates the failure instead. *)

Definition arr (l : list Z) (i : Z) : Z := nth (Z.to_nat i) l 0.
Definition upd (l : list Z) (i : Z) (v : Z) : list Z := <[Z.to_nat i := v]> l.

Lemma length_upd l i v : length (upd l i v) = length l.
Proof. apply length_insert. Qed.

Lemma arr_lookup l i : 0 <= i < Z.of_nat (length l) -> l !! Z.to_nat i = Some (arr l i).
Proof.
  intros. destruct (lookup_lt_is_Some_2 l (Z.to_nat i)) as [x Hx]; [lia|].
  unfold arr. by rewrite Hx, (nth_lookup_Some _ _ _ _ Hx).
Qed.

Lemma arr_upd_eq l i v : 0 <= i < Z.of_nat (length l) -> arr (upd l i v) i = v.
Proof.
  intros. unfold arr, upd. erewrite nth_lookup_Some; [done|].
  apply list_lookup_insert_eq. lia.
Qed.

Lemma arr_upd_ne l i j v : 0 <= i -> 0 <= j -> i <> j -> arr (upd l i v) j = arr l j.
Proof.
  intros. unfold arr, upd. rewrite !nth_lookup.
  rewrite list_lookup_insert_ne by lia. done.
Qed.

Lemma arr_Forall (P : Z -> Prop) l i : P 0 -> Forall P l -> P (arr l i).
Proof.
  intros H0 HP. unfold arr. destruct (lt_dec (Z.to_nat i) (length l)).
  - rewrite Forall_forall in HP. apply HP, nth_In. done.
  - by rewrite nth_overflow by lia.
Qed.

Lemma Forall_upd (P : Z -> Prop) l i v : Forall P l -> P v -> Forall P (upd l i v).
Proof. intros. by apply Forall_insert. Qed.
#[export] Hint Resolve Forall_upd : cint.

(** * Loops

    [for_loop n f s] is [for (i = 0; i < n; i++) s = f(i, s)]. *)

Fixpoint for_from {S : Type} (i n : nat) (f : Z -> S -> S) (s : S) : S :=
  match n with
  | O => s
  | Datatypes.S n' => for_from (Datatypes.S i) n' f (f (Z.of_nat i) s)
  end.
Definition for_loop {S : Type} (n : Z) (f : Z -> S -> S) (s : S) : S :=
  for_from 0 (Z.to_nat n) f s.

Lemma for_from_ind {S : Type} (P : Z -> S -> Prop) f n : forall i s,
  P (Z.of_nat i) s ->
  (forall j s, Z.of_nat i <= j < Z.of_nat (i + n) -> P j s -> P (j + 1) (f j s)) ->
  P (Z.of_nat (i + n)) (for_from i n f s).
Proof.
  induction n as [|n IH]; intros i s Hs Hstep; simpl.
  - by replace (i + 0)%nat with i by lia.
  - replace (i + Datatypes.S n)%nat with (Datatypes.S i + n)%nat by lia. apply IH.
    + replace (Z.of_nat (Datatypes.S i)) with (Z.of_nat i + 1) by lia.
      apply Hstep; [lia|done].
    + intros j s' Hj. apply Hstep. lia.
Qed.

(** The invariant rule of a counted loop. *)
Lemma for_loop_ind {S : Type} (P : Z -> S -> Prop) f n s :
  0 <= n -> P 0 s ->
  (forall j s, 0 <= j < n -> P j s -> P (j + 1) (f j s)) ->
  P n (for_loop n f s).
Proof.
  intros Hn Hs Hstep. unfold for_loop.
  replace n with (Z.of_nat (0 + Z.to_nat n)) at 1 by lia.
  apply for_from_ind; [done|]. intros j s' Hj. apply Hstep. lia.
Qed.

Lemma for_loop_pres {S : Type} (P : S -> Prop) f n s :
  P s -> (forall j s, 0 <= j < n -> P s -> P (f j s)) -> P (for_loop n f s).
Proof.
  intros Hs Hstep. destruct (Z_le_gt_dec 0 n).
  - apply (for_loop_ind (fun _ => P)); auto.
  - unfold for_loop. by replace (Z.to_nat n) with 0%nat by lia.
Qed.

(** The same loop with a body that may fail: [None] is an access outside an
    array. *)
Fixpoint for_opt_from {S : Type} (i n : nat) (f : Z -> S -> option S) (s : S) : option S :=
  match n with
  | O => Some s
  | Datatypes.S n' => s' ← f (Z.of_nat i) s; for_opt_from (Datatypes.S i) n' f s'
  end.
Definition for_opt {S : Type} (n : Z) (f : Z -> S -> option S) (s : S) : option S :=
  for_opt_from 0 (Z.to_nat n) f s.

Lemma for_opt_ind {S : Type} (P : Z -> S -> Prop) f n s :
  0 <= n -> P 0 s ->
  (forall j s, 0 <= j < n -> P j s -> exists s', f j s = Some s' /\ P (j + 1) s') ->
  exists s', for_opt n f s = Some s' /\ P n s'.
Proof.
  intros Hn Hs Hstep. unfold for_opt.
  enough (forall m i s, Z.of_nat i + Z.of_nat m = n -> P (Z.of_nat i) s ->
            exists s', for_opt_from i m f s = Some s' /\ P n s') as H.
  { apply (H _ 0%nat); [lia|done]. }
  clear s Hs. induction m as [|m IH]; intros i s Him Hs; simpl.
  - exists s. split; [done|]. by replace n with (Z.of_nat i) by lia.
  - destruct (Hstep (Z.of_nat i) s ltac:(lia) Hs) as (s' & -> & Hs'). simpl.
    apply IH; [lia|]. by replace (Z.of_nat (Datatypes.S i)) with (Z.of_nat i + 1) by lia.
Qed.

Lemma for_opt_ext {S : Type} (f g : Z -> S -> option S) n s :
  (forall j s, 0 <= j < n -> f j s = g j s) -> for_opt n f s = for_opt n g s.
Proof.
  intros H. unfold for_opt.
  enough (forall m i s, Z.of_nat i + Z.of_nat m <= n \/ m = 0%nat ->
            for_opt_from i m f s = for_opt_from i m g s) as He by (apply He; lia).
  induction m as [|m IH]; intros i t Him; [done|]. simpl. rewrite H by lia.
  destruct (g _ t); simpl; [|done]. apply IH. lia.
Qed.

(** Checked read of a cell. *)
Definition rd (l : list Z) (i : Z) : option Z := if 0 <=? i then l !! Z.to_nat i else None.

Lemma rd_Some l i : 0 <= i < Z.of_nat (length l) -> rd l i = Some (arr l i).
Proof. intros. unfold rd. rewrite (proj2 (Z.leb_le 0 i)) by lia. by apply arr_lookup. Qed.

(** Checked write of a cell. *)
Definition wr (l : list Z) (i v : Z) : option (list Z) :=
  if (0 <=? i) && (i <? Z.of_nat (length l)) then Some (upd l i v) else None.

Lemma wr_Some l i v : 0 <= i < Z.of_nat (length l) -> wr l i v = Some (upd l i v).
Proof.
  intros. unfold wr. rewrite (proj2 (Z.leb_le 0 i)), (proj2 (Z.ltb_lt i _)) by lia. done.
Qed.

(** [zsum f n] is [f 0 + ... + f (n-1)] over the integers. *)
Fixpoint zsum (f : Z -> Z) (n : nat) : Z :=
  match n with
  | O => 0
  | S m => zsum f m + f (Z.of_nat m)
  end.

Lemma zsum_bound f B n : (forall j, - B <= f j <= B) ->
  - (B * Z.of_nat n) <= zsum f n <= B * Z.of_nat n.
Proof.
  intros H. induction n as [|n IH]; [simpl; lia|].
  change (zsum f (S n)) with (zsum f n + f (Z.of_nat n)). specialize (H (Z.of_nat n)). lia.
Qed.

Lemma zsum_snoc f j : 0 <= j -> zsum f (Z.to_nat (j + 1)) = zsum f (Z.to_nat j) + f j.
Proof.
  intros Hj. replace (Z.to_nat (j + 1)) with (S (Z.to_nat j)) by lia. simpl. by rewrite Z2Nat.id.
Qed.

Lemma zsum_ext f g n : (forall i, 0 <= i < Z.of_nat n -> f i = g i) -> zsum f n = zsum g n.
Proof.
  induction n as [|n IH]; intros E; [done|]. cbn [zsum]. rewrite E by lia. f_equal.
  apply IH. intros. apply E. lia.
Qed.

Lemma zsum_head f n : zsum f (S n) = f 0 + zsum (fun i => f (i + 1)) n.
Proof.
  induction n as [|n IH]; [cbn [zsum]; change (Z.of_nat 0) with 0; lia|]. change (zsum f (S (S n))) with (zsum f (S n) + f (Z.of_nat (S n))).
  rewrite IH. cbn [zsum]. replace (Z.of_nat (S n)) with (Z.of_nat n + 1) by lia. lia.
Qed.

(** * Sorted tables

    Nondecreasing, as an executable test. *)
Fixpoint sortedb (l : list Z) : bool :=
  match l with
  | a :: (b :: _) as t => (a <=? b) && sortedb t
  | _ => true
  end.

Lemma sortedb_nth l : sortedb l = true -> forall i j : nat, (i <= j < length l)%nat ->
  nth i l 0 <= nth j l 0.
Proof.
  induction l as [|a [|b l] IH]; intros Hs i j Hij; simpl length in *; [lia| |].
  - by replace i with 0%nat by lia; replace j with 0%nat by lia.
  - cbn [sortedb] in Hs. apply andb_true_iff in Hs as [Hab Hs]. apply Z.leb_le in Hab.
    specialize (IH Hs). destruct i as [|i], j as [|j]; try lia.
    + transitivity b; [done|]. apply (IH 0%nat j). simpl. lia.
    + apply (IH i j). simpl. lia.
Qed.

Lemma sortedb_arr tbl i j : sortedb tbl = true -> 0 <= i <= j -> j < Z.of_nat (length tbl) ->
  arr tbl i <= arr tbl j.
Proof. intros Hs Hij Hj. apply sortedb_nth; [done|lia]. Qed.

Lemma sortedb_intro l :
  (forall i, 0 <= i -> i + 1 < Z.of_nat (length l) -> arr l i <= arr l (i + 1)) -> sortedb l = true.
Proof.
  induction l as [|a [|b l] IH]; intros H; [done|done|]. cbn [sortedb]. apply andb_true_iff. split.
  - apply Z.leb_le. apply (H 0); [lia|simpl; lia].
  - apply IH. intros i Hi Hl. specialize (H (i + 1)). unfold arr in *.
    replace (Z.to_nat (i + 1 + 1)) with (S (S (Z.to_nat i))) in H by lia.
    replace (Z.to_nat (i + 1)) with (S (Z.to_nat i)) in * by lia.
    simpl in *. apply H; lia.
Qed.

(** A 16-bit array of [n] cells. *)
Definition w16 (n : nat) (l : list Z) : Prop := length l = n /\ Forall is_i16 l.

Lemma w16_upd n l i v : w16 n l -> is_i16 v -> w16 n (upd l i v).
Proof. intros [Hl Hf] Hv. split; [by rewrite length_upd|by apply Forall_upd]. Qed.
Lemma w16_arr n l i : w16 n l -> is_i16 (arr l i).
Proof. intros [_ Hf]. apply arr_Forall; [unfold is_i16; lia|done]. Qed.
Lemma w16_rd n l i : w16 n l -> 0 <= i < Z.of_nat n -> rd l i = Some (arr l i) /\ is_i16 (arr l i).
Proof. intros H Hi. split; [apply rd_Some; destruct H as [-> _]; done|by apply (w16_arr n)]. Qed.
#[export] Hint Resolve w16_upd w16_arr : cint.

(** * Assertions

    A failed [RTC_DCHECK] ends the program, which is [None] as well. *)
Definition RTC_DCHECK (b : bool) : option unit := if b then Some tt else None.

Lemma RTC_DCHECK_true {A} b (k : unit -> option A) : b = true -> (RTC_DCHECK b ≫= k) = k tt.
Proof. by intros ->. Qed.

(** * Memory blocks

    [mem_read m off n] and [mem_write m off bs] are the two halves of a
    [memcpy]: [n] cells at offset [off] of a block, or [None] when any of them
    lies outside the block. *)

Definition in_block {A} (m : list A) (off n : Z) : bool :=
  (0 <=? off) && (0 <=? n) && (off + n <=? Z.of_nat (length m)).

Definition mem_read {A} (m : list A) (off n : Z) : option (list A) :=
  if in_block m off n then Some (take (Z.to_nat n) (drop (Z.to_nat off) m)) else None.

Definition mem_write {A} (m : list A) (off : Z) (bs : list A) : option (list A) :=
  if in_block m off (Z.of_nat (length bs))
  then Some (take (Z.to_nat off) m ++ bs ++ drop (Z.to_nat off + length bs) m)
  else None.

Lemma in_block_spec {A} (m : list A) off n :
  in_block m off n = true <-> 0 <= off /\ 0 <= n /\ off + n <= Z.of_nat (length m).
Proof. unfold in_block. rewrite !andb_true_iff, !Z.leb_le. lia. Qed.

Lemma mem_read_Some {A} (m : list A) off n :
  0 <= off -> 0 <= n -> off + n <= Z.of_nat (length m) ->
  mem_read m off n = Some (take (Z.to_nat n) (drop (Z.to_nat off) m)).
Proof. intros. unfold mem_read. by rewrite (proj2 (in_block_spec m off n)). Qed.

Lemma mem_write_Some {A} (m : list A) off bs :
  0 <= off -> off + Z.of_nat (length bs) <= Z.of_nat (length m) ->
  mem_write m off bs
  = Some (take (Z.to_nat off) m ++ bs ++ drop (Z.to_nat off + length bs) m).
Proof.
  intros. unfold mem_write. rewrite (proj2 (in_block_spec m off _)); [done|lia].
Qed.

(** A written block, cell by cell. *)
Lemma lookup_written {A} (m bs : list A) (off i : nat) :
  (off + length bs <= length m)%nat ->
  (take off m ++ bs ++ drop (off + length bs) m) !! i
  = if decide (off <= i < off + length bs)%nat then bs !! (i - off)%nat else m !! i.
Proof.
  intros Hl. assert (length (take off m) = off) as Ht by (rewrite length_take; lia).
  destruct (decide (off <= i < off + length bs)%nat) as [Hi|Hi].
  - rewrite lookup_app_r by lia. rewrite Ht. apply lookup_app_l. lia.
  - destruct (decide (i < off)%nat).
    + rewrite lookup_app_l by lia. apply lookup_take_lt. lia.
    + rewrite lookup_app_r by lia. rewrite lookup_app_r by lia. rewrite lookup_drop. f_equal. lia.
Qed.

(** * Rings

    [rot k l] reads the ring [l] starting at cell [k] (mod its length);
    [splice off bs l] overwrites [l] with [bs] from [off] on. *)

Definition rot {A} (k : Z) (l : list A) : list A :=
  let m := Z.to_nat (k mod Z.of_nat (length l)) in drop m l ++ take m l.

Definition splice {A} (off : nat) (bs l : list A) : list A :=
  take off l ++ bs ++ drop (off + length bs) l.

Lemma length_rot {A} k (l : list A) : length (rot k l) = length l.
Proof.
  unfold rot. rewrite length_app, length_drop, length_take.
  destruct l as [|x l]; [simpl; lia|].
  pose proof (Z.mod_pos_bound k (Z.of_nat (length (x :: l)))). simpl length in *. lia.
Qed.

Lemma lookup_rot {A} k (l : list A) (i : nat) : (i < length l)%nat ->
  rot k l !! i = l !! Z.to_nat ((k + Z.of_nat i) mod Z.of_nat (length l)).
Proof.
  intros Hi. unfold rot. set (len := Z.of_nat (length l)).
  assert (0 < len) by lia. pose proof (Z.mod_pos_bound k len ltac:(done)).
  rewrite <-(Z.add_mod_idemp_l k) by lia.
  destruct (decide (Z.of_nat i < len - k mod len)).
  - rewrite lookup_app_l by (rewrite length_drop; lia). rewrite lookup_drop.
    rewrite (Z.mod_small (_ + _)) by lia. f_equal. lia.
  - rewrite lookup_app_r by (rewrite length_drop; lia). rewrite length_drop.
    rewrite lookup_take_lt by lia. f_equal.
    replace ((k mod len + Z.of_nat i) mod len) with (k mod len + Z.of_nat i - len); [lia|].
    rewrite <-(Z.mod_add (_ + _) (-1)) by lia. rewrite (Z.mod_small (_ + _)); lia.
Qed.

Lemma rot_mod {A} k k' (l : list A) :
  k mod Z.of_nat (length l) = k' mod Z.of_nat (length l) -> rot k l = rot k' l.
Proof. unfold rot. by intros ->. Qed.

Lemma rot_rot {A} a b (l : list A) : rot a (rot b l) = rot (a + b) l.
Proof.
  apply list_eq_same_length with (n := length l); rewrite ?length_rot; try done.
  intros i x y Hi. rewrite lookup_rot by (rewrite length_rot; lia).
  rewrite length_rot. set (len := Z.of_nat (length l)). assert (0 < len) by lia.
  pose proof (Z.mod_pos_bound (a + Z.of_nat i) len ltac:(done)).
  rewrite lookup_rot by lia. rewrite (lookup_rot (a + b)) by lia. fold len.
  rewrite Z2Nat.id by lia. rewrite Z.add_mod_idemp_r by lia.
  replace (b + (a + Z.of_nat i)) with (a + b + Z.of_nat i) by lia. congruence.
Qed.

Lemma length_splice {A} off (bs l : list A) :
  (off + length bs <= length l)%nat -> length (splice off bs l) = length l.
Proof. intros. unfold splice. rewrite !length_app, length_take, length_drop. lia. Qed.
