(* ===== verification/Signal.v ===== *)
(** Sample streams: running a step function over a list of samples ([scan]),
    and what a loop that filters an array in place leaves behind
    ([overwritten]).  Shared by the iSAC filters. *)
From S2P Require Import Prelude.

(** * Running a step function *)

Section Scan.
Context {St : Type} (step : St -> Z -> Z * St).

(** The outputs, and the state after the last sample. *)
Fixpoint scan (s : St) (xs : list Z) : list Z * St :=
  match xs with
  | [] => ([], s)
  | x :: xs => let y := step s x in let r := scan y.2 xs in (y.1 :: r.1, r.2)
  end.

Lemma length_scan xs : forall s, length (scan s xs).1 = length xs.
Proof. induction xs as [|x xs IH]; intros s; cbn; [done|]. by rewrite IH. Qed.

(** Samples may be fed in pieces. *)
Lemma scan_app xs ys : forall s, scan s (xs ++ ys)
  = ((scan s xs).1 ++ (scan (scan s xs).2 ys).1, (scan (scan s xs).2 ys).2).
Proof.
  induction xs as [|x xs IH]; intros s; cbn [app scan fst snd]; [by destruct (scan s ys)|].
  by rewrite IH.
Qed.

Lemma scan_snoc s xs x :
  scan s (xs ++ [x]) = ((scan s xs).1 ++ [(step (scan s xs).2 x).1], (step (scan s xs).2 x).2).
Proof. by rewrite scan_app. Qed.

(** An invariant of the state and what it gives for the outputs. *)
Lemma scan_inv (I : St -> Prop) (P Q : Z -> Prop) :
  (forall s x, I s -> P x -> Q (step s x).1 /\ I (step s x).2) ->
  forall xs s, I s -> Forall P xs -> Forall Q (scan s xs).1 /\ I (scan s xs).2.
Proof.
  intros H. induction xs as [|x xs IH]; intros s Hs Hx; cbn; [by split|].
  inversion Hx; subst. destruct (H s x) as [Hq Hi]; [done|done|].
  destruct (IH (step s x).2) as [? ?]; [done|done|]. by split; [constructor|].
Qed.

Lemma scan_take xs s k : take k (scan s xs).1 = (scan s (take k xs)).1.
Proof.
  rewrite <-(take_drop k xs) at 1. rewrite scan_app. cbn [fst].
  destruct (decide (k <= length xs)%nat).
  - rewrite take_app_length'; [done|]. rewrite length_scan, length_take. lia.
  - rewrite (drop_ge xs) by lia. cbn [scan fst]. rewrite app_nil_r. apply take_ge.
    rewrite length_scan, length_take. lia.
Qed.
End Scan.

Lemma scan_ext {St} (f g : St -> Z -> Z * St) xs : (forall s x, f s x = g s x) ->
  forall s, scan f s xs = scan g s xs.
Proof. intros E. induction xs as [|x xs IH]; intros s; cbn; [done|]. by rewrite E, IH. Qed.

(** Two steps in a row per sample, or one pass after the other. *)
Definition chain {S T} (f : S -> Z -> Z * S) (g : T -> Z -> Z * T) (s : S * T) (x : Z) : Z * (S * T) :=
  let y := f s.1 x in let z := g s.2 y.1 in (z.1, (y.2, z.2)).

Lemma scan_chain {S T} (f : S -> Z -> Z * S) (g : T -> Z -> Z * T) xs : forall s t,
  scan (chain f g) (s, t) xs
  = ((scan g t (scan f s xs).1).1, ((scan f s xs).2, (scan g t (scan f s xs).1).2)).
Proof.
  induction xs as [|x xs IH]; intros s t; cbn; [done|]. by rewrite IH.
Qed.

(** * Samples of an array *)

(** [n] cells from [base] on, [stride] apart. *)
Definition strided (stride base : Z) (n : nat) (data : list Z) : list Z :=
  map (fun k => arr data (base + stride * k)) (seqZ 0 (Z.of_nat n)).

Lemma length_strided stride base n data : length (strided stride base n data) = n.
Proof. unfold strided. rewrite length_map, length_seqZ. lia. Qed.

Lemma arr_strided stride base n data k : 0 <= k < Z.of_nat n ->
  arr (strided stride base n data) k = arr data (base + stride * k).
Proof.
  intros Hk. unfold arr at 1. apply nth_lookup_Some. unfold strided.
  change (map ?f ?l) with (f <$> l). rewrite list_lookup_fmap, lookup_seqZ_lt by lia. cbn.
  by replace (0 + Z.of_nat (Z.to_nat k)) with k by lia.
Qed.

Lemma strided_snoc stride base n data :
  strided stride base (S n) data = strided stride base n data ++ [arr data (base + stride * Z.of_nat n)].
Proof.
  unfold strided. replace (Z.of_nat (S n)) with (Z.of_nat n + 1) by lia.
  rewrite seqZ_app, map_app by lia. by rewrite Z.add_0_l.
Qed.

Lemma Forall_strided (P : Z -> Prop) stride base n data : P 0 -> Forall P data ->
  Forall P (strided stride base n data).
Proof. intros H0 H. apply Forall_map, Forall_true. intros k. by apply arr_Forall. Qed.

Lemma list_arr (l l' : list Z) : length l = length l' ->
  (forall k, 0 <= k < Z.of_nat (length l) -> arr l k = arr l' k) -> l = l'.
Proof.
  intros HL H. apply (nth_ext _ _ 0 0 HL). intros n Hn. specialize (H (Z.of_nat n)).
  unfold arr in H. rewrite Nat2Z.id in H. apply H. lia.
Qed.

Lemma mem_read_cells d n bs : mem_read d 0 n = Some bs -> Z.of_nat (length bs) = n /\
  (forall i, 0 <= i < n -> arr bs i = arr d i) /\ (Forall is_i16 d -> Forall is_i16 bs).
Proof.
  unfold mem_read. destruct (in_block d 0 n) eqn:E; [|done]. apply in_block_spec in E as (_ & Hn & E).
  intros [= <-]. rewrite Z2Nat.inj_0, drop_0. split; [rewrite length_take; lia|]. split.
  - intros i Hi. unfold arr. rewrite !nth_lookup. by rewrite lookup_take_lt by lia.
  - intros. by apply Forall_take.
Qed.

Lemma arr_cat_l l l' k : 0 <= k < Z.of_nat (length l) -> arr (l ++ l') k = arr l k.
Proof. intros H. unfold arr. by rewrite app_nth1 by lia. Qed.
Lemma arr_cat_r l l' k : Z.of_nat (length l) <= k -> arr (l ++ l') k = arr l' (k - Z.of_nat (length l)).
Proof. intros H. unfold arr. rewrite app_nth2 by lia. f_equal. lia. Qed.

Lemma strided_all l : strided 1 0 (length l) l = l.
Proof.
  apply list_arr; rewrite length_strided; [done|]. intros k Hk. rewrite arr_strided by lia. f_equal. lia.
Qed.

Lemma strided_ext stride base base' n data data' :
  (forall k, 0 <= k < Z.of_nat n -> arr data (base + stride * k) = arr data' (base' + stride * k)) ->
  strided stride base n data = strided stride base' n data'.
Proof.
  intros H. apply list_arr; rewrite !length_strided; [done|]. intros k Hk. rewrite !arr_strided by lia. by apply H.
Qed.

Lemma strided_take stride base n m data : (m <= n)%nat ->
  take m (strided stride base n data) = strided stride base m data.
Proof.
  intros H. apply list_arr; rewrite ?length_take, ?length_strided; [lia|]. intros k Hk.
  rewrite arr_strided by lia. unfold arr at 1. rewrite nth_lookup, lookup_take_lt by lia.
  rewrite <-nth_lookup. change (arr (strided stride base n data) k = arr data (base + stride * k)).
  rewrite arr_strided by lia. done.
Qed.

(** * Arrays written by a loop *)

(** [data'] is [data] with the cells [base + stride * k] replaced by [ys]. *)
Definition overwritten (stride base : Z) (ys data data' : list Z) : Prop :=
  length data' = length data /\
  (forall k, 0 <= k < Z.of_nat (length ys) -> arr data' (base + stride * k) = arr ys k) /\
  (forall i, 0 <= i -> (forall k, 0 <= k < Z.of_nat (length ys) -> i <> base + stride * k) ->
     arr data' i = arr data i).

Lemma overwritten_nil stride base data : overwritten stride base [] data data.
Proof. split; [done|]. split; [cbn; lia|done]. Qed.

Lemma arr_snoc l y k : 0 <= k < Z.of_nat (length l) -> arr (l ++ [y]) k = arr l k.
Proof. intros H. unfold arr. rewrite app_nth1 by lia. done. Qed.
Lemma arr_snoc_last l y : arr (l ++ [y]) (Z.of_nat (length l)) = y.
Proof. unfold arr. rewrite app_nth2 by lia. by replace (_ - _)%nat with 0%nat by lia. Qed.

Lemma overwritten_snoc stride base ys y data d : 0 < stride -> 0 <= base ->
  overwritten stride base ys data d -> base + stride * Z.of_nat (length ys) < Z.of_nat (length d) ->
  overwritten stride base (ys ++ [y]) data (upd d (base + stride * Z.of_nat (length ys)) y).
Proof.
  intros Hs Hb (HL & Hd & Hu) Hr. set (n := Z.of_nat (length ys)) in *. split; [by rewrite length_upd|].
  rewrite length_app. cbn [length]. split.
  - intros k Hk. destruct (decide (k = n)) as [->|].
    + rewrite arr_upd_eq by nia. by rewrite arr_snoc_last.
    + rewrite arr_upd_ne by nia. rewrite arr_snoc by lia. apply Hd. lia.
  - intros i Hi H. rewrite arr_upd_ne; [|nia|done|intros <-; apply (H n); lia].
    apply Hu; [done|]. intros k Hk. apply H. lia.
Qed.

(** The next cell still holds its old value. *)
Lemma overwritten_next stride base ys data d j : 0 < stride -> 0 <= base ->
  overwritten stride base ys data d -> Z.of_nat (length ys) <= j ->
  arr d (base + stride * j) = arr data (base + stride * j).
Proof. intros Hs Hb (_ & _ & Hu) Hj. apply Hu; [nia|]. intros k Hk. nia. Qed.

Lemma overwritten_strided stride base ys data d : overwritten stride base ys data d ->
  strided stride base (length ys) d = ys.
Proof.
  intros (_ & H & _). apply list_arr; rewrite length_strided; [done|]. intros k Hk.
  rewrite arr_strided by done. by apply H.
Qed.

Lemma overwritten_Forall (P : Z -> Prop) stride base ys data d : P 0 -> overwritten stride base ys data d ->
  Forall P data -> Forall P ys -> Forall P d.
Proof.
  intros H0 (HL & Hd & Hu) F Fy. apply Forall_nth. intros i e Hi. rewrite (nth_indep _ e 0 Hi).
  assert (nth i d 0 = arr d (Z.of_nat i)) as -> by (unfold arr; f_equal; lia).
  destruct (decide (Exists (fun k => Z.of_nat i = base + stride * k) (seqZ 0 (Z.of_nat (length ys))))) as [H|H].
  - apply Exists_exists in H as (k & Hk & ->). apply list_elem_of_In, elem_of_seqZ in Hk. rewrite Hd by lia. by apply arr_Forall.
  - rewrite Hu; [by apply arr_Forall|lia|]. intros k Hk E. apply H, Exists_exists. exists k. split; [|done].
    apply list_elem_of_In, elem_of_seqZ. lia.
Qed.

Lemma overwritten_whole ys data d : overwritten 1 0 ys data d -> length ys = length data -> d = ys.
Proof.
  intros (HL & Hd & _) E. apply list_arr; [lia|]. intros k Hk. rewrite <-Hd by lia. f_equal. lia.
Qed.

(** The loop that filters [n] cells in place. *)
Lemma for_scan {St} (step : St -> Z -> Z * St) stride base (n : nat) data s : 0 < stride -> 0 <= base ->
  (forall k, 0 <= k < Z.of_nat n -> base + stride * k < Z.of_nat (length data)) ->
  let r := scan step s (strided stride base n data) in
  exists data', for_opt (Z.of_nat n) (fun i '(data, s) =>
      x ← rd data (base + stride * i);
      data ← wr data (base + stride * i) (step s x).1;
      Some (data, (step s x).2)) (data, s) = Some (data', r.2) /\
    overwritten stride base r.1 data data'.
Proof.
  intros Hs Hb Hr. cbn zeta.
  destruct (for_opt_ind (fun j (q : list Z * St) => let r := scan step s (strided stride base (Z.to_nat j) data) in
    q.2 = r.2 /\ overwritten stride base r.1 data q.1) (fun i '(data, s) =>
      x ← rd data (base + stride * i);
      data ← wr data (base + stride * i) (step s x).1;
      Some (data, (step s x).2)) (Z.of_nat n) (data, s)) as ([d s'] & E & H1 & H2).
  - lia.
  - split; [done|]. apply overwritten_nil.
  - intros j [d t] Hj [Et Ho]. cbn [fst snd] in *. pose proof Ho as (HL & _ & _).
    assert (length (scan step s (strided stride base (Z.to_nat j) data)).1 = Z.to_nat j) as Lj
      by (rewrite length_scan; apply length_strided).
    assert (base + stride * j < Z.of_nat (length d)) by (rewrite HL; apply Hr; lia).
    rewrite rd_Some by nia. bind_simpl. rewrite wr_Some by nia. bind_simpl. eexists. split; [done|].
    cbn [fst snd]. replace (Z.to_nat (j + 1)) with (S (Z.to_nat j)) by lia. rewrite strided_snoc, scan_snoc.
    cbn [fst snd]. rewrite Z2Nat.id by lia. rewrite Et.
    rewrite (overwritten_next stride base _ data d j Hs Hb Ho) by lia. split; [done|].
    pose proof (overwritten_snoc stride base _ (step (scan step s (strided stride base (Z.to_nat j) data)).2
      (arr data (base + stride * j))).1 data d Hs Hb Ho) as Hn.
    rewrite Lj, Z2Nat.id in Hn by lia. by apply Hn.
  - exists d. cbn [fst snd] in *. rewrite Nat2Z.id in *. subst s'. by split.
Qed.

(** [for_scan] for consecutive cells. *)
Lemma for_scan1 {St} (step : St -> Z -> Z * St) base (n : Z) data s : 0 <= base -> 0 <= n ->
  base + n <= Z.of_nat (length data) ->
  let r := scan step s (strided 1 base (Z.to_nat n) data) in
  exists data', for_opt n (fun i '(data, s) =>
      x ← rd data (base + i);
      data ← wr data (base + i) (step s x).1;
      Some (data, (step s x).2)) (data, s) = Some (data', r.2) /\
    overwritten 1 base r.1 data data'.
Proof.
  intros Hb Hn Hl. cbn zeta.
  destruct (for_scan step 1 base (Z.to_nat n) data s) as (d & E & Ho); [lia|lia|lia|].
  exists d. split; [|done]. rewrite <-E, Z2Nat.id by lia. apply for_opt_ext.
  intros i [d0 s0] Hi. by rewrite Z.mul_1_l.
Qed.

(** Two step functions that agree as long as an invariant holds. *)
Lemma scan_agree {St} (f g : St -> Z -> Z * St) (I : St -> Prop) (P Q : Z -> Prop) :
  (forall s x, I s -> P x -> f s x = g s x /\ Q (g s x).1 /\ I (g s x).2) ->
  forall xs s, I s -> Forall P xs ->
  scan f s xs = scan g s xs /\ Forall Q (scan g s xs).1 /\ I (scan g s xs).2.
Proof.
  intros H. induction xs as [|x xs IH]; intros s Hs Hx; cbn; [by repeat constructor|].
  inversion Hx; subst. destruct (H s x) as (E & Hq & Hi); [done|done|]. rewrite E.
  destruct (IH (g s x).2) as (-> & ? & ?); [done|done|]. split; [done|]. by split; [constructor|].
Qed.

Lemma overwritten_app ys zs data d d' : overwritten 1 0 ys data d ->
  overwritten 1 (Z.of_nat (length ys)) zs d d' -> overwritten 1 0 (ys ++ zs) data d'.
Proof.
  intros (L1 & H1 & U1) (L2 & H2 & U2). split; [congruence|]. rewrite length_app. split.
  - intros k Hk. destruct (decide (k < Z.of_nat (length ys))).
    + rewrite U2 by lia. rewrite H1 by lia. unfold arr. by rewrite app_nth1 by lia.
    + replace (0 + 1 * k) with (Z.of_nat (length ys) + 1 * (k - Z.of_nat (length ys))) by lia. rewrite H2 by lia.
      unfold arr. rewrite app_nth2 by lia. f_equal. lia.
  - intros i Hi H. rewrite U2; [apply U1; [done|]|done|].
    + intros k Hk. apply H. lia.
    + intros k Hk. specialize (H (Z.of_nat (length ys) + k) ltac:(lia)). lia.
Qed.

(** A bind step as a rewrite: unlike reduction it leaves the kernel no choice
    of what to unfold. *)
Lemma bind_Some {A B} (f : A -> option B) (x : A) : mbind f (Some x) = f x.
Proof. reflexivity. Qed.
Ltac bind_step E := rewrite E, bind_Some; cbv beta iota.

(** Runs the first loop of the goal with the invariant [P]: [r] is its result,
    [E] the equation and [H] the invariant at the end. *)
Ltac loop_inv P r E H :=
  match goal with
  | |- context [for_opt ?n ?f ?s] =>
      assert (exists r', for_opt n f s = Some r' /\ P n r') as (r & E & H);
      [apply (for_opt_ind P f n s)|]
  end.

Lemma upd_same l q : 0 <= q < Z.of_nat (length l) -> upd l q (arr l q) = l.
Proof.
  intros Hq. apply list_arr; rewrite length_upd; [done|]. intros k Hk.
  destruct (decide (k = q)) as [->|]; [by rewrite arr_upd_eq by lia|by rewrite arr_upd_ne by lia].
Qed.
Lemma upd_twice l q a b : 0 <= q < Z.of_nat (length l) -> upd (upd l q a) q b = upd l q b.
Proof.
  intros Hq. apply list_arr; rewrite !length_upd; [done|]. intros k Hk.
  destruct (decide (k = q)) as [->|]; [by rewrite !arr_upd_eq by (rewrite ?length_upd; lia)|].
  by rewrite !arr_upd_ne by lia.
Qed.

(** [for_scan] with the state in a cell of an array. *)
Lemma for_scan_cell (step : Z -> Z -> Z * Z) stride base (n : nat) data state q : 0 < stride -> 0 <= base ->
  (forall k, 0 <= k < Z.of_nat n -> base + stride * k < Z.of_nat (length data)) ->
  0 <= q < Z.of_nat (length state) ->
  let r := scan step (arr state q) (strided stride base n data) in
  exists data', for_opt (Z.of_nat n) (fun i '(data, state) =>
      x ← rd data (base + stride * i);
      fs ← rd state q;
      state ← wr state q (step fs x).2;
      data ← wr data (base + stride * i) (step fs x).1;
      Some (data, state)) (data, state) = Some (data', upd state q r.2) /\
    overwritten stride base r.1 data data'.
Proof.
  intros Hs Hb Hr Hq. cbn zeta.
  set (ru := fun j => scan step (arr state q) (strided stride base (Z.to_nat j) data)).
  destruct (for_opt_ind (fun j (u : list Z * list Z) => u.2 = upd state q (ru j).2 /\
      overwritten stride base (ru j).1 data u.1) (fun i '(data, state) =>
      x ← rd data (base + stride * i);
      fs ← rd state q;
      state ← wr state q (step fs x).2;
      data ← wr data (base + stride * i) (step fs x).1;
      Some (data, state)) (Z.of_nat n) (data, state)) as ([d s'] & E & H1 & H2).
  - lia.
  - cbn [fst snd]. split; [|apply overwritten_nil]. unfold ru. cbn. by rewrite upd_same.
  - intros j [d t] Hj [Et Ho]. cbn [fst snd] in *. pose proof Ho as (HL & _ & _). subst t.
    assert (length (ru j).1 = Z.to_nat j) as Lj by (unfold ru; rewrite length_scan; apply length_strided).
    assert (base + stride * j < Z.of_nat (length d)) by (rewrite HL; apply Hr; lia).
    rewrite (rd_Some d) by nia. bind_simpl. rewrite rd_Some by (rewrite length_upd; lia). bind_simpl.
    rewrite (wr_Some (upd state q _)) by (rewrite length_upd; lia). bind_simpl. rewrite wr_Some by nia. bind_simpl.
    eexists. split; [done|]. cbn [fst snd]. rewrite arr_upd_eq, upd_twice by lia.
    assert (ru (j + 1) = ((ru j).1 ++ [(step (ru j).2 (arr data (base + stride * j))).1],
      (step (ru j).2 (arr data (base + stride * j))).2)) as ->.
    { unfold ru. replace (Z.to_nat (j + 1)) with (S (Z.to_nat j)) by lia. rewrite strided_snoc, scan_snoc.
      by rewrite Z2Nat.id by lia. }
    cbn [fst snd]. rewrite (overwritten_next stride base _ data d j Hs Hb Ho) by lia. split; [done|].
    pose proof (overwritten_snoc stride base _ (step (ru j).2 (arr data (base + stride * j))).1 data d Hs Hb Ho) as Hn.
    rewrite Lj, Z2Nat.id in Hn by lia. by apply Hn.
  - exists d. cbn [fst snd] in *. unfold ru in *. rewrite Nat2Z.id in *. subst s'. by split.
Qed.

(** A second pass over the same cells. *)
Lemma overwritten_again stride base ys zs data d d' : overwritten stride base ys data d ->
  overwritten stride base zs d d' -> length zs = length ys -> overwritten stride base zs data d'.
Proof.
  intros (L1 & _ & U1) (L2 & H2 & U2) E. split; [congruence|]. split; [done|].
  intros i Hi H. rewrite U2 by done. apply U1; [done|]. by rewrite <-E.
Qed.

Lemma strided_cat base (n m : nat) xs ys : 0 <= base <= 1 -> length xs = (2 * n)%nat ->
  strided 2 base (n + m) (xs ++ ys) = strided 2 base n xs ++ strided 2 base m ys.
Proof.
  intros Hb HL. apply list_arr; [by rewrite length_app, !length_strided|]. rewrite length_strided. intros k Hk.
  rewrite arr_strided by lia. destruct (decide (k < Z.of_nat n)).
  - rewrite !arr_cat_l by (rewrite ?length_strided; lia). by rewrite arr_strided by lia.
  - rewrite !arr_cat_r by (rewrite ?length_strided; lia). rewrite length_strided, HL, arr_strided by lia. f_equal. lia.
Qed.

(** A loop that fills the cells from [off] on with [ys]. *)
Lemma for_fill (F : Z -> list Z -> option (list Z)) ys off dst (n : Z) : 0 <= off -> n = Z.of_nat (length ys) ->
  off + n <= Z.of_nat (length dst) ->
  (forall i d, 0 <= i < n -> length d = length dst -> F i d = Some (upd d (off + 1 * i) (arr ys i))) ->
  exists d', for_opt n F dst = Some d' /\ overwritten 1 off ys dst d'.
Proof.
  intros Ho Hn Hl HF. loop_inv (fun i d => overwritten 1 off (take (Z.to_nat i) ys) dst d) d E H; [lia| | |].
  - apply overwritten_nil.
  - intros i d Hi Hd. rewrite HF by (done || apply Hd). eexists; split; [reflexivity|].
    replace (Z.to_nat (i + 1)) with (S (Z.to_nat i)) by lia.
    rewrite (take_S_r ys _ (arr ys i)) by (apply arr_lookup; lia).
    assert (Z.of_nat (length (take (Z.to_nat i) ys)) = i) as E by (rewrite length_take; lia).
    pose proof (overwritten_snoc 1 off (take (Z.to_nat i) ys) (arr ys i) dst d) as H. rewrite E in H.
    apply H; [lia|done|done|]. destruct Hd as [Hd _]. lia.
  - exists d. split; [exact E|]. by rewrite take_ge in H by lia.
Qed.

(** Sample [n] of a scan, and the state after it. *)
Lemma scan_state_next {St} (step : St -> Z -> Z * St) s xs n : 0 <= n < Z.of_nat (length xs) ->
  (scan step s (take (Z.to_nat (n + 1)) xs)).2 = (step (scan step s (take (Z.to_nat n) xs)).2 (arr xs n)).2.
Proof.
  intros Hn. replace (Z.to_nat (n + 1)) with (S (Z.to_nat n)) by lia.
  rewrite (take_S_r xs _ (arr xs n)) by (by apply arr_lookup). by rewrite scan_snoc.
Qed.

Lemma arr_scan {St} (step : St -> Z -> Z * St) s xs n : 0 <= n < Z.of_nat (length xs) ->
  arr (scan step s xs).1 n = (step (scan step s (take (Z.to_nat n) xs)).2 (arr xs n)).1.
Proof.
  intros Hn. unfold arr at 1. rewrite nth_lookup, <-(lookup_take_lt _ (S (Z.to_nat n))) by lia.
  rewrite scan_take, (take_S_r xs _ (arr xs n)) by (by apply arr_lookup).
  rewrite scan_snoc. cbn [fst]. rewrite lookup_app_r; rewrite length_scan, length_take; [|lia].
  by replace (Z.to_nat n - _)%nat with 0%nat by lia.
Qed.
