(* ===== verification/SplInl.v ===== *)
(** The inline functions and macros of the fixed-point signal processing
    library: [common_audio/signal_processing/include/spl_inl.h], its table in
    [spl_inl.c], and the macros of
    [common_audio/signal_processing/include/signal_processing_library.h].
    The generic (neither ARMv7 nor MIPS) variants are the ones modelled. *)
From S2P Require Import Prelude.

(** ** Macros of signal_processing_library.h *)

Definition WEBRTC_SPL_WORD16_MAX : Z := 32767.
Definition WEBRTC_SPL_WORD16_MIN : Z := -32768.
Definition WEBRTC_SPL_WORD32_MAX : Z := 2147483647.
Definition WEBRTC_SPL_WORD32_MIN : Z := -2147483648.

Definition WEBRTC_SPL_ABS_W32 (a : Z) : Z := if 0 <=? i32 a then i32 a else i32 (- i32 a).

Definition WEBRTC_SPL_MUL (a b : Z) : Z := i32 (i32 a * i32 b).
Definition WEBRTC_SPL_UMUL (a b : Z) : Z := u32 (u32 a * u32 b).
Definition WEBRTC_SPL_UMUL_32_16 (a b : Z) : Z := u32 (u32 a * u16 b).
Definition WEBRTC_SPL_MUL_16_U16 (a b : Z) : Z := i32 (i16 a * u16 b).
Definition WEBRTC_SPL_MUL_16_16 (a b : Z) : Z := i32 (i16 a * i16 b).

Definition WEBRTC_SPL_MUL_16_32_RSFT11 (a b : Z) : Z :=
  i32 (i32 (WEBRTC_SPL_MUL_16_16 a (b ≫ 16) * (1 ≪ 5))
       + (i32 ((WEBRTC_SPL_MUL_16_U16 a (u16 b) ≫ 1) + 0x0200) ≫ 10)).
Definition WEBRTC_SPL_MUL_16_32_RSFT16 (a b : Z) : Z :=
  i32 (WEBRTC_SPL_MUL_16_16 a (b ≫ 16)
       + (i32 (WEBRTC_SPL_MUL_16_16 a ((Z.land b 0xffff) ≫ 1) + 0x4000) ≫ 15)).

(** [C + (B >> 16) * A + (((uint32_t)(B & 0x0000FFFF) * A) >> 16)]: the last
    product is unsigned, so the whole sum is computed in [uint32_t]; it is
    read back as an [int32_t] by every caller. *)
Definition WEBRTC_SPL_SCALEDIFF32 (A B C : Z) : Z :=
  i32 (C + i32 ((B ≫ 16) * A) + (u32 (Z.land B 0xFFFF * A) ≫ 16)).

(** [WEBRTC_SPL_SAT(a, b, c)]: upper limit first, then the value, then the
    lower limit. *)
Definition WEBRTC_SPL_SAT (a b c : Z) : Z :=
  if a <? b then a else if b <? c then c else b.

Definition WEBRTC_SPL_LSHIFT_W32 (x c : Z) : Z := i32 (x ≪ c).
Definition WEBRTC_SPL_RSHIFT_U32 (x c : Z) : Z := u32 x ≫ c.

(** ** Leading zeros *)

Definition kWebRtcSpl_CountLeadingZeros32_Table : list Z :=
  [32; 8; 17; -1; -1; 14; -1; -1; -1; 20; -1; -1; -1; 28; -1; 18;
   -1; -1; -1; -1; -1; -1; -1; -1; -1; -1; -1; -1; 0; 26; 25; 24;
   4; 11; 23; 31; 3; 7; 10; 16; 22; 30; -1; -1; 2; 6; 13; 9;
   -1; 15; -1; 21; -1; 29; 19; -1; -1; -1; -1; -1; 1; 27; 5; 12].

(** One [n |= n >> k] of the smearing prologue. *)
Definition smear_step (k n : Z) : Z := Z.lor n (n ≫ k).
Definition clz_smear (n : Z) : Z :=
  smear_step 16 (smear_step 8 (smear_step 4 (smear_step 2 (smear_step 1 n)))).

Definition WebRtcSpl_CountLeadingZeros32_NotBuiltin (n : Z) : Z :=
  arr kWebRtcSpl_CountLeadingZeros32_Table (u32 (clz_smear n * 0x8c0b2891) ≫ 26).

Definition WebRtcSpl_CountLeadingZeros64_NotBuiltin (n : Z) : Z :=
  let leading_zeros := if n ≫ 32 =? 0 then 32 else 0 in
  leading_zeros + WebRtcSpl_CountLeadingZeros32_NotBuiltin (u32 (n ≫ (32 - leading_zeros))).

(** The compiler's [__builtin_clz]/[__builtin_clzll], defined for nonzero
    arguments. *)
Definition builtin_clz (w n : Z) : Z := w - 1 - Z.log2 n.

Definition WebRtcSpl_CountLeadingZeros32 (n : Z) : Z :=
  if n =? 0 then 32 else builtin_clz 32 n.
Definition WebRtcSpl_CountLeadingZeros64 (n : Z) : Z :=
  if n =? 0 then 64 else builtin_clz 64 n.

(** ** Saturating arithmetic *)

Definition WebRtcSpl_SatW32ToW16 (value32 : Z) : Z :=
  let out16 := i16 value32 in
  if 32767 <? value32 then 32767
  else if value32 <? -32768 then -32768
  else out16.

Definition WebRtcSpl_AddSatW32 (a b : Z) : Z :=
  let sum := i32 (u32 (u32 a + u32 b)) in
  if Bool.eqb (a <? 0) (b <? 0) && negb (Bool.eqb (a <? 0) (sum <? 0))
  then (if sum <? 0 then WEBRTC_SPL_WORD32_MAX else WEBRTC_SPL_WORD32_MIN)
  else sum.

Definition WebRtcSpl_SubSatW32 (a b : Z) : Z :=
  let diff := i32 (u32 (u32 a - u32 b)) in
  if negb (Bool.eqb (a <? 0) (b <? 0)) && negb (Bool.eqb (a <? 0) (diff <? 0))
  then (if diff <? 0 then WEBRTC_SPL_WORD32_MAX else WEBRTC_SPL_WORD32_MIN)
  else diff.

Definition WebRtcSpl_AddSatW16 (a b : Z) : Z := WebRtcSpl_SatW32ToW16 (i32 (a + b)).
Definition WebRtcSpl_SubSatW16 (var1 var2 : Z) : Z := WebRtcSpl_SatW32ToW16 (i32 (var1 - var2)).

(** ** Normalisation *)

Definition WebRtcSpl_GetSizeInBits (n : Z) : Z :=
  i16 (32 - WebRtcSpl_CountLeadingZeros32 n).

Definition WebRtcSpl_NormW32 (a : Z) : Z :=
  if a =? 0 then 0
  else i16 (WebRtcSpl_CountLeadingZeros32 (u32 (if a <? 0 then Z.lnot a else a)) - 1).

Definition WebRtcSpl_NormU32 (a : Z) : Z :=
  if a =? 0 then 0 else i16 (WebRtcSpl_CountLeadingZeros32 a).

Definition WebRtcSpl_NormW16 (a : Z) : Z :=
  let a32 := a in
  if a =? 0 then 0
  else i16 (WebRtcSpl_CountLeadingZeros32 (u32 (if a <? 0 then Z.lnot a32 else a32)) - 17).

Definition WebRtc_MulAccumW16 (a b c : Z) : Z := i32 (i32 (a * b) + c).

(** ** Leading zeros: the table-driven routine is the builtin *)

(** [m] has bit [i] exactly when [n] has one of the bits [i .. i+k-1]. *)
Definition smeared (k n m : Z) : Prop :=
  forall i, 0 <= i ->
    Z.testbit m i = true <-> exists j, 0 <= j < k /\ Z.testbit n (i + j) = true.

Lemma smeared_1 n : smeared 1 n n.
Proof.
  intros i Hi. split.
  - intros H. exists 0. rewrite Z.add_0_r. split; [lia|done].
  - intros (j & Hj & H). by replace i with (i + j) by lia.
Qed.

Lemma smeared_step k n m : 0 < k -> smeared k n m -> smeared (2 * k) n (smear_step k m).
Proof.
  intros Hk Hm i Hi. unfold smear_step.
  rewrite Z.lor_spec, Z.shiftr_spec, orb_true_iff, (Hm i), (Hm (i + k)) by lia. split.
  - intros [(j & Hj & H)|(j & Hj & H)].
    + exists j. split; [lia|done].
    + exists (k + j). split; [lia|]. by rewrite Z.add_assoc.
  - intros (j & Hj & H). destruct (Z_lt_le_dec j k).
    + left. exists j. split; [lia|done].
    + right. exists (j - k). split; [lia|]. by replace (i + k + (j - k)) with (i + j) by lia.
Qed.

Lemma clz_smear_spec n : smeared 32 n (clz_smear n).
Proof.
  apply (smeared_step 16), (smeared_step 8), (smeared_step 4), (smeared_step 2),
    (smeared_step 1), smeared_1; lia.
Qed.

(** After the prologue every bit up to the leading one is set. *)
Lemma clz_smear_ones n : 0 < n < 2 ^ 32 -> clz_smear n = Z.ones (Z.log2 n + 1).
Proof.
  intros Hn. pose proof (Z.log2_nonneg n).
  assert (Z.log2 n < 32) by (apply Z.log2_lt_pow2; lia).
  apply Z.bits_inj'. intros i Hi. apply eq_true_iff_eq.
  rewrite (clz_smear_spec n i Hi), Z.testbit_ones_nonneg, Z.ltb_lt by lia. split.
  - intros (j & Hj & Hb). destruct (Z_lt_le_dec i (Z.log2 n + 1)); [done|].
    rewrite Z.bits_above_log2 in Hb by lia. done.
  - intros Hlt. exists (Z.log2 n - i). split; [lia|].
    replace (i + (Z.log2 n - i)) with (Z.log2 n) by lia. apply Z.bit_log2; lia.
Qed.

Lemma clz_table_ones l : 0 <= l < 32 ->
  arr kWebRtcSpl_CountLeadingZeros32_Table (u32 (Z.ones (l + 1) * 0x8c0b2891) ≫ 26) = 31 - l.
Proof.
  intros Hl. assert (In l (seqZ 0 32)) as Hin by (apply list_elem_of_In, elem_of_seqZ; lia).
  revert l Hin Hl. apply (Forall_forall (fun l => 0 <= l < 32 -> _ = _)).
  repeat constructor; intros _; vm_compute; reflexivity.
Qed.

Lemma clz32_not_builtin n : is_u32 n ->
  WebRtcSpl_CountLeadingZeros32_NotBuiltin n = WebRtcSpl_CountLeadingZeros32 n.
Proof.
  intros Hn. unfold WebRtcSpl_CountLeadingZeros32, builtin_clz.
  destruct (Z.eqb_spec n 0) as [->|Hnz]; [vm_compute; reflexivity|].
  unfold is_u32 in Hn. unfold WebRtcSpl_CountLeadingZeros32_NotBuiltin.
  rewrite clz_smear_ones by lia. rewrite clz_table_ones; [lia|].
  pose proof (Z.log2_nonneg n). split; [done|]. apply Z.log2_lt_pow2; lia.
Qed.

(** For every 32-bit [n], the multiply-and-look-up routine
    [WebRtcSpl_CountLeadingZeros32_NotBuiltin] and the 64-bit one built on it
    return what the compiler builtin returns, with the [n == 0] case the
    builtin leaves undefined handled as 32 and 64. *)
Theorem clz_not_builtin_equiv n :
  (is_u32 n ->
     WebRtcSpl_CountLeadingZeros32_NotBuiltin n = WebRtcSpl_CountLeadingZeros32 n) /\
  (is_u64 n ->
     WebRtcSpl_CountLeadingZeros64_NotBuiltin n = WebRtcSpl_CountLeadingZeros64 n).
Proof.
  split; [apply clz32_not_builtin|]. intros Hn. unfold is_u64 in Hn.
  unfold WebRtcSpl_CountLeadingZeros64_NotBuiltin, WebRtcSpl_CountLeadingZeros64.
  rewrite shiftr_div by lia.
  destruct (Z.eqb_spec (n / 2 ^ 32) 0) as [Hhi|Hhi]; cbn zeta.
  - assert (0 <= n < 2 ^ 32) by (Z.div_mod_to_equations; lia).
    change (32 - 32) with 0. rewrite Z.shiftr_0_r, u32_id by done.
    rewrite clz32_not_builtin by done.
    unfold WebRtcSpl_CountLeadingZeros32, builtin_clz. destruct (n =? 0); lia.
  - assert (0 < n / 2 ^ 32 < 2 ^ 32) by (Z.div_mod_to_equations; lia).
    change (32 - 0) with 32. rewrite shiftr_div by lia.
    rewrite u32_id, clz32_not_builtin by (unfold is_u32; lia).
    unfold WebRtcSpl_CountLeadingZeros32, builtin_clz.
    destruct (Z.eqb_spec (n / 2 ^ 32) 0); [lia|].
    destruct (Z.eqb_spec n 0); [subst; done|].
    pose proof (Z.log2_shiftr n 32 ltac:(lia)) as Hl. rewrite shiftr_div in Hl by lia.
    assert (32 <= Z.log2 n); [|lia].
    apply Z.log2_le_pow2; Z.div_mod_to_equations; lia.
Qed.

Lemma clz_not_builtin_equiv_witness :
  (is_u32 0x00ff0000 ->
     WebRtcSpl_CountLeadingZeros32_NotBuiltin 0x00ff0000 = 8) /\
  (is_u64 0x100000000 ->
     WebRtcSpl_CountLeadingZeros64_NotBuiltin 0x100000000 = 31).
Proof.
  split; intros H.
  - exact (proj1 (clz_not_builtin_equiv 0x00ff0000) H).
  - exact (proj2 (clz_not_builtin_equiv 0x100000000) H).
Defined.

(** ** Leading zeros and normalisation *)

(** The defining property of the count: [n] fits in [32 - clz] bits and no
    fewer. *)
Lemma clz32_spec n : is_u32 n ->
  let c := WebRtcSpl_CountLeadingZeros32 n in
  0 <= c <= 32 /\ n < 2 ^ (32 - c) /\ (n <> 0 -> 2 ^ (31 - c) <= n).
Proof.
  intros Hn c. unfold c, WebRtcSpl_CountLeadingZeros32, builtin_clz, is_u32 in *.
  destruct (Z.eqb_spec n 0) as [->|Hnz]; [repeat split; try lia; done|].
  pose proof (Z.log2_spec n ltac:(lia)) as [Hlo Hhi].
  pose proof (Z.log2_nonneg n). assert (Z.log2 n < 32) by (apply Z.log2_lt_pow2; lia).
  replace (32 - (32 - 1 - Z.log2 n)) with (Z.succ (Z.log2 n)) by lia.
  replace (31 - (32 - 1 - Z.log2 n)) with (Z.log2 n) by lia. lia.
Qed.

(** Shifting by a complementary power of two: the arithmetic behind all
    normalisation bounds. *)
Lemma pow2_split w k m : 0 <= k <= w -> m < 2 ^ (w - k) -> 0 <= m -> m * 2 ^ k < 2 ^ w.
Proof.
  intros Hk Hm H0. replace w with ((w - k) + k) at 1 by lia.
  rewrite Z.pow_add_r by lia. assert (0 < 2 ^ k) by (apply Z.pow_pos_nonneg; lia). nia.
Qed.
Lemma pow2_split_le w k m : 0 <= k <= w -> 2 ^ (w - k) <= m -> 2 ^ w <= m * 2 ^ k.
Proof.
  intros Hk Hm. replace w with ((w - k) + k) at 1 by lia.
  rewrite Z.pow_add_r by lia. assert (0 < 2 ^ k) by (apply Z.pow_pos_nonneg; lia). nia.
Qed.

(** The complement [a < 0 ? ~a : a] the signed norms count zeros of. *)
Definition mag (a : Z) : Z := if a <? 0 then Z.lnot a else a.
Lemma mag_nonneg a : 0 <= mag a.
Proof. unfold mag. pose proof (Z.add_lnot_diag a). destruct (Z.ltb_spec a 0); lia. Qed.
Lemma mag_fits a w k : 0 <= k <= w -> mag a < 2 ^ (w - k) ->
  - 2 ^ w <= a * 2 ^ k < 2 ^ w.
Proof.
  intros Hk Hm. pose proof (mag_nonneg a) as H0. pose proof (pow2_split w k _ Hk Hm H0).
  assert (2 ^ w = 2 ^ (w - k) * 2 ^ k) by (rewrite <-Z.pow_add_r by lia; f_equal; lia).
  assert (0 < 2 ^ k) by (apply Z.pow_pos_nonneg; lia).
  unfold mag in *. pose proof (Z.add_lnot_diag a). destruct (Z.ltb_spec a 0); nia.
Qed.
Lemma mag_overflows a w k : 0 <= k <= w -> 2 ^ (w - k) <= mag a ->
  a * 2 ^ k < - 2 ^ w \/ 2 ^ w <= a * 2 ^ k.
Proof.
  intros Hk Hm. pose proof (pow2_split_le w k _ Hk Hm).
  assert (0 < 2 ^ k) by (apply Z.pow_pos_nonneg; lia).
  unfold mag in *. pose proof (Z.add_lnot_diag a). destruct (Z.ltb_spec a 0); nia.
Qed.

(** The signed norm of a [w+1]-bit value, computed as [clz32(mag a) - (31 - w)]. *)
Lemma norm_signed_spec w a : 15 <= w <= 31 -> a <> 0 -> - 2 ^ w <= a < 2 ^ w ->
  let n := WebRtcSpl_CountLeadingZeros32 (mag a) - (32 - w) in
  0 <= n <= w /\ - 2 ^ w <= a * 2 ^ n < 2 ^ w /\
  (n < w -> a * 2 ^ (n + 1) < - 2 ^ w \/ 2 ^ w <= a * 2 ^ (n + 1)).
Proof.
  intros Hw Ha Hr n.
  assert (0 < 2 ^ w <= 2 ^ 31) as Hpw
    by (split; [apply Z.pow_pos_nonneg|apply Z.pow_le_mono_r]; lia).
  assert (0 <= mag a < 2 ^ w) as Hm.
  { pose proof (mag_nonneg a). pose proof (Z.add_lnot_diag a). unfold mag in *.
    destruct (Z.ltb_spec a 0); lia. }
  destruct (clz32_spec (mag a)) as (Hc & Hlt & Hge); [unfold is_u32; lia|].
  assert (32 - w <= WebRtcSpl_CountLeadingZeros32 (mag a)) as Hcw.
  { destruct (decide (mag a = 0)) as [E|E].
    - rewrite E. unfold WebRtcSpl_CountLeadingZeros32. simpl. lia.
    - specialize (Hge E).
      destruct (Z_le_gt_dec (32 - w) (WebRtcSpl_CountLeadingZeros32 (mag a))); [done|].
      pose proof (Z.pow_le_mono_r 2 w (31 - WebRtcSpl_CountLeadingZeros32 (mag a))). lia. }
  split; [lia|split].
  - apply mag_fits; [lia|].
    by replace (w - n) with (32 - WebRtcSpl_CountLeadingZeros32 (mag a)) by lia.
  - intros Hnw. apply mag_overflows; [lia|].
    replace (w - (n + 1)) with (31 - WebRtcSpl_CountLeadingZeros32 (mag a)) by lia.
    apply Hge. intros E. unfold n in Hnw. rewrite E in Hnw.
    change (WebRtcSpl_CountLeadingZeros32 0) with 32 in Hnw. lia.
Qed.

Lemma NormW32_mag a : is_i32 a -> a <> 0 ->
  WebRtcSpl_NormW32 a = WebRtcSpl_CountLeadingZeros32 (mag a) - (32 - 31).
Proof.
  intros Ha Hnz. unfold WebRtcSpl_NormW32. fold (mag a).
  destruct (Z.eqb_spec a 0); [done|].
  assert (is_u32 (mag a)).
  { pose proof (mag_nonneg a). pose proof (Z.add_lnot_diag a). unfold mag, is_i32, is_u32 in *.
    destruct (Z.ltb_spec a 0); lia. }
  pose proof (clz32_spec (mag a) ltac:(done)) as (Hc & _).
  rewrite u32_id by done. rewrite i16_id; [lia|unfold is_i16; lia].
Qed.

Lemma NormW16_mag a : is_i16 a -> a <> 0 ->
  WebRtcSpl_NormW16 a = WebRtcSpl_CountLeadingZeros32 (mag a) - (32 - 15).
Proof.
  intros Ha Hnz. unfold WebRtcSpl_NormW16. cbn zeta. fold (mag a).
  destruct (Z.eqb_spec a 0); [done|].
  assert (is_u32 (mag a)).
  { pose proof (mag_nonneg a). pose proof (Z.add_lnot_diag a). unfold mag, is_i16, is_u32 in *.
    destruct (Z.ltb_spec a 0); lia. }
  pose proof (clz32_spec (mag a) ltac:(done)) as (Hc & _).
  rewrite u32_id by done. rewrite i16_id; [lia|unfold is_i16; lia].
Qed.

Lemma NormW32_range a : is_i32 a -> 0 <= WebRtcSpl_NormW32 a <= 31.
Proof.
  intros Ha. destruct (decide (a = 0)) as [->|Hnz]; [done|].
  rewrite NormW32_mag by done. unfold is_i32 in Ha.
  destruct (norm_signed_spec 31 a) as (H & _); lia.
Qed.

Lemma NormW32_spec a : is_i32 a -> a <> 0 ->
  let n := WebRtcSpl_NormW32 a in
  0 <= n <= 31 /\ is_i32 (a * 2 ^ n) /\ (n < 31 -> ~ is_i32 (a * 2 ^ (n + 1))).
Proof.
  intros Ha Hnz. rewrite NormW32_mag by done. unfold is_i32 in *.
  destruct (norm_signed_spec 31 a) as (H1 & H2 & H3); [lia..|].
  split; [done|]. split; [done|]. intros Hn Hc. specialize (H3 Hn). lia.
Qed.

Lemma NormU32_spec a : is_u32 a -> a <> 0 ->
  let n := WebRtcSpl_NormU32 a in
  0 <= n <= 31 /\ 2 ^ 31 <= a * 2 ^ n < 2 ^ 32.
Proof.
  intros Ha Hnz n. destruct (clz32_spec a Ha) as (Hc & Hlt & Hge). specialize (Hge Hnz).
  assert (n = WebRtcSpl_CountLeadingZeros32 a) as ->.
  { unfold n, WebRtcSpl_NormU32. destruct (Z.eqb_spec a 0); [done|].
    apply i16_id. unfold is_i16; lia. }
  assert (WebRtcSpl_CountLeadingZeros32 a <= 31).
  { unfold is_u32 in Ha. destruct (decide (WebRtcSpl_CountLeadingZeros32 a = 32)) as [E|]; [|lia].
    rewrite E in Hlt. change (2 ^ (32 - 32)) with 1 in Hlt. lia. }
  split; [lia|]. split.
  - apply pow2_split_le; [lia|done].
  - apply pow2_split; [lia|done|]. unfold is_u32 in Ha; lia.
Qed.

Lemma GetSizeInBits_spec a : is_u32 a ->
  let b := WebRtcSpl_GetSizeInBits a in
  0 <= b <= 32 /\ a < 2 ^ b /\ (a <> 0 -> 2 ^ (b - 1) <= a).
Proof.
  intros Ha b. destruct (clz32_spec a Ha) as (Hc & Hlt & Hge).
  assert (b = 32 - WebRtcSpl_CountLeadingZeros32 a) as ->
    by (apply i16_id; unfold is_i16; lia).
  split; [lia|]. split; [done|]. intros Hnz.
  replace (32 - _ - 1) with (31 - WebRtcSpl_CountLeadingZeros32 a) by lia. auto.
Qed.

(** The norms count exactly the left shifts a value has room for.
    [WebRtcSpl_NormW32] and [WebRtcSpl_NormW16] return, for a nonzero value of
    their type, the largest shift that keeps it in the type (and never more
    than its width); [WebRtcSpl_NormU32] likewise for an unsigned word, and
    [WebRtcSpl_GetSizeInBits] is the number of significant bits. *)
Theorem norm_maximal_shift a :
  (is_i32 a -> a <> 0 ->
     let n := WebRtcSpl_NormW32 a in
     0 <= n <= 31 /\ is_i32 (a * 2 ^ n) /\ (n < 31 -> ~ is_i32 (a * 2 ^ (n + 1)))) /\
  (is_i16 a -> a <> 0 ->
     let n := WebRtcSpl_NormW16 a in
     0 <= n <= 15 /\ is_i16 (a * 2 ^ n) /\ (n < 15 -> ~ is_i16 (a * 2 ^ (n + 1)))) /\
  (is_u32 a -> a <> 0 ->
     let n := WebRtcSpl_NormU32 a in
     0 <= n <= 31 /\ 2 ^ 31 <= a * 2 ^ n < 2 ^ 32) /\
  (is_u32 a ->
     let b := WebRtcSpl_GetSizeInBits a in
     0 <= b <= 32 /\ a < 2 ^ b /\ (a <> 0 -> 2 ^ (b - 1) <= a)).
Proof.
  split; [apply NormW32_spec|]. split; [|split; [apply NormU32_spec|apply GetSizeInBits_spec]].
  intros Ha Hnz. rewrite NormW16_mag by done. unfold is_i16 in *.
  destruct (norm_signed_spec 15 a) as (H1 & H2 & H3); [lia..|].
  split; [done|]. split; [done|]. intros Hn Hc. specialize (H3 Hn). lia.
Qed.

Lemma norm_maximal_shift_witness :
  WebRtcSpl_NormW32 (-1000) = 21 /\ is_i32 (-1000 * 2 ^ 21) /\ ~ is_i32 (-1000 * 2 ^ 22) /\
  WebRtcSpl_NormW16 100 = 8 /\ is_i16 (100 * 2 ^ 8) /\ ~ is_i16 (100 * 2 ^ 9).
Proof.
  destruct (proj1 (norm_maximal_shift (-1000))) as (_ & H1 & H2); [unfold is_i32; lia|done|].
  destruct (proj1 (proj2 (norm_maximal_shift 100))) as (_ & H3 & H4); [unfold is_i16; lia|done|].
  exact (conj eq_refl (conj H1 (conj (H2 eq_refl) (conj eq_refl (conj H3 (H4 eq_refl)))))).
Defined.

(** ** Saturation *)

Lemma SatW32ToW16_clamp v : WebRtcSpl_SatW32ToW16 v = clamp (-32768) 32767 v.
Proof.
  unfold WebRtcSpl_SatW32ToW16, clamp.
  destruct (Z.ltb_spec 32767 v); [lia|]. destruct (Z.ltb_spec v (-32768)); [lia|].
  rewrite i16_id; [|unfold is_i16]; lia.
Qed.
Lemma SatW32ToW16_range v : is_i16 (WebRtcSpl_SatW32ToW16 v).
Proof. rewrite SatW32ToW16_clamp. unfold clamp, is_i16. lia. Qed.
#[export] Hint Resolve SatW32ToW16_range : cint.

Lemma SAT_clamp hi v lo : lo <= hi -> WEBRTC_SPL_SAT hi v lo = clamp lo hi v.
Proof.
  intros. unfold WEBRTC_SPL_SAT, clamp.
  destruct (Z.ltb_spec hi v); [lia|]. destruct (Z.ltb_spec v lo); lia.
Qed.

(** Every saturating operation returns the exact mathematical result
    clamped to its type: the sign tests on the wrapped [uint32_t] sum and
    difference detect overflow exactly, in both directions. *)
Theorem saturating_ops_clamp a b :
  WebRtcSpl_SatW32ToW16 a = clamp (-32768) 32767 a /\
  (is_i32 a -> is_i32 b ->
     WebRtcSpl_AddSatW32 a b = clamp (- 2 ^ 31) (2 ^ 31 - 1) (a + b) /\
     WebRtcSpl_SubSatW32 a b = clamp (- 2 ^ 31) (2 ^ 31 - 1) (a - b)) /\
  (is_i16 a -> is_i16 b ->
     WebRtcSpl_AddSatW16 a b = clamp (- 2 ^ 15) (2 ^ 15 - 1) (a + b) /\
     WebRtcSpl_SubSatW16 a b = clamp (- 2 ^ 15) (2 ^ 15 - 1) (a - b)).
Proof.
  split; [apply SatW32ToW16_clamp|]. split; intros Ha Hb.
  - unfold WebRtcSpl_AddSatW32, WebRtcSpl_SubSatW32, clamp,
      WEBRTC_SPL_WORD32_MAX, WEBRTC_SPL_WORD32_MIN.
    assert (i32 (u32 (u32 a + u32 b)) = i32 (a + b)) as -> by cint.
    assert (i32 (u32 (u32 a - u32 b)) = i32 (a - b)) as -> by cint.
    split.
    + destruct (Z.ltb_spec a 0), (Z.ltb_spec b 0), (Z.ltb_spec (i32 (a + b)) 0); simpl; cint.
    + destruct (Z.ltb_spec a 0), (Z.ltb_spec b 0), (Z.ltb_spec (i32 (a - b)) 0); simpl; cint.
  - unfold WebRtcSpl_AddSatW16, WebRtcSpl_SubSatW16. rewrite !SatW32ToW16_clamp.
    unfold is_i16 in *. rewrite !i32_id by (unfold is_i32; lia). split; f_equal; lia.
Qed.

Lemma saturating_ops_clamp_witness :
  WebRtcSpl_AddSatW32 (2 ^ 31 - 1) 5 = 2 ^ 31 - 1 /\
  WebRtcSpl_SubSatW32 (- 2 ^ 31) 5 = - 2 ^ 31.
Proof.
  split.
  - refine (proj1 (proj1 (proj2 (saturating_ops_clamp (2 ^ 31 - 1) 5)) _ _));
      unfold is_i32; lia.
  - refine (proj2 (proj1 (proj2 (saturating_ops_clamp (- 2 ^ 31) 5)) _ _));
      unfold is_i32; lia.
Defined.
