(* ===== verification/SplMath.v ===== *)
(** Scalar routines of the signal processing library: the guarded divisions of
    [common_audio/signal_processing/division_operations.c], the integer square
    root of [common_audio/third_party/spl_sqrt_floor/spl_sqrt_floor.c], the
    Taylor square root of [spl_sqrt.c] and [sqrt_of_one_minus_x_squared.c]. *)
From S2P Require Import Prelude SplInl.

(** ** Division *)

Definition WebRtcSpl_DivU32U16 (num den : Z) : Z :=
  if negb (den =? 0) then u32 (Z.quot num den) else 0xFFFFFFFF.

Definition WebRtcSpl_DivW32W16 (num den : Z) : Z :=
  if negb (den =? 0) then i32 (Z.quot num den) else 0x7FFFFFFF.

Definition WebRtcSpl_DivW32W16ResW16 (num den : Z) : Z :=
  if negb (den =? 0) then i16 (i32 (Z.quot num den)) else 0x7FFF.

(** The body of the [while (k--)] loop, on [(div, L_num)]. *)
Definition q31_step (L_den : Z) (st : Z * Z) : Z * Z :=
  let '(div, L_num) := st in
  let div := i32 (div ≪ 1) in
  let L_num := i32 (L_num ≪ 1) in
  if L_den <=? L_num then (i32 (div + 1), i32 (L_num - L_den)) else (div, L_num).

Definition WebRtcSpl_DivResultInQ31 (num den : Z) : Z :=
  if num =? 0 then 0
  else
    let L_num := if num <? 0 then i32 (- num) else num in
    let L_den := if den <? 0 then i32 (- den) else den in
    let '(div, _) := Nat.iter 31 (q31_step L_den) (0, L_num) in
    if xorb (num <? 0) (den <? 0) then i32 (- div) else div.

Definition WebRtcSpl_DivW32HiLow (num den_hi den_low : Z) : Z :=
  let approx := i16 (WebRtcSpl_DivW32W16 0x1FFFFFFF den_hi) in
  let tmpW32 := i32 (i32 (i32 (den_hi * approx) ≪ 1)
                     + i32 ((i32 (den_low * approx) ≫ 15) ≪ 1)) in
  let tmpW32 := i32 (0x7fffffff - tmpW32) in
  let tmp_hi := i16 (tmpW32 ≫ 16) in
  let tmp_low := i16 (i32 (tmpW32 - i32 (tmp_hi ≪ 16)) ≫ 1) in
  let tmpW32 := i32 (i32 (i32 (tmp_hi * approx) + (i32 (tmp_low * approx) ≫ 15)) ≪ 1) in
  let tmp_hi := i16 (tmpW32 ≫ 16) in
  let tmp_low := i16 (i32 (tmpW32 - i32 (tmp_hi ≪ 16)) ≫ 1) in
  let num_hi := i16 (num ≫ 16) in
  let num_low := i16 (i32 (num - i32 (num_hi ≪ 16)) ≫ 1) in
  let tmpW32 := i32 (i32 (num_hi * tmp_hi) + (i32 (num_hi * tmp_low) ≫ 15)
                     + (i32 (num_low * tmp_hi) ≫ 15)) in
  WEBRTC_SPL_LSHIFT_W32 tmpW32 3.

(** ** Integer square root *)

(** [WEBRTC_SPL_SQRT_ITER(N)] on [(value, root)]. *)
Definition WEBRTC_SPL_SQRT_ITER (st : Z * Z) (N : Z) : Z * Z :=
  let '(value, root) := st in
  let try1 := i32 (root + (1 ≪ N)) in
  if i32 (try1 ≪ N) <=? value
  then (i32 (value - i32 (try1 ≪ N)), Z.lor root (2 ≪ N))
  else (value, root).

Definition WebRtcSpl_SqrtFloor (value : Z) : Z :=
  snd (fold_left WEBRTC_SPL_SQRT_ITER
         [15; 14; 13; 12; 11; 10; 9; 8; 7; 6; 5; 4; 3; 2; 1; 0] (value, 0)) ≫ 1.

(** ** Taylor square root *)

Definition WebRtcSpl_SqrtLocal (inp : Z) : Z :=
  let B := Z.quot inp 2 in
  let B := i32 (B - 0x40000000) in
  let x_half := i16 (B ≫ 16) in
  let B := i32 (B + 0x40000000) in
  let B := i32 (B + 0x40000000) in
  let x2 := i32 (i32 (x_half * x_half) * 2) in
  let A := i32 (- x2) in
  let B := i32 (B + (A ≫ 1)) in
  let A := A ≫ 16 in
  let A := i32 (i32 (A * A) * 2) in
  let t16 := i16 (A ≫ 16) in
  let B := i32 (B + i32 (i32 (-20480 * t16) * 2)) in
  let A := i32 (i32 (x_half * t16) * 2) in
  let t16 := i16 (A ≫ 16) in
  let B := i32 (B + i32 (i32 (28672 * t16) * 2)) in
  let t16 := i16 (x2 ≫ 16) in
  let A := i32 (i32 (x_half * t16) * 2) in
  let B := i32 (B + (A ≫ 1)) in
  i32 (B + 32768).

(** [RTC_DCHECK_GE(nshift, 0)] holds always: [nshift] is half of a norm, which is
    not negative. *)
Definition WebRtcSpl_Sqrt (value : Z) : Z :=
  let k_sqrt_2 := 23170 in
  if value =? 0 then 0
  else
    let A := if value <? 0
             then (if value =? WEBRTC_SPL_WORD32_MIN then WEBRTC_SPL_WORD32_MAX else i32 (- value))
             else value in
    let sh := WebRtcSpl_NormW32 A in
    let A := WEBRTC_SPL_LSHIFT_W32 A sh in
    let A := if A <? WEBRTC_SPL_WORD32_MAX - 32767 then i32 (A + 32768)
             else WEBRTC_SPL_WORD32_MAX in
    let x_norm := i16 (A ≫ 16) in
    let nshift := i16 (Z.quot sh 2) in
    let A := WEBRTC_SPL_LSHIFT_W32 x_norm 16 in
    let A := WEBRTC_SPL_ABS_W32 A in
    let A := WebRtcSpl_SqrtLocal A in
    let A := if 2 * nshift =? sh then
               let t16 := i16 (A ≫ 16) in
               let A := i32 (i32 (k_sqrt_2 * t16) * 2) in
               let A := i32 (A + 32768) in
               let A := Z.land A 0x7fff0000 in
               A ≫ 15
             else A ≫ 16 in
    let A := Z.land A 0x0000ffff in
    A ≫ nshift.

Definition WebRtcSpl_SqrtOfOneMinusXSquared (xQ15 : list Z) : list Z :=
  map (fun tmp =>
         let sq := i32 (tmp * tmp) in
         let sq := i32 (1073741823 - sq) in
         i16 (WebRtcSpl_Sqrt sq)) xQ15.

(** ** Properties of the divisions *)

Section Q31.
Context (num den : Z) (Hnum : 0 <= num < den) (Hden : den <= 2 ^ 30).

(** After [k] rounds, [div] holds [k] digits of the quotient and [L_num] the
    remainder. *)
Lemma q31_iter k : (k <= 31)%nat ->
  let '(div, r) := Nat.iter k (q31_step den) (0, num) in
  num * 2 ^ Z.of_nat k = div * den + r /\ 0 <= r < den /\ 0 <= div < 2 ^ Z.of_nat k.
Proof.
  induction k as [|k IH]; intros Hk; [simpl; lia|].
  specialize (IH ltac:(lia)). simpl Nat.iter. destruct (Nat.iter k (q31_step den) (0, num)) as [div r].
  destruct IH as (E & Hr & Hd). unfold q31_step.
  rewrite Nat2Z.inj_succ, Z.pow_succ_r by lia.
  assert (2 ^ Z.of_nat k <= 2 ^ 30) by (apply Z.pow_le_mono_r; lia).
  rewrite !Z.shiftl_mul_pow2 by lia. change (2 ^ 1) with 2.
  rewrite (i32_id (r * 2)) by (unfold is_i32; lia).
  assert (div * 2 < 2 ^ 31) by lia.
  rewrite (i32_id (div * 2)) by (unfold is_i32; lia).
  destruct (Z.leb_spec den (r * 2)); [|lia].
  rewrite !i32_id by (unfold is_i32; lia). lia.
Qed.

Lemma q31_positive : fst (Nat.iter 31 (q31_step den) (0, num)) = num * 2 ^ 31 / den.
Proof.
  pose proof (q31_iter 31 ltac:(lia)) as H. destruct (Nat.iter 31 _ _) as [div r]. cbn [fst].
  destruct H as (E & Hr & Hd). change (Z.of_nat 31) with 31 in *. rewrite E.
  symmetry. rewrite Z.div_add_l by lia. rewrite (Z.div_small r) by lia. lia.
Qed.
End Q31.

Lemma quot_abs a b : b <> 0 ->
  Z.quot a b = if xorb (a <? 0) (b <? 0) then - (Z.abs a / Z.abs b) else Z.abs a / Z.abs b.
Proof.
  intros Hb. rewrite <-Z.quot_div_nonneg by lia.
  destruct (Z.ltb_spec a 0), (Z.ltb_spec b 0); cbn [xorb];
    rewrite ?(Z.abs_neq a), ?(Z.abs_eq a), ?(Z.abs_neq b), ?(Z.abs_eq b) by lia.
  - by rewrite Z.quot_opp_opp.
  - by rewrite Z.quot_opp_l, Z.opp_involutive.
  - by rewrite Z.quot_opp_r, Z.opp_involutive.
  - done.
Qed.

(** For [|num| < |den| <= 2^30] the bit-by-bit division
    [WebRtcSpl_DivResultInQ31] returns the exact quotient [num * 2^31 / den],
    rounded toward zero, for all four sign combinations.  The bound on [den] is
    needed: for larger denominators the doubled remainder leaves [int32_t] and
    the result is wrong, although the library's description asks only for
    [|num| < |den|]. *)
Theorem div_q31_exact :
  (forall num den, Z.abs num < Z.abs den <= 2 ^ 30 ->
     WebRtcSpl_DivResultInQ31 num den = Z.quot (num * 2 ^ 31) den) /\
  WebRtcSpl_DivResultInQ31 0x7FFFFFFE 0x7FFFFFFF = 0 /\
  Z.quot (0x7FFFFFFE * 2 ^ 31) 0x7FFFFFFF = 0x7FFFFFFE.
Proof.
  split; [|split; vm_compute; reflexivity].
  intros num den H. unfold WebRtcSpl_DivResultInQ31.
  destruct (Z.eqb_spec num 0) as [->|Hnz]; [by rewrite Z.mul_0_l, Z.quot_0_l by lia|].
  assert ((if num <? 0 then i32 (- num) else num) = Z.abs num) as ->.
  { destruct (Z.ltb_spec num 0); [rewrite i32_id by (unfold is_i32; lia)|]; lia. }
  assert ((if den <? 0 then i32 (- den) else den) = Z.abs den) as ->.
  { destruct (Z.ltb_spec den 0); [rewrite i32_id by (unfold is_i32; lia)|]; lia. }
  pose proof (q31_positive (Z.abs num) (Z.abs den) ltac:(lia) ltac:(lia)) as Hq.
  destruct (Nat.iter 31 _ _) as [div r]. cbn [fst] in Hq. subst div.
  rewrite quot_abs, Z.abs_mul by lia. change (Z.abs (2 ^ 31)) with (2 ^ 31).
  replace (num * 2 ^ 31 <? 0) with (num <? 0) by (destruct (Z.ltb_spec num 0); symmetry;
    [apply Z.ltb_lt|apply Z.ltb_ge]; lia).
  assert (0 <= Z.abs num * 2 ^ 31 / Z.abs den < 2 ^ 31).
  { split; [apply Z.div_pos; lia|]. apply Z.div_lt_upper_bound; nia. }
  destruct (xorb _ _); [|done]. rewrite i32_id by (unfold is_i32; lia). done.
Qed.

Lemma div_q31_exact_witness :
  WebRtcSpl_DivResultInQ31 (-1) 3 = -715827882 /\
  Z.quot (-1 * 2 ^ 31) 3 = -715827882.
Proof.
  split; [|vm_compute; reflexivity].
  rewrite (proj1 div_q31_exact (-1) 3) by lia. vm_compute. reflexivity.
Defined.

(** ** The integer square root *)

(** State before the iteration with bit [N]: [root] is twice a root [R] built
    from the bits above [N], [value] what is left of the argument. *)
Definition sqrt_inv (v0 : Z) (N : Z) (st : Z * Z) : Prop :=
  exists R, snd st = 2 * R /\ R mod 2 ^ (N + 1) = 0 /\ 0 <= R < 2 ^ 16 /\
    fst st = v0 - R * R /\ 0 <= fst st /\ v0 < (R + 2 ^ (N + 1)) * (R + 2 ^ (N + 1)).

Lemma sqrt_iter_inv v0 N st : 0 <= N <= 15 -> 0 <= v0 < 2 ^ 31 ->
  sqrt_inv v0 N st -> sqrt_inv v0 (N - 1) (WEBRTC_SPL_SQRT_ITER st N).
Proof.
  intros HN Hv (R & Er & Hm & HR & Ev & Hv0 & Hhi). destruct st as [value root].
  cbn [fst snd] in *. subst root. unfold WEBRTC_SPL_SQRT_ITER, sqrt_inv.
  replace (N - 1 + 1) with N by lia.
  rewrite !Z.shiftl_mul_pow2 by lia.
  rewrite Z.pow_add_r in Hm, Hhi by lia. change (2 ^ 1) with 2 in Hm, Hhi.
  assert (1 <= 2 ^ N <= 2 ^ 15) as HP
    by (split; [apply (Z.pow_le_mono_r 2 0 N)|apply Z.pow_le_mono_r]; lia).
  assert (R <= 46340) as HRb by nia.
  assert (N = 15 -> R = 0) as H15.
  { intros ->. change (2 ^ 15 * 2) with (2 ^ 16) in Hm. rewrite Z.mod_small in Hm; lia. }
  assert ((2 * R + 2 ^ N) * 2 ^ N < 2 ^ 31) as Hb.
  { destruct (Z.eq_dec N 15) as [->|]; [rewrite H15 by done; vm_compute; done|].
    assert (2 ^ N <= 2 ^ 14) by (apply Z.pow_le_mono_r; lia). nia. }
  rewrite Z.mul_1_l, (i32_id (2 * R + _)) by (unfold is_i32; lia).
  rewrite (i32_id (_ * 2 ^ N)) by (unfold is_i32; nia).
  assert (2 ^ N * 2 = 2 ^ (N + 1)) as E1 by (rewrite Z.pow_add_r by lia; done).
  set (P := 2 ^ N) in *.
  assert (R mod P = 0) as HmP.
  { apply Z.mod_divide in Hm; [|lia]. apply Z.mod_divide; [lia|].
    destruct Hm as [q Hq]. exists (q * 2). lia. }
  destruct (Z.leb_spec ((2 * R + P) * P) value).
  - exists (R + P). cbn [fst snd]. rewrite i32_id by (unfold is_i32; nia).
    rewrite (lor_disjoint _ _ (N + 2)); [|lia| |].
    + split; [lia|]. split.
      { rewrite <-Z.add_mod_idemp_l, HmP, Z.add_0_l, Z.mod_same by lia. done. }
      split; [|nia]. split; [lia|]. nia.
    + replace (2 ^ (N + 2)) with (P * 2 * 2) by (unfold P; rewrite Z.pow_add_r by lia; change (2 ^ 2) with 4; lia).
      rewrite (Z.mul_comm 2 R), Zmult_mod_distr_r, Hm. done.
    + replace (2 ^ (N + 2)) with (P * 4) by (unfold P; rewrite Z.pow_add_r by lia; done). lia.
  - exists R. cbn [fst snd]. split; [done|]. split; [done|]. nia.
Qed.

Fixpoint bits_down (k : nat) : list Z :=
  match k with
  | O => []
  | S k => Z.of_nat k :: bits_down k
  end.

Lemma sqrt_fold v0 (Hv : 0 <= v0 < 2 ^ 31) k : forall st, (k <= 16)%nat ->
  sqrt_inv v0 (Z.of_nat k - 1) st ->
  sqrt_inv v0 (-1) (fold_left WEBRTC_SPL_SQRT_ITER (bits_down k) st).
Proof.
  induction k as [|k IH]; intros st Hk H; [done|]. cbn [bits_down fold_left]. apply IH; [lia|].
  replace (Z.of_nat (S k) - 1) with (Z.of_nat k) in H by lia. apply sqrt_iter_inv; [lia|done|done].
Qed.

Lemma sqrt_iter_neg l v : v < 0 -> (forall N, In N l -> 0 <= N <= 15) ->
  fold_left WEBRTC_SPL_SQRT_ITER l (v, 0) = (v, 0).
Proof.
  intros Hv. induction l as [|N l IH]; intros Hl; [done|]. cbn [fold_left].
  pose proof (Hl N ltac:(by left)) as HN.
  assert (1 <= 2 ^ N <= 2 ^ 15) by (split; [apply (Z.pow_le_mono_r 2 0 N)|apply Z.pow_le_mono_r]; lia).
  assert (WEBRTC_SPL_SQRT_ITER (v, 0) N = (v, 0)) as ->; [|apply IH; intros; apply Hl; by right].
  unfold WEBRTC_SPL_SQRT_ITER. rewrite Z.add_0_l, !Z.shiftl_mul_pow2, Z.mul_1_l by lia.
  rewrite (i32_id (2 ^ N)) by (unfold is_i32; lia).
  rewrite (i32_id (_ * 2 ^ N)) by (unfold is_i32; nia).
  destruct (Z.leb_spec (2 ^ N * 2 ^ N) v); [nia|done].
Qed.

(** [WebRtcSpl_SqrtFloor] is the integer square root: for every
    nonnegative [int32_t] it returns the largest [r] with [r * r <= value], and
    0 for negative arguments. *)
Theorem sqrt_floor_exact value : is_i32 value ->
  WebRtcSpl_SqrtFloor value = Z.sqrt value.
Proof.
  intros Hv. unfold is_i32 in Hv. unfold WebRtcSpl_SqrtFloor.
  destruct (Z_lt_le_dec value 0).
  - rewrite sqrt_iter_neg; [|done|simpl; lia]. by rewrite Z.sqrt_neg.
  - assert (sqrt_inv value 15 (value, 0)) as H.
    { exists 0. cbn [fst snd]. change (2 ^ (15 + 1)) with (2 ^ 16). rewrite Z.mod_0_l by lia. lia. }
    apply (sqrt_fold value ltac:(lia) 16) in H; [|lia].
    change [15; 14; 13; 12; 11; 10; 9; 8; 7; 6; 5; 4; 3; 2; 1; 0] with (bits_down 16).
    destruct H as (R & -> & _ & HR & E & H0 & Hhi). change (2 ^ (-1 + 1)) with 1 in Hhi.
    rewrite shiftr_div by lia. change (2 ^ 1) with 2. rewrite Z.mul_comm, Z.div_mul by lia.
    symmetry. apply Z.sqrt_unique. lia.
Qed.

Lemma sqrt_floor_exact_witness : WebRtcSpl_SqrtFloor 2147395599 = 46339.
Proof. rewrite sqrt_floor_exact; [vm_compute; reflexivity|unfold is_i32; lia]. Defined.
