(* ===== verification/SplVec.v ===== *)
(** Vector routines of the signal processing library (portable C variants):
    [min_max_operations.c], [copy_set_operations.c],
    [vector_scaling_operations.c], [get_scaling_square.c], [energy.c],
    [cross_correlation.c], [auto_correlation.c], [ilbc_specific_functions.c]
    and [randomization_functions.c], all in
    [common_audio/signal_processing].

    A vector argument with its length is the list of the cells the routine may
    access; an output vector is returned. *)
From S2P Require Import Prelude SplInl SplMath.

(** ** min_max_operations.c *)

Definition max_abs_value_w16 (vector : list Z) : Z :=
  let maximum := fold_left (fun maximum v =>
    let absolute := Z.abs v in
    if maximum <? absolute then absolute else maximum) vector 0 in
  let maximum := if WEBRTC_SPL_WORD16_MAX <? maximum then WEBRTC_SPL_WORD16_MAX else maximum in
  i16 maximum.

Definition max_abs_value_w32 (vector : list Z) : Z :=
  let maximum := fold_left (fun maximum v =>
    let absolute := u32 (i32 (Z.abs v)) in
    if maximum <? absolute then absolute else maximum) vector 0 in
  i32 (if maximum <? WEBRTC_SPL_WORD32_MAX then maximum else WEBRTC_SPL_WORD32_MAX).

Definition max_value_w16 (vector : list Z) : Z :=
  fold_left (fun maximum v => if maximum <? v then v else maximum) vector WEBRTC_SPL_WORD16_MIN.
Definition max_value_w32 (vector : list Z) : Z :=
  fold_left (fun maximum v => if maximum <? v then v else maximum) vector WEBRTC_SPL_WORD32_MIN.
Definition min_value_w16 (vector : list Z) : Z :=
  fold_left (fun minimum v => if v <? minimum then v else minimum) vector WEBRTC_SPL_WORD16_MAX.
Definition min_value_w32 (vector : list Z) : Z :=
  fold_left (fun minimum v => if v <? minimum then v else minimum) vector WEBRTC_SPL_WORD32_MAX.

(** The index loops keep [(i, index, best)]; [better new best] is the [if]
    condition and [key] the value compared. *)
Definition index_loop (key : Z -> Z) (better : Z -> Z -> bool) (vector : list Z) (best : Z) : Z :=
  let '(_, index, _) := fold_left (fun '(i, index, best) v =>
    if better (key v) best then (i + 1, i, key v) else (i + 1, index, best))
    vector (0, 0, best) in
  index.

Definition max_abs_index_w16 (vector : list Z) : Z :=
  index_loop Z.abs (fun new best => best <? new) vector 0.
Definition max_index_w16 (vector : list Z) : Z :=
  index_loop (fun v => v) (fun new best => best <? new) vector WEBRTC_SPL_WORD16_MIN.
Definition max_index_w32 (vector : list Z) : Z :=
  index_loop (fun v => v) (fun new best => best <? new) vector WEBRTC_SPL_WORD32_MIN.
Definition min_index_w16 (vector : list Z) : Z :=
  index_loop (fun v => v) (fun new best => new <? best) vector WEBRTC_SPL_WORD16_MAX.
Definition min_index_w32 (vector : list Z) : Z :=
  index_loop (fun v => v) (fun new best => new <? best) vector WEBRTC_SPL_WORD32_MAX.

Definition min_max_w16 (vector : list Z) : Z * Z :=
  fold_left (fun '(minimum, maximum) v =>
    (if v <? minimum then v else minimum, if maximum <? v then v else maximum))
    vector (WEBRTC_SPL_WORD16_MAX, WEBRTC_SPL_WORD16_MIN).

(** The routines themselves assert that the vector is not empty. *)
Definition nonempty {A} (f : list Z -> A) (vector : list Z) : option A :=
  _ ← RTC_DCHECK (0 <? Z.of_nat (length vector)); Some (f vector).

Definition WebRtcSpl_MaxAbsValueW16C : list Z -> option Z := nonempty max_abs_value_w16.
Definition WebRtcSpl_MaxAbsValueW32C : list Z -> option Z := nonempty max_abs_value_w32.
Definition WebRtcSpl_MaxValueW16C : list Z -> option Z := nonempty max_value_w16.
Definition WebRtcSpl_MaxValueW32C : list Z -> option Z := nonempty max_value_w32.
Definition WebRtcSpl_MinValueW16C : list Z -> option Z := nonempty min_value_w16.
Definition WebRtcSpl_MinValueW32C : list Z -> option Z := nonempty min_value_w32.
Definition WebRtcSpl_MaxAbsIndexW16 : list Z -> option Z := nonempty max_abs_index_w16.
Definition WebRtcSpl_MaxIndexW16 : list Z -> option Z := nonempty max_index_w16.
Definition WebRtcSpl_MaxIndexW32 : list Z -> option Z := nonempty max_index_w32.
Definition WebRtcSpl_MinIndexW16 : list Z -> option Z := nonempty min_index_w16.
Definition WebRtcSpl_MinIndexW32 : list Z -> option Z := nonempty min_index_w32.
Definition WebRtcSpl_MinMaxW16 : list Z -> option (Z * Z) := nonempty min_max_w16.

Definition WebRtcSpl_MaxAbsElementW16 (vector : list Z) : option Z :=
  '(min_val, max_val) ← WebRtcSpl_MinMaxW16 vector;
  Some (if (min_val =? max_val) || (min_val <? - max_val) then min_val else max_val).

(** ** copy_set_operations.c *)

(** Cells [0 .. length-1] of [ptr] are set one by one. *)
Definition WebRtcSpl_MemSetW16 (ptr : list Z) (set_value length : Z) : list Z :=
  for_loop length (fun j arrptr => upd arrptr j set_value) ptr.
Definition WebRtcSpl_MemSetW32 (ptr : list Z) (set_value length : Z) : list Z :=
  for_loop length (fun j arrptr => upd arrptr j set_value) ptr.

(** [dest] points at cell [base] of its array and moves down. *)
Definition WebRtcSpl_MemCpyReversedOrder (dest : list Z) (base : Z) (source : list Z)
    (length : Z) : list Z :=
  for_loop length (fun j destPtr => upd destPtr (base - j) (arr source j)) dest.

(** The cells copied by [memcpy]; [None] when they are not all in the vector. *)
Definition WebRtcSpl_CopyFromEndW16 (vector_in : list Z) (length samples : Z) : option (list Z) :=
  mem_read vector_in (length - samples) samples.

Definition WebRtcSpl_ZerosArrayW16 (vector : list Z) (length : Z) : list Z :=
  WebRtcSpl_MemSetW16 vector 0 length.
Definition WebRtcSpl_ZerosArrayW32 (vector : list Z) (length : Z) : list Z :=
  WebRtcSpl_MemSetW32 vector 0 length.

(** ** vector_scaling_operations.c *)

Definition WebRtcSpl_VectorBitShiftW16 (inp : list Z) (right_shifts : Z) : list Z :=
  if 0 <? right_shifts
  then map (fun v => v ≫ right_shifts) inp
  else map (fun v => i16 (i32 (v * i32 (1 ≪ (- right_shifts))))) inp.

Definition WebRtcSpl_VectorBitShiftW32 (in_vector : list Z) (right_shifts : Z) : list Z :=
  if 0 <? right_shifts
  then map (fun v => v ≫ right_shifts) in_vector
  else map (fun v => i32 (v ≪ (- right_shifts))) in_vector.

Definition WebRtcSpl_VectorBitShiftW32ToW16 (inp : list Z) (right_shifts : Z) : list Z :=
  if 0 <=? right_shifts
  then map (fun v => WebRtcSpl_SatW32ToW16 (v ≫ right_shifts)) inp
  else map (fun v => WebRtcSpl_SatW32ToW16 (i32 (v ≪ (- right_shifts)))) inp.

Definition WebRtcSpl_ScaleVector (in_vector : list Z) (gain right_shifts : Z) : list Z :=
  map (fun v => i16 (i32 (v * gain) ≫ right_shifts)) in_vector.

Definition WebRtcSpl_ScaleVectorWithSat (in_vector : list Z) (gain right_shifts : Z) : list Z :=
  map (fun v => WebRtcSpl_SatW32ToW16 (i32 (v * gain) ≫ right_shifts)) in_vector.

Definition WebRtcSpl_ScaleAndAddVectors (in1 : list Z) (gain1 shift1 : Z)
    (in2 : list Z) (gain2 shift2 : Z) : list Z :=
  zip_with (fun v1 v2 =>
    i16 (i16 (i32 (gain1 * v1) ≫ shift1) + i16 (i32 (gain2 * v2) ≫ shift2))) in1 in2.

(** Null pointers are [None]; on error nothing is written. *)
Definition WebRtcSpl_ScaleAndAddVectorsWithRoundC (in_vector1 : option (list Z))
    (in_vector1_scale : Z) (in_vector2 : option (list Z)) (in_vector2_scale right_shifts : Z)
    (out_vector : option (list Z)) (length : Z) : Z * option (list Z) :=
  let round_value := i32 (1 ≪ right_shifts) ≫ 1 in
  match in_vector1, in_vector2, out_vector with
  | Some v1, Some v2, Some out =>
      if (length =? 0) || (right_shifts <? 0) then (-1, out_vector)
      else
        (0, Some (for_loop length (fun i out =>
           upd out i (i16 (i32 (i32 (i32 (arr v1 i * in_vector1_scale)
                                     + i32 (arr v2 i * in_vector2_scale)) + round_value)
                           ≫ right_shifts))) out))
  | _, _, _ => (-1, out_vector)
  end.

(** ** get_scaling_square.c and energy.c *)

(** [sabs] is an [int16_t]: negating -32768 leaves it negative. *)
Definition scaling_smax (in_vector : list Z) : Z :=
  fold_left (fun smax v =>
    let sabs := if 0 <? v then v else i16 (- v) in
    if smax <? sabs then sabs else smax) in_vector (-1).

Definition WebRtcSpl_GetScalingSquare (in_vector : list Z) (times : Z) : Z :=
  let nbits := WebRtcSpl_GetSizeInBits (u32 times) in
  let smax := scaling_smax in_vector in
  let t := WebRtcSpl_NormW32 (WEBRTC_SPL_MUL smax smax) in
  if smax =? 0 then 0
  else if nbits <? t then 0 else i16 (nbits - t).

(** Returns the energy and the scale factor. *)
Definition WebRtcSpl_Energy (vector : list Z) : Z * Z :=
  let scaling := WebRtcSpl_GetScalingSquare vector (Z.of_nat (length vector)) in
  let en := fold_left (fun en v => i32 (en + (i32 (v * v) ≫ scaling))) vector 0 in
  (en, scaling).

(** ** cross_correlation.c and auto_correlation.c *)

(** [seq2] points at cell [base] of its array and may move either way. *)
Definition WebRtcSpl_CrossCorrelationC (seq1 seq2 : list Z) (base dim_seq dim_cross_correlation
    right_shifts step_seq2 : Z) : option (list Z) :=
  '(_, out) ← for_opt dim_cross_correlation (fun i '(seq2_ptr, out) =>
    corr ← for_opt dim_seq (fun j corr =>
      a ← rd seq1 j;
      b ← rd seq2 (seq2_ptr + j);
      Some (i32 (corr + (i32 (a * b) ≫ right_shifts)))) 0;
    Some (seq2_ptr + step_seq2, out ++ [corr])) (base, []);
  Some out.

(** One product of the correlation loops. *)
Definition corr_term (x : list Z) (scaling i j : Z) : option Z :=
  a ← rd x j;
  b ← rd x (i + j);
  Some (i32 (a * b) ≫ scaling).

(** The loop unrolled four times; [j] grows by four while [i + j + 3 < length]. *)
Fixpoint corr_unrolled (fuel : nat) (x : list Z) (scaling i j sum : Z) : option (Z * Z) :=
  if i + j + 3 <? Z.of_nat (length x) then
    match fuel with
    | O => None
    | S fuel =>
        t0 ← corr_term x scaling i (j + 0);
        t1 ← corr_term x scaling i (j + 1);
        t2 ← corr_term x scaling i (j + 2);
        t3 ← corr_term x scaling i (j + 3);
        corr_unrolled fuel x scaling i (j + 4)
          (i32 (i32 (i32 (i32 (sum + t0) + t1) + t2) + t3))
    end
  else Some (j, sum).

Definition corr_scaling (smax in_vector_length : Z) : Z :=
  if smax =? 0 then 0
  else
    let nbits := WebRtcSpl_GetSizeInBits (u32 in_vector_length) in
    let t := WebRtcSpl_NormW32 (WEBRTC_SPL_MUL smax smax) in
    if nbits <? t then 0 else nbits - t.

(** Returns the results, the scale and the return value. *)
Definition WebRtcSpl_AutoCorrelation (in_vector : list Z) (order : Z)
  : option (list Z * Z * Z) :=
  let len := Z.of_nat (length in_vector) in
  _ ← RTC_DCHECK (order <=? len);
  smax ← WebRtcSpl_MaxAbsValueW16C in_vector;
  let scaling := corr_scaling smax len in
  result ← for_opt (order + 1) (fun i result =>
    '(j, sum) ← corr_unrolled (length in_vector) in_vector scaling i 0 0;
    sum ← for_opt (len - i - j) (fun k sum =>
      t ← corr_term in_vector scaling i (j + k);
      Some (i32 (sum + t))) sum;
    Some (result ++ [sum])) [];
  Some (result, scaling, order + 1).

(** ** ilbc_specific_functions.c *)

(** [win] points at cell [base] of its array and moves down. *)
Definition WebRtcSpl_ReverseOrderMultArrayElements (inp win : list Z) (base vector_length
    right_shifts : Z) : option (list Z) :=
  for_opt vector_length (fun i out =>
    a ← rd inp i;
    w ← rd win (base - i);
    Some (out ++ [i16 (i32 (a * w) ≫ right_shifts)])) [].

Definition WebRtcSpl_ElementwiseVectorMult (inp win : list Z) (right_shifts : Z) : list Z :=
  zip_with (fun a w => i16 (i32 (a * w) ≫ right_shifts)) inp win.

Definition WebRtcSpl_AddVectorsAndShift (in1 in2 : list Z) (right_shifts : Z) : list Z :=
  zip_with (fun a b => i16 ((a + b) ≫ right_shifts)) in1 in2.

Definition WebRtcSpl_AddAffineVectorToVector (out inp : list Z) (gain add_constant
    right_shifts : Z) : list Z :=
  zip_with (fun o v =>
    i16 (o + i16 (i32 (i32 (v * gain) + add_constant) ≫ right_shifts))) out inp.

Definition WebRtcSpl_AffineTransformVector (inp : list Z) (gain add_constant right_shifts : Z)
  : list Z :=
  map (fun v => i16 (i32 (i32 (v * gain) + add_constant) ≫ right_shifts)) inp.

(** ** randomization_functions.c *)

Definition kMaxSeedUsed : Z := 0x80000000.
Definition kRandNTable : list Z :=
  [9178; -7260; 40; 10189; 4894; -3531; -13779; 14764; -4008; -8884; -8990; 1008;
   7368; 5184; 3251; -5817; -9786; 5963; 1770; 8066; -7135; 10772; -2298; 1361;
   6484; 2241; -8633; 792; 199; -3344; 6553; -10079; -15040; 95; 11608; -12469;
   14161; -4176; 2476; 6403; 13685; -16005; 6646; 2239; 10916; -3004; -602; -3141;
   2142; 14144; -5829; 5305; 8209; 4713; 2697; -5112; 16092; -1210; -2891; -6631;
   -5360; -11878; -6781; -2739; -6392; 536; 10923; 10872; 5059; -4748; -7770; 5477;
   38; -1025; -2892; 1638; 6304; 14375; -11028; 1553; -1565; 10762; -393; 4040;
   5257; 12310; 6554; -4799; 4899; -6354; 1603; -1048; -2220; 8247; -186; -8944;
   -12004; 2332; 4801; -4933; 6371; 131; 8614; -5927; -8287; -22760; 4033; -15162;
   3385; 3246; 3153; -5250; 3766; 784; 6494; -62; 3531; -1582; 15572; 662;
   -3952; -330; -3196; 669; 7236; -2678; -6569; 23319; -8645; -741; 14830; -15976;
   4903; 315; -11342; 10311; 1858; -7777; 2145; 5436; 5677; -113; -10033; 826;
   -1353; 17210; 7768; 986; -1471; 8291; -4982; 8207; -14911; -6255; -2449; -11881;
   -7059; -11703; -4338; 8025; 7538; -2823; -12490; 9470; -1613; -2529; -10092; -7807;
   9480; 6970; -12844; 5123; 3532; 4816; 4803; -8455; -5045; 14032; -4378; -1643;
   5756; -11041; -2732; -16618; -6430; -18375; -3320; 6098; 5131; -4269; -8840; 2482;
   -7048; 1547; -21890; -6505; -7414; -424; -11722; 7955; 1653; -17299; 1823; 473;
   -9232; 3337; 1111; 873; 4018; -8982; 9889; 3531; -11763; -3799; 7373; -4539;
   3231; 7054; -8537; 7616; 6244; 16635; 447; -2915; 13967; 705; -2669; -1520;
   -1771; -16188; 5956; 5117; 6371; -9936; -1448; 2480; 5128; 7550; -8130; 5236;
   8213; -6443; 7707; -1950; -13811; 7218; 7031; -3883; 67; 5731; -2874; 13480;
   -3743; 9298; -3280; 3552; -4425; -18; -3785; -9988; -5357; 5477; -11794; 2117;
   1416; -9935; 3376; 802; -5079; -8243; 12652; 66; 3653; -2368; 6781; -21895;
   -7227; 2487; 7839; -385; 6646; -7016; -4658; 5531; -1705; 834; 129; 3694;
   -1343; 2238; -22640; -6417; -11139; 11301; -2945; -3494; -5626; 185; -3615; -2041;
   -7972; -3106; -60; -23497; -1566; 17064; 3519; 2518; 304; -6805; -10269; 2105;
   1936; -426; -736; -8122; -1467; 4238; -6939; -13309; 360; 7402; -7970; 12576;
   3287; 12194; -6289; -16006; 9171; 4042; -9193; 9123; -2512; 6388; -4734; -8739;
   1028; -5406; -1696; 5889; -666; -4736; 4971; 3565; 9362; -6292; 3876; -3652;
   -19666; 7523; -4061; 391; -11773; 7502; -3763; 4929; -9478; 13278; 2805; 4496;
   7814; 16419; 12455; -14773; 2127; -2746; 3763; 4847; 3698; 6978; 4751; -6957;
   -3581; -45; 6252; 1513; -4797; -7925; 11270; 16188; -2359; -5269; 9376; -10777;
   7262; 20031; -6515; -2208; -5353; 8085; -1341; -1303; 7333; 5576; 3625; 5763;
   -7931; 9833; -3371; -10305; 6534; -13539; -9971; 997; 8464; -4064; -1495; 1857;
   13624; 5458; 9490; -11086; -4524; 12022; -550; -198; 408; -8455; -7068; 10289;
   9712; -3366; 9028; -7621; -5243; 2362; 6909; 4672; -4933; -1799; 4709; -4563;
   -62; -566; 1624; -7010; 14730; -17791; -3697; -2344; -1741; 7099; -9509; -6855;
   -1989; 3495; -2289; 2031; 12784; 891; 14189; -3963; -5683; 421; -12575; 1724;
   -12682; -5970; -8169; 3143; -1824; -5488; -5130; 8536; 12799; 794; 5738; 3459;
   -11689; -258; -3738; -3775; -8742; 2333; 8312; -9383; 10331; 13119; 8398; 10644;
   -19433; -6446; -16277; -11793; 16284; 9345; 15222; 15834; 2009; -7349; 130; -14547;
   338; -5998; 3337; 21492; 2406; 7703; -951; 11196; -564; 3406; 2217; 4806;
   2374; -5797; 11839; 8940; -11874; 18213; 2855; 10492].

(** The new seed, which is also the value returned. *)
Definition IncreaseSeed (seed : Z) : Z := Z.land (u32 (u32 (seed * 69069) + 1)) (kMaxSeedUsed - 1).

Definition WebRtcSpl_RandU (seed : Z) : Z * Z :=
  let seed := IncreaseSeed seed in (i16 (seed ≫ 16), seed).

Definition WebRtcSpl_RandN (seed : Z) : option (Z * Z) :=
  let seed := IncreaseSeed seed in
  v ← rd kRandNTable (seed ≫ 23);
  Some (v, seed).

(** Returns the vector, the final seed and the return value. *)
Definition WebRtcSpl_RandUArray (vector : list Z) (vector_length seed : Z) : list Z * Z * Z :=
  let '(vector, seed) := for_loop vector_length (fun i '(vector, seed) =>
    let '(v, seed) := WebRtcSpl_RandU seed in
    (upd vector i v, seed)) (vector, seed) in
  (vector, seed, vector_length).

(** ** Scaling against overflow *)

(** Products bounded by [2^(31-t)], shifted right by [nbits - t] when that is
    positive, can be added [2^nbits - 1] times. *)
Lemma scaled_sum_bound t nbits s : 0 <= t <= 31 -> 0 <= nbits <= 31 ->
  s = (if nbits <? t then 0 else nbits - t) ->
  exists B, 0 <= B /\ B * (2 ^ nbits - 1) < 2 ^ 31 /\
    forall p, - 2 ^ (31 - t) <= p <= 2 ^ (31 - t) -> - B <= p ≫ s <= B.
Proof.
  intros Ht Hn Es. assert (0 < 2 ^ nbits) by (apply Z.pow_pos_nonneg; lia).
  destruct (Z.ltb_spec nbits t) as [Hlt|Hge]; subst s.
  - exists (2 ^ (31 - t)). assert (0 < 2 ^ (31 - t)) by (apply Z.pow_pos_nonneg; lia).
    assert (2 ^ (31 - t) * 2 ^ nbits <= 2 ^ 31)
      by (rewrite <-Z.pow_add_r by lia; apply Z.pow_le_mono_r; lia).
    split; [lia|]. split; [nia|]. intros p Hp. by rewrite Z.shiftr_0_r.
  - exists (2 ^ (31 - nbits)). assert (0 < 2 ^ (31 - nbits)) by (apply Z.pow_pos_nonneg; lia).
    assert (2 ^ (31 - nbits) * 2 ^ nbits = 2 ^ 31) by (rewrite <-Z.pow_add_r by lia; f_equal; lia).
    split; [lia|]. split; [nia|]. intros p Hp.
    assert (2 ^ (31 - t) = 2 ^ (31 - nbits) * 2 ^ (nbits - t)) as E
      by (rewrite <-Z.pow_add_r by lia; f_equal; lia).
    assert (0 < 2 ^ (nbits - t)) by (apply Z.pow_pos_nonneg; lia).
    rewrite shiftr_div by lia. split.
    + apply Z.div_le_lower_bound; lia.
    + apply Z.div_le_upper_bound; lia.
Qed.

Definition max_abs (l : list Z) : Z := fold_right (fun v m => Z.max (Z.abs v) m) 0 l.

Lemma max_abs_nonneg l : 0 <= max_abs l.
Proof. induction l; simpl; lia. Qed.
Lemma max_abs_ub l v : In v l -> Z.abs v <= max_abs l.
Proof. induction l as [|a l IH]; simpl; [done|]. intros [->|H]; [lia|]. specialize (IH H). lia. Qed.
Lemma max_abs_i16 l : Forall is_i16 l -> max_abs l <= 32768.
Proof. induction 1 as [|v l Hv Hl IH]; simpl; [lia|]. unfold is_i16 in Hv. lia. Qed.
Lemma max_abs_arr l i : Z.abs (arr l i) <= max_abs l.
Proof.
  unfold arr. destruct (lt_dec (Z.to_nat i) (length l)).
  - apply max_abs_ub, nth_In. done.
  - rewrite nth_overflow by lia. apply max_abs_nonneg.
Qed.

(** The running-maximum folds. *)
Lemma fold_max (f : Z -> Z) l : forall m,
  fold_left (fun maximum v => if maximum <? f v then f v else maximum) l m
  = fold_right (fun v m => Z.max (f v) m) m l.
Proof.
  induction l as [|a l IH]; intros m; simpl; [done|]. rewrite IH.
  assert (forall l m a, fold_right (fun v m => Z.max (f v) m) (Z.max a m) l
                        = Z.max a (fold_right (fun v m => Z.max (f v) m) m l)) as H.
  { clear. induction l; intros; simpl; [done|]. rewrite IHl. lia. }
  rewrite <-H. f_equal. destruct (Z.ltb_spec m (f a)); lia.
Qed.

Lemma max_abs_value_w16_spec l : Forall is_i16 l ->
  max_abs_value_w16 l = Z.min 32767 (max_abs l).
Proof.
  intros Hl. unfold max_abs_value_w16, WEBRTC_SPL_WORD16_MAX. cbn zeta.
  rewrite (fold_max Z.abs). fold (max_abs l).
  pose proof (max_abs_nonneg l). pose proof (max_abs_i16 l Hl).
  destruct (Z.ltb_spec 32767 (max_abs l)); rewrite i16_id by (unfold is_i16; lia); lia.
Qed.

(** The scaling of [WebRtcSpl_AutoCorrelation]. *)
Definition auto_corr_scaling (l : list Z) : Z := corr_scaling (max_abs_value_w16 l) (Z.of_nat (length l)).

Lemma nonempty_op {A} (f : list Z -> A) l : l <> [] -> nonempty f l = Some (f l).
Proof. intros H. unfold nonempty. rewrite RTC_DCHECK_true; [done|]. destruct l; [done|]. cbn [length]. apply Z.ltb_lt. lia. Qed.

(** What the scaling of [WebRtcSpl_AutoCorrelation] guarantees for products of
    values no larger than the largest sample. *)
Lemma auto_corr_scaling_products l : Forall is_i16 l -> Z.of_nat (length l) < 2 ^ 31 ->
  0 <= auto_corr_scaling l /\
  exists B, 0 <= B /\ B * Z.of_nat (length l) < 2 ^ 31 /\
    forall a b, Z.abs a <= max_abs l -> Z.abs b <= max_abs l -> - B <= (a * b) ≫ auto_corr_scaling l <= B.
Proof.
  intros Hl Hlen. unfold auto_corr_scaling, corr_scaling. rewrite max_abs_value_w16_spec by done.
  pose proof (max_abs_nonneg l) as H0. pose proof (max_abs_i16 l Hl) as Hmax.
  set (smax := Z.min 32767 (max_abs l)) in *.
  destruct (Z.eqb_spec smax 0) as [E|E].
  - split; [done|]. exists 0. split; [done|]. split; [lia|]. intros a b Ha Hb.
    assert (a = 0) as -> by lia. done.
  - assert (Z.of_nat (length l) <> 0) as Hne by (destruct l; [done|simpl; lia]).
    rewrite u32_id by (unfold is_u32; lia).
    destruct (GetSizeInBits_spec (Z.of_nat (length l))) as (Hb & Hlt & Hge); [unfold is_u32; lia|].
    set (nbits := WebRtcSpl_GetSizeInBits (Z.of_nat (length l))) in *.
    assert (nbits <= 31) as Hb31.
    { destruct (decide (nbits = 32)) as [En|]; [|lia]. rewrite En in Hge.
      change (2 ^ (32 - 1)) with (2 ^ 31) in Hge. specialize (Hge Hne). lia. }
    assert (WEBRTC_SPL_MUL smax smax = smax * smax) as ->
      by (unfold WEBRTC_SPL_MUL; rewrite !(i32_id smax), i32_id by (unfold is_i32; nia); done).
    destruct (NormW32_spec (smax * smax)) as (Ht & Hfit & _); [unfold is_i32; nia|nia|].
    set (t := WebRtcSpl_NormW32 (smax * smax)) in *.
    assert (2 ^ 31 = 2 ^ (31 - t) * 2 ^ t) as Ep by (rewrite <-Z.pow_add_r by lia; f_equal; lia).
    assert (0 < 2 ^ t) by (apply Z.pow_pos_nonneg; lia).
    assert (max_abs l * max_abs l <= 2 ^ (31 - t)) as Hsq.
    { destruct (decide (max_abs l <= 32767)).
      - unfold smax in *. rewrite Z.min_r in * by lia. unfold is_i32 in Hfit. nia.
      - assert (smax = 32767) as Es by lia. unfold t. rewrite Es.
        assert (max_abs l = 32768) as -> by lia. vm_compute. done. }
    split; [destruct (Z.ltb_spec nbits t); lia|].
    destruct (scaled_sum_bound t nbits _ Ht ltac:(lia) eq_refl) as (B & HB0 & HB & Hp).
    exists B. split; [done|]. split; [nia|]. intros a b Ha Hb'. apply Hp. nia.
Qed.

Lemma auto_corr_scaling_bound l : Forall is_i16 l -> Z.of_nat (length l) < 2 ^ 31 ->
  0 <= auto_corr_scaling l /\
  exists B, 0 <= B /\ B * Z.of_nat (length l) < 2 ^ 31 /\
    forall i j, - B <= (arr l i * arr l j) ≫ auto_corr_scaling l <= B.
Proof.
  intros Hl Hlen. destruct (auto_corr_scaling_products l Hl Hlen) as (Hs & B & H0 & HB & H).
  split; [done|]. exists B. split; [done|]. split; [done|]. intros i j. apply H; apply max_abs_arr.
Qed.

(** ** Autocorrelation *)

(** The product at position [j] of lag [i], over unbounded integers. *)
Definition lag_term (x : list Z) (s i j : Z) : Z := (arr x j * arr x (i + j)) ≫ s.

(** The autocorrelation at lag [i]. *)
Definition corr_ref (x : list Z) (s i : Z) : Z :=
  zsum (lag_term x s i) (length x - Z.to_nat i).

Section AutoCorr.
Context (x : list Z) (s : Z) (B : Z).
Context (Hx : Forall is_i16 x) (HB0 : 0 <= B) (HB : B * Z.of_nat (length x) < 2 ^ 31).
Context (Hterm : forall i j, - B <= (arr x i * arr x j) ≫ s <= B).

Lemma corr_term_spec i j : 0 <= j -> 0 <= i -> i + j < Z.of_nat (length x) ->
  corr_term x s i j = Some (lag_term x s i j).
Proof.
  intros Hj Hi Hl. unfold corr_term, lag_term. rewrite !rd_Some by lia. bind_simpl.
  rewrite i32_id; [done|].
  pose proof (mul_i16 (arr x j) (arr x (i + j))
    (arr_Forall is_i16 x j ltac:(unfold is_i16; lia) Hx)
    (arr_Forall is_i16 x (i + j) ltac:(unfold is_i16; lia) Hx)).
  unfold is_i32. lia.
Qed.

(** Adding the next product never leaves [int32_t]. *)
Lemma corr_add i j : 0 <= j -> 0 <= i -> i + j < Z.of_nat (length x) ->
  i32 (zsum (lag_term x s i) (Z.to_nat j) + lag_term x s i j)
  = zsum (lag_term x s i) (Z.to_nat (j + 1)).
Proof.
  intros Hj Hi Hl. rewrite zsum_snoc by done. rewrite i32_id; [done|].
  pose proof (zsum_bound (lag_term x s i) B (Z.to_nat j) (fun k => Hterm k (i + k))).
  pose proof (Hterm j (i + j)). fold (lag_term x s i j) in *. unfold is_i32. nia.
Qed.

Lemma corr_unrolled_spec fuel i : forall j, 0 <= i -> 0 <= j -> i + j <= Z.of_nat (length x) ->
  Z.of_nat (length x) <= j + Z.of_nat fuel ->
  exists j', j <= j' /\ i + j' <= Z.of_nat (length x) /\
    corr_unrolled fuel x s i j (zsum (lag_term x s i) (Z.to_nat j))
    = Some (j', zsum (lag_term x s i) (Z.to_nat j')).
Proof.
  induction fuel as [|fuel IH]; intros j Hi Hj Hl Hf; cbn [corr_unrolled];
    destruct (Z.ltb_spec (i + j + 3) (Z.of_nat (length x))); try lia;
    try (exists j; split; [lia|]; split; [lia|done]).
  rewrite Z.add_0_r. rewrite !corr_term_spec by lia. bind_simpl.
  rewrite corr_add by lia. rewrite corr_add by lia.
  replace (j + 1 + 1) with (j + 2) by lia. rewrite corr_add by lia.
  replace (j + 2 + 1) with (j + 3) by lia. rewrite corr_add by lia.
  replace (j + 3 + 1) with (j + 4) by lia.
  destruct (IH (j + 4)) as (j' & H1 & H2 & H3); [lia..|]. exists j'. split; [lia|]. split; [lia|].
  rewrite <-H3. done.
Qed.

Lemma auto_corr_lag i : 0 <= i <= Z.of_nat (length x) ->
  exists j sum, corr_unrolled (length x) x s i 0 0 = Some (j, sum) /\
    for_opt (Z.of_nat (length x) - i - j) (fun k sum =>
      t ← corr_term x s i (j + k); Some (i32 (sum + t))) sum = Some (corr_ref x s i).
Proof.
  intros Hi. destruct (corr_unrolled_spec (length x) i 0) as (j & H1 & H2 & H3); [lia..|].
  change (zsum (lag_term x s i) (Z.to_nat 0)) with 0 in H3. eexists _, _. split; [exact H3|].
  destruct (for_opt_ind (fun k sum => sum = zsum (lag_term x s i) (Z.to_nat (j + k)))
    (fun k sum => t ← corr_term x s i (j + k); Some (i32 (sum + t)))
    (Z.of_nat (length x) - i - j) (zsum (lag_term x s i) (Z.to_nat j))) as (r & -> & ->).
  - lia.
  - by rewrite Z.add_0_r.
  - intros k sum Hk ->. rewrite corr_term_spec by lia. bind_simpl. eexists. split; [done|].
    rewrite corr_add by lia. do 2 f_equal. lia.
  - unfold corr_ref. do 2 f_equal. lia.
Qed.
End AutoCorr.

(** C38: [WebRtcSpl_AutoCorrelation] returns the scaled autocorrelation
    exactly: for every vector of [int16_t] samples that is not empty, as the
    routine for the largest magnitude asserts, and every [order <= length], as
    the function itself asserts, the four-fold unrolled loop and its tail read only
    inside the vector, the scaling chosen keeps every partial sum inside
    [int32_t] (also for samples of -32768), and lag [i] of the result is the
    sum of the shifted products over unbounded integers. *)
Theorem auto_correlation_exact x order :
  x <> [] -> Forall is_i16 x -> Z.of_nat (length x) < 2 ^ 31 -> 0 <= order <= Z.of_nat (length x) ->
  let s := auto_corr_scaling x in
  WebRtcSpl_AutoCorrelation x order
  = Some (map (corr_ref x s) (seqZ 0 (order + 1)), s, order + 1) /\
  Forall is_i32 (map (corr_ref x s) (seqZ 0 (order + 1))).
Proof.
  intros Hne Hx Hlen Hord s. destruct (auto_corr_scaling_bound x Hx Hlen) as (Hs0 & B & HB0 & HB & Ht).
  fold s in Hs0, Ht. split.
  - unfold WebRtcSpl_AutoCorrelation, WebRtcSpl_MaxAbsValueW16C. rewrite RTC_DCHECK_true, nonempty_op by (done || lia).
    bind_simpl. fold (auto_corr_scaling x). fold s.
    destruct (for_opt_ind (fun i r => r = map (corr_ref x s) (seqZ 0 i)) (fun i result =>
      '(j, sum) ← corr_unrolled (length x) x s i 0 0;
      sum ← for_opt (Z.of_nat (length x) - i - j) (fun k sum =>
        t ← corr_term x s i (j + k); Some (i32 (sum + t))) sum;
      Some (result ++ [sum])) (order + 1) []) as (r & -> & ->); [lia|done| |done].
    intros i r Hi ->.
    destruct (auto_corr_lag x s B Hx HB0 HB Ht i) as (j & sum & -> & E); [lia|].
    bind_simpl. rewrite E. bind_simpl. eexists. split; [done|].
    rewrite seqZ_app by lia. rewrite map_app. done.
  - apply Forall_map, Forall_forall. intros i Hi. apply list_elem_of_In, elem_of_seqZ in Hi.
    pose proof (zsum_bound (lag_term x s i) B (length x - Z.to_nat i) (fun k => Ht k (i + k))) as H.
    unfold compose, corr_ref, is_i32. nia.
Qed.

Lemma auto_correlation_exact_witness :
  WebRtcSpl_AutoCorrelation [-32768; -32768; -32768; 32767; 100] 2
  = Some (map (corr_ref [-32768; -32768; -32768; 32767; 100] 2) [0; 1; 2], 2, 3).
Proof.
  apply (auto_correlation_exact [-32768; -32768; -32768; 32767; 100] 2).
  - discriminate.
  - repeat constructor; unfold is_i16; lia.
  - simpl. lia.
  - simpl. lia.
Defined.

(** ** Energy *)

Definition energy_ref (s : Z) (l : list Z) : Z := fold_right (fun v e => ((v * v) ≫ s) + e) 0 l.

Lemma scaling_smax_spec l : l <> [] -> Forall is_i16 l -> ~ In (-32768) l ->
  scaling_smax l = max_abs l.
Proof.
  intros Hne Hl Hmin. unfold scaling_smax.
  rewrite (fold_max (fun v => if 0 <? v then v else i16 (- v))).
  assert (Forall (fun v => (if 0 <? v then v else i16 (- v)) = Z.abs v) l) as H.
  { apply Forall_forall. intros v Hv. rewrite Forall_forall in Hl. specialize (Hl v Hv).
    assert (v <> -32768) by (intros ->; done). unfold is_i16 in Hl.
    destruct (Z.ltb_spec 0 v); [lia|]. rewrite i16_id by (unfold is_i16; lia). lia. }
  clear Hl Hmin. unfold max_abs. destruct l as [|a l]; [done|]. clear Hne.
  apply Forall_cons_iff in H as [Ha H]. simpl. rewrite Ha.
  assert (forall b, fold_right (fun v m => Z.max (if 0 <? v then v else i16 (- v)) m) b l
                    = fold_right (fun v m => Z.max (Z.abs v) m) b l) as E.
  { intros b. induction H as [|v l Hv H IH]; simpl; [done|]. by rewrite Hv, IH. }
  rewrite E. clear. revert a. induction l as [|v l IH]; intros a; simpl; [lia|].
  specialize (IH v). lia.
Qed.

(** Without -32768 both scaling rules agree. *)
Lemma energy_scaling l : l <> [] -> Forall is_i16 l -> ~ In (-32768) l ->
  WebRtcSpl_GetScalingSquare l (Z.of_nat (length l)) = auto_corr_scaling l.
Proof.
  intros Hne Hl Hmin. unfold WebRtcSpl_GetScalingSquare, auto_corr_scaling.
  assert (max_abs l <= 32767) as Hm.
  { clear - Hl Hmin. induction l as [|v l IH]; simpl; [lia|].
    apply Forall_cons_iff in Hl as [Hv Hl]. unfold is_i16 in Hv.
    assert (v <> -32768) by (intros ->; apply Hmin; by left).
    assert (max_abs l <= 32767) by (apply IH; [done|intros ?; apply Hmin; by right]). lia. }
  rewrite scaling_smax_spec, max_abs_value_w16_spec, Z.min_r by (try done; lia).
  unfold corr_scaling. destruct (max_abs l =? 0); [done|].
  destruct (GetSizeInBits_spec (u32 (Z.of_nat (length l))) (u32_range _)) as (Hb & _).
  pose proof (NormW32_range (WEBRTC_SPL_MUL (max_abs l) (max_abs l)) (i32_range _)).
  destruct (_ <? _); [done|]. apply i16_id. unfold is_i16. lia.
Qed.

Lemma energy_fold s B l : forall acc, Forall is_i16 l -> 0 <= B ->
  (forall v, In v l -> 0 <= (v * v) ≫ s <= B) -> 0 <= acc ->
  acc + B * Z.of_nat (length l) < 2 ^ 31 ->
  fold_left (fun en v => i32 (en + (i32 (v * v) ≫ s))) l acc = acc + energy_ref s l /\
  0 <= energy_ref s l <= B * Z.of_nat (length l).
Proof.
  induction l as [|v l IH]; intros acc Hl HB Hv Hacc Hsum; simpl; [lia|].
  apply Forall_cons_iff in Hl as [Hv16 Hl]. pose proof (Hv v ltac:(by left)).
  pose proof (mul_i16 v v Hv16 Hv16). rewrite (i32_id (v * v)) by (unfold is_i32; lia).
  simpl length in Hsum. rewrite (i32_id (acc + _)) by (unfold is_i32; nia).
  destruct (IH (acc + ((v * v) ≫ s)) Hl HB) as [E Hr];
    [intros w Hw; apply Hv; by right|lia|nia|]. rewrite E. nia.
Qed.

(** [WebRtcSpl_Energy] on samples other than -32768: the scaling of
    [WebRtcSpl_GetScalingSquare] keeps the sum inside [int32_t], and the energy
    returned is the exact sum of the shifted squares.  With -32768 in the
    vector the scaling is wrong ([-x] does not fit [int16_t], so the sample is
    ignored when the maximum is taken): four such samples have energy [2^32],
    and the routine returns 0. *)
Theorem energy_exact :
  (forall l, Forall is_i16 l -> ~ In (-32768) l -> Z.of_nat (length l) < 2 ^ 31 ->
     let s := WebRtcSpl_GetScalingSquare l (Z.of_nat (length l)) in
     WebRtcSpl_Energy l = (energy_ref s l, s) /\ 0 <= s /\ 0 <= energy_ref s l < 2 ^ 31) /\
  WebRtcSpl_Energy [-32768; -32768; -32768; -32768] = (0, 0) /\
  energy_ref 0 [-32768; -32768; -32768; -32768] = 2 ^ 32.
Proof.
  split; [|split; vm_compute; reflexivity].
  intros l Hl Hmin Hlen s. unfold WebRtcSpl_Energy. fold s.
  destruct (decide (l = [])) as [->|Hne]; [vm_compute; intuition congruence|].
  assert (0 <= s /\ exists B, 0 <= B /\ B * Z.of_nat (length l) < 2 ^ 31 /\
    forall v, In v l -> 0 <= (v * v) ≫ s <= B) as (Hs & B & HB0 & HB & Hv).
  { pose proof (auto_corr_scaling_bound l Hl Hlen) as (H1 & B & H2 & H3 & H4).
    assert (s = auto_corr_scaling l) as Es by (by apply energy_scaling).
    rewrite Es. split; [done|]. exists B. split; [done|]. split; [done|]. intros v Hv.
    apply list_elem_of_In, list_elem_of_lookup in Hv as [k Hk].
    specialize (H4 (Z.of_nat k) (Z.of_nat k)). unfold arr in H4.
    rewrite Nat2Z.id, (nth_lookup_Some _ _ _ _ Hk) in H4.
    split; [|lia]. apply Z.shiftr_nonneg. nia. }
  destruct (energy_fold s B l 0 Hl HB0 Hv) as [E Hr]; [lia|lia|].
  rewrite E, Z.add_0_l. split; [done|]. split; [done|]. lia.
Qed.

Lemma energy_exact_witness :
  WebRtcSpl_Energy [32767; -32767; 1000] = (energy_ref 1 [32767; -32767; 1000], 1).
Proof.
  apply (proj1 energy_exact [32767; -32767; 1000]).
  - repeat constructor; unfold is_i16; lia.
  - simpl. intuition lia.
  - simpl. lia.
Defined.

(** ** Minima and maxima *)

(** Invariant of the index loops: after a prefix [p], [best] bounds all keys
    and [index] is the first position that reaches it. *)
Definition index_inv (key : Z -> Z) (best0 : Z) (p : list Z) (st : Z * Z * Z) : Prop :=
  let '(i, index, best) := st in
  i = Z.of_nat (length p) /\ best0 <= best /\ 0 <= index /\
  (forall j, 0 <= j < i -> key (arr p j) <= best /\ (j < index -> key (arr p j) < best)) /\
  ((best = best0 /\ index = 0) \/ (index < i /\ key (arr p index) = best)).

Lemma arr_app_l p q j : 0 <= j < Z.of_nat (length p) -> arr (p ++ q) j = arr p j.
Proof. intros. unfold arr. apply app_nth1. lia. Qed.
Lemma arr_app_snoc p v : arr (p ++ [v]) (Z.of_nat (length p)) = v.
Proof. unfold arr. rewrite Nat2Z.id, app_nth2, Nat.sub_diag by lia. done. Qed.

Lemma index_loop_inv key best0 l :
  index_inv key best0 l (fold_left (fun '(i, index, best) v =>
    if best <? key v then (i + 1, i, key v) else (i + 1, index, best)) l (0, 0, best0)).
Proof.
  induction l as [|v l IH] using rev_ind.
  { split; [done|]. split; [lia|]. split; [lia|]. split; [intros j Hj; lia|by left]. }
  rewrite fold_left_app. destruct (fold_left _ l _) as [[i index] best].
  destruct IH as (-> & Hb & Hi & Hall & Hix). cbn [fold_left].
  assert (forall j, 0 <= j < Z.of_nat (length l) -> arr (l ++ [v]) j = arr l j) as Hpre
    by (intros; by apply arr_app_l).
  unfold index_inv. destruct (Z.ltb_spec best (key v)); rewrite length_app; simpl length.
  - split; [lia|]. split; [lia|]. split; [lia|]. split.
    + intros j Hj. destruct (decide (j = Z.of_nat (length l))) as [->|Hne].
      * rewrite arr_app_snoc. lia.
      * rewrite Hpre by lia. specialize (Hall j ltac:(lia)). lia.
    + right. split; [lia|]. by rewrite arr_app_snoc.
  - split; [lia|]. split; [lia|]. split; [lia|]. split.
    + intros j Hj. destruct (decide (j = Z.of_nat (length l))) as [->|Hne].
      * rewrite arr_app_snoc. split; [lia|]. intros Hlt. destruct Hix as [[-> ->]|[? _]]; lia.
      * rewrite Hpre by lia. specialize (Hall j ltac:(lia)). lia.
    + destruct Hix as [?|[? E]]; [by left|right]. split; [lia|]. by rewrite Hpre by lia.
Qed.

(** The first position of the largest key. *)
Definition first_max (key : Z -> Z) (l : list Z) (k : Z) : Prop :=
  0 <= k < Z.of_nat (length l) /\
  forall j, 0 <= j < Z.of_nat (length l) ->
    key (arr l j) <= key (arr l k) /\ (j < k -> key (arr l j) < key (arr l k)).

Lemma index_loop_max key l best0 : l <> [] -> Forall (fun v => best0 <= key v) l ->
  first_max key l (index_loop key (fun new best => best <? new) l best0).
Proof.
  intros Hne Hl. unfold index_loop. pose proof (index_loop_inv key best0 l) as H.
  destruct (fold_left _ l _) as [[i index] best]. destruct H as (-> & Hb & Hi & Hall & Hix).
  assert (0 < Z.of_nat (length l)) by (destruct l; [done|simpl; lia]).
  destruct Hix as [[-> ->]|[Hlt <-]].
  - assert (best0 <= key (arr l 0)) as H0.
    { rewrite Forall_forall in Hl. apply Hl. unfold arr. apply nth_In. lia. }
    split; [lia|]. intros j Hj. specialize (Hall j Hj). lia.
  - split; [lia|]. done.
Qed.

Lemma index_loop_min l best0 :
  index_loop (fun v => v) (fun new best => new <? best) l best0
  = index_loop Z.opp (fun new best => best <? new) l (- best0).
Proof.
  unfold index_loop.
  assert (forall i ix b, exists i' ix' b',
    fold_left (fun '(i, index, best) v =>
      if v <? best then (i + 1, i, v) else (i + 1, index, best)) l (i, ix, b) = (i', ix', b') /\
    fold_left (fun '(i, index, best) v =>
      if best <? - v then (i + 1, i, - v) else (i + 1, index, best)) l (i, ix, - b)
    = (i', ix', - b')) as H.
  { induction l as [|v l IH]; intros i ix b; simpl; [by eexists _, _, _|].
    replace (- b <? - v) with (v <? b); [destruct (v <? b); apply IH|].
    destruct (Z.ltb_spec v b), (Z.ltb_spec (- b) (- v)); lia. }
  destruct (H 0 0 best0) as (i' & ix' & b' & -> & ->). done.
Qed.

Lemma fold_right_max_spec (f : Z -> Z) l b :
  let m := fold_right (fun v m => Z.max (f v) m) b l in
  b <= m /\ (forall v, In v l -> f v <= m) /\ (m = b \/ exists v, In v l /\ f v = m).
Proof.
  induction l as [|a l IH]; simpl; [split; [lia|]; split; [done|by left]|].
  destruct IH as (H1 & H2 & H3). split; [lia|]. split.
  - intros v [->|Hv]; [lia|]. specialize (H2 v Hv). lia.
  - destruct (Z_le_gt_dec (fold_right (fun v m => Z.max (f v) m) b l) (f a)).
    + right. exists a. split; [by left|lia].
    + rewrite Z.max_r by lia. destruct H3 as [->|(v & ? & ?)]; [by left|].
      right. exists v. split; [by right|done].
Qed.

(** [m] is the extremum of [l] with respect to [f]. *)
Definition is_max (f : Z -> Z) (l : list Z) (m : Z) : Prop :=
  In m l /\ forall v, In v l -> f v <= f m.

Lemma fold_is_max b l : l <> [] -> (forall v, In v l -> b <= v) ->
  is_max (fun v => v) l (fold_left (fun maximum v => if maximum <? v then v else maximum) l b).
Proof.
  intros Hne Hb. rewrite (fold_max (fun v => v)).
  destruct (fold_right_max_spec (fun v => v) l b) as (H1 & H2 & H3).
  split; [|exact H2]. destruct H3 as [E|(v & Hv & <-)]; [|done]. rewrite E in H2 |- *.
  destruct l as [|a l]; [done|]. pose proof (Hb a ltac:(by left)). pose proof (H2 a ltac:(by left)).
  replace b with a by lia. by left.
Qed.

Lemma fold_min l : forall b,
  fold_left (fun minimum v => if v <? minimum then v else minimum) l b
  = - fold_left (fun maximum v => if maximum <? v then v else maximum) (map Z.opp l) (- b).
Proof.
  induction l as [|v l IH]; intros b; simpl; [lia|]. rewrite IH. do 2 f_equal.
  destruct (Z.ltb_spec v b), (Z.ltb_spec (- b) (- v)); lia.
Qed.

Lemma fold_is_min b l : l <> [] -> (forall v, In v l -> v <= b) ->
  is_max Z.opp l (fold_left (fun minimum v => if v <? minimum then v else minimum) l b).
Proof.
  intros Hne Hb. rewrite fold_min.
  destruct (fold_is_max (- b) (map Z.opp l)) as [H1 H2].
  - destruct l; [done|]. done.
  - intros v Hv. apply in_map_iff in Hv as (w & <- & Hw). specialize (Hb w Hw). lia.
  - split.
    + apply in_map_iff in H1 as (w & <- & Hw). by rewrite Z.opp_involutive.
    + intros v Hv. specialize (H2 (- v) (in_map Z.opp l v Hv)). lia.
Qed.

Lemma min_max_w16_split l : min_max_w16 l = (min_value_w16 l, max_value_w16 l).
Proof.
  unfold min_max_w16, min_value_w16, max_value_w16.
  generalize WEBRTC_SPL_WORD16_MAX WEBRTC_SPL_WORD16_MIN.
  induction l as [|v l IH]; intros a b; simpl; [done|]. apply IH.
Qed.

(** The minimum/maximum family on a nonempty [int16_t] vector: the value
    functions return an element that bounds the whole vector, the index
    functions the first position of such an element, [MaxAbsValueW16C] the
    largest magnitude saturated at 32767, [MaxAbsElementW16] an element of the
    largest magnitude, and [MinMaxW16] both extremes. *)
Theorem min_max_correct l : l <> [] -> Forall is_i16 l ->
  exists mx mn imx imn iabs mabs eabs,
  WebRtcSpl_MaxValueW16C l = Some mx /\ is_max (fun v => v) l mx /\
  WebRtcSpl_MinValueW16C l = Some mn /\ is_max Z.opp l mn /\
  WebRtcSpl_MinMaxW16 l = Some (mn, mx) /\
  WebRtcSpl_MaxIndexW16 l = Some imx /\ first_max (fun v => v) l imx /\
  WebRtcSpl_MinIndexW16 l = Some imn /\ first_max Z.opp l imn /\
  WebRtcSpl_MaxAbsIndexW16 l = Some iabs /\ first_max Z.abs l iabs /\
  WebRtcSpl_MaxAbsValueW16C l = Some mabs /\ mabs = Z.min 32767 (max_abs l) /\
  WebRtcSpl_MaxAbsElementW16 l = Some eabs /\ is_max Z.abs l eabs.
Proof.
  intros Hne Hl. pose proof (proj1 (Forall_forall _ _) Hl) as Hr. unfold is_i16 in Hr.
  assert (is_max (fun v => v) l (max_value_w16 l)) as Hmax
    by (apply fold_is_max; [done|intros v Hv; specialize (Hr v Hv); unfold WEBRTC_SPL_WORD16_MIN; lia]).
  assert (is_max Z.opp l (min_value_w16 l)) as Hmin
    by (apply fold_is_min; [done|intros v Hv; specialize (Hr v Hv); unfold WEBRTC_SPL_WORD16_MAX; lia]).
  unfold WebRtcSpl_MaxValueW16C, WebRtcSpl_MinValueW16C, WebRtcSpl_MaxIndexW16, WebRtcSpl_MinIndexW16,
    WebRtcSpl_MaxAbsIndexW16, WebRtcSpl_MaxAbsValueW16C, WebRtcSpl_MaxAbsElementW16, WebRtcSpl_MinMaxW16.
  rewrite !nonempty_op by done. bind_simpl. rewrite min_max_w16_split. do 7 eexists.
  assert (is_max Z.abs l (if (min_value_w16 l =? max_value_w16 l) || (min_value_w16 l <? - max_value_w16 l)
    then min_value_w16 l else max_value_w16 l)) as Hel.
  { destruct Hmax as [Hx Hx'], Hmin as [Hn Hn']. set (mx := max_value_w16 l) in *. set (mn := min_value_w16 l) in *.
    pose proof (Hx' mn Hn). pose proof (Hn' mx Hx).
    destruct (Z.eqb_spec mn mx), (Z.ltb_spec mn (- mx)); cbn [orb]; (split; [done|]);
      intros v Hv; specialize (Hx' v Hv); specialize (Hn' v Hv); lia. }
  split_and!; try reflexivity; try done.
  - apply index_loop_max; [done|]. eapply Forall_impl; [|exact Hl].
    intros v Hv. unfold is_i16, WEBRTC_SPL_WORD16_MIN in *. lia.
  - unfold min_index_w16. rewrite index_loop_min. apply index_loop_max; [done|].
    eapply Forall_impl; [|exact Hl]. intros v Hv. unfold is_i16, WEBRTC_SPL_WORD16_MAX in *. lia.
  - apply index_loop_max; [done|]. eapply Forall_impl; [|exact Hl]. intros v _. cbv beta. lia.
  - by apply max_abs_value_w16_spec.
Qed.

Lemma min_max_correct_witness : WebRtcSpl_MaxAbsIndexW16 [3; -7; 7; 1] = Some 1 /\
  first_max Z.abs [3; -7; 7; 1] 1.
Proof.
  destruct (min_max_correct [3; -7; 7; 1]) as (mx & mn & imx & imn & iabs & mabs & eabs & _ & _ & _ & _ & _ & _ & _ & _ & _ & E & H & _).
  - done.
  - repeat constructor; unfold is_i16; lia.
  - vm_compute in E. injection E as <-. split; [reflexivity|exact H].
Defined.

(** ** Random numbers *)

Lemma IncreaseSeed_eq seed : 0 <= seed -> IncreaseSeed seed = (seed * 69069 + 1) mod 2 ^ 31.
Proof.
  intros Hs. unfold IncreaseSeed, kMaxSeedUsed. change (0x80000000 - 1) with (2 ^ 31 - 1).
  rewrite land_ones_mod by lia. unfold u32. Z.div_mod_to_equations; lia.
Qed.

(** The linear congruential generator: the seed stays below [2^31] and
    every seed below [2^31] has exactly one predecessor (the map is a
    bijection, so no two seeds ever collapse); [WebRtcSpl_RandU] returns the
    upper 15 bits, always nonnegative; [WebRtcSpl_RandN] reads inside its
    table, and only in its first half: the 9-bit index the 512-entry table
    asks for is computed from a 31-bit seed and never exceeds 255. *)
Theorem random_generator seed : 0 <= seed < 2 ^ 31 ->
  0 <= IncreaseSeed seed < 2 ^ 31 /\
  (exists! s, 0 <= s < 2 ^ 31 /\ IncreaseSeed s = seed) /\
  WebRtcSpl_RandU seed = (IncreaseSeed seed / 2 ^ 16, IncreaseSeed seed) /\
  0 <= fst (WebRtcSpl_RandU seed) < 2 ^ 15 /\
  exists k, 0 <= k < 256 /\ WebRtcSpl_RandN seed = Some (arr kRandNTable k, IncreaseSeed seed).
Proof.
  intros Hs. pose proof (Z.mod_pos_bound (seed * 69069 + 1) (2 ^ 31) ltac:(lia)) as Hm.
  rewrite <-(IncreaseSeed_eq seed) in Hm by lia. split; [done|].
  assert (0 <= IncreaseSeed seed / 2 ^ 16 < 2 ^ 15) as Hu by (Z.div_mod_to_equations; lia).
  assert (WebRtcSpl_RandU seed = (IncreaseSeed seed / 2 ^ 16, IncreaseSeed seed)) as EU.
  { unfold WebRtcSpl_RandU. rewrite shiftr_div, i16_id by (try lia; unfold is_i16; lia). done. }
  split; [|split; [done|split; [by rewrite EU|]]].
  - exists ((seed - 1) * 635610885 mod 2 ^ 31).
    split.
    + pose proof (Z.mod_pos_bound ((seed - 1) * 635610885) (2 ^ 31) ltac:(lia)).
      split; [done|]. rewrite IncreaseSeed_eq by lia. Z.div_mod_to_equations; lia.
    + intros s [Hr E]. rewrite IncreaseSeed_eq in E by lia. Z.div_mod_to_equations; lia.
  - exists (IncreaseSeed seed ≫ 23). rewrite shiftr_div by lia.
    assert (0 <= IncreaseSeed seed / 2 ^ 23 < 256) by (Z.div_mod_to_equations; lia).
    split; [done|]. unfold WebRtcSpl_RandN. rewrite shiftr_div, rd_Some; [done| |lia].
    split; [lia|]. change (Z.of_nat (length kRandNTable)) with 512. lia.
Qed.

Lemma random_generator_witness :
  WebRtcSpl_RandU 777 = (IncreaseSeed 777 / 2 ^ 16, IncreaseSeed 777) /\ IncreaseSeed 777 = 53666614.
Proof.
  split; [|vm_compute; reflexivity].
  refine (proj1 (proj2 (proj2 (random_generator 777 _)))). lia.
Defined.
