(* ===== verification/SplLpc.v ===== *)
(** Conversions between autocorrelation, reflection coefficients and linear
    prediction coefficients: [auto_corr_to_refl_coef.c] and
    [refl_coef_to_lpc.c] of [common_audio/signal_processing]. *)
From S2P Require Import Prelude SplInl.

Definition WEBRTC_SPL_ABS_W16 (a : Z) : Z := if 0 <=? i16 a then i16 a else - i16 a.

(** ** auto_corr_to_refl_coef.c *)

(** The 15-bit division: [tmp / P[0]] in Q15. *)
Definition refl_div (L_num L_den : Z) : Z :=
  (for_loop 15 (fun _ '(K, L_num) =>
     let K := i16 (K ≪ 1) in
     let L_num := i32 (L_num ≪ 1) in
     if L_den <=? L_num then (i16 (K + 1), i32 (L_num - L_den)) else (K, L_num)) (0, L_num)).1.

(** The coefficient of one round. *)
Definition refl_coef (P0 P1 : Z) : Z :=
  let tmp := i16 (WEBRTC_SPL_ABS_W16 P1) in
  if tmp =? 0 then 0
  else let K := refl_div tmp P0 in if 0 <? P1 then i16 (- K) else K.

(** [(a * K + 16384) >> 15] *)
Definition refl_mul (a K : Z) : Z := i16 (i32 (i32 (a * K) + 16384) ≫ 15).

(** The Schur recursion on [P] and [W] with [r = use_order - n] rounds. *)
Definition schur (r K : Z) (st : list Z * list Z) : list Z * list Z :=
  let '(P, W) := st in
  let P := upd P 0 (WebRtcSpl_AddSatW16 (arr P 0) (refl_mul (arr P 1) K)) in
  for_loop r (fun d '(P, W) =>
    let i := d + 1 in
    let p := arr P (i + 1) in
    (upd P i (WebRtcSpl_AddSatW16 p (refl_mul (arr W i) K)),
     upd W i (WebRtcSpl_AddSatW16 (arr W i) (refl_mul p K)))) (P, W).

(** The rounds [n = use_order - r + 1, ..., use_order]. *)
Fixpoint refl_loop (r : nat) (P W : list Z) : list Z :=
  match r with
  | O => []
  | S r' =>
      let tmp := i16 (WEBRTC_SPL_ABS_W16 (arr P 1)) in
      if arr P 0 <? tmp then replicate r 0
      else
        let K := refl_coef (arr P 0) (arr P 1) in
        match r' with
        | O => [K]
        | _ => let '(P, W) := schur (Z.of_nat r') K (P, W) in K :: refl_loop r' P W
        end
  end.

Definition WebRtcSpl_AutoCorrToReflCoef (R : list Z) (use_order : Z) : list Z :=
  let tmp := WebRtcSpl_NormW32 (arr R 0) in
  let ACF := map (fun r => i16 (i32 (r ≪ tmp) ≫ 16)) (take (Z.to_nat (use_order + 1)) R) in
  refl_loop (Z.to_nat use_order) ACF ACF.

(** ** refl_coef_to_lpc.c *)

(** One round [m]: the new coefficients [0 .. m + 1]. *)
Definition lpc_round (k : list Z) (m : Z) (a : list Z) : list Z :=
  let km := arr k m in
  4096 :: map (fun i => i16 (arr a (i + 1) + i16 (i32 (arr a (m - i) * km) ≫ 15))) (seqZ 0 m)
       ++ [km ≫ 3].

Definition WebRtcSpl_ReflCoefToLpc (k : list Z) (use_order : Z) : list Z :=
  for_loop (use_order - 1) (fun d a => lpc_round k (d + 1) a) [4096; arr k 0 ≫ 3].

(** ** Properties *)

(** Each round doubles the quotient and the remainder. *)
Lemma refl_div_spec num den : 0 < num <= den -> den < 2 ^ 15 ->
  refl_div num den = Z.min 32767 (num * 2 ^ 15 / den).
Proof.
  intros Hn Hd. unfold refl_div.
  pose proof (for_loop_ind (fun j (s : Z * Z) => 0 <= s.1 < 2 ^ j /\ 0 <= s.2 <= den /\
    num * 2 ^ j = s.1 * den + s.2 /\ (s.2 = den -> s.1 = 2 ^ j - 1))
    (fun _ '(K, L_num) => let K := i16 (K ≪ 1) in let L_num := i32 (L_num ≪ 1) in
       if den <=? L_num then (i16 (K + 1), i32 (L_num - den)) else (K, L_num)) 15 (0, num)) as H.
  destruct (for_loop 15 _ (0, num)) as [K L]. cbn [fst snd] in *.
  destruct H as (H1 & H2 & H3 & H4); [lia|cbn; lia| |].
  - intros j [K' L'] Hj (HK & HL & He & Hl). cbn [fst snd] in *.
    assert (2 ^ (j + 1) = 2 * 2 ^ j) as Ej by (rewrite Z.add_1_r, Z.pow_succ_r by lia; lia).
    assert (2 ^ j <= 2 ^ 14) by (apply Z.pow_le_mono_r; lia).
    rewrite !Z.shiftl_mul_pow2 by lia. change (2 ^ 1) with 2.
    rewrite (i16_id (K' * 2)), (i32_id (L' * 2)) by (unfold is_i16, is_i32; lia). cbn zeta.
    destruct (Z.leb_spec den (L' * 2)); cbn [fst snd];
      rewrite ?i16_id, ?i32_id by (unfold is_i16, is_i32; lia); rewrite Ej; lia.
  - change (2 ^ 15) with 32768 in *. destruct (decide (L = den)) as [->|Hne].
    + rewrite H4 in * by done. assert (num * 32768 / den = 32768) as ->; [|lia].
      rewrite H3. replace ((32768 - 1) * den + den) with (32768 * den) by lia. apply Z.div_mul. lia.
    + rewrite H3. rewrite Z.div_add_l, Z.div_small by lia. lia.
Qed.

(** The magnitude of -32768 does not fit [int16_t]; its quotient is 0. *)
Lemma refl_div_min den : -32768 <= den < 2 ^ 15 -> refl_div (-32768) den = 0.
Proof.
  intros Hd. unfold refl_div.
  pose proof (for_loop_ind (fun j (s : Z * Z) => s.1 = 0 /\ s.2 = -32768 * 2 ^ j)
    (fun _ '(K, L_num) => let K := i16 (K ≪ 1) in let L_num := i32 (L_num ≪ 1) in
       if den <=? L_num then (i16 (K + 1), i32 (L_num - den)) else (K, L_num)) 15 (0, -32768)) as H.
  destruct (for_loop 15 _ (0, -32768)) as [K L]. cbn [fst snd] in *. apply H; [lia|done|].
  intros j [K' L'] Hj [HK HL]. cbn [fst snd] in HK, HL. subst K' L'.
  assert (2 ^ (j + 1) = 2 * 2 ^ j) as Ej by (rewrite Z.add_1_r, Z.pow_succ_r by lia; lia).
  assert (2 ^ j <= 2 ^ 14) by (apply Z.pow_le_mono_r; lia). assert (0 < 2 ^ j) by (apply Z.pow_pos_nonneg; lia).
  rewrite !Z.shiftl_mul_pow2 by lia. change (2 ^ 1) with 2. change (0 * 2) with 0.
  rewrite i32_id by (unfold is_i32; lia). cbn zeta.
  rewrite (proj2 (Z.leb_gt den _)) by lia. cbn [fst snd]. rewrite Ej. split; [done|lia].
Qed.

Lemma refl_coef_spec P0 P1 : is_i16 P0 -> is_i16 P1 -> i16 (WEBRTC_SPL_ABS_W16 P1) <= P0 ->
  refl_coef P0 P1 = if P1 =? -32768 then 0
                    else - Z.sgn P1 * Z.min 32767 (Z.abs P1 * 2 ^ 15 / Z.max 1 P0).
Proof.
  unfold refl_coef, WEBRTC_SPL_ABS_W16, is_i16. intros H0 H1. rewrite !(i16_id P1) by (unfold is_i16; lia).
  destruct (Z.eqb_spec P1 (-32768)) as [->|Hne].
  - change (i16 (if 0 <=? -32768 then -32768 else - -32768)) with (-32768). intros Hle.
    change (-32768 =? 0) with false. change (0 <? -32768) with false. cbn iota zeta. by apply refl_div_min.
  - replace (i16 (if 0 <=? P1 then P1 else - P1)) with (Z.abs P1)
      by (destruct (Z.leb_spec 0 P1); rewrite i16_id by (unfold is_i16; lia); lia).
    intros Hle. destruct (Z.eqb_spec (Z.abs P1) 0).
    + assert (P1 = 0) as -> by lia. done.
    + rewrite refl_div_spec by lia. rewrite Z.max_r by lia.
      assert (0 <= Z.abs P1 * 2 ^ 15 / P0) by (apply Z.div_pos; lia).
      destruct (Z.ltb_spec 0 P1); [rewrite i16_id by (unfold is_i16; lia)|]; cbn zeta; lia.
Qed.

Definition refl_ok (K : Z) : Prop := -32767 <= K <= 32767.

Lemma refl_coef_ok P0 P1 : is_i16 P0 -> is_i16 P1 -> i16 (WEBRTC_SPL_ABS_W16 P1) <= P0 ->
  refl_ok (refl_coef P0 P1).
Proof.
  intros H0 H1 Hle. rewrite refl_coef_spec by done. unfold refl_ok. destruct (P1 =? -32768); [lia|].
  assert (0 <= Z.abs P1 * 2 ^ 15 / Z.max 1 P0) by (apply Z.div_pos; lia).
  destruct (Z.sgn_spec P1) as [[_ ->]|[[_ ->]|[_ ->]]]; lia.
Qed.

Lemma schur_i16 r K P W : Forall is_i16 P -> Forall is_i16 W ->
  Forall is_i16 (schur r K (P, W)).1 /\ Forall is_i16 (schur r K (P, W)).2.
Proof.
  intros HP HW. unfold schur.
  apply (for_loop_pres (fun s : list Z * list Z => Forall is_i16 s.1 /\ Forall is_i16 s.2)).
  - split; [apply Forall_upd|]; try done. apply SatW32ToW16_range.
  - intros j [P' W'] _ [HP' HW']. cbn [fst snd] in *. split; apply Forall_upd; try done; apply SatW32ToW16_range.
Qed.

Lemma refl_loop_ok r : forall P W, Forall is_i16 P -> Forall is_i16 W ->
  length (refl_loop r P W) = r /\ Forall refl_ok (refl_loop r P W).
Proof.
  induction r as [|r IH]; intros P W HP HW; [done|]. cbn [refl_loop].
  assert (is_i16 (arr P 0) /\ is_i16 (arr P 1)) as [H0 H1]
    by (split; apply arr_Forall; try done; unfold is_i16; lia).
  destruct (Z.ltb_spec (arr P 0) (i16 (WEBRTC_SPL_ABS_W16 (arr P 1)))).
  - split; [apply length_replicate|apply Forall_replicate; unfold refl_ok; lia].
  - pose proof (refl_coef_ok _ _ H0 H1 ltac:(lia)) as HK.
    set (K := refl_coef (arr P 0) (arr P 1)) in *. clearbody K. destruct r as [|r]; [by auto using List.Forall_cons, List.Forall_nil|].
    pose proof (schur_i16 (Z.of_nat (S r)) K P W HP HW) as [HP' HW'].
    destruct (schur (Z.of_nat (S r)) K (P, W)) as [P' W']. cbn [fst snd] in *.
    destruct (IH P' W' HP' HW') as [E HF]. split; [cbn [length]; by rewrite E|by constructor].
Qed.

Lemma refl_loop_head r P W : i16 (WEBRTC_SPL_ABS_W16 (arr P 1)) <= arr P 0 ->
  arr (refl_loop (S r) P W) 0 = refl_coef (arr P 0) (arr P 1).
Proof.
  intros Hle. cbn [refl_loop]. rewrite (proj2 (Z.ltb_ge _ _)) by lia.
  generalize (refl_coef (arr P 0) (arr P 1)). intros K. cbn zeta. destruct r as [|r]; [done|].
  generalize (schur (Z.of_nat (S r)) K (P, W)). by intros [? ?].
Qed.

(** [WebRtcSpl_AutoCorrToReflCoef] always returns [use_order] coefficients
    of magnitude below one (at most 32767 in Q15), whatever the correlations,
    and the first one is the exact quotient [-R[1] / R[0]] of the normalised
    correlations, truncated towards zero and limited to 32767. *)
Theorem refl_coef_correct R order : 0 < order ->
  length (WebRtcSpl_AutoCorrToReflCoef R order) = Z.to_nat order /\
  Forall refl_ok (WebRtcSpl_AutoCorrToReflCoef R order) /\
  (order + 1 <= Z.of_nat (length R) ->
   let n := WebRtcSpl_NormW32 (arr R 0) in
   let p0 := i16 (i32 (arr R 0 ≪ n) ≫ 16) in
   let p1 := i16 (i32 (arr R 1 ≪ n) ≫ 16) in
   Z.abs p1 <= p0 ->
   arr (WebRtcSpl_AutoCorrToReflCoef R order) 0
   = - Z.sgn p1 * Z.min 32767 (Z.abs p1 * 2 ^ 15 / Z.max 1 p0)).
Proof.
  intros Ho. unfold WebRtcSpl_AutoCorrToReflCoef.
  set (n := WebRtcSpl_NormW32 (arr R 0)). cbn zeta.
  set (ACF := map _ _). assert (Forall is_i16 ACF) as HA.
  { apply Forall_map, Forall_forall. intros; auto with cint. }
  destruct (refl_loop_ok (Z.to_nat order) ACF ACF HA HA) as [E HF]. split; [done|]. split; [done|].
  intros Hlen Hle.
  assert (forall i, 0 <= i <= order -> arr ACF i = i16 (i32 (arr R i ≪ n) ≫ 16)) as HACF.
  { intros i Hi. unfold ACF, arr. apply nth_lookup_Some. rewrite list_lookup_fmap, lookup_take_lt by lia.
    by rewrite (arr_lookup R i) by lia. }
  destruct (Z.to_nat order) as [|r] eqn:Er; [lia|].
  set (p0 := i16 (i32 (arr R 0 ≪ n) ≫ 16)) in *. set (p1 := i16 (i32 (arr R 1 ≪ n) ≫ 16)) in *.
  assert (is_i16 p0 /\ is_i16 p1) as [H0 H1] by (unfold p0, p1; auto with cint).
  assert (arr ACF 0 = p0 /\ arr ACF 1 = p1) as [E0 E1] by (split; apply HACF; lia). clearbody p0 p1 ACF.
  assert (i16 (WEBRTC_SPL_ABS_W16 p1) <= p0) as Hle'.
  { unfold WEBRTC_SPL_ABS_W16. unfold is_i16 in *. rewrite !(i16_id p1) by (unfold is_i16; lia).
    destruct (Z.leb_spec 0 p1); rewrite i16_id by (unfold is_i16; lia); lia. }
  rewrite refl_loop_head, E0, E1 by (rewrite E0, E1; done).
  rewrite refl_coef_spec by done. rewrite (proj2 (Z.eqb_neq p1 _)); [done|]. unfold is_i16 in *. lia.
Qed.

Lemma refl_coef_correct_witness :
  arr (WebRtcSpl_AutoCorrToReflCoef [1000; -500; 250] 2) 0 = 16384.
Proof.
  transitivity (- Z.sgn (-16000) * Z.min 32767 (Z.abs (-16000) * 2 ^ 15 / Z.max 1 32000)).
  - apply (refl_coef_correct [1000; -500; 250] 2).
    + lia.
    + cbn. lia.
    + vm_compute. discriminate.
  - reflexivity.
Defined.
