(* ===== verification/SplLevinson.v ===== *)
(** The recursions between autocorrelation, prediction coefficients and
    reflection coefficients that work in double precision or step down:
    [levinson_durbin.c] and [lpc_to_refl_coef.c] of
    [common_audio/signal_processing].

    A number in double precision is a pair of 16-bit words.  The local arrays
    have the sizes of the source and start with the arbitrary value [junk].
    Accesses are checked; [None] is an access outside an array. *)
From S2P Require Import Prelude SplInl SplMath SplLpc.

(** ** levinson_durbin.c *)

Definition SPL_LEVINSON_MAXORDER : Z := 20.

(** A 32-bit number in hi and low format, and back. *)
Definition hi_low (v : Z) : Z * Z :=
  let hi := i16 (v ≫ 16) in (hi, i16 (i32 (v - i32 (hi * 65536)) ≫ 1)).
Definition join_hi_low (hi low : Z) : Z := i32 (i32 (hi * 65536) + WEBRTC_SPL_LSHIFT_W32 low 1).

(** Double precision arrays of [SPL_LEVINSON_MAXORDER + 1] cells. *)
Definition rd2 (d : list Z * list Z) (i : Z) : option (Z * Z) :=
  hi ← rd d.1 i; low ← rd d.2 i; Some (hi, low).
Definition wr2 (d : list Z * list Z) (i : Z) (v : Z * Z) : option (list Z * list Z) :=
  hi ← wr d.1 i v.1; low ← wr d.2 i v.2; Some (hi, low).

(** [1 - K * K] in hi and low format. *)
Definition one_minus_square (K : Z * Z) : Z * Z :=
  let temp1W32 := i32 (i32 ((i32 (K.1 * K.2) ≫ 14) + i32 (K.1 * K.1)) * 2) in
  let temp1W32 := WEBRTC_SPL_ABS_W32 temp1W32 in
  hi_low (i32 (0x7fffffff - temp1W32)).

(** [Alpha] times the factor [tmp], normalized, and the shift. *)
Definition scale_alpha (alpha tmp : Z * Z) : (Z * Z) * Z :=
  let temp1W32 := i32 (i32 (i32 (i32 (alpha.1 * tmp.1) + (i32 (alpha.1 * tmp.2) ≫ 15))
                            + (i32 (alpha.2 * tmp.1) ≫ 15)) ≪ 1) in
  let norm := WebRtcSpl_NormW32 temp1W32 in
  (hi_low (WEBRTC_SPL_LSHIFT_W32 temp1W32 norm), norm).

(** [R[i] + sum of R[j] * A[i - j]] in Q31. *)
Definition prediction_error (R A : list Z * list Z) (i : Z) : option Z :=
  temp1W32 ← for_opt (i - 1) (fun jj temp1W32 =>
    let j := jj + 1 in
    r ← rd2 R j; a ← rd2 A (i - j);
    Some (i32 (temp1W32 + i32 (i32 (i32 (r.1 * a.1) * 2)
      + i32 (i32 ((i32 (r.1 * a.2) ≫ 15) + (i32 (r.2 * a.1) ≫ 15)) * 2))))) 0;
  let temp1W32 := i32 (temp1W32 * 16) in
  r ← rd2 R i;
  Some (i32 (temp1W32 + i32 (i32 (r.1 * 65536) + WEBRTC_SPL_LSHIFT_W32 r.2 1))).

(** [K = - temp1W32 / Alpha], de-normalized. *)
Definition reflection (temp1W32 : Z) (alpha : Z * Z) (Alpha_exp : Z) : Z :=
  let temp2W32 := WEBRTC_SPL_ABS_W32 temp1W32 in
  let temp3W32 := WebRtcSpl_DivW32HiLow temp2W32 alpha.1 alpha.2 in
  let temp3W32 := if 0 <? temp1W32 then i32 (- temp3W32) else temp3W32 in
  let norm := WebRtcSpl_NormW32 temp3W32 in
  if (Alpha_exp <=? norm) || (temp3W32 =? 0) then i32 (temp3W32 * i32 (1 ≪ Alpha_exp))
  else if 0 <? temp3W32 then 0x7fffffff else -0x80000000.

(** [Anew[j] = A[j] + K * A[i - j]] for [j = 1 .. i - 1] and [Anew[i] = K],
    copied back to [A]. *)
Definition update_coefficients (A : list Z * list Z) (K : Z * Z) (temp3W32 i : Z)
  (A_upd : list Z * list Z) : option ((list Z * list Z) * (list Z * list Z)) :=
  A_upd ← for_opt (i - 1) (fun jj A_upd =>
    let j := jj + 1 in
    a ← rd2 A j; b ← rd2 A (i - j);
    let temp1W32 := join_hi_low a.1 a.2 in
    let temp1W32 := i32 (temp1W32 + i32 (i32 (i32 (i32 (K.1 * b.1) + (i32 (K.1 * b.2) ≫ 15))
                                              + (i32 (K.2 * b.1) ≫ 15)) * 2)) in
    wr2 A_upd j (hi_low temp1W32)) A_upd;
  A_upd ← wr2 A_upd i (hi_low (temp3W32 ≫ 4));
  A ← for_opt i (fun jj A => let j := jj + 1 in v ← rd2 A_upd j; wr2 A j v) A;
  Some (A, A_upd).

Record Levinson := {
  A_ : list Z * list Z;      (* A_hi, A_low *)
  A_upd : list Z * list Z;   (* A_upd_hi, A_upd_low *)
  Alpha : Z * Z;             (* Alpha_hi, Alpha_low *)
  Alpha_exp : Z;
  K_ : list Z                (* the output array K *)
}.

(** Round [i]: [inl] is the array K at [return 0]. *)
Definition levinson_round (R : list Z * list Z) (i : Z) (s : Levinson) : option (list Z + Levinson) :=
  temp1W32 ← prediction_error R s.(A_) i;
  let temp3W32 := reflection temp1W32 s.(Alpha) s.(Alpha_exp) in
  let K := hi_low temp3W32 in
  Ks ← wr s.(K_) (i - 1) K.1;
  if 32750 <? WEBRTC_SPL_ABS_W16 K.1 then Some (inl Ks)
  else
    '(A, A_upd) ← update_coefficients s.(A_) K temp3W32 i s.(A_upd);
    let '(alpha, norm) := scale_alpha s.(Alpha) (one_minus_square K) in
    Some (inr {| A_ := A; A_upd := A_upd; Alpha := alpha; Alpha_exp := i16 (s.(Alpha_exp) + norm); K_ := Ks |}).

(** The rounds [i, i + 1, ..., i + rounds - 1]. *)
Fixpoint levinson_loop (rounds : nat) (R : list Z * list Z) (i : Z) (s : Levinson)
  : option (list Z + Levinson) :=
  match rounds with
  | O => Some (inr s)
  | S rounds =>
      r ← levinson_round R i s;
      match r with
      | inl Ks => Some (inl Ks)
      | inr s => levinson_loop rounds R (i + 1) s
      end
  end.

(** The autocorrelation, normalized, in hi and low format. *)
Definition normalize_R (R : list Z) (order norm : Z) (d : list Z * list Z) : option (list Z * list Z) :=
  for_opt (order + 1) (fun i d => r ← rd R i; wr2 d i (hi_low (i32 (r * i32 (1 ≪ norm))))) d.

(** The first coefficient and the state before round 2. *)
Definition levinson_start (R : list Z) (R2 : list Z * list Z) (K : list Z) (norm junk : Z) : option Levinson :=
  let fresh := (replicate 21 junk, replicate 21 junk) in
  r1 ← rd R 1;
  let temp2W32 := i32 (r1 * i32 (1 ≪ norm)) in
  let temp3W32 := WEBRTC_SPL_ABS_W32 temp2W32 in
  r0 ← rd2 R2 0;
  let temp1W32 := WebRtcSpl_DivW32HiLow temp3W32 r0.1 r0.2 in
  let temp1W32 := if 0 <? temp2W32 then i32 (- temp1W32) else temp1W32 in
  let K0 := hi_low temp1W32 in
  K ← wr K 0 K0.1;
  A ← wr2 fresh 1 (hi_low (temp1W32 ≫ 4));
  let '(alpha, Alpha_exp) := scale_alpha r0 (one_minus_square K0) in
  Some {| A_ := A; A_upd := fresh; Alpha := alpha; Alpha_exp := i16 Alpha_exp; K_ := K |}.

(** The returned value and the output arrays [A] and [K]. *)
Definition WebRtcSpl_LevinsonDurbin (junk : Z) (R A K : list Z) (order : Z) : option (Z * list Z * list Z) :=
  r0 ← rd R 0;
  let norm := WebRtcSpl_NormW32 r0 in
  R2 ← normalize_R R order norm (replicate 21 junk, replicate 21 junk);
  s ← levinson_start R R2 K norm junk;
  r ← levinson_loop (Z.to_nat (order - 1)) R2 2 s;
  match r with
  | inl Ks => Some (0, A, Ks)
  | inr s =>
      A ← wr A 0 4096;
      A ← for_opt order (fun ii A =>
        let i := ii + 1 in
        a ← rd2 s.(A_) i;
        let temp1W32 := join_hi_low a.1 a.2 in
        wr A i (i16 (i32 (i32 (temp1W32 * 2) + 32768) ≫ 16))) A;
      Some (1, A, s.(K_))
  end.

(** ** lpc_to_refl_coef.c *)

(** One round [m]: [tmp32], then the new [a16] and [k16]. *)
Definition refl_step_down (m : Z) (st : list Z * list Z * list Z) : option (list Z * list Z * list Z) :=
  let '(a16, k16, tmp32) := st in
  km ← rd k16 m;
  let tmp_inv_denom32 := i32 (1073741823 - i32 (km * km)) in
  let tmp_inv_denom16 := i16 (tmp_inv_denom32 ≫ 15) in
  tmp32 ← for_opt m (fun kk tmp32 =>
    let k := kk + 1 in
    a ← rd a16 k; b ← rd a16 (m - k + 1);
    let t := i32 (i32 (a ≪ 16) - i32 (i32 (km * b) ≪ 1)) in
    wr tmp32 k (WebRtcSpl_DivW32W16 t tmp_inv_denom16)) tmp32;
  a16 ← for_opt (m - 1) (fun kk a16 =>
    let k := kk + 1 in t ← rd tmp32 k; wr a16 k (i16 (t ≫ 1))) a16;
  t ← rd tmp32 m;
  let t := WEBRTC_SPL_SAT 8191 t (-8191) in
  tmp32 ← wr tmp32 m t;
  k16 ← wr k16 (m - 1) (i16 (WEBRTC_SPL_LSHIFT_W32 t 2));
  Some (a16, k16, tmp32).

(** The arrays [a16], which the function overwrites, and [k16]. *)
Definition WebRtcSpl_LpcToReflCoef (junk : Z) (a16 : list Z) (use_order : Z) (k16 : list Z)
  : option (list Z * list Z) :=
  a ← rd a16 use_order;
  k16 ← wr k16 (use_order - 1) (i16 (a ≪ 3));
  '(a16, k16, _) ← for_opt (use_order - 1) (fun d => refl_step_down (use_order - 1 - d))
                     (a16, k16, replicate 50 junk);
  Some (a16, k16).

(** ** Properties *)

(** Both arrays of a pair have [n] cells. *)
Definition sized (n : nat) (d : list Z * list Z) : Prop := length d.1 = n /\ length d.2 = n.

Lemma rd2_Some n d i : sized n d -> 0 <= i < Z.of_nat n -> exists v, rd2 d i = Some v.
Proof. intros [H1 H2] Hi. unfold rd2. rewrite !rd_Some by lia. by eexists. Qed.

Lemma wr2_Some n d i v : sized n d -> 0 <= i < Z.of_nat n -> exists d', wr2 d i v = Some d' /\ sized n d'.
Proof.
  intros [H1 H2] Hi. unfold wr2. rewrite !wr_Some by lia. bind_simpl. eexists. split; [done|].
  unfold sized. cbn [fst snd]. by rewrite !length_upd.
Qed.

(** A loop that stays inside its arrays. *)
Lemma for_opt_total {S : Type} (P : S -> Prop) f n s : P s ->
  (forall j s, 0 <= j < n -> P s -> exists s', f j s = Some s' /\ P s') ->
  exists s', for_opt n f s = Some s' /\ P s'.
Proof.
  intros Hs Hf. destruct (Z.le_gt_cases 0 n).
  - by apply (for_opt_ind (fun _ => P)).
  - unfold for_opt. replace (Z.to_nat n) with 0%nat by lia. by exists s.
Qed.

Lemma prediction_error_total R A i : sized 21 R -> sized 21 A -> 2 <= i <= 20 ->
  exists v, prediction_error R A i = Some v.
Proof.
  intros HR HA Hi. unfold prediction_error.
  destruct (for_opt_total (fun _ : Z => True) (fun jj temp1W32 =>
    r ← rd2 R (jj + 1); a ← rd2 A (i - (jj + 1));
    Some (i32 (temp1W32 + i32 (i32 (i32 (r.1 * a.1) * 2)
      + i32 (i32 ((i32 (r.1 * a.2) ≫ 15) + (i32 (r.2 * a.1) ≫ 15)) * 2))))) (i - 1) 0) as (s & -> & _); [done| |].
  - intros j s Hj _. destruct (rd2_Some 21 R (j + 1) HR ltac:(lia)) as [r ->].
    destruct (rd2_Some 21 A (i - (j + 1)) HA ltac:(lia)) as [a ->]. by eexists.
  - bind_simpl. destruct (rd2_Some 21 R i HR ltac:(lia)) as [r ->]. by eexists.
Qed.

Lemma update_total A K t i U : sized 21 A -> sized 21 U -> 2 <= i <= 20 ->
  exists A' U', update_coefficients A K t i U = Some (A', U') /\ sized 21 A' /\ sized 21 U'.
Proof.
  intros HA HU Hi. unfold update_coefficients.
  destruct (for_opt_total (sized 21) (fun jj A_upd => a ← rd2 A (jj + 1); b ← rd2 A (i - (jj + 1));
    wr2 A_upd (jj + 1) (hi_low (i32 (join_hi_low a.1 a.2 + i32 (i32 (i32 (i32 (K.1 * b.1) + (i32 (K.1 * b.2) ≫ 15))
      + (i32 (K.2 * b.1) ≫ 15)) * 2))))) (i - 1) U HU) as (U1 & -> & HU1).
  - intros j s Hj Hs. destruct (rd2_Some 21 A (j + 1) HA ltac:(lia)) as [a ->].
    destruct (rd2_Some 21 A (i - (j + 1)) HA ltac:(lia)) as [b ->]. bind_simpl. apply wr2_Some; [done|lia].
  - bind_simpl. destruct (wr2_Some 21 U1 i (hi_low (t ≫ 4)) HU1 ltac:(lia)) as (U2 & -> & HU2). bind_simpl.
    destruct (for_opt_total (sized 21) (fun jj A => v ← rd2 U2 (jj + 1); wr2 A (jj + 1) v) i A HA) as (A2 & -> & HA2).
    + intros j s Hj Hs. destruct (rd2_Some 21 U2 (j + 1) HU2 ltac:(lia)) as [v ->]. bind_simpl.
      apply wr2_Some; [done|lia].
    + bind_simpl. by exists A2, U2.
Qed.

(** The test of the code on a reflection coefficient. *)
Definition stable_coef (k : Z) : bool := WEBRTC_SPL_ABS_W16 k <=? 32750.

(** The rounds before round [i] have stored stable coefficients. *)
Definition levinson_inv (K : list Z) (i : Z) (s : Levinson) : Prop :=
  sized 21 s.(A_) /\ sized 21 s.(A_upd) /\ length s.(K_) = length K /\
  (forall j, 1 <= j < i - 1 -> stable_coef (arr s.(K_) j) = true) /\
  (forall j, i - 1 <= j -> arr s.(K_) j = arr K j).

(** The outcome of an unstable round [i]. *)
Definition unstable_at (K Ks : list Z) (i : Z) : Prop :=
  length Ks = length K /\ stable_coef (arr Ks (i - 1)) = false /\
  (forall j, 1 <= j < i - 1 -> stable_coef (arr Ks j) = true) /\
  (forall j, i <= j -> arr Ks j = arr K j).

Lemma levinson_round_spec R K i s : sized 21 R -> 2 <= i <= 20 -> i <= Z.of_nat (length K) ->
  levinson_inv K i s ->
  (exists Ks, levinson_round R i s = Some (inl Ks) /\ unstable_at K Ks i) \/
  (exists s', levinson_round R i s = Some (inr s') /\ levinson_inv K (i + 1) s').
Proof.
  intros HR Hi HK (HA & HU & HL & HS & HT). unfold levinson_round.
  destruct (prediction_error_total R s.(A_) i HR HA Hi) as [e ->]. bind_simpl. cbn zeta.
  set (t := reflection _ _ _). set (Kn := hi_low t). rewrite wr_Some by lia. bind_simpl.
  assert (forall P : Z -> Prop, P Kn.1 -> forall j, 1 <= j < i -> (1 <= j < i - 1 -> P (arr s.(K_) j)) ->
    P (arr (upd s.(K_) (i - 1) Kn.1) j)) as Hupd.
  { intros P HP j Hj Hold. destruct (decide (j = i - 1)) as [->|]; [by rewrite arr_upd_eq by lia|].
    rewrite arr_upd_ne by lia. apply Hold. lia. }
  destruct (Z.ltb_spec 32750 (WEBRTC_SPL_ABS_W16 Kn.1)) as [Hun|Hst].
  - left. eexists. split; [done|]. unfold unstable_at. rewrite length_upd. split; [done|]. split; [|split].
    + rewrite arr_upd_eq by lia. unfold stable_coef. by apply Z.leb_gt.
    + intros j Hj. rewrite arr_upd_ne by lia. apply HS. lia.
    + intros j Hj. rewrite arr_upd_ne by lia. apply HT. lia.
  - right. destruct (update_total s.(A_) Kn t i s.(A_upd) HA HU Hi) as (A' & U' & -> & HA' & HU'). bind_simpl.
    destruct (scale_alpha _ _) as [alpha norm]. eexists. split; [done|].
    split; [done|]. split; [done|]. cbn [K_]. rewrite length_upd. split; [done|]. split; intros j Hj.
    + apply (Hupd (fun k => stable_coef k = true)); [by apply Z.leb_le|lia|intros; by apply HS].
    + rewrite arr_upd_ne by lia. apply HT. lia.
Qed.

Lemma levinson_loop_spec R K rounds : forall i s, sized 21 R -> 2 <= i -> i + Z.of_nat rounds <= 21 ->
  i + Z.of_nat rounds - 1 <= Z.of_nat (length K) -> levinson_inv K i s ->
  (exists m Ks, levinson_loop rounds R i s = Some (inl Ks) /\ i <= m < i + Z.of_nat rounds /\ unstable_at K Ks m) \/
  (exists s', levinson_loop rounds R i s = Some (inr s') /\ levinson_inv K (i + Z.of_nat rounds) s').
Proof.
  induction rounds as [|rounds IH]; intros i s HR Hi Hr HK Hs; cbn [levinson_loop].
  - right. exists s. by rewrite Z.add_0_r.
  - destruct (levinson_round_spec R K i s HR ltac:(lia) ltac:(lia) Hs) as [(Ks & -> & Hu)|(s' & -> & Hs')]; bind_simpl.
    + left. exists i, Ks. split; [done|]. split; [lia|done].
    + destruct (IH (i + 1) s' HR) as [(m & Ks & -> & Hm & Hu)|(s2 & -> & Hs2)]; try done; try lia.
      * left. exists m, Ks. split; [done|]. split; [lia|done].
      * right. exists s2. split; [done|]. by replace (i + Z.of_nat (S rounds)) with (i + 1 + Z.of_nat rounds) by lia.
Qed.

(** The local arrays. *)
Lemma fresh_sized junk : sized 21 (replicate 21 junk, replicate 21 junk).
Proof. split; apply length_replicate. Qed.

Lemma levinson_start_spec R R2 K norm junk : 1 < Z.of_nat (length R) -> sized 21 R2 -> (0 < length K)%nat ->
  exists s, levinson_start R R2 K norm junk = Some s /\ levinson_inv K 2 s.
Proof.
  intros HR HR2 HK. unfold levinson_start. rewrite rd_Some by lia. bind_simpl. cbn zeta.
  destruct (rd2_Some 21 R2 0 HR2 ltac:(lia)) as [r0 ->]. bind_simpl. rewrite wr_Some by lia. bind_simpl.
  match goal with |- context [wr2 ?d 1 ?v] => destruct (wr2_Some 21 d 1 v (fresh_sized junk) ltac:(lia)) as (A1 & -> & HA1) end.
  bind_simpl. destruct (scale_alpha _ _) as [alpha e]. eexists. split; [done|]. split; [done|].
  split; [apply fresh_sized|]. cbn [K_]. rewrite length_upd. split; [done|]. split; [lia|].
  intros j Hj. by rewrite arr_upd_ne by lia.
Qed.

Lemma normalize_R_spec R order norm d : 0 <= order <= 20 -> order < Z.of_nat (length R) -> sized 21 d ->
  exists d', normalize_R R order norm d = Some d' /\ sized 21 d'.
Proof.
  intros Ho HR Hd. unfold normalize_R. apply for_opt_total; [done|]. intros j s Hj Hs.
  rewrite rd_Some by lia. bind_simpl. apply wr2_Some; [done|lia].
Qed.

(** One step-down round keeps the sizes and stores one coefficient. *)
Lemma step_down_spec n nk m a k t : length a = n -> length k = nk -> length t = 50%nat -> 1 <= m <= 49 ->
  m < Z.of_nat n -> m < Z.of_nat nk -> exists a' k' t',
  refl_step_down m (a, k, t) = Some (a', k', t') /\ length a' = n /\ length t' = 50%nat /\
  (exists v, -32764 <= v <= 32764 /\ k' = upd k (m - 1) v).
Proof.
  intros La Lk Lt Hm Hn Hk. unfold refl_step_down. rewrite rd_Some by lia. bind_simpl. cbn zeta.
  set (den := i16 _). set (km := arr k m).
  destruct (for_opt_total (fun t : list Z => length t = 50%nat) (fun kk tmp32 =>
    u ← rd a (kk + 1); b ← rd a (m - (kk + 1) + 1);
    wr tmp32 (kk + 1) (WebRtcSpl_DivW32W16 (i32 (i32 (u ≪ 16) - i32 (i32 (km * b) ≪ 1))) den)) m t Lt) as (t1 & -> & L1).
  { intros j s Hj Hs. rewrite !rd_Some by lia. bind_simpl. rewrite wr_Some by lia. eexists. split; [done|].
    by rewrite length_upd. }
  bind_simpl.
  destruct (for_opt_total (fun a : list Z => length a = n) (fun kk a16 =>
    u ← rd t1 (kk + 1); wr a16 (kk + 1) (i16 (u ≫ 1))) (m - 1) a La) as (a1 & -> & L2).
  { intros j s Hj Hs. rewrite rd_Some by lia. bind_simpl. rewrite wr_Some by lia. eexists. split; [done|].
    by rewrite length_upd. }
  bind_simpl. rewrite rd_Some by lia. bind_simpl. rewrite wr_Some by lia. bind_simpl. rewrite wr_Some by lia.
  bind_simpl. eexists _, _, _. split; [done|]. split; [done|]. split; [by rewrite length_upd|].
  eexists. split; [|done]. rewrite SAT_clamp by lia. set (c := clamp _ _ _).
  assert (-8191 <= c <= 8191) by (unfold c, clamp; lia). clearbody c. unfold WEBRTC_SPL_LSHIFT_W32.
  rewrite Z.shiftl_mul_pow2 by lia. rewrite i32_id, i16_id by (unfold is_i32, is_i16; lia). lia.
Qed.

(** C25: The double-precision recursions.  For orders 1 to 20 the
    Levinson-Durbin recursion stays inside its arrays, whatever the local ones
    held.  Return value 1 means that all reflection coefficients but the first
    passed the stability test, and then the leading coefficient is 1.0 in Q12;
    return value 0 means that the coefficient of some later round is the first
    to fail it, and then the prediction coefficients and the later reflection
    coefficients are untouched.  For orders 1 to 50 the step-down recursion
    stays inside its arrays, limits every coefficient but the last to 32764 and
    stores the last one as the shifted input. *)
Theorem lpc_recursions_outcome junk R A K (order : Z) :
  (1 <= order <= 20 -> order < Z.of_nat (length R) -> order < Z.of_nat (length A) ->
   order <= Z.of_nat (length K) -> exists ret A' K',
     WebRtcSpl_LevinsonDurbin junk R A K order = Some (ret, A', K') /\
     length A' = length A /\ length K' = length K /\
     ((ret = 1 /\ arr A' 0 = 4096 /\ (forall j, 1 <= j < order -> stable_coef (arr K' j) = true) /\
       (forall j, order <= j -> arr K' j = arr K j)) \/
      (ret = 0 /\ A' = A /\ exists m, 2 <= m <= order /\ unstable_at K K' m))) /\
  (1 <= order <= 50 -> order < Z.of_nat (length A) -> order <= Z.of_nat (length K) -> exists A' K',
     WebRtcSpl_LpcToReflCoef junk A order K = Some (A', K') /\ length A' = length A /\ length K' = length K /\
     arr K' (order - 1) = i16 (arr A order ≪ 3) /\
     (forall j, 0 <= j < order - 1 -> -32764 <= arr K' j <= 32764) /\
     (forall j, order <= j -> arr K' j = arr K j)).
Proof.
  split.
  - intros Ho HR HA HK. unfold WebRtcSpl_LevinsonDurbin. rewrite rd_Some by lia. bind_simpl. cbn zeta.
    destruct (normalize_R_spec R order (WebRtcSpl_NormW32 (arr R 0)) _ ltac:(lia) HR (fresh_sized junk)) as (R2 & -> & HR2).
    bind_simpl.
    destruct (levinson_start_spec R R2 K (WebRtcSpl_NormW32 (arr R 0)) junk ltac:(lia) HR2 ltac:(lia)) as (s & -> & Hs).
    bind_simpl. destruct (levinson_loop_spec R2 K (Z.to_nat (order - 1)) 2 s HR2) as [(m & Ks & -> & Hm & Hu)|(s' & -> & Hs')];
      try done; try lia; bind_simpl.
    + exists 0, A, Ks. split; [done|]. split; [done|]. split; [apply Hu|]. right. split; [done|]. split; [done|].
      exists m. split; [lia|done].
    + destruct Hs' as (HA' & _ & HL & HS & HT). rewrite wr_Some by lia. bind_simpl.
      destruct (for_opt_total (fun A' : list Z => length A' = length A /\ arr A' 0 = 4096) (fun ii A =>
        a ← rd2 s'.(A_) (ii + 1);
        wr A (ii + 1) (i16 (i32 (i32 (join_hi_low a.1 a.2 * 2) + 32768) ≫ 16))) order (upd A 0 4096)) as (A' & -> & HLA & H0).
      * rewrite length_upd. split; [done|]. by rewrite arr_upd_eq by lia.
      * intros j t Hj [Lt H0]. destruct (rd2_Some 21 s'.(A_) (j + 1) HA' ltac:(lia)) as [a ->]. bind_simpl.
        rewrite wr_Some by lia. eexists. split; [done|]. rewrite length_upd, arr_upd_ne by lia. done.
      * bind_simpl. exists 1, A', s'.(K_). split; [done|]. split; [done|]. split; [done|]. left.
        split; [done|]. split; [done|]. split; intros j Hj; [apply HS|apply HT]; lia.
  - intros Ho HA HK. unfold WebRtcSpl_LpcToReflCoef. rewrite rd_Some by lia. bind_simpl. rewrite wr_Some by lia. bind_simpl.
    set (k0 := upd K (order - 1) (i16 (arr A order ≪ 3))).
    destruct (for_opt_ind (fun d (s : list Z * list Z * list Z) => let '(a, k, t) := s in
        length a = length A /\ length k = length K /\ length t = 50%nat /\
        arr k (order - 1) = i16 (arr A order ≪ 3) /\
        (forall j, order - 1 - d <= j < order - 1 -> -32764 <= arr k j <= 32764) /\
        (forall j, order <= j -> arr k j = arr K j)) (fun d => refl_step_down (order - 1 - d)) (order - 1)
      (A, k0, replicate 50 junk)) as ([[a k] t] & -> & H1 & H2 & _ & H4 & H5 & H6); [lia| | |].
    + unfold k0. rewrite length_upd. split; [done|]. split; [done|]. split; [apply length_replicate|].
      split; [by rewrite arr_upd_eq by lia|]. split; [lia|]. intros j Hj. by rewrite arr_upd_ne by lia.
    + intros d [[a k] t] Hd (H1 & H2 & H3 & H4 & H5 & H6).
      destruct (step_down_spec (length A) (length K) (order - 1 - d) a k t H1 H2 H3) as (a' & k' & t' & -> & L1 & L2 & v & Hv & ->);
        [lia|lia|lia|].
      eexists. split; [done|]. cbn beta iota. rewrite length_upd. split; [done|]. split; [done|]. split; [done|].
      split; [by rewrite arr_upd_ne by lia|]. split; intros j Hj.
      * destruct (decide (j = order - 1 - d - 1)) as [->|]; [by rewrite arr_upd_eq by lia|].
        rewrite arr_upd_ne by lia. apply H5. lia.
      * rewrite arr_upd_ne by lia. by apply H6.
    + bind_simpl. exists a, k. split; [done|]. split; [done|]. split; [done|]. split; [done|]. split; [|done].
      intros j Hj. apply H5. lia.
Qed.

Lemma lpc_recursions_outcome_witness : exists K',
  WebRtcSpl_LevinsonDurbin 77 [1000; 900; -900] [7; 7; 7] [0; 0] 2 = Some (0, [7; 7; 7], K') /\
  stable_coef (arr K' 1) = false.
Proof.
  destruct (lpc_recursions_outcome 77 [1000; 900; -900] [7; 7; 7] [0; 0] 2) as [H _].
  destruct H as (ret & A' & K' & E & _ & _ & [(Hr & _)|(-> & -> & m & Hm & Hu)]);
    [lia|simpl; lia|simpl; lia|simpl; lia| |].
  - exfalso. rewrite Hr in E. vm_compute in E. discriminate E.
  - exists K'. split; [exact E|]. assert (m = 2) as -> by lia. apply Hu.
Defined.

(** The first coefficient is not tested: an autocorrelation that belongs to no
    stable filter is reported as stable. *)
Lemma levinson_first_untested :
  WebRtcSpl_LevinsonDurbin 0 [1000; 1000] [0; 0] [0] 1 = Some (1, [4096; -4096], [-32768]) /\
  stable_coef (-32768) = false.
Proof. split; vm_compute; reflexivity. Qed.
