(* ===== verification/SplFft.v ===== *)
(** The transforms of the signal processing library: [complex_bit_reverse.c],
    [complex_fft.c], [complex_fft_tables.h] and [real_fft.c] of
    [common_audio/signal_processing] (portable C variants).

    A complex vector is the flat array of the C code, real and imaginary parts
    interleaved.  Every access to it is checked; [None] is an access outside the
    array.  The loops run in place, in the order of the source.

    The reference is the textbook recursion [fft_ref]: transform the even and
    the odd samples, then join the halves with butterflies.  The theorems show
    that bit reversal followed by the in-place loops computes exactly that
    recursion, and on which inputs the 16-bit stores do not wrap. *)
From S2P Require Import Prelude Signal SplInl SplVec.

(** ** complex_bit_reverse.c *)

Definition index_7 : list Z :=
  [1; 64; 2; 32; 3; 96; 4; 16; 5; 80; 6; 48; 7; 112; 9; 72; 10; 40; 11; 104; 12; 24; 13; 88; 14;
   56; 15; 120; 17; 68; 18; 36; 19; 100; 21; 84; 22; 52; 23; 116; 25; 76; 26; 44; 27; 108; 29;
   92; 30; 60; 31; 124; 33; 66; 35; 98; 37; 82; 38; 50; 39; 114; 41; 74; 43; 106; 45; 90; 46;
   58; 47; 122; 49; 70; 51; 102; 53; 86; 55; 118; 57; 78; 59; 110; 61; 94; 63; 126; 67; 97; 69;
   81; 71; 113; 75; 105; 77; 89; 79; 121; 83; 101; 87; 117; 91; 109; 95; 125; 103; 115; 111; 123].

Definition index_8 : list Z :=
  [1; 128; 2; 64; 3; 192; 4; 32; 5; 160; 6; 96; 7; 224; 8; 16; 9; 144; 10; 80; 11; 208; 12; 48;
   13; 176; 14; 112; 15; 240; 17; 136; 18; 72; 19; 200; 20; 40; 21; 168; 22; 104; 23; 232; 25;
   152; 26; 88; 27; 216; 28; 56; 29; 184; 30; 120; 31; 248; 33; 132; 34; 68; 35; 196; 37; 164;
   38; 100; 39; 228; 41; 148; 42; 84; 43; 212; 44; 52; 45; 180; 46; 116; 47; 244; 49; 140; 50;
   76; 51; 204; 53; 172; 54; 108; 55; 236; 57; 156; 58; 92; 59; 220; 61; 188; 62; 124; 63; 252;
   65; 130; 67; 194; 69; 162; 70; 98; 71; 226; 73; 146; 74; 82; 75; 210; 77; 178; 78; 114; 79;
   242; 81; 138; 83; 202; 85; 170; 86; 106; 87; 234; 89; 154; 91; 218; 93; 186; 94; 122; 95;
   250; 97; 134; 99; 198; 101; 166; 103; 230; 105; 150; 107; 214; 109; 182; 110; 118; 111; 246;
   113; 142; 115; 206; 117; 174; 119; 238; 121; 158; 123; 222; 125; 190; 127; 254; 131; 193;
   133; 161; 135; 225; 137; 145; 139; 209; 141; 177; 143; 241; 147; 201; 149; 169; 151; 233;
   155; 217; 157; 185; 159; 249; 163; 197; 167; 229; 171; 213; 173; 181; 175; 245; 179; 205;
   183; 237; 187; 221; 191; 253; 199; 227; 203; 211; 207; 243; 215; 235; 223; 251; 239; 247].

(** The complex element [p], [d[2 * p]] and [d[2 * p + 1]]. *)
Definition rd_c (d : list Z) (p : Z) : option (Z * Z) :=
  re ← rd d (2 * p); im ← rd d (2 * p + 1); Some (re, im).
Definition wr_c (d : list Z) (p : Z) (v : Z * Z) : option (list Z) :=
  d ← wr d (2 * p) v.1; wr d (2 * p + 1) v.2.

(** The exchange of two 32-bit words of [complex_data_ptr]. *)
Definition swap32 (d : list Z) (a b : Z) : option (list Z) :=
  temp ← rd_c d a; v ← rd_c d b; d ← wr_c d a v; wr_c d b temp.

(** [do { l >>= 1; } while (l > nn - mr);] *)
Fixpoint halve_until (fuel : nat) (l lim : Z) : option Z :=
  match fuel with
  | O => None
  | S fuel => let l := l ≫ 1 in if lim <? l then halve_until fuel l lim else Some l
  end.

Definition bit_reverse_table (index : list Z) (length : Z) (d : list Z) : option (list Z) :=
  for_opt (length / 2) (fun h d =>
    let m := 2 * h in
    a ← rd index m; b ← rd index (m + 1); swap32 d a b) d.

(** One round of the loop over [m = k + 1]. *)
Definition bit_reverse_step (n k : Z) (st : Z * list Z) : option (Z * list Z) :=
  let '(mr, d) := st in
  let nn := n - 1 in
  let m := k + 1 in
  l ← halve_until 32 n (nn - mr);
  let mr := Z.land mr (l - 1) + l in
  if mr <=? m then Some (mr, d)
  else d ← swap32 d m mr; Some (mr, d).

Definition bit_reverse_loop (stages : Z) (d : list Z) : option (list Z) :=
  let n := i32 (1 ≪ stages) in
  let nn := n - 1 in
  r ← for_opt nn (bit_reverse_step n) (0, d);
  Some r.2.

Definition WebRtcSpl_ComplexBitReverse (complex_data : list Z) (stages : Z) : option (list Z) :=
  if (stages =? 7) || (stages =? 8)
  then if stages =? 8 then bit_reverse_table index_8 240 complex_data
       else bit_reverse_table index_7 112 complex_data
  else bit_reverse_loop stages complex_data.

(** ** complex_fft_tables.h *)

Definition kSinTable1024 : list Z :=
  [0; 201; 402; 603; 804; 1005; 1206; 1406; 1607; 1808; 2009; 2209; 2410; 2610; 2811; 3011;
   3211; 3411; 3611; 3811; 4011; 4210; 4409; 4608; 4807; 5006; 5205; 5403; 5601; 5799; 5997;
   6195; 6392; 6589; 6786; 6982; 7179; 7375; 7571; 7766; 7961; 8156; 8351; 8545; 8739; 8932;
   9126; 9319; 9511; 9703; 9895; 10087; 10278; 10469; 10659; 10849; 11038; 11227; 11416; 11604;
   11792; 11980; 12166; 12353; 12539; 12724; 12909; 13094; 13278; 13462; 13645; 13827; 14009;
   14191; 14372; 14552; 14732; 14911; 15090; 15268; 15446; 15623; 15799; 15975; 16150; 16325;
   16499; 16672; 16845; 17017; 17189; 17360; 17530; 17699; 17868; 18036; 18204; 18371; 18537;
   18702; 18867; 19031; 19194; 19357; 19519; 19680; 19840; 20000; 20159; 20317; 20474; 20631;
   20787; 20942; 21096; 21249; 21402; 21554; 21705; 21855; 22004; 22153; 22301; 22448; 22594;
   22739; 22883; 23027; 23169; 23311; 23452; 23592; 23731; 23869; 24006; 24143; 24278; 24413;
   24546; 24679; 24811; 24942; 25072; 25201; 25329; 25456; 25582; 25707; 25831; 25954; 26077;
   26198; 26318; 26437; 26556; 26673; 26789; 26905; 27019; 27132; 27244; 27355; 27466; 27575;
   27683; 27790; 27896; 28001; 28105; 28208; 28309; 28410; 28510; 28608; 28706; 28802; 28897;
   28992; 29085; 29177; 29268; 29358; 29446; 29534; 29621; 29706; 29790; 29873; 29955; 30036;
   30116; 30195; 30272; 30349; 30424; 30498; 30571; 30643; 30713; 30783; 30851; 30918; 30984;
   31049; 31113; 31175; 31236; 31297; 31356; 31413; 31470; 31525; 31580; 31633; 31684; 31735;
   31785; 31833; 31880; 31926; 31970; 32014; 32056; 32097; 32137; 32176; 32213; 32249; 32284;
   32318; 32350; 32382; 32412; 32441; 32468; 32495; 32520; 32544; 32567; 32588; 32609; 32628;
   32646; 32662; 32678; 32692; 32705; 32717; 32727; 32736; 32744; 32751; 32757; 32761; 32764;
   32766; 32767; 32766; 32764; 32761; 32757; 32751; 32744; 32736; 32727; 32717; 32705; 32692;
   32678; 32662; 32646; 32628; 32609; 32588; 32567; 32544; 32520; 32495; 32468; 32441; 32412;
   32382; 32350; 32318; 32284; 32249; 32213; 32176; 32137; 32097; 32056; 32014; 31970; 31926;
   31880; 31833; 31785; 31735; 31684; 31633; 31580; 31525; 31470; 31413; 31356; 31297; 31236;
   31175; 31113; 31049; 30984; 30918; 30851; 30783; 30713; 30643; 30571; 30498; 30424; 30349;
   30272; 30195; 30116; 30036; 29955; 29873; 29790; 29706; 29621; 29534; 29446; 29358; 29268;
   29177; 29085; 28992; 28897; 28802; 28706; 28608; 28510; 28410; 28309; 28208; 28105; 28001;
   27896; 27790; 27683; 27575; 27466; 27355; 27244; 27132; 27019; 26905; 26789; 26673; 26556;
   26437; 26318; 26198; 26077; 25954; 25831; 25707; 25582; 25456; 25329; 25201; 25072; 24942;
   24811; 24679; 24546; 24413; 24278; 24143; 24006; 23869; 23731; 23592; 23452; 23311; 23169;
   23027; 22883; 22739; 22594; 22448; 22301; 22153; 22004; 21855; 21705; 21554; 21402; 21249;
   21096; 20942; 20787; 20631; 20474; 20317; 20159; 20000; 19840; 19680; 19519; 19357; 19194;
   19031; 18867; 18702; 18537; 18371; 18204; 18036; 17868; 17699; 17530; 17360; 17189; 17017;
   16845; 16672; 16499; 16325; 16150; 15975; 15799; 15623; 15446; 15268; 15090; 14911; 14732;
   14552; 14372; 14191; 14009; 13827; 13645; 13462; 13278; 13094; 12909; 12724; 12539; 12353;
   12166; 11980; 11792; 11604; 11416; 11227; 11038; 10849; 10659; 10469; 10278; 10087; 9895;
   9703; 9511; 9319; 9126; 8932; 8739; 8545; 8351; 8156; 7961; 7766; 7571; 7375; 7179; 6982;
   6786; 6589; 6392; 6195; 5997; 5799; 5601; 5403; 5205; 5006; 4807; 4608; 4409; 4210; 4011;
   3811; 3611; 3411; 3211; 3011; 2811; 2610; 2410; 2209; 2009; 1808; 1607; 1406; 1206; 1005;
   804; 603; 402; 201; 0; -201; -402; -603; -804; -1005; -1206; -1406; -1607; -1808; -2009;
   -2209; -2410; -2610; -2811; -3011; -3211; -3411; -3611; -3811; -4011; -4210; -4409; -4608;
   -4807; -5006; -5205; -5403; -5601; -5799; -5997; -6195; -6392; -6589; -6786; -6982; -7179;
   -7375; -7571; -7766; -7961; -8156; -8351; -8545; -8739; -8932; -9126; -9319; -9511; -9703;
   -9895; -10087; -10278; -10469; -10659; -10849; -11038; -11227; -11416; -11604; -11792;
   -11980; -12166; -12353; -12539; -12724; -12909; -13094; -13278; -13462; -13645; -13827;
   -14009; -14191; -14372; -14552; -14732; -14911; -15090; -15268; -15446; -15623; -15799;
   -15975; -16150; -16325; -16499; -16672; -16845; -17017; -17189; -17360; -17530; -17699;
   -17868; -18036; -18204; -18371; -18537; -18702; -18867; -19031; -19194; -19357; -19519;
   -19680; -19840; -20000; -20159; -20317; -20474; -20631; -20787; -20942; -21096; -21249;
   -21402; -21554; -21705; -21855; -22004; -22153; -22301; -22448; -22594; -22739; -22883;
   -23027; -23169; -23311; -23452; -23592; -23731; -23869; -24006; -24143; -24278; -24413;
   -24546; -24679; -24811; -24942; -25072; -25201; -25329; -25456; -25582; -25707; -25831;
   -25954; -26077; -26198; -26318; -26437; -26556; -26673; -26789; -26905; -27019; -27132;
   -27244; -27355; -27466; -27575; -27683; -27790; -27896; -28001; -28105; -28208; -28309;
   -28410; -28510; -28608; -28706; -28802; -28897; -28992; -29085; -29177; -29268; -29358;
   -29446; -29534; -29621; -29706; -29790; -29873; -29955; -30036; -30116; -30195; -30272;
   -30349; -30424; -30498; -30571; -30643; -30713; -30783; -30851; -30918; -30984; -31049;
   -31113; -31175; -31236; -31297; -31356; -31413; -31470; -31525; -31580; -31633; -31684;
   -31735; -31785; -31833; -31880; -31926; -31970; -32014; -32056; -32097; -32137; -32176;
   -32213; -32249; -32284; -32318; -32350; -32382; -32412; -32441; -32468; -32495; -32520;
   -32544; -32567; -32588; -32609; -32628; -32646; -32662; -32678; -32692; -32705; -32717;
   -32727; -32736; -32744; -32751; -32757; -32761; -32764; -32766; -32767; -32766; -32764;
   -32761; -32757; -32751; -32744; -32736; -32727; -32717; -32705; -32692; -32678; -32662;
   -32646; -32628; -32609; -32588; -32567; -32544; -32520; -32495; -32468; -32441; -32412;
   -32382; -32350; -32318; -32284; -32249; -32213; -32176; -32137; -32097; -32056; -32014;
   -31970; -31926; -31880; -31833; -31785; -31735; -31684; -31633; -31580; -31525; -31470;
   -31413; -31356; -31297; -31236; -31175; -31113; -31049; -30984; -30918; -30851; -30783;
   -30713; -30643; -30571; -30498; -30424; -30349; -30272; -30195; -30116; -30036; -29955;
   -29873; -29790; -29706; -29621; -29534; -29446; -29358; -29268; -29177; -29085; -28992;
   -28897; -28802; -28706; -28608; -28510; -28410; -28309; -28208; -28105; -28001; -27896;
   -27790; -27683; -27575; -27466; -27355; -27244; -27132; -27019; -26905; -26789; -26673;
   -26556; -26437; -26318; -26198; -26077; -25954; -25831; -25707; -25582; -25456; -25329;
   -25201; -25072; -24942; -24811; -24679; -24546; -24413; -24278; -24143; -24006; -23869;
   -23731; -23592; -23452; -23311; -23169; -23027; -22883; -22739; -22594; -22448; -22301;
   -22153; -22004; -21855; -21705; -21554; -21402; -21249; -21096; -20942; -20787; -20631;
   -20474; -20317; -20159; -20000; -19840; -19680; -19519; -19357; -19194; -19031; -18867;
   -18702; -18537; -18371; -18204; -18036; -17868; -17699; -17530; -17360; -17189; -17017;
   -16845; -16672; -16499; -16325; -16150; -15975; -15799; -15623; -15446; -15268; -15090;
   -14911; -14732; -14552; -14372; -14191; -14009; -13827; -13645; -13462; -13278; -13094;
   -12909; -12724; -12539; -12353; -12166; -11980; -11792; -11604; -11416; -11227; -11038;
   -10849; -10659; -10469; -10278; -10087; -9895; -9703; -9511; -9319; -9126; -8932; -8739;
   -8545; -8351; -8156; -7961; -7766; -7571; -7375; -7179; -6982; -6786; -6589; -6392; -6195;
   -5997; -5799; -5601; -5403; -5205; -5006; -4807; -4608; -4409; -4210; -4011; -3811; -3611;
   -3411; -3211; -3011; -2811; -2610; -2410; -2209; -2009; -1808; -1607; -1406; -1206; -1005;
   -804; -603; -402; -201].

(** ** complex_fft.c *)

Definition CFFTSFT : Z := 14.
Definition CFFTRND : Z := 1.
Definition CFFTRND2 : Z := 16384.

(** The product [w * z] as the two 32-bit sums of the butterflies. *)
Definition cmul_re (w z : Z * Z) : Z := i32 (i32 (w.1 * z.1) - i32 (w.2 * z.2)).
Definition cmul_im (w z : Z * Z) : Z := i32 (i32 (w.1 * z.2) + i32 (w.2 * z.1)).

(** The low-accuracy butterfly on the elements [i] and [j].  The forward
    transform has the fixed [shift] 1. *)
Definition butterfly_low (shift : Z) (w : Z * Z) (frfi : list Z) (i j : Z) : option (list Z) :=
  z ← rd_c frfi j;
  let tr32 := cmul_re w z ≫ 15 in
  let ti32 := cmul_im w z ≫ 15 in
  '(qr32, qi32) ← rd_c frfi i;
  frfi ← wr_c frfi j (i16 (i32 (qr32 - tr32) ≫ shift), i16 (i32 (qi32 - ti32) ≫ shift));
  wr_c frfi i (i16 (i32 (qr32 + tr32) ≫ shift), i16 (i32 (qi32 + ti32) ≫ shift)).

(** The high-accuracy butterfly.  The forward transform has [shift] 1 and
    rounds with [CFFTRND2]; [CIFFTSFT] and [CIFFTRND] are [CFFTSFT] and
    [CFFTRND]. *)
Definition butterfly_high (shift round2 : Z) (w : Z * Z) (frfi : list Z) (i j : Z)
  : option (list Z) :=
  z ← rd_c frfi j;
  let tr32 := i32 (cmul_re w z + CFFTRND) ≫ (15 - CFFTSFT) in
  let ti32 := i32 (cmul_im w z + CFFTRND) ≫ (15 - CFFTSFT) in
  q ← rd_c frfi i;
  let qr32 := i32 (q.1 * 2 ^ CFFTSFT) in
  let qi32 := i32 (q.2 * 2 ^ CFFTSFT) in
  frfi ← wr_c frfi j (i16 (i32 (i32 (qr32 - tr32) + round2) ≫ (shift + CFFTSFT)),
                      i16 (i32 (i32 (qi32 - ti32) + round2) ≫ (shift + CFFTSFT)));
  wr_c frfi i (i16 (i32 (i32 (qr32 + tr32) + round2) ≫ (shift + CFFTSFT)),
               i16 (i32 (i32 (qi32 + ti32) + round2) ≫ (shift + CFFTSFT))).

(** [for (i = m; i < n; i += istep)] *)
Definition for_by {S : Type} (m n istep : Z) (f : Z -> S -> option S) (s : S) : option S :=
  for_opt ((n - m + istep - 1) / istep) (fun c => f (m + c * istep)) s.

(** One pass of the [while (l < n)] loops; [sgn] is the sign of [wi]. *)
Definition fft_pass (butterfly : Z * Z -> list Z -> Z -> Z -> option (list Z)) (sgn n l k : Z)
  (frfi : list Z) : option (list Z) :=
  let istep := l ≪ 1 in
  for_opt l (fun m frfi =>
    let j := m ≪ k in
    w_r ← rd kSinTable1024 (j + 256);
    w_i ← rd kSinTable1024 j;
    for_by m n istep (fun i frfi => butterfly (w_r, i16 (sgn * w_i)) frfi i (i + l)) frfi) frfi.

(** The transform has at most ten passes, so the loop test is evaluated at most
    eleven times. *)
Definition fft_fuel : nat := 11.

Fixpoint fft_while (fuel : nat) (butterfly : Z * Z -> list Z -> Z -> Z -> option (list Z))
  (n l k : Z) (frfi : list Z) : option (list Z) :=
  match fuel with
  | O => None
  | S fuel =>
      if l <? n
      then frfi ← fft_pass butterfly (-1) n l k frfi; fft_while fuel butterfly n (l ≪ 1) (k - 1) frfi
      else Some frfi
  end.

(** The returned value and the transformed vector. *)
Definition WebRtcSpl_ComplexFFT (frfi : list Z) (stages mode : Z) : option (Z * list Z) :=
  let n := i32 (1 ≪ stages) in
  if 1024 <? n then Some (-1, frfi)
  else
    let butterfly := if mode =? 0 then butterfly_low 1 else butterfly_high 1 CFFTRND2 in
    frfi ← fft_while fft_fuel butterfly n 1 (10 - 1) frfi;
    Some (0, frfi).

(** The data dependent scaling of one pass: [shift] and [round2]. *)
Definition ifft_scaling (tmp32 : Z) : Z * Z :=
  let '(shift, round2) := (0, 8192) in
  let '(shift, round2) := if 13573 <? tmp32 then (shift + 1, round2 ≪ 1) else (shift, round2) in
  if 27146 <? tmp32 then (shift + 1, round2 ≪ 1) else (shift, round2).

Fixpoint ifft_while (fuel : nat) (mode n l k scale : Z) (frfi : list Z) : option (Z * list Z) :=
  match fuel with
  | O => None
  | S fuel =>
      if l <? n
      then
        vector ← mem_read frfi 0 (2 * n);
        tmp32 ← WebRtcSpl_MaxAbsValueW16C vector;
        let '(shift, round2) := ifft_scaling tmp32 in
        let butterfly := if mode =? 0 then butterfly_low shift else butterfly_high shift round2 in
        frfi ← fft_pass butterfly 1 n l k frfi;
        ifft_while fuel mode n (l ≪ 1) (k - 1) (scale + shift) frfi
      else Some (scale, frfi)
  end.

Definition WebRtcSpl_ComplexIFFT (frfi : list Z) (stages mode : Z) : option (Z * list Z) :=
  let n := u64 (1 ≪ stages) in
  if 1024 <? n then Some (-1, frfi)
  else ifft_while fft_fuel mode n 1 (10 - 1) 0 frfi.

(** ** real_fft.c *)

Definition kMaxFFTOrder : Z := 10.

Record RealFFT := { order : Z }.

(** [memory] says whether [malloc] succeeds. *)
Definition WebRtcSpl_CreateRealFFT (memory : bool) (order : Z) : option RealFFT :=
  if (kMaxFFTOrder <? order) || (order <? 0) then None
  else if memory then Some {| order := order |} else None.

(** [complex_buffer] is the uninitialised local array of [2 << kMaxFFTOrder]
    cells. *)
Definition WebRtcSpl_RealForwardFFT (self : RealFFT) (complex_buffer real_data_in
  complex_data_out : list Z) : option (Z * list Z) :=
  let n := i32 (1 ≪ self.(order)) in
  complex_buffer ← for_opt n (fun i buf =>
    v ← rd real_data_in i; wr_c buf i (v, 0)) complex_buffer;
  complex_buffer ← WebRtcSpl_ComplexBitReverse complex_buffer self.(order);
  '(result, complex_buffer) ← WebRtcSpl_ComplexFFT complex_buffer self.(order) 1;
  bs ← mem_read complex_buffer 0 (n + 2);
  complex_data_out ← mem_write complex_data_out 0 bs;
  Some (result, complex_data_out).

Definition WebRtcSpl_RealInverseFFT (self : RealFFT) (complex_buffer complex_data_in
  real_data_out : list Z) : option (Z * list Z) :=
  let n := i32 (1 ≪ self.(order)) in
  bs ← mem_read complex_data_in 0 (n + 2);
  complex_buffer ← mem_write complex_buffer 0 bs;
  complex_buffer ← for_by (n + 2) (2 * n) 2 (fun i buf =>
    re ← rd complex_data_in (2 * n - i);
    im ← rd complex_data_in (2 * n - i + 1);
    buf ← wr buf i re; wr buf (i + 1) (i16 (- im))) complex_buffer;
  complex_buffer ← WebRtcSpl_ComplexBitReverse complex_buffer self.(order);
  '(result, complex_buffer) ← WebRtcSpl_ComplexIFFT complex_buffer self.(order) 1;
  real_data_out ← for_opt n (fun i out => v ← rd complex_buffer (2 * i); wr out i v) real_data_out;
  Some (result, real_data_out).

(** ** The complex view of an array *)

Definition cplx (d : list Z) (p : Z) : Z * Z := (arr d (2 * p), arr d (2 * p + 1)).

(** Room for the complex elements [0 .. n - 1]. *)
Definition room (n : Z) (d : list Z) : Prop := 2 * n <= Z.of_nat (length d).

Lemma rd_c_Some n d p : room n d -> 0 <= p < n -> rd_c d p = Some (cplx d p).
Proof. unfold room, rd_c. intros Hr Hp. by rewrite !rd_Some by lia. Qed.

Lemma rd_c_inv d p v : rd_c d p = Some v -> 0 <= p /\ 2 * p + 1 < Z.of_nat (length d).
Proof.
  unfold rd_c, rd. destruct (Z.leb_spec 0 (2 * p)); [|done].
  destruct (d !! Z.to_nat (2 * p)); [|done]. simpl.
  destruct (Z.leb_spec 0 (2 * p + 1)); [|done].
  destruct (d !! Z.to_nat (2 * p + 1)) eqn:E; [|done].
  intros _. apply lookup_lt_Some in E. lia.
Qed.

Lemma wr_c_Some n d p v : room n d -> 0 <= p < n -> exists d', wr_c d p v = Some d' /\
  length d' = length d /\ cplx d' p = v /\ (forall q, 0 <= q -> q <> p -> cplx d' q = cplx d q) /\
  (Forall is_i16 d -> is_i16 v.1 -> is_i16 v.2 -> Forall is_i16 d').
Proof.
  unfold room, wr_c. intros Hr Hp. rewrite wr_Some by lia. bind_simpl.
  rewrite wr_Some by (rewrite length_upd; lia).
  eexists. split; [done|]. rewrite !length_upd. split; [done|]. unfold cplx. split; [|split].
  - rewrite arr_upd_ne, !arr_upd_eq by (rewrite ?length_upd; lia). by destruct v.
  - intros q Hq Hne. by rewrite !arr_upd_ne by lia.
  - intros. by repeat apply Forall_upd.
Qed.

Lemma swap32_Some n d a b : room n d -> 0 <= a < n -> 0 <= b < n -> exists d',
  swap32 d a b = Some d' /\ length d' = length d /\ cplx d' b = cplx d a /\
  (a <> b -> cplx d' a = cplx d b) /\ (forall q, 0 <= q -> q <> a -> q <> b -> cplx d' q = cplx d q).
Proof.
  intros Hr Ha Hb. unfold swap32. rewrite !(rd_c_Some n) by done. bind_simpl.
  destruct (wr_c_Some n d a (cplx d b) Hr Ha) as (d1 & -> & L1 & C1 & N1 & _). bind_simpl.
  destruct (wr_c_Some n d1 b (cplx d a)) as (d2 & -> & L2 & C2 & N2 & _); [by unfold room; rewrite L1|done|].
  exists d2. rewrite L2, L1, C2. repeat split; try done.
  - intros. rewrite N2, C1; try done; lia.
  - intros. rewrite N2, N1 by done. done.
Qed.

Lemma swap32_inv d a b d' : swap32 d a b = Some d' ->
  0 <= a /\ 2 * a + 1 < Z.of_nat (length d) /\ 0 <= b /\ 2 * b + 1 < Z.of_nat (length d).
Proof.
  unfold swap32. destruct (rd_c d a) eqn:Ea; [|done]. bind_simpl.
  destruct (rd_c d b) eqn:Eb; [|done]. intros _.
  apply rd_c_inv in Ea, Eb. lia.
Qed.

(** ** Bit reversal *)

(** The reversal of the [s] low bits of [p]. *)
Fixpoint bitrev (s : nat) (p : Z) : Z :=
  match s with
  | O => 0
  | S s => (p mod 2) * 2 ^ Z.of_nat s + bitrev s (p / 2)
  end.

Lemma pow2_S s : 2 ^ Z.of_nat (S s) = 2 * 2 ^ Z.of_nat s.
Proof. rewrite Nat2Z.inj_succ. apply Z.pow_succ_r. lia. Qed.
Lemma pow2_pos s : 0 < 2 ^ Z.of_nat s.
Proof. apply Z.pow_pos_nonneg; lia. Qed.

Lemma mod2_cases p : p mod 2 = 0 \/ p mod 2 = 1.
Proof. pose proof (Z.mod_pos_bound p 2). lia. Qed.

Lemma bitrev_0 s : bitrev s 0 = 0.
Proof. induction s as [|s IH]; [done|]. exact IH. Qed.

Lemma bitrev_range s : forall p, 0 <= bitrev s p < 2 ^ Z.of_nat s.
Proof.
  induction s as [|s IH]; intros p; [cbn; lia|]. rewrite pow2_S. cbn [bitrev].
  specialize (IH (p / 2)). destruct (mod2_cases p) as [-> | ->]; lia.
Qed.

(** Low bits move to the top ([bitrev_low]), high bits to the bottom. *)
Lemma bitrev_low s b h : 0 <= h < 2 -> bitrev (S s) (2 * b + h) = h * 2 ^ Z.of_nat s + bitrev s b.
Proof.
  intros Hh. cbn [bitrev].
  assert ((2 * b + h) mod 2 = h /\ (2 * b + h) / 2 = b) as [-> ->]; [|done].
  Z.div_mod_to_equations; lia.
Qed.

Lemma bitrev_high s : forall h p, 0 <= h < 2 -> 0 <= p < 2 ^ Z.of_nat s ->
  bitrev (S s) (h * 2 ^ Z.of_nat s + p) = 2 * bitrev s p + h.
Proof.
  induction s as [|s IH]; intros h p Hh Hp.
  - cbn in Hp. replace p with 0 by lia. change (2 ^ Z.of_nat 0) with 1.
    replace (h * 1 + 0) with (2 * 0 + h) by lia. rewrite bitrev_low by done. cbn. lia.
  - rewrite pow2_S in *. pose proof (Z.div_mod p 2 ltac:(done)) as E.
    destruct (mod2_cases p) as [H2|H2]; rewrite H2 in E.
    all: rewrite E, (bitrev_low s) by lia.
    all: replace (h * (2 * 2 ^ Z.of_nat s) + (2 * (p / 2) + _))
           with (2 * (h * 2 ^ Z.of_nat s + p / 2) + p mod 2) by lia.
    all: rewrite H2, (bitrev_low (S s)), IH, pow2_S by lia; lia.
Qed.

Lemma bitrev_involutive s : forall p, 0 <= p < 2 ^ Z.of_nat s -> bitrev s (bitrev s p) = p.
Proof.
  induction s as [|s IH]; intros p Hp; [cbn in *; lia|]. rewrite pow2_S in Hp.
  pose proof (Z.div_mod p 2 ltac:(done)) as E. pose proof (mod2_cases p).
  rewrite E at 1. rewrite bitrev_low by lia. rewrite bitrev_high by (lia || apply bitrev_range).
  rewrite IH; lia.
Qed.

(** Counting in reversed binary. *)
Lemma bitrev_succ s : forall m, 0 <= m -> m + 1 < 2 ^ Z.of_nat s ->
  let lim := 2 ^ Z.of_nat s - 1 - bitrev s m in
  1 <= lim /\ bitrev s (m + 1) = bitrev s m + 3 * 2 ^ Z.log2 lim - 2 ^ Z.of_nat s.
Proof.
  induction s as [|s IH]; intros m Hm Hl; [cbn in Hl; lia|]. cbn zeta. rewrite pow2_S in *.
  pose proof (Z.div_mod m 2 ltac:(done)) as E. pose proof (mod2_cases m) as H2.
  set (b := m / 2) in *. set (h := m mod 2) in *. clearbody b h. subst m.
  pose proof (bitrev_range s b) as Hr. rewrite (bitrev_low s b h) by lia.
  destruct H2 as [-> | ->].
  - split; [lia|]. replace (2 * b + 0 + 1) with (2 * b + 1) by lia. rewrite bitrev_low by lia.
    rewrite (Z.log2_unique _ (Z.of_nat s)); [lia|lia|].
    rewrite <-Z.add_1_r, Z.pow_add_r by lia. lia.
  - destruct (IH b) as [IH1 IH2]; [lia|lia|]. split; [lia|].
    replace (2 * b + 1 + 1) with (2 * (b + 1) + 0) by lia. rewrite bitrev_low, IH2 by lia.
    replace (2 * 2 ^ Z.of_nat s - 1 - (1 * 2 ^ Z.of_nat s + bitrev s b))
      with (2 ^ Z.of_nat s - 1 - bitrev s b) by lia. lia.
Qed.

Lemma halve_until_spec fuel : forall k lim, (k < fuel)%nat -> 1 <= lim < 2 ^ Z.of_nat (S k) ->
  halve_until fuel (2 ^ Z.of_nat (S k)) lim = Some (2 ^ Z.log2 lim).
Proof.
  induction fuel as [|fuel IH]; intros k lim Hk Hl; [lia|]. cbn [halve_until]. cbn zeta.
  rewrite pow2_S in *. rewrite (Z.shiftr_div_pow2 _ 1), Z.mul_comm, Z.div_mul by lia.
  destruct (Z.ltb_spec lim (2 ^ Z.of_nat k)).
  - destruct k as [|k]; [cbn in *; lia|]. apply IH; lia.
  - do 2 f_equal. symmetry. apply Z.log2_unique; [lia|]. rewrite <-Nat2Z.inj_succ, pow2_S. lia.
Qed.

(** Both together: one round of the loop's counter. *)
Lemma counter_step s m : (s <= 30)%nat -> 0 <= m -> m + 1 < 2 ^ Z.of_nat s -> exists l,
  halve_until 32 (2 ^ Z.of_nat s) (2 ^ Z.of_nat s - 1 - bitrev s m) = Some l /\
  Z.land (bitrev s m) (l - 1) + l = bitrev s (m + 1).
Proof.
  intros Hs Hm Hl. destruct (bitrev_succ s m Hm Hl) as [H1 H2]. cbn zeta in *.
  pose proof (bitrev_range s m) as Hr. destruct s as [|s]; [cbn in Hl; lia|].
  set (lim := 2 ^ Z.of_nat (S s) - 1 - bitrev (S s) m) in *.
  exists (2 ^ Z.log2 lim). split; [apply halve_until_spec; lia|]. rewrite H2, land_ones_mod by apply Z.log2_nonneg.
  pose proof (Z.log2_spec lim ltac:(lia)) as Hlog. rewrite Z.pow_succ_r in Hlog by apply Z.log2_nonneg.
  assert (Z.log2 lim <= Z.of_nat s).
  { assert (Z.log2 lim < Z.of_nat (S s)); [|lia]. apply Z.log2_lt_pow2; lia. }
  assert (2 ^ Z.of_nat (S s) = 2 * 2 ^ (Z.of_nat s - Z.log2 lim) * 2 ^ Z.log2 lim) as En.
  { rewrite <-Z.mul_assoc, <-Z.pow_add_r, pow2_S by (pose proof (Z.log2_nonneg lim); lia). do 2 f_equal. lia. }
  rewrite <-(Z.mod_unique_pos _ _ (2 * 2 ^ (Z.of_nat s - Z.log2 lim) - 2) (2 * 2 ^ Z.log2 lim - 1 - lim)); lia.
Qed.

Lemma index_tables_ok :
  map (fun h => (arr index_7 (2 * h), arr index_7 (2 * h + 1))) (seqZ 0 56)
    = map (fun m => (m, bitrev 7 m)) (filter (fun m => m < bitrev 7 m) (seqZ 1 127)) /\
  map (fun h => (arr index_8 (2 * h), arr index_8 (2 * h + 1))) (seqZ 0 120)
    = map (fun m => (m, bitrev 8 m)) (filter (fun m => m < bitrev 8 m) (seqZ 1 255)).
Proof. split; reflexivity. Qed.

(** The exchanges that have been made once [m] has been passed. *)
Definition exchanged (s : nat) (m p : Z) : Z :=
  if Z.min p (bitrev s p) <=? m then bitrev s p else p.

(** [d] is [d0] with those exchanges made. *)
Definition reordered (s : nat) (d0 : list Z) (m : Z) (d : list Z) : Prop :=
  length d = length d0 /\
  (forall p, 0 <= p < 2 ^ Z.of_nat s -> cplx d p = cplx d0 (exchanged s m p)) /\
  (forall p, 2 ^ Z.of_nat s <= p -> cplx d p = cplx d0 p) /\
  (forall P : Z -> Prop, Forall P d0 -> Forall P d).

Lemma swap32_Forall (P : Z -> Prop) d a b d' : swap32 d a b = Some d' -> Forall P d -> Forall P d'.
Proof.
  intros E HP. pose proof (swap32_inv _ _ _ _ E). unfold swap32, rd_c, wr_c in E.
  revert E. rewrite !rd_Some by lia. bind_simpl.
  repeat (rewrite wr_Some by (rewrite ?length_upd; lia); bind_simpl). intros [= <-].
  assert (forall i, 0 <= i < Z.of_nat (length d) -> P (arr d i)).
  { intros i Hi. apply (Forall_lookup_1 _ _ _ _ HP (arr_lookup d i Hi)). }
  repeat apply Forall_upd; auto with lia.
Qed.

(** A table of pairs makes the exchanges of the loop. *)
Fixpoint swap_pairs (l : list (Z * Z)) (d : list Z) : option (list Z) :=
  match l with
  | [] => Some d
  | (a, b) :: l => d ← swap32 d a b; swap_pairs l d
  end.

Lemma bit_reverse_table_pairs index len d : 0 <= len -> 2 * len <= Z.of_nat (length index) ->
  bit_reverse_table index (2 * len) d
  = swap_pairs (map (fun h => (arr index (2 * h), arr index (2 * h + 1))) (seqZ 0 len)) d.
Proof.
  intros Hlen Hl. unfold bit_reverse_table. rewrite Z.mul_comm, Z.div_mul by lia. unfold for_opt, seqZ.
  enough (forall n i d, (i + n)%nat = Z.to_nat len -> for_opt_from i n (fun h d => let m := 2 * h in
     a ← rd index m; b ← rd index (m + 1); swap32 d a b) d
   = swap_pairs (map (fun h => (arr index (2 * h), arr index (2 * h + 1)))
       (map (fun j : nat => Z.of_nat j + 0) (seq i n))) d) as H by (by apply H).
  induction n as [|n IH]; intros i e Hi; [done|]. cbn [for_opt_from seq map swap_pairs]. cbn zeta.
  rewrite !rd_Some by lia. bind_simpl. rewrite !Z.add_0_r. destruct (swap32 _ _ _); [|done].
  bind_simpl. apply IH. lia.
Qed.
Section Reordering.
Context (s : nat) (d0 : list Z) (Hroom : room (2 ^ Z.of_nat s) d0).

Lemma reordered_start : reordered s d0 0 d0.
Proof.
  split; [done|]. split; [|done]. intros p Hp. f_equal. unfold exchanged.
  pose proof (bitrev_range s p). destruct (Z.leb_spec (Z.min p (bitrev s p)) 0); [|done].
  pose proof (bitrev_0 s) as Hz.
  destruct (decide (p = 0)) as [->|]; [done|].
  rewrite <-(bitrev_involutive s p) at 1 by done. replace (bitrev s p) with 0 by lia. lia.
Qed.

(** A fixed point or the larger index of a pair needs no exchange. *)
Lemma reordered_skip m d : 0 <= m -> bitrev s (m + 1) <= m + 1 < 2 ^ Z.of_nat s ->
  reordered s d0 m d -> reordered s d0 (m + 1) d.
Proof.
  intros Hm Hb (Hl & Hc & Ht). split; [done|]. split; [|done]. intros p Hp. rewrite Hc by done. f_equal.
  unfold exchanged. destruct (Z.leb_spec (Z.min p (bitrev s p)) m), (Z.leb_spec (Z.min p (bitrev s p)) (m + 1)); try lia.
  assert (p = m + 1 \/ bitrev s p = m + 1) as [-> | E] by lia; [lia|].
  pose proof (bitrev_involutive s p Hp) as H'. rewrite E in H'. lia.
Qed.

Lemma reordered_swap m d : 0 <= m -> m + 1 < bitrev s (m + 1) -> m + 1 < 2 ^ Z.of_nat s ->
  reordered s d0 m d -> exists d', swap32 d (m + 1) (bitrev s (m + 1)) = Some d' /\
  reordered s d0 (m + 1) d'.
Proof.
  intros Hm Hb Hn (Hl & Hc & Ht & HF). pose proof (bitrev_range s (m + 1)) as Hr.
  pose proof (bitrev_involutive s (m + 1) ltac:(lia)) as Hi.
  destruct (swap32_Some (2 ^ Z.of_nat s) d (m + 1) (bitrev s (m + 1))) as (d' & E & L & Cb & Ca & Cn);
    [by unfold room; rewrite Hl|lia|lia|].
  exists d'. split; [done|]. split; [lia|]. split; [|split].
  - intros p Hp. pose proof (bitrev_involutive s p Hp) as Hi'. unfold exchanged.
    destruct (decide (p = m + 1)) as [->|H1].
    { rewrite Ca, Hc by lia. f_equal. unfold exchanged. rewrite Hi.
      rewrite (proj2 (Z.leb_gt _ _)), (proj2 (Z.leb_le _ _)) by lia. done. }
    destruct (decide (p = bitrev s (m + 1))) as [->|H2].
    { rewrite Cb, Hc by lia. f_equal. unfold exchanged. rewrite Hi.
      rewrite (proj2 (Z.leb_gt _ _)), (proj2 (Z.leb_le _ _)) by lia. done. }
    rewrite Cn, Hc by lia. f_equal. unfold exchanged.
    destruct (Z.leb_spec (Z.min p (bitrev s p)) m), (Z.leb_spec (Z.min p (bitrev s p)) (m + 1)); try lia.
    assert (bitrev s p = m + 1) as E' by lia. rewrite E' in Hi'. lia.
  - intros p Hp. rewrite Cn by lia. by apply Ht.
  - intros P HP. apply (swap32_Forall P _ _ _ _ E), HF, HP.
Qed.

Lemma reordered_end d : reordered s d0 (2 ^ Z.of_nat s - 1) d ->
  forall p, 0 <= p < 2 ^ Z.of_nat s -> cplx d p = cplx d0 (bitrev s p).
Proof.
  intros (_ & Hc & _) p Hp. rewrite Hc by done. f_equal. unfold exchanged.
  rewrite (proj2 (Z.leb_le _ _)); [done|lia].
Qed.

Lemma bit_reverse_loop_spec : (s <= 30)%nat -> exists d,
  bit_reverse_loop (Z.of_nat s) d0 = Some d /\ reordered s d0 (2 ^ Z.of_nat s - 1) d.
Proof.
  intros Hs. unfold bit_reverse_loop. cbn zeta. pose proof (pow2_pos s).
  assert (2 ^ Z.of_nat s <= 2 ^ 30) by (apply Z.pow_le_mono_r; lia).
  rewrite Z.shiftl_mul_pow2, Z.mul_1_l, i32_id by (unfold is_i32; lia).
  destruct (for_opt_ind (fun k (st : Z * list Z) => st.1 = bitrev s k /\ reordered s d0 k st.2)
    (bit_reverse_step (2 ^ Z.of_nat s)) (2 ^ Z.of_nat s - 1) (0, d0)) as ([mr d] & -> & _ & Hd); [lia| | |].
  - split; [by rewrite bitrev_0|apply reordered_start].
  - intros k [mr d] Hk [Emr Hd]. cbn [fst snd] in *. subst mr. unfold bit_reverse_step. cbn zeta.
    destruct (counter_step s k Hs) as (l & -> & El); [lia|lia|]. bind_simpl. rewrite El.
    destruct (Z.leb_spec (bitrev s (k + 1)) (k + 1)).
    + eexists. split; [done|]. split; [done|]. apply reordered_skip; (done || lia).
    + destruct (reordered_swap k d) as (d' & -> & Hd'); try (done || lia). by eexists.
  - by exists d.
Qed.

Lemma swap_pairs_spec c : forall m d, 0 <= m -> m + Z.of_nat c < 2 ^ Z.of_nat s -> reordered s d0 m d ->
  exists d', swap_pairs (map (fun m => (m, bitrev s m))
    (filter (fun m => m < bitrev s m) (seqZ (m + 1) (Z.of_nat c)))) d = Some d' /\
  reordered s d0 (m + Z.of_nat c) d'.
Proof.
  induction c as [|c IH]; intros m d Hm Hc Hd.
  - exists d. split; [done|]. by rewrite Z.add_0_r.
  - rewrite seqZ_cons by lia. replace (Z.pred (Z.of_nat (S c))) with (Z.of_nat c) by lia.
    replace (Z.succ (m + 1)) with (m + 1 + 1) by lia.
    replace (m + Z.of_nat (S c)) with (m + 1 + Z.of_nat c) by lia.
    destruct (Z.leb_spec (bitrev s (m + 1)) (m + 1)).
    + rewrite filter_cons_False by lia. apply IH; [lia..|]. apply reordered_skip; (done || lia).
    + rewrite filter_cons_True by lia. cbn [map swap_pairs].
      destruct (reordered_swap m d) as (d' & -> & Hd'); [lia..|done|]. bind_simpl. apply IH; (done || lia).
Qed.

End Reordering.

Lemma bit_reverse_spec s d : (s <= 30)%nat -> room (2 ^ Z.of_nat s) d -> exists d',
  WebRtcSpl_ComplexBitReverse d (Z.of_nat s) = Some d' /\ reordered s d (2 ^ Z.of_nat s - 1) d'.
Proof.
  intros Hs Hr. unfold WebRtcSpl_ComplexBitReverse. destruct index_tables_ok as [H7 H8].
  destruct (Z.eqb_spec (Z.of_nat s) 7) as [E7|]; [|destruct (Z.eqb_spec (Z.of_nat s) 8) as [E8|]].
  - assert (s = 7%nat) as -> by lia. cbn [orb]. change (Z.of_nat 7 =? 8) with false. cbn iota.
    rewrite (bit_reverse_table_pairs index_7 56) by (done || (vm_compute; done)). rewrite H7.
    apply (swap_pairs_spec 7 d Hr 127 0 d); [done|done|by apply reordered_start].
  - assert (s = 8%nat) as -> by lia. cbn [orb].
    rewrite (bit_reverse_table_pairs index_8 120) by (done || (vm_compute; done)). rewrite H8.
    apply (swap_pairs_spec 8 d Hr 255 0 d); [done|done|by apply reordered_start].
  - apply bit_reverse_loop_spec; done.
Qed.

(** ** One pass of butterflies *)

(** What a butterfly does to its two elements, [(element i, element j)], as a
    function of the twiddle factor and their old values. *)
Definition low_value (shift : Z) (w q z : Z * Z) : (Z * Z) * (Z * Z) :=
  let tr := cmul_re w z ≫ 15 in
  let ti := cmul_im w z ≫ 15 in
  ((i16 (i32 (q.1 + tr) ≫ shift), i16 (i32 (q.2 + ti) ≫ shift)),
   (i16 (i32 (q.1 - tr) ≫ shift), i16 (i32 (q.2 - ti) ≫ shift))).

Definition high_value (shift round2 : Z) (w q z : Z * Z) : (Z * Z) * (Z * Z) :=
  let tr := i32 (cmul_re w z + 1) ≫ 1 in
  let ti := i32 (cmul_im w z + 1) ≫ 1 in
  let store v := i16 (i32 (i32 v + round2) ≫ (shift + 14)) in
  ((store (i32 (q.1 * 2 ^ 14) + tr), store (i32 (q.2 * 2 ^ 14) + ti)),
   (store (i32 (q.1 * 2 ^ 14) - tr), store (i32 (q.2 * 2 ^ 14) - ti))).

(** The interface between a butterfly and the passes: it replaces two elements
    of the vector and touches nothing else. *)
Class Butterfly (op : Z * Z -> list Z -> Z -> Z -> option (list Z))
  (value : Z * Z -> Z * Z -> Z * Z -> (Z * Z) * (Z * Z)) : Prop :=
  butterfly_spec : forall n w d i j, room n d -> 0 <= i < n -> 0 <= j < n -> i <> j ->
    exists d', op w d i j = Some d' /\ length d' = length d /\
      (cplx d' i, cplx d' j) = value w (cplx d i) (cplx d j) /\
      (forall p, 0 <= p -> p <> i -> p <> j -> cplx d' p = cplx d p) /\
      (Forall is_i16 d -> Forall is_i16 d').

(** Two stores of pairs of 16-bit values. *)
Lemma wr_c_two n d i j u v : room n d -> 0 <= i < n -> 0 <= j < n -> i <> j ->
  is_i16 u.1 -> is_i16 u.2 -> is_i16 v.1 -> is_i16 v.2 ->
  exists d', (d ← wr_c d j v; wr_c d i u) = Some d' /\ length d' = length d /\
    (cplx d' i, cplx d' j) = (u, v) /\
    (forall p, 0 <= p -> p <> i -> p <> j -> cplx d' p = cplx d p) /\
    (Forall is_i16 d -> Forall is_i16 d').
Proof.
  intros Hr Hi Hj Hne U1 U2 V1 V2.
  destruct (wr_c_Some n d j v Hr Hj) as (d1 & -> & L1 & C1 & N1 & F1). bind_simpl.
  destruct (wr_c_Some n d1 i u) as (d2 & -> & L2 & C2 & N2 & F2); [by unfold room; rewrite L1|done|].
  exists d2. split; [done|]. split; [lia|]. split; [|split].
  - rewrite C2, N2, C1 by lia. done.
  - intros p Hp H1 H2. by rewrite N2, N1.
  - auto.
Qed.

#[export] Instance butterfly_low_spec shift : Butterfly (butterfly_low shift) (low_value shift).
Proof.
  intros n w d i j Hr Hi Hj Hne. unfold butterfly_low.
  rewrite (rd_c_Some n d j), (rd_c_Some n d i) by done. bind_simpl. cbn zeta.
  unfold low_value. destruct (cplx d i) as [q1 q2]. cbn [fst snd].
  apply (wr_c_two n); (done || apply i16_range).
Qed.

#[export] Instance butterfly_high_spec shift round2 :
  Butterfly (butterfly_high shift round2) (high_value shift round2).
Proof.
  intros n w d i j Hr Hi Hj Hne. unfold butterfly_high, CFFTRND, CFFTSFT.
  rewrite (rd_c_Some n d j), (rd_c_Some n d i) by done. bind_simpl. cbn zeta.
  apply (wr_c_two n); (done || apply i16_range).
Qed.

(** Element [r] of half [h] of block [b], for blocks of [2 * l] elements. *)
Definition blk (l b h r : Z) : Z := b * (2 * l) + h * l + r.

Lemma blk_inj l b h r b' h' r' : 0 <= r < l -> 0 <= r' < l -> 0 <= h < 2 -> 0 <= h' < 2 ->
  blk l b h r = blk l b' h' r' -> b = b' /\ h = h' /\ r = r'.
Proof.
  unfold blk. intros Hr Hr' Hh Hh' E.
  assert (2 * b + h = 2 * b' + h') by nia. assert (b = b') by lia. nia.
Qed.

Lemma blk_range l nb b h r : 0 <= b < nb -> 0 <= h < 2 -> 0 <= r < l -> 0 <= blk l b h r < nb * (2 * l).
Proof. unfold blk. nia. Qed.

Definition twiddle (sgn k r : Z) : Z * Z :=
  (arr kSinTable1024 (r ≪ k + 256), i16 (sgn * arr kSinTable1024 (r ≪ k))).

Section Pass.
Context {op value} `{Butterfly op value} (sgn k l nb : Z).
Context (Hl : 0 < l) (Hnb : 0 < nb) (Hk : 0 <= k) (Htab : l * 2 ^ k <= 512).

(** The butterflies of [done_] have been computed, the others not. *)
Definition passing (d0 : list Z) (done_ : Z -> Z -> bool) (d : list Z) : Prop :=
  length d = length d0 /\
  (forall b r, 0 <= b < nb -> 0 <= r < l ->
     (cplx d (blk l b 0 r), cplx d (blk l b 1 r))
     = if done_ b r then value (twiddle sgn k r) (cplx d0 (blk l b 0 r)) (cplx d0 (blk l b 1 r))
       else (cplx d0 (blk l b 0 r), cplx d0 (blk l b 1 r))) /\
  (forall p, nb * (2 * l) <= p -> cplx d p = cplx d0 p) /\
  (Forall is_i16 d0 -> Forall is_i16 d).

Lemma passing_ext d0 f g d : (forall b r, 0 <= b < nb -> 0 <= r < l -> f b r = g b r) ->
  passing d0 f d -> passing d0 g d.
Proof. intros E (H1 & H2 & H3). split; [done|]. split; [|done]. intros. rewrite <-E by done. auto. Qed.

Lemma passing_step d0 d (b r : Z) (f : Z -> Z -> bool) : room (nb * (2 * l)) d0 -> 0 <= b < nb -> 0 <= r < l ->
  f b r = false -> passing d0 f d -> exists d',
  op (twiddle sgn k r) d (blk l b 0 r) (blk l b 1 r) = Some d' /\
  passing d0 (fun b' r' => f b' r' || ((r' =? r) && (b' =? b))) d'.
Proof.
  intros Hr Hb Hr' Hf (HL & Hc & Ht & HF).
  assert (room (nb * (2 * l)) d) as Hrm by (unfold room in *; lia).
  destruct (butterfly_spec _ (twiddle sgn k r) d (blk l b 0 r) (blk l b 1 r) Hrm) as (d' & E & L & C & N & F).
  { by apply blk_range. } { by apply blk_range. } { unfold blk. lia. }
  exists d'. split; [done|]. split; [lia|]. split; [|split].
  - intros b' r' Hb' Hrr. destruct (decide (b' = b /\ r' = r)) as [[-> ->]|Hne].
    + rewrite !Z.eqb_refl, orb_true_r, C. specialize (Hc b r Hb Hr'). rewrite Hf in Hc.
      apply pair_equal_spec in Hc as [-> ->]. done.
    + assert ((r' =? r) && (b' =? b) = false) as -> by lia. rewrite orb_false_r, <-Hc by done.
      rewrite !N; try done; try (apply (blk_range l nb); done);
        intros Eb; apply blk_inj in Eb; (lia || done).
  - intros p Hp. rewrite N; [by apply Ht|unfold blk; nia..].
  - auto.
Qed.

Lemma fft_pass_spec d0 : room (nb * (2 * l)) d0 -> exists d,
  fft_pass op sgn (nb * (2 * l)) l k d0 = Some d /\ passing d0 (fun _ _ => true) d.
Proof.
  intros Hr. unfold fft_pass. cbn zeta.
  destruct (for_opt_ind (fun m d => passing d0 (fun _ r => r <? m) d) (fun m frfi =>
    w_r ← rd kSinTable1024 (m ≪ k + 256); w_i ← rd kSinTable1024 (m ≪ k);
    for_by m (nb * (2 * l)) (l ≪ 1)
      (fun i frfi => op (w_r, i16 (sgn * w_i)) frfi i (i + l)) frfi) l d0) as (d & -> & Hd); [lia| | |].
  - split; [done|]. split; [|done]. intros b r Hb Hr'. rewrite (proj2 (Z.ltb_ge r 0)) by lia. done.
  - intros m d Hm Hd. assert (0 <= m ≪ k < 512) as Hj.
    { rewrite Z.shiftl_mul_pow2 by done. pose proof (Z.pow_pos_nonneg 2 k). nia. }
    assert (Z.of_nat (length kSinTable1024) = 1024) as Hlen by reflexivity.
    rewrite !rd_Some by (rewrite Hlen; lia). bind_simpl. fold (twiddle sgn k m). unfold for_by.
    assert ((nb * (2 * l) - m + l ≪ 1 - 1) / (l ≪ 1) = nb) as ->.
    { rewrite Z.shiftl_mul_pow2 by lia. symmetry. apply (Z.div_unique_pos _ _ _ (2 * l - m - 1)); lia. }
    destruct (for_opt_ind (fun c d => passing d0 (fun b r => (r <? m) || ((r =? m) && (b <? c))) d)
      (fun c frfi => op (twiddle sgn k m) frfi (m + c * l ≪ 1) (m + c * l ≪ 1 + l)) nb d) as (d' & E & Hd').
    + lia.
    + revert Hd. apply passing_ext. intros. lia.
    + intros c e Hc He. rewrite Z.shiftl_mul_pow2 by lia.
      replace (m + c * (l * 2 ^ 1)) with (blk l c 0 m) by (unfold blk; lia).
      replace (blk l c 0 m + l) with (blk l c 1 m) by (unfold blk; lia).
      destruct (passing_step d0 e c m (fun b r => (r <? m) || ((r =? m) && (b <? c))) Hr Hc Hm
        ltac:(cbn beta; lia) He) as (e' & -> & He').
      exists e'. split; [done|]. revert He'. apply passing_ext. intros. lia.
    + exists d'. split; [exact E|]. revert Hd'. apply passing_ext. intros. lia.
  - exists d. split; [done|]. revert Hd. apply passing_ext. intros. lia.
Qed.
End Pass.

(** ** The reference: decimation in time

    [fft_ref value sgn s x] transforms the [2^s] samples [x 0, x 1, ...]; the
    pass that joins transforms of [2^s] samples uses the butterfly [value s]. *)
Fixpoint fft_ref (value : nat -> Z * Z -> Z * Z -> Z * Z -> (Z * Z) * (Z * Z)) (sgn : Z) (s : nat)
  (x : Z -> Z * Z) (p : Z) : Z * Z :=
  match s with
  | O => x 0
  | S s =>
      let h := 2 ^ Z.of_nat s in
      let even := fft_ref value sgn s (fun i => x (2 * i)) in
      let odd := fft_ref value sgn s (fun i => x (2 * i + 1)) in
      let join p := value s (twiddle sgn (9 - Z.of_nat s) p) (even p) (odd p) in
      if p <? h then (join p).1 else (join (p - h)).2
  end.

Lemma fft_ref_ext value sgn s : forall x y p, (forall i, 0 <= i < 2 ^ Z.of_nat s -> x i = y i) ->
  fft_ref value sgn s x p = fft_ref value sgn s y p.
Proof.
  induction s as [|s IH]; intros x y p E; [by apply E|]. cbn [fft_ref]. cbn zeta. rewrite pow2_S in E.
  rewrite !(IH (fun i => x (2 * i)) (fun i => y (2 * i))), !(IH (fun i => x (2 * i + 1)) (fun i => y (2 * i + 1)))
    by (intros; apply E; lia). done.
Qed.

Lemma fft_ref_value v v' sgn s : forall x p, (forall i, (i < s)%nat -> v i = v' i) ->
  fft_ref v sgn s x p = fft_ref v' sgn s x p.
Proof.
  induction s as [|s IH]; intros x p E; [done|]. cbn [fft_ref]. cbn zeta. rewrite E by lia.
  rewrite !IH by (intros; apply E; lia). done.
Qed.

(** After [s] of [s + t] passes the vector holds [2^t] transforms of [2^s]
    samples each, in bit-reversed order. *)
Definition at_stage (value : nat -> Z * Z -> Z * Z -> Z * Z -> (Z * Z) * (Z * Z)) (sgn : Z)
  (x : Z -> Z * Z) (s t : nat) (d : list Z) : Prop :=
  forall b r, 0 <= b < 2 ^ Z.of_nat t -> 0 <= r < 2 ^ Z.of_nat s ->
    cplx d (b * 2 ^ Z.of_nat s + r)
    = fft_ref value sgn s (fun i => x (i * 2 ^ Z.of_nat t + bitrev t b)) r.

(** The parts of the array that a transform of [n] elements keeps. *)
Definition same_shape (n : Z) (d0 d : list Z) : Prop :=
  length d = length d0 /\ (forall p, n <= p -> cplx d p = cplx d0 p) /\
  (Forall is_i16 d0 -> Forall is_i16 d).

Lemma same_shape_refl n d : same_shape n d d.
Proof. by split. Qed.
Lemma same_shape_trans n d0 d1 d2 : same_shape n d0 d1 -> same_shape n d1 d2 -> same_shape n d0 d2.
Proof.
  intros (L1 & T1 & F1) (L2 & T2 & F2). split; [congruence|]. split; [|auto].
  intros p Hp. rewrite T2 by done. auto.
Qed.

Lemma at_stage_start value sgn s d : at_stage value sgn (fun i => cplx d (bitrev s i)) 0 s d.
Proof.
  intros b r Hb Hr. change (2 ^ Z.of_nat 0) with 1 in *. replace r with 0 by lia. cbn [fft_ref].
  rewrite !Z.mul_1_r, Z.add_0_r, Z.mul_0_l, Z.add_0_l, bitrev_involutive by done. done.
Qed.

(** Every element lies in one block. *)
Lemma blk_split l nb p : 0 < l -> 0 <= p < nb * (2 * l) -> exists b h r,
  p = blk l b h r /\ 0 <= b < nb /\ (h = 0 \/ h = 1) /\ 0 <= r < l.
Proof.
  intros Hl Hp. unfold blk. pose proof (Z.div_mod p (2 * l)) as E. pose proof (Z.mod_pos_bound p (2 * l)) as Hm.
  assert (p / (2 * l) < nb) by (apply Z.div_lt_upper_bound; lia).
  assert (0 <= p / (2 * l)) by (apply Z.div_pos; lia).
  destruct (Z.ltb_spec (p mod (2 * l)) l).
  - exists (p / (2 * l)), 0, (p mod (2 * l)). lia.
  - exists (p / (2 * l)), 1, (p mod (2 * l) - l). lia.
Qed.

(** One pass joins the transforms in pairs: when the butterfly computes
    [value s] on the elements of the vector, and keeps them in [P]. *)
Lemma stage_step op v `{Butterfly op v} value sgn x s t (P Q : Z * Z -> Prop) d :
  (s <= 9)%nat -> room (2 ^ Z.of_nat (s + S t)) d ->
  (forall p, 0 <= p < 2 ^ Z.of_nat (s + S t) -> P (cplx d p)) ->
  (forall r q z, 0 <= r < 2 ^ Z.of_nat s -> P q -> P z ->
     let w := twiddle sgn (9 - Z.of_nat s) r in
     v w q z = value s w q z /\ Q (v w q z).1 /\ Q (v w q z).2) ->
  at_stage value sgn x s (S t) d ->
  exists d', fft_pass op sgn (2 ^ Z.of_nat (s + S t)) (2 ^ Z.of_nat s) (9 - Z.of_nat s) d = Some d' /\
    same_shape (2 ^ Z.of_nat (s + S t)) d d' /\ at_stage value sgn x (S s) t d' /\
    (forall p, 0 <= p < 2 ^ Z.of_nat (s + S t) -> Q (cplx d' p)).
Proof.
  intros Hs Hr HP Hv Hx. pose proof (pow2_pos s). pose proof (pow2_pos t).
  assert (2 ^ Z.of_nat (s + S t) = 2 ^ Z.of_nat t * (2 * 2 ^ Z.of_nat s)) as En.
  { rewrite <-pow2_S, <-Z.pow_add_r by lia. f_equal. lia. }
  rewrite En in *.
  destruct (fft_pass_spec (op := op) (value := v) sgn (9 - Z.of_nat s) (2 ^ Z.of_nat s) (2 ^ Z.of_nat t))
    with (d0 := d) as (d' & E & HL & Hc & Ht & HF); try lia; [|done|].
  { rewrite <-Z.pow_add_r by lia. replace (Z.of_nat s + (9 - Z.of_nat s)) with 9 by lia. done. }
  exists d'. split; [done|]. split; [done|].
  assert (forall b h r, 0 <= b < 2 ^ Z.of_nat t -> 0 <= h < 2 -> 0 <= r < 2 ^ Z.of_nat s ->
    P (cplx d (blk (2 ^ Z.of_nat s) b h r)) /\ cplx d (blk (2 ^ Z.of_nat s) b h r)
    = fft_ref value sgn s (fun i => x ((2 * i + h) * 2 ^ Z.of_nat t + bitrev t b)) r) as Hh.
  { intros b h r Hb Hh Hr'. split; [apply HP, blk_range; done|].
    unfold blk. replace (b * (2 * 2 ^ Z.of_nat s) + h * 2 ^ Z.of_nat s)
      with ((2 * b + h) * 2 ^ Z.of_nat s) by lia. rewrite Hx by (rewrite ?pow2_S; lia).
    apply fft_ref_ext. intros i _. rewrite bitrev_low, pow2_S by done. f_equal. lia. }
  assert (forall b r, 0 <= b < 2 ^ Z.of_nat t -> 0 <= r < 2 ^ Z.of_nat s ->
    let y := value s (twiddle sgn (9 - Z.of_nat s) r)
      (fft_ref value sgn s (fun i => x (2 * i * 2 ^ Z.of_nat t + bitrev t b)) r)
      (fft_ref value sgn s (fun i => x ((2 * i + 1) * 2 ^ Z.of_nat t + bitrev t b)) r) in
    cplx d' (blk (2 ^ Z.of_nat s) b 0 r) = y.1 /\ cplx d' (blk (2 ^ Z.of_nat s) b 1 r) = y.2 /\
    Q y.1 /\ Q y.2) as Hy.
  { intros b r Hb Hr'. specialize (Hc b r Hb Hr'). cbn beta iota in Hc.
    destruct (Hh b 0 r) as [P0 E0]; [lia..|]. destruct (Hh b 1 r) as [P1 E1]; [lia..|].
    destruct (Hv r _ _ Hr' P0 P1) as (Ev & Q1 & Q2). rewrite Ev in Hc, Q1, Q2. rewrite E0, E1 in Hc, Q1, Q2.
    rewrite (fft_ref_ext _ _ s (fun i => x ((2 * i + 0) * _ + _)) (fun i => x (2 * i * 2 ^ Z.of_nat t + bitrev t b)))
      in Hc, Q1, Q2 by (intros; f_equal; lia).
    cbn zeta. rewrite <-Hc in *. by repeat split. }
  split.
  - intros b r Hb Hr'. rewrite pow2_S in *. cbn [fft_ref]. cbn zeta.
    destruct (Z.ltb_spec r (2 ^ Z.of_nat s)) as [Hlt|Hge].
    + replace (b * (2 * 2 ^ Z.of_nat s) + r) with (blk (2 ^ Z.of_nat s) b 0 r) by (unfold blk; lia).
      apply (Hy b r); lia.
    + replace (b * (2 * 2 ^ Z.of_nat s) + r) with (blk (2 ^ Z.of_nat s) b 1 (r - 2 ^ Z.of_nat s)) by (unfold blk; lia).
      apply (Hy b (r - 2 ^ Z.of_nat s)); lia.
  - intros p Hp. destruct (blk_split (2 ^ Z.of_nat s) (2 ^ Z.of_nat t) p) as (b & h & r & -> & Hb & Hh' & Hr'); [lia|lia|].
    destruct (Hy b r Hb Hr') as (E0 & E1 & Q1 & Q2).
    destruct Hh' as [-> | ->]; [by rewrite E0|by rewrite E1].
Qed.

(** The loop of the forward transform, with a bound [P s] on the elements
    before pass [s]. *)
Lemma fft_while_spec op v `{Butterfly op v} value x (P : nat -> Z * Z -> Prop) t :
  (forall s r q z, (s <= 9)%nat -> 0 <= r < 2 ^ Z.of_nat s -> P s q -> P s z ->
     let w := twiddle (-1) (9 - Z.of_nat s) r in
     v w q z = value s w q z /\ P (S s) (v w q z).1 /\ P (S s) (v w q z).2) ->
  forall fuel s d, (t < fuel)%nat -> (s + t <= 10)%nat -> room (2 ^ Z.of_nat (s + t)) d ->
  (forall p, 0 <= p < 2 ^ Z.of_nat (s + t) -> P s (cplx d p)) -> at_stage value (-1) x s t d ->
  exists d', fft_while fuel op (2 ^ Z.of_nat (s + t)) (2 ^ Z.of_nat s) (9 - Z.of_nat s) d = Some d' /\
    same_shape (2 ^ Z.of_nat (s + t)) d d' /\ at_stage value (-1) x (s + t) 0 d' /\
    (forall p, 0 <= p < 2 ^ Z.of_nat (s + t) -> P (s + t)%nat (cplx d' p)).
Proof.
  intros Hv. induction t as [|t IH]; intros fuel s d Hf Hst Hr HP Hx;
    (destruct fuel as [|fuel]; [lia|]); cbn [fft_while].
  - rewrite Nat.add_0_r in *. rewrite Z.ltb_irrefl. exists d. split; [done|]. split; [apply same_shape_refl|done].
  - rewrite (proj2 (Z.ltb_lt _ _)) by (apply Z.pow_lt_mono_r; lia).
    destruct (stage_step op v value (-1) x s t (P s) (P (S s)) d) as (d1 & -> & Hs & Hx1 & HP1);
      [lia|done|done|intros; apply Hv; (done || lia)|done|]. bind_simpl.
    rewrite Z.shiftl_mul_pow2, Z.mul_comm by lia. change (2 ^ 1) with 2. rewrite <-pow2_S.
    replace (9 - Z.of_nat s - 1) with (9 - Z.of_nat (S s)) by lia.
    replace (s + S t)%nat with (S s + t)%nat in * by lia.
    destruct (IH fuel (S s) d1) as (d2 & E2 & Hs2 & Hx2); [lia|lia|unfold room in *; destruct Hs; lia|done|done|].
    exists d2. split; [exact E2|]. split; [by apply (same_shape_trans _ _ d1)|done].
Qed.

(** ** Exact butterflies

    The butterflies over the integers: the divisions round, nothing wraps. *)
Definition cmul (w z : Z * Z) : Z * Z := (w.1 * z.1 - w.2 * z.2, w.1 * z.2 + w.2 * z.1).

Definition low_exact (shift : Z) (w q z : Z * Z) : (Z * Z) * (Z * Z) :=
  let tr := (cmul w z).1 / 2 ^ 15 in
  let ti := (cmul w z).2 / 2 ^ 15 in
  (((q.1 + tr) / 2 ^ shift, (q.2 + ti) / 2 ^ shift), ((q.1 - tr) / 2 ^ shift, (q.2 - ti) / 2 ^ shift)).

Definition high_exact (shift : Z) (w q z : Z * Z) : (Z * Z) * (Z * Z) :=
  let tr := ((cmul w z).1 + 1) / 2 in
  let ti := ((cmul w z).2 + 1) / 2 in
  let round v := (v + 2 ^ (13 + shift)) / 2 ^ (14 + shift) in
  ((round (q.1 * 2 ^ 14 + tr), round (q.2 * 2 ^ 14 + ti)),
   (round (q.1 * 2 ^ 14 - tr), round (q.2 * 2 ^ 14 - ti))).

(** The two accuracy modes. *)
Definition mode_value (mode shift : Z) : Z * Z -> Z * Z -> Z * Z -> (Z * Z) * (Z * Z) :=
  if mode =? 0 then low_value shift else high_value shift (8192 ≪ shift).
Definition mode_exact (mode shift : Z) : Z * Z -> Z * Z -> Z * Z -> (Z * Z) * (Z * Z) :=
  if mode =? 0 then low_exact shift else high_exact shift.

(** The table of sines: factors of modulus at most 32767. *)
Definition unit_factor (w : Z * Z) : Prop :=
  Z.abs w.1 <= 32767 /\ Z.abs w.2 <= 32767 /\ Z.abs w.1 + Z.abs w.2 <= 46338 /\
  w.1 * w.1 + w.2 * w.2 <= 32767 * 32767.

Lemma sin_table_ok : forallb (fun j =>
  let '(c, s) := (arr kSinTable1024 (j + 256), arr kSinTable1024 j) in
  (Z.abs c <=? 32767) && (Z.abs s <=? 32767) && (Z.abs c + Z.abs s <=? 46338)
  && (c * c + s * s <=? 32767 * 32767)) (seqZ 0 512) = true.
Proof. vm_compute. reflexivity. Qed.

Lemma twiddle_ok sgn s r : Z.abs sgn = 1 -> (s <= 9)%nat -> 0 <= r < 2 ^ Z.of_nat s ->
  unit_factor (twiddle sgn (9 - Z.of_nat s) r).
Proof.
  intros Hg Hs Hr. pose proof sin_table_ok as H. rewrite forallb_forall in H.
  assert (0 <= r ≪ (9 - Z.of_nat s) < 512) as Hj.
  { rewrite Z.shiftl_mul_pow2 by lia. assert (2 ^ Z.of_nat s * 2 ^ (9 - Z.of_nat s) = 512).
    { rewrite <-Z.pow_add_r by lia. by replace (Z.of_nat s + (9 - Z.of_nat s)) with 9 by lia. }
    pose proof (Z.pow_pos_nonneg 2 (9 - Z.of_nat s)). nia. }
  unfold twiddle. set (j := r ≪ (9 - Z.of_nat s)) in *. clearbody j.
  specialize (H j ltac:(apply list_elem_of_In, elem_of_seqZ; lia)).
  set (c := arr kSinTable1024 (j + 256)) in *. set (t := arr kSinTable1024 j) in *. clearbody c t.
  rewrite !andb_true_iff, !Z.leb_le in H. unfold unit_factor. cbn [fst snd].
  rewrite i16_id by (unfold is_i16; assert (sgn = 1 \/ sgn = -1) as [-> | ->] by lia; lia).
  assert (sgn = 1 \/ sgn = -1) as [-> | ->] by lia; lia.
Qed.

Definition small (X : Z) (z : Z * Z) : Prop := Z.abs z.1 <= X /\ Z.abs z.2 <= X.

Lemma cmul_bound w z X : unit_factor w -> small X z ->
  Z.abs (cmul w z).1 <= 46338 * X /\ Z.abs (cmul w z).2 <= 46338 * X.
Proof.
  unfold cmul, small. cbn [fst snd]. intros (_ & _ & Hw & _) [H1 H2].
  assert (forall a b x y, Z.abs a + Z.abs b <= 46338 -> Z.abs x <= X -> Z.abs y <= X ->
    Z.abs (a * x) + Z.abs (b * y) <= 46338 * X) as H by (clear; intros; rewrite !Z.abs_mul; nia).
  pose proof (H _ _ _ _ Hw H1 H2). pose proof (H _ _ _ _ Hw H2 H1). lia.
Qed.

Lemma cmul_i32 w z : unit_factor w -> small 32768 z ->
  cmul_re w z = (cmul w z).1 /\ cmul_im w z = (cmul w z).2.
Proof.
  intros Hw Hz. pose proof (cmul_bound w z 32768 Hw Hz) as [B1 B2].
  destruct Hw as (W1 & W2 & _), Hz as [Z1 Z2]. unfold cmul_re, cmul_im, cmul in *. cbn [fst snd] in *.
  assert (forall a x, Z.abs a <= 32767 -> Z.abs x <= 32768 -> i32 (a * x) = a * x) as Hm
    by (clear; intros; apply i32_id; unfold is_i32; nia).
  rewrite !Hm by done. by rewrite !i32_id by (unfold is_i32; lia).
Qed.

(** A butterfly whose exact results fit 16 bits is exact. *)
Lemma mode_value_exact mode shift w q z : 0 <= shift <= 2 -> unit_factor w ->
  small 32768 q -> small 32768 z ->
  let y := mode_exact mode shift w q z in
  is_i16 y.1.1 -> is_i16 y.1.2 -> is_i16 y.2.1 -> is_i16 y.2.2 -> mode_value mode shift w q z = y.
Proof.
  intros Hs Hw Hq Hz. pose proof (cmul_bound w z 32768 Hw Hz) as [B1 B2].
  destruct (cmul_i32 w z Hw Hz) as [E1 E2]. destruct Hq as [Q1 Q2].
  unfold mode_value, mode_exact. destruct (mode =? 0); unfold low_value, high_value, low_exact, high_exact;
    cbn zeta; rewrite E1, E2; set (c := (cmul w z).1) in *; set (t := (cmul w z).2) in *; clearbody c t;
    cbn [fst snd]; intros I1 I2 I3 I4.
  - rewrite !shiftr_div by lia.
    assert (forall v, Z.abs v <= 46338 * 32768 -> - 65536 <= v / 2 ^ 15 <= 65535) as Hd
      by (clear; intros; Z.div_mod_to_equations; lia).
    specialize (Hd c B1) as Hc. specialize (Hd t B2) as Ht.
    rewrite !i32_id by (unfold is_i32; lia). by rewrite !i16_id.
  - rewrite !(Z.shiftr_div_pow2 _ 1), !(Z.shiftr_div_pow2 _ (shift + 14)) by lia. change (2 ^ 1) with 2.
    rewrite (Z.shiftl_mul_pow2 _ shift) by lia.
    assert (8192 * 2 ^ shift = 2 ^ (13 + shift)) as -> by (rewrite Z.pow_add_r by lia; lia).
    assert (2 ^ (13 + shift) <= 32768) by (change 32768 with (2 ^ 15); apply Z.pow_le_mono_r; lia).
    assert (0 < 2 ^ (13 + shift)) by (apply Z.pow_pos_nonneg; lia).
    rewrite (Z.add_comm shift 14). rewrite (i32_id (c + 1)), (i32_id (t + 1)) by (unfold is_i32; lia).
    assert (forall v, Z.abs v <= 46338 * 32768 -> - 759201792 <= (v + 1) / 2 <= 759201793) as Hd
      by (clear; intros; Z.div_mod_to_equations; lia).
    specialize (Hd c B1) as Hc. specialize (Hd t B2) as Ht.
    assert (forall a, Z.abs a <= 32768 -> i32 (a * 2 ^ 14) = a * 2 ^ 14) as Hm
      by (clear; intros; apply i32_id; unfold is_i32; lia).
    rewrite !Hm by done. change (2 ^ 14) with 16384 in *.
    rewrite !(i32_id (_ + (_ + 1) / 2)), !(i32_id (_ - (_ + 1) / 2)) by (unfold is_i32; lia).
    rewrite !(i32_id (_ + 2 ^ (13 + shift))) by (unfold is_i32; lia). by rewrite !i16_id.
Qed.

(** The scaling of the inverse transform leaves no room for overflow. *)
Definition scale_limit (shift : Z) : Z :=
  if shift =? 0 then 13573 else if shift =? 1 then 27146 else 32768.

Lemma scaled_fits mode shift w q z : 0 <= shift <= 2 -> unit_factor w ->
  small (scale_limit shift) q -> small (scale_limit shift) z ->
  let y := mode_exact mode shift w q z in
  is_i16 y.1.1 /\ is_i16 y.1.2 /\ is_i16 y.2.1 /\ is_i16 y.2.2.
Proof.
  intros Hs Hw [Q1 Q2] Hz. destruct (cmul_bound w z _ Hw Hz) as [B1 B2].
  unfold mode_exact, is_i16. destruct (mode =? 0); unfold low_exact, high_exact; cbn zeta;
    set (c := (cmul w z).1) in *; set (t := (cmul w z).2) in *; clearbody c t; cbn [fst snd].
  all: assert (shift = 0 \/ shift = 1 \/ shift = 2) as [-> |[-> | ->] ] by lia; unfold scale_limit in *;
    cbn [Z.eqb Pos.eqb Z.add Pos.add Pos.succ] in *; repeat split; Z.div_mod_to_equations; lia.
Qed.

Lemma ifft_scaling_spec tmp : let y := ifft_scaling tmp in
  0 <= y.1 <= 2 /\ y.2 = 8192 ≪ y.1 /\ (tmp <= 32767 -> y.1 < 2 -> tmp <= scale_limit y.1).
Proof.
  unfold ifft_scaling, scale_limit. destruct (Z.ltb_spec 13573 tmp), (Z.ltb_spec 27146 tmp); cbn zeta; cbn [fst snd];
    change (0 + 1 + 1) with 2; change (0 + 1) with 1; cbn [Z.eqb Pos.eqb]; (split; [lia|split; [reflexivity|lia] ]).
Qed.

(** The vector of a pass is below the limit of its shift. *)
Lemma scaling_limit n d vector p : Forall is_i16 d -> room n d -> mem_read d 0 (2 * n) = Some vector ->
  0 <= p < n -> small (scale_limit (ifft_scaling (max_abs_value_w16 vector)).1) (cplx d p).
Proof.
  intros Hd Hr Hv Hp. unfold room in Hr. rewrite mem_read_Some in Hv by lia. injection Hv as <-.
  rewrite Z2Nat.inj_0, drop_0. set (v := take _ d).
  assert (Forall is_i16 v) as Hf by (by apply Forall_take).
  rewrite max_abs_value_w16_spec by done. destruct (ifft_scaling_spec (Z.min 32767 (max_abs v))) as (H1 & _ & H3).
  set (shift := (ifft_scaling _).1) in *. clearbody shift.
  assert (forall i, 0 <= i < 2 * n -> Z.abs (arr d i) <= max_abs v) as Hm.
  { intros i Hi. replace (arr d i) with (arr v i); [apply max_abs_arr|].
    unfold arr, v. rewrite !nth_lookup. by rewrite lookup_take_lt by lia. }
  pose proof (max_abs_i16 v Hf). specialize (H3 ltac:(lia)).
  unfold small, cplx. cbn [fst snd]. pose proof (Hm (2 * p) ltac:(lia)). pose proof (Hm (2 * p + 1) ltac:(lia)).
  assert (max_abs v <= scale_limit shift); [|lia].
  unfold scale_limit in *. destruct (Z.eqb_spec shift 0); [lia|]. destruct (Z.eqb_spec shift 1); lia.
Qed.

(** ** The modulus of the forward transform *)

Definition norm2 (z : Z * Z) : Z := z.1 * z.1 + z.2 * z.2.

Lemma norm2_add a b A B : 0 <= A -> 0 <= B -> norm2 a <= A * A -> norm2 b <= B * B ->
  norm2 (a.1 + b.1, a.2 + b.2) <= (A + B) * (A + B).
Proof.
  destruct a as [a1 a2], b as [b1 b2]. unfold norm2. cbn [fst snd]. intros HA HB Ha Hb.
  assert (a1 * b1 + a2 * b2 <= A * B); [|nia].
  assert ((a1 * b1 + a2 * b2) * (a1 * b1 + a2 * b2) <= (A * B) * (A * B)) as H.
  { transitivity ((a1 * a1 + a2 * a2) * (b1 * b1 + b2 * b2)).
    - pose proof (Z.square_nonneg (a1 * b2 - a2 * b1)). lia.
    - replace (A * B * (A * B)) with ((A * A) * (B * B)) by lia. apply Z.mul_le_mono_nonneg; nia. }
  destruct (Z.le_gt_cases (a1 * b1 + a2 * b2) (A * B)) as [|Hgt]; [done|].
  assert (0 <= A * B) by nia. nia.
Qed.

(** The bound before pass [s], scaled by [2^16], and what it means for the
    elements. *)
Definition modulus_bound (s : nat) : Z := 65536 * 32758 + Z.of_nat s * 59923.
Definition in_circle (s : nat) (z : Z * Z) : Prop :=
  norm2 z * (65536 * 65536) <= modulus_bound s * modulus_bound s.

Lemma in_circle_small s z : (s <= 10)%nat -> in_circle s z -> small 32767 z.
Proof.
  unfold in_circle, norm2, small, modulus_bound. intros Hs H.
  assert (modulus_bound s * modulus_bound s < (65536 * 32768) * (65536 * 32768)).
  { unfold modulus_bound. nia. }
  unfold modulus_bound in *. assert (z.1 * z.1 + z.2 * z.2 < 32768 * 32768) by lia. split; nia.
Qed.

(** One component of a scaled butterfly, [T] being its exact value. *)
Lemma round_close mode q c :
  let up := if mode =? 0 then (q + c / 2 ^ 15) / 2 ^ 1 else (q * 2 ^ 14 + (c + 1) / 2 + 2 ^ 14) / 2 ^ 15 in
  let down := if mode =? 0 then (q - c / 2 ^ 15) / 2 ^ 1 else (q * 2 ^ 14 - (c + 1) / 2 + 2 ^ 14) / 2 ^ 15 in
  Z.abs (65536 * up - (32768 * q + c)) <= 65535 /\ Z.abs (65536 * down - (32768 * q - c)) <= 65535.
Proof. destruct (mode =? 0); cbn zeta; split; Z.div_mod_to_equations; lia. Qed.

Lemma in_circle_next s q z c y : (s <= 9)%nat -> in_circle s q -> in_circle s z ->
  norm2 c <= 32767 * 32767 * norm2 z ->
  Z.abs (65536 * y.1 - (32768 * q.1 + c.1)) <= 65535 ->
  Z.abs (65536 * y.2 - (32768 * q.2 + c.2)) <= 65535 -> in_circle (S s) y.
Proof.
  intros Hs Hq Hz Hc H1 H2. unfold in_circle in *.
  set (N := modulus_bound s) in *. assert (65536 * 32758 <= N) as HN by (unfold N, modulus_bound; lia).
  replace (modulus_bound (S s)) with (N + 59923) by (unfold N, modulus_bound; lia). clearbody N.
  pose proof (norm2_add (65536 * 32768 * q.1, 65536 * 32768 * q.2) (65536 * c.1, 65536 * c.2)
    (32768 * N) (32767 * N)) as Ha. cbn [fst snd] in Ha.
  pose proof (norm2_add (65536 * 32768 * q.1 + 65536 * c.1, 65536 * 32768 * q.2 + 65536 * c.2)
    (65536 * (65536 * y.1 - (32768 * q.1 + c.1)), 65536 * (65536 * y.2 - (32768 * q.2 + c.2)))
    (65535 * N) (65536 * 92681)) as Hb. cbn [fst snd] in Hb.
  assert (norm2 (65536 * (65536 * y.1 - (32768 * q.1 + c.1)), 65536 * (65536 * y.2 - (32768 * q.2 + c.2)))
          <= 65536 * 92681 * (65536 * 92681)) as He.
  { unfold norm2. cbn [fst snd]. set (e1 := 65536 * y.1 - _) in *. set (e2 := 65536 * y.2 - _) in *.
    clearbody e1 e2. assert (e1 * e1 <= 65535 * 65535 /\ e2 * e2 <= 65535 * 65535) by nia. lia. }
  assert (norm2 (65536 * 65536 * y.1, 65536 * 65536 * y.2)
    <= (65535 * N + 65536 * 92681) * (65535 * N + 65536 * 92681)) as Hy.
  { replace (65536 * 65536 * y.1) with (65536 * 32768 * q.1 + 65536 * c.1 + 65536 * (65536 * y.1 - (32768 * q.1 + c.1))) by lia.
    replace (65536 * 65536 * y.2) with (65536 * 32768 * q.2 + 65536 * c.2 + 65536 * (65536 * y.2 - (32768 * q.2 + c.2))) by lia.
    apply Hb; [lia|lia| |exact He].
    replace (65535 * N * (65535 * N)) with ((32768 * N + 32767 * N) * (32768 * N + 32767 * N)) by lia.
    apply Ha; unfold norm2 in *; cbn [fst snd]; lia. }
  assert ((65535 * N + 65536 * 92681) * (65535 * N + 65536 * 92681)
    <= (65536 * (N + 59923)) * (65536 * (N + 59923))) by (apply Z.square_le_mono_nonneg; lia).
  unfold norm2 in *. cbn [fst snd] in *. lia.
Qed.

Lemma cmul_norm w z : unit_factor w -> norm2 (cmul w z) <= 32767 * 32767 * norm2 z.
Proof.
  intros (_ & _ & _ & Hw). unfold norm2, cmul. cbn [fst snd].
  replace ((w.1 * z.1 - w.2 * z.2) * (w.1 * z.1 - w.2 * z.2) + (w.1 * z.2 + w.2 * z.1) * (w.1 * z.2 + w.2 * z.1))
    with ((w.1 * w.1 + w.2 * w.2) * (z.1 * z.1 + z.2 * z.2)) by lia.
  apply Z.mul_le_mono_nonneg_r; [nia|done].
Qed.

(** A pass of the forward transform keeps the elements in their circle. *)
Lemma forward_step mode s w q z : (s <= 9)%nat -> unit_factor w -> in_circle s q -> in_circle s z ->
  let y := mode_exact mode 1 w q z in
  mode_value mode 1 w q z = y /\ in_circle (S s) y.1 /\ in_circle (S s) y.2.
Proof.
  intros Hs Hw Hq Hz. cbn zeta. pose proof (cmul_norm w z Hw) as Hc.
  assert (in_circle (S s) (mode_exact mode 1 w q z).1 /\ in_circle (S s) (mode_exact mode 1 w q z).2) as [I1 I2].
  { destruct (round_close mode q.1 (cmul w z).1) as [A1 A2].
    destruct (round_close mode q.2 (cmul w z).2) as [B1 B2]. unfold mode_exact.
    split; [apply (in_circle_next s q z (cmul w z))|apply (in_circle_next s q z (- (cmul w z).1, - (cmul w z).2))];
      try done; [..|unfold norm2 in *; cbn [fst snd]; lia| |]; cbn [fst snd]; rewrite ?Z.add_opp_r;
      revert A1 A2 B1 B2; destruct (mode =? 0); cbn zeta; unfold low_exact, high_exact; cbn [fst snd];
      change (14 + 1) with 15; change (13 + 1) with 14; done. }
  split; [|done]. apply in_circle_small in I1, I2, Hq, Hz; try lia.
  apply mode_value_exact; [lia|done|..]; unfold small, is_i16 in *; lia.
Qed.

(** ** The transforms *)

Lemma shiftl_pow2 S : (S <= 30)%nat -> i32 (1 ≪ Z.of_nat S) = 2 ^ Z.of_nat S /\
  u64 (1 ≪ Z.of_nat S) = 2 ^ Z.of_nat S.
Proof.
  intros HS. pose proof (pow2_pos S). assert (2 ^ Z.of_nat S <= 2 ^ 30) by (apply Z.pow_le_mono_r; lia).
  rewrite Z.shiftl_mul_pow2, Z.mul_1_l by lia. split; [apply i32_id; unfold is_i32; lia|].
  unfold u64. apply Z.mod_small. lia.
Qed.

Lemma mode_butterfly mode : Butterfly (if mode =? 0 then butterfly_low 1 else butterfly_high 1 CFFTRND2) (mode_value mode 1).
Proof. unfold mode_value. destruct (mode =? 0); apply _. Qed.

(** The forward transform with a butterfly [value] and bounds [P]. *)
Lemma ComplexFFT_spec value (P : nat -> Z * Z -> Prop) S d mode : (S <= 10)%nat ->
  room (2 ^ Z.of_nat S) d ->
  (forall s r q z, (s <= 9)%nat -> 0 <= r < 2 ^ Z.of_nat s -> P s q -> P s z ->
     let w := twiddle (-1) (9 - Z.of_nat s) r in
     mode_value mode 1 w q z = value s w q z /\ P (Datatypes.S s) (mode_value mode 1 w q z).1 /\
     P (Datatypes.S s) (mode_value mode 1 w q z).2) ->
  (forall p, 0 <= p < 2 ^ Z.of_nat S -> P 0%nat (cplx d p)) ->
  exists d', WebRtcSpl_ComplexFFT d (Z.of_nat S) mode = Some (0, d') /\ same_shape (2 ^ Z.of_nat S) d d' /\
    forall p, 0 <= p < 2 ^ Z.of_nat S ->
      cplx d' p = fft_ref value (-1) S (fun i => cplx d (bitrev S i)) p /\ P S (cplx d' p).
Proof.
  intros HS Hr Hv HP. unfold WebRtcSpl_ComplexFFT. cbn zeta. destruct (shiftl_pow2 S ltac:(lia)) as [-> _].
  assert (2 ^ Z.of_nat S <= 2 ^ 10) by (apply Z.pow_le_mono_r; lia).
  rewrite (proj2 (Z.ltb_ge _ _)) by lia. pose proof (mode_butterfly mode) as HB.
  destruct (fft_while_spec _ _ value (fun i => cplx d (bitrev S i)) P S Hv fft_fuel 0 d) as (d' & E & Hs & Hx & HP');
    [unfold fft_fuel; lia|lia|done|done|apply at_stage_start|].
  change (2 ^ Z.of_nat 0) with 1 in E. change (9 - Z.of_nat 0) with (10 - 1) in E. rewrite Nat.add_0_l in *.
  exists d'. rewrite E. split; [done|]. split; [done|]. intros p Hp. split; [|by apply HP'].
  specialize (Hx 0 p ltac:(done) Hp). rewrite Z.mul_0_l, Z.add_0_l in Hx. rewrite Hx.
  apply fft_ref_ext. intros i _. cbn [bitrev]. change (2 ^ Z.of_nat 0) with 1. f_equal. f_equal. lia.
Qed.

(** The reordered vector, as the transforms read it. *)
Lemma reordered_ref value sgn S d0 d p : reordered S d0 (2 ^ Z.of_nat S - 1) d ->
  fft_ref value sgn S (fun i => cplx d (bitrev S i)) p = fft_ref value sgn S (cplx d0) p.
Proof.
  intros Hd. apply fft_ref_ext. intros i Hi.
  rewrite (reordered_end S d0) by (done || apply bitrev_range). by rewrite bitrev_involutive.
Qed.

Lemma reordered_shape S d0 d m : reordered S d0 m d -> same_shape (2 ^ Z.of_nat S) d0 d.
Proof. intros (H1 & _ & H2 & H3). split; [done|]. split; [done|]. apply H3. Qed.

Lemma ifft_while_spec mode x t : forall fuel s sh scale d, (t < fuel)%nat -> (s + t <= 10)%nat ->
  room (2 ^ Z.of_nat (s + t)) d -> Forall is_i16 d -> at_stage (fun i => mode_exact mode (sh i)) 1 x s t d ->
  exists sh' d', ifft_while fuel mode (2 ^ Z.of_nat (s + t)) (2 ^ Z.of_nat s) (9 - Z.of_nat s) scale d
      = Some (scale + zsum (fun i => sh' (s + Z.to_nat i)%nat) t, d') /\
    (forall i, (i < s)%nat -> sh' i = sh i) /\ (forall i, (s <= i < s + t)%nat -> 0 <= sh' i <= 2) /\
    same_shape (2 ^ Z.of_nat (s + t)) d d' /\
    at_stage (fun i => mode_exact mode (sh' i)) 1 x (s + t) 0 d'.
Proof.
  induction t as [|t IH]; intros fuel s sh scale d Hf Hst Hr Hd Hx;
    (destruct fuel as [|fuel]; [lia|]); cbn [ifft_while].
  - rewrite Nat.add_0_r in *. rewrite Z.ltb_irrefl. exists sh, d. cbn [zsum]. rewrite Z.add_0_r.
    split; [done|]. split; [done|]. split; [lia|]. split; [apply same_shape_refl|done].
  - rewrite (proj2 (Z.ltb_lt _ _)) by (apply Z.pow_lt_mono_r; lia).
    pose proof (pow2_pos (s + S t)) as Hn. set (n := 2 ^ Z.of_nat (s + S t)) in *.
    destruct (mem_read d 0 (2 * n)) as [vector|] eqn:Ev;
      [|rewrite mem_read_Some in Ev by (unfold room in Hr; lia); done]. bind_simpl.
    assert (vector <> []) as Hne by (rewrite mem_read_Some in Ev by (unfold room in Hr; lia); injection Ev as <-;
      intros Hnil; apply (f_equal length) in Hnil; rewrite length_take, length_drop in Hnil; unfold room in Hr; cbn in Hnil; lia).
    unfold WebRtcSpl_MaxAbsValueW16C. rewrite nonempty_op by done. bind_simpl.
    pose proof (ifft_scaling_spec (max_abs_value_w16 vector)) as (Hs1 & Hs2 & _).
    pose proof (fun p => scaling_limit n d vector p Hd Hr Ev) as Hlim.
    destruct (ifft_scaling _) as [shift round2]. cbn [fst snd] in Hs1, Hs2, Hlim. subst round2.
    assert (Butterfly (if mode =? 0 then butterfly_low shift else butterfly_high shift (8192 ≪ shift))
      (mode_value mode shift)) as HB by (unfold mode_value; destruct (mode =? 0); apply _).
    unfold n in *. clear n.
    set (sh1 := fun i => if Nat.eqb i s then shift else sh i).
    destruct (stage_step _ _ (fun i => mode_exact mode (sh1 i)) 1 x s t (small (scale_limit shift)) (fun _ => True) d)
      as (d1 & -> & Hsh & Hx1 & _); [lia|done|exact Hlim| | |].
    + intros r q z Hr' Hq Hz. cbn zeta. split; [|done]. unfold sh1. rewrite Nat.eqb_refl.
      pose proof (twiddle_ok 1 s r ltac:(done) ltac:(lia) Hr') as Hw.
      destruct (scaled_fits mode shift _ q z Hs1 Hw Hq Hz) as (? & ? & ? & ?).
      apply mode_value_exact; try done;
        (unfold small in *; unfold scale_limit in *; destruct (shift =? 0); [lia|destruct (shift =? 1); lia]).
    + intros b r Hb Hr'. rewrite Hx by done. apply fft_ref_value. intros i Hi. unfold sh1.
      by rewrite (proj2 (Nat.eqb_neq i s)) by lia.
    + bind_simpl. rewrite Z.shiftl_mul_pow2, Z.mul_comm by lia. change (2 ^ 1) with 2. rewrite <-pow2_S.
      replace (9 - Z.of_nat s - 1) with (9 - Z.of_nat (S s)) by lia.
      replace (s + S t)%nat with (S s + t)%nat in * by lia.
      destruct (IH fuel (S s) sh1 (scale + shift) d1) as (sh' & d' & -> & Hlow & Hrng & Hsh' & Hx');
        [lia|lia|unfold room in *; destruct Hsh; lia|by apply Hsh|done|].
      assert (sh' s = shift) as Es by (rewrite Hlow by lia; unfold sh1; by rewrite Nat.eqb_refl).
      exists sh', d'. split; [|split; [|split; [|split] ] ].
      * do 2 f_equal. rewrite <-Z.add_assoc. f_equal. rewrite zsum_head. rewrite Nat.add_0_r, Es. f_equal.
        apply zsum_ext. intros i Hi. f_equal. lia.
      * intros i Hi. rewrite Hlow by lia. unfold sh1. by rewrite (proj2 (Nat.eqb_neq i s)) by lia.
      * intros i Hi. destruct (decide (i = s)) as [->|]; [lia|]. apply Hrng. lia.
      * by apply (same_shape_trans _ _ d1).
      * done.
Qed.

(** Both steps of a transform. *)
Lemma bit_reversed_fft value P S d mode : (S <= 10)%nat -> room (2 ^ Z.of_nat S) d ->
  (forall s r q z, (s <= 9)%nat -> 0 <= r < 2 ^ Z.of_nat s -> P s q -> P s z ->
     let w := twiddle (-1) (9 - Z.of_nat s) r in
     mode_value mode 1 w q z = value s w q z /\ P (Datatypes.S s) (mode_value mode 1 w q z).1 /\
     P (Datatypes.S s) (mode_value mode 1 w q z).2) ->
  (forall p, 0 <= p < 2 ^ Z.of_nat S -> P 0%nat (cplx d p)) ->
  exists d1 d2, WebRtcSpl_ComplexBitReverse d (Z.of_nat S) = Some d1 /\
    WebRtcSpl_ComplexFFT d1 (Z.of_nat S) mode = Some (0, d2) /\ same_shape (2 ^ Z.of_nat S) d d2 /\
    forall p, 0 <= p < 2 ^ Z.of_nat S ->
      cplx d2 p = fft_ref value (-1) S (cplx d) p /\ P S (cplx d2 p).
Proof.
  intros HS Hr Hv HP. destruct (bit_reverse_spec S d ltac:(lia) Hr) as (d1 & E1 & Hd1).
  pose proof (reordered_shape S d d1 _ Hd1) as Hs1.
  destruct (ComplexFFT_spec value P S d1 mode HS) as (d2 & E2 & Hs2 & Hx); [|done| |].
  - unfold room in *. destruct Hs1; lia.
  - intros p Hp. rewrite (reordered_end S d) by done. apply HP, bitrev_range.
  - exists d1, d2. split; [done|]. split; [done|]. split; [by apply (same_shape_trans _ _ d1)|].
    intros p Hp. rewrite <-(reordered_ref _ _ S d d1) by done. by apply Hx.
Qed.

Lemma bit_reversed_ifft S d mode : (S <= 10)%nat -> room (2 ^ Z.of_nat S) d -> Forall is_i16 d ->
  exists sh d1 d2, WebRtcSpl_ComplexBitReverse d (Z.of_nat S) = Some d1 /\
    WebRtcSpl_ComplexIFFT d1 (Z.of_nat S) mode = Some (zsum (fun i => sh (Z.to_nat i)) S, d2) /\
    (forall i, (i < S)%nat -> 0 <= sh i <= 2) /\ same_shape (2 ^ Z.of_nat S) d d2 /\
    forall p, 0 <= p < 2 ^ Z.of_nat S ->
      cplx d2 p = fft_ref (fun i => mode_exact mode (sh i)) 1 S (cplx d) p.
Proof.
  intros HS Hr Hd. destruct (bit_reverse_spec S d ltac:(lia) Hr) as (d1 & E1 & Hd1).
  pose proof (reordered_shape S d d1 _ Hd1) as Hs1. unfold WebRtcSpl_ComplexIFFT. cbn zeta.
  destruct (shiftl_pow2 S ltac:(lia)) as [_ ->].
  assert (2 ^ Z.of_nat S <= 2 ^ 10) by (apply Z.pow_le_mono_r; lia). rewrite (proj2 (Z.ltb_ge _ _)) by lia.
  destruct (ifft_while_spec mode (fun i => cplx d1 (bitrev S i)) S fft_fuel 0 (fun _ => 0) 0 d1)
    as (sh & d2 & E & _ & Hsh & Hs2 & Hx); [unfold fft_fuel; lia|lia| |by apply Hs1|apply at_stage_start|].
  { unfold room in *. destruct Hs1 as [-> _]. rewrite Nat.add_0_l. done. }
  rewrite Nat.add_0_l in *. change (2 ^ Z.of_nat 0) with 1 in E. change (9 - Z.of_nat 0) with (10 - 1) in E.
  exists sh, d1, d2. split; [done|]. split; [exact E|]. split; [intros; apply Hsh; lia|].
  split; [by apply (same_shape_trans _ _ d1)|]. intros p Hp. rewrite <-(reordered_ref _ _ S d d1) by done.
  specialize (Hx 0 p ltac:(done) Hp). rewrite Z.mul_0_l, Z.add_0_l in Hx. rewrite Hx.
  apply fft_ref_ext. intros i _. cbn [bitrev]. change (2 ^ Z.of_nat 0) with 1. f_equal. f_equal. lia.
Qed.

(** *** Properties *)

(** C17: Bit reversal followed by the in-place passes is the recursive
    transform: for every size the code accepts, in both accuracy modes and for
    all data, the two calls stay inside the arrays and return 0 with, at every
    index, the decimation-in-time recursion over the code's own butterflies; the
    rest of the array is unchanged.  Larger sizes are refused with -1 and the
    vector is unchanged. *)
Theorem complex_fft_recursive d mode : Forall is_i16 d ->
  (forall S, (S <= 10)%nat -> 2 * 2 ^ Z.of_nat S <= Z.of_nat (length d) ->
    exists d1 d2, WebRtcSpl_ComplexBitReverse d (Z.of_nat S) = Some d1 /\
      WebRtcSpl_ComplexFFT d1 (Z.of_nat S) mode = Some (0, d2) /\
      length d2 = length d /\ Forall is_i16 d2 /\
      (forall p, 0 <= p < 2 ^ Z.of_nat S ->
        cplx d2 p = fft_ref (fun _ => mode_value mode 1) (-1) S (cplx d) p) /\
      (forall p, 2 ^ Z.of_nat S <= p -> cplx d2 p = cplx d p)) /\
  (forall S, (10 < S <= 30)%nat -> WebRtcSpl_ComplexFFT d (Z.of_nat S) mode = Some (-1, d) /\
    WebRtcSpl_ComplexIFFT d (Z.of_nat S) mode = Some (-1, d)).
Proof.
  intros Hd. split.
  - intros S HS Hr. destruct (bit_reversed_fft (fun _ => mode_value mode 1) (fun _ _ => True) S d mode HS Hr)
      as (d1 & d2 & E1 & E2 & (HL & Ht & HF) & Hx); [done|done|].
    exists d1, d2. repeat split; try done; [auto|]. intros p Hp. by apply Hx.
  - intros S HS. destruct (shiftl_pow2 S ltac:(lia)) as [E1 E2].
    assert (2 ^ 11 <= 2 ^ Z.of_nat S) by (apply Z.pow_le_mono_r; lia).
    unfold WebRtcSpl_ComplexFFT, WebRtcSpl_ComplexIFFT. cbn zeta. rewrite E1, E2.
    rewrite (proj2 (Z.ltb_lt _ _)) by lia. done.
Qed.

Lemma complex_fft_recursive_witness : exists d1 d2,
  WebRtcSpl_ComplexBitReverse [1000; 0; -2000; 5; 300; 7; 32767; -32768] 2 = Some d1 /\
  WebRtcSpl_ComplexFFT d1 2 1 = Some (0, d2) /\ d2 = [8016; -8189; 8368; 8690; -7366; 8192; -8018; -8693].
Proof.
  destruct (complex_fft_recursive [1000; 0; -2000; 5; 300; 7; 32767; -32768] 1
    ltac:(repeat constructor; vm_compute; intuition discriminate)) as [H _].
  destruct (H 2%nat ltac:(lia) ltac:(vm_compute; discriminate)) as (d1 & d2 & E1 & E2 & _).
  exists d1, d2. vm_compute in E1. injection E1 as <-. vm_compute in E2. injection E2 as <-.
  repeat split; reflexivity.
Defined.

(** C18: The fixed scaling of the forward transform prevents overflow: when no
    element has a modulus above 32758, no conversion to 16 bits wraps, the
    result is the recursion over exact integers, and no result has a modulus
    above 32767. *)
Theorem fft_no_overflow S d mode : (S <= 10)%nat -> 2 * 2 ^ Z.of_nat S <= Z.of_nat (length d) ->
  (forall p, 0 <= p < 2 ^ Z.of_nat S -> norm2 (cplx d p) <= 32758 * 32758) ->
  exists d1 d2, WebRtcSpl_ComplexBitReverse d (Z.of_nat S) = Some d1 /\
    WebRtcSpl_ComplexFFT d1 (Z.of_nat S) mode = Some (0, d2) /\
    forall p, 0 <= p < 2 ^ Z.of_nat S ->
      cplx d2 p = fft_ref (fun _ => mode_exact mode 1) (-1) S (cplx d) p /\
      norm2 (cplx d2 p) < 32768 * 32768.
Proof.
  intros HS Hr Hd.
  destruct (bit_reversed_fft (fun _ => mode_exact mode 1) in_circle S d mode HS Hr) as (d1 & d2 & E1 & E2 & _ & Hx).
  - intros s r q z Hs Hr' Hq Hz. cbn zeta.
    destruct (forward_step mode s _ q z Hs (twiddle_ok (-1) s r ltac:(done) Hs Hr') Hq Hz) as (-> & ? & ?). done.
  - intros p Hp. specialize (Hd p Hp). unfold in_circle, modulus_bound. lia.
  - exists d1, d2. split; [done|]. split; [done|]. intros p Hp. destruct (Hx p Hp) as [-> Hc]. split; [done|].
    unfold in_circle in Hc.
    assert (modulus_bound S * modulus_bound S < (65536 * 32768) * (65536 * 32768)) by (unfold modulus_bound; nia).
    lia.
Qed.

Lemma fft_no_overflow_witness : exists d1 d2,
  WebRtcSpl_ComplexBitReverse [20000; 20000; -20000; 20000; 32758; 0; 0; -32758] 2 = Some d1 /\
  WebRtcSpl_ComplexFFT d1 2 0 = Some (0, d2) /\ norm2 (cplx d2 0) < 32768 * 32768.
Proof.
  destruct (fft_no_overflow 2 [20000; 20000; -20000; 20000; 32758; 0; 0; -32758] 0) as (d1 & d2 & E1 & E2 & H).
  - lia.
  - vm_compute. discriminate.
  - intros p Hp. change (2 ^ Z.of_nat 2) with 4 in Hp.
    assert (p = 0 \/ p = 1 \/ p = 2 \/ p = 3) as [-> |[-> |[-> | ->] ] ] by lia; vm_compute; discriminate.
  - exists d1, d2. split; [done|]. split; [done|]. apply (H 0). vm_compute. split; [discriminate|done].
Defined.

(** C19: The inverse transform never overflows: for all 16-bit data, in both
    modes, every pass shifts by 0, 1 or 2, the result is the recursion over
    exact integers with those shifts, and the returned scale is their sum. *)
Theorem inverse_fft_exact S d mode : (S <= 10)%nat -> 2 * 2 ^ Z.of_nat S <= Z.of_nat (length d) ->
  Forall is_i16 d ->
  exists shift d1 d2, WebRtcSpl_ComplexBitReverse d (Z.of_nat S) = Some d1 /\
    WebRtcSpl_ComplexIFFT d1 (Z.of_nat S) mode = Some (zsum (fun i => shift (Z.to_nat i)) S, d2) /\
    (forall i, (i < S)%nat -> 0 <= shift i <= 2) /\ length d2 = length d /\ Forall is_i16 d2 /\
    (forall p, 0 <= p < 2 ^ Z.of_nat S ->
      cplx d2 p = fft_ref (fun i => mode_exact mode (shift i)) 1 S (cplx d) p) /\
    (forall p, 2 ^ Z.of_nat S <= p -> cplx d2 p = cplx d p).
Proof.
  intros HS Hr Hd. destruct (bit_reversed_ifft S d mode HS Hr Hd) as (sh & d1 & d2 & E1 & E2 & Hs & (HL & Ht & HF) & Hx).
  exists sh, d1, d2. repeat split; auto; by apply Hs.
Qed.

Lemma inverse_fft_exact_witness : exists d1 d2,
  WebRtcSpl_ComplexBitReverse [32767; -32768; 0; 20000; 32767; 32767; -1; 300] 2 = Some d1 /\
  WebRtcSpl_ComplexIFFT d1 2 1 = Some (3, d2) /\ Forall is_i16 d2.
Proof.
  destruct (inverse_fft_exact 2 [32767; -32768; 0; 20000; 32767; 32767; -1; 300] 1 ltac:(lia)
    ltac:(vm_compute; discriminate) ltac:(repeat constructor; vm_compute; intuition discriminate))
    as (sh & d1 & d2 & E1 & E2 & _ & _ & H & _).
  vm_compute in E1. injection E1 as <-. change (Z.of_nat 2) with 2 in E2.
  assert (exists d3, WebRtcSpl_ComplexIFFT [32767; -32768; 32767; 32767; 0; 20000; -1; 300] 2 1 = Some (3, d3))
    as [d3 E3] by (eexists; vm_compute; reflexivity).
  rewrite E3 in E2. injection E2 as _ <-.
  exists [32767; -32768; 32767; 32767; 0; 20000; -1; 300], d3.
  split; [vm_compute; reflexivity|]. split; [exact E3|exact H].
Defined.

(** *** The real transform *)

Lemma mem_write_cells d (bs : list Z) out : mem_write d 0 bs = Some out ->
  length out = length d /\ forall i, 0 <= i ->
    arr out i = if i <? Z.of_nat (length bs) then arr bs i else arr d i.
Proof.
  unfold mem_write. destruct (in_block d 0 _) eqn:E; [|done]. apply in_block_spec in E as (_ & _ & E).
  intros [= <-]. change (take (Z.to_nat 0) d ++ bs ++ drop (Z.to_nat 0 + length bs) d) with (bs ++ drop (length bs) d).
  split; [rewrite length_app, length_drop; lia|]. intros i Hi. unfold arr. rewrite !nth_lookup.
  destruct (Z.ltb_spec i (Z.of_nat (length bs))).
  - by rewrite lookup_app_l by lia.
  - rewrite lookup_app_r, lookup_drop by lia. do 2 f_equal. lia.
Qed.

(** The packed spectrum of a real signal, and the spectrum it stands for. *)
Definition real_signal (l : list Z) (p : Z) : Z * Z := (arr l p, 0).
Definition unpack_spectrum (n : Z) (l : list Z) (p : Z) : Z * Z :=
  if 2 * p <=? n then cplx l p else ((cplx l (n - p)).1, i16 (- (cplx l (n - p)).2)).

(** Bins 0 and [n / 2] of a real signal are real. *)
Lemma fft_ref_real_bins v S : forall x, (forall r q z, q.2 = 0 -> z.2 = 0 ->
    forall s, r = twiddle (-1) (9 - Z.of_nat s) 0 -> (v s r q z).1.2 = 0 /\ (v s r q z).2.2 = 0) ->
  (forall i, (x i).2 = 0) ->
  (fft_ref v (-1) S x 0).2 = 0 /\ ((0 < S)%nat -> (fft_ref v (-1) S x (2 ^ Z.of_nat (S - 1))).2 = 0).
Proof.
  induction S as [|S IH]; intros x Hv Hx; [split; [apply Hx|lia]|].
  destruct (IH (fun i => x (2 * i)) Hv ltac:(intros; apply Hx)) as [E0 _].
  destruct (IH (fun i => x (2 * i + 1)) Hv ltac:(intros; apply Hx)) as [O0 _].
  replace (Datatypes.S S - 1)%nat with S by lia. cbn [fft_ref]. cbn zeta. pose proof (pow2_pos S).
  rewrite (proj2 (Z.ltb_lt 0 _)), Z.ltb_irrefl, Z.sub_diag by lia.
  destruct (Hv _ _ _ E0 O0 S eq_refl) as [H1 H2]. done.
Qed.

Lemma real_butterfly_bins s q z : q.2 = 0 -> z.2 = 0 ->
  let y := mode_value 1 1 (twiddle (-1) (9 - Z.of_nat s) 0) q z in y.1.2 = 0 /\ y.2.2 = 0.
Proof.
  intros Hq Hz. unfold mode_value. cbn [Z.eqb]. unfold high_value, cmul_im, twiddle. cbn zeta. cbn [fst snd].
  rewrite Hq, Hz, Z.shiftl_0_l, Z.mul_0_r.
  change (i16 (-1 * arr kSinTable1024 0)) with 0. rewrite Z.mul_0_l. split; reflexivity.
Qed.

Lemma load_real (n : Z) real_data_in buf0 : 0 <= n <= Z.of_nat (length real_data_in) -> room n buf0 ->
  exists buf, for_opt n (fun i buf => v ← rd real_data_in i; wr_c buf i (v, 0)) buf0 = Some buf /\
    length buf = length buf0 /\ (forall p, 0 <= p < n -> cplx buf p = real_signal real_data_in p).
Proof.
  intros Hn Hr. destruct (for_opt_ind (fun k (buf : list Z) => length buf = length buf0 /\
      forall p, 0 <= p < k -> cplx buf p = real_signal real_data_in p)
    (fun i buf => v ← rd real_data_in i; wr_c buf i (v, 0)) n buf0) as (buf & -> & H); [lia| | |by exists buf].
  - split; [done|]. lia.
  - intros k buf Hk [HL HC]. rewrite rd_Some by lia. bind_simpl.
    destruct (wr_c_Some n buf k (arr real_data_in k, 0)) as (buf' & -> & L & C & N & _); [unfold room in *; lia|lia|].
    exists buf'. split; [done|]. split; [lia|]. intros p Hp.
    destruct (decide (p = k)) as [->|]; [done|]. rewrite N by lia. apply HC. lia.
Qed.

(** The loop that completes the spectrum by conjugate symmetry. *)
Lemma load_spectrum (S : nat) inp buf0 : (1 <= S <= 10)%nat ->
  let n := 2 ^ Z.of_nat S in n + 2 <= Z.of_nat (length inp) -> room n buf0 ->
  exists bs buf1 buf2, mem_read inp 0 (n + 2) = Some bs /\ mem_write buf0 0 bs = Some buf1 /\
    for_by (n + 2) (2 * n) 2 (fun i buf => re ← rd inp (2 * n - i); im ← rd inp (2 * n - i + 1);
      buf ← wr buf i re; wr buf (i + 1) (i16 (- im))) buf1 = Some buf2 /\
    length buf2 = length buf0 /\ (forall p, 0 <= p < n -> cplx buf2 p = unpack_spectrum n inp p).
Proof.
  intros HS n Hi Hr. assert (exists h, n = 2 * h /\ 0 < h) as (h & En & Hh).
  { destruct S as [|S']; [lia|]. exists (2 ^ Z.of_nat S'). unfold n. rewrite pow2_S.
    split; [lia|apply pow2_pos]. }
  clearbody n. clear S HS. subst n. unfold room in Hr.
  destruct (mem_read inp 0 (2 * h + 2)) as [bs|] eqn:E1; [|rewrite mem_read_Some in E1 by lia; done].
  destruct (mem_read_cells _ _ _ E1) as (Lb & Cb & _).
  destruct (mem_write buf0 0 bs) as [buf1|] eqn:E2; [|rewrite mem_write_Some in E2 by lia; done].
  destruct (mem_write_cells _ _ _ E2) as (L1 & C1). exists bs, buf1. unfold for_by.
  replace ((2 * (2 * h) - (2 * h + 2) + 2 - 1) / 2) with (h - 1) by (apply (Z.div_unique_pos _ _ _ 1); lia).
  assert (forall p, 0 <= p <= h -> cplx buf1 p = cplx inp p) as C0.
  { intros p Hp. unfold cplx. rewrite !C1, !(proj2 (Z.ltb_lt _ (Z.of_nat (length bs)))), !Cb by lia. done. }
  destruct (for_opt_ind (fun k (buf : list Z) => length buf = length buf0 /\
      forall p, 0 <= p <= h + k -> cplx buf p = unpack_spectrum (2 * h) inp p)
    (fun c buf => re ← rd inp (2 * (2 * h) - (2 * h + 2 + c * 2)); im ← rd inp (2 * (2 * h) - (2 * h + 2 + c * 2) + 1);
      buf ← wr buf (2 * h + 2 + c * 2) re; wr buf (2 * h + 2 + c * 2 + 1) (i16 (- im))) (h - 1) buf1)
    as (buf2 & E3 & L3 & C3); [lia| | |].
  - split; [lia|]. intros p Hp. unfold unpack_spectrum. rewrite (proj2 (Z.leb_le _ _)) by lia. apply C0. lia.
  - intros c buf Hc [HL HC]. rewrite !rd_Some by lia. bind_simpl.
    rewrite wr_Some by lia. bind_simpl. rewrite wr_Some by (rewrite length_upd; lia).
    eexists. split; [done|]. rewrite !length_upd. split; [done|]. intros p Hp. unfold cplx.
    destruct (decide (p = h + c + 1)) as [->|Hne].
    + replace (2 * (h + c + 1)) with (2 * h + 2 + c * 2) by lia.
      rewrite arr_upd_ne, !arr_upd_eq by (rewrite ?length_upd; lia).
      unfold unpack_spectrum. rewrite (proj2 (Z.leb_gt _ _)) by lia. unfold cplx. cbn [fst snd].
      do 2 f_equal; [|do 2 f_equal]; f_equal; lia.
    + rewrite !arr_upd_ne by lia. apply HC. lia.
  - exists buf2. split; [done|]. split; [done|]. split; [exact E3|]. split; [done|]. intros p Hp. apply C3. lia.
Qed.

Lemma wr_i16 d i v d' : wr d i v = Some d' -> Forall is_i16 d -> is_i16 v -> Forall is_i16 d'.
Proof. unfold wr. destruct (_ && _); [|done]. intros [= <-] ??. by apply Forall_upd. Qed.

Lemma for_opt_inv {S : Type} (P : S -> Prop) (f : Z -> S -> option S) n s s' :
  P s -> (forall j s s', P s -> f j s = Some s' -> P s') -> for_opt n f s = Some s' -> P s'.
Proof.
  intros Hs Hf. unfold for_opt. revert s Hs. generalize 0%nat as i.
  induction (Z.to_nat n) as [|m IH]; intros i s Hs; cbn [for_opt_from]; [by intros [= <-]|].
  destruct (f _ s) as [s1|] eqn:E; [|done]. bind_simpl. apply IH. by apply (Hf _ _ _ Hs E).
Qed.

Lemma load_spectrum_i16 n inp buf0 bs buf1 buf2 : Forall is_i16 buf0 -> Forall is_i16 inp ->
  mem_read inp 0 (n + 2) = Some bs -> mem_write buf0 0 bs = Some buf1 ->
  for_by (n + 2) (2 * n) 2 (fun i buf => re ← rd inp (2 * n - i); im ← rd inp (2 * n - i + 1);
    buf ← wr buf i re; wr buf (i + 1) (i16 (- im))) buf1 = Some buf2 -> Forall is_i16 buf2.
Proof.
  intros F0 FI E1 E2. apply for_opt_inv.
  - destruct (mem_read_cells _ _ _ E1) as (_ & _ & Fb). unfold mem_write in E2. destruct (in_block _ _ _); [|done].
    injection E2 as <-. change (take (Z.to_nat 0) buf0) with (@nil Z). cbn [app].
    apply Forall_app. split; [auto|by apply Forall_drop].
  - intros j b b' Hb. destruct (rd inp (2 * n - (n + 2 + j * 2))) as [re|] eqn:Er; [|done]. bind_simpl.
    destruct (rd inp (_ + 1)) as [im|]; [|done]. bind_simpl.
    destruct (wr b _ re) as [b1|] eqn:Ew; [|done]. bind_simpl. intros Ew2.
    apply (wr_i16 _ _ _ _ Ew2); [|apply i16_range]. apply (wr_i16 _ _ _ _ Ew Hb).
    unfold rd in Er. destruct (0 <=? _); [|done]. apply (Forall_lookup_1 _ _ _ _ FI Er).
Qed.

Lemma room_buffer (S : nat) buf : (S <= 10)%nat -> length buf = 2048%nat -> room (2 ^ Z.of_nat S) buf.
Proof.
  intros HS HL. unfold room. rewrite HL. assert (2 ^ Z.of_nat S <= 2 ^ 10) by (apply Z.pow_le_mono_r; lia). lia.
Qed.

Lemma real_forward_spec (S : nat) junk inp out : (1 <= S <= 10)%nat -> length junk = 2048%nat ->
  let n := 2 ^ Z.of_nat S in
  n <= Z.of_nat (length inp) -> n + 2 <= Z.of_nat (length out) ->
  exists out', WebRtcSpl_RealForwardFFT {| order := Z.of_nat S |} junk inp out = Some (0, out') /\
    length out' = length out /\
    (forall p, 0 <= p <= n / 2 ->
      cplx out' p = fft_ref (fun _ => mode_value 1 1) (-1) S (real_signal inp) p) /\
    (forall i, n + 2 <= i -> arr out' i = arr out i).
Proof.
  intros HS HJ n Hi Ho. pose proof (pow2_pos S) as Hn. fold n in Hn. unfold WebRtcSpl_RealForwardFFT. cbn [order].
  cbn zeta. destruct (shiftl_pow2 S ltac:(lia)) as [-> _]. fold n.
  pose proof (room_buffer S junk ltac:(lia) HJ) as Hr. fold n in Hr.
  destruct (load_real n inp junk) as (buf & -> & HL & HC); [lia|done|]. bind_simpl.
  assert (room n buf) as Hr' by (unfold room in *; lia).
  destruct (bit_reversed_fft (fun _ => mode_value 1 1) (fun _ _ => True) S buf 1 ltac:(lia) Hr')
    as (d1 & d2 & -> & E2 & (HL2 & _) & Hx); [done|done|]. bind_simpl. rewrite E2. bind_simpl.
  destruct (mem_read d2 0 (n + 2)) as [bs|] eqn:Eb.
  2: { rewrite mem_read_Some in Eb; [done|lia|lia|]. rewrite HL2, HL, HJ.
       assert (n <= 2 ^ 10) by (apply Z.pow_le_mono_r; lia). lia. }
  bind_simpl. destruct (mem_read_cells _ _ _ Eb) as (Lb & Cb & _).
  destruct (mem_write out 0 bs) as [out'|] eqn:Ew; [|rewrite mem_write_Some in Ew by lia; done]. bind_simpl.
  destruct (mem_write_cells _ _ _ Ew) as [Lo Co]. exists out'. split; [done|]. split; [done|].
  assert (exists h, n = 2 * h /\ 0 < h) as (h & En & Hh).
  { destruct S as [|S']; [lia|]. exists (2 ^ Z.of_nat S'). unfold n. rewrite pow2_S. split; [lia|apply pow2_pos]. }
  split.
  - intros p Hp. rewrite En in Hp. rewrite Z.mul_comm, Z.div_mul in Hp by lia.
    rewrite <-(fft_ref_ext _ _ S (cplx buf) (real_signal inp)) by (intros; by apply HC).
    destruct (Hx p) as [<- _]; [lia|]. unfold cplx.
    rewrite !Co, !(proj2 (Z.ltb_lt _ (Z.of_nat (length bs)))), !Cb by lia. done.
  - intros i Hge. rewrite Co, (proj2 (Z.ltb_ge _ _)) by lia. done.
Qed.

Lemma real_inverse_spec (S : nat) junk inp out : (1 <= S <= 10)%nat -> length junk = 2048%nat ->
  Forall is_i16 junk -> Forall is_i16 inp ->
  let n := 2 ^ Z.of_nat S in
  n + 2 <= Z.of_nat (length inp) -> n <= Z.of_nat (length out) ->
  exists shift out', WebRtcSpl_RealInverseFFT {| order := Z.of_nat S |} junk inp out
      = Some (zsum (fun i => shift (Z.to_nat i)) S, out') /\
    (forall i, (i < S)%nat -> 0 <= shift i <= 2) /\ length out' = length out /\
    (forall p, 0 <= p < n ->
      arr out' p = (fft_ref (fun i => mode_exact 1 (shift i)) 1 S (unpack_spectrum n inp) p).1) /\
    (forall i, n <= i -> arr out' i = arr out i).
Proof.
  intros HS HJ FJ FI n Hi Ho. pose proof (pow2_pos S) as Hn. fold n in Hn. unfold WebRtcSpl_RealInverseFFT. cbn [order].
  cbn zeta. destruct (shiftl_pow2 S ltac:(lia)) as [-> _]. fold n.
  pose proof (room_buffer S junk ltac:(lia) HJ) as Hr. fold n in Hr.
  destruct (load_spectrum S inp junk HS Hi Hr) as (bs & buf1 & buf & E1 & E2 & E3 & HL & HC). fold n in E1, E3, HC.
  rewrite E1. bind_simpl. rewrite E2. bind_simpl. rewrite E3. bind_simpl.
  assert (room n buf) as Hr' by (unfold room in *; lia).
  assert (Forall is_i16 buf) as Fb by (apply (load_spectrum_i16 n inp junk bs buf1); done).
  destruct (bit_reversed_ifft S buf 1 ltac:(lia) Hr' Fb) as (sh & d1 & d2 & -> & E4 & Hsh & (HL2 & _) & Hx).
  bind_simpl. rewrite E4. bind_simpl. cbn beta iota.
  destruct (for_opt_ind (fun k (o : list Z) => length o = length out /\
      (forall p, 0 <= p < k -> arr o p = arr d2 (2 * p)) /\ (forall i, k <= i -> arr o i = arr out i))
    (fun i out => v ← rd d2 (2 * i); wr out i v) n out) as (out' & -> & Lo & Co & To); [lia| | |].
  - split; [done|]. split; [lia|done].
  - intros k o Hk (Lo & Co & To). rewrite rd_Some by (unfold room in *; lia). bind_simpl. rewrite wr_Some by lia.
    eexists. split; [done|]. rewrite length_upd. split; [done|]. split.
    + intros p Hp. destruct (decide (p = k)) as [->|]; [by rewrite arr_upd_eq by lia|].
      rewrite arr_upd_ne by lia. apply Co. lia.
    + intros i Hge. rewrite arr_upd_ne by lia. apply To. lia.
  - bind_simpl. exists sh, out'. split; [done|]. split; [done|]. split; [done|]. split; [|done].
    intros p Hp. rewrite Co by done. change (arr d2 (2 * p)) with (cplx d2 p).1. rewrite Hx by done. f_equal.
    apply fft_ref_ext. done.
Qed.

(** C20: The real transforms.  Objects are made exactly for the orders 0 to 10
    (if memory is available).  For a signal of [2^order] samples the forward
    transform returns 0 and packs bins 0 to [n / 2] of the recursive transform,
    of which the first and the last are real.  The inverse transform completes
    the spectrum by conjugate symmetry and returns the real parts of its exact
    inverse with the scale that was applied.  Neither touches the cells after
    its result, whatever the local buffer held. *)
Theorem real_fft_correct (S : nat) junk inp out :
  (forall memory k, WebRtcSpl_CreateRealFFT memory k
    = if memory && (0 <=? k) && (k <=? 10) then Some {| order := k |} else None) /\
  ((1 <= S <= 10)%nat -> length junk = 2048%nat -> Forall is_i16 junk -> Forall is_i16 inp ->
   let n := 2 ^ Z.of_nat S in
   (n <= Z.of_nat (length inp) -> n + 2 <= Z.of_nat (length out) ->
    exists out', WebRtcSpl_RealForwardFFT {| order := Z.of_nat S |} junk inp out = Some (0, out') /\
      length out' = length out /\
      (forall p, 0 <= p <= n / 2 ->
        cplx out' p = fft_ref (fun _ => mode_value 1 1) (-1) S (real_signal inp) p) /\
      (cplx out' 0).2 = 0 /\ (cplx out' (n / 2)).2 = 0 /\
      (forall i, n + 2 <= i -> arr out' i = arr out i)) /\
   (n + 2 <= Z.of_nat (length inp) -> n <= Z.of_nat (length out) ->
    exists shift out', WebRtcSpl_RealInverseFFT {| order := Z.of_nat S |} junk inp out
        = Some (zsum (fun i => shift (Z.to_nat i)) S, out') /\
      (forall i, (i < S)%nat -> 0 <= shift i <= 2) /\ length out' = length out /\
      (forall p, 0 <= p < n ->
        arr out' p = (fft_ref (fun i => mode_exact 1 (shift i)) 1 S (unpack_spectrum n inp) p).1) /\
      (forall i, n <= i -> arr out' i = arr out i))).
Proof.
  split.
  - intros memory k. unfold WebRtcSpl_CreateRealFFT, kMaxFFTOrder.
    destruct (Z.ltb_spec 10 k), (Z.ltb_spec k 0), (Z.leb_spec 0 k), (Z.leb_spec k 10), memory; try lia; done.
  - intros HS HJ FJ FI n. split; [|by apply real_inverse_spec].
    intros Hi Ho. destruct (real_forward_spec S junk inp out HS HJ Hi Ho) as (out' & E & L & C & T). fold n in C, T.
    exists out'. split; [done|]. split; [done|]. split; [done|].
    destruct (fft_ref_real_bins (fun _ => mode_value 1 1) S (real_signal inp)) as [B0 Bn]; [|done|].
    { intros r q z Hq Hz s ->. by apply real_butterfly_bins. }
    assert (n / 2 = 2 ^ Z.of_nat (S - 1)) as En.
    { destruct S as [|S']; [lia|]. unfold n. rewrite pow2_S, Z.mul_comm, Z.div_mul by lia. do 2 f_equal. lia. }
    rewrite !C by (rewrite ?En; pose proof (pow2_pos (S - 1)); lia). rewrite En. auto with lia.
Qed.

Lemma real_fft_correct_witness : exists out',
  WebRtcSpl_RealForwardFFT {| order := 2 |} (replicate 2048 7) [1000; -2000; 300; 32767] (replicate 6 1)
    = Some (0, out') /\ (cplx out' 0).2 = 0 /\ out' = [8016; 0; 175; 8691; -7366; 0].
Proof.
  destruct (real_fft_correct 2 (replicate 2048 7) [1000; -2000; 300; 32767] (replicate 6 1)) as [_ H].
  destruct H as [H _]; [lia|reflexivity|apply Forall_replicate; unfold is_i16; lia
    |repeat constructor; vm_compute; intuition discriminate|].
  destruct H as (out' & E & _ & _ & H0 & _); [vm_compute; discriminate|vm_compute; discriminate|].
  exists out'. split; [exact E|]. split; [exact H0|].
  assert (exists o, WebRtcSpl_RealForwardFFT {| order := 2 |} (replicate 2048 7) [1000; -2000; 300; 32767]
    (replicate 6 1) = Some (0, o) /\ o = [8016; 0; 175; 8691; -7366; 0]) as (o & Eo & Ho)
    by (eexists; split; [vm_compute; reflexivity|reflexivity]).
  change (Z.of_nat 2) with 2 in E. rewrite Eo in E. injection E as <-. exact Ho.
Defined.

(** What the header file says of the transform and the code does not do: the
    kernel is [cos - j * sin], and the scaling by 2 before each pass is not
    enough for elements whose modulus exceeds 16 bits. *)
Lemma fft_documentation :
  WebRtcSpl_ComplexFFT [0; 0; 0; 0; 20000; 0; 0; 0] 2 1 = Some (0, [5000; 0; 0; -5000; -5000; 0; 0; 5000]) /\
  (exists d1 d2, WebRtcSpl_ComplexBitReverse
     [32767; 32767; 32767; 32767; 32767; 32767; -32768; 32767;
      -32768; -32768; -32768; -32768; -32768; -32768; 32767; -32768] 3 = Some d1 /\
   WebRtcSpl_ComplexFFT d1 3 1 = Some (0, d2) /\ arr d2 2 = 39552 - 2 ^ 16).
Proof.
  split; [vm_compute; reflexivity|]. eexists _, _.
  split; [vm_compute; reflexivity|]. split; [vm_compute; reflexivity|reflexivity].
Qed.
