(* ===== verification/SplFilter.v ===== *)
(** The filters of the signal processing library: [filter_ma_fast_q12.c],
    [filter_ar_fast_q12.c], [filter_ar.c], [downsample_fast.c] and
    [get_hanning_window.c] of [common_audio/signal_processing].

    A signal with its state in negative positions is an array and the index
    [base] of its position 0.  Accesses are checked; [None] is an access outside
    an array.  The theorems show the outputs to be the saturated, rounded sums of
    the filter equations, computed without overflow, and that the
    autoregressive filter with high precision may be fed a signal in pieces. *)
From S2P Require Import Prelude SplInl SplMath SplVec.

(** ** filter_ma_fast_q12.c *)

(** [for (j = 0; j < length; j++) o += B[j] * x[p - j];] *)
Definition fir_sum (B : list Z) (length : Z) (x : list Z) (p o : Z) : option Z :=
  for_opt length (fun j o => b ← rd B j; v ← rd x (p - j); Some (i32 (o + i32 (b * v)))) o.

Definition WebRtcSpl_FilterMAFastQ12 (inp : list Z) (base : Z) (out_ptr B : list Z)
  (B_length length : Z) : option (list Z) :=
  for_opt length (fun i out =>
    o ← fir_sum B B_length inp (base + i) 0;
    let o := WEBRTC_SPL_SAT 134215679 o (-134217728) in
    wr out i (i16 (i32 (o + 2048) ≫ 12))) out_ptr.

(** ** filter_ar_fast_q12.c *)

(** [sum] for the sample at [p] of the output array. *)
Definition ar_fast_sum (coefficients : list Z) (coefficients_length : Z) (data_out : list Z) (p : Z)
  : option Z :=
  for_opt (coefficients_length - 1) (fun jj sum =>
    let j := coefficients_length - 1 - jj in
    c ← rd coefficients j; y ← rd data_out (p - j); Some (i64 (sum + i32 (c * y)))) 0.

(** One sample. *)
Definition ar_fast_step (data_in : list Z) (base : Z) (coefficients : list Z)
  (coefficients_length i : Z) (data_out : list Z) : option (list Z) :=
  sum ← ar_fast_sum coefficients coefficients_length data_out (base + i);
  c ← rd coefficients 0;
  x ← rd data_in i;
  let output := i64 (i32 (c * x) - sum) in
  let output := WEBRTC_SPL_SAT 134215679 output (-134217728) in
  wr data_out (base + i) (i16 (i64 (output + 2048) ≫ 12)).

Definition WebRtcSpl_FilterARFastQ12 (data_in data_out : list Z) (base : Z) (coefficients : list Z)
  (coefficients_length data_length : Z) : option (list Z) :=
  _ ← RTC_DCHECK (0 <? data_length); _ ← RTC_DCHECK (1 <? coefficients_length);
  for_opt data_length (ar_fast_step data_in base coefficients coefficients_length) data_out.

(** ** downsample_fast.c *)

(** The returned value and the output array. *)
Definition WebRtcSpl_DownsampleFastC (data_in : list Z) (base data_in_length : Z) (data_out : list Z)
  (data_out_length : Z) (coefficients : list Z) (coefficients_length factor delay : Z)
  : option (Z * list Z) :=
  let endpos := u64 (delay + u64 (u64 factor * u64 (data_out_length - 1)) + 1) in
  if (data_out_length =? 0) || (coefficients_length =? 0) || (data_in_length <? endpos)
  then Some (-1, data_out)
  else
    let rounds := (endpos - delay + factor - 1) / factor in
    out ← for_opt rounds (fun c out =>
      let i := delay + c * factor in
      out_s32 ← fir_sum coefficients coefficients_length data_in (base + i) 2048;
      wr out c (WebRtcSpl_SatW32ToW16 (out_s32 ≫ 12))) data_out;
    _ ← RTC_DCHECK (rounds =? data_out_length);
    Some (0, out).

(** ** filter_ar.c *)

(** One term of the two accumulations. *)
Definition ar_term (a hi lo : Z) (acc : Z * Z) : Z * Z :=
  (i64 (acc.1 - i32 (a * hi)), i32 (acc.2 - i32 (a * lo))).

(** The sums over the samples of this call and over the saved state; the index
    of the former is an [int], whose decrements stay in its range as long as it
    is not negative. *)
Definition ar_sums (a : list Z) (a_length : Z) (state state_low : list Z) (state_length : Z)
  (filtered filtered_low : list Z) (i x : Z) : option (Z * Z) :=
  let o := i64 (i32 (x * 2 ^ 12)) in
  let stop := if i <? a_length then i + 1 else a_length in
  acc ← for_opt (stop - 1) (fun jj acc =>
    let filtered_ix := i32 (i32 i - 1) - jj in
    _ ← RTC_DCHECK (0 <=? filtered_ix);
    c ← rd a (1 + jj);
    hi ← rd filtered filtered_ix; lo ← rd filtered_low filtered_ix;
    Some (ar_term c hi lo acc)) (o, 0);
  for_opt (a_length - (i + 1)) (fun jj acc =>
    c ← rd a (1 + Z.max 0 (stop - 1) + jj);
    hi ← rd state (state_length - 1 - jj); lo ← rd state_low (state_length - 1 - jj);
    Some (ar_term c hi lo acc)) acc.

(** The two parts of a sample. *)
Definition ar_output (acc : Z * Z) : Z * Z :=
  let o := i64 (acc.1 + (acc.2 ≫ 12)) in
  let hi := i16 (i64 (o + 2048) ≫ 12) in
  (hi, i16 (i64 (o - i32 (hi * 2 ^ 12)))).

(** The saved state of one part after a call. *)
Definition ar_save (filtered : list Z) (x_length a_length : Z) (state : list Z) (state_length : Z)
  : option (list Z) :=
  if state_length <=? x_length
  then bs ← WebRtcSpl_CopyFromEndW16 filtered x_length (a_length - 1); mem_write state 0 bs
  else
    state ← for_opt (state_length - x_length) (fun i state =>
      v ← rd state (i + x_length); wr state i v) state;
    for_opt x_length (fun i state =>
      v ← rd filtered i; wr state (state_length - x_length + i) v) state.

(** The arrays [state], [state_low], [filtered] and [filtered_low] after the
    call; the returned value is [x_length]. *)
Definition WebRtcSpl_FilterAR (a : list Z) (a_length : Z) (x : list Z) (x_length : Z)
  (state : list Z) (state_length : Z) (state_low filtered filtered_low : list Z)
  : option (list Z * list Z * list Z * list Z) :=
  '(filtered, filtered_low) ← for_opt x_length (fun i '(filtered, filtered_low) =>
    v ← rd x i;
    acc ← ar_sums a a_length state state_low state_length filtered filtered_low i v;
    let '(hi, lo) := ar_output acc in
    filtered ← wr filtered i hi; filtered_low ← wr filtered_low i lo;
    Some (filtered, filtered_low)) (filtered, filtered_low);
  state ← ar_save filtered x_length a_length state state_length;
  state_low ← ar_save filtered_low x_length a_length state_low state_length;
  Some (state, state_low, filtered, filtered_low).

(** ** get_hanning_window.c *)

Definition kHanningTable : list Z :=
  [1; 2; 6; 10; 15; 22; 30; 39; 50; 62; 75; 89; 104; 121; 138; 157; 178; 199; 222; 246; 271;
   297; 324; 353; 383; 413; 446; 479; 513; 549; 586; 624; 663; 703; 744; 787; 830; 875; 920;
   967; 1015; 1064; 1114; 1165; 1218; 1271; 1325; 1381; 1437; 1494; 1553; 1612; 1673; 1734;
   1796; 1859; 1924; 1989; 2055; 2122; 2190; 2259; 2329; 2399; 2471; 2543; 2617; 2691; 2765;
   2841; 2918; 2995; 3073; 3152; 3232; 3312; 3393; 3475; 3558; 3641; 3725; 3809; 3895; 3980;
   4067; 4154; 4242; 4330; 4419; 4509; 4599; 4689; 4781; 4872; 4964; 5057; 5150; 5244; 5338;
   5432; 5527; 5622; 5718; 5814; 5910; 6007; 6104; 6202; 6299; 6397; 6495; 6594; 6693; 6791;
   6891; 6990; 7090; 7189; 7289; 7389; 7489; 7589; 7690; 7790; 7890; 7991; 8091; 8192; 8293;
   8393; 8494; 8594; 8694; 8795; 8895; 8995; 9095; 9195; 9294; 9394; 9493; 9593; 9691; 9790;
   9889; 9987; 10085; 10182; 10280; 10377; 10474; 10570; 10666; 10762; 10857; 10952; 11046;
   11140; 11234; 11327; 11420; 11512; 11603; 11695; 11785; 11875; 11965; 12054; 12142; 12230;
   12317; 12404; 12489; 12575; 12659; 12743; 12826; 12909; 12991; 13072; 13152; 13232; 13311;
   13389; 13466; 13543; 13619; 13693; 13767; 13841; 13913; 13985; 14055; 14125; 14194; 14262;
   14329; 14395; 14460; 14525; 14588; 14650; 14711; 14772; 14831; 14890; 14947; 15003; 15059;
   15113; 15166; 15219; 15270; 15320; 15369; 15417; 15464; 15509; 15554; 15597; 15640; 15681;
   15721; 15760; 15798; 15835; 15871; 15905; 15938; 15971; 16001; 16031; 16060; 16087; 16113;
   16138; 16162; 16185; 16206; 16227; 16246; 16263; 16280; 16295; 16309; 16322; 16334; 16345;
   16354; 16362; 16369; 16374; 16378; 16382; 16383; 16384].

Definition WebRtcSpl_GetHanningWindow (v : list Z) (size : Z) : option (list Z) :=
  let factor := WebRtcSpl_DivW32W16 0x40000000 (i16 size) in
  let index := if size <? 513 then -0x200000 else -0x100000 in
  r ← for_opt size (fun jj '(index, v) =>
    let index := i32 (index + factor) in
    w ← rd kHanningTable (index ≫ 22); v ← wr v jj w; Some (index, v)) (index, v);
  Some r.2.

(** ** Finite impulse responses *)

Definition abs_sum (B : list Z) (n : nat) : Z := zsum (fun j => Z.abs (arr B j)) n.

(** The exact value of the filter sum. *)
Definition fir_exact (B x : list Z) (n : nat) (p : Z) : Z :=
  zsum (fun j => arr B j * arr x (p - j)) n.

Lemma abs_sum_mono B n m : (n <= m)%nat -> 0 <= abs_sum B n <= abs_sum B m.
Proof.
  unfold abs_sum. induction 1 as [|m Hm IH]; cbn [zsum]; [|lia].
  induction n as [|n IH]; cbn [zsum]; lia.
Qed.

Lemma fir_exact_bound B x n p : Forall is_i16 x -> Z.abs (fir_exact B x n p) <= abs_sum B n * 32768.
Proof.
  intros Hx. unfold fir_exact, abs_sum. induction n as [|n IH]; cbn [zsum]; [lia|].
  assert (is_i16 (arr x (p - Z.of_nat n))) as Hv by (apply arr_Forall; [unfold is_i16; lia|done]).
  assert (Z.abs (arr B (Z.of_nat n) * arr x (p - Z.of_nat n)) <= Z.abs (arr B (Z.of_nat n)) * 32768).
  { rewrite Z.abs_mul. apply Z.mul_le_mono_nonneg_l; unfold is_i16 in Hv; lia. }
  lia.
Qed.

(** No partial sum leaves 32 bits when the coefficients are bounded. *)
Lemma fir_sum_exact B n x p o : Forall is_i16 B -> Forall is_i16 x -> (n <= length B)%nat ->
  abs_sum B n <= 65535 -> 0 <= o <= 2048 -> Z.of_nat n - 1 <= p < Z.of_nat (length x) ->
  fir_sum B (Z.of_nat n) x p o = Some (o + fir_exact B x n p).
Proof.
  intros HB Hx Hn Hs Ho Hp. unfold fir_sum.
  destruct (for_opt_ind (fun j s => s = o + fir_exact B x (Z.to_nat j) p)
    (fun j o => b ← rd B j; v ← rd x (p - j); Some (i32 (o + i32 (b * v)))) (Z.of_nat n) o) as (s & -> & ->).
  - lia.
  - change (Z.to_nat 0) with 0%nat. unfold fir_exact. cbn [zsum]. lia.
  - intros j s Hj ->. rewrite !rd_Some by lia. bind_simpl. eexists. split; [done|].
    assert (is_i16 (arr B j) /\ is_i16 (arr x (p - j))) as [H1 H2]
      by (split; apply arr_Forall; (done || (unfold is_i16; lia))).
    pose proof (mul_i16 _ _ H1 H2). rewrite (i32_id (_ * _)) by (unfold is_i32; lia).
    pose proof (fir_exact_bound B x (Z.to_nat (j + 1)) p Hx) as Hb.
    pose proof (abs_sum_mono B (Z.to_nat (j + 1)) n ltac:(lia)).
    unfold fir_exact in *. rewrite zsum_snoc in * by lia. rewrite <-Z.add_assoc. apply i32_id. unfold is_i32. lia.
  - by rewrite Nat2Z.id.
Qed.

(** Both ways of saturating give the clamped rounded quotient. *)
Definition q12_round (o : Z) : Z := clamp (-32768) 32767 ((o + 2048) / 4096).

Lemma sat_q12 o : i16 (i32 (WEBRTC_SPL_SAT 134215679 o (-134217728) + 2048) ≫ 12) = q12_round o.
Proof.
  rewrite SAT_clamp by lia. unfold q12_round, clamp. rewrite shiftr_div by lia. change (2 ^ 12) with 4096.
  rewrite i32_id by (unfold is_i32; lia).
  set (c := Z.max _ _). assert (- 134217728 <= c <= 134215679) by lia.
  rewrite i16_id by (unfold is_i16; Z.div_mod_to_equations; lia). unfold c. clear c H.
  Z.div_mod_to_equations. lia.
Qed.

Lemma for_wr n0 (g : Z -> list Z -> option Z) (v : Z -> Z) out : 0 <= n0 <= Z.of_nat (length out) ->
  (forall i o, 0 <= i < n0 -> g i o = Some (v i)) ->
  exists out', for_opt n0 (fun i out => y ← g i out; wr out i y) out = Some out' /\
    length out' = length out /\ (forall i, 0 <= i < n0 -> arr out' i = v i) /\
    (forall i, n0 <= i -> arr out' i = arr out i).
Proof.
  intros Hn Hg. destruct (for_opt_ind (fun k (o : list Z) => length o = length out /\
      (forall i, 0 <= i < k -> arr o i = v i) /\ (forall i, k <= i -> arr o i = arr out i))
    (fun i out => y ← g i out; wr out i y) n0 out) as (out' & -> & H); [lia| | |by exists out'].
  - split; [done|]. split; [lia|done].
  - intros k o Hk (HL & HC & HT). rewrite Hg by done. bind_simpl. rewrite wr_Some by lia.
    eexists. split; [done|]. rewrite length_upd. split; [done|]. split.
    + intros i Hi. destruct (decide (i = k)) as [->|]; [by rewrite arr_upd_eq by lia|].
      rewrite arr_upd_ne by lia. apply HC. lia.
    + intros i Hi. rewrite arr_upd_ne by lia. apply HT. lia.
Qed.

Lemma endpos_eq len factor delay : 0 < len < 2 ^ 31 -> 0 < factor < 2 ^ 31 -> 0 <= delay < 2 ^ 31 ->
  u64 (delay + u64 (u64 factor * u64 (len - 1)) + 1) = delay + factor * (len - 1) + 1.
Proof.
  intros Hl Hf Hd. unfold u64. assert (0 <= factor * (len - 1) < 2 ^ 31 * 2 ^ 31) by nia.
  rewrite !(Z.mod_small factor), !(Z.mod_small (len - 1)), (Z.mod_small (factor * _)) by lia.
  apply Z.mod_small. lia.
Qed.

(** C21: The finite impulse response filters: if the magnitudes of the
    coefficients add up to at most 65535 and the arrays hold the state, the
    32-bit sums are exact, and every output is the rounded sum of the filter
    equation, saturated to 16 bits.  The decimating filter refuses an empty
    output, an empty filter and a short input with -1 and writes nothing. *)
Theorem fir_filters_exact inp base out B (n len : nat) factor delay in_len :
  Forall is_i16 inp -> Forall is_i16 B -> (n <= length B)%nat -> abs_sum B n <= 65535 ->
  (len <= length out)%nat -> Z.of_nat (length out) < 2 ^ 31 -> 0 < factor < 2 ^ 31 -> 0 <= delay < 2 ^ 31 ->
  0 <= in_len < 2 ^ 64 ->
  (Z.of_nat n - 1 <= base -> base + Z.of_nat len <= Z.of_nat (length inp) ->
   exists out', WebRtcSpl_FilterMAFastQ12 inp base out B (Z.of_nat n) (Z.of_nat len) = Some out' /\
     length out' = length out /\
     (forall i, 0 <= i < Z.of_nat len -> arr out' i = q12_round (fir_exact B inp n (base + i))) /\
     (forall i, Z.of_nat len <= i -> arr out' i = arr out i)) /\
  ((n = 0%nat \/ len = 0%nat \/ in_len < delay + factor * (Z.of_nat len - 1) + 1) ->
   WebRtcSpl_DownsampleFastC inp base in_len out (Z.of_nat len) B (Z.of_nat n) factor delay = Some (-1, out)) /\
  ((0 < n)%nat -> (0 < len)%nat -> delay + factor * (Z.of_nat len - 1) + 1 <= in_len ->
   Z.of_nat n - 1 <= base + delay -> base + in_len <= Z.of_nat (length inp) ->
   exists out', WebRtcSpl_DownsampleFastC inp base in_len out (Z.of_nat len) B (Z.of_nat n) factor delay
       = Some (0, out') /\ length out' = length out /\
     (forall i, 0 <= i < Z.of_nat len ->
        arr out' i = q12_round (fir_exact B inp n (base + delay + i * factor))) /\
     (forall i, Z.of_nat len <= i -> arr out' i = arr out i)).
Proof.
  intros Hi HB Hn Hs Hlen Hout Hf Hd Hin. split; [|split].
  - intros Hb Hl. unfold WebRtcSpl_FilterMAFastQ12.
    destruct (for_wr (Z.of_nat len) (fun i (_ : list Z) => o ← fir_sum B (Z.of_nat n) inp (base + i) 0;
        Some (i16 (i32 (WEBRTC_SPL_SAT 134215679 o (-134217728) + 2048) ≫ 12)))
      (fun i => q12_round (fir_exact B inp n (base + i))) out) as (out' & E & H); [lia| |].
    + intros i o Hi'. rewrite fir_sum_exact by (done || lia). bind_simpl. by rewrite sat_q12.
    + exists out'. split; [|done]. rewrite <-E. apply for_opt_ext. intros j o Hj.
      rewrite fir_sum_exact by (done || lia). done.
  - intros Hc. unfold WebRtcSpl_DownsampleFastC. cbn zeta.
    destruct (Z.eqb_spec (Z.of_nat len) 0); [done|]. destruct (Z.eqb_spec (Z.of_nat n) 0); [done|].
    rewrite endpos_eq by lia. rewrite (proj2 (Z.ltb_lt _ _)) by lia. done.
  - intros Hn0 Hl0 He Hb Hl. unfold WebRtcSpl_DownsampleFastC. cbn zeta. rewrite endpos_eq by lia.
    rewrite (proj2 (Z.eqb_neq (Z.of_nat len) 0)), (proj2 (Z.eqb_neq (Z.of_nat n) 0)) by lia.
    rewrite (proj2 (Z.ltb_ge _ _)) by lia. cbn [orb].
    assert ((delay + factor * (Z.of_nat len - 1) + 1 - delay + factor - 1) / factor = Z.of_nat len) as ->
      by (symmetry; apply (Z.div_unique_pos _ _ _ 0); lia).
    rewrite Z.eqb_refl. cbn [RTC_DCHECK].
    destruct (for_wr (Z.of_nat len) (fun c (_ : list Z) => o ← fir_sum B (Z.of_nat n) inp (base + (delay + c * factor)) 2048;
        Some (WebRtcSpl_SatW32ToW16 (o ≫ 12)))
      (fun i => q12_round (fir_exact B inp n (base + delay + i * factor))) out) as (out' & E & H); [lia| |].
    + intros i o Hi'. rewrite fir_sum_exact by (done || nia). bind_simpl.
      rewrite SatW32ToW16_clamp, shiftr_div, Z.add_assoc by lia. unfold q12_round. do 3 f_equal. lia.
    + exists out'. split; [|done]. rewrite (for_opt_ext _ (fun c out =>
        y ← (o ← fir_sum B (Z.of_nat n) inp (base + (delay + c * factor)) 2048;
             Some (WebRtcSpl_SatW32ToW16 (o ≫ 12))); wr out c y)), E; [done|].
      intros j o Hj. rewrite fir_sum_exact by (done || nia). done.
Qed.

Lemma fir_filters_exact_witness :
  (exists o, WebRtcSpl_FilterMAFastQ12 [100; -200; 300; 32767] 2 [0; 0; 7] [4096; -2048; 1024] 3 2 = Some o /\
     arr o 0 = 425 /\ arr o 1 = 32567 /\ arr o 2 = 7) /\
  (exists o, WebRtcSpl_DownsampleFastC [100; -200; 300; 32767] 2 2 [0; 7] 1 [4096; -2048; 1024] 3 2 1 = Some (0, o) /\
     arr o 0 = 32567 /\ arr o 1 = 7).
Proof.
  assert (Forall is_i16 [100; -200; 300; 32767]) as H1 by (repeat constructor; vm_compute; intuition discriminate).
  assert (Forall is_i16 [4096; -2048; 1024]) as H2 by (repeat constructor; vm_compute; intuition discriminate).
  split.
  - destruct (fir_filters_exact [100; -200; 300; 32767] 2 [0; 0; 7] [4096; -2048; 1024] 3 2 1 0 2 H1 H2
      ltac:(simpl; lia) ltac:(vm_compute; discriminate) ltac:(simpl; lia) ltac:(done) ltac:(lia) ltac:(lia) ltac:(lia))
      as (H & _). destruct H as (o & E & _ & C & T); [lia|simpl; lia|]. exists o. split; [exact E|].
    rewrite !C, T by lia. vm_compute. done.
  - destruct (fir_filters_exact [100; -200; 300; 32767] 2 [0; 7] [4096; -2048; 1024] 3 1 2 1 2 H1 H2
      ltac:(simpl; lia) ltac:(vm_compute; discriminate) ltac:(simpl; lia) ltac:(done) ltac:(lia) ltac:(lia) ltac:(lia))
      as (_ & _ & H). destruct H as (o & E & _ & C & T); [lia|lia|lia|lia|simpl; lia|]. exists o. split; [exact E|].
    rewrite C, T by lia. vm_compute. done.
Defined.

(** ** Autoregressive filters *)

Lemma zsum_rev f n : zsum (fun j => f (Z.of_nat n - 1 - j)) n = zsum f n.
Proof.
  revert f. induction n as [|n IH]; intros f; [done|]. rewrite zsum_head. cbn [zsum].
  rewrite <-(IH f). rewrite Z.add_comm. f_equal; [|f_equal; lia].
  apply zsum_ext. intros i Hi. f_equal. lia.
Qed.

(** The feedback sum of the saturating filter. *)
Definition ar_feedback (c y : list Z) (n : nat) (p : Z) : Z :=
  zsum (fun k => arr c (k + 1) * arr y (p - (k + 1))) n.

Lemma zsum_abs f B n : (forall j, 0 <= j < Z.of_nat n -> Z.abs (f j) <= B) -> 0 <= B ->
  Z.abs (zsum f n) <= B * Z.of_nat n.
Proof.
  intros H HB. induction n as [|n IH]; cbn [zsum]; [lia|].
  specialize (IH ltac:(intros; apply H; lia)). specialize (H (Z.of_nat n) ltac:(lia)). lia.
Qed.

Lemma ar_sum_exact c n y p : Forall is_i16 c -> Forall is_i16 y -> (n < length c)%nat -> Z.of_nat n < 2 ^ 31 ->
  Z.of_nat n <= p <= Z.of_nat (length y) ->
  ar_fast_sum c (Z.of_nat (S n)) y p = Some (ar_feedback c y n p) /\
  Z.abs (ar_feedback c y n p) <= 2 ^ 61.
Proof.
  intros Hc Hy Hn Hn' Hp.
  assert (forall k, Z.abs (arr c k * arr y (p - k)) <= 2 ^ 30) as Hb.
  { intros k. assert (is_i16 (arr c k) /\ is_i16 (arr y (p - k))) as [H1 H2]
      by (split; apply arr_Forall; (done || (unfold is_i16; lia))). pose proof (mul_i16 _ _ H1 H2). lia. }
  assert (forall m (f : Z -> Z), (m <= n)%nat -> Z.abs (zsum (fun j => arr c (f j) * arr y (p - f j)) m) <= 2 ^ 61) as Hs.
  { intros m f Hm. transitivity (2 ^ 30 * Z.of_nat m); [|lia]. apply zsum_abs; [intros; apply Hb|lia]. }
  split; [|apply (Hs n (fun k => k + 1)); lia]. unfold ar_fast_sum.
  destruct (for_opt_ind (fun j s => s = zsum (fun jj => arr c (Z.of_nat n - jj) * arr y (p - (Z.of_nat n - jj))) (Z.to_nat j))
    (fun jj sum => b ← rd c (Z.of_nat (S n) - 1 - jj); v ← rd y (p - (Z.of_nat (S n) - 1 - jj));
       Some (i64 (sum + i32 (b * v)))) (Z.of_nat (S n) - 1) 0) as (s & -> & ->).
  - lia.
  - reflexivity.
  - intros j s Hj ->. replace (Z.of_nat (S n) - 1 - j) with (Z.of_nat n - j) by lia.
    rewrite !rd_Some by lia. bind_simpl. eexists. split; [done|].
    specialize (Hb (Z.of_nat n - j)). rewrite (i32_id (_ * _)) by (unfold is_i32; lia).
    pose proof (Hs (Z.to_nat (j + 1)) (fun jj => Z.of_nat n - jj) ltac:(lia)) as Hs'.
    rewrite zsum_snoc in Hs' |- * by lia. apply i64_id. unfold is_i64. lia.
  - f_equal. replace (Z.to_nat (Z.of_nat (S n) - 1)) with n by lia. unfold ar_feedback.
    rewrite <-(zsum_rev (fun k => arr c (k + 1) * arr y (p - (k + 1)))). apply zsum_ext. intros i Hi.
    do 2 f_equal; [lia|f_equal; lia].
Qed.

Lemma sat_q12_64 o : i16 (i64 (WEBRTC_SPL_SAT 134215679 o (-134217728) + 2048) ≫ 12) = q12_round o.
Proof.
  rewrite <-sat_q12. f_equal. f_equal. rewrite SAT_clamp by lia. unfold clamp.
  rewrite i64_id, i32_id by (unfold is_i32, is_i64; lia). done.
Qed.

(** The loop of the saturating filter. *)
Lemma ar_fast_spec c x y base (n len : nat) : Forall is_i16 c -> Forall is_i16 x -> Forall is_i16 y ->
  (1 <= n < length c)%nat -> Z.of_nat n < 2 ^ 31 -> (1 <= len <= length x)%nat ->
  Z.of_nat n <= base -> base + Z.of_nat len <= Z.of_nat (length y) ->
  exists y', WebRtcSpl_FilterARFastQ12 x y base c (Z.of_nat (S n)) (Z.of_nat len) = Some y' /\
    length y' = length y /\ Forall is_i16 y' /\
    (forall i, 0 <= i < Z.of_nat len ->
      arr y' (base + i) = q12_round (arr c 0 * arr x i - ar_feedback c y' n (base + i))) /\
    (forall i, 0 <= i -> i < base \/ base + Z.of_nat len <= i -> arr y' i = arr y i).
Proof.
  intros Hc Hx Hy Hn Hn' Hlx Hb Hly. unfold WebRtcSpl_FilterARFastQ12. 
  rewrite (RTC_DCHECK_true (0 <? _)), (RTC_DCHECK_true (1 <? _)) by (apply Z.ltb_lt; lia).
  destruct (for_opt_ind (fun k (o : list Z) => length o = length y /\ Forall is_i16 o /\
      (forall i, 0 <= i < k ->
        arr o (base + i) = q12_round (arr c 0 * arr x i - ar_feedback c o n (base + i))) /\
      (forall i, 0 <= i -> i < base \/ base + k <= i -> arr o i = arr y i))
    (ar_fast_step x base c (Z.of_nat (S n))) (Z.of_nat len) y) as (y' & -> & H); [lia| | |by exists y'].
  - split; [done|]. split; [done|]. split; [lia|done].
  - intros k o Hk (HL & HF & HC & HT).
    destruct (ar_sum_exact c n o (base + k) Hc HF (proj2 Hn) Hn' ltac:(lia)) as [Es Hs].
    unfold ar_fast_step.
    rewrite Es. bind_simpl. rewrite !rd_Some by lia. bind_simpl. cbn zeta.
    assert (is_i16 (arr c 0) /\ is_i16 (arr x k)) as [H1 H2]
      by (split; apply arr_Forall; (done || (unfold is_i16; lia))).
    pose proof (mul_i16 _ _ H1 H2). rewrite (i32_id (_ * _)), (i64_id (_ - _)) by (unfold is_i32, is_i64; lia).
    rewrite sat_q12_64, wr_Some by lia. eexists. split; [done|]. rewrite length_upd. split; [done|].
    assert (forall v m, 0 <= m <= k -> ar_feedback c (upd o (base + k) v) n (base + m) = ar_feedback c o n (base + m)) as Hfb.
    { intros v m Hm. apply zsum_ext. intros i Hi. f_equal. apply arr_upd_ne; lia. }
    split; [|split].
    + apply Forall_upd; [done|]. unfold is_i16, q12_round, clamp. lia.
    + intros i Hi. rewrite Hfb by lia. destruct (decide (i = k)) as [->|]; [by rewrite arr_upd_eq by lia|].
      rewrite arr_upd_ne by lia. apply HC. lia.
    + intros i Hi0 Hi. rewrite arr_upd_ne by lia. apply HT; lia.
Qed.



(** ** The autoregressive filter with high precision

    The history of a signal is the function that gives the samples, in both
    parts, from the most recent one back. *)

(** The accumulations over the [n] most recent samples. *)
Fixpoint ar_acc (c : Z -> Z) (h : Z -> Z * Z) (n : nat) (acc : Z * Z) : Z * Z :=
  match n with
  | O => acc
  | S n => let k := Z.of_nat n in ar_term (c k) (h k).1 (h k).2 (ar_acc c h n acc)
  end.

Definition ar_sample (c : Z -> Z) (h : Z -> Z * Z) (n : nat) (x : Z) : Z * Z :=
  ar_output (ar_acc c h n (i64 (i32 (x * 2 ^ 12)), 0)).

(** The history after the first [i] of the new samples [ys]. *)
Definition history (h0 : Z -> Z * Z) (ys : list (Z * Z)) (i k : Z) : Z * Z :=
  if k <? i then nth (Z.to_nat (i - 1 - k)) ys (0, 0) else h0 (k - i).

(** [ys] is the filtered signal [xs] after the history [h0]. *)
Definition ar_signal (c : Z -> Z) (n : nat) (h0 : Z -> Z * Z) (xs : list Z) (ys : list (Z * Z)) : Prop :=
  length ys = length xs /\
  forall i : nat, (i < length xs)%nat ->
    nth i ys (0, 0) = ar_sample c (history h0 ys (Z.of_nat i)) n (nth i xs 0).

Lemma ar_acc_ext c h h' n acc : (forall k, 0 <= k < Z.of_nat n -> h k = h' k) ->
  ar_acc c h n acc = ar_acc c h' n acc.
Proof.
  induction n as [|n IH]; intros E; [done|]. cbn [ar_acc]. cbn zeta. rewrite IH, E by (intros; apply E || lia; lia).
  done.
Qed.

Lemma ar_sample_ext c h h' n x : (forall k, 0 <= k < Z.of_nat n -> h k = h' k) ->
  ar_sample c h n x = ar_sample c h' n x.
Proof. intros E. unfold ar_sample. f_equal. by apply ar_acc_ext. Qed.

(** The difference equation determines the signal. *)
Lemma ar_signal_unique c n h0 xs ys ys' : ar_signal c n h0 xs ys -> ar_signal c n h0 xs ys' -> ys = ys'.
Proof.
  intros [L H] [L' H']. apply (nth_ext _ _ (0, 0) (0, 0)); [congruence|]. intros i. rewrite L.
  induction i as [i IH] using lt_wf_ind. intros Hi. rewrite H, H' by done. apply ar_sample_ext. intros k Hk.
  unfold history. destruct (Z.ltb_spec k (Z.of_nat i)); [|done]. apply IH; lia.
Qed.

(** A signal continued from where its first part left the history. *)
Lemma ar_signal_app c n h0 h1 xs1 xs2 ys1 ys2 : ar_signal c n h0 xs1 ys1 -> ar_signal c n h1 xs2 ys2 ->
  (forall k, 0 <= k < Z.of_nat n -> h1 k = history h0 ys1 (Z.of_nat (length xs1)) k) ->
  ar_signal c n h0 (xs1 ++ xs2) (ys1 ++ ys2).
Proof.
  intros [L1 H1] [L2 H2] Hh. split; [rewrite !length_app; lia|]. intros i Hi. rewrite length_app in Hi.
  destruct (decide (i < length xs1)%nat) as [Hl|Hge].
  - rewrite !app_nth1 by lia. rewrite H1 by done. apply ar_sample_ext. intros k Hk. unfold history.
    destruct (Z.ltb_spec k (Z.of_nat i)); [|done]. by rewrite app_nth1 by lia.
  - rewrite !app_nth2 by lia. rewrite L1, H2 by lia. apply ar_sample_ext. intros k Hk. unfold history.
    destruct (Z.ltb_spec k (Z.of_nat (i - length xs1))).
    + rewrite (proj2 (Z.ltb_lt _ _)), app_nth2 by lia. f_equal. lia.
    + rewrite Hh by lia. unfold history. destruct (Z.ltb_spec (k - Z.of_nat (i - length xs1)) (Z.of_nat (length xs1))).
      * rewrite (proj2 (Z.ltb_lt _ _)), app_nth1 by lia. f_equal. lia.
      * rewrite (proj2 (Z.ltb_ge _ _)) by lia. f_equal. lia.
Qed.

Lemma map_nth_lt {A} (f : A -> Z) l i d : (i < length l)%nat -> nth i (map f l) 0 = f (nth i l d).
Proof. intros Hi. rewrite (nth_indep _ 0 (f d)) by (by rewrite length_map). apply map_nth. Qed.

Section HighPrecision.
Context (a : list Z) (N : nat) (HN : (S N <= length a)%nat).

(** The coefficient of the sample [k] steps before the last. *)
Definition ar_coef (k : Z) : Z := arr a (1 + k).
(** The history that the state arrays hold. *)
Definition saved (state state_low : list Z) (k : Z) : Z * Z :=
  (arr state (Z.of_nat N - 1 - k), arr state_low (Z.of_nat N - 1 - k)).

(** [m] terms of the accumulation, in a loop. *)
Lemma ar_loop (off : Z) (m : nat) (h : Z -> Z * Z) (f g : Z -> option Z) p acc : 0 <= p ->
  off = 1 + p -> p + Z.of_nat m <= Z.of_nat N ->
  (forall k, 0 <= k < Z.of_nat m -> f k = Some (h (p + k)).1 /\ g k = Some (h (p + k)).2) ->
  for_opt (Z.of_nat m) (fun jj acc =>
    c ← rd a (off + jj); hi ← f jj; lo ← g jj; Some (ar_term c hi lo acc)) (ar_acc ar_coef h (Z.to_nat p) acc)
  = Some (ar_acc ar_coef h (Z.to_nat p + m) acc).
Proof.
  intros Hp -> Hm Hfg.
  destruct (for_opt_ind (fun k r => r = ar_acc ar_coef h (Z.to_nat (p + k)) acc)
    (fun jj acc => c ← rd a (1 + p + jj); hi ← f jj; lo ← g jj; Some (ar_term c hi lo acc))
    (Z.of_nat m) (ar_acc ar_coef h (Z.to_nat p) acc)) as (r & -> & ->).
  - lia.
  - by rewrite Z.add_0_r.
  - intros k r Hk ->. destruct (Hfg k Hk) as [-> ->]. rewrite rd_Some by lia. bind_simpl.
    eexists. split; [done|]. replace (Z.to_nat (p + (k + 1))) with (S (Z.to_nat (p + k))) by lia.
    cbn [ar_acc]. cbn zeta. rewrite Z2Nat.id by lia. unfold ar_coef. by rewrite Z.add_assoc.
  - do 3 f_equal. lia.
Qed.

(** Cells [0 .. i - 1] of the output arrays hold the samples [ys]. *)
Definition holds (filtered filtered_low : list Z) (ys : list (Z * Z)) : Prop :=
  forall k, 0 <= k < Z.of_nat (length ys) ->
    (arr filtered k, arr filtered_low k) = nth (Z.to_nat k) ys (0, 0).

Lemma ar_sums_spec state state_low fi fl ys i x : length state = N -> length state_low = N -> i < 2 ^ 31 ->
  i = Z.of_nat (length ys) -> holds fi fl ys -> i <= Z.of_nat (length fi) -> i <= Z.of_nat (length fl) ->
  ar_sums a (Z.of_nat (S N)) state state_low (Z.of_nat N) fi fl i x
  = Some (ar_acc ar_coef (history (saved state state_low) ys i) N (i64 (i32 (x * 2 ^ 12)), 0)).
Proof.
  intros Ls Ll Hi -> Hh Hfi Hfl. unfold ar_sums. set (acc := (_, 0)). set (h := history _ ys _).
  set (m := Nat.min (length ys) N).
  assert ((if Z.of_nat (length ys) <? Z.of_nat (S N) then Z.of_nat (length ys) + 1 else Z.of_nat (S N))
          = Z.of_nat m + 1) as -> by (destruct (Z.ltb_spec (Z.of_nat (length ys)) (Z.of_nat (S N))); lia).
  replace (Z.of_nat m + 1 - 1) with (Z.of_nat m) by lia.
  rewrite (for_opt_ext _ (fun jj acc => c ← rd a (1 + jj); hi ← rd fi (Z.of_nat (length ys) - 1 - jj);
    lo ← rd fl (Z.of_nat (length ys) - 1 - jj); Some (ar_term c hi lo acc))).
  2: { intros jj r Hjj. rewrite (i32_id (Z.of_nat _)), i32_id by (unfold is_i32; lia). by rewrite RTC_DCHECK_true by lia. }
  pose proof (ar_loop 1 m h (fun jj => rd fi (Z.of_nat (length ys) - 1 - jj)) (fun jj => rd fl (Z.of_nat (length ys) - 1 - jj)) 0 acc) as E1.
  change (ar_acc ar_coef h (Z.to_nat 0) acc) with acc in E1. rewrite E1; [clear E1|lia|lia|lia|].
  2: { intros k Hk. rewrite !rd_Some by lia. rewrite Z.add_0_l. unfold h, history. rewrite (proj2 (Z.ltb_lt _ _)) by lia.
       rewrite <-(Hh (Z.of_nat (length ys) - 1 - k)) by lia. done. }
  bind_simpl. replace (Z.of_nat (S N) - (Z.of_nat (length ys) + 1)) with (Z.of_nat N - Z.of_nat (length ys)) by lia.
  destruct (decide (length ys < N)%nat) as [Hl|Hge].
  - assert (m = length ys) as -> by lia.
    replace (Z.of_nat N - Z.of_nat (length ys)) with (Z.of_nat (N - length ys)) by lia.
    rewrite (Z.max_r 0) by lia. change (Z.to_nat 0 + length ys)%nat with (length ys).
    rewrite <-(Nat2Z.id (length ys)) at 2.
    rewrite (ar_loop _ (N - length ys) h (fun jj => rd state (Z.of_nat N - 1 - jj)) (fun jj => rd state_low (Z.of_nat N - 1 - jj))
      (Z.of_nat (length ys)) acc); [|lia|lia|lia|].
    + do 2 f_equal. lia.
    + intros k Hk. rewrite !rd_Some by lia. unfold h, history. rewrite (proj2 (Z.ltb_ge _ _)) by lia. unfold saved.
      cbn [fst snd]. by replace (Z.of_nat (length ys) + k - Z.of_nat (length ys)) with k by lia.
  - assert (m = N) as -> by lia. unfold for_opt.
    replace (Z.to_nat (Z.of_nat N - Z.of_nat (length ys))) with 0%nat by lia. done.
Qed.

Lemma ar_save_spec fi state n : length state = N -> (n <= length fi)%nat -> exists s',
  ar_save fi (Z.of_nat n) (Z.of_nat (S N)) state (Z.of_nat N) = Some s' /\ length s' = N /\
  forall k, 0 <= k < Z.of_nat N -> arr s' (Z.of_nat N - 1 - k)
    = if k <? Z.of_nat n then arr fi (Z.of_nat n - 1 - k) else arr state (Z.of_nat N - 1 - (k - Z.of_nat n)).
Proof.
  intros Ls Hn. unfold ar_save. destruct (Z.leb_spec (Z.of_nat N) (Z.of_nat n)).
  - unfold WebRtcSpl_CopyFromEndW16. replace (Z.of_nat (S N) - 1) with (Z.of_nat N) by lia.
    rewrite mem_read_Some by lia. bind_simpl. set (bs := take _ _).
    assert (length bs = N) as Lb by (unfold bs; rewrite length_take, length_drop; lia).
    rewrite mem_write_Some by lia. rewrite Lb. change (take (Z.to_nat 0) state) with (@nil Z).
    rewrite drop_ge, app_nil_r by lia. cbn [app]. exists bs. split; [done|]. split; [done|]. intros k Hk.
    rewrite (proj2 (Z.ltb_lt _ _)) by lia. unfold arr, bs. rewrite !nth_lookup, lookup_take_lt, lookup_drop by lia.
    do 2 f_equal. lia.
  - destruct (for_opt_ind (fun j (s : list Z) => length s = N /\ forall q, 0 <= q < Z.of_nat N ->
        arr s q = arr state (if q <? j then q + Z.of_nat n else q))
      (fun i s => v ← rd s (i + Z.of_nat n); wr s i v) (Z.of_nat N - Z.of_nat n) state) as (s1 & -> & L1 & C1).
    + lia.
    + split; [done|]. intros q Hq. by rewrite (proj2 (Z.ltb_ge _ _)) by lia.
    + intros j s Hj [L C]. rewrite rd_Some by lia. bind_simpl. rewrite wr_Some by lia. eexists. split; [done|].
      rewrite length_upd. split; [done|]. intros q Hq. destruct (decide (q = j)) as [->|].
      * rewrite arr_upd_eq, C, (proj2 (Z.ltb_ge _ j)), (proj2 (Z.ltb_lt j _)) by lia. done.
      * rewrite arr_upd_ne, C by lia. f_equal. destruct (Z.ltb_spec q j), (Z.ltb_spec q (j + 1)); lia.
    + bind_simpl. destruct (for_opt_ind (fun j (s : list Z) => length s = N /\ forall q, 0 <= q < Z.of_nat N ->
          arr s q = if (Z.of_nat N - Z.of_nat n <=? q) && (q <? Z.of_nat N - Z.of_nat n + j)
                    then arr fi (q - (Z.of_nat N - Z.of_nat n)) else arr s1 q)
        (fun i s => v ← rd fi i; wr s (Z.of_nat N - Z.of_nat n + i) v) (Z.of_nat n) s1) as (s2 & -> & L2 & C2).
      * lia.
      * split; [done|]. intros q Hq. destruct (Z.leb_spec (Z.of_nat N - Z.of_nat n) q); [|done].
        by rewrite (proj2 (Z.ltb_ge _ _)) by lia.
      * intros j s Hj [L C]. rewrite rd_Some by lia. bind_simpl. rewrite wr_Some by lia. eexists. split; [done|].
        rewrite length_upd. split; [done|]. intros q Hq.
        destruct (decide (q = Z.of_nat N - Z.of_nat n + j)) as [->|].
        -- rewrite arr_upd_eq, (proj2 (Z.leb_le _ _)), (proj2 (Z.ltb_lt _ _)) by lia. cbn [andb]. f_equal. lia.
        -- rewrite arr_upd_ne, C by lia.
           destruct (Z.leb_spec (Z.of_nat N - Z.of_nat n) q), (Z.ltb_spec q (Z.of_nat N - Z.of_nat n + j)),
             (Z.ltb_spec q (Z.of_nat N - Z.of_nat n + (j + 1))); (done || lia).
      * exists s2. split; [done|]. split; [done|]. intros k Hk. rewrite C2 by lia.
        destruct (Z.ltb_spec k (Z.of_nat n)).
        -- rewrite (proj2 (Z.leb_le _ _)), (proj2 (Z.ltb_lt _ _)) by lia. cbn [andb]. f_equal. lia.
        -- rewrite (proj2 (Z.leb_gt _ _)) by lia. cbn [andb]. rewrite C1, (proj2 (Z.ltb_lt _ _)) by lia. f_equal. lia.
Qed.

(** The call in full: [filtered] and [filtered_low] are the two parts of the
    signal of the difference equation, and the new state holds its end. *)
Lemma FilterAR_spec xs state state_low fi fl : Z.of_nat (length xs) < 2 ^ 31 -> length state = N -> length state_low = N ->
  length fi = length xs -> length fl = length xs ->
  exists ys state' state_low',
    WebRtcSpl_FilterAR a (Z.of_nat (S N)) xs (Z.of_nat (length xs)) state (Z.of_nat N) state_low fi fl
      = Some (state', state_low', map fst ys, map snd ys) /\
    ar_signal ar_coef N (saved state state_low) xs ys /\
    length state' = N /\ length state_low' = N /\
    forall k, 0 <= k < Z.of_nat N ->
      saved state' state_low' k = history (saved state state_low) ys (Z.of_nat (length xs)) k.
Proof.
  intros Hxs Ls Ll Lf Lfl. unfold WebRtcSpl_FilterAR.
  destruct (for_opt_ind (fun i (s : list Z * list Z) => length s.1 = length xs /\ length s.2 = length xs /\
      exists ys, Z.of_nat (length ys) = i /\ holds s.1 s.2 ys /\
        ar_signal ar_coef N (saved state state_low) (take (Z.to_nat i) xs) ys)
    (fun i '(filtered, filtered_low) => v ← rd xs i;
      acc ← ar_sums a (Z.of_nat (S N)) state state_low (Z.of_nat N) filtered filtered_low i v;
      let '(hi, lo) := ar_output acc in
      filtered ← wr filtered i hi; filtered_low ← wr filtered_low i lo; Some (filtered, filtered_low))
    (Z.of_nat (length xs)) (fi, fl)) as ([f1 f2] & -> & L1 & L2 & ys & Ly & Hh & Hy).
  - lia.
  - split; [done|]. split; [done|]. exists []. split; [done|]. split; [intros k Hk; simpl in Hk; lia|].
    split; [done|]. intros i Hi. simpl in Hi. lia.
  - intros i [f1 f2] Hi (L1 & L2 & ys & Ly & Hh & HL & Hy). cbn [fst snd] in *. subst i. rewrite Nat2Z.id in *.
    rewrite rd_Some by lia. bind_simpl. rewrite (ar_sums_spec state state_low f1 f2 ys) by (done || lia). bind_simpl.
    set (y := ar_output _).
    assert (y = ar_sample ar_coef (history (saved state state_low) ys (Z.of_nat (length ys))) N
      (arr xs (Z.of_nat (length ys)))) as Ey by done.
    clearbody y. destruct y as [hi lo]. rewrite !wr_Some by lia. bind_simpl. eexists. split; [done|]. cbn [fst snd].
    rewrite !length_upd. split; [done|]. split; [done|]. exists (ys ++ [(hi, lo)]).
    rewrite length_app. simpl length. split; [lia|]. split.
    + intros k Hk. rewrite length_app in Hk. simpl length in Hk. destruct (decide (k = Z.of_nat (length ys))) as [->|].
      * rewrite !arr_upd_eq, app_nth2 by lia. by replace (_ - _)%nat with 0%nat by lia.
      * rewrite !arr_upd_ne, app_nth1 by lia. apply Hh. lia.
    + replace (Z.to_nat (Z.of_nat (length ys) + 1)) with (S (length ys)) by lia.
      destruct (lookup_lt_is_Some_2 xs (length ys) ltac:(lia)) as [x Hx]. rewrite (take_S_r _ _ _ Hx).
      assert (arr xs (Z.of_nat (length ys)) = x) as Ex by (unfold arr; by rewrite nth_lookup, Nat2Z.id, Hx).
      rewrite Ex in Ey. apply (ar_signal_app _ _ _ (history (saved state state_low) ys (Z.of_nat (length ys)))).
      * by split.
      * split; [done|]. intros j Hj. simpl in Hj. replace j with 0%nat by lia. cbn [nth]. rewrite Ey.
        apply ar_sample_ext. intros k Hk. unfold history at 2. rewrite (proj2 (Z.ltb_ge k _)) by lia. f_equal. lia.
      * intros k Hk. f_equal. rewrite length_take. lia.
  - bind_simpl. cbn [fst snd] in *. rewrite Nat2Z.id, take_ge in Hy by lia.
    destruct (ar_save_spec f1 state (length xs) Ls ltac:(lia)) as (s1 & -> & M1 & C1). bind_simpl.
    destruct (ar_save_spec f2 state_low (length xs) Ll ltac:(lia)) as (s2 & -> & M2 & C2). bind_simpl.
    exists ys, s1, s2. split; [|split; [done|split; [done|split; [done|] ] ] ].
    + do 2 f_equal; [f_equal|]; apply (nth_ext _ _ 0 0); rewrite ?length_map; try lia; intros k Hk.
      * rewrite (map_nth_lt fst _ _ (0, 0)) by lia. rewrite <-(Nat2Z.id k), <-Hh by lia. done.
      * rewrite (map_nth_lt snd _ _ (0, 0)) by lia. rewrite <-(Nat2Z.id k), <-Hh by lia. done.
    + intros k Hk. unfold saved at 1, history. rewrite C1, C2 by done.
      destruct (Z.ltb_spec k (Z.of_nat (length xs))); [|done]. rewrite <-Hh by lia. done.
Qed.
End HighPrecision.

Lemma saved_inj N s t s' t' : length s = N -> length t = N -> length s' = N -> length t' = N ->
  (forall k, 0 <= k < Z.of_nat N -> saved N s t k = saved N s' t' k) -> s = s' /\ t = t'.
Proof.
  intros L1 L2 L3 L4 H.
  assert (forall i : nat, (i < N)%nat -> nth i s 0 = nth i s' 0 /\ nth i t 0 = nth i t' 0) as Hn.
  { intros i Hi. specialize (H (Z.of_nat N - 1 - Z.of_nat i) ltac:(lia)). unfold saved, arr in H.
    replace (Z.of_nat N - 1 - (Z.of_nat N - 1 - Z.of_nat i)) with (Z.of_nat i) in H by lia.
    rewrite Nat2Z.id in H. by injection H. }
  split; apply (nth_ext _ _ 0 0); try congruence; intros i Hi; apply Hn; lia.
Qed.

(** C23: The high-precision autoregressive filter may be fed a signal in pieces:
    for any coefficients, input and state, one call on a concatenation and two
    calls that pass the state on return the same samples, in both parts, and
    leave the same state, whatever the sizes of the pieces, as long as they have
    fewer than [2^31] samples together, the range of the index the function
    counts with.  The samples are those of the difference equation over the saved history. *)
Theorem ar_filter_streaming a N x1 x2 state state_low f1 l1 f2 l2 f l :
  (S N <= length a)%nat -> length state = N -> length state_low = N ->
  length f1 = length x1 -> length l1 = length x1 -> length f2 = length x2 -> length l2 = length x2 ->
  length f = length (x1 ++ x2) -> length l = length (x1 ++ x2) -> Z.of_nat (length (x1 ++ x2)) < 2 ^ 31 ->
  let filter x state state_low f l :=
    WebRtcSpl_FilterAR a (Z.of_nat (S N)) x (Z.of_nat (length x)) state (Z.of_nat N) state_low f l in
  exists s1 t1 o1 p1 s2 t2 o2 p2 ys,
    filter x1 state state_low f1 l1 = Some (s1, t1, o1, p1) /\
    filter x2 s1 t1 f2 l2 = Some (s2, t2, o2, p2) /\
    filter (x1 ++ x2) state state_low f l = Some (s2, t2, o1 ++ o2, p1 ++ p2) /\
    ar_signal (ar_coef a) N (saved N state state_low) (x1 ++ x2) ys /\
    o1 ++ o2 = map fst ys /\ p1 ++ p2 = map snd ys.
Proof.
  intros Ha Ls Lt L1 L2 L3 L4 L5 L6 L7. cbn zeta. pose proof (length_app x1 x2) as Lx.
  destruct (FilterAR_spec a N Ha x1 state state_low f1 l1 ltac:(lia) Ls Lt L1 L2) as (y1 & s1 & t1 & E1 & H1 & M1 & M1' & C1).
  destruct (FilterAR_spec a N Ha x2 s1 t1 f2 l2 ltac:(lia) M1 M1' L3 L4) as (y2 & s2 & t2 & E2 & H2 & M2 & M2' & C2).
  destruct (FilterAR_spec a N Ha (x1 ++ x2) state state_low f l L7 Ls Lt L5 L6) as (y & s & t & E & H & M & M' & C).
  pose proof (ar_signal_app _ _ _ _ _ _ _ _ H1 H2 C1) as Happ.
  pose proof (ar_signal_unique _ _ _ _ _ _ H Happ) as ->.
  assert (s = s2 /\ t = t2) as [-> ->].
  { apply (saved_inj N); try done. intros k Hk. rewrite C, C2 by done. unfold history. rewrite length_app.
    destruct H1 as [G1 _], H2 as [G2 _]. destruct (Z.ltb_spec k (Z.of_nat (length x2))).
    - rewrite (proj2 (Z.ltb_lt _ _)), app_nth2 by lia. f_equal. lia.
    - rewrite C1 by lia. unfold history. destruct (Z.ltb_spec (k - Z.of_nat (length x2)) (Z.of_nat (length x1))).
      + rewrite (proj2 (Z.ltb_lt _ _)), app_nth1 by lia. f_equal. lia.
      + rewrite (proj2 (Z.ltb_ge _ _)) by lia. f_equal. lia. }
  exists s1, t1, (map fst y1), (map snd y1), s2, t2, (map fst y2), (map snd y2), (y1 ++ y2).
  rewrite E, !map_app. done.
Qed.

Lemma ar_filter_streaming_witness : exists s1 t1 o1 p1 s2 t2 o2 p2,
  WebRtcSpl_FilterAR [4096; -3000; 1500] 3 [1000] 1 [5; 6] 2 [1; 2] [0] [0] = Some (s1, t1, o1, p1) /\
  WebRtcSpl_FilterAR [4096; -3000; 1500] 3 [-77; 8; 9] 3 s1 2 t1 [0; 0; 0] [0; 0; 0] = Some (s2, t2, o2, p2) /\
  WebRtcSpl_FilterAR [4096; -3000; 1500] 3 [1000; -77; 8; 9] 4 [5; 6] 2 [1; 2] [0; 0; 0; 0] [0; 0; 0; 0]
    = Some (s2, t2, o1 ++ o2, p1 ++ p2).
Proof.
  destruct (ar_filter_streaming [4096; -3000; 1500] 2 [1000] [-77; 8; 9] [5; 6] [1; 2] [0] [0] [0; 0; 0] [0; 0; 0]
    [0; 0; 0; 0] [0; 0; 0; 0]) as (s1 & t1 & o1 & p1 & s2 & t2 & o2 & p2 & ys & H1 & H2 & H3 & _); try (simpl; lia).
  exists s1, t1, o1, p1, s2, t2, o2, p2. split; [exact H1|]. split; [exact H2|exact H3].
Defined.

(** ** The Hanning window *)

Definition hanning_start (size : Z) : Z := if size <? 513 then -0x200000 else -0x100000.

Lemma hanning_factor size : 1 <= size <= 32767 ->
  WebRtcSpl_DivW32W16 0x40000000 (i16 size) = 1073741824 / size.
Proof.
  intros Hs. rewrite i16_id by (unfold is_i16; lia). unfold WebRtcSpl_DivW32W16.
  rewrite (proj2 (Z.eqb_neq size 0)) by lia. cbn [negb]. change 0x40000000 with 1073741824.
  rewrite Z.quot_div_nonneg by lia. apply i32_id. unfold is_i32.
  split; [transitivity 0; [lia|apply Z.div_pos; lia]|apply Z.div_lt_upper_bound; lia].
Qed.

Lemma hanning_table_ok : sortedb kHanningTable = true /\ length kHanningTable = 256%nat /\
  arr kHanningTable 0 = 1 /\ arr kHanningTable 255 = 16384.
Proof. repeat split; reflexivity. Qed.

(** The Hanning window: for every size up to 1024 (the header promises 512)
    the table is read inside its bounds and the window is nondecreasing, within
    1 and 16384, with the cells after it unchanged; for every larger size that
    fits 16 bits the first access is before the table. *)
Theorem hanning_window v size : 1 <= size <= 32767 -> size <= Z.of_nat (length v) ->
  (size <= 1024 -> exists w, WebRtcSpl_GetHanningWindow v size = Some w /\ length w = length v /\
     (forall i j, 0 <= i <= j -> j < size -> 1 <= arr w i <= arr w j /\ arr w j <= 16384) /\
     (forall i, size <= i -> arr w i = arr v i)) /\
  (1024 < size -> WebRtcSpl_GetHanningWindow v size = None).
Proof.
  intros Hs Hv. unfold WebRtcSpl_GetHanningWindow. rewrite hanning_factor by done. cbn zeta.
  fold (hanning_start size). set (F := 1073741824 / size).
  assert (F * size <= 1073741824 < F * size + size) as HF by (unfold F; Z.div_mod_to_equations; lia).
  clearbody F. destruct hanning_table_ok as (Hsort & Hlen & H0 & H255). split.
  - intros Hs'. set (ix := fun j => (hanning_start size + (j + 1) * F) ≫ 22).
    assert (forall j, 0 <= j < size -> 0 <= hanning_start size + (j + 1) * F < 2 ^ 30 /\ 0 <= ix j <= 255) as Hix.
    { intros j Hj. unfold ix. rewrite shiftr_div by lia.
      assert (0 <= hanning_start size + (j + 1) * F < 256 * 2 ^ 22).
      { unfold hanning_start. destruct (Z.ltb_spec size 513); nia. }
      split; [lia|]. split; [apply Z.div_pos; lia|].
      apply Z.lt_succ_r, Z.div_lt_upper_bound; lia. }
    assert (forall i j, 0 <= i <= j -> j < size -> ix i <= ix j) as Hmono.
    { intros i j Hi Hj. unfold ix. rewrite !shiftr_div by lia. apply Z.div_le_mono; [lia|]. nia. }
    destruct (for_opt_ind (fun k (s : Z * list Z) => s.1 = hanning_start size + k * F /\ length s.2 = length v /\
        (forall i, 0 <= i < k -> arr s.2 i = arr kHanningTable (ix i)) /\ (forall i, k <= i -> arr s.2 i = arr v i))
      (fun jj '(index, v) => w ← rd kHanningTable (i32 (index + F) ≫ 22); v ← wr v jj w; Some (i32 (index + F), v))
      size (hanning_start size, v)) as ([ix' w] & -> & _ & L & C & T); [lia| | |].
    + cbn [fst snd]. split; [lia|]. split; [done|]. split; [lia|done].
    + intros k [index w] Hk (E & L & C & T). cbn [fst snd] in *. destruct (Hix k Hk) as [B1 B2].
      replace (index + F) with (hanning_start size + (k + 1) * F) by lia. rewrite i32_id by (unfold is_i32; lia).
      fold (ix k). rewrite rd_Some by lia. bind_simpl. rewrite wr_Some by lia. bind_simpl. eexists. split; [done|].
      cbn [fst snd]. rewrite length_upd. split; [done|]. split; [done|]. split; intros i Hi.
      * destruct (decide (i = k)) as [->|]; [by rewrite arr_upd_eq by lia|]. rewrite arr_upd_ne by lia. apply C. lia.
      * rewrite arr_upd_ne by lia. apply T. lia.
    + bind_simpl. cbn [fst snd] in *. exists w. split; [done|]. split; [done|]. split; [|done]. intros i j Hi Hj.
      rewrite !C by lia. specialize (Hmono i j Hi Hj).
      destruct (Hix i ltac:(lia)) as [_ Bi], (Hix j ltac:(lia)) as [_ Bj].
      pose proof (sortedb_arr _ 0 (ix i) Hsort ltac:(lia) ltac:(lia)).
      pose proof (sortedb_arr _ (ix i) (ix j) Hsort ltac:(lia) ltac:(lia)).
      pose proof (sortedb_arr _ (ix j) 255 Hsort ltac:(lia) ltac:(lia)). lia.
  - intros Hs'. unfold for_opt. destruct (Z.to_nat size) as [|m] eqn:Em; [lia|]. cbn [for_opt_from].
    assert (0 < F < 1048576) by nia. unfold hanning_start. rewrite (proj2 (Z.ltb_ge size 513)) by lia.
    rewrite i32_id by (unfold is_i32; lia). unfold rd. rewrite (proj2 (Z.leb_gt 0 _)); [done|].
    rewrite shiftr_div by lia. apply Z.div_lt_upper_bound; lia.
Qed.

Lemma hanning_window_witness : exists w, WebRtcSpl_GetHanningWindow [0; 0; 0; 0; 7] 4 = Some w /\
  arr w 0 <= arr w 3 /\ arr w 4 = 7 /\ arr w 3 <= 16384.
Proof.
  destruct (hanning_window [0; 0; 0; 0; 7] 4 ltac:(lia) ltac:(simpl; lia)) as [H _].
  destruct H as (w & E & _ & H & T); [lia|]. exists w. split; [exact E|].
  destruct (H 0 3 ltac:(lia) ltac:(lia)) as [H1 H2]. split; [lia|]. split; [|exact H2]. apply (T 4). lia.
Defined.
