(* ===== verification/SplQmf.v ===== *)
(** The quadrature mirror filter of the signal processing library:
    [splitting_filter.c] of [common_audio/signal_processing].

    The all-pass filter runs three first-order sections over a whole frame, each
    section from one of two buffers into the other; the buffers are local arrays
    that start with arbitrary contents.  The reference pushes one sample at a
    time through all sections, over exact integers.  The theorems show that both
    agree on every frame of 16-bit samples, from every state that earlier frames
    can have left: no difference saturates and no 32-bit sum wraps. *)
From S2P Require Import Prelude SplInl.

(** ** splitting_filter.c *)

Definition kMaxBandFrameLength : Z := 320.

Definition WebRtcSpl_kAllPassFilter1 : list Z := [6418; 36982; 57261].
Definition WebRtcSpl_kAllPassFilter2 : list Z := [21333; 49062; 63010].

(** One cascade: filter from [src] to [dst] with the state in the cells [k] and
    [k + 1]. *)
Definition all_pass_section (coefficient : Z) (src : list Z) (data_length : Z) (dst state : list Z)
  (k : Z) : option (list Z * list Z) :=
  x ← rd src 0; y1 ← rd state (k + 1); x1 ← rd state k;
  let diff := WebRtcSpl_SubSatW32 x y1 in
  dst ← wr dst 0 (WEBRTC_SPL_SCALEDIFF32 coefficient diff x1);
  dst ← for_opt (data_length - 1) (fun j dst =>
    let n := j + 1 in
    x ← rd src n; y1 ← rd dst (n - 1); x1 ← rd src (n - 1);
    let diff := WebRtcSpl_SubSatW32 x y1 in
    wr dst n (WEBRTC_SPL_SCALEDIFF32 coefficient diff x1)) dst;
  x ← rd src (data_length - 1);
  state ← wr state k x;
  y ← rd dst (data_length - 1);
  state ← wr state (k + 1) y;
  Some (dst, state).

(** The buffers [in_data] and [out_data] and the state after the call. *)
Definition WebRtcSpl_AllPassQMF (in_data : list Z) (data_length : Z)
  (out_data filter_coefficients filter_state : list Z) : option (list Z * list Z * list Z) :=
  c0 ← rd filter_coefficients 0;
  '(out_data, filter_state) ← all_pass_section c0 in_data data_length out_data filter_state 0;
  c1 ← rd filter_coefficients 1;
  '(in_data, filter_state) ← all_pass_section c1 out_data data_length in_data filter_state 2;
  c2 ← rd filter_coefficients 2;
  '(out_data, filter_state) ← all_pass_section c2 in_data data_length out_data filter_state 4;
  Some (in_data, out_data, filter_state).

(** The four local arrays of the two functions. *)
Record QmfBuffers := { half_in1 : list Z; half_in2 : list Z; filter1 : list Z; filter2 : list Z }.

(** Both bands and both states after the call. *)
Definition WebRtcSpl_AnalysisQMF (buffers : QmfBuffers) (in_data : list Z) (in_data_length : Z)
  (low_band high_band filter_state1 filter_state2 : list Z)
  : option (list Z * list Z * list Z * list Z) :=
  let band_length := in_data_length / 2 in
  _ ← RTC_DCHECK (in_data_length mod 2 =? 0);
  _ ← RTC_DCHECK (band_length <=? kMaxBandFrameLength);
  '(half_in1, half_in2) ← for_opt band_length (fun i '(half_in1, half_in2) =>
    let k := i16 (2 * i) in
    v ← rd in_data k; half_in2 ← wr half_in2 i (i32 (v * 2 ^ 10));
    v ← rd in_data (k + 1); half_in1 ← wr half_in1 i (i32 (v * 2 ^ 10));
    Some (half_in1, half_in2)) (buffers.(half_in1), buffers.(half_in2));
  '(_, filter1, filter_state1) ←
    WebRtcSpl_AllPassQMF half_in1 band_length buffers.(filter1) WebRtcSpl_kAllPassFilter1 filter_state1;
  '(_, filter2, filter_state2) ←
    WebRtcSpl_AllPassQMF half_in2 band_length buffers.(filter2) WebRtcSpl_kAllPassFilter2 filter_state2;
  '(low_band, high_band) ← for_opt band_length (fun i '(low_band, high_band) =>
    f1 ← rd filter1 i; f2 ← rd filter2 i;
    let tmp := i32 (i32 (f1 + f2) + 1024) ≫ 11 in
    low_band ← wr low_band i (WebRtcSpl_SatW32ToW16 tmp);
    let tmp := i32 (i32 (f1 - f2) + 1024) ≫ 11 in
    high_band ← wr high_band i (WebRtcSpl_SatW32ToW16 tmp);
    Some (low_band, high_band)) (low_band, high_band);
  Some (low_band, high_band, filter_state1, filter_state2).

(** The output and both states after the call. *)
Definition WebRtcSpl_SynthesisQMF (buffers : QmfBuffers) (low_band high_band : list Z)
  (band_length : Z) (out_data filter_state1 filter_state2 : list Z)
  : option (list Z * list Z * list Z) :=
  _ ← RTC_DCHECK (band_length <=? kMaxBandFrameLength);
  '(half_in1, half_in2) ← for_opt band_length (fun i '(half_in1, half_in2) =>
    l ← rd low_band i; h ← rd high_band i;
    let tmp := i32 (l + h) in
    half_in1 ← wr half_in1 i (i32 (tmp * 2 ^ 10));
    let tmp := i32 (l - h) in
    half_in2 ← wr half_in2 i (i32 (tmp * 2 ^ 10));
    Some (half_in1, half_in2)) (buffers.(half_in1), buffers.(half_in2));
  '(_, filter1, filter_state1) ←
    WebRtcSpl_AllPassQMF half_in1 band_length buffers.(filter1) WebRtcSpl_kAllPassFilter2 filter_state1;
  '(_, filter2, filter_state2) ←
    WebRtcSpl_AllPassQMF half_in2 band_length buffers.(filter2) WebRtcSpl_kAllPassFilter1 filter_state2;
  out_data ← for_opt band_length (fun i out_data =>
    let k := i16 (2 * i) in
    f2 ← rd filter2 i;
    let tmp := i32 (f2 + 512) ≫ 10 in
    out_data ← wr out_data k (WebRtcSpl_SatW32ToW16 tmp);
    f1 ← rd filter1 i;
    let tmp := i32 (f1 + 512) ≫ 10 in
    wr out_data (i16 (k + 1)) (WebRtcSpl_SatW32ToW16 tmp)) out_data;
  Some (out_data, filter_state1, filter_state2).

(** ** The reference

    A first-order section has its previous input and output as state. *)
Definition section_out (A : Z) (st : Z * Z) (x : Z) : Z := st.1 + A * (x - st.2) / 65536.

(** The sections of a cascade, one sample through all of them. *)
Fixpoint cascade_step (cs : list Z) (sts : list (Z * Z)) (x : Z) : Z * list (Z * Z) :=
  match cs, sts with
  | A :: cs, st :: sts =>
      let y := section_out A st x in
      let '(z, sts) := cascade_step cs sts y in
      (z, (x, y) :: sts)
  | _, _ => (x, [])
  end.

Fixpoint cascade_run (cs : list Z) (sts : list (Z * Z)) (xs : list Z) : list Z * list (Z * Z) :=
  match xs with
  | [] => ([], sts)
  | x :: xs =>
      let '(y, sts) := cascade_step cs sts x in
      let '(ys, sts) := cascade_run cs sts xs in
      (y :: ys, sts)
  end.

(** ** One section *)

Fixpoint section_run (A : Z) (st : Z * Z) (xs : list Z) : list Z * (Z * Z) :=
  match xs with
  | [] => ([], st)
  | x :: xs =>
      let y := section_out A st x in
      let '(ys, st) := section_run A (x, y) xs in
      (y :: ys, st)
  end.

(** What rounding adds to the state of a section, and the bound of its output
    for inputs up to [X]. *)
Definition slack (A : Z) : Z := 65536 * A / (65536 - A) + 1.
Definition out_bound (A X : Z) : Z := ((65536 + 2 * A) * X + slack A + 65535) / 65536 + 1.

(** The states a section reaches on inputs up to [X].  The combination in the
    last clause is what keeps the output small. *)
Definition section_ok (A X : Z) (st : Z * Z) : Prop :=
  Z.abs st.1 <= X /\ Z.abs st.2 <= out_bound A X /\
  Z.abs (65536 * st.1 - A * st.2) <= (65536 + A) * X + slack A.

Lemma slack_spec A : 0 <= A < 65536 -> 0 <= slack A /\ 65536 * A <= (65536 - A) * slack A.
Proof.
  intros HA. unfold slack. pose proof (Z.div_mod (65536 * A) (65536 - A) ltac:(lia)) as E.
  pose proof (Z.mod_pos_bound (65536 * A) (65536 - A) ltac:(lia)).
  assert (0 <= 65536 * A / (65536 - A)) by (apply Z.div_pos; lia). lia.
Qed.

Lemma out_bound_spec A X : 65536 * out_bound A X >= (65536 + 2 * A) * X + slack A + 65535.
Proof. unfold out_bound. Z.div_mod_to_equations. lia. Qed.

Lemma section_zero A X : 0 <= A < 65536 -> 0 <= X -> section_ok A X (0, 0).
Proof.
  intros HA HX. destruct (slack_spec A HA) as [Hs _]. pose proof (out_bound_spec A X).
  unfold section_ok. cbn [fst snd]. nia.
Qed.

Lemma section_step A X st x : 0 <= A < 65536 -> section_ok A X st -> Z.abs x <= X ->
  section_ok A X (x, section_out A st x).
Proof.
  intros HA (H1 & H2 & H3) Hx. destruct (slack_spec A HA) as [Hs1 Hs2]. pose proof (out_bound_spec A X) as Ho.
  unfold section_ok, section_out. cbn [fst snd].
  set (S := 65536 * st.1 - A * st.2) in *. set (c := slack A) in *. set (y := st.1 + A * (x - st.2) / 65536).
  assert (exists rho, 0 <= rho < 65536 /\ 65536 * y = S + A * x - rho) as (rho & Hrho & Ey).
  { exists (A * (x - st.2) mod 65536). split; [apply Z.mod_pos_bound; lia|].
    pose proof (Z.div_mod (A * (x - st.2)) 65536 ltac:(lia)). unfold y, S. lia. }
  clearbody S c y.
  assert (Z.abs (A * x) <= A * X) by (rewrite Z.abs_mul; nia).
  split; [done|]. split; [lia|].
  assert (Z.abs ((65536 * 65536 - A * A) * x) <= (65536 * 65536 - A * A) * X) as B1.
  { rewrite Z.abs_mul, (Z.abs_eq (_ - _)) by nia. apply Z.mul_le_mono_nonneg_l; nia. }
  assert (Z.abs (A * S) <= A * ((65536 + A) * X + c)) as B2.
  { rewrite Z.abs_mul, (Z.abs_eq A) by lia. apply Z.mul_le_mono_nonneg_l; lia. }
  assert (0 <= A * rho <= A * 65535) as B3
    by (split; [apply Z.mul_nonneg_nonneg|apply Z.mul_le_mono_nonneg_l]; lia).
  assert (A * (65536 * y) = A * (S + A * x - rho)) as EA by (by rewrite Ey).
  assert (65536 * (65536 * x - A * y) = (65536 * 65536 - A * A) * x - A * S + A * rho) as EZ by lia.
  clear - B1 B2 B3 Hs2 EZ HA Hs1. lia.
Qed.

(** The operations of the code, where nothing overflows. *)
Lemma scalediff_exact A B C : is_i32 B -> 0 <= A < 65536 -> is_i32 C -> is_i32 (C + A * B / 65536) ->
  WEBRTC_SPL_SCALEDIFF32 A B C = C + A * B / 65536.
Proof.
  intros HB HA HC HR. unfold WEBRTC_SPL_SCALEDIFF32. change 0xFFFF with (2 ^ 16 - 1).
  rewrite land_ones_mod, !shiftr_div by lia. change (2 ^ 16) with 65536.
  assert (A * B / 65536 = B / 65536 * A + B mod 65536 * A / 65536) as E.
  { pose proof (Z.div_mod B 65536 ltac:(lia)) as EB. rewrite EB at 1.
    replace (A * (65536 * (B / 65536) + B mod 65536)) with (B / 65536 * A * 65536 + B mod 65536 * A) by lia.
    by rewrite Z.div_add_l by lia. }
  pose proof (Z.mod_pos_bound B 65536 ltac:(lia)).
  assert (u32 (B mod 65536 * A) = B mod 65536 * A) as -> by (apply u32_id; unfold is_u32; nia).
  assert (i32 (B / 65536 * A) = B / 65536 * A) as ->.
  { apply i32_id. unfold is_i32 in *. assert (-32768 <= B / 65536 <= 32767) by (Z.div_mod_to_equations; lia). nia. }
  rewrite E in *. rewrite Z.add_assoc in *. by apply i32_id.
Qed.

Lemma SubSatW32_exact a b : is_i32 a -> is_i32 b -> is_i32 (a - b) -> WebRtcSpl_SubSatW32 a b = a - b.
Proof.
  intros Ha Hb Hd. unfold WebRtcSpl_SubSatW32, WEBRTC_SPL_WORD32_MAX, WEBRTC_SPL_WORD32_MIN.
  assert (i32 (u32 (u32 a - u32 b)) = a - b) as -> by cint.
  destruct (Z.ltb_spec a 0), (Z.ltb_spec b 0), (Z.ltb_spec (a - b) 0); simpl; unfold is_i32 in *; lia.
Qed.

(** One step of the code in a reachable state. *)
Lemma code_step A X st x : 0 <= A < 65536 -> section_ok A X st -> Z.abs x <= X ->
  X + out_bound A X < 2 ^ 31 ->
  WEBRTC_SPL_SCALEDIFF32 A (WebRtcSpl_SubSatW32 x st.2) st.1 = section_out A st x.
Proof.
  intros HA Hst Hx HX. pose proof (section_step A X st x HA Hst Hx) as (_ & Hy & _).
  destruct Hst as (H1 & H2 & _). cbn [snd] in Hy. unfold section_out in *.
  rewrite SubSatW32_exact by (unfold is_i32; lia). apply scalediff_exact; unfold is_i32; lia.
Qed.

(** ** A frame through one section *)

Lemma section_run_length A xs : forall st, length (section_run A st xs).1 = length xs.
Proof.
  induction xs as [|x xs IH]; intros st; [done|]. cbn [section_run]. cbn zeta. specialize (IH (x, section_out A st x)).
  destruct (section_run _ _ xs). cbn [fst] in *. simpl. lia.
Qed.

Lemma section_run_snoc A xs x : forall st, section_run A st (xs ++ [x])
  = let '(ys, st') := section_run A st xs in (ys ++ [section_out A st' x], (x, section_out A st' x)).
Proof.
  induction xs as [|a xs IH]; intros st; [done|]. cbn [app section_run]. cbn zeta. rewrite IH.
  by destruct (section_run A (a, section_out A st a) xs) as [ys st'].
Qed.

Lemma section_run_ok A X xs : 0 <= A < 65536 -> Forall (fun x => Z.abs x <= X) xs -> forall st,
  section_ok A X st -> section_ok A X (section_run A st xs).2 /\
  Forall (fun y => Z.abs y <= out_bound A X) (section_run A st xs).1.
Proof.
  intros HA Hxs. induction Hxs as [|x xs Hx Hxs IH]; intros st Hst; [done|]. cbn [section_run]. cbn zeta.
  pose proof (section_step A X st x HA Hst Hx) as Hn. specialize (IH _ Hn).
  destruct (section_run _ _ xs). cbn [fst snd] in *. split; [apply IH|]. constructor; [apply Hn|apply IH].
Qed.

(** The cells [0 .. n - 1] of a buffer. *)
Definition starts (buf xs : list Z) : Prop :=
  (length xs <= length buf)%nat /\ forall i : nat, (i < length xs)%nat -> arr buf (Z.of_nat i) = nth i xs 0.

Lemma starts_snoc buf ys y : starts buf ys -> (length ys < length buf)%nat ->
  starts (upd buf (Z.of_nat (length ys)) y) (ys ++ [y]).
Proof.
  intros [HL HC] Hl. unfold starts. rewrite length_upd, length_app. simpl length. split; [lia|]. intros i Hi.
  destruct (decide (i = length ys)) as [->|].
  - rewrite arr_upd_eq, app_nth2, Nat.sub_diag by lia. done.
  - rewrite arr_upd_ne, app_nth1 by lia. apply HC. lia.
Qed.

Lemma starts_app buf xs ys : starts buf (xs ++ ys) -> starts buf xs.
Proof.
  intros [HL HC]. rewrite length_app in *. split; [lia|]. intros i Hi.
  rewrite HC by lia. by rewrite app_nth1.
Qed.

Lemma all_pass_section_spec A X src dst state k xs st : 0 <= A < 65536 -> X + out_bound A X < 2 ^ 31 ->
  xs <> [] -> starts src xs -> (length xs <= length dst)%nat -> 0 <= k -> k + 1 < Z.of_nat (length state) ->
  st = (arr state k, arr state (k + 1)) -> section_ok A X st -> Forall (fun x => Z.abs x <= X) xs ->
  exists dst' state', all_pass_section A src (Z.of_nat (length xs)) dst state k = Some (dst', state') /\
    length dst' = length dst /\ starts dst' (section_run A st xs).1 /\ length state' = length state /\
    (arr state' k, arr state' (k + 1)) = (section_run A st xs).2 /\
    (forall i, 0 <= i -> i <> k -> i <> k + 1 -> arr state' i = arr state i).
Proof.
  intros HA HX Hne [Hsl Hsc] Hdl Hk Hks Est Hst Hxs. destruct xs as [|x0 xs]; [done|]. set (l := x0 :: xs) in *.
  assert (length l = S (length xs)) as El by done.
  assert (forall j : nat, (j < length l)%nat -> rd src (Z.of_nat j) = Some (nth j l 0)) as Hrd.
  { intros j Hj. rewrite rd_Some by lia. by rewrite Hsc. }
  unfold all_pass_section. pose proof (Hrd 0%nat ltac:(lia)) as H0. change (Z.of_nat 0) with 0 in H0. rewrite H0.
  bind_simpl. rewrite !(rd_Some state) by lia. bind_simpl. cbn zeta. cbn [nth l].
  assert (Z.abs x0 <= X) as Hx0 by (by inversion Hxs).
  pose proof (code_step A X st x0 HA Hst Hx0 HX) as Ec. rewrite Est in Ec at 1 2. cbn [fst snd] in Ec. rewrite Ec.
  rewrite (wr_Some dst) by lia. bind_simpl. set (y0 := section_out A st x0).
  destruct (for_opt_ind (fun j (d : list Z) => length d = length dst /\ exists ys,
      section_run A st (take (S (Z.to_nat j)) l) = (ys, (nth (Z.to_nat j) l 0, arr d j)) /\ starts d ys)
    (fun j d => x ← rd src (j + 1); y1 ← rd d (j + 1 - 1); x1 ← rd src (j + 1 - 1);
       wr d (j + 1) (WEBRTC_SPL_SCALEDIFF32 A (WebRtcSpl_SubSatW32 x y1) x1))
    (Z.of_nat (length l) - 1) (upd dst 0 y0)) as (d & E & Ld & ys & Er & Hy).
  - lia.
  - rewrite length_upd. split; [done|]. exists [y0]. split.
    + cbn [take l section_run nth]. cbn zeta. rewrite arr_upd_eq by lia. done.
    + apply (starts_snoc dst [] y0); [split; [simpl; lia|intros i Hi; simpl in Hi; lia]|simpl; lia].
  - intros j d Hj (Ld & ys & Er & Hy). replace j with (Z.of_nat (Z.to_nat j)) in * by lia.
    set (i := Z.to_nat j) in *. clearbody i. rewrite Nat2Z.id in *.
    replace (Z.of_nat i + 1) with (Z.of_nat (S i)) by lia. rewrite Hrd by lia. bind_simpl.
    replace (Z.of_nat (S i) - 1) with (Z.of_nat i) by lia. rewrite Hrd, rd_Some by lia. bind_simpl.
    pose proof (section_run_ok A X (take (S i) l) HA ltac:(by apply Forall_take) st Hst) as [Hok _].
    pose proof (section_run_length A (take (S i) l) st) as Lys. rewrite Er in Hok, Lys. cbn [fst snd] in Hok, Lys.
    rewrite length_take in Lys.
    assert (Z.abs (nth (S i) l 0) <= X) as Hx.
    { rewrite Forall_nth in Hxs. apply Hxs. lia. }
    pose proof (code_step A X _ _ HA Hok Hx HX) as Ec'. cbn [fst snd] in Ec'. rewrite Ec', wr_Some by lia.
    eexists. split; [done|]. rewrite length_upd. split; [done|].
    exists (ys ++ [section_out A (nth i l 0, arr d (Z.of_nat i)) (nth (S i) l 0)]). rewrite Nat2Z.id.
    destruct (lookup_lt_is_Some_2 l (S i) ltac:(lia)) as [x Hl]. rewrite (take_S_r _ _ _ Hl), section_run_snoc, Er.
    assert (nth (S i) l 0 = x) as -> by (by rewrite nth_lookup, Hl).
    rewrite (arr_upd_eq d) by lia. split; [done|].
    replace (Z.of_nat (S i)) with (Z.of_nat (length ys)) by lia. apply starts_snoc; [done|lia].
  - rewrite E. bind_simpl. replace (S (Z.to_nat (Z.of_nat (length l) - 1))) with (length l) in Er by lia.
    rewrite take_ge in Er by lia. rewrite Er. cbn [fst snd].
    replace (Z.of_nat (length l) - 1) with (Z.of_nat (length xs)) in * by lia. rewrite Nat2Z.id in *.
    rewrite Hrd by lia. bind_simpl. rewrite wr_Some by lia. bind_simpl. rewrite rd_Some by lia. bind_simpl.
    rewrite wr_Some by (rewrite length_upd; lia). bind_simpl. eexists _, _. split; [done|].
    rewrite !length_upd. split; [done|]. split; [done|]. split; [done|]. split.
    + rewrite arr_upd_ne, !arr_upd_eq by (rewrite ?length_upd; lia). done.
    + intros i Hi H1 H2. by rewrite !arr_upd_ne by lia.
Qed.

(** ** The cascade *)

Lemma cascade_sections A1 A2 A3 xs : forall s1 s2 s3,
  cascade_run [A1; A2; A3] [s1; s2; s3] xs
  = let r1 := section_run A1 s1 xs in
    let r2 := section_run A2 s2 r1.1 in
    let r3 := section_run A3 s3 r2.1 in
    (r3.1, [r1.2; r2.2; r3.2]).
Proof.
  induction xs as [|x xs IH]; intros s1 s2 s3; [done|]. cbn [cascade_run cascade_step section_run]. cbn zeta.
  rewrite IH. cbn zeta.
  destruct (section_run A1 _ xs) as [ys t1]. cbn [fst snd section_run]. cbn zeta.
  destruct (section_run A2 _ ys) as [zs t2]. cbn [fst snd section_run]. cbn zeta.
  by destruct (section_run A3 _ zs) as [ws t3].
Qed.

(** The state array as the states of the three sections. *)
Definition section_states (state : list Z) : list (Z * Z) :=
  [(arr state 0, arr state 1); (arr state 2, arr state 3); (arr state 4, arr state 5)].

(** The sums of the synthesis bank are the largest inputs, in Q10. *)
Definition input_bound : Z := 2 ^ 26.

(** The states that earlier frames can have left. *)
Definition qmf_ok (cs state : list Z) : Prop :=
  length state = 6%nat /\
  section_ok (arr cs 0) input_bound (arr state 0, arr state 1) /\
  section_ok (arr cs 1) (out_bound (arr cs 0) input_bound) (arr state 2, arr state 3) /\
  section_ok (arr cs 2) (out_bound (arr cs 1) (out_bound (arr cs 0) input_bound)) (arr state 4, arr state 5).

(** The bound of the filtered samples. *)
Definition output_bound (cs : list Z) : Z :=
  out_bound (arr cs 2) (out_bound (arr cs 1) (out_bound (arr cs 0) input_bound)).

(** What the two constant filters satisfy. *)
Definition filter_fits (cs : list Z) : Prop :=
  length cs = 3%nat /\ (forall i, 0 <= i < 3 -> 0 <= arr cs i < 65536) /\
  input_bound + out_bound (arr cs 0) input_bound < 2 ^ 31 /\
  out_bound (arr cs 0) input_bound + out_bound (arr cs 1) (out_bound (arr cs 0) input_bound) < 2 ^ 31 /\
  out_bound (arr cs 1) (out_bound (arr cs 0) input_bound) + output_bound cs < 2 ^ 31.

Lemma filters_fit : filter_fits WebRtcSpl_kAllPassFilter1 /\ filter_fits WebRtcSpl_kAllPassFilter2 /\
  output_bound WebRtcSpl_kAllPassFilter1 + output_bound WebRtcSpl_kAllPassFilter2 < 2 ^ 31 - 2048.
Proof.
  split; [|split]; [split; [done|split; [|vm_compute; done] ]..|vm_compute; done];
    intros i Hi; assert (i = 0 \/ i = 1 \/ i = 2) as [-> |[-> | ->] ] by lia; vm_compute; intuition discriminate.
Qed.

Lemma qmf_zero cs : filter_fits cs -> qmf_ok cs [0; 0; 0; 0; 0; 0].
Proof.
  intros (_ & Hc & H1 & H2 & H3). split; [done|].
  assert (forall A X, 0 <= A < 65536 -> 0 <= X -> 0 <= out_bound A X) as Hb.
  { intros A X HA HX. pose proof (out_bound_spec A X). destruct (slack_spec A HA). nia. }
  assert (0 <= input_bound) by (vm_compute; discriminate).
  repeat split; try apply section_zero; auto with lia.
Qed.

Lemma AllPassQMF_spec cs xs in_data out_data state : filter_fits cs -> xs <> [] ->
  starts in_data xs -> (length xs <= length out_data)%nat ->
  Forall (fun x => Z.abs x <= input_bound) xs -> qmf_ok cs state ->
  exists in' out' state', WebRtcSpl_AllPassQMF in_data (Z.of_nat (length xs)) out_data cs state
      = Some (in', out', state') /\ qmf_ok cs state' /\ length out' = length out_data /\
    starts out' (cascade_run cs (section_states state) xs).1 /\
    section_states state' = (cascade_run cs (section_states state) xs).2 /\
    Forall (fun y => Z.abs y <= output_bound cs) (cascade_run cs (section_states state) xs).1.
Proof.
  intros (Lc & Hc & F1 & F2 & F3) Hne Hin Hout Hxs (Ls & O1 & O2 & O3). unfold WebRtcSpl_AllPassQMF.
  destruct cs as [|A1 [|A2 [|A3 [|] ] ] ]; try discriminate Lc.
  rewrite !rd_Some by (simpl; lia). bind_simpl.
  pose proof (Hc 0 ltac:(lia)) as HA1. pose proof (Hc 1 ltac:(lia)) as HA2. pose proof (Hc 2 ltac:(lia)) as HA3.
  change (arr [A1; A2; A3] 0) with A1 in *. change (arr [A1; A2; A3] 1) with A2 in *.
  change (arr [A1; A2; A3] 2) with A3 in *. unfold output_bound in *.
  change (arr [A1; A2; A3] 0) with A1 in *. change (arr [A1; A2; A3] 1) with A2 in *.
  change (arr [A1; A2; A3] 2) with A3 in *. clear Hc.
  change (section_states state) with [(arr state 0, arr state 1); (arr state 2, arr state 3); (arr state 4, arr state 5)].
  rewrite cascade_sections. cbn zeta. cbn [fst snd].
  destruct (section_run_ok A1 _ xs HA1 Hxs _ O1) as [K1 B1]. pose proof (section_run_length A1 xs (arr state 0, arr state 1)) as L1.
  destruct (all_pass_section_spec A1 input_bound in_data out_data state 0 xs _ HA1 F1 Hne Hin Hout
    ltac:(lia) ltac:(lia) eq_refl O1 Hxs) as (d1 & s1 & -> & Ld1 & S1 & Ls1 & E1 & N1). bind_simpl.
  set (r1 := section_run A1 _ xs) in *.
  destruct (section_run_ok A2 _ _ HA2 B1 _ O2) as [K2 B2]. pose proof (section_run_length A2 r1.1 (arr state 2, arr state 3)) as L2.
  destruct (all_pass_section_spec A2 _ d1 in_data s1 2 r1.1 (arr state 2, arr state 3) HA2 F2)
    as (d2 & s2 & E & Ld2 & S2 & Ls2 & E2 & N2); try done; try lia.
  { intros E0. rewrite E0 in L1. simpl in L1. by apply Hne, nil_length_inv. } { destruct Hin. lia. } { by rewrite !N1 by lia. }
  rewrite L1 in E. rewrite E. clear E. bind_simpl. set (r2 := section_run A2 _ r1.1) in *.
  destruct (section_run_ok A3 _ _ HA3 B2 _ O3) as [K3 B3]. pose proof (section_run_length A3 r2.1 (arr state 4, arr state 5)) as L3.
  destruct (all_pass_section_spec A3 _ d2 d1 s2 4 r2.1 (arr state 4, arr state 5) HA3 F3)
    as (d3 & s3 & E & Ld3 & S3 & Ls3 & E3 & N3); try done; try lia.
  { intros E0. rewrite E0 in L2. simpl in L2. apply Hne, nil_length_inv. lia. } { by rewrite !N2, !N1 by lia. }
  rewrite L2, L1 in E. rewrite E. clear E. bind_simpl. set (r3 := section_run A3 _ r2.1) in *.
  assert (section_states s3 = [r1.2; r2.2; r3.2]) as Es.
  { unfold section_states. rewrite <-E1, <-E2, <-E3. change (4 + 1) with 5. change (2 + 1) with 3. change (0 + 1) with 1.
    by rewrite !(N3 0), !(N3 1), !(N3 2), !(N3 3), !(N2 0), !(N2 1) by lia. }
  exists d2, d3, s3. split; [done|]. split; [|split; [lia|split; [exact S3|split; [exact Es|exact B3] ] ] ].
  unfold section_states in Es. injection Es as Q1 Q2 Q3. rewrite <-Q1, <-Q2, <-Q3 in *. split; [lia|done].
Qed.

(** ** The two banks *)

Lemma write_two n (u v : Z -> Z) (f : Z -> list Z * list Z -> option (list Z * list Z)) a0 b0 :
  0 <= n <= Z.of_nat (length a0) -> n <= Z.of_nat (length b0) ->
  (forall i a b, 0 <= i < n -> length a = length a0 -> length b = length b0 ->
     f i (a, b) = Some (upd a i (u i), upd b i (v i))) ->
  exists a b, for_opt n f (a0, b0) = Some (a, b) /\ length a = length a0 /\ length b = length b0 /\
    (forall i, 0 <= i < n -> arr a i = u i /\ arr b i = v i) /\
    (forall i, n <= i -> arr a i = arr a0 i /\ arr b i = arr b0 i).
Proof.
  intros Ha Hb Hf. destruct (for_opt_ind (fun k (s : list Z * list Z) => length s.1 = length a0 /\
      length s.2 = length b0 /\ (forall i, 0 <= i < k -> arr s.1 i = u i /\ arr s.2 i = v i) /\
      (forall i, k <= i -> arr s.1 i = arr a0 i /\ arr s.2 i = arr b0 i)) f n (a0, b0))
    as ([a b] & -> & H); [lia| | |by exists a, b].
  - split; [done|]. split; [done|]. split; [lia|done].
  - intros k [a b] Hk (La & Lb & C & T). cbn [fst snd] in *. rewrite Hf by done. eexists. split; [done|].
    cbn [fst snd]. rewrite !length_upd. split; [done|]. split; [done|]. split; intros i Hi.
    + destruct (decide (i = k)) as [->|]; [by rewrite !arr_upd_eq by lia|]. rewrite !arr_upd_ne by lia. apply C. lia.
    + rewrite !arr_upd_ne by lia. apply T. lia.
Qed.

Definition samples (f : Z -> Z) (n : nat) : list Z := map f (seqZ 0 (Z.of_nat n)).

Lemma length_samples f n : length (samples f n) = n.
Proof. unfold samples. rewrite length_map, length_seqZ. lia. Qed.

Lemma nth_samples f n i : (i < n)%nat -> nth i (samples f n) 0 = f (Z.of_nat i).
Proof.
  intros Hi. unfold samples. rewrite nth_lookup, list_lookup_fmap, lookup_seqZ_lt by lia. done.
Qed.

Lemma starts_samples buf f n : (n <= length buf)%nat ->
  (forall i, 0 <= i < Z.of_nat n -> arr buf i = f i) -> starts buf (samples f n).
Proof.
  intros Hl Hc. unfold starts. rewrite length_samples. split; [done|]. intros i Hi.
  rewrite nth_samples by done. apply Hc. lia.
Qed.

Lemma samples_bound f n : (forall i, 0 <= i < Z.of_nat n -> Z.abs (f i) <= input_bound) ->
  Forall (fun x => Z.abs x <= input_bound) (samples f n).
Proof.
  intros H. unfold samples. apply Forall_map, List.Forall_forall. intros i Hi.
  apply H. apply list_elem_of_In, elem_of_seqZ in Hi. lia.
Qed.

Lemma cascade_length cs : forall xs sts, length (cascade_run cs sts xs).1 = length xs.
Proof.
  induction xs as [|x xs IH]; intros sts; [done|]. cbn [cascade_run]. destruct (cascade_step cs sts x) as [y sts'].
  specialize (IH sts'). destruct (cascade_run cs sts' xs). cbn [fst] in *. simpl. lia.
Qed.

(** The buffers have the size of the arrays in the source. *)
Definition buffers_ok (b : QmfBuffers) : Prop :=
  length b.(half_in1) = 320%nat /\ length b.(half_in2) = 320%nat /\
  length b.(filter1) = 320%nat /\ length b.(filter2) = 320%nat.

(** Both filters of a bank on the samples [u] and [v]. *)
Lemma both_filters cs1 cs2 (u v : Z -> Z) n h1 h2 f1 f2 s1 s2 : filter_fits cs1 -> filter_fits cs2 ->
  (1 <= n <= 320)%nat -> length h1 = 320%nat -> length h2 = 320%nat -> length f1 = 320%nat -> length f2 = 320%nat ->
  (forall i, 0 <= i < Z.of_nat n -> arr h1 i = u i /\ arr h2 i = v i) ->
  (forall i, 0 <= i < Z.of_nat n -> Z.abs (u i) <= input_bound /\ Z.abs (v i) <= input_bound) ->
  qmf_ok cs1 s1 -> qmf_ok cs2 s2 ->
  let r1 := cascade_run cs1 (section_states s1) (samples u n) in
  let r2 := cascade_run cs2 (section_states s2) (samples v n) in
  exists i1 o1 t1 i2 o2 t2,
    WebRtcSpl_AllPassQMF h1 (Z.of_nat n) f1 cs1 s1 = Some (i1, o1, t1) /\
    WebRtcSpl_AllPassQMF h2 (Z.of_nat n) f2 cs2 s2 = Some (i2, o2, t2) /\
    qmf_ok cs1 t1 /\ qmf_ok cs2 t2 /\ section_states t1 = r1.2 /\ section_states t2 = r2.2 /\
    forall i, 0 <= i < Z.of_nat n ->
      rd o1 i = Some (arr r1.1 i) /\ rd o2 i = Some (arr r2.1 i) /\
      Z.abs (arr r1.1 i) <= output_bound cs1 /\ Z.abs (arr r2.1 i) <= output_bound cs2.
Proof.
  intros F1 F2 Hn L1 L2 L3 L4 Hc Hb O1 O2. cbn zeta.
  assert (forall f, samples f n <> []) as Hne.
  { intros f E. pose proof (length_samples f n) as L. rewrite E in L. simpl in L. lia. }
  destruct (AllPassQMF_spec cs1 (samples u n) h1 f1 s1 F1 (Hne u)) as (i1 & o1 & t1 & E1 & K1 & M1 & [S1 C1] & Q1 & B1);
    [apply starts_samples; [lia|intros; by apply Hc]|rewrite length_samples; lia
    |apply samples_bound; intros; by apply Hb|done|].
  destruct (AllPassQMF_spec cs2 (samples v n) h2 f2 s2 F2 (Hne v)) as (i2 & o2 & t2 & E2 & K2 & M2 & [S2 C2] & Q2 & B2);
    [apply starts_samples; [lia|intros; by apply Hc]|rewrite length_samples; lia
    |apply samples_bound; intros; by apply Hb|done|].
  rewrite length_samples in E1, E2. rewrite cascade_length, length_samples in C1, S1, C2, S2.
  exists i1, o1, t1, i2, o2, t2. split; [done|]. split; [done|]. split; [done|]. split; [done|]. split; [done|].
  split; [done|]. intros i Hi.
  assert (forall (o ys : list Z), (forall j : nat, (j < n)%nat -> arr o (Z.of_nat j) = nth j ys 0) -> arr o i = arr ys i) as Ha.
  { intros o ys H. specialize (H (Z.to_nat i) ltac:(lia)). rewrite Z2Nat.id in H by lia. exact H. }
  rewrite !rd_Some, (Ha o1 _ C1), (Ha o2 _ C2) by lia.
  assert (forall ys B, length ys = n -> Forall (fun y => Z.abs y <= B) ys -> Z.abs (arr ys i) <= B) as Hf.
  { intros ys B HL HF. rewrite Forall_nth in HF. apply HF. lia. }
  split; [done|]. split; [done|]. split; apply Hf; try done; by rewrite cascade_length, length_samples.
Qed.

(** The polyphase components of a signal, in Q10. *)
Definition odd_samples (x : list Z) (i : Z) : Z := arr x (2 * i + 1) * 1024.
Definition even_samples (x : list Z) (i : Z) : Z := arr x (2 * i) * 1024.
Definition sum_samples (l h : list Z) (i : Z) : Z := (arr l i + arr h i) * 1024.
Definition diff_samples (l h : list Z) (i : Z) : Z := (arr l i - arr h i) * 1024.

(** Rounding from Q10 and saturation. *)
Definition q_round (shift v : Z) : Z := clamp (-32768) 32767 ((v + 2 ^ (shift - 1)) / 2 ^ shift).

Lemma q_round_code shift v : 1 <= shift -> is_i32 (v + 2 ^ (shift - 1)) -> is_i32 v ->
  WebRtcSpl_SatW32ToW16 (i32 (i32 v + 2 ^ (shift - 1)) ≫ shift) = q_round shift v.
Proof.
  intros Hs Hv Hv'. rewrite SatW32ToW16_clamp, (i32_id v), i32_id by done. by rewrite shiftr_div by lia.
Qed.

Lemma i16_arr x i : Forall is_i16 x -> is_i16 (arr x i).
Proof. intros. apply arr_Forall; [unfold is_i16; lia|done]. Qed.

Lemma analysis_spec buffers x low high s1 s2 n : buffers_ok buffers -> (1 <= n <= 320)%nat ->
  Forall is_i16 x -> length x = (2 * n)%nat -> (n <= length low)%nat -> (n <= length high)%nat ->
  qmf_ok WebRtcSpl_kAllPassFilter1 s1 -> qmf_ok WebRtcSpl_kAllPassFilter2 s2 ->
  let u := cascade_run WebRtcSpl_kAllPassFilter1 (section_states s1) (samples (odd_samples x) n) in
  let v := cascade_run WebRtcSpl_kAllPassFilter2 (section_states s2) (samples (even_samples x) n) in
  exists low' high' t1 t2,
    WebRtcSpl_AnalysisQMF buffers x (2 * Z.of_nat n) low high s1 s2 = Some (low', high', t1, t2) /\
    qmf_ok WebRtcSpl_kAllPassFilter1 t1 /\ qmf_ok WebRtcSpl_kAllPassFilter2 t2 /\
    section_states t1 = u.2 /\ section_states t2 = v.2 /\
    (forall i, 0 <= i < Z.of_nat n -> arr low' i = q_round 11 (arr u.1 i + arr v.1 i) /\
       arr high' i = q_round 11 (arr u.1 i - arr v.1 i)) /\
    (forall i, Z.of_nat n <= i -> arr low' i = arr low i /\ arr high' i = arr high i).
Proof.
  intros (B1 & B2 & B3 & B4) Hn Hx Lx Ll Lh O1 O2. cbn zeta. unfold WebRtcSpl_AnalysisQMF, kMaxBandFrameLength. cbn zeta. rewrite !RTC_DCHECK_true by (Z.div_mod_to_equations; lia).
  rewrite (Z.mul_comm 2), Z.div_mul by lia. destruct filters_fit as (F1 & F2 & Fsum).
  destruct (write_two (Z.of_nat n) (odd_samples x) (even_samples x) (fun i '(half_in1, half_in2) =>
      v ← rd x (i16 (2 * i)); half_in2 ← wr half_in2 i (i32 (v * 2 ^ 10));
      v ← rd x (i16 (2 * i) + 1); half_in1 ← wr half_in1 i (i32 (v * 2 ^ 10)); Some (half_in1, half_in2))
    (half_in1 buffers) (half_in2 buffers)) as (h1 & h2 & -> & L1 & L2 & C & _); [lia|lia| |].
  { intros i a b Hi La Lb. rewrite (i16_id (2 * i)) by (unfold is_i16; lia).
    rewrite !rd_Some by lia. bind_simpl. rewrite wr_Some by lia. bind_simpl. rewrite wr_Some by lia.
    unfold odd_samples, even_samples. pose proof (i16_arr x (2 * i) Hx) as H1. pose proof (i16_arr x (2 * i + 1) Hx) as H2.
    unfold is_i16 in *. change (2 ^ 10) with 1024. by rewrite !i32_id by (unfold is_i32; lia). }
  bind_simpl. cbn beta iota.
  destruct (both_filters _ _ (odd_samples x) (even_samples x) n h1 h2 (filter1 buffers) (filter2 buffers) s1 s2 F1 F2 Hn)
    as (i1 & o1 & t1 & i2 & o2 & t2 & E1 & E2 & K1 & K2 & Q1 & Q2 & Ho);
    [lia|lia|lia|lia|exact C| |exact O1|exact O2|].
  { intros i Hi. unfold odd_samples, even_samples, input_bound. pose proof (i16_arr x (2 * i) Hx).
    pose proof (i16_arr x (2 * i + 1) Hx). unfold is_i16 in *. lia. }
  rewrite E1. bind_simpl. rewrite E2. bind_simpl. set (r1 := cascade_run _ _ (samples (odd_samples x) n)) in *.
  set (r2 := cascade_run _ _ (samples (even_samples x) n)) in *.
  destruct (write_two (Z.of_nat n) (fun i => q_round 11 (arr r1.1 i + arr r2.1 i)) (fun i => q_round 11 (arr r1.1 i - arr r2.1 i))
    (fun i '(low_band, high_band) => f1 ← rd o1 i; f2 ← rd o2 i;
       low_band ← wr low_band i (WebRtcSpl_SatW32ToW16 (i32 (i32 (f1 + f2) + 1024) ≫ 11));
       high_band ← wr high_band i (WebRtcSpl_SatW32ToW16 (i32 (i32 (f1 - f2) + 1024) ≫ 11)); Some (low_band, high_band))
    low high) as (l' & h' & -> & _ & _ & C' & T'); [lia|lia| |].
  { intros i a b Hi La Lb. destruct (Ho i Hi) as (-> & -> & A1 & A2). bind_simpl.
    rewrite wr_Some by lia. bind_simpl. rewrite wr_Some by lia. bind_simpl. change 1024 with (2 ^ (11 - 1)).
    by rewrite !q_round_code by (unfold is_i32; change (2 ^ (11 - 1)) with 1024; lia). }
  bind_simpl. exists l', h', t1, t2. repeat (split; [first [reflexivity|assumption]|]). assumption.
Qed.

Lemma synthesis_spec buffers low high out s1 s2 n : buffers_ok buffers -> (1 <= n <= 320)%nat ->
  Forall is_i16 low -> Forall is_i16 high -> (n <= length low)%nat -> (n <= length high)%nat ->
  (2 * n <= length out)%nat ->
  qmf_ok WebRtcSpl_kAllPassFilter2 s1 -> qmf_ok WebRtcSpl_kAllPassFilter1 s2 ->
  let u := cascade_run WebRtcSpl_kAllPassFilter2 (section_states s1) (samples (sum_samples low high) n) in
  let v := cascade_run WebRtcSpl_kAllPassFilter1 (section_states s2) (samples (diff_samples low high) n) in
  exists out' t1 t2,
    WebRtcSpl_SynthesisQMF buffers low high (Z.of_nat n) out s1 s2 = Some (out', t1, t2) /\
    qmf_ok WebRtcSpl_kAllPassFilter2 t1 /\ qmf_ok WebRtcSpl_kAllPassFilter1 t2 /\
    section_states t1 = u.2 /\ section_states t2 = v.2 /\
    (forall i, 0 <= i < Z.of_nat n -> arr out' (2 * i) = q_round 10 (arr v.1 i) /\
       arr out' (2 * i + 1) = q_round 10 (arr u.1 i)) /\
    (forall i, 2 * Z.of_nat n <= i -> arr out' i = arr out i).
Proof.
  intros (B1 & B2 & B3 & B4) Hn Fl Fh Ll Lh Lo O1 O2. cbn zeta. unfold WebRtcSpl_SynthesisQMF, kMaxBandFrameLength. rewrite RTC_DCHECK_true by lia.
  destruct filters_fit as (F1 & F2 & Fsum).
  destruct (write_two (Z.of_nat n) (sum_samples low high) (diff_samples low high) (fun i '(half_in1, half_in2) =>
      l ← rd low i; h ← rd high i;
      half_in1 ← wr half_in1 i (i32 (i32 (l + h) * 2 ^ 10));
      half_in2 ← wr half_in2 i (i32 (i32 (l - h) * 2 ^ 10)); Some (half_in1, half_in2))
    (half_in1 buffers) (half_in2 buffers)) as (h1 & h2 & -> & L1 & L2 & C & _); [lia|lia| |].
  { intros i a b Hi La Lb. rewrite !rd_Some by lia. bind_simpl. rewrite wr_Some by lia. bind_simpl.
    rewrite wr_Some by lia. unfold sum_samples, diff_samples.
    pose proof (i16_arr low i Fl) as H1. pose proof (i16_arr high i Fh) as H2. unfold is_i16 in *.
    change (2 ^ 10) with 1024. rewrite (i32_id (_ + _)), (i32_id (arr low i - _)) by (unfold is_i32; lia).
    by rewrite !i32_id by (unfold is_i32; lia). }
  bind_simpl. cbn beta iota.
  destruct (both_filters _ _ (sum_samples low high) (diff_samples low high) n h1 h2 (filter1 buffers) (filter2 buffers)
    s1 s2 F2 F1 Hn) as (i1 & o1 & t1 & i2 & o2 & t2 & E1 & E2 & K1 & K2 & Q1 & Q2 & Ho);
    [lia|lia|lia|lia|exact C| |exact O1|exact O2|].
  { intros i Hi. unfold sum_samples, diff_samples, input_bound. pose proof (i16_arr low i Fl).
    pose proof (i16_arr high i Fh). unfold is_i16 in *. lia. }
  rewrite E1. bind_simpl. rewrite E2. bind_simpl. set (r1 := cascade_run _ _ (samples (sum_samples low high) n)) in *.
  set (r2 := cascade_run _ _ (samples (diff_samples low high) n)) in *.
  assert (0 <= output_bound WebRtcSpl_kAllPassFilter1 /\ 0 <= output_bound WebRtcSpl_kAllPassFilter2) as Hpos
    by (split; vm_compute; discriminate).
  destruct (for_opt_ind (fun k (o : list Z) => length o = length out /\
      (forall i, 0 <= i < k -> arr o (2 * i) = q_round 10 (arr r2.1 i) /\ arr o (2 * i + 1) = q_round 10 (arr r1.1 i)) /\
      (forall i, 2 * k <= i -> arr o i = arr out i))
    (fun i out_data => f2 ← rd o2 i;
       out_data ← wr out_data (i16 (2 * i)) (WebRtcSpl_SatW32ToW16 (i32 (f2 + 512) ≫ 10));
       f1 ← rd o1 i; wr out_data (i16 (i16 (2 * i) + 1)) (WebRtcSpl_SatW32ToW16 (i32 (f1 + 512) ≫ 10)))
    (Z.of_nat n) out) as (out' & -> & _ & C' & T'); [lia| | |].
  - split; [done|]. split; [lia|done].
  - intros k o Hk (L & C' & T'). destruct (Ho k Hk) as (-> & -> & A1 & A2). bind_simpl.
    rewrite (i16_id (2 * k)) by (unfold is_i16; lia). rewrite wr_Some by lia. bind_simpl.
    rewrite (i16_id (2 * k + 1)) by (unfold is_i16; lia). rewrite wr_Some by (rewrite length_upd; lia).
    eexists. split; [done|]. rewrite !length_upd. split; [done|].
    assert (forall y, Z.abs y < 2 ^ 31 - 2048 -> WebRtcSpl_SatW32ToW16 (i32 (y + 512) ≫ 10) = q_round 10 y) as Hq.
    { intros y Hy. rewrite <-(q_round_code 10) by (unfold is_i32; change (2 ^ (10 - 1)) with 512; lia).
      rewrite (i32_id y) by (unfold is_i32; lia). done. }
    split; intros i Hi.
    + destruct (decide (i = k)) as [->|].
      * rewrite arr_upd_ne, !arr_upd_eq by (rewrite ?length_upd; lia). split; apply Hq; lia.
      * rewrite !arr_upd_ne by lia. apply C'. lia.
    + rewrite !arr_upd_ne by lia. apply T'. lia.
  - bind_simpl. exists out', t1, t2. repeat (split; [first [reflexivity|assumption]|]). assumption.
Qed.

(** C24: The two-band filter bank is exact on every stream of 16-bit samples.
    The zero state is good, and from good states both functions stay inside
    their arrays, whatever the local buffers held, and leave good states.  In a
    good state no difference saturates and no 32-bit operation wraps: the bands
    are the rounded sum and difference of the odd and even samples, each pushed
    one by one through three exact all-pass sections, and the reconstructed
    samples are those of the filtered sum and difference of the bands.  The
    section states continue those of the calls before. *)
Theorem qmf_banks_exact buffers n : buffers_ok buffers -> (1 <= n <= 320)%nat ->
  (qmf_ok WebRtcSpl_kAllPassFilter1 [0; 0; 0; 0; 0; 0] /\ qmf_ok WebRtcSpl_kAllPassFilter2 [0; 0; 0; 0; 0; 0]) /\
  (forall x low high s1 s2, Forall is_i16 x -> length x = (2 * n)%nat ->
    (n <= length low)%nat -> (n <= length high)%nat ->
    qmf_ok WebRtcSpl_kAllPassFilter1 s1 -> qmf_ok WebRtcSpl_kAllPassFilter2 s2 ->
    let u := cascade_run WebRtcSpl_kAllPassFilter1 (section_states s1) (samples (odd_samples x) n) in
    let v := cascade_run WebRtcSpl_kAllPassFilter2 (section_states s2) (samples (even_samples x) n) in
    exists low' high' t1 t2,
      WebRtcSpl_AnalysisQMF buffers x (2 * Z.of_nat n) low high s1 s2 = Some (low', high', t1, t2) /\
      qmf_ok WebRtcSpl_kAllPassFilter1 t1 /\ qmf_ok WebRtcSpl_kAllPassFilter2 t2 /\
      section_states t1 = u.2 /\ section_states t2 = v.2 /\
      (forall i, 0 <= i < Z.of_nat n -> arr low' i = q_round 11 (arr u.1 i + arr v.1 i) /\
         arr high' i = q_round 11 (arr u.1 i - arr v.1 i)) /\
      (forall i, Z.of_nat n <= i -> arr low' i = arr low i /\ arr high' i = arr high i)) /\
  (forall low high out s1 s2, Forall is_i16 low -> Forall is_i16 high ->
    (n <= length low)%nat -> (n <= length high)%nat -> (2 * n <= length out)%nat ->
    qmf_ok WebRtcSpl_kAllPassFilter2 s1 -> qmf_ok WebRtcSpl_kAllPassFilter1 s2 ->
    let u := cascade_run WebRtcSpl_kAllPassFilter2 (section_states s1) (samples (sum_samples low high) n) in
    let v := cascade_run WebRtcSpl_kAllPassFilter1 (section_states s2) (samples (diff_samples low high) n) in
    exists out' t1 t2,
      WebRtcSpl_SynthesisQMF buffers low high (Z.of_nat n) out s1 s2 = Some (out', t1, t2) /\
      qmf_ok WebRtcSpl_kAllPassFilter2 t1 /\ qmf_ok WebRtcSpl_kAllPassFilter1 t2 /\
      section_states t1 = u.2 /\ section_states t2 = v.2 /\
      (forall i, 0 <= i < Z.of_nat n -> arr out' (2 * i) = q_round 10 (arr v.1 i) /\
         arr out' (2 * i + 1) = q_round 10 (arr u.1 i)) /\
      (forall i, 2 * Z.of_nat n <= i -> arr out' i = arr out i)).
Proof.
  intros HB Hn. destruct filters_fit as (F1 & F2 & _). split; [split; by apply qmf_zero|]. split.
  - intros. by apply analysis_spec.
  - intros. by apply synthesis_spec.
Qed.

Definition ex_buffers : QmfBuffers :=
  {| half_in1 := replicate 320 1; half_in2 := replicate 320 (-5); filter1 := replicate 320 7; filter2 := replicate 320 9 |}.

Lemma qmf_banks_exact_witness : exists low' high' t1 t2,
  WebRtcSpl_AnalysisQMF ex_buffers [1000; -2000; 32767; -32768] 4 [0; 0] [0; 0] [0; 0; 0; 0; 0; 0] [0; 0; 0; 0; 0; 0]
    = Some (low', high', t1, t2) /\ qmf_ok WebRtcSpl_kAllPassFilter1 t1 /\
  arr low' 0 = 69 /\ arr high' 1 = -5589.
Proof.
  destruct (qmf_banks_exact ex_buffers 2 ltac:(repeat split) ltac:(lia)) as ((Z1 & Z2) & H & _).
  destruct (H [1000; -2000; 32767; -32768] [0; 0] [0; 0] [0; 0; 0; 0; 0; 0] [0; 0; 0; 0; 0; 0])
    as (l & h & t1 & t2 & E & K1 & _ & _ & _ & C & _); try done; try (simpl; lia).
  { repeat constructor; vm_compute; intuition discriminate. }
  exists l, h, t1, t2. split; [exact E|]. split; [exact K1|].
  destruct (C 0 ltac:(lia)) as [-> _]. destruct (C 1 ltac:(lia)) as [_ ->]. vm_compute. done.
Defined.
