(* ===== verification/SplResample.v ===== *)
(** Sample rate conversion of the signal processing library (portable C
    variants): [resample_by_2_internal.c], [resample_fractional.c],
    [resample_48khz.c] and [resample_by_2.c], in
    [common_audio/signal_processing].

    The conversions of [resample_48khz.c] chain their stages through one
    scratch array [tmpmem], with input and output of a stage in overlapping
    parts of it; the model keeps that array as one store with offsets, and
    checks every access to it: [None] is an access outside an array. *)
From S2P Require Import Prelude SplInl.

(** ** resample_by_2_internal.c *)

(** The rows of [kResampleAllpass]. *)
Definition kResampleAllpass_0 : list Z := [821; 6110; 12382].
Definition kResampleAllpass_1 : list Z := [3050; 9368; 15063].

(** [diff >> 14] rounded toward zero. *)
Definition scale_trunc (diff : Z) : Z :=
  let diff := diff ≫ 14 in if diff <? 0 then i32 (diff + 1) else diff.

(** The allpass section all functions of the file repeat: three first-order
    stages over the four state cells from [k] on, with coefficients [c]. *)
Definition allpass (c : list Z) (k : Z) (tmp0 : Z) (state : list Z) : list Z :=
  let diff := i32 (tmp0 - arr state (k + 1)) in
  let diff := i32 (diff + (1 ≪ 13)) ≫ 14 in
  let tmp1 := i32 (arr state k + i32 (diff * arr c 0)) in
  let state := upd state k tmp0 in
  let diff := scale_trunc (i32 (tmp1 - arr state (k + 2))) in
  let tmp0 := i32 (arr state (k + 1) + i32 (diff * arr c 1)) in
  let state := upd state (k + 1) tmp1 in
  let diff := scale_trunc (i32 (tmp0 - arr state (k + 3))) in
  let state := upd state (k + 3) (i32 (arr state (k + 2) + i32 (diff * arr c 2))) in
  upd state (k + 2) tmp0.

(** [((int32_t)in[i] << 15) + (1 << 14)] *)
Definition to_q15 (v : Z) : Z := i32 (i32 (v ≪ 15) + (1 ≪ 14)).

(** The clamp to [0x7FFF] and [0xFFFF8000] followed by the narrowing. *)
Definition clip16 (tmp : Z) : Z :=
  let tmp := if 0x7FFF <? tmp then 0x7FFF else tmp in
  let tmp := if tmp <? -32768 then -32768 else tmp in
  i16 tmp.

(** [in] is the part of [mem] from [inp] on, overwritten; [out] is the output
    array, written from [outp] on. *)
Definition WebRtcSpl_DownBy2IntToShort (mem : list Z) (inp len : Z) (out : list Z) (outp : Z)
    (state : list Z) : option (list Z * list Z * list Z) :=
  let len := len ≫ 1 in
  '(mem, state) ← for_opt len (fun i '(mem, state) =>
    tmp0 ← rd mem (inp + (i ≪ 1));
    let state := allpass kResampleAllpass_1 0 tmp0 state in
    mem ← wr mem (inp + (i ≪ 1)) (arr state 3 ≫ 1);
    Some (mem, state)) (mem, state);
  '(mem, state) ← for_opt len (fun i '(mem, state) =>
    tmp0 ← rd mem (inp + 1 + (i ≪ 1));
    let state := allpass kResampleAllpass_0 4 tmp0 state in
    mem ← wr mem (inp + 1 + (i ≪ 1)) (arr state 7 ≫ 1);
    Some (mem, state)) (mem, state);
  out ← for_opt ((len + 1) / 2) (fun h out =>
    let i := 2 * h in
    a ← rd mem (inp + (i ≪ 1));
    b ← rd mem (inp + (i ≪ 1) + 1);
    c ← rd mem (inp + (i ≪ 1) + 2);
    d ← rd mem (inp + (i ≪ 1) + 3);
    out ← wr out (outp + i) (clip16 (i32 (a + b) ≫ 15));
    wr out (outp + i + 1) (clip16 (i32 (c + d) ≫ 15))) out;
  Some (mem, out, state).

(** [in] is an [int16_t] array; the output goes to [mem] from [outp] on. *)
Definition WebRtcSpl_DownBy2ShortToInt (inp : list Z) (len : Z) (mem : list Z) (outp : Z)
    (state : list Z) : option (list Z * list Z) :=
  let len := len ≫ 1 in
  '(mem, state) ← for_opt len (fun i '(mem, state) =>
    v ← rd inp (i ≪ 1);
    let state := allpass kResampleAllpass_1 0 (to_q15 v) state in
    mem ← wr mem (outp + i) (arr state 3 ≫ 1);
    Some (mem, state)) (mem, state);
  for_opt len (fun i '(mem, state) =>
    v ← rd inp ((i ≪ 1) + 1);
    let state := allpass kResampleAllpass_0 4 (to_q15 v) state in
    o ← rd mem (outp + i);
    mem ← wr mem (outp + i) (i32 (o + (arr state 7 ≫ 1)));
    Some (mem, state)) (mem, state).

(** The two interpolation loops: the upper filter generates the samples at
    even output positions, the lower one those at odd positions.  [fetch]
    reads input sample [i], [store] converts a filter output. *)
Definition up_by_2 (fetch : list Z -> Z -> option Z) (store : Z -> Z) (len outp : Z)
    (mem state : list Z) : option (list Z * list Z) :=
  '(mem, state) ← for_opt len (fun i '(mem, state) =>
    tmp0 ← fetch mem i;
    let state := allpass kResampleAllpass_0 4 tmp0 state in
    mem ← wr mem (outp + (i ≪ 1)) (store (arr state 7));
    Some (mem, state)) (mem, state);
  for_opt len (fun i '(mem, state) =>
    tmp0 ← fetch mem i;
    let state := allpass kResampleAllpass_1 0 tmp0 state in
    mem ← wr mem (outp + 1 + (i ≪ 1)) (store (arr state 3));
    Some (mem, state)) (mem, state).

Definition WebRtcSpl_UpBy2ShortToInt (inp : list Z) (len : Z) (mem : list Z) (outp : Z)
    (state : list Z) : option (list Z * list Z) :=
  up_by_2 (fun _ i => v ← rd inp i; Some (to_q15 v)) (fun s => s ≫ 15) len outp mem state.

(** Input at [inp] and output at [outp] of the same [mem]. *)
Definition WebRtcSpl_UpBy2IntToInt (mem : list Z) (inp len outp : Z) (state : list Z)
  : option (list Z * list Z) :=
  up_by_2 (fun mem i => rd mem (inp + i)) (fun s => s) len outp mem state.

(** The output is a separate [int16_t] array. *)
Definition WebRtcSpl_UpBy2IntToShort (mem : list Z) (inp len : Z) (out : list Z) (outp : Z)
    (state : list Z) : option (list Z * list Z) :=
  up_by_2 (fun _ i => rd mem (inp + i)) (fun s => clip16 (s ≫ 15)) len outp out state.

(** The four loops of the lowpass filters: [fetch] reads input sample [i] (of
    the store passed), the output goes to [mem] from [outp] on.  The first loop
    is one sample behind: it starts from [state[12]]. *)
Definition lp_by_2 (fetch : list Z -> Z -> option Z) (len outp : Z) (mem state : list Z)
  : option (list Z * list Z) :=
  let len := len ≫ 1 in
  '(mem, state, _) ← for_opt len (fun i '(mem, state, tmp0) =>
    let state := allpass kResampleAllpass_1 0 tmp0 state in
    mem ← wr mem (outp + (i ≪ 1)) (arr state 3 ≫ 1);
    tmp0 ← fetch mem ((i ≪ 1) + 1);
    Some (mem, state, tmp0)) (mem, state, arr state 12);
  '(mem, state) ← for_opt len (fun i '(mem, state) =>
    tmp0 ← fetch mem (i ≪ 1);
    let state := allpass kResampleAllpass_0 4 tmp0 state in
    o ← rd mem (outp + (i ≪ 1));
    mem ← wr mem (outp + (i ≪ 1)) (i32 (o + (arr state 7 ≫ 1)) ≫ 15);
    Some (mem, state)) (mem, state);
  '(mem, state) ← for_opt len (fun i '(mem, state) =>
    tmp0 ← fetch mem (i ≪ 1);
    let state := allpass kResampleAllpass_1 8 tmp0 state in
    mem ← wr mem (outp + 1 + (i ≪ 1)) (arr state 11 ≫ 1);
    Some (mem, state)) (mem, state);
  for_opt len (fun i '(mem, state) =>
    tmp0 ← fetch mem ((i ≪ 1) + 1);
    let state := allpass kResampleAllpass_0 12 tmp0 state in
    o ← rd mem (outp + 1 + (i ≪ 1));
    mem ← wr mem (outp + 1 + (i ≪ 1)) (i32 (o + (arr state 15 ≫ 1)) ≫ 15);
    Some (mem, state)) (mem, state).

Definition WebRtcSpl_LPBy2ShortToInt (inp : list Z) (len : Z) (mem : list Z) (outp : Z)
    (state : list Z) : option (list Z * list Z) :=
  lp_by_2 (fun _ i => v ← rd inp i; Some (to_q15 v)) len outp mem state.

Definition WebRtcSpl_LPBy2IntToInt (mem : list Z) (inp len outp : Z) (state : list Z)
  : option (list Z * list Z) :=
  lp_by_2 (fun mem i => rd mem (inp + i)) len outp mem state.

(** ** resample_fractional.c *)

Definition kCoefficients48To32 : list (list Z) :=
  [[778; -2050; 1087; 23285; 12903; -3783; 441; 222];
   [222; 441; -3783; 12903; 23285; 1087; -2050; 778]].
Definition kCoefficients32To24 : list (list Z) :=
  [[767; -2362; 2434; 24406; 10620; -3838; 721; 90];
   [386; -381; -2646; 19062; 19062; -2646; -381; 386];
   [90; 721; -3838; 10620; 24406; 2434; -2362; 767]].
Definition kCoefficients44To32 : list (list Z) :=
  [[117; -669; 2245; -6183; 26267; 13529; -3245; 845; -138];
   [-101; 612; -2283; 8532; 29790; -5138; 1789; -524; 91];
   [50; -292; 1016; -3064; 32010; 3933; -1147; 315; -53];
   [-156; 974; -3863; 18603; 21691; -6246; 2353; -712; 126]].

(** [tmp += coef[k] * In[k]] over the coefficients, from [p] upward ([dir = 1])
    or downward ([dir = -1]). *)
Fixpoint dot (coef : list Z) (mem : list Z) (p dir tmp : Z) : option Z :=
  match coef with
  | [] => Some tmp
  | c :: coef => v ← rd mem p; dot coef mem (p + dir) dir (i32 (tmp + i32 (c * v)))
  end.

(** Block [m] reads from [inp + 3 m] and writes at [outp + 2 m]; both lie in
    [mem] and may overlap. *)
Definition WebRtcSpl_Resample48khzTo32khz (mem : list Z) (inp outp K : Z) : option (list Z) :=
  for_opt K (fun m mem =>
    tmp ← dot (nth 0 kCoefficients48To32 []) mem (inp + 3 * m) 1 (1 ≪ 14);
    mem ← wr mem (outp + 2 * m) tmp;
    tmp ← dot (nth 1 kCoefficients48To32 []) mem (inp + 3 * m + 1) 1 (1 ≪ 14);
    wr mem (outp + 2 * m + 1) tmp) mem.

Definition WebRtcSpl_Resample32khzTo24khz (mem : list Z) (inp outp K : Z) : option (list Z) :=
  for_opt K (fun m mem =>
    tmp ← dot (nth 0 kCoefficients32To24 []) mem (inp + 4 * m) 1 (1 ≪ 14);
    mem ← wr mem (outp + 3 * m) tmp;
    tmp ← dot (nth 1 kCoefficients32To24 []) mem (inp + 4 * m + 1) 1 (1 ≪ 14);
    mem ← wr mem (outp + 3 * m + 1) tmp;
    tmp ← dot (nth 2 kCoefficients32To24 []) mem (inp + 4 * m + 2) 1 (1 ≪ 14);
    wr mem (outp + 3 * m + 2) tmp) mem.

(** Two inner products with the same coefficients, one upward from [in1] and
    one downward from [in2]. *)
Definition WebRtcSpl_ResampDotProduct (mem : list Z) (in1 in2 : Z) (coef_ptr : list Z)
    (out1 out2 : Z) : option (list Z) :=
  tmp1 ← dot (take 8 coef_ptr) mem in1 1 16384;
  tmp2 ← dot (take 8 coef_ptr) mem in2 (-1) 16384;
  let coef := nth 8 coef_ptr 0 in
  v ← rd mem (in1 + 8);
  mem ← wr mem out1 (i32 (tmp1 + i32 (coef * v)));
  v ← rd mem (in2 - 8);
  wr mem out2 (i32 (tmp2 + i32 (coef * v))).

Definition WebRtcSpl_Resample44khzTo32khz (mem : list Z) (inp outp K : Z) : option (list Z) :=
  for_opt K (fun m mem =>
    let inp := inp + 11 * m in
    let outp := outp + 8 * m in
    let tmp := 1 ≪ 14 in
    v ← rd mem (inp + 3);
    mem ← wr mem outp (i32 (i32 (v ≪ 15) + tmp));
    tmp ← dot (nth 3 kCoefficients44To32 []) mem (inp + 5) 1 tmp;
    mem ← wr mem (outp + 4) tmp;
    mem ← WebRtcSpl_ResampDotProduct mem inp (inp + 17) (nth 0 kCoefficients44To32 [])
            (outp + 1) (outp + 7);
    mem ← WebRtcSpl_ResampDotProduct mem (inp + 2) (inp + 15) (nth 1 kCoefficients44To32 [])
            (outp + 2) (outp + 6);
    WebRtcSpl_ResampDotProduct mem (inp + 3) (inp + 14) (nth 2 kCoefficients44To32 [])
      (outp + 3) (outp + 5)) mem.

(** ** resample_48khz.c *)

(** [memcpy] of eight cells between the scratch array and a state array. *)
Definition load_state (mem : list Z) (p : Z) (st : list Z) : option (list Z) := mem_write mem p st.
Definition save_state (mem : list Z) (p : Z) : option (list Z) := mem_read mem p 8.

Record WebRtcSpl_State48khzTo16khz := mkState48To16 {
  S_48_48 : list Z; S_48_32 : list Z; S_32_16 : list Z }.

(** Returns the 160 output samples (written to [out] from [outp] on), the new
    state and the scratch array. *)
Definition WebRtcSpl_Resample48khzTo16khz (inp : list Z) (out : list Z) (outp : Z)
    (state : WebRtcSpl_State48khzTo16khz) (tmpmem : list Z)
  : option (list Z * WebRtcSpl_State48khzTo16khz * list Z) :=
  '(tmpmem, s1) ← WebRtcSpl_LPBy2ShortToInt inp 480 tmpmem 16 (S_48_48 state);
  tmpmem ← load_state tmpmem 8 (S_48_32 state);
  s2 ← save_state tmpmem 488;
  tmpmem ← WebRtcSpl_Resample48khzTo32khz tmpmem 8 0 160;
  '(tmpmem, out, s3) ← WebRtcSpl_DownBy2IntToShort tmpmem 0 320 out outp (S_32_16 state);
  Some (out, mkState48To16 s1 s2 s3, tmpmem).

Definition WebRtcSpl_ResetResample48khzTo16khz : WebRtcSpl_State48khzTo16khz :=
  mkState48To16 (replicate 16 0) (replicate 8 0) (replicate 8 0).

Record WebRtcSpl_State16khzTo48khz := mkState16To48 {
  S_16_32 : list Z; S_32_24 : list Z; S_24_48 : list Z }.

Definition WebRtcSpl_Resample16khzTo48khz (inp : list Z) (out : list Z) (outp : Z)
    (state : WebRtcSpl_State16khzTo48khz) (tmpmem : list Z)
  : option (list Z * WebRtcSpl_State16khzTo48khz * list Z) :=
  '(tmpmem, s1) ← WebRtcSpl_UpBy2ShortToInt inp 160 tmpmem 16 (S_16_32 state);
  tmpmem ← load_state tmpmem 8 (S_32_24 state);
  s2 ← save_state tmpmem 328;
  tmpmem ← WebRtcSpl_Resample32khzTo24khz tmpmem 8 0 80;
  '(out, s3) ← WebRtcSpl_UpBy2IntToShort tmpmem 0 240 out outp (S_24_48 state);
  Some (out, mkState16To48 s1 s2 s3, tmpmem).

Definition WebRtcSpl_ResetResample16khzTo48khz : WebRtcSpl_State16khzTo48khz :=
  mkState16To48 (replicate 8 0) (replicate 8 0) (replicate 8 0).

Record WebRtcSpl_State48khzTo8khz := mkState48To8 {
  S_48_24 : list Z; S_24_24 : list Z; S_24_16 : list Z; S_16_8 : list Z }.

Definition WebRtcSpl_Resample48khzTo8khz (inp : list Z) (out : list Z) (outp : Z)
    (state : WebRtcSpl_State48khzTo8khz) (tmpmem : list Z)
  : option (list Z * WebRtcSpl_State48khzTo8khz * list Z) :=
  '(tmpmem, s1) ← WebRtcSpl_DownBy2ShortToInt inp 480 tmpmem 256 (S_48_24 state);
  '(tmpmem, s2) ← WebRtcSpl_LPBy2IntToInt tmpmem 256 240 16 (S_24_24 state);
  tmpmem ← load_state tmpmem 8 (S_24_16 state);
  s3 ← save_state tmpmem 248;
  tmpmem ← WebRtcSpl_Resample48khzTo32khz tmpmem 8 0 80;
  '(tmpmem, out, s4) ← WebRtcSpl_DownBy2IntToShort tmpmem 0 160 out outp (S_16_8 state);
  Some (out, mkState48To8 s1 s2 s3 s4, tmpmem).

Definition WebRtcSpl_ResetResample48khzTo8khz : WebRtcSpl_State48khzTo8khz :=
  mkState48To8 (replicate 8 0) (replicate 16 0) (replicate 8 0) (replicate 8 0).

Record WebRtcSpl_State8khzTo48khz := mkState8To48 {
  S_8_16 : list Z; S_16_12 : list Z; S_12_24 : list Z; S8_24_48 : list Z }.

Definition WebRtcSpl_Resample8khzTo48khz (inp : list Z) (out : list Z) (outp : Z)
    (state : WebRtcSpl_State8khzTo48khz) (tmpmem : list Z)
  : option (list Z * WebRtcSpl_State8khzTo48khz * list Z) :=
  '(tmpmem, s1) ← WebRtcSpl_UpBy2ShortToInt inp 80 tmpmem 264 (S_8_16 state);
  tmpmem ← load_state tmpmem 256 (S_16_12 state);
  s2 ← save_state tmpmem 416;
  tmpmem ← WebRtcSpl_Resample32khzTo24khz tmpmem 256 240 40;
  '(tmpmem, s3) ← WebRtcSpl_UpBy2IntToInt tmpmem 240 120 0 (S_12_24 state);
  '(out, s4) ← WebRtcSpl_UpBy2IntToShort tmpmem 0 240 out outp (S8_24_48 state);
  Some (out, mkState8To48 s1 s2 s3 s4, tmpmem).

Definition WebRtcSpl_ResetResample8khzTo48khz : WebRtcSpl_State8khzTo48khz :=
  mkState8To48 (replicate 8 0) (replicate 8 0) (replicate 8 0) (replicate 8 0).

(** ** resample_by_2.c *)

Definition kResampleAllpass1 : list Z := [3284; 24441; 49528].
Definition kResampleAllpass2 : list Z := [12199; 37471; 60255].

(** The allpass section of [resample_by_2.c] over the state cells from [k] on. *)
Definition allpass_q10 (c : list Z) (k in32 : Z) (st : list Z) : list Z :=
  let diff := i32 (in32 - arr st (k + 1)) in
  let tmp1 := WEBRTC_SPL_SCALEDIFF32 (arr c 0) diff (arr st k) in
  let st := upd st k in32 in
  let diff := i32 (tmp1 - arr st (k + 2)) in
  let tmp2 := WEBRTC_SPL_SCALEDIFF32 (arr c 1) diff (arr st (k + 1)) in
  let st := upd st (k + 1) tmp1 in
  let diff := i32 (tmp2 - arr st (k + 3)) in
  let st := upd st (k + 3) (WEBRTC_SPL_SCALEDIFF32 (arr c 2) diff (arr st (k + 2))) in
  upd st (k + 2) tmp2.

(** Returns the [len / 2] output samples and the filter state. *)
Definition WebRtcSpl_DownsampleBy2 (inp : list Z) (len : Z) (filtState : list Z)
  : option (list Z * list Z) :=
  for_opt (len ≫ 1) (fun i '(out, st) =>
    v0 ← rd inp (2 * i);
    let st := allpass_q10 kResampleAllpass2 0 (i32 (v0 * (1 ≪ 10))) st in
    v1 ← rd inp (2 * i + 1);
    let st := allpass_q10 kResampleAllpass1 4 (i32 (v1 * (1 ≪ 10))) st in
    let out32 := i32 (i32 (arr st 3 + arr st 7) + 1024) ≫ 11 in
    Some (out ++ [WebRtcSpl_SatW32ToW16 out32], st)) ([], filtState).

Definition WebRtcSpl_UpsampleBy2 (inp : list Z) (len : Z) (filtState : list Z)
  : option (list Z * list Z) :=
  for_opt len (fun i '(out, st) =>
    v ← rd inp i;
    let in32 := i32 (v * (1 ≪ 10)) in
    let st := allpass_q10 kResampleAllpass1 0 in32 st in
    let o1 := WebRtcSpl_SatW32ToW16 (i32 (arr st 3 + 512) ≫ 10) in
    let st := allpass_q10 kResampleAllpass2 4 in32 st in
    let o2 := WebRtcSpl_SatW32ToW16 (i32 (arr st 7 + 512) ≫ 10) in
    Some (out ++ [o1; o2], st)) ([], filtState).

(** ** Safety of the stages *)

(** An [int32_t] array of [n] cells. *)
Definition w32 (n : nat) (l : list Z) : Prop := length l = n /\ Forall is_i32 l.

Lemma w32_upd n l i v : w32 n l -> is_i32 v -> w32 n (upd l i v).
Proof. intros [Hl Hf] Hv. split; [by rewrite length_upd|by apply Forall_upd]. Qed.
Lemma w32_arr n l i : w32 n l -> is_i32 (arr l i).
Proof. intros [_ Hf]. apply arr_Forall; [unfold is_i32; lia|done]. Qed.
Lemma w32_rd n l i : w32 n l -> 0 <= i < Z.of_nat n -> rd l i = Some (arr l i) /\ is_i32 (arr l i).
Proof. intros H Hi. split; [apply rd_Some; destruct H as [-> _]; done|by apply (w32_arr n)]. Qed.
Lemma w32_wr n l i v : w32 n l -> 0 <= i < Z.of_nat n -> is_i32 v ->
  wr l i v = Some (upd l i v) /\ w32 n (upd l i v).
Proof. intros H Hi Hv. split; [apply wr_Some; destruct H as [-> _]; done|by apply w32_upd]. Qed.

#[export] Hint Resolve w32_upd w32_arr i32_shiftr : cint.
#[export] Hint Extern 1 (0 <= _) => lia : cint.

Lemma allpass_ok c k tmp0 n st : w32 n st -> is_i32 tmp0 -> w32 n (allpass c k tmp0 st).
Proof. intros. unfold allpass. cbn zeta. eauto 8 with cint. Qed.
Lemma to_q15_ok v : is_i32 (to_q15 v).
Proof. apply i32_range. Qed.
#[export] Hint Resolve allpass_ok to_q15_ok : cint.

(** Shows that the next checked access succeeds and continues. *)
Ltac step_rd :=
  match goal with
  | Hm : w32 ?n ?m |- context [rd ?m ?i] =>
      let E := fresh "E" in let R := fresh "R" in
      destruct (w32_rd n m i Hm) as [E R]; [lia|rewrite E; clear E; bind_simpl]
  end.
Ltac step_wr :=
  match goal with
  | Hm : w32 ?n ?m |- context [wr ?m ?i ?v] =>
      let E := fresh "E" in let R := fresh "R" in
      destruct (w32_wr n m i v Hm) as [E R]; [lia|eauto with cint|rewrite E; clear E; bind_simpl]
  end.

Section Stages.
Context (N n : nat).

(** The state of a filter loop: scratch array and filter state. *)
Definition loop_ok (s : list Z * list Z) : Prop := w32 N s.1 /\ w32 n s.2.

Lemma for_opt_safe {S : Type} (P : S -> Prop) f len s : 0 <= len -> P s ->
  (forall i s, 0 <= i < len -> P s -> exists s', f i s = Some s' /\ P s') ->
  exists s', for_opt len f s = Some s' /\ P s'.
Proof. intros Hl Hs Hf. apply (for_opt_ind (fun _ => P)); auto. Qed.

(** A fetch function that stays in its array. *)
Definition fetch_ok (fetch : list Z -> Z -> option Z) (len : Z) : Prop :=
  forall mem i, w32 N mem -> 0 <= i < len -> exists v, fetch mem i = Some v /\ is_i32 v.

Lemma fetch_mem inp len : 0 <= inp -> inp + len <= Z.of_nat N ->
  fetch_ok (fun mem i => rd mem (inp + i)) len.
Proof. intros ? ? mem i Hm Hi. destruct (w32_rd N mem (inp + i) Hm) as [E R]; [lia|eauto]. Qed.

Lemma fetch_short inp len : len <= Z.of_nat (length inp) ->
  fetch_ok (fun _ i => v ← rd inp i; Some (to_q15 v)) len.
Proof.
  intros Hl mem i Hm Hi. rewrite rd_Some by lia. bind_simpl. eexists. split; [done|].
  apply to_q15_ok.
Qed.

Lemma shl1 i : i ≪ 1 = 2 * i.
Proof. rewrite Z.shiftl_mul_pow2 by lia. change (2 ^ 1) with 2. lia. Qed.

Lemma lp_by_2_safe fetch len outp mem st : fetch_ok fetch len -> 0 <= len -> 0 <= outp ->
  outp + len <= Z.of_nat N -> loop_ok (mem, st) ->
  exists mem' st', lp_by_2 fetch len outp mem st = Some (mem', st') /\ loop_ok (mem', st').
Proof.
  intros Hfetch Hlen Hout Hroom [Hm Hs]. unfold lp_by_2. rewrite shiftr_div by lia.
  change (2 ^ 1) with 2. set (h := len / 2).
  assert (0 <= h /\ 2 * h <= len) as [Hh Hhl] by (unfold h; Z.div_mod_to_equations; lia).
  match goal with |- context [for_opt h ?f (mem, st, arr st 12)] =>
    destruct (for_opt_safe (fun s => loop_ok s.1 /\ is_i32 s.2) f h (mem, st, arr st 12))
      as ([[mem1 st1] t1] & -> & [Hm1 Hs1] & _) end; [done|by split; [split|eauto with cint]| |].
  { intros i [[m s] t] Hi [[Hm' Hs'] Ht]. cbn [fst snd] in *. rewrite shl1.
    assert (w32 n (allpass kResampleAllpass_1 0 t s)) by eauto with cint. step_wr.
    destruct (Hfetch _ (2 * i + 1) R) as (v & -> & Hv); [lia|]. bind_simpl.
    eexists. split; [done|]. split; [by split|done]. }
  bind_simpl. cbn [fst snd] in *.
  match goal with |- context [for_opt h ?f (mem1, st1)] =>
    destruct (for_opt_safe loop_ok f h (mem1, st1)) as ([mem2 st2] & -> & [Hm2 Hs2]) end;
    [done|by split| |].
  { intros i [m s] Hi [Hm' Hs']. cbn [fst snd] in *. rewrite shl1.
    destruct (Hfetch _ (2 * i) Hm') as (v & -> & Hv); [lia|]. bind_simpl.
    assert (w32 n (allpass kResampleAllpass_0 4 v s)) by eauto with cint. step_rd. step_wr.
    eexists. split; [done|]. by split. }
  bind_simpl. cbn [fst snd] in *.
  match goal with |- context [for_opt h ?f (mem2, st2)] =>
    destruct (for_opt_safe loop_ok f h (mem2, st2)) as ([mem3 st3] & -> & [Hm3 Hs3]) end;
    [done|by split| |].
  { intros i [m s] Hi [Hm' Hs']. cbn [fst snd] in *. rewrite shl1.
    destruct (Hfetch _ (2 * i) Hm') as (v & -> & Hv); [lia|]. bind_simpl.
    assert (w32 n (allpass kResampleAllpass_1 8 v s)) by eauto with cint. step_wr.
    eexists. split; [done|]. by split. }
  bind_simpl. cbn [fst snd] in *.
  match goal with |- context [for_opt h ?f (mem3, st3)] =>
    destruct (for_opt_safe loop_ok f h (mem3, st3)) as ([mem4 st4] & -> & Hok) end;
    [done|by split| |by eauto].
  intros i [m s] Hi [Hm' Hs']. cbn [fst snd] in *. rewrite shl1.
  destruct (Hfetch _ (2 * i + 1) Hm') as (v & -> & Hv); [lia|]. bind_simpl.
  assert (w32 n (allpass kResampleAllpass_0 12 v s)) by eauto with cint. step_rd. step_wr.
  eexists. split; [done|]. by split.
Qed.

Lemma DownBy2ShortToInt_safe inp len mem outp st : len <= Z.of_nat (length inp) -> 0 <= len ->
  0 <= outp -> outp + len / 2 <= Z.of_nat N -> loop_ok (mem, st) ->
  exists mem' st', WebRtcSpl_DownBy2ShortToInt inp len mem outp st = Some (mem', st') /\
    loop_ok (mem', st').
Proof.
  intros Hin Hlen Hout Hroom [Hm Hs]. unfold WebRtcSpl_DownBy2ShortToInt.
  rewrite shiftr_div by lia. change (2 ^ 1) with 2. set (h := len / 2) in *.
  assert (0 <= h /\ 2 * h <= len) as [Hh Hhl] by (unfold h; Z.div_mod_to_equations; lia).
  match goal with |- context [for_opt h ?f (mem, st)] =>
    destruct (for_opt_safe loop_ok f h (mem, st)) as ([mem1 st1] & -> & [Hm1 Hs1]) end;
    [done|by split| |].
  { intros i [m s] Hi [Hm' Hs']. cbn [fst snd] in *. rewrite shl1, rd_Some by lia. bind_simpl.
    match goal with |- context [allpass ?c ?k ?v s] =>
      assert (w32 n (allpass c k v s)) by eauto with cint end. step_wr.
    eexists. split; [done|]. by split. }
  bind_simpl. cbn [fst snd] in *.
  match goal with |- context [for_opt h ?f (mem1, st1)] =>
    destruct (for_opt_safe loop_ok f h (mem1, st1)) as ([mem2 st2] & -> & Hok) end;
    [done|by split| |by eauto].
  intros i [m s] Hi [Hm' Hs']. cbn [fst snd] in *. rewrite shl1, (rd_Some inp) by lia. bind_simpl.
  match goal with |- context [allpass ?c ?k ?v s] =>
    assert (w32 n (allpass c k v s)) by eauto with cint end. step_rd. step_wr.
  eexists. split; [done|]. by split.
Qed.

(** A fractional filter reads [length coef] cells in its direction. *)
Lemma dot_safe mem coef dir : w32 N mem -> forall p tmp, is_i32 tmp ->
  (forall j, 0 <= j < Z.of_nat (length coef) -> 0 <= p + dir * j < Z.of_nat N) ->
  exists v, dot coef mem p dir tmp = Some v /\ is_i32 v.
Proof.
  intros Hm. induction coef as [|c coef IH]; intros p tmp Ht Hp; cbn [dot]; [eauto|].
  destruct (w32_rd N mem p Hm) as [-> R].
  { specialize (Hp 0). simpl length in Hp. lia. }
  bind_simpl. apply IH; [eauto with cint|]. intros j Hj.
  specialize (Hp (j + 1)). simpl length in Hp. lia.
Qed.

Lemma Resample48khzTo32khz_safe mem inp outp K : w32 N mem -> 0 <= K -> 0 <= inp -> 0 <= outp ->
  inp + 3 * K + 6 <= Z.of_nat N -> outp + 2 * K <= Z.of_nat N ->
  exists mem', WebRtcSpl_Resample48khzTo32khz mem inp outp K = Some mem' /\ w32 N mem'.
Proof.
  intros Hm HK Hi Ho Hin Hout. unfold WebRtcSpl_Resample48khzTo32khz.
  apply for_opt_safe; [done|done|]. intros j m Hj Hm'.
  destruct (dot_safe m (nth 0 kCoefficients48To32 []) 1 Hm' (inp + 3 * j) (1 ≪ 14))
    as (v & -> & Hv); [vm_compute; intuition congruence|simpl length; lia|]. bind_simpl. step_wr.
  match goal with R : w32 N ?m1 |- _ =>
    destruct (dot_safe m1 (nth 1 kCoefficients48To32 []) 1 R (inp + 3 * j + 1) (1 ≪ 14))
      as (v1 & -> & Hv1); [vm_compute; intuition congruence|simpl length; lia|] end.
  bind_simpl. step_wr. eauto.
Qed.

Lemma clip16_i16 v : is_i16 (clip16 v).
Proof. apply i16_range. Qed.

(** [out] is an [int16_t] array of which [len/2] cells from [outp] on are
    written. *)
Lemma DownBy2IntToShort_safe mem inp len out outp st : loop_ok (mem, st) -> 0 <= len ->
  len mod 4 = 0 -> 0 <= inp -> inp + len <= Z.of_nat N -> 0 <= outp ->
  outp + len / 2 <= Z.of_nat (length out) -> Forall is_i16 out ->
  exists mem' out' st', WebRtcSpl_DownBy2IntToShort mem inp len out outp st
    = Some (mem', out', st') /\ loop_ok (mem', st') /\ length out' = length out /\
    Forall is_i16 out' /\
    (forall i, 0 <= i -> i < outp \/ outp + len / 2 <= i -> arr out' i = arr out i).
Proof.
  intros [Hm Hs] Hlen H4 Hin Hroom Ho Hol Hout. unfold WebRtcSpl_DownBy2IntToShort.
  rewrite shiftr_div by lia. change (2 ^ 1) with 2. set (h := len / 2) in *.
  assert (0 <= h /\ 2 * h = len /\ 2 * ((h + 1) / 2) = h) as (Hh & Hhl & Hhh)
    by (unfold h in *; Z.div_mod_to_equations; lia).
  match goal with |- context [for_opt h ?f (mem, st)] =>
    destruct (for_opt_safe loop_ok f h (mem, st)) as ([mem1 st1] & -> & [Hm1 Hs1]) end;
    [done|by split| |].
  { intros i [m s] Hi [Hm' Hs']. cbn [fst snd] in *. rewrite shl1. step_rd.
    match goal with |- context [allpass ?c ?k ?v s] =>
      assert (w32 n (allpass c k v s)) by eauto with cint end. step_wr.
    eexists. split; [done|]. by split. }
  bind_simpl. cbn [fst snd] in *.
  match goal with |- context [for_opt h ?f (mem1, st1)] =>
    destruct (for_opt_safe loop_ok f h (mem1, st1)) as ([mem2 st2] & -> & [Hm2 Hs2]) end;
    [done|by split| |].
  { intros i [m s] Hi [Hm' Hs']. cbn [fst snd] in *. rewrite shl1. step_rd.
    match goal with |- context [allpass ?c ?k ?v s] =>
      assert (w32 n (allpass c k v s)) by eauto with cint end. step_wr.
    eexists. split; [done|]. by split. }
  bind_simpl. cbn [fst snd] in *.
  match goal with |- context [for_opt _ ?f out] =>
    destruct (for_opt_safe (fun o => length o = length out /\ Forall is_i16 o /\
      forall i, 0 <= i -> i < outp \/ outp + h <= i -> arr o i = arr out i) f ((h + 1) / 2) out)
      as (out' & -> & Hl' & Hf' & Hu') end; [lia|done| |bind_simpl; by exists mem2, out', st2].
  intros i o Hi (Hl & Hf & Hu). rewrite shl1. do 4 step_rd.
  rewrite wr_Some by lia. bind_simpl. rewrite wr_Some by (rewrite length_upd; lia).
  eexists. split; [done|]. rewrite !length_upd. split; [done|].
  split; [auto using Forall_upd, clip16_i16|].
  intros k Hk0 Hk. rewrite !arr_upd_ne by lia. by apply Hu.
Qed.
End Stages.

(** ** The conversions *)

Definition state48To8_ok (s : WebRtcSpl_State48khzTo8khz) : Prop :=
  w32 8 (S_48_24 s) /\ w32 16 (S_24_24 s) /\ w32 8 (S_24_16 s) /\ w32 8 (S_16_8 s).
Definition state48To16_ok (s : WebRtcSpl_State48khzTo16khz) : Prop :=
  w32 16 (S_48_48 s) /\ w32 8 (S_48_32 s) /\ w32 8 (S_32_16 s).

Lemma w32_zeros n : w32 n (replicate n 0).
Proof. split; [apply length_replicate|]. apply Forall_replicate. unfold is_i32. lia. Qed.

Lemma load_state_ok N mem p st : w32 N mem -> w32 8 st -> 0 <= p -> p + 8 <= Z.of_nat N ->
  exists mem', load_state mem p st = Some mem' /\ w32 N mem'.
Proof.
  intros [Hl Hf] [Hs Hfs] Hp Hr. unfold load_state. rewrite mem_write_Some by lia.
  eexists. split; [done|]. split.
  - rewrite !length_app, length_take, length_drop. lia.
  - apply Forall_app. split; [by apply Forall_take|]. apply Forall_app.
    split; [done|by apply Forall_drop].
Qed.

Lemma save_state_ok N mem p : w32 N mem -> 0 <= p -> p + 8 <= Z.of_nat N ->
  exists st, save_state mem p = Some st /\ w32 8 st.
Proof.
  intros [Hl Hf] Hp Hr. unfold save_state. rewrite mem_read_Some by lia.
  eexists. split; [done|]. split; [rewrite length_take, length_drop; lia|].
  apply Forall_take, Forall_drop. done.
Qed.

(** One 10 ms block of the 48 kHz to 8 kHz conversion. *)
Lemma Resample48khzTo8khz_ok inp out outp st tmpmem N :
  (480 <= length inp)%nat -> Forall is_i16 out -> 0 <= outp ->
  outp + 80 <= Z.of_nat (length out) -> state48To8_ok st -> w32 N tmpmem -> (496 <= N)%nat ->
  exists out' st' mem', WebRtcSpl_Resample48khzTo8khz inp out outp st tmpmem
    = Some (out', st', mem') /\ length out' = length out /\ Forall is_i16 out' /\
    state48To8_ok st' /\ w32 N mem' /\
    (forall i, 0 <= i -> i < outp \/ outp + 80 <= i -> arr out' i = arr out i).
Proof.
  intros Hin Hout Ho Hroom (H1 & H2 & H3 & H4) Hm HN. unfold WebRtcSpl_Resample48khzTo8khz.
  destruct (DownBy2ShortToInt_safe N 8 inp 480 tmpmem 256 (S_48_24 st)) as (m1 & s1 & -> & Hm1 & Hs1);
    [lia|lia|lia|change (480 / 2) with 240; lia|by split|]. bind_simpl. cbn [fst snd] in *.
  destruct (lp_by_2_safe N 16 (fun mem i => rd mem (256 + i)) 240 16 m1 (S_24_24 st))
    as (m2 & s2 & E2 & Hm2 & Hs2); [apply fetch_mem; lia|lia|lia|lia|by split|].
  unfold WebRtcSpl_LPBy2IntToInt. rewrite E2. bind_simpl. cbn [fst snd] in *.
  destruct (load_state_ok N m2 8 (S_24_16 st) Hm2 H3) as (m3 & -> & Hm3); [lia|lia|]. bind_simpl.
  destruct (save_state_ok N m3 248 Hm3) as (s3 & -> & Hs3); [lia|lia|]. bind_simpl.
  destruct (Resample48khzTo32khz_safe N m3 8 0 80 Hm3) as (m4 & -> & Hm4); [lia..|]. bind_simpl.
  destruct (DownBy2IntToShort_safe N 8 m4 0 160 out outp (S_16_8 st))
    as (m5 & out' & s4 & -> & [Hm5 Hs4] & Hl' & Hf' & Hu);
    [by split|lia|done|lia|lia|lia|change (160 / 2) with 80; lia|done|]. bind_simpl.
  exists out', (mkState48To8 s1 s2 s3 s4), m5. change (160 / 2) with 80 in Hu.
  do 3 (split; [done|]). split; [|done]. unfold state48To8_ok. done.
Qed.

Lemma Resample48khzTo16khz_ok inp out outp st tmpmem N :
  (480 <= length inp)%nat -> Forall is_i16 out -> 0 <= outp ->
  outp + 160 <= Z.of_nat (length out) -> state48To16_ok st -> w32 N tmpmem -> (496 <= N)%nat ->
  exists out' st' mem', WebRtcSpl_Resample48khzTo16khz inp out outp st tmpmem
    = Some (out', st', mem') /\ length out' = length out /\ Forall is_i16 out' /\
    state48To16_ok st' /\ w32 N mem' /\
    (forall i, 0 <= i -> i < outp \/ outp + 160 <= i -> arr out' i = arr out i).
Proof.
  intros Hin Hout Ho Hroom (H1 & H2 & H3) Hm HN. unfold WebRtcSpl_Resample48khzTo16khz.
  destruct (lp_by_2_safe N 16 (fun _ i => v ← rd inp i; Some (to_q15 v)) 480 16 tmpmem (S_48_48 st))
    as (m1 & s1 & E1 & Hm1 & Hs1); [apply fetch_short; lia|lia|lia|lia|by split|].
  unfold WebRtcSpl_LPBy2ShortToInt. rewrite E1. bind_simpl. cbn [fst snd] in *.
  destruct (load_state_ok N m1 8 (S_48_32 st) Hm1 H2) as (m2 & -> & Hm2); [lia|lia|]. bind_simpl.
  destruct (save_state_ok N m2 488 Hm2) as (s2 & -> & Hs2); [lia|lia|]. bind_simpl.
  destruct (Resample48khzTo32khz_safe N m2 8 0 160 Hm2) as (m3 & -> & Hm3); [lia..|]. bind_simpl.
  destruct (DownBy2IntToShort_safe N 8 m3 0 320 out outp (S_32_16 st))
    as (m4 & out' & s3 & -> & [Hm4 Hs3] & Hl' & Hf' & Hu);
    [by split|lia|done|lia|lia|lia|change (320 / 2) with 160; lia|done|]. bind_simpl.
  exists out', (mkState48To16 s1 s2 s3), m4. change (320 / 2) with 160 in Hu.
  do 3 (split; [done|]). split; [|done]. unfold state48To16_ok. done.
Qed.

(** The 48 kHz to 8 kHz and 48 kHz to 16 kHz conversions access nothing
    outside their arrays when the scratch array has 496 cells or more, write
    exactly 80 (160) samples, all of them [int16_t], and keep the filter
    states well formed; so blocks can be converted one after the other for
    ever, starting from the reset states. *)
Theorem resample_48khz_safe inp out outp tmpmem :
  (480 <= length inp)%nat -> Forall is_i16 out -> 0 <= outp ->
  (496 <= length tmpmem)%nat -> Forall is_i32 tmpmem ->
  (outp + 80 <= Z.of_nat (length out) ->
   state48To8_ok WebRtcSpl_ResetResample48khzTo8khz /\
   forall st, state48To8_ok st ->
   exists out' st' mem', WebRtcSpl_Resample48khzTo8khz inp out outp st tmpmem
     = Some (out', st', mem') /\ length out' = length out /\ Forall is_i16 out' /\
     state48To8_ok st' /\
     (forall i, 0 <= i -> i < outp \/ outp + 80 <= i -> arr out' i = arr out i)) /\
  (outp + 160 <= Z.of_nat (length out) ->
   state48To16_ok WebRtcSpl_ResetResample48khzTo16khz /\
   forall st, state48To16_ok st ->
   exists out' st' mem', WebRtcSpl_Resample48khzTo16khz inp out outp st tmpmem
     = Some (out', st', mem') /\ length out' = length out /\ Forall is_i16 out' /\
     state48To16_ok st' /\
     (forall i, 0 <= i -> i < outp \/ outp + 160 <= i -> arr out' i = arr out i)).
Proof.
  intros Hin Hout Ho Hm Hf. split; intros Hroom.
  - split; [repeat split; apply w32_zeros|]. intros st Hst.
    destruct (Resample48khzTo8khz_ok inp out outp st tmpmem (length tmpmem))
      as (out' & st' & mem' & E & H1 & H2 & H3 & _ & H4); try done.
    by exists out', st', mem'.
  - split; [repeat split; apply w32_zeros|]. intros st Hst.
    destruct (Resample48khzTo16khz_ok inp out outp st tmpmem (length tmpmem))
      as (out' & st' & mem' & E & H1 & H2 & H3 & _ & H4); try done.
    by exists out', st', mem'.
Qed.

Lemma resample_48khz_safe_witness :
  exists out' st' mem', WebRtcSpl_Resample48khzTo8khz (replicate 480 1000) (replicate 240 0) 80
    WebRtcSpl_ResetResample48khzTo8khz (replicate 736 0) = Some (out', st', mem') /\
    length out' = 240%nat.
Proof.
  destruct (resample_48khz_safe (replicate 480 1000) (replicate 240 0) 80 (replicate 736 0)) as [H _].
  - rewrite length_replicate. lia.
  - apply Forall_replicate. unfold is_i16. lia.
  - lia.
  - rewrite length_replicate. lia.
  - apply Forall_replicate. unfold is_i32. lia.
  - destruct H as [H0 H]; [rewrite length_replicate; lia|].
    destruct (H _ H0) as (out' & st' & mem' & E & Hl & _). rewrite length_replicate in Hl.
    exists out', st', mem'. split; [exact E|exact Hl].
Defined.

(** ** Resampling in place *)

(** The filter on unchanging input, without the access checks. *)
Fixpoint fir (coef : list Z) (f : Z -> Z) (p tmp : Z) : Z :=
  match coef with
  | [] => tmp
  | c :: coef => fir coef f (p + 1) (i32 (tmp + i32 (c * f p)))
  end.

Lemma dot_fir coef mem mem0 : forall p tmp, 0 <= p ->
  p + Z.of_nat (length coef) <= Z.of_nat (length mem) ->
  (forall i, p <= i -> arr mem i = arr mem0 i) ->
  dot coef mem p 1 tmp = Some (fir coef (arr mem0) p tmp).
Proof.
  induction coef as [|c coef IH]; intros p tmp Hp Hl Hsame; cbn [dot fir]; [done|].
  simpl length in Hl. rewrite rd_Some, Hsame by lia. bind_simpl.
  apply IH; [lia|lia|]. intros i Hi. apply Hsame. lia.
Qed.

(** [WebRtcSpl_Resample48khzTo32khz] may run in place: whenever the output
    starts at or before the input in the same array, as in every call of
    [resample_48khz.c], each block still reads its original input samples.
    Output [2m] and [2m+1] are the two interpolation filters applied to the
    original array at [inp + 3m] and [inp + 3m + 1], and all cells outside the
    output are unchanged. *)
Theorem resample_in_place mem inp outp K :
  0 <= K -> 0 <= outp <= inp -> inp + 3 * K + 6 <= Z.of_nat (length mem) ->
  exists mem', WebRtcSpl_Resample48khzTo32khz mem inp outp K = Some mem' /\
    length mem' = length mem /\
    (forall m, 0 <= m < K ->
       arr mem' (outp + 2 * m)
       = fir (nth 0 kCoefficients48To32 []) (arr mem) (inp + 3 * m) 16384 /\
       arr mem' (outp + 2 * m + 1)
       = fir (nth 1 kCoefficients48To32 []) (arr mem) (inp + 3 * m + 1) 16384) /\
    (forall i, 0 <= i -> i < outp \/ outp + 2 * K <= i -> arr mem' i = arr mem i).
Proof.
  intros HK Ho Hlen. unfold WebRtcSpl_Resample48khzTo32khz. change (1 ≪ 14) with 16384.
  apply (for_opt_ind (fun k m' => length m' = length mem /\
    (forall m, 0 <= m < k ->
       arr m' (outp + 2 * m)
       = fir (nth 0 kCoefficients48To32 []) (arr mem) (inp + 3 * m) 16384 /\
       arr m' (outp + 2 * m + 1)
       = fir (nth 1 kCoefficients48To32 []) (arr mem) (inp + 3 * m + 1) 16384) /\
    (forall i, 0 <= i -> i < outp \/ outp + 2 * k <= i -> arr m' i = arr mem i))).
  - done.
  - split; [done|]. split; [intros; lia|done].
  - intros k m' Hk (Hl & Hdone & Hrest).
    rewrite (dot_fir _ m' mem) by (simpl length; try lia; intros; apply Hrest; lia). bind_simpl.
    rewrite wr_Some by lia. bind_simpl. set (m1 := upd m' _ _).
    assert (length m1 = length mem) as Hl1 by (unfold m1; by rewrite length_upd).
    assert (forall i, 0 <= i -> i <> outp + 2 * k -> arr m1 i = arr m' i) as Hm1
      by (intros; unfold m1; apply arr_upd_ne; lia).
    rewrite (dot_fir _ m1 mem) by (simpl length; try lia; intros; rewrite Hm1 by lia; apply Hrest; lia).
    bind_simpl. rewrite wr_Some by lia. eexists. split; [done|]. rewrite length_upd.
    split; [done|]. split.
    + intros m Hm. destruct (decide (m = k)) as [->|Hne].
      * split; [|rewrite arr_upd_eq by lia; done].
        rewrite arr_upd_ne by lia. unfold m1. rewrite arr_upd_eq by lia. done.
      * rewrite !arr_upd_ne, !Hm1 by lia. apply Hdone. lia.
    + intros i Hi Hout. rewrite arr_upd_ne, Hm1 by lia. apply Hrest; lia.
Qed.

Lemma resample_in_place_witness :
  exists mem', WebRtcSpl_Resample48khzTo32khz (replicate 20 3) 8 0 2 = Some mem' /\
    length mem' = 20%nat.
Proof.
  destruct (resample_in_place (replicate 20 3) 8 0 2) as (mem' & E & Hl & _);
    [lia|lia|simpl; lia|]. exists mem'. split; [exact E|exact Hl].
Defined.
