(* ===== verification/SplResample22.v ===== *)
(** The conversions between 22 kHz and 16 or 8 kHz (actually 22.05 kHz, taken
    as 220 samples per 10 ms): [common_audio/signal_processing/resample.c].

    Each conversion works in sub-blocks that chain its stages through the
    scratch array [tmpmem]; as in SplResample the array is one store with
    offsets, the input of a stage and its output lie in overlapping parts of
    it, and [None] is an access outside an array.  [in] advances by dropping
    the samples of the sub-blocks that are done. *)
From S2P Require Import Prelude SplInl SplResample.

Definition kCoefficients32To22 : list (list Z) :=
  [[127; -712; 2359; -6333; 23456; 16775; -3695; 945; -154];
   [-39; 230; -830; 2785; 32366; -2324; 760; -218; 38];
   [117; -663; 2222; -6133; 26634; 13070; -3174; 831; -137];
   [-77; 457; -1677; 5958; 31175; -4136; 1405; -408; 71];
   [98; -560; 1900; -5406; 29240; 9423; -2480; 663; -110]].

(** The first result is stored before the last sample of the second product is
    read; both lie in [mem]. *)
Definition WebRtcSpl_DotProdIntToInt (mem : list Z) (in1 in2 : Z) (coef_ptr : list Z)
    (out1 out2 : Z) : option (list Z) :=
  tmp1 ← dot (take 8 coef_ptr) mem in1 1 16384;
  tmp2 ← dot (take 8 coef_ptr) mem in2 (-1) 16384;
  let coef := arr coef_ptr 8 in
  v ← rd mem (in1 + 8);
  mem ← wr mem out1 (i32 (tmp1 + i32 (coef * v)));
  v ← rd mem (in2 - 8);
  wr mem out2 (i32 (tmp2 + i32 (coef * v))).

(** Here the results go to the [int16_t] array [out]. *)
Definition WebRtcSpl_DotProdIntToShort (mem : list Z) (in1 in2 : Z) (coef_ptr : list Z)
    (out : list Z) (out1 out2 : Z) : option (list Z) :=
  tmp1 ← dot coef_ptr mem in1 1 16384;
  tmp2 ← dot coef_ptr mem in2 (-1) 16384;
  let tmp1 := clip16 (tmp1 ≫ 15) in
  let tmp2 := clip16 (tmp2 ≫ 15) in
  out ← wr out out1 tmp1;
  wr out out2 tmp2.

Definition WebRtcSpl_32khzTo22khzIntToInt (mem : list Z) (inp outp K : Z) : option (list Z) :=
  for_opt K (fun m mem =>
    let inp := inp + 16 * m in
    let outp := outp + 11 * m in
    let coef r := nth r kCoefficients32To22 [] in
    v ← rd mem (inp + 3);
    mem ← wr mem outp (to_q15 v);
    mem ← WebRtcSpl_DotProdIntToInt mem inp (inp + 22) (coef 0%nat) (outp + 1) (outp + 10);
    mem ← WebRtcSpl_DotProdIntToInt mem (inp + 2) (inp + 20) (coef 1%nat) (outp + 2) (outp + 9);
    mem ← WebRtcSpl_DotProdIntToInt mem (inp + 3) (inp + 19) (coef 2%nat) (outp + 3) (outp + 8);
    mem ← WebRtcSpl_DotProdIntToInt mem (inp + 5) (inp + 17) (coef 3%nat) (outp + 4) (outp + 7);
    WebRtcSpl_DotProdIntToInt mem (inp + 6) (inp + 16) (coef 4%nat) (outp + 5) (outp + 6)) mem.

Definition WebRtcSpl_32khzTo22khzIntToShort (mem : list Z) (inp : Z) (out : list Z) (outp K : Z)
  : option (list Z) :=
  for_opt K (fun m out =>
    let inp := inp + 16 * m in
    let outp := outp + 11 * m in
    let coef r := nth r kCoefficients32To22 [] in
    v ← rd mem (inp + 3);
    out ← wr out outp (clip16 v);
    out ← WebRtcSpl_DotProdIntToShort mem inp (inp + 22) (coef 0%nat) out (outp + 1) (outp + 10);
    out ← WebRtcSpl_DotProdIntToShort mem (inp + 2) (inp + 20) (coef 1%nat) out (outp + 2) (outp + 9);
    out ← WebRtcSpl_DotProdIntToShort mem (inp + 3) (inp + 19) (coef 2%nat) out (outp + 3) (outp + 8);
    out ← WebRtcSpl_DotProdIntToShort mem (inp + 5) (inp + 17) (coef 3%nat) out (outp + 4) (outp + 7);
    WebRtcSpl_DotProdIntToShort mem (inp + 6) (inp + 16) (coef 4%nat) out (outp + 5) (outp + 6)) out.

(** ** The conversions *)

Definition SUB_BLOCKS_22_16 : Z := 5.
Definition SUB_BLOCKS_16_22 : Z := 4.
Definition SUB_BLOCKS_22_8 : Z := 2.
Definition SUB_BLOCKS_8_22 : Z := 2.

Record WebRtcSpl_State22khzTo16khz := mkState22To16 {
  S_22_44 : list Z; S_44_32 : list Z; S22_32_16 : list Z }.

(** The body of the loop over the sub-blocks. *)
Definition block_22_16 (inp out : list Z) (outp : Z) (state : WebRtcSpl_State22khzTo16khz)
    (tmpmem : list Z) : option (list Z * WebRtcSpl_State22khzTo16khz * list Z) :=
  '(tmpmem, s1) ← WebRtcSpl_UpBy2ShortToInt inp 44 tmpmem 16 (S_22_44 state);
  tmpmem ← load_state tmpmem 8 (S_44_32 state);
  s2 ← save_state tmpmem 96;
  tmpmem ← WebRtcSpl_Resample44khzTo32khz tmpmem 8 0 8;
  '(tmpmem, out, s3) ← WebRtcSpl_DownBy2IntToShort tmpmem 0 64 out outp (S22_32_16 state);
  Some (out, mkState22To16 s1 s2 s3, tmpmem).

Definition WebRtcSpl_Resample22khzTo16khz (inp out : list Z) (outp : Z)
    (state : WebRtcSpl_State22khzTo16khz) (tmpmem : list Z)
  : option (list Z * WebRtcSpl_State22khzTo16khz * list Z) :=
  for_opt SUB_BLOCKS_22_16 (fun k '(out, state, tmpmem) =>
    block_22_16 (drop (Z.to_nat (44 * k)) inp) out (outp + 32 * k) state tmpmem)
    (out, state, tmpmem).

Definition WebRtcSpl_ResetResample22khzTo16khz : WebRtcSpl_State22khzTo16khz :=
  mkState22To16 (replicate 8 0) (replicate 8 0) (replicate 8 0).

Record WebRtcSpl_State16khzTo22khz := mkState16To22 { S22_16_32 : list Z; S_32_22 : list Z }.

Definition block_16_22 (inp out : list Z) (outp : Z) (state : WebRtcSpl_State16khzTo22khz)
    (tmpmem : list Z) : option (list Z * WebRtcSpl_State16khzTo22khz * list Z) :=
  '(tmpmem, s1) ← WebRtcSpl_UpBy2ShortToInt inp 40 tmpmem 8 (S22_16_32 state);
  tmpmem ← load_state tmpmem 0 (S_32_22 state);
  s2 ← save_state tmpmem 80;
  out ← WebRtcSpl_32khzTo22khzIntToShort tmpmem 0 out outp 5;
  Some (out, mkState16To22 s1 s2, tmpmem).

Definition WebRtcSpl_Resample16khzTo22khz (inp out : list Z) (outp : Z)
    (state : WebRtcSpl_State16khzTo22khz) (tmpmem : list Z)
  : option (list Z * WebRtcSpl_State16khzTo22khz * list Z) :=
  for_opt SUB_BLOCKS_16_22 (fun k '(out, state, tmpmem) =>
    block_16_22 (drop (Z.to_nat (40 * k)) inp) out (outp + 55 * k) state tmpmem)
    (out, state, tmpmem).

Definition WebRtcSpl_ResetResample16khzTo22khz : WebRtcSpl_State16khzTo22khz :=
  mkState16To22 (replicate 8 0) (replicate 8 0).

Record WebRtcSpl_State22khzTo8khz := mkState22To8 {
  S_22_22 : list Z; S_22_16 : list Z; S22_16_8 : list Z }.

Definition block_22_8 (inp out : list Z) (outp : Z) (state : WebRtcSpl_State22khzTo8khz)
    (tmpmem : list Z) : option (list Z * WebRtcSpl_State22khzTo8khz * list Z) :=
  '(tmpmem, s1) ← WebRtcSpl_LPBy2ShortToInt inp 110 tmpmem 16 (S_22_22 state);
  tmpmem ← load_state tmpmem 8 (S_22_16 state);
  s2 ← save_state tmpmem 118;
  tmpmem ← WebRtcSpl_Resample44khzTo32khz tmpmem 8 0 10;
  '(tmpmem, out, s3) ← WebRtcSpl_DownBy2IntToShort tmpmem 0 80 out outp (S22_16_8 state);
  Some (out, mkState22To8 s1 s2 s3, tmpmem).

Definition WebRtcSpl_Resample22khzTo8khz (inp out : list Z) (outp : Z)
    (state : WebRtcSpl_State22khzTo8khz) (tmpmem : list Z)
  : option (list Z * WebRtcSpl_State22khzTo8khz * list Z) :=
  for_opt SUB_BLOCKS_22_8 (fun k '(out, state, tmpmem) =>
    block_22_8 (drop (Z.to_nat (110 * k)) inp) out (outp + 40 * k) state tmpmem)
    (out, state, tmpmem).

Definition WebRtcSpl_ResetResample22khzTo8khz : WebRtcSpl_State22khzTo8khz :=
  mkState22To8 (replicate 16 0) (replicate 8 0) (replicate 8 0).

Record WebRtcSpl_State8khzTo22khz := mkState8To22 {
  S22_8_16 : list Z; S_16_11 : list Z; S_11_22 : list Z }.

Definition block_8_22 (inp out : list Z) (outp : Z) (state : WebRtcSpl_State8khzTo22khz)
    (tmpmem : list Z) : option (list Z * WebRtcSpl_State8khzTo22khz * list Z) :=
  '(tmpmem, s1) ← WebRtcSpl_UpBy2ShortToInt inp 40 tmpmem 18 (S22_8_16 state);
  tmpmem ← load_state tmpmem 10 (S_16_11 state);
  s2 ← save_state tmpmem 90;
  tmpmem ← WebRtcSpl_32khzTo22khzIntToInt tmpmem 10 0 5;
  '(out, s3) ← WebRtcSpl_UpBy2IntToShort tmpmem 0 55 out outp (S_11_22 state);
  Some (out, mkState8To22 s1 s2 s3, tmpmem).

Definition WebRtcSpl_Resample8khzTo22khz (inp out : list Z) (outp : Z)
    (state : WebRtcSpl_State8khzTo22khz) (tmpmem : list Z)
  : option (list Z * WebRtcSpl_State8khzTo22khz * list Z) :=
  for_opt SUB_BLOCKS_8_22 (fun k '(out, state, tmpmem) =>
    block_8_22 (drop (Z.to_nat (40 * k)) inp) out (outp + 110 * k) state tmpmem)
    (out, state, tmpmem).

Definition WebRtcSpl_ResetResample8khzTo22khz : WebRtcSpl_State8khzTo22khz :=
  mkState8To22 (replicate 8 0) (replicate 8 0) (replicate 8 0).

(** ** The fractional filters in place *)

(** The filter output before the wrap to [int32_t]: rounding offset and nine
    products, from [p] on in direction [dir]. *)
Definition fir9 (coef : list Z) (x : Z -> Z) (p dir : Z) : Z :=
  16384 + zsum (fun k => arr coef k * x (p + dir * k)) 9.

(** What one block of the two conversions computes from its input [x]. *)
Definition block44 (x : Z -> Z) : list Z :=
  let c r := nth r kCoefficients44To32 [] in
  [to_q15 (x 3); i32 (fir9 (c 0%nat) x 0 1); i32 (fir9 (c 1%nat) x 2 1); i32 (fir9 (c 2%nat) x 3 1);
   i32 (fir9 (c 3%nat) x 5 1); i32 (fir9 (c 2%nat) x 14 (-1)); i32 (fir9 (c 1%nat) x 15 (-1));
   i32 (fir9 (c 0%nat) x 17 (-1))].
Definition block22 (x : Z -> Z) : list Z :=
  let c r := nth r kCoefficients32To22 [] in
  [to_q15 (x 3); i32 (fir9 (c 0%nat) x 0 1); i32 (fir9 (c 1%nat) x 2 1); i32 (fir9 (c 2%nat) x 3 1);
   i32 (fir9 (c 3%nat) x 5 1); i32 (fir9 (c 4%nat) x 6 1); i32 (fir9 (c 4%nat) x 16 (-1));
   i32 (fir9 (c 3%nat) x 17 (-1)); i32 (fir9 (c 2%nat) x 19 (-1)); i32 (fir9 (c 1%nat) x 20 (-1));
   i32 (fir9 (c 0%nat) x 22 (-1))].

Lemma i32_step t a : i32 (i32 t + i32 a) = i32 (t + a).
Proof. cint. Qed.

(** [k] products, read where the store still agrees with [x]. *)
Lemma dot_sum coef mem dir (x : Z -> Z) : forall p t q,
  (forall k, 0 <= k < Z.of_nat (length coef) ->
     0 <= p + dir * k < Z.of_nat (length mem) /\ arr mem (p + dir * k) = x (q + dir * k)) ->
  dot coef mem p dir (i32 t)
  = Some (i32 (t + zsum (fun k => arr coef k * x (q + dir * k)) (length coef))).
Proof.
  induction coef as [|c coef IH]; intros p t q H; cbn [dot length].
  - cbn [zsum]. by rewrite Z.add_0_r.
  - cbn [length] in H. destruct (H 0) as [R0 E0]; [lia|]. rewrite Z.mul_0_r, !Z.add_0_r in *.
    rewrite rd_Some by lia. bind_simpl. rewrite i32_step, (IH _ _ (q + dir)).
    + rewrite zsum_head, E0, Z.mul_0_r, Z.add_0_r. change (arr (c :: coef) 0) with c.
      rewrite Z.add_assoc. do 3 f_equal. apply zsum_ext. intros i Hi. unfold arr.
      replace (Z.to_nat (i + 1)) with (S (Z.to_nat i)) by lia. cbn [nth]. do 2 f_equal. lia.
    + intros k Hk. destruct (H (k + 1)) as [R E]; [lia|].
      replace (p + dir + dir * k) with (p + dir * (k + 1)) by lia.
      replace (q + dir + dir * k) with (q + dir * (k + 1)) by lia. done.
Qed.

(** [mem] agrees with [x] on the nine cells from [p] in direction [dir]. *)
Definition agrees (mem : list Z) (x : Z -> Z) (p q dir : Z) : Prop :=
  forall k, 0 <= k < 9 -> 0 <= p + dir * k < Z.of_nat (length mem) /\ arr mem (p + dir * k) = x (q + dir * k).

Lemma dot9 coef mem x p q dir : length coef = 9%nat -> agrees mem x p q dir ->
  dot coef mem p dir 16384 = Some (i32 (fir9 coef x q dir)).
Proof.
  intros L H. change 16384 with (i32 16384) at 1. rewrite (dot_sum coef mem dir x p 16384 q).
  - by rewrite L.
  - intros k Hk. apply H. lia.
Qed.

(** Eight of nine products, and the last one added separately. *)
Lemma dot8 coef mem x p q dir : length coef = 9%nat -> agrees mem x p q dir ->
  exists t, dot (take 8 coef) mem p dir 16384 = Some t /\
    forall v, v = x (q + dir * 8) -> i32 (t + i32 (arr coef 8 * v)) = i32 (fir9 coef x q dir).
Proof.
  intros L H. change 16384 with (i32 16384) at 1. rewrite (dot_sum _ mem dir x p 16384 q).
  - eexists. split; [done|]. intros v ->. rewrite i32_step. f_equal. unfold fir9.
    rewrite length_take, L. change (8 `min` 9)%nat with 8%nat. cbn [zsum]. change (Z.of_nat 8) with 8.
    rewrite <-!Z.add_assoc. f_equal.
    assert (forall k, 0 <= k < 8 -> arr (take 8 coef) k = arr coef k) as E.
    { intros k Hk. unfold arr. rewrite !nth_lookup, lookup_take. case_decide; [done|lia]. }
    change (Z.of_nat 0) with 0; change (Z.of_nat 1) with 1; change (Z.of_nat 2) with 2;
    change (Z.of_nat 3) with 3; change (Z.of_nat 4) with 4; change (Z.of_nat 5) with 5;
    change (Z.of_nat 6) with 6; change (Z.of_nat 7) with 7.
    rewrite !E by lia. lia.
  - intros k Hk. rewrite length_take, L in Hk. apply H. lia.
Qed.

(** Both two-product functions, when the first result is not stored over the
    last sample of the second product. *)
Lemma pair_spec mem in1 in2 coef out1 out2 x q1 q2 : length coef = 9%nat ->
  agrees mem x in1 q1 1 -> agrees mem x in2 q2 (-1) ->
  0 <= out1 < Z.of_nat (length mem) -> 0 <= out2 < Z.of_nat (length mem) -> out1 <> in2 - 8 ->
  WebRtcSpl_DotProdIntToInt mem in1 in2 coef out1 out2
  = Some (upd (upd mem out1 (i32 (fir9 coef x q1 1))) out2 (i32 (fir9 coef x q2 (-1)))).
Proof.
  intros L H1 H2 Ho1 Ho2 Hne. unfold WebRtcSpl_DotProdIntToInt.
  destruct (dot8 coef mem x in1 q1 1 L H1) as (t1 & -> & E1). bind_simpl.
  destruct (dot8 coef mem x in2 q2 (-1) L H2) as (t2 & -> & E2). bind_simpl.
  destruct (H1 8) as [R1 V1]; [lia|]. destruct (H2 8) as [R2 V2]; [lia|].
  rewrite rd_Some by lia. bind_simpl. rewrite wr_Some by lia. bind_simpl.
  rewrite rd_Some by (rewrite length_upd; lia). bind_simpl. rewrite wr_Some by (rewrite length_upd; lia).
  rewrite (E1 (arr mem (in1 + 8))) by (rewrite <-V1; f_equal; lia).
  rewrite arr_upd_ne by lia. rewrite (E2 (arr mem (in2 - 8))) by (rewrite <-V2; f_equal; lia). done.
Qed.

(** The store after the blocks before [j]: their outputs, computed from [src],
    are there, everything else is as in [mem0]. *)
Definition converted (n_in n_out : Z) (block : (Z -> Z) -> list Z) (src mem0 : list Z)
    (inp outp j : Z) (mem : list Z) : Prop :=
  length mem = length mem0 /\
  (forall m i, 0 <= m < j -> 0 <= i < n_out ->
     arr mem (outp + n_out * m + i) = arr (block (fun k => arr src (inp + n_in * m + k))) i) /\
  (forall i, 0 <= i -> i < outp \/ outp + n_out * j <= i -> arr mem i = arr mem0 i).

(** A store that has the outputs of block [j] and is otherwise unchanged. *)
Lemma converted_step n_in n_out block src mem0 inp outp j mem mem' : 0 <= j -> 0 <= outp -> 0 < n_out ->
  converted n_in n_out block src mem0 inp outp j mem -> length mem' = length mem ->
  (forall i, 0 <= i < n_out ->
     arr mem' (outp + n_out * j + i) = arr (block (fun k => arr src (inp + n_in * j + k))) i) ->
  (forall i, 0 <= i -> i < outp + n_out * j \/ outp + n_out * j + n_out <= i -> arr mem' i = arr mem i) ->
  converted n_in n_out block src mem0 inp outp (j + 1) mem'.
Proof.
  intros Hj Ho Hn (HL & Hd & Hu) HL' Hb Hr. split; [lia|]. split.
  - intros m i Hm Hi. destruct (decide (m = j)) as [->|]; [by apply Hb|].
    rewrite Hr by nia. apply Hd; lia.
  - intros i Hi Hout. rewrite Hr by nia. apply Hu; nia.
Qed.

(** Shows that a store updated below the input still agrees with the input. *)
Ltac unchanged_input x H :=
  intros k Hk; rewrite ?length_upd; split; [lia|rewrite ?arr_upd_ne by lia; rewrite H by lia; unfold x; f_equal; lia].

(** A chain of updates at offsets from [b], and the value it leaves at one
    offset. *)
Definition put (b : Z) (l : list (Z * Z)) (m : list Z) : list Z :=
  fold_left (fun m pv => upd m (b + pv.1) pv.2) l m.
Fixpoint last_at (l : list (Z * Z)) (i d : Z) : Z :=
  match l with
  | [] => d
  | (p, v) :: l => last_at l i (if p =? i then v else d)
  end.

Lemma put_at b l i : forall m, 0 <= b -> 0 <= i ->
  forallb (fun pv => (0 <=? pv.1) && (b + pv.1 <? Z.of_nat (length m))) l = true ->
  arr (put b l m) (b + i) = last_at l i (arr m (b + i)).
Proof.
  induction l as [|[p v] l IH]; intros m Hb Hi Hl; [done|]. cbn [forallb fst snd] in Hl.
  apply andb_prop in Hl as [Hp Hl]. apply andb_prop in Hp as [Hp1 Hp2].
  change (put b ((p, v) :: l) m) with (put b l (upd m (b + p) v)).
  rewrite IH by (try done; by rewrite length_upd). cbn [last_at]. f_equal.
  destruct (Z.eqb_spec p i) as [->|]; [by rewrite arr_upd_eq by lia|by rewrite arr_upd_ne by lia].
Qed.

(** The cells of one block. *)
Lemma put_block b l m i vs : 0 <= b -> 0 <= i < Z.of_nat (length vs) ->
  forallb (fun pv => (0 <=? pv.1) && (pv.1 <? Z.of_nat (length vs))) l = true ->
  b + Z.of_nat (length vs) <= Z.of_nat (length m) ->
  (forall d, map (fun j => last_at l (Z.of_nat j) d) (seq 0 (length vs)) = vs) ->
  arr (put b l m) (b + i) = arr vs i.
Proof.
  intros Hb Hi Hl Hm Hv. rewrite put_at; [|done|lia|].
  - pose proof (Hv (arr m (b + i))) as E. set (f := fun j : nat => last_at l (Z.of_nat j) (arr m (b + i))) in E.
    rewrite <-E. unfold arr at 2. rewrite (nth_indep _ 0 (f 0%nat)) by (rewrite length_map, length_seq; lia).
    rewrite map_nth, seq_nth by lia. unfold f. f_equal. lia.
  - rewrite forallb_forall in *. intros pv Hpv. specialize (Hl pv Hpv). apply andb_prop in Hl as [H1 H2]. lia.
Qed.

Lemma cells_11 b m v0 v1 v2 v3 v4 v5 v6 v7 v8 v9 v10 i : 0 <= b -> b + 11 <= Z.of_nat (length m) -> 0 <= i < 11 ->
  arr (upd (upd (upd (upd (upd (upd (upd (upd (upd (upd (upd m b v0) (b + 1) v1) (b + 10) v10) (b + 2) v2) (b + 9) v9) (b + 3) v3) (b + 8) v8) (b + 4) v4) (b + 7) v7) (b + 5) v5) (b + 6) v6) (b + i)
  = arr [v0; v1; v2; v3; v4; v5; v6; v7; v8; v9; v10] i.
Proof.
  intros Hb Hm Hi. rewrite <-(Z.add_0_r b) at 1.
  apply (put_block b [(0, v0); (1, v1); (10, v10); (2, v2); (9, v9); (3, v3); (8, v8); (4, v4); (7, v7); (5, v5); (6, v6)] m i [v0; v1; v2; v3; v4; v5; v6; v7; v8; v9; v10]); [done|done|reflexivity|exact Hm|reflexivity].
Qed.

Lemma cells_8 b m v0 v1 v2 v3 v4 v5 v6 v7 i : 0 <= b -> b + 8 <= Z.of_nat (length m) -> 0 <= i < 8 ->
  arr (upd (upd (upd (upd (upd (upd (upd (upd m b v0) (b + 4) v4) (b + 1) v1) (b + 7) v7) (b + 2) v2) (b + 6) v6) (b + 3) v3) (b + 5) v5) (b + i)
  = arr [v0; v1; v2; v3; v4; v5; v6; v7] i.
Proof.
  intros Hb Hm Hi. rewrite <-(Z.add_0_r b) at 1.
  apply (put_block b [(0, v0); (4, v4); (1, v1); (7, v7); (2, v2); (6, v6); (3, v3); (5, v5)] m i [v0; v1; v2; v3; v4; v5; v6; v7]); [done|done|reflexivity|exact Hm|reflexivity].
Qed.

Ltac pair_step x q1 q2 H :=
  match goal with |- context [WebRtcSpl_DotProdIntToInt ?m ?a ?b ?c ?d ?e] =>
    rewrite (pair_spec m a b c d e x q1 q2);
      [bind_simpl|reflexivity|unchanged_input x H|unchanged_input x H|rewrite ?length_upd; lia|rewrite ?length_upd; lia|lia] end.

Lemma convert_32_22 mem inp outp K : 0 <= K -> 0 <= outp <= inp - 10 ->
  inp + 16 * K + 7 <= Z.of_nat (length mem) -> exists mem',
  WebRtcSpl_32khzTo22khzIntToInt mem inp outp K = Some mem' /\
  converted 16 11 block22 mem mem inp outp K mem'.
Proof.
  intros HK Ho HL. unfold WebRtcSpl_32khzTo22khzIntToInt.
  apply for_opt_ind; [done|split; [done|split; [lia|done]]|].
  intros j m Hj Hm. pose proof Hm as (Hl & _ & Hu). cbn zeta.
  assert (forall i, inp + 16 * j <= i -> arr m i = arr mem i) as H by (intros; apply Hu; lia).
  set (x := fun k => arr mem (inp + 16 * j + k)).
  rewrite rd_Some by lia. bind_simpl. rewrite wr_Some by lia. bind_simpl.
  pair_step x 0 22 H. pair_step x 2 20 H. pair_step x 3 19 H. pair_step x 5 17 H. pair_step x 6 16 H.
  eexists. split; [done|].
  apply (converted_step 16 11 block22 mem mem inp outp j m); [lia|lia|lia|done|by rewrite !length_upd| |].
  - intros i Hi. rewrite H by lia. fold x. change (arr mem (inp + 16 * j + 3)) with (x 3).
    unfold block22. apply cells_11; lia.
  - intros i Hi Hout. by rewrite !arr_upd_ne by lia.
Qed.

Lemma convert_44_32 mem inp outp K : 0 <= K -> 0 <= outp <= inp - 8 ->
  inp + 11 * K + 7 <= Z.of_nat (length mem) -> exists mem',
  WebRtcSpl_Resample44khzTo32khz mem inp outp K = Some mem' /\
  converted 11 8 block44 mem mem inp outp K mem'.
Proof.
  intros HK Ho HL. unfold WebRtcSpl_Resample44khzTo32khz.
  apply for_opt_ind; [done|split; [done|split; [lia|done]]|].
  intros j m Hj Hm. pose proof Hm as (Hl & _ & Hu). cbn zeta.
  change WebRtcSpl_ResampDotProduct with WebRtcSpl_DotProdIntToInt.
  assert (forall i, inp + 11 * j <= i -> arr m i = arr mem i) as H by (intros; apply Hu; lia).
  set (x := fun k => arr mem (inp + 11 * j + k)). change (1 ≪ 14) with 16384.
  rewrite rd_Some by lia. bind_simpl. rewrite wr_Some by lia. bind_simpl.
  match goal with |- context [dot ?c ?m0 ?p 1 16384] =>
    rewrite (dot9 c m0 x p 5 1); [bind_simpl|reflexivity|unchanged_input x H] end.
  rewrite wr_Some by (rewrite length_upd; lia). bind_simpl.
  pair_step x 0 17 H. pair_step x 2 15 H. pair_step x 3 14 H.
  eexists. split; [done|].
  apply (converted_step 11 8 block44 mem mem inp outp j m); [lia|lia|lia|done|by rewrite !length_upd| |].
  - intros i Hi. rewrite H by lia. fold x. change (arr mem (inp + 11 * j + 3)) with (x 3).
    unfold block44. apply cells_8; lia.
  - intros i Hi Hout. by rewrite !arr_upd_ne by lia.
Qed.

(** The conversion to 16 bits, with separate input and output. *)
Definition block22_short (x : Z -> Z) : list Z :=
  clip16 (x 3) :: map (fun v => clip16 (v ≫ 15)) (drop 1 (block22 x)).

Lemma short_pair_spec mem in1 in2 coef out out1 out2 x q1 q2 : length coef = 9%nat ->
  agrees mem x in1 q1 1 -> agrees mem x in2 q2 (-1) ->
  0 <= out1 < Z.of_nat (length out) -> 0 <= out2 < Z.of_nat (length out) ->
  WebRtcSpl_DotProdIntToShort mem in1 in2 coef out out1 out2
  = Some (upd (upd out out1 (clip16 (i32 (fir9 coef x q1 1) ≫ 15))) out2
            (clip16 (i32 (fir9 coef x q2 (-1)) ≫ 15))).
Proof.
  intros L H1 H2 Ho1 Ho2. unfold WebRtcSpl_DotProdIntToShort.
  rewrite (dot9 coef mem x in1 q1 1) by done. bind_simpl. rewrite (dot9 coef mem x in2 q2 (-1)) by done.
  bind_simpl. rewrite wr_Some by lia. bind_simpl. by rewrite wr_Some by (rewrite length_upd; lia).
Qed.

Ltac short_pair_step x q1 q2 :=
  match goal with |- context [WebRtcSpl_DotProdIntToShort ?m ?a ?b ?c ?o ?d ?e] =>
    rewrite (short_pair_spec m a b c o d e x q1 q2);
      [bind_simpl|reflexivity|intros k Hk; split; [lia|unfold x; f_equal; lia]
      |intros k Hk; split; [lia|unfold x; f_equal; lia]|rewrite ?length_upd; lia|rewrite ?length_upd; lia] end.

Lemma convert_32_22_short mem inp out outp K : 0 <= K -> 0 <= inp -> 0 <= outp ->
  inp + 16 * K + 7 <= Z.of_nat (length mem) -> outp + 11 * K <= Z.of_nat (length out) -> exists out',
  WebRtcSpl_32khzTo22khzIntToShort mem inp out outp K = Some out' /\
  converted 16 11 block22_short mem out inp outp K out'.
Proof.
  intros HK Hi Ho HL HO. unfold WebRtcSpl_32khzTo22khzIntToShort.
  apply for_opt_ind; [done|split; [done|split; [lia|done]]|].
  intros j o Hj Hm. pose proof Hm as (Hl & _ & Hu). cbn zeta.
  set (x := fun k => arr mem (inp + 16 * j + k)).
  rewrite rd_Some by lia. bind_simpl. rewrite wr_Some by lia. bind_simpl.
  short_pair_step x 0 22. short_pair_step x 2 20. short_pair_step x 3 19. short_pair_step x 5 17.
  short_pair_step x 6 16. eexists. split; [done|].
  apply (converted_step 16 11 block22_short mem out inp outp j o); [lia|lia|lia|done|by rewrite !length_upd| |].
  - intros i Hi'. fold x. change (arr mem (inp + 16 * j + 3)) with (x 3).
    unfold block22_short, block22. cbn [drop map]. apply cells_11; lia.
  - intros i Hi' Hout. by rewrite !arr_upd_ne by lia.
Qed.

(** Every row has at most 55000 as the sum of its magnitudes. *)
Definition row_sum (coef : list Z) : Z := zsum (fun k => Z.abs (arr coef k)) 9.

Lemma rows_bounded coef : In coef (kCoefficients44To32 ++ kCoefficients32To22) -> row_sum coef <= 55000.
Proof.
  intros H. assert (forallb (fun c => row_sum c <=? 55000) (kCoefficients44To32 ++ kCoefficients32To22) = true) as E
    by (vm_compute; reflexivity).
  rewrite forallb_forall in E. specialize (E coef H). lia.
Qed.

Lemma fir9_bound coef x p dir X : 0 <= X -> (forall i, Z.abs (x i) <= X) ->
  Z.abs (fir9 coef x p dir) <= 16384 + row_sum coef * X.
Proof.
  intros HX Hx. unfold fir9, row_sum.
  assert (forall n, Z.abs (zsum (fun k => arr coef k * x (p + dir * k)) n) <= zsum (fun k => Z.abs (arr coef k)) n * X) as H.
  { induction n as [|n IH]; cbn [zsum]; [lia|]. specialize (Hx (p + dir * Z.of_nat n)). nia. }
  specialize (H 9%nat). lia.
Qed.

(** Up to magnitudes of 38000 no filter output wraps. *)
Lemma fir9_exact coef x p dir : In coef (kCoefficients44To32 ++ kCoefficients32To22) ->
  (forall i, Z.abs (x i) <= 38000) -> i32 (fir9 coef x p dir) = fir9 coef x p dir.
Proof.
  intros Hc Hx. apply i32_id. pose proof (fir9_bound coef x p dir 38000 ltac:(lia) Hx).
  pose proof (rows_bounded coef Hc). unfold is_i32. nia.
Qed.

(** ** Safety of the conversions *)

Lemma up_by_2_safe (P : Z -> Prop) fetch store len outp mem st : (forall v, is_i32 v -> P (store v)) ->
  Forall P mem -> w32 8 st -> 0 <= len -> 0 <= outp -> outp + 2 * len <= Z.of_nat (length mem) ->
  (forall m i, 0 <= i < len -> exists v, fetch m i = Some v /\ is_i32 v) ->
  exists mem' st', up_by_2 fetch store len outp mem st = Some (mem', st') /\
    length mem' = length mem /\ Forall P mem' /\ w32 8 st' /\
    (forall i, 0 <= i -> i < outp \/ outp + 2 * len <= i -> arr mem' i = arr mem i).
Proof.
  intros Hs Hm Hst Hl Ho Hr Hf. unfold up_by_2.
  set (P' := fun s : list Z * list Z => length s.1 = length mem /\ Forall P s.1 /\ w32 8 s.2 /\
    (forall i, 0 <= i -> i < outp \/ outp + 2 * len <= i -> arr s.1 i = arr mem i)).
  match goal with |- context [for_opt len ?f (mem, st)] =>
    destruct (for_opt_safe P' f len (mem, st)) as ([m1 s1] & -> & H1) end; [done|done| |].
  { intros i [m s] Hi (L & F & W & U). cbn [fst snd] in *. destruct (Hf m i Hi) as (v & -> & Hv). bind_simpl.
    rewrite shl1, wr_Some by lia. bind_simpl. eexists. split; [done|]. unfold P'. cbn [fst snd].
    rewrite length_upd. split; [done|]. split; [apply Forall_upd; [done|apply Hs; eauto with cint]|].
    split; [eauto with cint|]. intros k Hk Hout. rewrite arr_upd_ne by lia. by apply U. }
  bind_simpl.
  match goal with |- context [for_opt len ?f (m1, s1)] =>
    destruct (for_opt_safe P' f len (m1, s1)) as ([m2 s2] & -> & H2) end; [done|done| |].
  { intros i [m s] Hi (L & F & W & U). cbn [fst snd] in *. destruct (Hf m i Hi) as (v & -> & Hv). bind_simpl.
    rewrite shl1, wr_Some by lia. bind_simpl. eexists. split; [done|]. unfold P'. cbn [fst snd].
    rewrite length_upd. split; [done|]. split; [apply Forall_upd; [done|apply Hs; eauto with cint]|].
    split; [eauto with cint|]. intros k Hk Hout. rewrite arr_upd_ne by lia. by apply U. }
  exists m2, s2. split; [done|]. exact H2.
Qed.

Lemma up_short_safe N inp len mem outp st : w32 N mem -> w32 8 st -> 0 <= len -> 0 <= outp ->
  outp + 2 * len <= Z.of_nat N -> len <= Z.of_nat (length inp) ->
  exists mem' st', WebRtcSpl_UpBy2ShortToInt inp len mem outp st = Some (mem', st') /\ w32 N mem' /\ w32 8 st'.
Proof.
  intros [L F] Hst Hl Ho Hr Hi. unfold WebRtcSpl_UpBy2ShortToInt.
  destruct (up_by_2_safe is_i32 (fun _ i => v ← rd inp i; Some (to_q15 v)) (fun s => s ≫ 15) len outp mem st)
    as (m & s & -> & L' & F' & W & _); try done; try lia.
  - intros v Hv. apply i32_shiftr; [lia|done].
  - intros m i Hi'. rewrite rd_Some by lia. bind_simpl. eexists. split; [done|]. apply to_q15_ok.
  - exists m, s. split; [done|]. split; [split; [lia|done]|done].
Qed.

(** A conversion keeps the cell type of the store it writes to. *)
Lemma converted_Forall (P : Z -> Prop) n_in n_out block src mem0 inp outp K mem : P 0 -> 0 < n_out ->
  0 <= outp -> 0 <= K -> Forall P mem0 -> (forall x i, P (arr (block x) i)) ->
  converted n_in n_out block src mem0 inp outp K mem -> Forall P mem.
Proof.
  intros H0 Hn Ho HK F Hb (L' & Hd & Hu). apply Forall_nth. intros i d Hi.
  rewrite (nth_indep _ d 0 Hi).
  assert (nth i mem 0 = arr mem (Z.of_nat i)) as -> by (unfold arr; f_equal; lia).
  destruct (decide (outp <= Z.of_nat i < outp + n_out * K)) as [Hin|Hout].
  - assert (exists m r, 0 <= m < K /\ 0 <= r < n_out /\ Z.of_nat i = outp + n_out * m + r) as (m & r & Hm & Hr & ->).
    { exists ((Z.of_nat i - outp) / n_out), ((Z.of_nat i - outp) mod n_out).
      pose proof (Z.mod_pos_bound (Z.of_nat i - outp) n_out Hn).
      pose proof (Z.div_mod (Z.of_nat i - outp) n_out ltac:(lia)).
      split; [split; [apply Z.div_pos; lia|apply Z.div_lt_upper_bound; lia]|]. split; [done|lia]. }
    rewrite Hd by lia. apply Hb.
  - rewrite Hu by lia. by apply arr_Forall.
Qed.

Lemma block44_i32 x i : is_i32 (arr (block44 x) i).
Proof. apply arr_Forall; [unfold is_i32; lia|]. unfold block44. repeat constructor; apply i32_range. Qed.
Lemma block22_i32 x i : is_i32 (arr (block22 x) i).
Proof. apply arr_Forall; [unfold is_i32; lia|]. unfold block22. repeat constructor; apply i32_range. Qed.

Lemma block22_short_i16 x i : is_i16 (arr (block22_short x) i).
Proof.
  apply arr_Forall; [unfold is_i16; lia|]. unfold block22_short. constructor; [apply clip16_i16|].
  apply Forall_map, Forall_true. intros v. apply clip16_i16.
Qed.

(** A conversion of [n_in] samples to [n_out] with a scratch array of [room]
    cells: no access outside an array, exactly the output block written, the
    states kept well formed. *)
Definition converts {St} (ok : St -> Prop) (n_in n_out room : Z)
    (conv : list Z -> list Z -> Z -> St -> list Z -> option (list Z * St * list Z)) : Prop :=
  forall inp out outp st tmpmem, n_in <= Z.of_nat (length inp) -> Forall is_i16 out -> 0 <= outp ->
    outp + n_out <= Z.of_nat (length out) -> ok st -> Forall is_i32 tmpmem ->
    room <= Z.of_nat (length tmpmem) ->
  exists out' st' mem', conv inp out outp st tmpmem = Some (out', st', mem') /\
    length out' = length out /\ Forall is_i16 out' /\ ok st' /\ w32 (length tmpmem) mem' /\
    (forall i, 0 <= i -> i < outp \/ outp + n_out <= i -> arr out' i = arr out i).

(** The loop over the sub-blocks. *)
Lemma sub_blocks_convert {St} (ok : St -> Prop) n i o room block : 0 <= n -> 0 <= i -> 0 <= o ->
  converts ok i o room block ->
  converts ok (n * i) (n * o) room (fun inp out outp st tmpmem =>
    for_opt n (fun k '(out, st, tmpmem) => block (drop (Z.to_nat (i * k)) inp) out (outp + o * k) st tmpmem)
      (out, st, tmpmem)).
Proof.
  intros Hn Hi Ho Hblock inp out outp st tmpmem HI HO Hp Hroom Hst Ht Hr.
  destruct (for_opt_ind (fun k (s : list Z * St * list Z) => let '(out', st', mem') := s in
    length out' = length out /\ Forall is_i16 out' /\ ok st' /\ w32 (length tmpmem) mem' /\
    (forall i, 0 <= i -> i < outp \/ outp + o * k <= i -> arr out' i = arr out i))
    (fun k '(out, st, tmpmem) => block (drop (Z.to_nat (i * k)) inp) out (outp + o * k) st tmpmem) n
    (out, st, tmpmem)) as ([[out' st'] mem'] & -> & H1 & H2 & H3 & H4 & H5); [done| | |].
  - split; [done|]. split; [done|]. split; [done|]. split; [by split|done].
  - intros k [[o' s'] m'] Hk (L & F & S' & [Lm Fm] & U).
    destruct (Hblock (drop (Z.to_nat (i * k)) inp) o' (outp + o * k) s' m')
      as (o2 & s2 & m2 & -> & L2 & F2 & S2' & W2 & U2); try done; try nia.
    + rewrite length_drop. nia.
    + eexists. split; [done|]. cbn beta iota. split; [lia|]. split; [done|]. split; [done|].
      rewrite <-Lm. split; [done|]. intros q Hq Hout. rewrite U2 by nia. apply U; [done|]. nia.
  - exists out', st', mem'. split; [done|]. split; [done|]. split; [done|]. split; [done|]. split; [done|].
    intros q Hq Hout. apply H5; [done|]. lia.
Qed.

Definition state22To16_ok (s : WebRtcSpl_State22khzTo16khz) : Prop :=
  w32 8 (S_22_44 s) /\ w32 8 (S_44_32 s) /\ w32 8 (S22_32_16 s).
Definition state16To22_ok (s : WebRtcSpl_State16khzTo22khz) : Prop :=
  w32 8 (S22_16_32 s) /\ w32 8 (S_32_22 s).
Definition state22To8_ok (s : WebRtcSpl_State22khzTo8khz) : Prop :=
  w32 16 (S_22_22 s) /\ w32 8 (S_22_16 s) /\ w32 8 (S22_16_8 s).
Definition state8To22_ok (s : WebRtcSpl_State8khzTo22khz) : Prop :=
  w32 8 (S22_8_16 s) /\ w32 8 (S_16_11 s) /\ w32 8 (S_11_22 s).

(** The middle stages on an [int32_t] store. *)
Lemma Resample44khzTo32khz_safe N mem K : w32 N mem -> 0 <= K -> 8 + 11 * K + 7 <= Z.of_nat N ->
  exists mem', WebRtcSpl_Resample44khzTo32khz mem 8 0 K = Some mem' /\ w32 N mem'.
Proof.
  intros [L F] HK Hr. destruct (convert_44_32 mem 8 0 K HK) as (m & E & Hc); [lia|lia|].
  exists m. split; [done|]. split; [destruct Hc as [Lc _]; lia|].
  eapply (converted_Forall is_i32); [unfold is_i32; lia| | | |exact F|exact block44_i32|exact Hc]; lia.
Qed.
Lemma Resample32khzTo22khz_safe N mem K : w32 N mem -> 0 <= K -> 10 + 16 * K + 7 <= Z.of_nat N ->
  exists mem', WebRtcSpl_32khzTo22khzIntToInt mem 10 0 K = Some mem' /\ w32 N mem'.
Proof.
  intros [L F] HK Hr. destruct (convert_32_22 mem 10 0 K HK) as (m & E & Hc); [lia|lia|].
  exists m. split; [done|]. split; [destruct Hc as [Lc _]; lia|].
  eapply (converted_Forall is_i32); [unfold is_i32; lia| | | |exact F|exact block22_i32|exact Hc]; lia.
Qed.

Lemma block_22_16_ok : converts state22To16_ok 44 32 104 block_22_16.
Proof.
  intros inp out outp st tmpmem Hin Hout Ho Hroom (H1 & H2 & H3) Ht Hr. unfold block_22_16.
  set (N := length tmpmem) in *.
  destruct (up_short_safe N inp 44 tmpmem 16 (S_22_44 st)) as (m1 & s1 & -> & Hm1 & Hs1); try done; try lia.
  bind_simpl. destruct (load_state_ok N m1 8 (S_44_32 st) Hm1 H2) as (m2 & -> & Hm2); [lia|lia|]. bind_simpl.
  destruct (save_state_ok N m2 96 Hm2) as (s2 & -> & Hs2); [lia|lia|]. bind_simpl.
  destruct (Resample44khzTo32khz_safe N m2 8 Hm2) as (m3 & -> & Hm3); [lia|lia|]. bind_simpl.
  destruct (DownBy2IntToShort_safe N 8 m3 0 64 out outp (S22_32_16 st))
    as (m4 & out' & s3 & -> & [Hm4 Hs3] & Hl' & Hf' & Hu);
    [by split|lia|done|lia|lia|lia|change (64 / 2) with 32; lia|done|]. bind_simpl.
  exists out', (mkState22To16 s1 s2 s3), m4. change (64 / 2) with 32 in Hu.
  do 3 (split; [done|]). split; [exact (conj Hs1 (conj Hs2 Hs3))|]. by split.
Qed.

Lemma block_16_22_ok : converts state16To22_ok 40 55 88 block_16_22.
Proof.
  intros inp out outp st tmpmem Hin Hout Ho Hroom (H1 & H2) Ht Hr. unfold block_16_22.
  set (N := length tmpmem) in *.
  destruct (up_short_safe N inp 40 tmpmem 8 (S22_16_32 st)) as (m1 & s1 & -> & Hm1 & Hs1); try done; try lia.
  bind_simpl. destruct (load_state_ok N m1 0 (S_32_22 st) Hm1 H2) as (m2 & -> & Hm2); [lia|lia|]. bind_simpl.
  destruct (save_state_ok N m2 80 Hm2) as (s2 & -> & Hs2); [lia|lia|]. bind_simpl.
  destruct (convert_32_22_short m2 0 out outp 5) as (out' & -> & Hc); [lia|lia|lia|destruct Hm2; lia|lia|].
  bind_simpl. exists out', (mkState16To22 s1 s2), m2. pose proof Hc as (L & _ & U).
  split; [done|]. split; [done|]. split; [|split; [exact (conj Hs1 Hs2)|split; [done|exact U] ] ].
  eapply (converted_Forall is_i16); [unfold is_i16; lia| | | |exact Hout|exact block22_short_i16|exact Hc]; lia.
Qed.

Lemma block_22_8_ok : converts state22To8_ok 110 40 126 block_22_8.
Proof.
  intros inp out outp st tmpmem Hin Hout Ho Hroom (H1 & H2 & H3) Ht Hr. unfold block_22_8.
  set (N := length tmpmem) in *. unfold WebRtcSpl_LPBy2ShortToInt.
  destruct (lp_by_2_safe N 16 (fun _ i => v ← rd inp i; Some (to_q15 v)) 110 16 tmpmem (S_22_22 st))
    as (m1 & s1 & -> & Hm1 & Hs1); [apply fetch_short; lia|lia|lia|lia|by split|].
  bind_simpl. cbn [fst snd] in *.
  destruct (load_state_ok N m1 8 (S_22_16 st) Hm1 H2) as (m2 & -> & Hm2); [lia|lia|]. bind_simpl.
  destruct (save_state_ok N m2 118 Hm2) as (s2 & -> & Hs2); [lia|lia|]. bind_simpl.
  destruct (Resample44khzTo32khz_safe N m2 10 Hm2) as (m3 & -> & Hm3); [lia|lia|]. bind_simpl.
  destruct (DownBy2IntToShort_safe N 8 m3 0 80 out outp (S22_16_8 st))
    as (m4 & out' & s3 & -> & [Hm4 Hs3] & Hl' & Hf' & Hu);
    [by split|lia|done|lia|lia|lia|change (80 / 2) with 40; lia|done|]. bind_simpl.
  exists out', (mkState22To8 s1 s2 s3), m4. change (80 / 2) with 40 in Hu.
  do 3 (split; [done|]). split; [exact (conj Hs1 (conj Hs2 Hs3))|]. by split.
Qed.

Lemma block_8_22_ok : converts state8To22_ok 40 110 98 block_8_22.
Proof.
  intros inp out outp st tmpmem Hin Hout Ho Hroom (H1 & H2 & H3) Ht Hr. unfold block_8_22.
  set (N := length tmpmem) in *.
  destruct (up_short_safe N inp 40 tmpmem 18 (S22_8_16 st)) as (m1 & s1 & -> & Hm1 & Hs1); try done; try lia.
  bind_simpl. destruct (load_state_ok N m1 10 (S_16_11 st) Hm1 H2) as (m2 & -> & Hm2); [lia|lia|]. bind_simpl.
  destruct (save_state_ok N m2 90 Hm2) as (s2 & -> & Hs2); [lia|lia|]. bind_simpl.
  destruct (Resample32khzTo22khz_safe N m2 5 Hm2) as (m3 & -> & Hm3); [lia|lia|]. bind_simpl.
  unfold WebRtcSpl_UpBy2IntToShort.
  destruct (up_by_2_safe is_i16 (fun _ i => rd m3 (0 + i)) (fun s => clip16 (s ≫ 15)) 55 outp out (S_11_22 st))
    as (out' & s3 & -> & L' & F' & W & U); try done; try lia.
  - intros v _. apply clip16_i16.
  - intros _ i Hi. destruct (w32_rd N m3 (0 + i) Hm3) as [E R]; [lia|eauto].
  - bind_simpl. exists out', (mkState8To22 s1 s2 s3), m3. split; [done|]. split; [done|]. split; [done|].
    split; [exact (conj Hs1 (conj Hs2 W))|]. split; [done|]. exact U.
Qed.

(** The four conversions between 22 kHz and 16 or 8 kHz stay inside their
    arrays for every input and every well-formed state when the scratch array
    has 104, 88, 126 or 98 cells; they write exactly their output block and
    leave a well-formed state, and the reset states are well formed, so 10 ms
    blocks can be converted one after the other for ever. *)
Theorem resample_22khz_safe :
  (converts state22To16_ok 220 160 104 WebRtcSpl_Resample22khzTo16khz /\
   state22To16_ok WebRtcSpl_ResetResample22khzTo16khz) /\
  (converts state16To22_ok 160 220 88 WebRtcSpl_Resample16khzTo22khz /\
   state16To22_ok WebRtcSpl_ResetResample16khzTo22khz) /\
  (converts state22To8_ok 220 80 126 WebRtcSpl_Resample22khzTo8khz /\
   state22To8_ok WebRtcSpl_ResetResample22khzTo8khz) /\
  (converts state8To22_ok 80 220 98 WebRtcSpl_Resample8khzTo22khz /\
   state8To22_ok WebRtcSpl_ResetResample8khzTo22khz).
Proof.
  unfold state22To16_ok at 2, state16To22_ok at 2, state22To8_ok at 2, state8To22_ok at 2.
  repeat match goal with |- _ /\ _ => split end; try apply w32_zeros.
  - apply (sub_blocks_convert state22To16_ok 5 44 32 104 block_22_16); [lia..|exact block_22_16_ok].
  - apply (sub_blocks_convert state16To22_ok 4 40 55 88 block_16_22); [lia..|exact block_16_22_ok].
  - apply (sub_blocks_convert state22To8_ok 2 110 40 126 block_22_8); [lia..|exact block_22_8_ok].
  - apply (sub_blocks_convert state8To22_ok 2 40 110 98 block_8_22); [lia..|exact block_8_22_ok].
Qed.

(** C26: The fractional filters at the heart of the conversions are right
    although input and output share an array: when the output starts at least
    8 (10) cells before the input, as in every call of the file, each block of
    11 (16) samples is turned into the 8 (11) filter outputs of its original
    input and the rest of the array is unchanged; with separate arrays the
    second filter saturates to 16 bits.  For samples up to 38000 no output
    wraps. *)
Theorem resample_22khz_in_place mem inp outp K : 0 <= K -> 0 <= outp ->
  (outp + 8 <= inp -> inp + 11 * K + 7 <= Z.of_nat (length mem) -> exists mem',
     WebRtcSpl_Resample44khzTo32khz mem inp outp K = Some mem' /\
     converted 11 8 block44 mem mem inp outp K mem') /\
  (outp + 10 <= inp -> inp + 16 * K + 7 <= Z.of_nat (length mem) -> exists mem',
     WebRtcSpl_32khzTo22khzIntToInt mem inp outp K = Some mem' /\
     converted 16 11 block22 mem mem inp outp K mem') /\
  (forall out, 0 <= inp -> inp + 16 * K + 7 <= Z.of_nat (length mem) ->
     outp + 11 * K <= Z.of_nat (length out) -> exists out',
     WebRtcSpl_32khzTo22khzIntToShort mem inp out outp K = Some out' /\
     converted 16 11 block22_short mem out inp outp K out') /\
  (forall coef x p dir, In coef (kCoefficients44To32 ++ kCoefficients32To22) ->
     (forall i, Z.abs (x i) <= 38000) -> i32 (fir9 coef x p dir) = fir9 coef x p dir).
Proof.
  intros HK Ho. split; [|split; [|split] ].
  - intros. apply convert_44_32; lia.
  - intros. apply convert_32_22; lia.
  - intros. apply convert_32_22_short; lia.
  - intros. by apply fir9_exact.
Qed.

Lemma resample_22khz_in_place_witness : exists mem',
  WebRtcSpl_32khzTo22khzIntToInt (seqZ 0 50) 10 0 2 = Some mem' /\
  arr mem' 12 = i32 (fir9 [127; -712; 2359; -6333; 23456; 16775; -3695; 945; -154]
                       (fun k => arr (seqZ 0 50) (26 + k)) 0 1).
Proof.
  destruct (resample_22khz_in_place (seqZ 0 50) 10 0 2) as (_ & H & _); [lia|lia|].
  destruct H as (mem' & E & _ & Hc & _); [lia|vm_compute; intros H; discriminate H|].
  exists mem'. split; [exact E|]. exact (Hc 1 1 ltac:(lia) ltac:(lia)).
Defined.

Lemma resample_22khz_safe_witness : exists out' st' mem',
  WebRtcSpl_Resample22khzTo16khz (replicate 220 1000) (replicate 160 0) 0
    WebRtcSpl_ResetResample22khzTo16khz (replicate 104 0) = Some (out', st', mem') /\
  length out' = 160%nat /\ state22To16_ok st'.
Proof.
  destruct resample_22khz_safe as [ [H H0] _].
  destruct (H (replicate 220 1000) (replicate 160 0) 0 WebRtcSpl_ResetResample22khzTo16khz (replicate 104 0))
    as (out' & st' & mem' & E & HL & _ & Hs & _).
  - rewrite length_replicate. lia.
  - apply Forall_replicate. unfold is_i16. lia.
  - lia.
  - rewrite length_replicate. lia.
  - exact H0.
  - apply Forall_replicate. unfold is_i32. lia.
  - rewrite length_replicate. lia.
  - exists out', st', mem'. split; [exact E|]. rewrite length_replicate in HL. split; [exact HL|exact Hs].
Defined.
