(* ===== verification/VadFilter.v ===== *)
(** The state and the signal processing of the voice activity detector:
    [common_audio/vad/vad_core.h] (the instance struct), [vad_sp.c],
    [vad_gmm.c] and [vad_filterbank.c]. *)
From S2P Require Import Prelude SplInl SplMath SplVec SplResample.

(** ** The instance *)

Definition kNumChannels : Z := 6.
Definition kNumGaussians : Z := 2.
Definition kTableSize : Z := kNumChannels * kNumGaussians.
Definition kMinEnergy : Z := 10.

Record VadInstT := mkVad {
  vad : Z;
  downsampling_filter_states : list Z;
  state_48_to_8 : WebRtcSpl_State48khzTo8khz;
  noise_means : list Z;
  speech_means : list Z;
  noise_stds : list Z;
  speech_stds : list Z;
  frame_counter : Z;
  over_hang : Z;
  num_of_speech : Z;
  index_vector : list Z;
  low_value_vector : list Z;
  mean_value : list Z;
  upper_state : list Z;
  lower_state : list Z;
  hp_filter_state : list Z;
  over_hang_max_1 : list Z;
  over_hang_max_2 : list Z;
  individual : list Z;
  total : list Z;
  init_flag : Z
}.

(** Assignments to one field. *)
Definition set_vad (v : Z) (s : VadInstT) : VadInstT :=
  mkVad v (downsampling_filter_states s) (state_48_to_8 s) (noise_means s) (speech_means s)
    (noise_stds s) (speech_stds s) (frame_counter s) (over_hang s) (num_of_speech s)
    (index_vector s) (low_value_vector s) (mean_value s) (upper_state s) (lower_state s)
    (hp_filter_state s) (over_hang_max_1 s) (over_hang_max_2 s) (individual s) (total s)
    (init_flag s).
Definition set_downsampling_filter_states (v : list Z) (s : VadInstT) : VadInstT :=
  mkVad (vad s) v (state_48_to_8 s) (noise_means s) (speech_means s) (noise_stds s)
    (speech_stds s) (frame_counter s) (over_hang s) (num_of_speech s) (index_vector s)
    (low_value_vector s) (mean_value s) (upper_state s) (lower_state s) (hp_filter_state s)
    (over_hang_max_1 s) (over_hang_max_2 s) (individual s) (total s) (init_flag s).
Definition set_state_48_to_8 (v : WebRtcSpl_State48khzTo8khz) (s : VadInstT) : VadInstT :=
  mkVad (vad s) (downsampling_filter_states s) v (noise_means s) (speech_means s)
    (noise_stds s) (speech_stds s) (frame_counter s) (over_hang s) (num_of_speech s)
    (index_vector s) (low_value_vector s) (mean_value s) (upper_state s) (lower_state s)
    (hp_filter_state s) (over_hang_max_1 s) (over_hang_max_2 s) (individual s) (total s)
    (init_flag s).
Definition set_noise_means (v : list Z) (s : VadInstT) : VadInstT :=
  mkVad (vad s) (downsampling_filter_states s) (state_48_to_8 s) v (speech_means s)
    (noise_stds s) (speech_stds s) (frame_counter s) (over_hang s) (num_of_speech s)
    (index_vector s) (low_value_vector s) (mean_value s) (upper_state s) (lower_state s)
    (hp_filter_state s) (over_hang_max_1 s) (over_hang_max_2 s) (individual s) (total s)
    (init_flag s).
Definition set_speech_means (v : list Z) (s : VadInstT) : VadInstT :=
  mkVad (vad s) (downsampling_filter_states s) (state_48_to_8 s) (noise_means s) v
    (noise_stds s) (speech_stds s) (frame_counter s) (over_hang s) (num_of_speech s)
    (index_vector s) (low_value_vector s) (mean_value s) (upper_state s) (lower_state s)
    (hp_filter_state s) (over_hang_max_1 s) (over_hang_max_2 s) (individual s) (total s)
    (init_flag s).
Definition set_noise_stds (v : list Z) (s : VadInstT) : VadInstT :=
  mkVad (vad s) (downsampling_filter_states s) (state_48_to_8 s) (noise_means s)
    (speech_means s) v (speech_stds s) (frame_counter s) (over_hang s) (num_of_speech s)
    (index_vector s) (low_value_vector s) (mean_value s) (upper_state s) (lower_state s)
    (hp_filter_state s) (over_hang_max_1 s) (over_hang_max_2 s) (individual s) (total s)
    (init_flag s).
Definition set_speech_stds (v : list Z) (s : VadInstT) : VadInstT :=
  mkVad (vad s) (downsampling_filter_states s) (state_48_to_8 s) (noise_means s)
    (speech_means s) (noise_stds s) v (frame_counter s) (over_hang s) (num_of_speech s)
    (index_vector s) (low_value_vector s) (mean_value s) (upper_state s) (lower_state s)
    (hp_filter_state s) (over_hang_max_1 s) (over_hang_max_2 s) (individual s) (total s)
    (init_flag s).
Definition set_frame_counter (v : Z) (s : VadInstT) : VadInstT :=
  mkVad (vad s) (downsampling_filter_states s) (state_48_to_8 s) (noise_means s)
    (speech_means s) (noise_stds s) (speech_stds s) v (over_hang s) (num_of_speech s)
    (index_vector s) (low_value_vector s) (mean_value s) (upper_state s) (lower_state s)
    (hp_filter_state s) (over_hang_max_1 s) (over_hang_max_2 s) (individual s) (total s)
    (init_flag s).
Definition set_over_hang (v : Z) (s : VadInstT) : VadInstT :=
  mkVad (vad s) (downsampling_filter_states s) (state_48_to_8 s) (noise_means s)
    (speech_means s) (noise_stds s) (speech_stds s) (frame_counter s) v (num_of_speech s)
    (index_vector s) (low_value_vector s) (mean_value s) (upper_state s) (lower_state s)
    (hp_filter_state s) (over_hang_max_1 s) (over_hang_max_2 s) (individual s) (total s)
    (init_flag s).
Definition set_num_of_speech (v : Z) (s : VadInstT) : VadInstT :=
  mkVad (vad s) (downsampling_filter_states s) (state_48_to_8 s) (noise_means s)
    (speech_means s) (noise_stds s) (speech_stds s) (frame_counter s) (over_hang s) v
    (index_vector s) (low_value_vector s) (mean_value s) (upper_state s) (lower_state s)
    (hp_filter_state s) (over_hang_max_1 s) (over_hang_max_2 s) (individual s) (total s)
    (init_flag s).
Definition set_index_vector (v : list Z) (s : VadInstT) : VadInstT :=
  mkVad (vad s) (downsampling_filter_states s) (state_48_to_8 s) (noise_means s)
    (speech_means s) (noise_stds s) (speech_stds s) (frame_counter s) (over_hang s)
    (num_of_speech s) v (low_value_vector s) (mean_value s) (upper_state s) (lower_state s)
    (hp_filter_state s) (over_hang_max_1 s) (over_hang_max_2 s) (individual s) (total s)
    (init_flag s).
Definition set_low_value_vector (v : list Z) (s : VadInstT) : VadInstT :=
  mkVad (vad s) (downsampling_filter_states s) (state_48_to_8 s) (noise_means s)
    (speech_means s) (noise_stds s) (speech_stds s) (frame_counter s) (over_hang s)
    (num_of_speech s) (index_vector s) v (mean_value s) (upper_state s) (lower_state s)
    (hp_filter_state s) (over_hang_max_1 s) (over_hang_max_2 s) (individual s) (total s)
    (init_flag s).
Definition set_mean_value (v : list Z) (s : VadInstT) : VadInstT :=
  mkVad (vad s) (downsampling_filter_states s) (state_48_to_8 s) (noise_means s)
    (speech_means s) (noise_stds s) (speech_stds s) (frame_counter s) (over_hang s)
    (num_of_speech s) (index_vector s) (low_value_vector s) v (upper_state s) (lower_state
    s) (hp_filter_state s) (over_hang_max_1 s) (over_hang_max_2 s) (individual s) (total s)
    (init_flag s).
Definition set_upper_state (v : list Z) (s : VadInstT) : VadInstT :=
  mkVad (vad s) (downsampling_filter_states s) (state_48_to_8 s) (noise_means s)
    (speech_means s) (noise_stds s) (speech_stds s) (frame_counter s) (over_hang s)
    (num_of_speech s) (index_vector s) (low_value_vector s) (mean_value s) v (lower_state s)
    (hp_filter_state s) (over_hang_max_1 s) (over_hang_max_2 s) (individual s) (total s)
    (init_flag s).
Definition set_lower_state (v : list Z) (s : VadInstT) : VadInstT :=
  mkVad (vad s) (downsampling_filter_states s) (state_48_to_8 s) (noise_means s)
    (speech_means s) (noise_stds s) (speech_stds s) (frame_counter s) (over_hang s)
    (num_of_speech s) (index_vector s) (low_value_vector s) (mean_value s) (upper_state s) v
    (hp_filter_state s) (over_hang_max_1 s) (over_hang_max_2 s) (individual s) (total s)
    (init_flag s).
Definition set_hp_filter_state (v : list Z) (s : VadInstT) : VadInstT :=
  mkVad (vad s) (downsampling_filter_states s) (state_48_to_8 s) (noise_means s)
    (speech_means s) (noise_stds s) (speech_stds s) (frame_counter s) (over_hang s)
    (num_of_speech s) (index_vector s) (low_value_vector s) (mean_value s) (upper_state s)
    (lower_state s) v (over_hang_max_1 s) (over_hang_max_2 s) (individual s) (total s)
    (init_flag s).
Definition set_init_flag (v : Z) (s : VadInstT) : VadInstT :=
  mkVad (vad s) (downsampling_filter_states s) (state_48_to_8 s) (noise_means s)
    (speech_means s) (noise_stds s) (speech_stds s) (frame_counter s) (over_hang s)
    (num_of_speech s) (index_vector s) (low_value_vector s) (mean_value s) (upper_state s)
    (lower_state s) (hp_filter_state s) (over_hang_max_1 s) (over_hang_max_2 s) (individual
    s) (total s) v.
Definition set_thresholds (a b c d : list Z) (s : VadInstT) : VadInstT :=
  mkVad (vad s) (downsampling_filter_states s) (state_48_to_8 s) (noise_means s)
    (speech_means s) (noise_stds s) (speech_stds s) (frame_counter s) (over_hang s)
    (num_of_speech s) (index_vector s) (low_value_vector s) (mean_value s) (upper_state s)
    (lower_state s) (hp_filter_state s) a b c d (init_flag s).

(** ** vad_sp.c *)

Definition kAllPassCoefsQ13 : list Z := [5243; 1392].
Definition kSmoothingDown : Z := 6553.
Definition kSmoothingUp : Z := 32439.

(** One all-pass branch: the sample produced and the new state. *)
Definition down_branch (coef state v : Z) : Z * Z :=
  let tmp16 := i16 ((state ≫ 1) + (i32 (coef * v) ≫ 14)) in
  (tmp16, i32 (v - (i32 (coef * tmp16) ≫ 12))).

(** Writes the output samples to [signal_out]; returns that array and the two
    filter states. *)
Definition WebRtcVad_Downsampling (signal_in signal_out : list Z) (filter_state : Z * Z)
    (in_length : Z) : option (list Z * (Z * Z)) :=
  let half_length := in_length ≫ 1 in
  for_opt half_length (fun n '(signal_out, (tmp32_1, tmp32_2)) =>
    v0 ← rd signal_in (2 * n);
    let '(tmp16_1, tmp32_1) := down_branch (arr kAllPassCoefsQ13 0) tmp32_1 v0 in
    signal_out ← wr signal_out n tmp16_1;
    v1 ← rd signal_in (2 * n + 1);
    let '(tmp16_2, tmp32_2) := down_branch (arr kAllPassCoefsQ13 1) tmp32_2 v1 in
    o ← rd signal_out n;
    signal_out ← wr signal_out n (i16 (o + tmp16_2));
    Some (signal_out, (tmp32_1, tmp32_2)))
    (signal_out, filter_state).

(** The values and ages from [i] on move down by one; the last cell becomes
    the marker [(10000, 101)]. *)
Definition drop_old (i : Z) (st : list Z * list Z) : list Z * list Z :=
  let '(age, smallest_values) := for_loop (15 - i) (fun d '(age, smallest_values) =>
    let j := i + d in
    (upd age j (arr age (j + 1)), upd smallest_values j (arr smallest_values (j + 1)))) st in
  (upd age 15 101, upd smallest_values 15 10000).

(** The aging loop. *)
Definition age_values (st : list Z * list Z) : list Z * list Z :=
  for_loop 16 (fun i '(age, smallest_values) =>
    if negb (arr age i =? 100) then (upd age i (i16 (arr age i + 1)), smallest_values)
    else drop_old i (age, smallest_values)) st.

(** The decision tree that locates [feature_value]. *)
Definition find_position (feature_value : Z) (smallest_values : list Z) : Z :=
  let lt k := feature_value <? arr smallest_values k in
  if lt 7 then
    if lt 3 then
      if lt 1 then (if lt 0 then 0 else 1)
      else if lt 2 then 2 else 3
    else if lt 5 then (if lt 4 then 4 else 5)
    else if lt 6 then 6 else 7
  else if lt 15 then
    if lt 11 then
      if lt 9 then (if lt 8 then 8 else 9)
      else if lt 10 then 10 else 11
    else if lt 13 then (if lt 12 then 12 else 13)
    else if lt 14 then 14 else 15
  else -1.

(** [for (i = 15; i > position; i--)]: shift the larger values up. *)
Definition insert_value (position feature_value : Z) (st : list Z * list Z) : list Z * list Z :=
  let '(age, smallest_values) := for_loop (15 - position) (fun d '(age, smallest_values) =>
    let i := 15 - d in
    (upd age i (arr age (i - 1)), upd smallest_values i (arr smallest_values (i - 1)))) st in
  (upd age position 1, upd smallest_values position feature_value).

(** The 16 cells of [channel] in [index_vector] and [low_value_vector]. *)
Definition window (l : list Z) (channel : Z) : list Z :=
  take 16 (drop (Z.to_nat (channel ≪ 4)) l).
Definition set_window (l : list Z) (channel : Z) (w : list Z) : list Z :=
  take (Z.to_nat (channel ≪ 4)) l ++ w ++ drop (Z.to_nat (channel ≪ 4) + 16) l.

(** [RTC_DCHECK_LT(channel, kNumChannels)] holds at the only call, which is in
    the loop over the channels; the theorems have it as a hypothesis. *)
Definition WebRtcVad_FindMinimum (self : VadInstT) (feature_value channel : Z) : Z * VadInstT :=
  let st := age_values (window (index_vector self) channel, window (low_value_vector self) channel) in
  let position := find_position feature_value (snd st) in
  let '(age, smallest_values) :=
    if -1 <? position then insert_value position feature_value st else st in
  let current_median :=
    if 2 <? frame_counter self then arr smallest_values 2
    else if 0 <? frame_counter self then arr smallest_values 0
    else 1600 in
  let alpha :=
    if 0 <? frame_counter self
    then (if current_median <? arr (mean_value self) channel then kSmoothingDown else kSmoothingUp)
    else 0 in
  let tmp32 := i32 ((alpha + 1) * arr (mean_value self) channel) in
  let tmp32 := i32 (tmp32 + i32 ((WEBRTC_SPL_WORD16_MAX - alpha) * current_median)) in
  let tmp32 := i32 (tmp32 + 16384) in
  let mean := i16 (tmp32 ≫ 15) in
  (mean,
   set_mean_value (upd (mean_value self) channel mean)
     (set_low_value_vector (set_window (low_value_vector self) channel smallest_values)
        (set_index_vector (set_window (index_vector self) channel age) self))).

(** ** vad_gmm.c *)

Definition kCompVar : Z := 22005.
Definition kLog2Exp : Z := 5909.

(** Returns the probability and [delta]. *)
Definition WebRtcVad_GaussianProbability (input mean std : Z) : Z * Z :=
  let tmp32 := i32 (131072 + (std ≫ 1)) in
  let inv_std := i16 (WebRtcSpl_DivW32W16 tmp32 std) in
  let tmp16 := inv_std ≫ 2 in
  let inv_std2 := i16 (i32 (tmp16 * tmp16) ≫ 2) in
  let tmp16 := i16 (i32 (input ≪ 3)) in
  let tmp16 := i16 (tmp16 - mean) in
  let delta := i16 (i32 (inv_std2 * tmp16) ≫ 10) in
  let tmp32 := i32 (delta * tmp16) ≫ 9 in
  let exp_value :=
    if tmp32 <? kCompVar then
      let tmp16 := i16 (i32 (kLog2Exp * tmp32) ≫ 12) in
      let tmp16 := i16 (- tmp16) in
      let exp_value := i16 (Z.lor 0x0400 (Z.land tmp16 0x03FF)) in
      let tmp16 := i16 (Z.lxor tmp16 0xFFFF) in
      let tmp16 := tmp16 ≫ 10 in
      let tmp16 := i16 (tmp16 + 1) in
      exp_value ≫ tmp16
    else 0 in
  (i32 (inv_std * exp_value), delta).

(** ** vad_filterbank.c *)

Definition kLogConst : Z := 24660.
Definition kLogEnergyIntPart : Z := 14336.
Definition kHpZeroCoefs : list Z := [6631; -13262; 6631].
Definition kHpPoleCoefs : list Z := [16384; -7756; 5620].
Definition kAllPassCoefsQ15 : list Z := [20972; 5571].
Definition kOffsetVector : list Z := [368; 368; 272; 176; 176; 176].

(** Returns the filter state and [data_out]. *)
Definition HighPassFilter (data_in : list Z) (data_length : Z) (filter_state data_out : list Z)
  : option (list Z * list Z) :=
  for_opt data_length (fun i '(filter_state, data_out) =>
    v ← rd data_in i;
    let tmp32 := i32 (arr kHpZeroCoefs 0 * v) in
    let tmp32 := i32 (tmp32 + i32 (arr kHpZeroCoefs 1 * arr filter_state 0)) in
    let tmp32 := i32 (tmp32 + i32 (arr kHpZeroCoefs 2 * arr filter_state 1)) in
    let filter_state := upd filter_state 1 (arr filter_state 0) in
    let filter_state := upd filter_state 0 v in
    let tmp32 := i32 (tmp32 - i32 (arr kHpPoleCoefs 1 * arr filter_state 2)) in
    let tmp32 := i32 (tmp32 - i32 (arr kHpPoleCoefs 2 * arr filter_state 3)) in
    let filter_state := upd filter_state 3 (arr filter_state 2) in
    let filter_state := upd filter_state 2 (i16 (tmp32 ≫ 14)) in
    data_out ← wr data_out i (arr filter_state 2);
    Some (filter_state, data_out)) (filter_state, data_out).

(** Reads every second cell of [data_in] from [start] on; returns the filter
    state and [data_out]. *)
Definition AllPassFilter (data_in : list Z) (start data_length filter_coefficient filter_state : Z)
    (data_out : list Z) : option (Z * list Z) :=
  let state32 := i32 (filter_state * (1 ≪ 16)) in
  '(state32, data_out) ← for_opt data_length (fun i '(state32, data_out) =>
    d ← rd data_in (start + 2 * i);
    let tmp32 := i32 (state32 + i32 (filter_coefficient * d)) in
    let tmp16 := i16 (tmp32 ≫ 16) in
    data_out ← wr data_out i tmp16;
    let state32 := i32 (i32 (d * (1 ≪ 14)) - i32 (filter_coefficient * tmp16)) in
    let state32 := i32 (state32 * 2) in
    Some (state32, data_out)) (state32, data_out);
  Some (i16 (state32 ≫ 16), data_out).

(** Returns the two filter states, [hp_data_out] and [lp_data_out]. *)
Definition SplitFilter (data_in : list Z) (data_length upper_state lower_state : Z)
    (hp_data_out lp_data_out : list Z) : option (Z * Z * list Z * list Z) :=
  let half_length := data_length ≫ 1 in
  '(upper_state, hp_data_out) ←
    AllPassFilter data_in 0 half_length (arr kAllPassCoefsQ15 0) upper_state hp_data_out;
  '(lower_state, lp_data_out) ←
    AllPassFilter data_in 1 half_length (arr kAllPassCoefsQ15 1) lower_state lp_data_out;
  '(hp_data_out, lp_data_out) ← for_opt half_length (fun i '(hp_data_out, lp_data_out) =>
    tmp_out ← rd hp_data_out i;
    l ← rd lp_data_out i;
    hp_data_out ← wr hp_data_out i (i16 (tmp_out - l));
    lp_data_out ← wr lp_data_out i (i16 (l + tmp_out));
    Some (hp_data_out, lp_data_out)) (hp_data_out, lp_data_out);
  Some (upper_state, lower_state, hp_data_out, lp_data_out).

(** The body of [LogOfEnergy] on the samples it reads; returns [total_energy]
    and [log_energy]. *)
Definition log_of_energy (data_in : list Z) (offset total_energy : Z) : Z * Z :=
  let '(en, tot_rshifts) := WebRtcSpl_Energy data_in in
  let energy := u32 en in
  if energy =? 0 then (total_energy, offset)
  else
    let normalizing_rshifts := 17 - WebRtcSpl_NormU32 energy in
    let tot_rshifts := tot_rshifts + normalizing_rshifts in
    let energy := if normalizing_rshifts <? 0 then u32 (energy ≪ (- normalizing_rshifts))
                  else energy ≫ normalizing_rshifts in
    let log2_energy := i16 (kLogEnergyIntPart + i16 (Z.land energy 0x00003FFF ≫ 4)) in
    let log_energy := i16 ((i32 (kLogConst * log2_energy) ≫ 19)
                           + (i32 (tot_rshifts * kLogConst) ≫ 9)) in
    let log_energy := if log_energy <? 0 then 0 else log_energy in
    let log_energy := i16 (log_energy + offset) in
    let total_energy :=
      if total_energy <=? kMinEnergy then
        if 0 <=? tot_rshifts then i16 (total_energy + (kMinEnergy + 1))
        else i16 (total_energy + i16 (energy ≫ (- tot_rshifts)))
      else total_energy in
    (total_energy, log_energy).

Definition LogOfEnergy (data_in : list Z) (data_length offset total_energy : Z)
  : option (Z * Z) :=
  _ ← RTC_DCHECK (0 <? data_length);
  data ← mem_read data_in 0 data_length;
  Some (log_of_energy data offset total_energy).

(** [SplitFilter] with the states of [frequency_band]; returns the instance and
    the two output arrays. *)
Definition split_band (self : VadInstT) (frequency_band : Z) (in_ptr : list Z) (len : Z)
    (hp_out_ptr lp_out_ptr : list Z) : option (VadInstT * list Z * list Z) :=
  '(u, l, hp_out_ptr, lp_out_ptr) ← SplitFilter in_ptr len (arr (upper_state self) frequency_band)
                      (arr (lower_state self) frequency_band) hp_out_ptr lp_out_ptr;
  Some (set_lower_state (upd (lower_state self) frequency_band l)
          (set_upper_state (upd (upper_state self) frequency_band u) self), hp_out_ptr, lp_out_ptr).

(** [LogOfEnergy] of a band, storing the feature. *)
Definition band_energy (k : Z) (data_in : list Z) (data_length : Z) (st : Z * list Z)
  : option (Z * list Z) :=
  let '(total_energy, features) := st in
  '(total_energy, log_energy) ←
    LogOfEnergy data_in data_length (arr kOffsetVector k) total_energy;
  features ← wr features k log_energy;
  Some (total_energy, features).

(** The local arrays of a frame, declared without initial values in
    [WebRtcVad_CalculateFeatures] (the first four), [WebRtcVad_CalcVad8khz],
    [WebRtcVad_CalcVad16khz] and [WebRtcVad_CalcVad32khz], and
    [WebRtcVad_CalcVad48khz]: their contents are arbitrary, their sizes are those
    of the declarations. *)
Record VadLocals := mkLocals {
  hp_120 : list Z;
  lp_120 : list Z;
  hp_60 : list Z;
  lp_60 : list Z;
  feature_vector : list Z;
  speechWB : list Z;
  speechNB : list Z;
  speech_nb : list Z
}.

Definition locals_ok (L : VadLocals) : Prop :=
  w16 120 (hp_120 L) /\ w16 120 (lp_120 L) /\ w16 60 (hp_60 L) /\ w16 60 (lp_60 L) /\
  w16 6 (feature_vector L) /\ w16 480 (speechWB L) /\ w16 240 (speechNB L) /\ w16 240 (speech_nb L).

(** Returns the total energy, [features] and the instance. *)
Definition WebRtcVad_CalculateFeatures (L : VadLocals) (self : VadInstT) (data_in : list Z)
    (data_length : Z) (features : list Z) : option (Z * list Z * VadInstT) :=
  let half_data_length := data_length ≫ 1 in
  let length := half_data_length in
  _ ← RTC_DCHECK (data_length <=? 240);
  _ ← RTC_DCHECK (4 <? kNumChannels - 1);
  (* 0 - 4000 Hz split at 2000 Hz *)
  '(self, hp_120, lp_120) ← split_band self 0 data_in data_length (hp_120 L) (lp_120 L);
  (* 2000 - 4000 Hz split at 3000 Hz *)
  '(self, hp_60, lp_60) ← split_band self 1 hp_120 length (hp_60 L) (lp_60 L);
  let length := length ≫ 1 in
  st ← band_energy 5 hp_60 length (0, features);
  st ← band_energy 4 lp_60 length st;
  (* 0 - 2000 Hz split at 1000 Hz *)
  let length := half_data_length in
  '(self, hp_60, lp_60) ← split_band self 2 lp_120 length hp_60 lp_60;
  let length := length ≫ 1 in
  st ← band_energy 3 hp_60 length st;
  (* 0 - 1000 Hz split at 500 Hz *)
  '(self, hp_120, lp_120) ← split_band self 3 lp_60 length hp_120 lp_120;
  let length := length ≫ 1 in
  st ← band_energy 2 hp_120 length st;
  (* 0 - 500 Hz split at 250 Hz *)
  '(self, hp_60, lp_60) ← split_band self 4 lp_120 length hp_60 lp_60;
  let length := length ≫ 1 in
  st ← band_energy 1 hp_60 length st;
  (* 80 - 250 Hz *)
  '(hp, hp_120) ← HighPassFilter lp_60 length (hp_filter_state self) hp_120;
  let self := set_hp_filter_state hp self in
  '(total_energy, features) ← band_energy 0 hp_120 length st;
  Some (total_energy, features, self).

(** ** Tracking the smallest values *)

(** The 16 values of a channel: in order, and never above the marker. *)
Definition vals_ok (w : list Z) : Prop :=
  w16 16 w /\ sortedb w = true /\ forall k, 0 <= k < 16 -> arr w k <= 10000.

(** Shifting down from [i]: [drop_old] as a function of the position. *)
Lemma drop_old_spec i age w : 0 <= i < 16 -> length age = 16%nat -> length w = 16%nat ->
  let '(age', w') := drop_old i (age, w) in
  length age' = 16%nat /\ length w' = 16%nat /\
  forall k, 0 <= k < 16 ->
    arr w' k = (if k <? i then arr w k else if k <? 15 then arr w (k + 1) else 10000) /\
    arr age' k = (if k <? i then arr age k else if k <? 15 then arr age (k + 1) else 101).
Proof.
  intros Hi Ha Hw. unfold drop_old.
  pose proof (for_loop_ind (fun d (st : list Z * list Z) =>
    length st.1 = 16%nat /\ length st.2 = 16%nat /\
    forall k, 0 <= k < 16 ->
      arr st.2 k = (if (i <=? k) && (k <? i + d) then arr w (k + 1) else arr w k) /\
      arr st.1 k = (if (i <=? k) && (k <? i + d) then arr age (k + 1) else arr age k))
    (fun d '(age, w) => (upd age (i + d) (arr age (i + d + 1)), upd w (i + d) (arr w (i + d + 1))))
    (15 - i) (age, w)) as H.
  destruct (for_loop _ _ _) as [age1 w1]. cbn [fst snd] in *.
  destruct H as (H1 & H2 & H3).
  - lia.
  - split; [done|]. split; [done|]. intros k Hk.
    destruct (Z.leb_spec i k), (Z.ltb_spec k (i + 0)); simpl; try done; lia.
  - intros d [a v] Hd (L1 & L2 & Hv). cbn [fst snd] in *. rewrite !length_upd.
    split; [done|]. split; [done|]. intros k Hk. destruct (decide (k = i + d)) as [->|Hne].
    + rewrite !arr_upd_eq by lia. destruct (Hv (i + d + 1) ltac:(lia)) as [-> ->].
      destruct (Z.leb_spec i (i + d + 1)), (Z.ltb_spec (i + d + 1) (i + d)); try lia.
      destruct (Z.leb_spec i (i + d)), (Z.ltb_spec (i + d) (i + (d + 1))); try lia. done.
    + rewrite !arr_upd_ne by lia. destruct (Hv k Hk) as [-> ->].
      replace (k <? i + (d + 1)) with (k <? i + d); [done|].
      destruct (Z.ltb_spec k (i + d)), (Z.ltb_spec k (i + (d + 1))); lia.
  - rewrite !length_upd. split; [done|]. split; [done|]. intros k Hk.
    destruct (decide (k = 15)) as [->|Hne].
    + rewrite !arr_upd_eq by lia. destruct (Z.ltb_spec 15 i); [lia|]. done.
    + rewrite !arr_upd_ne by lia. destruct (H3 k Hk) as [-> ->].
      destruct (Z.leb_spec i k), (Z.ltb_spec k (i + (15 - i))), (Z.ltb_spec k i),
        (Z.ltb_spec k 15); simpl; try done; lia.
Qed.

Lemma w16_intro n l : length l = n -> (forall k, 0 <= k < Z.of_nat n -> is_i16 (arr l k)) -> w16 n l.
Proof.
  intros Hl H. split; [done|]. apply Forall_forall. intros v Hv.
  apply list_elem_of_In, list_elem_of_lookup in Hv as [k Hk].
  pose proof (lookup_lt_Some _ _ _ Hk). specialize (H (Z.of_nat k) ltac:(lia)).
  unfold arr in H. rewrite Nat2Z.id in H. by rewrite (nth_lookup_Some _ _ _ _ Hk) in H.
Qed.

Lemma vals_ok_intro w : length w = 16%nat ->
  (forall k, 0 <= k < 16 -> is_i16 (arr w k) /\ arr w k <= 10000 /\
     (k < 15 -> arr w k <= arr w (k + 1))) -> vals_ok w.
Proof.
  intros Hl H. split; [apply w16_intro; [done|intros; apply H; lia]|]. split.
  - apply sortedb_intro. intros i Hi Hlt. apply H; lia.
  - intros k Hk. by apply H.
Qed.

Lemma vals_ok_elim w k : vals_ok w -> 0 <= k < 16 ->
  is_i16 (arr w k) /\ arr w k <= 10000 /\ forall j, k <= j < 16 -> arr w k <= arr w j.
Proof.
  intros ([Hl Hf] & Hs & Hm) Hk. split; [apply (w16_arr 16); by split|]. split; [auto|].
  intros j Hj. apply sortedb_arr; [done|lia|lia].
Qed.

Lemma vals_ok_length w : vals_ok w -> length w = 16%nat.
Proof. by intros [[H _] _]. Qed.

Lemma drop_old_ok i age w : 0 <= i < 16 -> w16 16 age -> vals_ok w ->
  w16 16 (drop_old i (age, w)).1 /\ vals_ok (drop_old i (age, w)).2.
Proof.
  intros Hi Ha Hw. pose proof (drop_old_spec i age w Hi (proj1 Ha) (vals_ok_length w Hw)) as H.
  destruct (drop_old i (age, w)) as [age' w']. cbn [fst snd].
  destruct H as (L1 & L2 & Hk). split.
  - apply w16_intro; [done|]. intros k Hk'. rewrite (proj2 (Hk k Hk')).
    destruct (k <? i); [eauto with cint|]. destruct (k <? 15); [eauto with cint|].
    unfold is_i16; lia.
  - apply vals_ok_intro; [done|]. intros k Hk'. rewrite (proj1 (Hk k Hk')).
    pose proof (vals_ok_elim w k Hw Hk') as (R1 & R2 & R3).
    destruct (Z.ltb_spec k i), (Z.ltb_spec k 15); try lia.
    + split; [done|]. split; [done|]. intros _. rewrite (proj1 (Hk (k + 1) ltac:(lia))).
      destruct (Z.ltb_spec (k + 1) i), (Z.ltb_spec (k + 1) 15); try lia; apply R3; lia.
    + pose proof (vals_ok_elim w (k + 1) Hw ltac:(lia)) as (S1 & S2 & S3).
      split; [done|]. split; [done|]. intros _. rewrite (proj1 (Hk (k + 1) ltac:(lia))).
      destruct (Z.ltb_spec (k + 1) i), (Z.ltb_spec (k + 1) 15); try lia. apply S3; lia.
    + split; [unfold is_i16; lia|]. lia.
Qed.

Lemma age_values_ok age w : w16 16 age -> vals_ok w ->
  w16 16 (age_values (age, w)).1 /\ vals_ok (age_values (age, w)).2.
Proof.
  intros Ha Hw. unfold age_values.
  apply (for_loop_pres (fun st : list Z * list Z => w16 16 st.1 /\ vals_ok st.2)); [done|].
  intros i [a v] Hi [Ha' Hv']. cbn [fst snd] in *. destruct (negb (arr a i =? 100)).
  - split; [eauto with cint|done].
  - by apply drop_old_ok.
Qed.

(** The decision tree is the linear search in a sorted window. *)
Lemma find_position_spec v w : vals_ok w ->
  let p := find_position v w in
  (p = -1 /\ forall k, 0 <= k < 16 -> arr w k <= v) \/
  (0 <= p < 16 /\ v < arr w p /\ forall k, 0 <= k < p -> arr w k <= v).
Proof.
  intros Hw. pose proof (fun k j Hk => proj2 (proj2 (vals_ok_elim w k Hw Hk)) j) as Hle.
  assert (forall p, 0 <= p < 16 -> arr w p <= v -> forall k, 0 <= k < p + 1 -> arr w k <= v) as Hbelow.
  { intros p Hp Hv k Hk. specialize (Hle k p ltac:(lia)). lia. }
  unfold find_position.
  repeat match goal with
  | |- context [?a <? arr w ?k] => destruct (Z.ltb_spec a (arr w k))
  end; cbv zeta;
  first [ left; split; [done|]; intros k Hk; apply (Hbelow 15); lia
        | right; split; [lia|]; split; [done|];
          match goal with |- forall k, 0 <= k < ?p -> _ =>
            intros k Hk; first [lia | let q := eval vm_compute in (p - 1) in apply (Hbelow q); lia] end ].
Qed.

Lemma insert_value_spec p v age w : 0 <= p < 16 -> length age = 16%nat -> length w = 16%nat ->
  let '(age', w') := insert_value p v (age, w) in
  length age' = 16%nat /\ length w' = 16%nat /\
  forall k, 0 <= k < 16 ->
    arr w' k = (if k <? p then arr w k else if k =? p then v else arr w (k - 1)) /\
    arr age' k = (if k <? p then arr age k else if k =? p then 1 else arr age (k - 1)).
Proof.
  intros Hp Ha Hw. unfold insert_value.
  pose proof (for_loop_ind (fun d (st : list Z * list Z) =>
    length st.1 = 16%nat /\ length st.2 = 16%nat /\
    forall k, 0 <= k < 16 ->
      arr st.2 k = (if 15 - d <? k then arr w (k - 1) else arr w k) /\
      arr st.1 k = (if 15 - d <? k then arr age (k - 1) else arr age k))
    (fun d '(age, w) => (upd age (15 - d) (arr age (15 - d - 1)), upd w (15 - d) (arr w (15 - d - 1))))
    (15 - p) (age, w)) as H.
  destruct (for_loop _ _ _) as [age1 w1]. cbn [fst snd] in *.
  destruct H as (H1 & H2 & H3).
  - lia.
  - split; [done|]. split; [done|]. intros k Hk. destruct (Z.ltb_spec (15 - 0) k); [lia|done].
  - intros d [a u] Hd (L1 & L2 & Hv). cbn [fst snd] in *. rewrite !length_upd.
    split; [done|]. split; [done|]. intros k Hk. destruct (decide (k = 15 - d)) as [->|Hne].
    + rewrite !arr_upd_eq by lia. destruct (Hv (15 - d - 1) ltac:(lia)) as [-> ->].
      destruct (Z.ltb_spec (15 - d) (15 - d - 1)), (Z.ltb_spec (15 - (d + 1)) (15 - d)); try lia.
    + rewrite !arr_upd_ne by lia. destruct (Hv k Hk) as [-> ->].
      replace (15 - (d + 1) <? k) with (15 - d <? k); [done|].
      destruct (Z.ltb_spec (15 - d) k), (Z.ltb_spec (15 - (d + 1)) k); lia.
  - rewrite !length_upd. split; [done|]. split; [done|]. intros k Hk.
    destruct (decide (k = p)) as [->|Hne].
    + rewrite !arr_upd_eq by lia. destruct (Z.ltb_spec p p); [lia|]. by rewrite Z.eqb_refl.
    + rewrite !arr_upd_ne by lia. destruct (H3 k Hk) as [-> ->].
      rewrite (proj2 (Z.eqb_neq k p)) by done.
      destruct (Z.ltb_spec (15 - (15 - p)) k), (Z.ltb_spec k p); try lia; done.
Qed.

Lemma insert_value_ok v age w : is_i16 v -> w16 16 age -> vals_ok w ->
  let p := find_position v w in -1 < p ->
  w16 16 (insert_value p v (age, w)).1 /\ vals_ok (insert_value p v (age, w)).2.
Proof.
  intros Hv Ha Hw p Hp. destruct (find_position_spec v w Hw) as [[E _]|(Hpr & Hlt & Hbel)];
    [unfold p in Hp; lia|]. fold p in Hpr, Hlt, Hbel.
  pose proof (insert_value_spec p v age w Hpr (proj1 Ha) (vals_ok_length w Hw)) as H.
  destruct (insert_value p v (age, w)) as [age' w']. cbn [fst snd]. destruct H as (L1 & L2 & Hk).
  assert (v <= 10000) as Hv10 by (pose proof (vals_ok_elim w p Hw Hpr); lia).
  split.
  - apply w16_intro; [done|]. intros k Hk'. rewrite (proj2 (Hk k Hk')).
    destruct (k <? p); [eauto with cint|]. destruct (k =? p); [unfold is_i16; lia|eauto with cint].
  - apply vals_ok_intro; [done|]. intros k Hk'. rewrite (proj1 (Hk k Hk')).
    pose proof (vals_ok_elim w k Hw Hk') as (R1 & R2 & R3).
    destruct (Z.ltb_spec k p); [|destruct (Z.eqb_spec k p)].
    + split; [done|]. split; [done|]. intros _. rewrite (proj1 (Hk (k + 1) ltac:(lia))).
      destruct (Z.ltb_spec (k + 1) p); [apply R3; lia|].
      rewrite (proj2 (Z.eqb_eq (k + 1) p)) by lia. apply Hbel. lia.
    + split; [done|]. split; [done|]. intros Hk15. rewrite (proj1 (Hk (k + 1) ltac:(lia))).
      destruct (Z.ltb_spec (k + 1) p), (Z.eqb_spec (k + 1) p); try lia.
      replace (k + 1 - 1) with p by lia. lia.
    + pose proof (vals_ok_elim w (k - 1) Hw ltac:(lia)) as (S1 & S2 & S3).
      split; [done|]. split; [done|]. intros Hk15. rewrite (proj1 (Hk (k + 1) ltac:(lia))).
      destruct (Z.ltb_spec (k + 1) p), (Z.eqb_spec (k + 1) p); try lia.
      replace (k + 1 - 1) with k by lia. apply S3. lia.
Qed.

(** The state of the minimum tracker in an instance. *)
Definition tracker_ok (self : VadInstT) : Prop :=
  length (index_vector self) = 96%nat /\ length (low_value_vector self) = 96%nat /\
  w16 6 (mean_value self) /\
  forall c, 0 <= c < 6 -> w16 16 (window (index_vector self) c) /\
    vals_ok (window (low_value_vector self) c).

Lemma length_set_window l c w : length l = 96%nat -> 0 <= c < 6 -> length w = 16%nat ->
  length (set_window l c w) = 96%nat.
Proof.
  intros Hl Hc Hw. unfold set_window. rewrite Z.shiftl_mul_pow2 by lia. change (2 ^ 4) with 16.
  rewrite !length_app, length_take, length_drop. lia.
Qed.

Lemma window_set_eq l c w : length l = 96%nat -> 0 <= c < 6 -> length w = 16%nat ->
  window (set_window l c w) c = w.
Proof.
  intros Hl Hc Hw. unfold window, set_window. rewrite Z.shiftl_mul_pow2 by lia. change (2 ^ 4) with 16.
  rewrite drop_app_length' by (rewrite length_take; lia). by rewrite take_app_length'.
Qed.

Lemma window_set_ne l c c' w : length l = 96%nat -> 0 <= c < 6 -> 0 <= c' < 6 -> c <> c' ->
  length w = 16%nat -> window (set_window l c w) c' = window l c'.
Proof.
  intros Hl Hc Hc' Hne Hw. unfold window, set_window. rewrite !Z.shiftl_mul_pow2 by lia.
  change (2 ^ 4) with 16. apply list_eq. intros i. destruct (decide (i < 16)%nat) as [Hi|Hi].
  - rewrite !lookup_take_lt, !lookup_drop by done.
    rewrite <-Hw. rewrite lookup_written by lia.
    destruct (decide _) as [Hd|_]; [|done]. lia.
  - rewrite !lookup_take_ge by lia. done.
Qed.

(** The smoothed median lies between the old value and the new median. *)
Lemma smoothed_between alpha m c : is_i16 m -> is_i16 c -> 0 <= alpha <= 32767 ->
  let t := i32 (i32 ((alpha + 1) * m) + i32 ((32767 - alpha) * c)) in
  Z.min m c <= i16 (i32 (t + 16384) ≫ 15) <= Z.max m c.
Proof.
  intros Hm Hc Ha t. unfold is_i16 in *.
  assert (t = (alpha + 1) * m + (32767 - alpha) * c) as Et.
  { unfold t. rewrite (i32_id ((alpha + 1) * m)), (i32_id ((32767 - alpha) * c)), i32_id
      by (unfold is_i32; nia). done. }
  assert (Z.min m c * 32768 <= t <= Z.max m c * 32768) as Hb by nia.
  rewrite (i32_id (t + _)) by (unfold is_i32; lia). rewrite shiftr_div by lia.
  assert (Z.min m c <= (t + 16384) / 2 ^ 15 <= Z.max m c) as Hr.
  { split; [apply Z.div_le_lower_bound; lia|].
    assert ((t + 16384) / 2 ^ 15 < Z.max m c + 1); [|lia]. apply Z.div_lt_upper_bound; lia. }
  rewrite i16_id by (unfold is_i16; lia). done.
Qed.

(** The value the median update uses. *)
Definition median_of (self : VadInstT) (w : list Z) : Z :=
  if 2 <? frame_counter self then arr w 2 else if 0 <? frame_counter self then arr w 0 else 1600.

Lemma FindMinimum_eq self v c : 0 <= c < 6 -> tracker_ok self -> is_i16 v ->
  let aged := age_values (window (index_vector self) c, window (low_value_vector self) c) in
  let p := find_position v aged.2 in
  let st := if -1 <? p then insert_value p v aged else aged in
  w16 16 st.1 /\ vals_ok st.2 /\
  exists m, Z.min (arr (mean_value self) c) (median_of self st.2) <= m
              <= Z.max (arr (mean_value self) c) (median_of self st.2) /\
    WebRtcVad_FindMinimum self v c =
      (m, set_mean_value (upd (mean_value self) c m)
            (set_low_value_vector (set_window (low_value_vector self) c st.2)
               (set_index_vector (set_window (index_vector self) c st.1) self))).
Proof.
  intros Hc (Li & Ll & Hm & Hw) Hv aged p st. destruct (Hw c Hc) as [Ha Hl].
  pose proof (age_values_ok _ _ Ha Hl) as [Ha1 Hl1]. fold aged in Ha1, Hl1.
  assert (w16 16 st.1 /\ vals_ok st.2) as [Ha2 Hl2].
  { unfold st. destruct (Z.ltb_spec (-1) p) as [Hp|]; [|done]. destruct aged as [a1 l1].
    by apply insert_value_ok. }
  split; [done|]. split; [done|]. unfold WebRtcVad_FindMinimum. fold aged. fold p. fold st.
  destruct st as [age w]. cbn [fst snd] in *. fold (median_of self w).
  assert (is_i16 (arr (mean_value self) c)) as Hmi by eauto with cint.
  assert (is_i16 (median_of self w)) as Hci.
  { unfold median_of. destruct (2 <? _); [apply (vals_ok_elim w 2); [done|lia]|].
    destruct (0 <? _); [apply (vals_ok_elim w 0); [done|lia]|unfold is_i16; lia]. }
  eexists. split; [|reflexivity]. unfold WEBRTC_SPL_WORD16_MAX.
  apply (smoothed_between _ _ _ Hmi Hci). unfold kSmoothingDown, kSmoothingUp.
  destruct (0 <? _); [destruct (_ <? _)|]; lia.
Qed.

Lemma median_i16 self w : vals_ok w -> is_i16 (median_of self w).
Proof.
  intros Hl. unfold median_of. destruct (2 <? _); [apply (vals_ok_elim _ 2 Hl); lia|].
  destruct (0 <? _); [apply (vals_ok_elim _ 0 Hl); lia|unfold is_i16; lia].
Qed.

Lemma set_tracker_ok self c age w m : tracker_ok self -> 0 <= c < 6 -> w16 16 age -> vals_ok w ->
  is_i16 m ->
  tracker_ok (set_mean_value (upd (mean_value self) c m)
    (set_low_value_vector (set_window (low_value_vector self) c w)
       (set_index_vector (set_window (index_vector self) c age) self))).
Proof.
  intros (Li & Ll & Hmv & Hw) Hc Ha Hl Hm.
  split; [apply length_set_window; [done|done|apply Ha]|].
  split; [apply length_set_window; [done|done|by apply vals_ok_length]|].
  split; [by apply w16_upd|]. intros c' Hc'. cbn [index_vector low_value_vector set_mean_value
    set_low_value_vector set_index_vector].
  destruct (decide (c' = c)) as [->|Hne].
  - rewrite !window_set_eq; try done; [by apply vals_ok_length|apply Ha].
  - rewrite !window_set_ne; try done; [by apply Hw|by apply vals_ok_length|apply Ha].
Qed.

(** The tracker invariant is kept and nothing else in the instance changes. *)
Lemma FindMinimum_ok self v c : 0 <= c < 6 -> tracker_ok self -> is_i16 v ->
  exists m self', WebRtcVad_FindMinimum self v c = (m, self') /\ is_i16 m /\ tracker_ok self' /\
    self' = set_mean_value (mean_value self')
              (set_low_value_vector (low_value_vector self')
                 (set_index_vector (index_vector self') self)).
Proof.
  intros Hc Hok Hv. pose proof (FindMinimum_eq self v c Hc Hok Hv) as (Ha & Hl & m & Hm & ->).
  assert (is_i16 m) as Hmi.
  { assert (is_i16 (arr (mean_value self) c)) by (destruct Hok as (_ & _ & H & _); eauto with cint).
    pose proof (median_i16 self _ Hl). unfold is_i16 in *. lia. }
  eexists _, _. split; [done|]. split; [done|]. split; [by apply set_tracker_ok|]. by destruct self.
Qed.

(** *** What the ageing loop does, on the list of the (age, value) cells *)

(** One frame later: a cell of age 100 is removed, and the one behind it stays
    as it is; the other cells get one older. *)
Fixpoint survivors (cells : list (Z * Z)) : list (Z * Z) :=
  match cells with
  | [] => []
  | (age, v) :: cells =>
      if age =? 100 then match cells with [] => [] | cell :: cells => cell :: survivors cells end
      else (i16 (age + 1), v) :: survivors cells
  end.

Definition is_marker (cell : Z * Z) : Prop := cell.2 = 10000 /\ (cell.1 = 101 \/ cell.1 = 102).

(** A fresh marker behind the cells survives. *)
Lemma survivors_marker l : exists m, is_marker m /\ survivors (l ++ [(101, 10000)]) = survivors l ++ [m].
Proof.
  assert (forall n l, (length l <= n)%nat -> exists m, is_marker m /\
    survivors (l ++ [(101, 10000)]) = survivors l ++ [m]) as H; [|by apply (H (length l))].
  clear l. induction n as [|n IH]; intros [|[a v] l] Hl; cbn [length] in Hl; try lia;
    try (exists (102, 10000); split; [split; cbn; auto|done]).
  cbn [app survivors]. destruct (a =? 100).
  - destruct l as [|c l]; [exists (101, 10000); split; [split; cbn; auto|done]|].
    cbn [app length] in *. destruct (IH l ltac:(lia)) as (m & Hm & ->). by exists m.
  - destruct (IH l ltac:(lia)) as (m & Hm & ->). by exists m.
Qed.

Ltac destruct_cells l :=
  do 16 (destruct l as [|? l]; [discriminate|]); destruct l; [|discriminate].

(** [drop_old] on the cells. *)
Lemma drop_old_cells (i : nat) age w : (i < 16)%nat -> length age = 16%nat -> length w = 16%nat ->
  zip (drop_old (Z.of_nat i) (age, w)).1 (drop_old (Z.of_nat i) (age, w)).2 =
  take i (zip age w) ++ drop (S i) (zip age w) ++ [(101, 10000)].
Proof.
  intros Hi Ha Hw. destruct_cells age. destruct_cells w.
  do 16 (destruct i as [|i]; [reflexivity|]). lia.
Qed.

Lemma zip_upd (i : nat) x (age w : list Z) : (i < length w)%nat -> length age = length w ->
  zip (upd age (Z.of_nat i) x) w = <[i := (x, arr w (Z.of_nat i))]> (zip age w).
Proof.
  intros Hi Ha. unfold upd. rewrite Nat2Z.id. revert age i Hi Ha.
  induction w as [|v w IH]; intros [|a age] [|i] Hi Ha; cbn [length] in *; try lia; [done|].
  cbn. f_equal. rewrite IH by lia. unfold arr. by rewrite !Nat2Z.id.
Qed.

Lemma age_values_cells age w : length age = 16%nat -> length w = 16%nat ->
  let kept := survivors (zip age w) in
  exists m, Forall is_marker m /\
    zip (age_values (age, w)).1 (age_values (age, w)).2 = kept ++ m /\
    length (age_values (age, w)).1 = 16%nat /\ length (age_values (age, w)).2 = 16%nat.
Proof.
  intros Ha Hw kept. unfold age_values, for_loop.
  match goal with |- context [for_from 0 _ ?f _] => set (body := f) end.
  assert (forall n i a v, (i + n = 16)%nat -> length a = 16%nat -> length v = 16%nat ->
    exists m, Forall is_marker m /\
      zip (for_from i n body (a, v)).1 (for_from i n body (a, v)).2 =
        take i (zip a v) ++ survivors (drop i (zip a v)) ++ m /\
      length (for_from i n body (a, v)).1 = 16%nat /\ length (for_from i n body (a, v)).2 = 16%nat) as H;
    [|exact (H 16%nat 0%nat age w eq_refl Ha Hw)].
  clear. induction n as [|n IH]; intros i a v Hi Ha Hv.
  { exists []. cbn [for_from fst snd]. split; [constructor|]. split; [|done].
    assert (length (zip a v) = 16%nat) by (rewrite length_zip_with; lia).
    rewrite take_ge, drop_ge by lia. by rewrite app_nil_r. }
  assert (length (zip a v) = 16%nat) as Hz by (rewrite length_zip_with; lia).
  cbn [for_from]. unfold body at 2 4 6 8.
  assert (zip a v !! i = Some (arr a (Z.of_nat i), arr v (Z.of_nat i))) as Hc.
  { rewrite lookup_zip_with. pose proof (arr_lookup a (Z.of_nat i) ltac:(lia)) as E1.
    pose proof (arr_lookup v (Z.of_nat i) ltac:(lia)) as E2. rewrite Nat2Z.id in E1, E2.
    by rewrite E1, E2. }
  rewrite (drop_S _ _ _ Hc). cbn [survivors].
  destruct (Z.eqb_spec (arr a (Z.of_nat i)) 100) as [E|E]; cbn [negb].
  - pose proof (drop_old_spec (Z.of_nat i) a v ltac:(lia) Ha Hv) as HL.
    pose proof (drop_old_cells i a v ltac:(lia) Ha Hv) as Ez.
    destruct (drop_old (Z.of_nat i) (a, v)) as [a' v']. cbn [fst snd] in Ez. destruct HL as (La & Lv & _).
    destruct (IH (S i) a' v' ltac:(lia) La Lv) as (m & Hm & -> & HL). rewrite Ez.
    assert (length (take i (zip a v)) = i) as Ht by (rewrite length_take; lia).
    destruct (drop (S i) (zip a v)) as [|y r].
    + exists ((101, 10000) :: m). split; [constructor; [split; cbn; auto|done]|]. split; [|exact HL].
      cbn [app]. rewrite take_ge, drop_ge by (rewrite length_app, Ht; cbn; lia). cbn [survivors app].
      by rewrite <- app_assoc.
    + destruct (survivors_marker r) as (mk & Hmk & Er).
      exists (mk :: m). split; [by constructor|]. split; [|exact HL].
      replace (take i (zip a v) ++ (y :: r) ++ [(101, 10000)])
        with ((take i (zip a v) ++ [y]) ++ (r ++ [(101, 10000)])) by (by rewrite <- !app_assoc).
      rewrite take_app_length', drop_app_length' by (rewrite length_app, Ht; cbn; lia).
      rewrite Er, <- !app_assoc. done.
  - destruct (IH (S i) (upd a (Z.of_nat i) (i16 (arr a (Z.of_nat i) + 1))) v ltac:(lia)
      ltac:(by rewrite length_upd) Hv) as (m & Hm & -> & HL).
    exists m. split; [done|]. split; [|exact HL]. rewrite zip_upd by lia.
    rewrite (take_S_r _ i (i16 (arr a (Z.of_nat i) + 1), arr v (Z.of_nat i)))
      by (apply list_lookup_insert_eq; lia).
    rewrite take_insert_ge by lia. rewrite drop_insert_lt by lia. rewrite <- !app_assoc. reflexivity.
Qed.

(** The aged ages and values, cell by cell. *)
Lemma age_values_kept age w : length age = 16%nat -> length w = 16%nat ->
  let kept := survivors (zip age w) in
  (age_values (age, w)).2 = map snd kept ++ replicate (16 - length kept) 10000 /\
  (length kept <= 16)%nat /\
  forall k, 0 <= k < Z.of_nat (length kept) -> arr (age_values (age, w)).1 k = arr (map fst kept) k.
Proof.
  intros Ha Hw kept. destruct (age_values_cells age w Ha Hw) as (m & Hm & Ez & L1 & L2).
  fold kept in Ez. destruct (age_values (age, w)) as [a v]. cbn [fst snd] in *.
  assert (v = map snd (kept ++ m)) as Ev by (rewrite <- Ez, snd_zip by lia; done).
  assert (a = map fst (kept ++ m)) as Ea by (rewrite <- Ez, fst_zip by lia; done).
  rewrite map_app in Ev, Ea. pose proof (f_equal length Ev) as Hlen.
  rewrite length_app, !length_map in Hlen.
  assert (map snd m = replicate (16 - length kept) 10000) as Er.
  { replace (16 - length kept)%nat with (length m) by lia. clear -Hm.
    induction Hm as [|c m [Hc _] _ IH]; [done|]. cbn. by rewrite Hc, IH. }
  rewrite Ev, Er. split; [done|]. split; [lia|]. intros k Hk. rewrite Ea. unfold arr.
  apply app_nth1. rewrite length_map. lia.
Qed.

(** C12: [WebRtcVad_FindMinimum] keeps, for every channel, the 16 smallest
    values in order.  Ageing is as [survivors] says: a value of age 100 is
    removed and a marker 10000 comes in at the end, every other value gets one
    frame older, except that the value behind a removed one is passed over (so
    one of age 100 stays there a frame longer).  The 15-comparison decision
    tree finds the place a linear search would; the new value is inserted there
    with age 1 and the largest one drops out (or nothing changes when the value
    is not smaller than all 16); the window stays sorted and below the marker,
    the windows of the other channels are untouched, and the value returned,
    which is stored in [mean_value], lies between the old mean and the current
    median. *)
Theorem find_minimum_correct self v c : 0 <= c < 6 -> tracker_ok self -> is_i16 v ->
  let '(m, self') := WebRtcVad_FindMinimum self v c in
  let kept := survivors (zip (window (index_vector self) c) (window (low_value_vector self) c)) in
  let aged := map snd kept ++ replicate (16 - length kept) 10000 in
  let w := window (low_value_vector self') c in
  let age := window (index_vector self') c in
  tracker_ok self' /\
  (if v <? arr aged 15 then
     exists p, 0 <= p < 16 /\ (forall k, 0 <= k < p -> arr aged k <= v) /\ v < arr aged p /\
       (forall k, 0 <= k < 16 ->
         arr w k = (if k <? p then arr aged k else if k =? p then v else arr aged (k - 1))) /\
       arr age p = 1 /\
       (forall k, 0 <= k < Z.of_nat (length kept) ->
         (k < p -> arr age k = arr (map fst kept) k) /\
         (p <= k < 15 -> arr age (k + 1) = arr (map fst kept) k))
   else w = aged /\
     forall k, 0 <= k < Z.of_nat (length kept) -> arr age k = arr (map fst kept) k) /\
  (forall c', 0 <= c' < 6 -> c' <> c ->
     window (low_value_vector self') c' = window (low_value_vector self) c' /\
     window (index_vector self') c' = window (index_vector self) c') /\
  arr (mean_value self') c = m /\
  Z.min (arr (mean_value self) c) (median_of self w) <= m
    <= Z.max (arr (mean_value self) c) (median_of self w).
Proof.
  intros Hc Hok Hv. pose proof (FindMinimum_eq self v c Hc Hok Hv) as (Ha & Hl & m & Hm & ->).
  pose proof Hok as (Li & Ll & Hmv & Hw). destruct (Hw c Hc) as [Hwa Hwl].
  pose proof (age_values_ok _ _ Hwa Hwl) as [Ha1 Hl1]. intros kept.
  destruct (age_values_kept _ _ (proj1 Hwa) (vals_ok_length _ Hwl)) as (Ek & Hkl & Eka).
  fold kept in Ek, Hkl, Eka. rewrite <- Ek. clear Ek.
  set (aged := age_values _) in *. set (p := find_position v aged.2) in *.
  set (st := if -1 <? p then _ else _) in *. cbn zeta. cbn [low_value_vector index_vector mean_value
    set_mean_value set_low_value_vector set_index_vector].
  rewrite !window_set_eq by (done || (by apply vals_ok_length) || apply Ha).
  assert (is_i16 m) as Hmi.
  { assert (is_i16 (arr (mean_value self) c)) by eauto with cint.
    pose proof (median_i16 self _ Hl). unfold is_i16 in *. lia. }
  split; [|split; [|split; [|split]]].
  - by apply set_tracker_ok.
  - destruct (find_position_spec v aged.2 Hl1) as [[E Hall]|(Hpr & Hlt & Hbel)].
    + fold p in E. unfold st. rewrite E. cbn [Z.ltb Z.compare].
      destruct (Z.ltb_spec v (arr aged.2 15)); [|by split]. specialize (Hall 15). lia.
    + fold p in Hpr, Hlt, Hbel. unfold st. rewrite (proj2 (Z.ltb_lt (-1) p)) by lia.
      pose proof (vals_ok_elim aged.2 p Hl1 Hpr) as (_ & _ & H15). specialize (H15 15).
      rewrite (proj2 (Z.ltb_lt v (arr aged.2 15))) by lia.
      exists p. do 3 (split; [done|]). destruct aged as [a1 l1]. cbn [fst snd] in *.
      pose proof (insert_value_spec p v a1 l1 Hpr (proj1 Ha1) (vals_ok_length l1 Hl1)) as H.
      destruct (insert_value p v (a1, l1)) as [a2 l2]. destruct H as (_ & _ & H). cbn [fst snd].
      split; [intros k Hk; apply (H k Hk)|].
      split; [rewrite (proj2 (H p Hpr)), Z.ltb_irrefl; by rewrite Z.eqb_refl|].
      intros k Hk. rewrite <- (Eka k Hk). split; intros Hkp.
      * rewrite (proj2 (H k ltac:(lia))). by rewrite (proj2 (Z.ltb_lt k p)) by lia.
      * rewrite (proj2 (H (k + 1) ltac:(lia))). rewrite (proj2 (Z.ltb_ge (k + 1) p)) by lia.
        rewrite (proj2 (Z.eqb_neq (k + 1) p)) by lia. f_equal. lia.
  - intros c' Hc' Hne. rewrite !window_set_ne by (done || (by apply vals_ok_length) || apply Ha). done.
  - apply arr_upd_eq. rewrite (proj1 Hmv). lia.
  - done.
Qed.

(** *** Fresh trackers and the witness *)

Lemma window_replicate x c : 0 <= c < 6 -> window (replicate 96 x) c = replicate 16 x.
Proof.
  intros Hc. unfold window. rewrite Z.shiftl_mul_pow2 by lia. change (2 ^ 4) with 16.
  rewrite drop_replicate, take_replicate. f_equal. lia.
Qed.

Lemma tracker_init self : index_vector self = replicate 96 0 ->
  low_value_vector self = replicate 96 10000 -> mean_value self = replicate 6 1600 ->
  tracker_ok self.
Proof.
  intros Hi Hl Hm. unfold tracker_ok. rewrite Hi, Hl, Hm. split; [done|]. split; [done|].
  split; [split; [done|apply Forall_replicate; unfold is_i16; lia]|].
  intros c Hc. rewrite !window_replicate by done. split.
  - split; [done|]. apply Forall_replicate. unfold is_i16. lia.
  - split; [split; [done|apply Forall_replicate; unfold is_i16; lia]|]. split; [done|].
    intros k Hk. unfold arr. rewrite nth_lookup. destruct (replicate 16 10000 !! Z.to_nat k) as [x|] eqn:E.
    + apply lookup_replicate in E as [-> _]. done.
    + simpl. lia.
Qed.

Definition blank_inst : VadInstT :=
  mkVad 1 (replicate 4 0) WebRtcSpl_ResetResample48khzTo8khz (replicate 12 0) (replicate 12 0)
    (replicate 12 0) (replicate 12 0) 5 0 0 (replicate 96 0) (replicate 96 10000)
    (replicate 6 1600) (replicate 5 0) (replicate 5 0) (replicate 4 0)
    (replicate 3 0) (replicate 3 0) (replicate 3 0) (replicate 3 0) 0.

Lemma find_minimum_correct_witness :
  let '(m, self') := WebRtcVad_FindMinimum blank_inst 1200 3 in
  tracker_ok self' /\ 1600 <= m <= 10000.
Proof.
  pose proof (find_minimum_correct blank_inst 1200 3 ltac:(lia)
    (tracker_init blank_inst eq_refl eq_refl eq_refl) ltac:(unfold is_i16; lia)) as H.
  destruct (WebRtcVad_FindMinimum blank_inst 1200 3) as [m self'] eqn:E.
  destruct H as (H1 & _). split; [done|]. vm_compute in E. injection E as <- <-. lia.
Defined.

(** When a value expires at position [i], the value that moves into [i] is
    passed over by the loop: it does not get older in that frame. *)
Example aging_skips_one :
  age_values ([100; 50; 60; 1; 1; 1; 1; 1; 1; 1; 1; 1; 1; 1; 1; 1], replicate 16 7)
  = ([50; 61; 2; 2; 2; 2; 2; 2; 2; 2; 2; 2; 2; 2; 2; 102], replicate 15 7 ++ [10000]).
Proof. vm_compute. reflexivity. Qed.

(** ** Features *)

(** The scaling of the energy routine is between 0 and 31. *)
Lemma Energy_scaling_range l : 0 <= (WebRtcSpl_Energy l).2 <= 32 /\ is_i32 (WebRtcSpl_Energy l).1 /\
  (WebRtcSpl_Energy l).2 <= WebRtcSpl_GetSizeInBits (u32 (Z.of_nat (length l))).
Proof.
  unfold WebRtcSpl_Energy, WebRtcSpl_GetScalingSquare. cbn [fst snd].
  pose proof (NormW32_range (WEBRTC_SPL_MUL (scaling_smax l) (scaling_smax l)) (i32_range _)) as Ht.
  destruct (GetSizeInBits_spec (u32 (Z.of_nat (length l))) (u32_range _)) as (Hb & _).
  split; [|split].
  - destruct (_ =? 0); [lia|]. destruct (Z.ltb_spec (WebRtcSpl_GetSizeInBits (u32 (Z.of_nat (length l))))
      (WebRtcSpl_NormW32 (WEBRTC_SPL_MUL (scaling_smax l) (scaling_smax l)))); [lia|].
    rewrite i16_id by (unfold is_i16; lia). lia.
  - set (s := if _ =? 0 then _ else _). clearbody s.
    assert (forall acc, is_i32 acc -> is_i32 (fold_left (fun en v => i32 (en + (i32 (v * v) ≫ s))) l acc)) as H.
    { clear Ht Hb. induction l as [|v l IH]; intros acc Hacc; simpl; [done|].
      apply IH; eauto with cint. }
    apply H. unfold is_i32; lia.
  - destruct (_ =? 0); [lia|]. destruct (Z.ltb_spec (WebRtcSpl_GetSizeInBits (u32 (Z.of_nat (length l))))
      (WebRtcSpl_NormW32 (WEBRTC_SPL_MUL (scaling_smax l) (scaling_smax l)))); [lia|].
    rewrite i16_id by (unfold is_i16; lia). lia.
Qed.

(** The normalised energy has its leading bit at position 14. *)
Lemma normalized_energy e : is_u32 e -> e <> 0 ->
  let n := 17 - WebRtcSpl_NormU32 e in
  -14 <= n <= 17 /\
  2 ^ 14 <= (if n <? 0 then u32 (e ≪ (- n)) else e ≫ n) < 2 ^ 15.
Proof.
  intros He Hnz n. destruct (NormU32_spec e He Hnz) as (Hn & Hlo & Hhi).
  set (k := WebRtcSpl_NormU32 e) in *. split; [lia|].
  assert (2 ^ k * 2 ^ (31 - k) = 2 ^ 31) as Ep by (rewrite <-Z.pow_add_r by lia; f_equal; lia).
  destruct (Z.ltb_spec n 0) as [Hneg|Hpos].
  - rewrite Z.shiftl_mul_pow2 by lia. replace (- n) with (k - 17) by lia.
    assert (2 ^ k = 2 ^ (k - 17) * 2 ^ 17) as Ek by (rewrite <-Z.pow_add_r by lia; f_equal; lia).
    assert (0 < 2 ^ (k - 17)) by (apply Z.pow_pos_nonneg; lia).
    assert (2 ^ 14 <= e * 2 ^ (k - 17) < 2 ^ 15) as Hr by (rewrite Ek in Hlo, Hhi; nia).
    rewrite u32_id by (unfold is_u32; lia). done.
  - rewrite shiftr_div by lia. fold n.
    assert (2 ^ 17 = 2 ^ k * 2 ^ n) as Ek by (rewrite <-Z.pow_add_r by lia; f_equal; lia).
    assert (0 < 2 ^ k) by (apply Z.pow_pos_nonneg; lia).
    assert (0 < 2 ^ n) by (apply Z.pow_pos_nonneg; lia).
    split.
    + apply Z.div_le_lower_bound; [lia|]. apply Z.mul_le_mono_pos_r with (p := 2 ^ k); [lia|]. nia.
    + apply Z.div_lt_upper_bound; [lia|]. apply Z.mul_lt_mono_pos_r with (p := 2 ^ k); [lia|]. nia.
Qed.

(** Bounds of one band: the feature is between the offset and the offset plus
    1900, without wrapping, and the energy indicator does not wrap either. *)
Lemma log_of_energy_range data offset te : (length data < 128)%nat -> 0 <= offset <= 368 ->
  0 <= te < 2 ^ 14 + 11 ->
  let '(te', f) := log_of_energy data offset te in
  0 <= te' < 2 ^ 14 + 11 /\ offset <= f <= offset + 1900.
Proof.
  intros Hlen Ho Hte. unfold log_of_energy. destruct (Energy_scaling_range data) as (Hs & Hen & Hsb).
  destruct (WebRtcSpl_Energy data) as [en sc]. cbn [fst snd] in *.
  destruct (GetSizeInBits_spec (u32 (Z.of_nat (length data))) (u32_range _)) as (Hb & Hlt & Hge).
  rewrite u32_id in * by (unfold is_u32; lia).
  assert (WebRtcSpl_GetSizeInBits (Z.of_nat (length data)) <= 7) as Hb7.
  { set (b := WebRtcSpl_GetSizeInBits (Z.of_nat (length data))) in *.
    destruct (Z_le_gt_dec b 7); [done|]. assert (2 ^ 7 <= 2 ^ (b - 1)) by (apply Z.pow_le_mono_r; lia).
    destruct (decide (Z.of_nat (length data) = 0)) as [E|E]; [|specialize (Hge E); lia].
    unfold b in *. rewrite E in *. vm_compute in g. done. }
  destruct (Z.eqb_spec (u32 en) 0) as [|Hnz]; [lia|].
  destruct (normalized_energy (u32 en) (u32_range _) Hnz) as (Hn & He).
  set (n := 17 - WebRtcSpl_NormU32 (u32 en)) in *.
  set (e := if n <? 0 then _ else _) in *.
  assert (0 <= Z.land e 0x3FFF ≫ 4 < 1024) as Hf.
  { change 0x3FFF with (2 ^ 14 - 1). rewrite land_ones_mod, shiftr_div by lia.
    pose proof (Z.mod_pos_bound e (2 ^ 14) ltac:(lia)). Z.div_mod_to_equations; lia. }
  rewrite (i16_id (Z.land e 0x3FFF ≫ 4)) by (unfold is_i16; lia).
  unfold kLogEnergyIntPart, kLogConst, kMinEnergy.
  rewrite (i16_id (14336 + _)) by (unfold is_i16; lia).
  set (l2 := 14336 + (Z.land e 0x3FFF ≫ 4)) in *.
  rewrite !i32_id by (unfold is_i32; lia). rewrite (shiftr_div (24660 * l2)), (shiftr_div _ 9) by lia.
  assert (674 <= 24660 * l2 / 2 ^ 19 <= 722) as HA by (Z.div_mod_to_equations; lia).
  assert (-675 <= (sc + n) * 24660 / 2 ^ 9 <= 1156) as HB by (Z.div_mod_to_equations; lia).
  set (A := 24660 * l2 / 2 ^ 19) in *. set (B := (sc + n) * 24660 / 2 ^ 9) in *.
  rewrite (i16_id (A + B)) by (unfold is_i16; lia).
  split.
  - destruct (Z.leb_spec te 10); [|lia]. destruct (Z.leb_spec 0 (sc + n)).
    + rewrite i16_id by (unfold is_i16; lia). lia.
    + assert (0 <= e ≫ (- (sc + n)) < 2 ^ 14) as Hsh.
      { rewrite shiftr_div by lia. assert (2 ^ 1 <= 2 ^ (- (sc + n))) by (apply Z.pow_le_mono_r; lia).
        split; [apply Z.div_pos; lia|]. apply Z.div_lt_upper_bound; nia. }
      rewrite (i16_id (e ≫ _)) by (unfold is_i16; lia). rewrite i16_id by (unfold is_i16; lia). lia.
  - destruct (Z.ltb_spec (A + B) 0); rewrite i16_id by (unfold is_i16; lia); lia.
Qed.

(** ** The filters stay in their buffers *)

Lemma w16_wr n l i v : w16 n l -> 0 <= i < Z.of_nat n -> is_i16 v -> exists l', wr l i v = Some l' /\ w16 n l'.
Proof. intros Hl Hi Hv. pose proof (proj1 Hl) as E. rewrite wr_Some by lia. eauto using w16_upd. Qed.

Lemma AllPassFilter_ok data start len coef st out n m : w16 n data -> w16 m out -> 0 <= start ->
  0 <= len <= Z.of_nat m -> start + 2 * len <= Z.of_nat n + 1 ->
  exists st' out', AllPassFilter data start len coef st out = Some (st', out') /\
    is_i16 st' /\ w16 m out'.
Proof.
  intros Hd Ho Hs Hl Hr. unfold AllPassFilter.
  match goal with |- context [for_opt len ?f ?s0] =>
    destruct (for_opt_ind (fun (_ : Z) (s : Z * list Z) => w16 m s.2) f len s0)
      as ([s32 out'] & -> & Ho') end.
  - lia.
  - done.
  - intros i [s32 o] Hi Hm. cbn [fst snd] in *.
    destruct (w16_rd n data (start + 2 * i) Hd) as [-> _]; [lia|]. bind_simpl.
    match goal with |- context [wr o i ?v] =>
      destruct (w16_wr m o i v Hm) as (o' & -> & Ho'); [lia|apply i16_range|] end.
    bind_simpl. eauto.
  - bind_simpl. eexists _, _. split; [done|]. split; [apply i16_range|done].
Qed.

Lemma SplitFilter_ok data len u l hp lp n m : w16 n data -> w16 m hp -> w16 m lp ->
  0 <= len <= Z.of_nat n -> len / 2 <= Z.of_nat m ->
  exists u' l' hp' lp', SplitFilter data len u l hp lp = Some (u', l', hp', lp') /\
    is_i16 u' /\ is_i16 l' /\ w16 m hp' /\ w16 m lp'.
Proof.
  intros Hd Hhp Hlp Hl Hm. unfold SplitFilter. rewrite shiftr_div by lia. change (2 ^ 1) with 2.
  assert (0 <= len / 2 /\ 2 * (len / 2) <= len) as [Hh Hh2] by (Z.div_mod_to_equations; lia).
  destruct (AllPassFilter_ok data 0 (len / 2) (arr kAllPassCoefsQ15 0) u hp n m Hd Hhp)
    as (u' & hp1 & -> & Hu & Hhp1); [lia..|]. bind_simpl.
  destruct (AllPassFilter_ok data 1 (len / 2) (arr kAllPassCoefsQ15 1) l lp n m Hd Hlp)
    as (l' & lp1 & -> & Hl' & Hlp1); [lia..|]. bind_simpl.
  match goal with |- context [for_opt (len / 2) ?f ?s0] =>
    destruct (for_opt_ind (fun (_ : Z) (s : list Z * list Z) => w16 m s.1 /\ w16 m s.2) f (len / 2) s0)
      as ([hp2 lp2] & -> & Hhp2 & Hlp2) end; [done|done| |bind_simpl; eauto 10].
  intros i [h o] Hi [Hwh Hwo]. cbn [fst snd] in *.
  destruct (w16_rd m h i Hwh) as [-> _]; [lia|]. bind_simpl.
  destruct (w16_rd m o i Hwo) as [-> _]; [lia|]. bind_simpl.
  match goal with |- context [wr h i ?v] =>
    destruct (w16_wr m h i v Hwh) as (h' & -> & Hh'); [lia|apply i16_range|] end. bind_simpl.
  match goal with |- context [wr o i ?v] =>
    destruct (w16_wr m o i v Hwo) as (o' & -> & Ho'); [lia|apply i16_range|] end. bind_simpl. eauto.
Qed.

Lemma HighPassFilter_ok data len st out n m : w16 n data -> w16 4 st -> w16 m out ->
  0 <= len <= Z.of_nat n -> len <= Z.of_nat m ->
  exists st' out', HighPassFilter data len st out = Some (st', out') /\ w16 4 st' /\ w16 m out'.
Proof.
  intros Hd Hs Ho Hl Hm. unfold HighPassFilter.
  match goal with |- context [for_opt len ?f ?s0] =>
    destruct (for_opt_ind (fun (_ : Z) (s : list Z * list Z) => w16 4 s.1 /\ w16 m s.2) f len s0)
      as ([st' out'] & -> & Hst & Hout) end; [lia|done| |eauto].
  intros i [s o] Hi [Hs' Ho']. cbn [fst snd] in *.
  destruct (w16_rd n data i Hd) as [-> Hv]; [lia|]. bind_simpl.
  assert (w16 4 (upd (upd s 1 (arr s 0)) 0 (arr data i))) as H0
    by (apply w16_upd; [apply w16_upd; [done|by apply (w16_arr 4)]|done]).
  match goal with |- context [upd ?x 2 (i16 ?v)] =>
    assert (w16 4 x) as Hx by (apply w16_upd; [done|by apply (w16_arr 4)]); assert (w16 4 (upd x 2 (i16 v))) as Hy by
      (apply w16_upd; [done|apply i16_range]); revert Hy; generalize (upd x 2 (i16 v)) end.
  intros y Hy. destruct (w16_wr m o i (arr y 2) Ho') as (o' & -> & Hw); [lia|by apply (w16_arr 4)|].
  bind_simpl. eauto.
Qed.

(** The filter states of an instance. *)
Definition filters_ok (self : VadInstT) : Prop :=
  w16 5 (upper_state self) /\ w16 5 (lower_state self) /\ w16 4 (hp_filter_state self).

(** Everything the feature extraction leaves alone. *)
Definition same_model (a b : VadInstT) : Prop :=
  b = set_hp_filter_state (hp_filter_state b)
        (set_lower_state (lower_state b) (set_upper_state (upper_state b) a)).

Lemma split_band_ok self band data len hp lp n m : w16 n data -> w16 m hp -> w16 m lp ->
  0 <= len <= Z.of_nat n -> len / 2 <= Z.of_nat m -> filters_ok self ->
  exists self' hp' lp', split_band self band data len hp lp = Some (self', hp', lp') /\
    w16 m hp' /\ w16 m lp' /\ filters_ok self' /\ same_model self self'.
Proof.
  intros Hd Hhp Hlp Hl Hm (Hu & Hlo & Hh). unfold split_band.
  destruct (SplitFilter_ok data len (arr (upper_state self) band) (arr (lower_state self) band)
    hp lp n m Hd Hhp Hlp Hl Hm) as (u' & l' & hp' & lp' & -> & H1 & H2 & H3 & H4). bind_simpl.
  eexists _, _, _. split; [done|]. split; [done|]. split; [done|]. split; [|by destruct self].
  unfold filters_ok. cbn. auto with cint.
Qed.

Lemma same_model_trans a b c : same_model a b -> same_model b c -> same_model a c.
Proof. unfold same_model. intros -> ->. by destruct a. Qed.

Definition features_ok (f : list Z) : Prop :=
  length f = 6%nat /\ Forall (fun v => 176 <= v <= 2268) f.

(** The features from [k] on are written. *)
Definition features_from (k : Z) (f : list Z) : Prop :=
  length f = 6%nat /\ forall i, k <= i < 6 -> 176 <= arr f i <= 2268.

Lemma features_from_0 f : features_from 0 f -> features_ok f.
Proof.
  intros [Hl Hf]. split; [done|]. apply Forall_forall. intros v Hv.
  apply list_elem_of_In, list_elem_of_lookup in Hv as [i Hi]. pose proof (lookup_lt_Some _ _ _ Hi).
  specialize (Hf (Z.of_nat i) ltac:(lia)). unfold arr in Hf. rewrite Nat2Z.id in Hf.
  by rewrite (nth_lookup_Some _ _ _ _ Hi) in Hf.
Qed.

Lemma band_energy_ok k data len te f n : w16 n data -> 0 < len <= Z.of_nat n -> len < 128 ->
  0 <= k < 6 -> 0 <= te < 2 ^ 14 + 11 -> features_from (k + 1) f ->
  exists te' f', band_energy k data len (te, f) = Some (te', f') /\
    0 <= te' < 2 ^ 14 + 11 /\ features_from k f'.
Proof.
  intros Hd Hl Hl7 Hk Hte [Hf Hfk]. unfold band_energy, LogOfEnergy. pose proof (proj1 Hd) as Hn.
  rewrite RTC_DCHECK_true by (apply Z.ltb_lt; lia). rewrite mem_read_Some by lia. bind_simpl.
  assert (176 <= arr kOffsetVector k <= 368) as Ho.
  { assert (k = 0 \/ k = 1 \/ k = 2 \/ k = 3 \/ k = 4 \/ k = 5) as Hc by lia.
    destruct Hc as [->|[->|[->|[->|[->| ->]]]]]; split; vm_compute; discriminate. }
  set (d := take _ _). pose proof (log_of_energy_range d (arr kOffsetVector k) te) as R.
  destruct (log_of_energy d (arr kOffsetVector k) te) as [te' v]. bind_simpl.
  destruct R as [Hte' Hv]; [unfold d; rewrite length_take, length_drop; lia|lia|done|].
  rewrite wr_Some by lia. bind_simpl. eexists _, _. split; [done|]. split; [done|].
  split; [by rewrite length_upd|]. intros i Hi. destruct (decide (i = k)) as [->|Hne].
  - rewrite arr_upd_eq by lia. lia.
  - rewrite arr_upd_ne by lia. apply Hfk. lia.
Qed.

Lemma CalculateFeatures_ok L self data data_length features n :
  locals_ok L -> w16 n data -> 16 <= data_length <= 240 -> data_length <= Z.of_nat n ->
  length features = 6%nat -> filters_ok self ->
  exists te f self', WebRtcVad_CalculateFeatures L self data data_length features = Some (te, f, self') /\
    0 <= te < 2 ^ 14 + 11 /\ features_ok f /\ filters_ok self' /\ same_model self self'.
Proof.
  intros (L1 & L2 & L3 & L4 & _) Hd Hl Hn Hlf Hf. unfold WebRtcVad_CalculateFeatures.
  rewrite (RTC_DCHECK_true (data_length <=? 240)) by (apply Z.leb_le; lia).
  rewrite (RTC_DCHECK_true (4 <? kNumChannels - 1)) by reflexivity.
  rewrite !(shiftr_div _ 1) by lia. change (2 ^ 1) with 2.
  set (h := data_length / 2). set (q := h / 2). set (e := q / 2). set (x := e / 2).
  assert (8 <= h <= 120 /\ 4 <= q <= 60 /\ 2 <= e <= 30 /\ 1 <= x <= 15) as (Hh & Hq & He & Hx)
    by (unfold x, e, q, h; Z.div_mod_to_equations; lia).
  assert (features_from 6 features) as F6 by (split; [done|lia]).
  destruct (split_band_ok self 0 data data_length _ _ n _ Hd L1 L2 ltac:(lia) ltac:(fold h; lia) Hf)
    as (s1 & hp1 & lp1 & -> & Hhp1 & Hlp1 & Hf1 & Hm1). bind_simpl.
  destruct (split_band_ok s1 1 hp1 h _ _ _ _ Hhp1 L3 L4 ltac:(lia) ltac:(fold q; lia) Hf1)
    as (s2 & hp2 & lp2 & -> & Hhp2 & Hlp2 & Hf2 & Hm2). bind_simpl.
  destruct (band_energy_ok 5 hp2 q 0 features 60 Hhp2) as (t5 & f5 & -> & T5 & F5); try lia; [done|]. bind_simpl.
  destruct (band_energy_ok 4 lp2 q t5 f5 60 Hlp2) as (t4 & f4 & -> & T4 & F4); try lia; [done|]. bind_simpl.
  destruct (split_band_ok s2 2 lp1 h _ _ _ _ Hlp1 Hhp2 Hlp2 ltac:(lia) ltac:(fold q; lia) Hf2)
    as (s3 & hp3 & lp3 & -> & Hhp3 & Hlp3 & Hf3 & Hm3). bind_simpl.
  destruct (band_energy_ok 3 hp3 q t4 f4 60 Hhp3) as (t3 & f3 & -> & T3 & F3); try lia; [done|]. bind_simpl.
  destruct (split_band_ok s3 3 lp3 q _ _ _ _ Hlp3 Hhp1 Hlp1 ltac:(lia) ltac:(fold e; lia) Hf3)
    as (s4 & hp4 & lp4 & -> & Hhp4 & Hlp4 & Hf4 & Hm4). bind_simpl.
  destruct (band_energy_ok 2 hp4 e t3 f3 120 Hhp4) as (t2 & f2 & -> & T2 & F2); try lia; [done|]. bind_simpl.
  destruct (split_band_ok s4 4 lp4 e _ _ _ _ Hlp4 Hhp3 Hlp3 ltac:(lia) ltac:(fold x; lia) Hf4)
    as (s5 & hp5 & lp5 & -> & Hhp5 & Hlp5 & Hf5 & Hm5). bind_simpl.
  destruct (band_energy_ok 1 hp5 x t2 f2 60 Hhp5) as (t1 & f1 & -> & T1 & F1); try lia; [done|]. bind_simpl.
  destruct (HighPassFilter_ok lp5 x (hp_filter_state s5) hp4 _ _ Hlp5 (proj2 (proj2 Hf5)) Hhp4)
    as (st6 & hp6 & -> & Hst6 & Hhp6); [lia..|]. bind_simpl.
  destruct (band_energy_ok 0 hp6 x t1 f1 120 Hhp6) as (t0 & f0 & -> & T0 & F0); try lia; [done|]. bind_simpl.
  eexists _, _, _. split; [done|]. split; [done|]. split; [by apply features_from_0|].
  split; [destruct Hf5 as (A & B & _); split; [exact A|split; [exact B|exact Hst6]]|].
  apply (same_model_trans _ s5); [|by destruct s5].
  eauto using same_model_trans.
Qed.

(** Feature extraction on a frame of 16 to 240 samples at 8 kHz (10, 20 and
    30 ms are 80, 160 and 240): the filter bank reads and writes only inside its
    arrays, the local ones of 120 and 60 cells included, the assertions hold,
    each of the six features is between 176 and 2268 (so nothing wraps in
    [int16_t]), the energy indicator stays nonnegative, and only the filter
    states of the instance change. *)
Theorem calculate_features_correct L self data data_length features n :
  locals_ok L -> w16 n data -> 16 <= data_length <= 240 -> data_length <= Z.of_nat n ->
  length features = 6%nat -> filters_ok self ->
  exists te f self', WebRtcVad_CalculateFeatures L self data data_length features = Some (te, f, self') /\
    0 <= te < 2 ^ 14 + 11 /\ features_ok f /\ filters_ok self' /\ same_model self self'.
Proof. apply CalculateFeatures_ok. Qed.

(** Local arrays with some contents. *)
Definition some_locals : VadLocals :=
  mkLocals (replicate 120 1) (replicate 120 2) (replicate 60 3) (replicate 60 4) (replicate 6 5)
    (replicate 480 6) (replicate 240 7) (replicate 240 8).

Lemma some_locals_ok : locals_ok some_locals.
Proof. repeat split; cbn [some_locals hp_120 lp_120 hp_60 lp_60 feature_vector speechWB speechNB speech_nb]; apply Forall_replicate; unfold is_i16; lia. Qed.

Lemma calculate_features_correct_witness :
  exists te f self', WebRtcVad_CalculateFeatures some_locals blank_inst (replicate 80 3000) 80 (replicate 6 0)
      = Some (te, f, self') /\ features_ok f.
Proof.
  destruct (calculate_features_correct some_locals blank_inst (replicate 80 3000) 80 (replicate 6 0) 80)
    as (te & f & self' & E & _ & Hf & _).
  - exact some_locals_ok.
  - split; [done|]. apply Forall_replicate. unfold is_i16. lia.
  - lia.
  - lia.
  - done.
  - repeat split; apply Forall_replicate; unfold is_i16; lia.
  - exists te, f, self'. split; [exact E|exact Hf].
Defined.
