(* ===== verification/VadCore.v ===== *)
(** The decision logic and the interface of the voice activity detector:
    [common_audio/vad/vad_core.c] and [webrtc_vad.c]. *)
From S2P Require Import Prelude SplInl SplMath SplVec SplResample VadFilter.

(** ** Constants of vad_core.c *)

Definition kSpectrumWeight : list Z := [6; 8; 10; 12; 14; 16].
Definition kNoiseUpdateConst : Z := 655.
Definition kSpeechUpdateConst : Z := 6554.
Definition kBackEta : Z := 154.
Definition kMinimumDifference : list Z := [544; 544; 576; 576; 576; 576].
Definition kMaximumSpeech : list Z := [11392; 11392; 11520; 11520; 11520; 11520].
Definition kMinimumMean : list Z := [640; 768].
Definition kMaximumNoise : list Z := [9216; 9088; 8960; 8832; 8704; 8576].
Definition kNoiseDataWeights : list Z := [34; 62; 72; 66; 53; 25; 94; 66; 56; 62; 75; 103].
Definition kSpeechDataWeights : list Z := [48; 82; 45; 87; 50; 47; 80; 46; 83; 41; 78; 81].
Definition kNoiseDataMeans : list Z :=
  [6738; 4892; 7065; 6715; 6771; 3369; 7646; 3863; 7820; 7266; 5020; 4362].
Definition kSpeechDataMeans : list Z :=
  [8306; 10085; 10078; 11823; 11843; 6309; 9473; 9571; 10879; 7581; 8180; 7483].
Definition kNoiseDataStds : list Z :=
  [378; 1064; 493; 582; 688; 593; 474; 697; 475; 688; 421; 455].
Definition kSpeechDataStds : list Z :=
  [555; 505; 567; 524; 585; 1231; 509; 828; 492; 1540; 1079; 850].
Definition kMaxSpeechFrames : Z := 6.
Definition kMinStd : Z := 384.
Definition kDefaultMode : Z := 0.
Definition kInitCheck : Z := 42.
Definition kOverHangMax1Q : list Z := [8; 4; 3].
Definition kOverHangMax2Q : list Z := [14; 7; 5].
Definition kLocalThresholdQ : list Z := [24; 21; 24].
Definition kGlobalThresholdQ : list Z := [57; 48; 57].
Definition kOverHangMax1LBR : list Z := [8; 4; 3].
Definition kOverHangMax2LBR : list Z := [14; 7; 5].
Definition kLocalThresholdLBR : list Z := [37; 32; 37].
Definition kGlobalThresholdLBR : list Z := [100; 80; 100].
Definition kOverHangMax1AGG : list Z := [6; 3; 2].
Definition kOverHangMax2AGG : list Z := [9; 5; 3].
Definition kLocalThresholdAGG : list Z := [82; 78; 82].
Definition kGlobalThresholdAGG : list Z := [285; 260; 285].
Definition kOverHangMax1VAG : list Z := [6; 3; 2].
Definition kOverHangMax2VAG : list Z := [9; 5; 3].
Definition kLocalThresholdVAG : list Z := [94; 94; 94].
Definition kGlobalThresholdVAG : list Z := [1100; 1050; 1100].

(** ** The Gaussian mixture test *)

(** [data] is a table of 12 entries of which the two of [channel] get the
    offset; returns the average and the table. *)
Definition WeightedAverage (data : list Z) (channel offset : Z) (weights : list Z) : Z * list Z :=
  for_loop kNumGaussians (fun k '(weighted_average, data) =>
    let g := channel + k * kNumChannels in
    let data := upd data g (i16 (arr data g + offset)) in
    (i32 (weighted_average + i32 (arr data g * arr weights g)), data)) (0, data).

Definition OverflowingMulS16ByS32ToS32 (a b : Z) : Z := i32 (a * b).

(** The local variables filled by the test loop. *)
Record gmm_vars := mkVars {
  deltaN : list Z;
  deltaS : list Z;
  ngprvec : list Z;
  sgprvec : list Z;
  sum_llr : Z;
  vadflag : Z
}.

(** The two Gaussians of [channel] in one model: the weighted probabilities,
    their sum and the deltas. *)
Definition model_probability (feature : Z) (means stds weights : list Z) (channel : Z)
    (delta : list Z) : Z * Z * list Z :=
  let g0 := channel in
  let '(p0, d0) := WebRtcVad_GaussianProbability feature (arr means g0) (arr stds g0) in
  let pr0 := i32 (arr weights g0 * p0) in
  let g1 := channel + kNumChannels in
  let '(p1, d1) := WebRtcVad_GaussianProbability feature (arr means g1) (arr stds g1) in
  let pr1 := i32 (arr weights g1 * p1) in
  (pr0, i32 (i32 (0 + pr0) + pr1), upd (upd delta g0 d0) g1 d1).

(** The share of the first Gaussian, in Q14. *)
Definition share (probability0 h : Z) : Z :=
  i16 (WebRtcSpl_DivW32W16 (i32 (u32 (Z.land (u32 probability0) 0xFFFFF000 ≪ 2))) h).

(** One round of the test loop of [GmmProbability]. *)
Definition test_channel (self : VadInstT) (features : list Z) (individualTest channel : Z)
    (v : gmm_vars) : gmm_vars :=
  let feature := arr features channel in
  let '(np0, h0_test, deltaN) := model_probability feature (noise_means self) (noise_stds self)
                                   kNoiseDataWeights channel (deltaN v) in
  let '(sp0, h1_test, deltaS) := model_probability feature (speech_means self) (speech_stds self)
                                   kSpeechDataWeights channel (deltaS v) in
  let shifts_h0 := if h0_test =? 0 then 31 else WebRtcSpl_NormW32 h0_test in
  let shifts_h1 := if h1_test =? 0 then 31 else WebRtcSpl_NormW32 h1_test in
  let log_likelihood_ratio := i16 (shifts_h0 - shifts_h1) in
  let sum := i32 (sum_llr v + log_likelihood_ratio * arr kSpectrumWeight channel) in
  let vadflag := if individualTest <? log_likelihood_ratio * 4 then 1 else vadflag v in
  let h0 := i16 (h0_test ≫ 12) in
  let ngprvec :=
    if 0 <? h0 then
      let ng := upd (ngprvec v) channel (share np0 h0) in
      upd ng (channel + kNumChannels) (i16 (16384 - arr ng channel))
    else upd (ngprvec v) channel 16384 in
  let h1 := i16 (h1_test ≫ 12) in
  let sgprvec :=
    if 0 <? h1 then
      let sg := upd (sgprvec v) channel (share sp0 h1) in
      upd sg (channel + kNumChannels) (i16 (16384 - arr sg channel))
    else sgprvec v in
  mkVars deltaN deltaS ngprvec sgprvec sum vadflag.

(** ** Model update *)

(** [WebRtcSpl_DivW32W16] with the sign handled separately. *)
Definition div_sym (num den : Z) : Z :=
  if 0 <? num then i16 (WebRtcSpl_DivW32W16 num den)
  else i16 (- i16 (WebRtcSpl_DivW32W16 (i32 (- num)) den)).

(** The new noise mean of one Gaussian. *)
Definition update_noise_mean (v : gmm_vars) (nmk feature_minimum tmp1_s16 channel k : Z) : Z :=
  let g := channel + k * kNumChannels in
  let nmk2 :=
    if vadflag v =? 0 then
      let delt := i16 (i32 (arr (ngprvec v) g * arr (deltaN v) g) ≫ 11) in
      i16 (nmk + i16 (i32 (delt * kNoiseUpdateConst) ≫ 22))
    else nmk in
  let ndelt := i16 (i32 (feature_minimum ≪ 4) - tmp1_s16) in
  let nmk3 := i16 (nmk2 + i16 (i32 (ndelt * kBackEta) ≫ 9)) in
  let lo := i16 ((k + 5) ≪ 7) in
  let nmk3 := if nmk3 <? lo then lo else nmk3 in
  let hi := i16 ((72 + k - channel) ≪ 7) in
  if hi <? nmk3 then hi else nmk3.

(** The new speech mean and deviation of one Gaussian, on a speech frame. *)
Definition update_speech (v : gmm_vars) (smk ssk feature maxspe channel k : Z) : Z * Z :=
  let g := channel + k * kNumChannels in
  let delt := i16 (i32 (arr (sgprvec v) g * arr (deltaS v) g) ≫ 11) in
  let tmp_s16 := i16 (i32 (delt * kSpeechUpdateConst) ≫ 21) in
  let smk2 := i16 (smk + ((tmp_s16 + 1) ≫ 1)) in
  let maxmu := i16 (maxspe + 640) in
  let smk2 := if smk2 <? arr kMinimumMean k then arr kMinimumMean k else smk2 in
  let smk2 := if maxmu <? smk2 then maxmu else smk2 in
  let tmp_s16 := i16 ((smk + 4) ≫ 3) in
  let tmp_s16 := i16 (feature - tmp_s16) in
  let tmp1_s32 := i32 (arr (deltaS v) g * tmp_s16) ≫ 3 in
  let tmp2_s32 := i32 (tmp1_s32 - 4096) in
  let tmp_s16 := arr (sgprvec v) g ≫ 2 in
  let tmp1_s32 := i32 (tmp_s16 * tmp2_s32) in
  let tmp2_s32 := tmp1_s32 ≫ 4 in
  let tmp_s16 := div_sym tmp2_s32 (i16 (ssk * 10)) in
  let tmp_s16 := i16 (tmp_s16 + 128) in
  let ssk := i16 (ssk + (tmp_s16 ≫ 8)) in
  (smk2, if ssk <? kMinStd then kMinStd else ssk).

(** The new noise deviation of one Gaussian, on a noise frame. *)
Definition update_noise_std (v : gmm_vars) (nmk nsk feature channel k : Z) : Z :=
  let g := channel + k * kNumChannels in
  let tmp_s16 := i16 (feature - (nmk ≫ 3)) in
  let tmp1_s32 := i32 (arr (deltaN v) g * tmp_s16) ≫ 3 in
  let tmp1_s32 := i32 (tmp1_s32 - 4096) in
  let tmp_s16 := i16 ((arr (ngprvec v) g + 2) ≫ 2) in
  let tmp2_s32 := OverflowingMulS16ByS32ToS32 tmp_s16 tmp1_s32 in
  let tmp1_s32 := tmp2_s32 ≫ 14 in
  let tmp_s16 := div_sym tmp1_s32 nsk in
  let tmp_s16 := i16 (tmp_s16 + 32) in
  let nsk := i16 (nsk + (tmp_s16 ≫ 6)) in
  if nsk <? kMinStd then kMinStd else nsk.

(** One Gaussian of the update loop. *)
Definition update_gaussian (v : gmm_vars) (features : list Z) (feature_minimum tmp1_s16 maxspe
    channel k : Z) (self : VadInstT) : VadInstT :=
  let g := channel + k * kNumChannels in
  let nmk := arr (noise_means self) g in
  let smk := arr (speech_means self) g in
  let nsk := arr (noise_stds self) g in
  let ssk := arr (speech_stds self) g in
  let self := set_noise_means (upd (noise_means self) g
                (update_noise_mean v nmk feature_minimum tmp1_s16 channel k)) self in
  if negb (vadflag v =? 0) then
    let '(smk2, ssk) := update_speech v smk ssk (arr features channel) maxspe channel k in
    set_speech_stds (upd (speech_stds self) g ssk)
      (set_speech_means (upd (speech_means self) g smk2) self)
  else
    set_noise_stds (upd (noise_stds self) g
      (update_noise_std v nmk nsk (arr features channel) channel k)) self.

(** Both Gaussians of a channel minus a constant. *)
Definition lower_means (means : list Z) (channel d : Z) : list Z :=
  for_loop kNumGaussians (fun k means =>
    let g := channel + k * kNumChannels in upd means g (i16 (arr means g - d))) means.

(** The separation and drift control after the Gaussians of a channel; returns
    the instance and the new [maxspe]. *)
Definition separate_models (channel : Z) (self : VadInstT) : Z * VadInstT :=
  let '(noise_global_mean, nm) := WeightedAverage (noise_means self) channel 0 kNoiseDataWeights in
  let self := set_noise_means nm self in
  let '(speech_global_mean, sm) :=
    WeightedAverage (speech_means self) channel 0 kSpeechDataWeights in
  let self := set_speech_means sm self in
  let diff := i16 (i16 (speech_global_mean ≫ 9) - i16 (noise_global_mean ≫ 9)) in
  let '(speech_global_mean, noise_global_mean, self) :=
    if diff <? arr kMinimumDifference channel then
      let tmp_s16 := i16 (arr kMinimumDifference channel - diff) in
      let tmp1_s16 := i16 (i32 (13 * tmp_s16) ≫ 2) in
      let tmp2_s16 := i16 (i32 (3 * tmp_s16) ≫ 2) in
      let '(sgm, sm) := WeightedAverage (speech_means self) channel tmp1_s16 kSpeechDataWeights in
      let '(ngm, nm) :=
        WeightedAverage (noise_means self) channel (i16 (- tmp2_s16)) kNoiseDataWeights in
      (sgm, ngm, set_noise_means nm (set_speech_means sm self))
    else (speech_global_mean, noise_global_mean, self) in
  let maxspe := arr kMaximumSpeech channel in
  let tmp2_s16 := i16 (speech_global_mean ≫ 7) in
  let self := if maxspe <? tmp2_s16
              then set_speech_means (lower_means (speech_means self) channel (i16 (tmp2_s16 - maxspe))) self
              else self in
  let tmp2_s16 := i16 (noise_global_mean ≫ 7) in
  let self := if arr kMaximumNoise channel <? tmp2_s16
              then set_noise_means (lower_means (noise_means self) channel
                     (i16 (tmp2_s16 - arr kMaximumNoise channel))) self
              else self in
  (maxspe, self).

(** One channel of the update loop. *)
Definition update_channel (v : gmm_vars) (features : list Z) (channel : Z)
    (st : Z * VadInstT) : Z * VadInstT :=
  let '(maxspe, self) := st in
  let '(feature_minimum, self) := WebRtcVad_FindMinimum self (arr features channel) channel in
  let '(noise_global_mean, nm) := WeightedAverage (noise_means self) channel 0 kNoiseDataWeights in
  let self := set_noise_means nm self in
  let tmp1_s16 := i16 (noise_global_mean ≫ 6) in
  let self := for_loop kNumGaussians (fun k self =>
    update_gaussian v features feature_minimum tmp1_s16 maxspe channel k self) self in
  separate_models channel self.

(** Smoothing with the hangover counter. *)
Definition smooth (overhead1 overhead2 vadflag : Z) (self : VadInstT) : Z * VadInstT :=
  if vadflag =? 0 then
    let '(vadflag, self) :=
      if 0 <? over_hang self
      then (i16 (2 + over_hang self), set_over_hang (i16 (over_hang self - 1)) self)
      else (vadflag, self) in
    (vadflag, set_num_of_speech 0 self)
  else
    let self := set_num_of_speech (i16 (num_of_speech self + 1)) self in
    if kMaxSpeechFrames <? num_of_speech self
    then (vadflag, set_over_hang overhead2 (set_num_of_speech kMaxSpeechFrames self))
    else (vadflag, set_over_hang overhead1 self).

Definition GmmProbability (self : VadInstT) (features : list Z) (total_power frame_length : Z)
  : Z * VadInstT :=
  let sel := if frame_length =? 80 then 0 else if frame_length =? 160 then 1 else 2 in
  let overhead1 := arr (over_hang_max_1 self) sel in
  let overhead2 := arr (over_hang_max_2 self) sel in
  let individualTest := arr (individual self) sel in
  let totalTest := arr (total self) sel in
  let '(vad, self) :=
    if kMinEnergy <? total_power then
      let zero := replicate (Z.to_nat kTableSize) 0 in
      let v := for_loop kNumChannels (test_channel self features individualTest)
                 (mkVars zero zero zero zero 0 0) in
      let vad := Z.lor (vadflag v) (if totalTest <=? sum_llr v then 1 else 0) in
      let v := mkVars (deltaN v) (deltaS v) (ngprvec v) (sgprvec v) (sum_llr v) vad in
      let '(_, self) := for_loop kNumChannels (update_channel v features) (12800, self) in
      (vad, set_frame_counter (i32 (frame_counter self + 1)) self)
    else (0, self) in
  smooth overhead1 overhead2 vad self.

(** ** Initialisation and modes *)

Definition WebRtcVad_set_mode_core (self : VadInstT) (mode : Z) : Z * VadInstT :=
  match mode with
  | 0 => (0, set_thresholds kOverHangMax1Q kOverHangMax2Q kLocalThresholdQ kGlobalThresholdQ self)
  | 1 => (0, set_thresholds kOverHangMax1LBR kOverHangMax2LBR kLocalThresholdLBR
               kGlobalThresholdLBR self)
  | 2 => (0, set_thresholds kOverHangMax1AGG kOverHangMax2AGG kLocalThresholdAGG
               kGlobalThresholdAGG self)
  | 3 => (0, set_thresholds kOverHangMax1VAG kOverHangMax2VAG kLocalThresholdVAG
               kGlobalThresholdVAG self)
  | _ => (-1, self)
  end.

Definition WebRtcVad_InitCore (self : option VadInstT) : Z * option VadInstT :=
  match self with
  | None => (-1, None)
  | Some self =>
      let self := mkVad 1 (replicate 4 0) WebRtcSpl_ResetResample48khzTo8khz
        kNoiseDataMeans kSpeechDataMeans kNoiseDataStds kSpeechDataStds 0 0 0
        (replicate (Z.to_nat (16 * kNumChannels)) 0) (replicate (Z.to_nat (16 * kNumChannels)) 10000)
        (replicate (Z.to_nat kNumChannels) 1600) (replicate 5 0) (replicate 5 0) (replicate 4 0)
        (over_hang_max_1 self) (over_hang_max_2 self) (individual self) (total self)
        (init_flag self) in
      let '(r, self) := WebRtcVad_set_mode_core self kDefaultMode in
      if negb (r =? 0) then (-1, Some self) else (0, Some (set_init_flag kInitCheck self))
  end.

(** ** The decision for each sample rate *)

Definition WebRtcVad_CalcVad8khz (L : VadLocals) (inst : VadInstT) (speech_frame : list Z)
    (frame_length : Z) : option (Z * VadInstT) :=
  '(total_power, feature_vector, inst) ←
    WebRtcVad_CalculateFeatures L inst speech_frame frame_length (feature_vector L);
  let '(vad, inst) := GmmProbability inst feature_vector total_power frame_length in
  Some (vad, set_vad vad inst).

(** [WebRtcVad_Downsampling] on the filter states [p] and [p + 1]. *)
Definition downsample_inst (inst : VadInstT) (p : Z) (signal_in signal_out : list Z) (len : Z)
  : option (list Z * VadInstT) :=
  let fs := downsampling_filter_states inst in
  '(out, (s0, s1)) ←
    WebRtcVad_Downsampling signal_in signal_out (arr fs p, arr fs (p + 1)) len;
  Some (out, set_downsampling_filter_states (upd (upd fs p s0) (p + 1) s1) inst).

Definition WebRtcVad_CalcVad16khz (L : VadLocals) (inst : VadInstT) (speech_frame : list Z)
    (frame_length : Z) : option (Z * VadInstT) :=
  '(speechNB, inst) ← downsample_inst inst 0 speech_frame (speechNB L) frame_length;
  let len := frame_length / 2 in
  WebRtcVad_CalcVad8khz L inst speechNB len.

Definition WebRtcVad_CalcVad32khz (L : VadLocals) (inst : VadInstT) (speech_frame : list Z)
    (frame_length : Z) : option (Z * VadInstT) :=
  '(speechWB, inst) ← downsample_inst inst 2 speech_frame (speechWB L) frame_length;
  let len := frame_length / 2 in
  '(speechNB, inst) ← downsample_inst inst 0 speechWB (speechNB L) len;
  let len := len / 2 in
  WebRtcVad_CalcVad8khz L inst speechNB len.

(** Every round of the loop converts the samples at [speech_frame]: the pointer
    is not advanced. *)
Definition WebRtcVad_CalcVad48khz (L : VadLocals) (inst : VadInstT) (speech_frame : list Z)
    (frame_length : Z) : option (Z * VadInstT) :=
  let num_10ms_frames := frame_length / 480 in
  '(speech_nb, inst, _) ← for_opt num_10ms_frames (fun i '(speech_nb, inst, tmp_mem) =>
    '(speech_nb, st, tmp_mem) ← WebRtcSpl_Resample48khzTo8khz speech_frame speech_nb (i * 80)
                                  (state_48_to_8 inst) tmp_mem;
    Some (speech_nb, set_state_48_to_8 st inst, tmp_mem))
    (speech_nb L, inst, replicate 736 0);
  WebRtcVad_CalcVad8khz L inst speech_nb (frame_length / 6).

(** ** webrtc_vad.c *)

Definition kValidRates : list Z := [8000; 16000; 32000; 48000].
Definition kMaxFrameLengthMs : Z := 30.

(** The inner loop over 10, 20 and 30 ms. *)
Fixpoint valid_length_loop (fuel : nat) (rate valid_length_ms frame_length : Z) : Z :=
  if valid_length_ms <=? kMaxFrameLengthMs then
    match fuel with
    | O => -1
    | S fuel =>
        let valid_length := Z.quot rate 1000 * valid_length_ms in
        if frame_length =? valid_length then 0
        else valid_length_loop fuel rate (valid_length_ms + 10) frame_length
    end
  else -1.

Fixpoint valid_rate_loop (rates : list Z) (rate frame_length : Z) : Z :=
  match rates with
  | [] => -1
  | r :: rates =>
      if r =? rate then valid_length_loop 3 r 10 frame_length
      else valid_rate_loop rates rate frame_length
  end.

Definition WebRtcVad_ValidRateAndFrameLength (rate frame_length : Z) : Z :=
  valid_rate_loop kValidRates rate frame_length.

(** [alloc] is the block [malloc] returns, with any contents; the outer [None]
    is the store through a null pointer when there is none. *)
Definition WebRtcVad_Create (alloc : option VadInstT) : option VadInstT :=
  self ← alloc; Some (set_init_flag 0 self).

Definition WebRtcVad_Init (handle : option VadInstT) : Z * option VadInstT :=
  WebRtcVad_InitCore handle.

Definition WebRtcVad_set_mode (handle : option VadInstT) (mode : Z) : Z * option VadInstT :=
  match handle with
  | None => (-1, None)
  | Some self =>
      if negb (init_flag self =? kInitCheck) then (-1, handle)
      else let '(r, self) := WebRtcVad_set_mode_core self mode in (r, Some self)
  end.

(** [None] as the outer result is an access outside an array or a failed
    assertion. *)
Definition WebRtcVad_Process (L : VadLocals) (handle : option VadInstT) (fs : Z)
    (audio_frame : option (list Z)) (frame_length : Z) : option (Z * option VadInstT) :=
  match handle with
  | None => Some (-1, None)
  | Some self =>
      if negb (init_flag self =? kInitCheck) then Some (-1, handle)
      else
        match audio_frame with
        | None => Some (-1, handle)
        | Some audio_frame =>
            if negb (WebRtcVad_ValidRateAndFrameLength fs frame_length =? 0) then Some (-1, handle)
            else
              '(vad, self) ←
                (if fs =? 48000 then WebRtcVad_CalcVad48khz L self audio_frame frame_length
                 else if fs =? 32000 then WebRtcVad_CalcVad32khz L self audio_frame frame_length
                 else if fs =? 16000 then WebRtcVad_CalcVad16khz L self audio_frame frame_length
                 else if fs =? 8000 then WebRtcVad_CalcVad8khz L self audio_frame frame_length
                 else Some (-1, self));
              Some (if 0 <? vad then 1 else vad, Some self)
        end
  end.

(** ** The instance invariant *)

(** Deviations are never below the smallest start value. *)
Definition stds_ok (l : list Z) : Prop := length l = 12%nat /\ Forall (fun v => 378 <= v < 2 ^ 15) l.
(** Three thresholds, one per frame length. *)
Definition hang_ok (l : list Z) : Prop := length l = 3%nat /\ Forall (fun v => 0 <= v <= 14) l.

Record vad_wf (s : VadInstT) : Prop := {
  wf_ds : w32 4 (downsampling_filter_states s);
  wf_48 : state48To8_ok (state_48_to_8 s);
  wf_nm : w16 12 (noise_means s);
  wf_sm : w16 12 (speech_means s);
  wf_ns : stds_ok (noise_stds s);
  wf_ss : stds_ok (speech_stds s);
  wf_fc : is_i32 (frame_counter s);
  wf_oh : 0 <= over_hang s <= 14;
  wf_num : 0 <= num_of_speech s <= kMaxSpeechFrames;
  wf_track : tracker_ok s;
  wf_filters : filters_ok s;
  wf_max1 : hang_ok (over_hang_max_1 s);
  wf_max2 : hang_ok (over_hang_max_2 s);
  wf_ind : w16 3 (individual s);
  wf_tot : w16 3 (total s);
  wf_init : init_flag s = kInitCheck
}.

Create HintDb vad.

Lemma wf_set_vad s v : vad_wf s -> vad_wf (set_vad v s).
Proof. intros []. by constructor. Qed.
Lemma wf_set_downsampling_filter_states s v : vad_wf s -> w32 4 v -> vad_wf (set_downsampling_filter_states v s).
Proof. intros [] ?. by constructor. Qed.
Lemma wf_set_state_48_to_8 s v : vad_wf s -> state48To8_ok v -> vad_wf (set_state_48_to_8 v s).
Proof. intros [] ?. by constructor. Qed.
Lemma wf_set_noise_means s v : vad_wf s -> w16 12 v -> vad_wf (set_noise_means v s).
Proof. intros [] ?. by constructor. Qed.
Lemma wf_set_speech_means s v : vad_wf s -> w16 12 v -> vad_wf (set_speech_means v s).
Proof. intros [] ?. by constructor. Qed.
Lemma wf_set_noise_stds s v : vad_wf s -> stds_ok v -> vad_wf (set_noise_stds v s).
Proof. intros [] ?. by constructor. Qed.
Lemma wf_set_speech_stds s v : vad_wf s -> stds_ok v -> vad_wf (set_speech_stds v s).
Proof. intros [] ?. by constructor. Qed.
Lemma wf_set_frame_counter s v : vad_wf s -> is_i32 v -> vad_wf (set_frame_counter v s).
Proof. intros [] ?. by constructor. Qed.
Lemma wf_set_over_hang s v : vad_wf s -> 0 <= v <= 14 -> vad_wf (set_over_hang v s).
Proof. intros [] ?. by constructor. Qed.
Lemma wf_set_num_of_speech s v : vad_wf s -> 0 <= v <= kMaxSpeechFrames -> vad_wf (set_num_of_speech v s).
Proof. intros [] ?. by constructor. Qed.
#[export] Hint Resolve wf_set_vad wf_set_downsampling_filter_states wf_set_state_48_to_8 wf_set_noise_means wf_set_speech_means wf_set_noise_stds wf_set_speech_stds wf_set_frame_counter wf_set_over_hang wf_set_num_of_speech : vad.

Lemma stds_upd l i v : stds_ok l -> 378 <= v < 2 ^ 15 -> stds_ok (upd l i v).
Proof. intros [Hl Hf] Hv. split; [by rewrite length_upd|by apply Forall_upd]. Qed.

Lemma WeightedAverage_ok data c offset weights : w16 12 data ->
  w16 12 (WeightedAverage data c offset weights).2.
Proof.
  intros Hd. unfold WeightedAverage.
  apply (for_loop_pres (fun s : Z * list Z => w16 12 s.2)); [done|].
  intros j [w d] _ Hd'. cbn [snd] in *. eauto with cint.
Qed.

Lemma lower_means_ok m c d : w16 12 m -> w16 12 (lower_means m c d).
Proof. intros Hm. unfold lower_means. apply for_loop_pres; [done|]. intros; eauto with cint. Qed.

Lemma update_noise_mean_ok v nmk fm t c k : is_i16 (update_noise_mean v nmk fm t c k).
Proof.
  unfold update_noise_mean. cbn zeta.
  repeat match goal with |- context [if ?b then _ else _] => destruct b end; auto with cint.
Qed.

Lemma update_speech_ok v smk ssk f maxspe c k : 0 <= k < 2 ->
  is_i16 (update_speech v smk ssk f maxspe c k).1 /\
  378 <= (update_speech v smk ssk f maxspe c k).2 < 2 ^ 15.
Proof.
  intros Hk. unfold update_speech. cbn [fst snd].
  assert (is_i16 (arr kMinimumMean k)).
  { assert (k = 0 \/ k = 1) as [-> | ->] by lia; vm_compute; intuition congruence. }
  split.
  - repeat match goal with |- context [if ?b then _ else _] => destruct b end; auto with cint.
  - match goal with |- context [if i16 ?x <? kMinStd then _ else _] =>
      pose proof (i16_range x) as Hr; unfold is_i16 in Hr;
      destruct (Z.ltb_spec (i16 x) kMinStd); unfold kMinStd in *; lia end.
Qed.

Lemma update_noise_std_ok v nmk nsk f c k : 378 <= update_noise_std v nmk nsk f c k < 2 ^ 15.
Proof.
  unfold update_noise_std. cbn zeta.
  match goal with |- context [if i16 ?x <? kMinStd then _ else _] =>
    pose proof (i16_range x) as Hr; unfold is_i16 in Hr;
    destruct (Z.ltb_spec (i16 x) kMinStd); unfold kMinStd in *; lia end.
Qed.

Lemma update_gaussian_wf v features fm t maxspe c k s : 0 <= k < 2 -> vad_wf s ->
  vad_wf (update_gaussian v features fm t maxspe c k s).
Proof.
  intros Hk Hs. unfold update_gaussian. cbn zeta.
  match goal with |- context [set_noise_means ?m s] => set (s1 := set_noise_means m s) end.
  assert (vad_wf s1) as Hs1.
  { apply wf_set_noise_means; [done|]. apply w16_upd; [apply Hs|apply update_noise_mean_ok]. }
  destruct (negb _).
  - match goal with |- context [update_speech ?a ?b ?d ?e ?f ?g ?h] =>
      pose proof (update_speech_ok a b d e f g h Hk) as [H1 H2];
      destruct (update_speech a b d e f g h) as [smk2 ssk] end. cbn [fst snd] in *.
    apply wf_set_speech_stds; [apply wf_set_speech_means; [done|apply w16_upd; [apply Hs1|done]]|].
    apply stds_upd; [apply Hs1|done].
  - apply wf_set_noise_stds; [done|]. apply stds_upd; [apply Hs1|apply update_noise_std_ok].
Qed.

Lemma separate_models_wf c s : vad_wf s -> vad_wf (separate_models c s).2.
Proof.
  intros Hs. unfold separate_models.
  pose proof (WeightedAverage_ok (noise_means s) c 0 kNoiseDataWeights (wf_nm s Hs)) as H1.
  destruct (WeightedAverage (noise_means s) c 0 kNoiseDataWeights) as [ngm nm]. cbn [snd] in H1.
  assert (vad_wf (set_noise_means nm s)) as Hs1 by eauto with vad.
  set (s1 := set_noise_means nm s) in *. clearbody s1.
  pose proof (WeightedAverage_ok (speech_means s1) c 0 kSpeechDataWeights (wf_sm s1 Hs1)) as H2.
  destruct (WeightedAverage (speech_means s1) c 0 kSpeechDataWeights) as [sgm sm]. cbn [snd] in H2.
  assert (vad_wf (set_speech_means sm s1)) as Hs2 by eauto with vad.
  set (s2 := set_speech_means sm s1) in *. clearbody s2.
  match goal with |- context [let '(_, _) := ?x in _] =>
    assert (vad_wf x.2) as Hs3; [|destruct x as [[sgm' ngm'] s3]; cbn [snd] in Hs3] end.
  { destruct (_ <? _); [|done]. cbn zeta.
    match goal with |- context [WeightedAverage (speech_means s2) ?a ?b ?d] =>
      pose proof (WeightedAverage_ok (speech_means s2) a b d (wf_sm s2 Hs2)) as H3;
      destruct (WeightedAverage (speech_means s2) a b d) as [x1 x2] end.
    match goal with |- context [WeightedAverage (noise_means s2) ?a ?b ?d] =>
      pose proof (WeightedAverage_ok (noise_means s2) a b d (wf_nm s2 Hs2)) as H4;
      destruct (WeightedAverage (noise_means s2) a b d) as [y1 y2] end.
    cbn [snd] in *. eauto with vad. }
  cbn zeta. cbn [snd].
  match goal with |- context [if ?b then set_speech_means ?m s3 else s3] =>
    set (s4 := if b then set_speech_means m s3 else s3);
    assert (vad_wf s4) as Hs4 by (unfold s4; destruct b; [|done];
      apply wf_set_speech_means; [done|apply lower_means_ok, Hs3]) end.
  clearbody s4. destruct (_ <? _); [|done].
  apply wf_set_noise_means; [done|]. apply lower_means_ok, Hs4.
Qed.

Lemma update_channel_wf v f c st : 0 <= c < 6 -> features_ok f -> vad_wf st.2 ->
  vad_wf (update_channel v f c st).2.
Proof.
  intros Hc [_ Hf] Hs. destruct st as [maxspe s]. cbn [snd] in Hs. unfold update_channel.
  assert (is_i16 (arr f c)) as Hfc.
  { apply arr_Forall; [unfold is_i16; lia|]. revert Hf. apply Forall_impl.
    unfold is_i16. intros; lia. }
  destruct (FindMinimum_ok s (arr f c) c Hc (wf_track s Hs) Hfc) as (m & s1 & -> & _ & Ht & E1).
  assert (vad_wf s1) as Hs1 by (destruct Hs; rewrite E1; rewrite E1 in Ht; constructor; auto).
  clear E1 Ht.
  pose proof (WeightedAverage_ok (noise_means s1) c 0 kNoiseDataWeights (wf_nm s1 Hs1)) as H1.
  destruct (WeightedAverage (noise_means s1) c 0 kNoiseDataWeights) as [ngm nm]. cbn [snd] in H1.
  cbn zeta. apply separate_models_wf. apply (for_loop_pres vad_wf); [eauto with vad|].
  intros k s' Hk Hs'. by apply update_gaussian_wf.
Qed.

Lemma smooth_wf o1 o2 f s : 0 <= o1 <= 14 -> 0 <= o2 <= 14 -> 0 <= f <= 1 -> vad_wf s ->
  0 <= (smooth o1 o2 f s).1 <= 16 /\ vad_wf (smooth o1 o2 f s).2.
Proof.
  intros H1 H2 Hf Hs. pose proof (wf_oh s Hs) as Ho. pose proof (wf_num s Hs) as Hn.
  unfold kMaxSpeechFrames in *. unfold smooth.
  destruct (Z.eqb_spec f 0).
  - destruct (Z.ltb_spec 0 (over_hang s)); cbn [fst snd];
      repeat rewrite i16_id by (unfold is_i16; lia); (split; [lia|]);
      repeat (apply wf_set_num_of_speech || apply wf_set_over_hang); unfold kMaxSpeechFrames; try done; lia.
  - cbn zeta. rewrite (i16_id (num_of_speech s + 1)) by (unfold is_i16; lia).
    change (num_of_speech (set_num_of_speech (num_of_speech s + 1) s)) with (num_of_speech s + 1).
    change (set_num_of_speech kMaxSpeechFrames (set_num_of_speech (num_of_speech s + 1) s))
      with (set_num_of_speech kMaxSpeechFrames s).
    unfold kMaxSpeechFrames.
    destruct (Z.ltb_spec 6 (num_of_speech s + 1)); cbn [fst snd]; (split; [lia|]);
      (apply wf_set_over_hang; [apply wf_set_num_of_speech|]); unfold kMaxSpeechFrames; try done; lia.
Qed.

Lemma hang_arr l i : hang_ok l -> 0 <= arr l i <= 14.
Proof. intros [_ H]. apply (arr_Forall (fun v => 0 <= v <= 14)); [lia|done]. Qed.

Lemma GmmProbability_wf s f p n : features_ok f -> vad_wf s ->
  0 <= (GmmProbability s f p n).1 <= 16 /\ vad_wf (GmmProbability s f p n).2.
Proof.
  intros Hf Hs. unfold GmmProbability. cbn zeta.
  set (sel := if n =? 80 then 0 else if n =? 160 then 1 else 2). clearbody sel.
  pose proof (hang_arr _ sel (wf_max1 s Hs)) as H1. pose proof (hang_arr _ sel (wf_max2 s Hs)) as H2.
  destruct (_ <? _); [|apply smooth_wf; [done|done|lia|done]].
  match goal with |- context [for_loop kNumChannels (test_channel ?a ?b ?d) ?e] =>
    assert (0 <= vadflag (for_loop kNumChannels (test_channel a b d) e) <= 1) as Hv;
    [|set (v := for_loop kNumChannels (test_channel a b d) e) in *; clearbody v] end.
  { apply (for_loop_pres (fun v => 0 <= vadflag v <= 1)); [cbn; lia|]. intros j v _ Hv.
    unfold test_channel. repeat destruct (model_probability _ _ _ _ _ _) as [[? ?] ?].
    cbn [vadflag]. destruct (_ <? _); lia. }
  match goal with |- context [Z.lor ?a ?b] => set (vad := Z.lor a b);
    assert (0 <= vad <= 1) as Hvad end.
  { unfold vad. assert (vadflag v = 0 \/ vadflag v = 1) as [-> | ->] by lia;
      destruct (_ <=? _); vm_compute; split; discriminate. }
  clearbody vad.
  match goal with |- context [for_loop kNumChannels (update_channel ?a ?b) ?e] =>
    assert (vad_wf (for_loop kNumChannels (update_channel a b) e).2) as Hw;
    [|destruct (for_loop kNumChannels (update_channel a b) e) as [mx s2]; cbn [snd] in Hw] end.
  { apply (for_loop_pres (fun st : Z * VadInstT => vad_wf st.2)); [done|]. intros j st Hj Hst.
    apply update_channel_wf; [exact Hj|exact Hf|exact Hst]. }
  apply smooth_wf; [done|done|done|]. apply wf_set_frame_counter; [done|]. auto with cint.
Qed.

Lemma CalcVad8khz_wf L s x n N : locals_ok L -> w16 N x -> 16 <= n <= 240 -> n <= Z.of_nat N -> vad_wf s ->
  exists r s', WebRtcVad_CalcVad8khz L s x n = Some (r, s') /\ 0 <= r <= 16 /\ vad_wf s'.
Proof.
  intros HL Hx Hn HN Hs. unfold WebRtcVad_CalcVad8khz.
  assert (length (feature_vector L) = 6%nat) as H6 by apply HL.
  destruct (CalculateFeatures_ok L s x n (feature_vector L) N HL Hx Hn HN H6 (wf_filters s Hs))
    as (te & f & s1 & -> & _ & Hf & Hf1 & Hm). bind_simpl.
  assert (vad_wf s1) as Hs1 by (destruct Hs; rewrite Hm; rewrite Hm in Hf1; constructor; auto).
  pose proof (GmmProbability_wf s1 f te n Hf Hs1) as [H1 H2].
  destruct (GmmProbability s1 f te n) as [r s2]. cbn [fst snd] in *.
  eexists _, _. split; [done|]. auto with vad.
Qed.

Lemma Downsampling_ok x out st n N M : w16 N x -> w16 M out -> 0 <= n <= Z.of_nat N ->
  n / 2 <= Z.of_nat M ->
  exists out' s0 s1, WebRtcVad_Downsampling x out st n = Some (out', (s0, s1)) /\
    w16 M out' /\ (0 < n / 2 -> is_i32 s0 /\ is_i32 s1).
Proof.
  intros Hx Ho Hn HM. unfold WebRtcVad_Downsampling. rewrite shiftr_div by lia. change (2 ^ 1) with 2.
  edestruct (for_opt_ind (fun j (s : list Z * (Z * Z)) => w16 M s.1 /\
      (0 < j -> is_i32 s.2.1 /\ is_i32 s.2.2))) as ([out' [s0 s1]] & -> & H1 & H2); cycle -1.
  - eexists _, _, _. split; [done|]. cbn [fst snd] in *. done.
  - Z.div_mod_to_equations. lia.
  - cbn. split; [done|lia].
  - intros j [o [t1 t2]] Hj [Hwo _]. cbn [fst snd] in *.
    destruct (w16_rd N x (2 * j) Hx) as [-> _]; [Z.div_mod_to_equations; lia|]. bind_simpl.
    unfold down_branch at 1. cbn zeta beta iota.
    match goal with |- context [wr o j ?v] =>
      destruct (w16_wr M o j v Hwo) as (o1 & -> & Ho1); [lia|apply i16_range|] end. bind_simpl.
    destruct (w16_rd N x (2 * j + 1) Hx) as [-> _]; [Z.div_mod_to_equations; lia|]. bind_simpl.
    unfold down_branch at 1. cbn zeta beta iota.
    destruct (w16_rd M o1 j Ho1) as [-> _]; [lia|]. bind_simpl.
    match goal with |- context [wr o1 j ?v] =>
      destruct (w16_wr M o1 j v Ho1) as (o2 & -> & Ho2); [lia|apply i16_range|] end. bind_simpl.
    eexists. split; [done|]. cbn [fst snd]. auto with cint.
Qed.

Lemma downsample_inst_ok s p x out n N M : w16 N x -> w16 M out -> 2 <= n <= Z.of_nat N ->
  n / 2 <= Z.of_nat M -> vad_wf s ->
  exists out' s', downsample_inst s p x out n = Some (out', s') /\ w16 M out' /\ vad_wf s'.
Proof.
  intros Hx Ho Hn HM Hs. unfold downsample_inst.
  destruct (Downsampling_ok x out (arr (downsampling_filter_states s) p,
    arr (downsampling_filter_states s) (p + 1)) n N M Hx Ho ltac:(lia) HM) as (out' & s0 & s1 & -> & Hout & Hi).
  bind_simpl. destruct Hi as [? ?]; [Z.div_mod_to_equations; lia|].
  eexists _, _. split; [done|]. split; [done|].
  apply wf_set_downsampling_filter_states; [done|]. destruct Hs; auto with cint.
Qed.

Lemma CalcVad16khz_wf L s x n N : locals_ok L -> w16 N x -> 32 <= n <= 480 -> n <= Z.of_nat N -> vad_wf s ->
  exists r s', WebRtcVad_CalcVad16khz L s x n = Some (r, s') /\ 0 <= r <= 16 /\ vad_wf s'.
Proof.
  intros HL Hx Hn HN Hs. unfold WebRtcVad_CalcVad16khz. pose proof HL as (_ & _ & _ & _ & _ & _ & H240 & _).
  destruct (downsample_inst_ok s 0 x _ n N _ Hx H240 ltac:(lia) ltac:(Z.div_mod_to_equations; lia) Hs)
    as (out & s1 & -> & Ho & Hs1). bind_simpl.
  apply (CalcVad8khz_wf _ _ _ _ _ HL Ho); [| |done]; Z.div_mod_to_equations; lia.
Qed.

Lemma CalcVad32khz_wf L s x n N : locals_ok L -> w16 N x -> 64 <= n <= 960 -> n <= Z.of_nat N -> vad_wf s ->
  exists r s', WebRtcVad_CalcVad32khz L s x n = Some (r, s') /\ 0 <= r <= 16 /\ vad_wf s'.
Proof.
  intros HL Hx Hn HN Hs. unfold WebRtcVad_CalcVad32khz. pose proof HL as (_ & _ & _ & _ & _ & H480 & H240 & _).
  destruct (downsample_inst_ok s 2 x _ n N _ Hx H480 ltac:(lia) ltac:(Z.div_mod_to_equations; lia) Hs)
    as (out & s1 & -> & Ho & Hs1). bind_simpl.
  assert (32 <= n / 2 <= 480) by (Z.div_mod_to_equations; lia).
  destruct (downsample_inst_ok s1 0 out _ (n / 2) _ _ Ho H240 ltac:(lia) ltac:(Z.div_mod_to_equations; lia) Hs1)
    as (o2 & s2 & -> & Ho2 & Hs2). bind_simpl.
  apply (CalcVad8khz_wf _ _ _ _ _ HL Ho2); [| |done]; Z.div_mod_to_equations; lia.
Qed.

Lemma CalcVad48khz_wf L s x n : locals_ok L -> (480 <= length x)%nat -> 480 <= n <= 1440 -> vad_wf s ->
  exists r s', WebRtcVad_CalcVad48khz L s x n = Some (r, s') /\ 0 <= r <= 16 /\ vad_wf s'.
Proof.
  intros HL Hx Hn Hs. unfold WebRtcVad_CalcVad48khz. pose proof HL as (_ & _ & _ & _ & _ & _ & _ & Hnb).
  edestruct (for_opt_ind (fun (_ : Z) (st : list Z * VadInstT * list Z) =>
      w16 240 st.1.1 /\ vad_wf st.1.2 /\ w32 736 st.2)) as ([[nb s1] mem] & -> & H1 & H2 & _); cycle -1.
  - bind_simpl. cbn [fst snd] in *. apply (CalcVad8khz_wf _ _ _ _ _ HL H1); [| |done]; Z.div_mod_to_equations; lia.
  - Z.div_mod_to_equations; lia.
  - cbn [fst snd]. split; [done|]. split; [done|apply w32_zeros].
  - intros j [[nb s1] mem] Hj ([Hl Hf] & Hs1 & Hm). cbn [fst snd] in *.
    destruct (Resample48khzTo8khz_ok x nb (j * 80) (state_48_to_8 s1) mem 736)
      as (nb' & st' & mem' & -> & Hl' & Hf' & Hst & Hm' & _);
      [done|done|lia|rewrite Hl; Z.div_mod_to_equations; lia|apply Hs1|done|lia|].
    bind_simpl. eexists. split; [done|]. cbn [fst snd].
    split; [split; [lia|done]|]. split; [by apply wf_set_state_48_to_8|done].
Qed.

(** ** Init, set_mode and Process *)

(** The lengths the interface accepts: 10, 20 or 30 ms at 8, 16, 32 or 48 kHz
    ([kValidRates]; the header [webrtc_vad.h] documents the first three rates
    only). *)
Definition valid_frame (fs n : Z) : Prop :=
  In fs [8000; 16000; 32000; 48000] /\ exists t, In t [10; 20; 30] /\ n = fs / 1000 * t.

Lemma ValidRate_spec fs n : (WebRtcVad_ValidRateAndFrameLength fs n = 0 <-> valid_frame fs n) /\
  (WebRtcVad_ValidRateAndFrameLength fs n = 0 \/ WebRtcVad_ValidRateAndFrameLength fs n = -1).
Proof.
  unfold WebRtcVad_ValidRateAndFrameLength, valid_frame. cbn [valid_rate_loop kValidRates].
  assert (forall r, In r [8000; 16000; 32000; 48000] ->
    (valid_length_loop 3 r 10 n = 0 <-> exists t, In t [10; 20; 30] /\ n = r / 1000 * t) /\
    (valid_length_loop 3 r 10 n = 0 \/ valid_length_loop 3 r 10 n = -1)) as H.
  { intros r Hr. cbn [valid_length_loop]. rewrite Z.quot_div_nonneg by (cbn in Hr; lia).
    change (10 <=? kMaxFrameLengthMs) with true. change (10 + 10 <=? kMaxFrameLengthMs) with true.
    change (10 + 10 + 10 <=? kMaxFrameLengthMs) with true.
    change (10 + 10 + 10 + 10 <=? kMaxFrameLengthMs) with false. cbn iota. cbn [In].
    change (10 + 10 + 10) with 30. change (10 + 10) with 20. cbn [In] in Hr.
    repeat match goal with |- context [n =? ?x] => destruct (Z.eqb_spec n x) end;
      (split; [|auto]); (split; try done);
      try (by intros _; eexists; split; [|eassumption]; tauto).
    intros (t & [<-|[<-|[<-|[]]]] & Ht); done. }
  repeat match goal with |- context [?r =? fs] =>
    destruct (Z.eqb_spec r fs); [subst fs; destruct (H r) as [H1 H2]; [cbn; tauto|];
      split; [rewrite H1; split; [intros; split; [cbn; tauto|done]|by intros [_ ?]]|done]|] end.
  split; [|auto]. split; [done|]. intros [Hr _]. cbn in Hr. lia.
Qed.

Lemma set_mode_core_wf s m : vad_wf s -> 0 <= m <= 3 ->
  exists s', WebRtcVad_set_mode_core s m = (0, s') /\ vad_wf s'.
Proof.
  intros [] Hm. assert (m = 0 \/ m = 1 \/ m = 2 \/ m = 3) as [-> | [-> | [-> | ->]]] by lia;
    (eexists; split; [reflexivity|]); constructor; try done;
    (split; [done|]; repeat constructor; unfold is_i16; lia).
Qed.

Lemma set_mode_core_bad s m : ~ 0 <= m <= 3 -> WebRtcVad_set_mode_core s m = (-1, s).
Proof.
  intros Hm. unfold WebRtcVad_set_mode_core. destruct m as [|[[p|p|]|[p|p|]|]|p]; try done; lia.
Qed.

Lemma InitCore_wf s : exists s', WebRtcVad_InitCore (Some s) = (0, Some s') /\ vad_wf s'.
Proof.
  cbn. eexists. split; [reflexivity|].
  constructor; cbn; try done; try (by apply (w32_zeros 4)); try (unfold is_i32; lia);
    try (split; [done|]; repeat constructor; unfold is_i16; lia).
  - unfold state48To8_ok. repeat split; apply Forall_replicate; unfold is_i32; lia.
  - by apply tracker_init.
  - repeat split; repeat constructor; unfold is_i16; lia.
Qed.

Lemma Process_wf L s fs x n N : locals_ok L -> vad_wf s -> valid_frame fs n -> w16 N x -> n <= Z.of_nat N ->
  exists r s', WebRtcVad_Process L (Some s) fs (Some x) n = Some (r, Some s') /\
    (r = 0 \/ r = 1) /\ vad_wf s'.
Proof.
  intros HL Hs Hv Hx HN. unfold WebRtcVad_Process. rewrite (wf_init s Hs), Z.eqb_refl. cbn [negb].
  rewrite (proj2 (proj1 (ValidRate_spec fs n)) Hv). cbn [Z.eqb negb].
  destruct Hv as [Hr (t & Ht & ->)]. pose proof (proj1 Hx) as Hl.
  match goal with |- context [mbind _ ?c] =>
    assert (exists r s', c = Some (r, s') /\ 0 <= r <= 16 /\ vad_wf s') as (r & s' & -> & Hr' & Hs') end.
  { cbn in Hr, Ht. destruct Hr as [<-|[<-|[<-|[<-|[]]]]]; cbn [Z.eqb Pos.eqb];
      match goal with |- context [?a / 1000] =>
        let q := eval vm_compute in (a / 1000) in change (a / 1000) with q in * end.
    - apply (CalcVad8khz_wf L s x _ N); [done|done|lia|lia|done].
    - apply (CalcVad16khz_wf L s x _ N); [done|done|lia|lia|done].
    - apply (CalcVad32khz_wf L s x _ N); [done|done|lia|lia|done].
    - apply CalcVad48khz_wf; [done|lia|lia|done]. }
  bind_simpl. eexists _, _. split; [done|]. split; [|done].
  destruct (Z.ltb_spec 0 r); [by right|left; lia].
Qed.

(** C4: a frame of a length the code accepts (10, 20 or 30 ms at 8, 16, 32 or
    48 kHz) on an initialised detector is always classified: whatever the local
    arrays hold, [WebRtcVad_Process] returns 0 or 1, reads and writes only
    inside the frame and inside those arrays (sized as they are declared), fails
    no assertion, and leaves an instance that is again well formed, so any
    sequence of calls is safe.  The standard deviations it divides by never fall
    under 378. *)
Theorem vad_process_correct L s fs x n N :
  locals_ok L -> vad_wf s -> valid_frame fs n -> w16 N x -> n <= Z.of_nat N ->
  exists r s', WebRtcVad_Process L (Some s) fs (Some x) n = Some (r, Some s') /\
    (r = 0 \/ r = 1) /\ vad_wf s'.
Proof. apply Process_wf. Qed.

Lemma vad_process_correct_witness :
  exists s0 r s', WebRtcVad_Init (Some blank_inst) = (0, Some s0) /\
    WebRtcVad_Process some_locals (Some s0) 16000 (Some (replicate 160 1000)) 160 = Some (r, Some s') /\
    (r = 0 \/ r = 1) /\ vad_wf s'.
Proof.
  destruct (InitCore_wf blank_inst) as (s0 & E & Hs0). exists s0.
  destruct (vad_process_correct some_locals s0 16000 (replicate 160 1000) 160 160) as (r & s' & H).
  - exact some_locals_ok.
  - exact Hs0.
  - split; [cbn; tauto|]. exists 10. split; [cbn; tauto|reflexivity].
  - split; [done|]. apply Forall_replicate. unfold is_i16. lia.
  - lia.
  - exists r, s'. split; [exact E|exact H].
Defined.

(** C39: the error paths of the interface.  A created instance refuses frames
    until it is initialised; [WebRtcVad_Init] accepts any
    instance and makes it well formed; [WebRtcVad_set_mode] accepts exactly the
    modes 0 to 3; the length check accepts exactly 10, 20 and 30 ms at 8, 16,
    32 and 48 kHz (the last is not among the rates [webrtc_vad.h] documents); and [WebRtcVad_Process] answers -1, leaving the instance untouched,
    on a null handle, an instance that was never initialised, a null frame and
    a length it does not support. *)
Theorem vad_interface_errors L s fs n x m :
  (exists s0, WebRtcVad_Create (Some s) = Some s0 /\
     WebRtcVad_Process L (Some s0) fs x n = Some (-1, Some s0)) /\
  (exists s', WebRtcVad_Init (Some s) = (0, Some s') /\ vad_wf s') /\
  WebRtcVad_Init None = (-1, None) /\
  (vad_wf s -> if bool_decide (0 <= m <= 3)
     then exists s', WebRtcVad_set_mode (Some s) m = (0, Some s') /\ vad_wf s'
     else WebRtcVad_set_mode (Some s) m = (-1, Some s)) /\
  (WebRtcVad_ValidRateAndFrameLength fs n = 0 <-> valid_frame fs n) /\
  WebRtcVad_Process L None fs x n = Some (-1, None) /\
  (init_flag s <> kInitCheck -> WebRtcVad_Process L (Some s) fs x n = Some (-1, Some s) /\
     WebRtcVad_set_mode (Some s) m = (-1, Some s)) /\
  WebRtcVad_Process L (Some s) fs None n = Some (-1, Some s) /\
  (~ valid_frame fs n -> WebRtcVad_Process L (Some s) fs x n = Some (-1, Some s)).
Proof.
  split; [by eexists|]. split; [apply InitCore_wf|]. split; [done|]. split.
  { intros Hs. unfold WebRtcVad_set_mode. rewrite (wf_init s Hs), Z.eqb_refl. cbn [negb].
    case_bool_decide as Hm.
    - destruct (set_mode_core_wf s m Hs Hm) as (s' & -> & Hs'). eauto.
    - by rewrite set_mode_core_bad. }
  split; [apply ValidRate_spec|]. split; [done|]. split.
  { intros Hi%Z.eqb_neq. unfold WebRtcVad_Process, WebRtcVad_set_mode. by rewrite Hi. }
  unfold WebRtcVad_Process. destruct (Z.eqb_spec (init_flag s) kInitCheck); cbn [negb]; [|done].
  split; [done|]. intros Hv. destruct x; [|done].
  destruct (Z.eqb_spec (WebRtcVad_ValidRateAndFrameLength fs n) 0) as [E|E]; [|done].
  by apply ValidRate_spec in E.
Qed.

Lemma vad_interface_errors_witness :
  WebRtcVad_Process some_locals (Some blank_inst) 8000 (Some []) 80 = Some (-1, Some blank_inst) /\
  WebRtcVad_Process some_locals (Some (set_init_flag 42 blank_inst)) 8000 (Some []) 81
    = Some (-1, Some (set_init_flag 42 blank_inst)).
Proof.
  split.
  - destruct (vad_interface_errors some_locals blank_inst 8000 80 (Some []) 0) as (_ & _ & _ & _ & _ & _ & H & _).
    apply H. discriminate.
  - destruct (vad_interface_errors some_locals (set_init_flag 42 blank_inst) 8000 81 (Some []) 0)
      as (_ & _ & _ & _ & _ & _ & _ & _ & H). apply H.
    intros [_ (t & Ht & E)]. cbn in Ht. vm_compute in E.
    destruct Ht as [<- | [<- | [<- | []]]]; discriminate.
Defined.

(** ** The hangover *)

(** The smoothing of a sequence of frame decisions; returns the smoothed
    decisions. *)
Fixpoint smooth_run (overhead1 overhead2 : Z) (flags : list Z) (s : VadInstT)
  : list Z * VadInstT :=
  match flags with
  | [] => ([], s)
  | f :: flags =>
      let '(r, s) := smooth overhead1 overhead2 f s in
      let '(rs, s) := smooth_run overhead1 overhead2 flags s in (r :: rs, s)
  end.

Lemma smooth_run_app o1 o2 a b s :
  smooth_run o1 o2 (a ++ b) s =
  let '(ra, s) := smooth_run o1 o2 a s in
  let '(rb, s) := smooth_run o1 o2 b s in (ra ++ rb, s).
Proof.
  revert s. induction a as [|f a IH]; intros s; cbn.
  - by destruct (smooth_run o1 o2 b s).
  - destruct (smooth o1 o2 f s) as [r s1]. rewrite IH. destruct (smooth_run o1 o2 a s1) as [ra s2].
    by destruct (smooth_run o1 o2 b s2).
Qed.

Lemma smooth_run_speech o1 o2 k s : (0 < k)%nat -> 0 <= num_of_speech s <= 6 ->
  exists s', smooth_run o1 o2 (replicate k 1) s = (replicate k 1, s') /\
    num_of_speech s' = Z.min 6 (num_of_speech s + Z.of_nat k) /\
    over_hang s' = if 6 <? num_of_speech s + Z.of_nat k then o2 else o1.
Proof.
  revert s. induction k as [|k IH]; intros s Hk Hn; [lia|]. cbn [replicate smooth_run].
  assert (exists s1, smooth o1 o2 1 s = (1, s1) /\ num_of_speech s1 = Z.min 6 (num_of_speech s + 1) /\
    over_hang s1 = if 6 <? num_of_speech s + 1 then o2 else o1) as (s1 & -> & Hn1 & Ho1).
  { unfold smooth. cbn [Z.eqb]. cbn zeta. rewrite (i16_id (num_of_speech s + 1)) by (unfold is_i16; lia).
    unfold kMaxSpeechFrames. cbn [num_of_speech set_num_of_speech].
    destruct (Z.ltb_spec 6 (num_of_speech s + 1)); eexists; (split; [reflexivity|]); cbn; lia. }
  destruct k as [|k].
  - cbn [replicate smooth_run]. eexists. split; [reflexivity|]. done.
  - destruct (IH s1 ltac:(lia) ltac:(lia)) as (s' & -> & Hn' & Ho'). eexists. split; [reflexivity|].
    split; [lia|]. rewrite Ho', Hn1. destruct (Z.ltb_spec 6 (Z.min 6 (num_of_speech s + 1) + Z.of_nat (S k)));
      destruct (Z.ltb_spec 6 (num_of_speech s + Z.of_nat (S (S k)))); try done; lia.
Qed.

Lemma smooth_run_noise o1 o2 k s : 0 <= over_hang s <= 14 ->
  exists s', smooth_run o1 o2 (replicate k 0) s =
      (map (fun i => if Z.of_nat i <? over_hang s then 2 + over_hang s - Z.of_nat i else 0) (seq 0 k), s') /\
    over_hang s' = Z.max 0 (over_hang s - Z.of_nat k).
Proof.
  revert s. induction k as [|k IH]; intros s Ho; cbn [replicate smooth_run seq map].
  - eexists. split; [done|]. lia.
  - unfold smooth at 1. cbn [Z.eqb].
    destruct (Z.ltb_spec 0 (over_hang s)) as [Hp|Hp].
    + rewrite !i16_id by (unfold is_i16; lia). cbn iota beta.
      match goal with |- context [smooth_run _ _ _ ?x] => destruct (IH x) as (s' & -> & Ho') end; [cbn; lia|].
      change (over_hang (set_num_of_speech 0 (set_over_hang (over_hang s - 1) s)))
        with (over_hang s - 1) in *.
      exists s'. split; [|lia]. f_equal.
      change (Z.of_nat 0) with 0. rewrite Z.sub_0_r. destruct (Z.ltb_spec 0 (over_hang s)); [|lia].
      f_equal. rewrite <- seq_shift, map_map. apply map_ext_in. intros i _.
      destruct (Z.ltb_spec (Z.of_nat i) (over_hang s - 1)), (Z.ltb_spec (Z.of_nat (S i)) (over_hang s)); lia.
    + cbn iota beta.
      match goal with |- context [smooth_run _ _ _ ?x] => destruct (IH x) as (s' & -> & Ho') end; [cbn; lia|].
      change (over_hang (set_num_of_speech 0 s)) with (over_hang s) in *.
      exists s'. split; [|lia]. f_equal.
      change (Z.of_nat 0) with 0. destruct (Z.ltb_spec 0 (over_hang s)); [lia|].
      f_equal. rewrite <- seq_shift, map_map. apply map_ext_in. intros i _.
      destruct (Z.ltb_spec (Z.of_nat i) (over_hang s)), (Z.ltb_spec (Z.of_nat (S i)) (over_hang s)); lia.
Qed.

(** the hangover.  After a burst of [k] speech frames that starts in
    silence, the detector stays active on exactly [H] further frames and then
    reports silence, where [H] is [over_hang_max_1] for a burst of at most six
    frames and [over_hang_max_2] for a longer one; the values 3 to 16 of the
    hangover frames count down. *)
Theorem hangover_exact o1 o2 k j s :
  (0 < k)%nat -> num_of_speech s = 0 -> 0 <= o1 <= 14 -> 0 <= o2 <= 14 ->
  let H := if (k <=? 6)%nat then o1 else o2 in
  (smooth_run o1 o2 (replicate k 1 ++ replicate j 0) s).1 =
    replicate k 1 ++ map (fun i => if Z.of_nat i <? H then 2 + H - Z.of_nat i else 0) (seq 0 j).
Proof.
  intros Hk Hn H1 H2 H. rewrite smooth_run_app.
  destruct (smooth_run_speech o1 o2 k s Hk ltac:(lia)) as (s1 & -> & _ & Ho).
  assert (over_hang s1 = H) as E.
  { rewrite Ho, Hn. unfold H. destruct (Nat.leb_spec k 6), (Z.ltb_spec 6 (0 + Z.of_nat k)); try done; lia. }
  destruct (smooth_run_noise o1 o2 j s1) as (s2 & -> & _); [rewrite E; unfold H; by destruct (k <=? 6)%nat|].
  cbn [fst]. by rewrite E.
Qed.

Lemma hangover_exact_witness :
  (smooth_run 3 5 (replicate 2 1 ++ replicate 5 0) blank_inst).1 = [1; 1; 5; 4; 3; 0; 0].
Proof.
  transitivity (replicate 2 1 ++ map (fun i => if Z.of_nat i <? 3 then 2 + 3 - Z.of_nat i else 0) (seq 0 5)).
  - apply (hangover_exact 3 5 2 5 blank_inst); [lia|reflexivity|lia|lia].
  - reflexivity.
Defined.

(** ** 48 kHz *)

Lemma rd_take l n i : 0 <= i < n -> rd (take (Z.to_nat n) l) i = rd l i.
Proof.
  intros Hi. unfold rd. rewrite (proj2 (Z.leb_le 0 i)) by lia. apply lookup_take_lt. lia.
Qed.

Lemma DownBy2ShortToInt_take inp mem p st :
  WebRtcSpl_DownBy2ShortToInt (take 480 inp) 480 mem p st = WebRtcSpl_DownBy2ShortToInt inp 480 mem p st.
Proof.
  unfold WebRtcSpl_DownBy2ShortToInt. change (480 ≫ 1) with 240. change 480%nat with (Z.to_nat 480).
  match goal with |- context [for_opt 240 ?f (mem, st)] => rewrite (for_opt_ext f
    (fun i '(mem, state) => v ← rd inp (i ≪ 1);
      let state := allpass kResampleAllpass_1 0 (to_q15 v) state in
      mem ← wr mem (p + i) (arr state 3 ≫ 1); Some (mem, state))) end.
  - destruct (for_opt 240 _ (mem, st)) as [[m1 s1]|]; [|done]. bind_simpl. apply for_opt_ext.
    intros j [m2 s2] Hj. rewrite rd_take; [done|]. rewrite Z.shiftl_mul_pow2; lia.
  - intros j [m2 s2] Hj. rewrite rd_take; [done|]. rewrite Z.shiftl_mul_pow2; lia.
Qed.

Lemma Resample48khzTo8khz_take inp out p st mem :
  WebRtcSpl_Resample48khzTo8khz (take 480 inp) out p st mem = WebRtcSpl_Resample48khzTo8khz inp out p st mem.
Proof. unfold WebRtcSpl_Resample48khzTo8khz. by rewrite DownBy2ShortToInt_take. Qed.

Lemma CalcVad48khz_take L s x n : WebRtcVad_CalcVad48khz L s (take 480 x) n = WebRtcVad_CalcVad48khz L s x n.
Proof.
  unfold WebRtcVad_CalcVad48khz. f_equal. apply for_opt_ext. intros j [[nb s1] mem] _.
  by rewrite Resample48khzTo8khz_take.
Qed.

(** At 48 kHz the decision on a frame of 20 or 30 ms depends on its first
    10 ms only: two frames that agree there get the same answer and leave the
    same instance, because the loop of [WebRtcVad_CalcVad48khz] resamples the
    same 480 samples in every round. *)
Theorem vad_48khz_first_10ms L s x y n :
  take 480 x = take 480 y ->
  WebRtcVad_Process L (Some s) 48000 (Some x) n = WebRtcVad_Process L (Some s) 48000 (Some y) n.
Proof.
  intros E. unfold WebRtcVad_Process. change (48000 =? 48000) with true. cbn iota.
  by rewrite <- (CalcVad48khz_take L s x), <- (CalcVad48khz_take L s y), E.
Qed.

Lemma vad_48khz_first_10ms_witness :
  WebRtcVad_Process some_locals (Some blank_inst) 48000 (Some (replicate 480 7 ++ replicate 480 900)) 960 =
  WebRtcVad_Process some_locals (Some blank_inst) 48000 (Some (replicate 480 7 ++ replicate 480 0)) 960.
Proof. apply (vad_48khz_first_10ms some_locals blank_inst). reflexivity. Defined.
