(* ===== verification/RingBuffer.v ===== *)
(** The byte ring buffer of [common_audio/ring_buffer.c].

    [RingBuffer] is the C struct; a possibly-null [RingBuffer*] is an
    [option RingBuffer].  Copies between the caller's memory and the buffer go
    through [mem_read]/[mem_write], so an operation that would touch memory
    outside a block evaluates to [None].

    The abstract component is a ring of bytes seen from the read position
    together with the number of readable elements ([view]); each operation is
    proved to compute the abstract one, and the readable part behaves as a
    bounded FIFO queue. *)
From S2P Require Import Prelude.

Inductive Wrap := SAME_WRAP | DIFF_WRAP.
#[export] Instance Wrap_eq_dec : EqDecision Wrap.
Proof. solve_decision. Defined.

Record RingBuffer := mkRingBuffer {
  read_pos : Z;
  write_pos : Z;
  element_count : Z;
  element_size : Z;
  rw_wrap : Wrap;
  data : list Z
}.

Definition set_pos (b : RingBuffer) (r w : Z) (wr : Wrap) : RingBuffer :=
  mkRingBuffer r w (element_count b) (element_size b) wr (data b).
Definition set_data (b : RingBuffer) (d : list Z) : RingBuffer :=
  mkRingBuffer (read_pos b) (write_pos b) (element_count b) (element_size b) (rw_wrap b) d.

(** ** Queries *)

Definition WebRtc_available_read (self : option RingBuffer) : Z :=
  match self with
  | None => 0
  | Some b =>
      match rw_wrap b with
      | SAME_WRAP => u64 (write_pos b - read_pos b)
      | DIFF_WRAP => u64 (u64 (element_count b - read_pos b) + write_pos b)
      end
  end.

Definition WebRtc_available_write (self : option RingBuffer) : Z :=
  match self with
  | None => 0
  | Some b => u64 (element_count b - WebRtc_available_read self)
  end.

(** ** Creation, initialisation, release *)

(** [memset(self->data, 0, element_count * element_size)]. *)
Definition WebRtc_InitBuffer (self : RingBuffer) : option RingBuffer :=
  let b := set_pos self 0 0 SAME_WRAP in
  let bytes := u64 (element_count b * element_size b) in
  d ← mem_write (data b) 0 (replicate (Z.to_nat bytes) 0);
  Some (set_data b d).

(** The heap operations a call performs, in order. *)
Inductive heap_op := MallocStruct | MallocData (bytes : Z) | FreeData | FreeStruct.

(** The outcome of the two [malloc] calls is an argument: whether the struct
    was allocated, and the block obtained for the data.  The result is [None]
    for an out-of-bounds access, otherwise the returned pointer with the heap
    operations performed. *)
Definition WebRtc_CreateBuffer (malloc_struct : bool) (malloc_data : option (list Z))
    (count size : Z) : option (option RingBuffer * list heap_op) :=
  if (count =? 0) || (size =? 0) then Some (None, [])
  else if negb malloc_struct then Some (None, [])
  else
    let request := u64 (count * size) in
    match malloc_data with
    | None => Some (None, [MallocStruct; FreeStruct])
    | Some block =>
        b ← WebRtc_InitBuffer (mkRingBuffer 0 0 count size SAME_WRAP block);
        Some (Some b, [MallocStruct; MallocData request])
    end.

Definition WebRtc_FreeBuffer (handle : option RingBuffer) : list heap_op :=
  match handle with
  | None => []
  | Some _ => [FreeData; FreeStruct]
  end.

(** ** Moving the read position *)

Definition WebRtc_MoveReadPtr (self : option RingBuffer) (count : Z)
  : Z * option RingBuffer :=
  match self with
  | None => (0, None)
  | Some b =>
      let free_elements := i32 (WebRtc_available_write self) in
      let readable_elements := i32 (WebRtc_available_read self) in
      let pos := i32 (read_pos b) in
      let count := if readable_elements <? count then readable_elements else count in
      let count := if count <? i32 (- free_elements) then i32 (- free_elements) else count in
      let pos := i32 (pos + count) in
      let '(pos, wr) :=
        if i32 (element_count b) <? pos
        then (i32 (pos - i32 (element_count b)), SAME_WRAP) else (pos, rw_wrap b) in
      let '(pos, wr) :=
        if pos <? 0
        then (i32 (pos + i32 (element_count b)), DIFF_WRAP) else (pos, wr) in
      (count, Some (set_pos b (u64 pos) (write_pos b) wr))
  end.

(** ** Reading *)

(** The out-parameters of [GetBufferReadRegions]: offsets into [data] for the
    two pointers (the second may be null) and the region sizes in bytes. *)
Record regions := mkRegions {
  read_elements : Z;
  ptr_1 : Z;
  bytes_1 : Z;
  ptr_2 : option Z;
  bytes_2 : Z
}.

Definition GetBufferReadRegions (b : RingBuffer) (count : Z) : regions :=
  let readable_elements := WebRtc_available_read (Some b) in
  let n := if readable_elements <? count then readable_elements else count in
  let margin := u64 (element_count b - read_pos b) in
  if margin <? n
  then mkRegions n (u64 (read_pos b * element_size b)) (u64 (margin * element_size b))
         (Some 0) (u64 (u64 (n - margin) * element_size b))
  else mkRegions n (u64 (read_pos b * element_size b)) (u64 (n * element_size b))
         None 0.

(** What [*data_ptr] is set to: untouched (a null [data_ptr] was passed), null,
    an offset into the ring buffer, or the caller's [data]. *)
Inductive out_ptr := NotStored | NullPtr | BufPtr (off : Z) | DataPtr.

Record read_result := mkRead {
  read_count : Z;
  stored_ptr : out_ptr;
  user_data : list Z;
  buffer : RingBuffer
}.

(** [want_ptr] tells whether [data_ptr] is non-null; [dst] is the caller's
    [data] block.  A null [self] or [dst] returns 0 and changes nothing
    ([inl 0]); otherwise [inr] holds the outcome. *)
Definition WebRtc_ReadBuffer (self : option RingBuffer) (want_ptr : bool)
    (dst : option (list Z)) (count : Z) : option (Z + read_result) :=
  match self, dst with
  | None, _ => Some (inl 0)
  | _, None => Some (inl 0)
  | Some b, Some d =>
      let r := GetBufferReadRegions b count in
      '(d, p) ←
        (if 0 <? bytes_2 r then
           s1 ← mem_read (data b) (ptr_1 r) (bytes_1 r);
           d ← mem_write d 0 s1;
           s2 ← mem_read (data b) (default 0 (ptr_2 r)) (bytes_2 r);
           d ← mem_write d (bytes_1 r) s2;
           Some (d, DataPtr)
         else if negb want_ptr then
           s1 ← mem_read (data b) (ptr_1 r) (bytes_1 r);
           d ← mem_write d 0 s1;
           Some (d, BufPtr (ptr_1 r))
         else Some (d, BufPtr (ptr_1 r)));
      let stored :=
        if want_ptr then (if read_elements r =? 0 then NullPtr else p) else NotStored in
      match WebRtc_MoveReadPtr self (i32 (read_elements r)) with
      | (_, Some b') => Some (inr (mkRead (read_elements r) stored d b'))
      | (_, None) => None
      end
  end.

(** ** Writing *)

Definition WebRtc_WriteBuffer (self : option RingBuffer) (src : option (list Z)) (count : Z)
  : option (Z * option RingBuffer) :=
  match self, src with
  | None, _ => Some (0, None)
  | Some b, None => Some (0, Some b)
  | Some b, Some s =>
      let free_elements := WebRtc_available_write self in
      let write_elements := if free_elements <? count then free_elements else count in
      let margin := u64 (element_count b - write_pos b) in
      '(b1, n) ←
        (if margin <? write_elements then
           s1 ← mem_read s 0 (u64 (margin * element_size b));
           d ← mem_write (data b) (u64 (write_pos b * element_size b)) s1;
           Some (mkRingBuffer (read_pos b) 0 (element_count b) (element_size b) DIFF_WRAP d,
                 u64 (write_elements - margin))
         else Some (b, write_elements));
      s2 ← mem_read s (u64 (u64 (write_elements - n) * element_size b1))
                      (u64 (n * element_size b1));
      d ← mem_write (data b1) (u64 (write_pos b1 * element_size b1)) s2;
      Some (write_elements,
            Some (mkRingBuffer (read_pos b1) (u64 (write_pos b1 + n)) (element_count b1)
                    (element_size b1) (rw_wrap b1) d))
  end.

Arguments WebRtc_MoveReadPtr : simpl never.
Arguments WebRtc_available_read : simpl never.
Arguments WebRtc_available_write : simpl never.
Arguments GetBufferReadRegions : simpl never.
Arguments WebRtc_WriteBuffer : simpl never.
Arguments WebRtc_ReadBuffer : simpl never.
Arguments WebRtc_InitBuffer : simpl never.

(** ** Well-formedness and the abstract view *)

Definition wf (b : RingBuffer) : Prop :=
  0 < element_count b <= 2 ^ 30 - 1 /\
  0 < element_size b /\
  element_count b * element_size b < 2 ^ 64 /\
  0 <= read_pos b <= element_count b /\
  0 <= write_pos b <= element_count b /\
  match rw_wrap b with
  | SAME_WRAP => read_pos b <= write_pos b
  | DIFF_WRAP => write_pos b <= read_pos b
  end /\
  Z.of_nat (length (data b)) = element_count b * element_size b.

(** Readable elements, computed in unbounded integers. *)
Definition avail (b : RingBuffer) : Z :=
  match rw_wrap b with
  | SAME_WRAP => write_pos b - read_pos b
  | DIFF_WRAP => element_count b - read_pos b + write_pos b
  end.

(** The ring of bytes seen from the read position, and its readable prefix. *)
Definition ring (b : RingBuffer) : list Z := rot (read_pos b * element_size b) (data b).
Definition content (b : RingBuffer) : list Z :=
  take (Z.to_nat (avail b * element_size b)) (ring b).

Ltac wf_destruct H :=
  let Hc := fresh "Hcount" in let Hs := fresh "Hsize" in let Hb := fresh "Hbytes" in
  let Hr := fresh "Hread" in let Hw := fresh "Hwrite" in let Hx := fresh "Hwrap" in
  let Hl := fresh "Hlen" in destruct H as (Hc & Hs & Hb & Hr & Hw & Hx & Hl).

Lemma avail_bounds b : wf b -> 0 <= avail b <= element_count b.
Proof. intros H. wf_destruct H. unfold avail. destruct (rw_wrap b); lia. Qed.

Lemma u64_small z : 0 <= z < 2 ^ 64 -> u64 z = z.
Proof. apply Z.mod_small. Qed.

Lemma available_read_avail b : wf b -> WebRtc_available_read (Some b) = avail b.
Proof.
  intros H. pose proof (avail_bounds b H). wf_destruct H.
  unfold WebRtc_available_read, avail in *. destruct (rw_wrap b).
  - apply u64_small. lia.
  - rewrite (u64_small (element_count b - read_pos b)) by lia. apply u64_small. lia.
Qed.

Lemma available_write_avail b :
  wf b -> WebRtc_available_write (Some b) = element_count b - avail b.
Proof.
  intros H. pose proof (avail_bounds b H). unfold WebRtc_available_write.
  rewrite available_read_avail by done. wf_destruct H. apply u64_small. lia.
Qed.

(** A byte offset of an element position does not wrap. *)
Lemma u64_bytes b n : wf b -> 0 <= n <= element_count b ->
  u64 (n * element_size b) = n * element_size b.
Proof. intros H Hn. wf_destruct H. apply u64_small. nia. Qed.

Lemma length_ring b : wf b -> Z.of_nat (length (ring b)) = element_count b * element_size b.
Proof. intros H. wf_destruct H. unfold ring. by rewrite length_rot. Qed.

(** ** The abstract component

    A ring of bytes with the number of readable elements in front; elements
    are [es] bytes, and the ring holds [ec] of them. *)
Record aring := mkAring { a_ring : list Z; a_avail : Z }.
Definition view (b : RingBuffer) : aring := mkAring (ring b) (avail b).

Definition a_move (es : Z) (k : Z) (a : aring) : aring :=
  mkAring (rot (k * es) (a_ring a)) (a_avail a - k).
Definition a_write (es : Z) (bs : list Z) (m : Z) (a : aring) : aring :=
  mkAring (splice (Z.to_nat (a_avail a * es)) bs (a_ring a)) (a_avail a + m).

(** ** Moving the read position *)

(** The shift actually performed. *)
Definition moved (b : RingBuffer) (k : Z) : Z :=
  clamp (- (element_count b - avail b)) (avail b) k.

Lemma clamp_ifs lo hi k : lo <= hi ->
  (if (if hi <? k then hi else k) <? lo then lo else if hi <? k then hi else k)
  = clamp lo hi k.
Proof.
  intros. unfold clamp. destruct (Z.ltb_spec hi k).
  - destruct (Z.ltb_spec hi lo); lia.
  - destruct (Z.ltb_spec k lo); lia.
Qed.

(** The two wrap tests of [WebRtc_MoveReadPtr], in unbounded integers. *)
Definition move_wrap (b : RingBuffer) (m : Z) : Z * Wrap :=
  let '(pos, wr) :=
    if element_count b <? read_pos b + m
    then (read_pos b + m - element_count b, SAME_WRAP)
    else (read_pos b + m, rw_wrap b) in
  if pos <? 0 then (pos + element_count b, DIFF_WRAP) else (pos, wr).

Lemma MoveReadPtr_unbounded b k : wf b -> is_i32 k ->
  WebRtc_MoveReadPtr (Some b) k =
  (moved b k, Some (set_pos b (fst (move_wrap b (moved b k))) (write_pos b)
                      (snd (move_wrap b (moved b k))))).
Proof.
  intros Hwf Hk. pose proof (avail_bounds b Hwf) as Ha.
  pose proof (available_read_avail b Hwf) as Er. pose proof (available_write_avail b Hwf) as Ew.
  wf_destruct Hwf. unfold WebRtc_MoveReadPtr. rewrite Er, Ew.
  rewrite (i32_id (element_count b - avail b)), (i32_id (avail b)), (i32_id (read_pos b)),
    (i32_id (element_count b)), (i32_id (- _)) by (unfold is_i32; lia).
  cbv zeta. rewrite clamp_ifs by lia. fold (moved b k).
  assert (- (element_count b - avail b) <= moved b k <= avail b)
    by (unfold moved, clamp; lia).
  set (m := moved b k) in *. unfold avail, move_wrap in *.
  rewrite (i32_id (read_pos b + m)) by (unfold is_i32; destruct (rw_wrap b); lia).
  destruct (Z.ltb_spec (element_count b) (read_pos b + m)).
  - rewrite (i32_id (_ - _)) by (unfold is_i32; destruct (rw_wrap b); lia).
    destruct (Z.ltb_spec (read_pos b + m - element_count b) 0); [lia|].
    simpl. rewrite u64_small by (destruct (rw_wrap b); lia). done.
  - destruct (Z.ltb_spec (read_pos b + m) 0); simpl.
    + rewrite (i32_id (_ + _)) by (unfold is_i32; destruct (rw_wrap b); lia).
      rewrite u64_small by (destruct (rw_wrap b); lia). done.
    + rewrite u64_small by lia. done.
Qed.

Lemma move_wrap_spec b m : wf b -> - (element_count b - avail b) <= m <= avail b ->
  let '(q, wr) := move_wrap b m in
  0 <= q <= element_count b /\
  (exists c, q = read_pos b + m + c * element_count b) /\
  match wr with
  | SAME_WRAP => q <= write_pos b /\ write_pos b - q = avail b - m
  | DIFF_WRAP => write_pos b <= q /\ element_count b - q + write_pos b = avail b - m
  end.
Proof.
  intros Hwf Hm. wf_destruct Hwf. unfold move_wrap, avail in *.
  destruct (Z.ltb_spec (element_count b) (read_pos b + m)).
  - destruct (rw_wrap b); [lia|].
    destruct (Z.ltb_spec (read_pos b + m - element_count b) 0); [lia|].
    split; [lia|]. split; [exists (-1)|]; lia.
  - destruct (Z.ltb_spec (read_pos b + m) 0).
    + destruct (rw_wrap b); [|lia]. split; [lia|]. split; [exists 1|]; lia.
    + split; [lia|]. split; [exists 0; lia|]. destruct (rw_wrap b); lia.
Qed.

Lemma MoveReadPtr_spec b k : wf b -> is_i32 k ->
  exists b', WebRtc_MoveReadPtr (Some b) k = (moved b k, Some b') /\ wf b' /\
    element_count b' = element_count b /\ element_size b' = element_size b /\
    data b' = data b /\ view b' = a_move (element_size b) (moved b k) (view b).
Proof.
  intros Hwf Hk. pose proof (avail_bounds b Hwf) as Ha.
  rewrite MoveReadPtr_unbounded by done. set (m := moved b k).
  pose proof (move_wrap_spec b m Hwf ltac:(unfold m, moved, clamp; lia)) as Hmw.
  destruct (move_wrap b m) as [q wr]. destruct Hmw as (Hq & (c & Hc) & Hwr).
  wf_destruct Hwf. eexists. split; [done|]. simpl.
  split; [|split; [done|split; [done|split; [done|]]]].
  - unfold wf. simpl. repeat (split; [lia|]). split; [destruct wr; lia|done].
  - unfold view, a_move. simpl. f_equal; [|unfold avail at 1; simpl; destruct wr; lia].
    unfold ring. simpl. rewrite rot_rot. apply rot_mod. rewrite Hlen.
    replace (q * element_size b)
      with (m * element_size b + read_pos b * element_size b
            + c * (element_count b * element_size b)) by (rewrite Hc; ring).
    apply Z.mod_add. nia.
Qed.

(** ** Circular writes *)

(** [d'] is [d] with [s] written circularly from cell [W] on. *)
Definition circ_written (W : Z) (s d d' : list Z) : Prop :=
  length d' = length d /\
  forall j, (j < length d)%nat ->
    let t := (Z.of_nat j - W) mod Z.of_nat (length d) in
    d' !! j = if decide (t < Z.of_nat (length s)) then s !! Z.to_nat t else d !! j.

Lemma mod_wrap_once a n : 0 < n -> - n <= a < 0 -> a mod n = a + n.
Proof.
  intros. rewrite <-(Z.mod_add a 1) by lia. rewrite Z.mul_1_l. apply Z.mod_small. lia.
Qed.

Lemma lookup_splice (off : nat) (s d : list Z) (j : nat) : (off + length s <= length d)%nat ->
  splice off s d !! j
  = if decide (off <= j < off + length s)%nat then s !! (j - off)%nat else d !! j.
Proof. apply lookup_written. Qed.

Lemma circ_written_plain W s d : 0 <= W -> W + Z.of_nat (length s) <= Z.of_nat (length d) ->
  circ_written W s d (splice (Z.to_nat W) s d).
Proof.
  intros HW Hs. split; [apply length_splice; lia|]. intros j Hj t.
  rewrite lookup_splice by lia.
  destruct (decide (Z.to_nat W <= j)%nat).
  - assert (t = Z.of_nat j - W) as -> by (apply Z.mod_small; lia).
    do 2 case_decide; try lia; [f_equal; lia|done].
  - assert (t = Z.of_nat j - W + Z.of_nat (length d)) as -> by (apply mod_wrap_once; lia).
    do 2 case_decide; try lia. done.
Qed.

Lemma circ_written_wrap W s1 s2 d : 0 <= W ->
  W + Z.of_nat (length s1) = Z.of_nat (length d) -> Z.of_nat (length s2) <= W ->
  circ_written W (s1 ++ s2) d (splice 0 s2 (splice (Z.to_nat W) s1 d)).
Proof.
  intros HW Hs1 Hs2.
  assert (length (splice (Z.to_nat W) s1 d) = length d) as Hl by (apply length_splice; lia).
  split; [rewrite length_splice; lia|]. intros j Hj t.
  rewrite lookup_splice by lia. rewrite lookup_splice by lia. rewrite length_app.
  destruct (decide (Z.to_nat W <= j)%nat).
  - assert (t = Z.of_nat j - W) as -> by (apply Z.mod_small; lia).
    repeat case_decide; try lia. rewrite lookup_app_l by lia. f_equal. lia.
  - assert (t = Z.of_nat j - W + Z.of_nat (length d)) as -> by (apply mod_wrap_once; lia).
    repeat case_decide; try lia; [|done]. rewrite lookup_app_r by lia. f_equal. lia.
Qed.

(** Seen from another cell, a circular write is a plain one. *)
Lemma circ_written_ring R W A s d d' :
  circ_written W s d d' -> 0 <= A -> A + Z.of_nat (length s) <= Z.of_nat (length d) ->
  (exists c, A = W - R + c * Z.of_nat (length d)) ->
  rot R d' = splice (Z.to_nat A) s (rot R d).
Proof.
  intros [Hl Hd] HA Hs [c Hc]. set (n := Z.of_nat (length d)) in *.
  apply list_eq_same_length with (n := length d);
    rewrite ?length_splice, ?length_rot; try done; try (rewrite ?length_rot; lia).
  intros i x y Hi. rewrite lookup_rot by lia. rewrite Hl. fold n.
  rewrite lookup_splice by (rewrite length_rot; lia).
  pose proof (Z.mod_pos_bound (R + Z.of_nat i) n ltac:(lia)).
  rewrite Hd by lia. cbv zeta. rewrite Z2Nat.id by lia. fold n.
  rewrite Zminus_mod_idemp_l, lookup_rot by lia. fold n.
  replace ((R + Z.of_nat i - W) mod n) with ((Z.of_nat i - A) mod n)
    by (rewrite <-(Z.mod_add (Z.of_nat i - A) c) by lia; f_equal; lia).
  destruct (decide (A <= Z.of_nat i)).
  - rewrite (Z.mod_small (_ - _)) by lia.
    do 2 case_decide; try lia; [|congruence].
    replace (Z.to_nat (Z.of_nat i - A)) with (i - Z.to_nat A)%nat by lia. congruence.
  - rewrite (mod_wrap_once (_ - _)) by lia.
    do 2 case_decide; try lia. congruence.
Qed.

(** ** Writing *)

Definition written (b : RingBuffer) (n : Z) : Z := Z.min (element_count b - avail b) n.

Lemma min_if a b : (if a <? b then a else b) = Z.min a b.
Proof. destruct (Z.ltb_spec a b); lia. Qed.

(** The buffer after writing [s] circularly at the write position: the read
    position and the geometry are kept and the ring is spliced. *)
Lemma write_view b s m w' wr' d' : wf b ->
  0 <= m <= element_count b - avail b -> Z.of_nat (length s) = m * element_size b ->
  circ_written (write_pos b * element_size b) s (data b) d' ->
  0 <= w' <= element_count b ->
  match wr' with SAME_WRAP => read_pos b <= w' | DIFF_WRAP => w' <= read_pos b end ->
  match wr' with SAME_WRAP => w' - read_pos b
               | DIFF_WRAP => element_count b - read_pos b + w' end = avail b + m ->
  let b' := mkRingBuffer (read_pos b) w' (element_count b) (element_size b) wr' d' in
  wf b' /\ view b' = a_write (element_size b) s m (view b).
Proof.
  intros Hwf Hm Hs Hcw Hw' Hwr Hav b'. pose proof (avail_bounds b Hwf).
  pose proof (proj1 Hcw) as Hl. wf_destruct Hwf. split.
  - unfold wf, b'. simpl. rewrite Hl. repeat (split; [lia|]). done.
  - unfold view, a_write. simpl. f_equal; [|unfold b'; unfold avail at 1; simpl; destruct wr'; lia].
    unfold ring, b'. simpl. apply (circ_written_ring _ (write_pos b * element_size b)); [done|nia|nia|].
    rewrite Hlen. unfold avail. destruct (rw_wrap b); [exists 0|exists 1]; ring.
Qed.

(** The two copies of a wrapping write, at the level of bytes. *)
Lemma copy_in_wrap (s d : list Z) Wb Mb :
  0 <= Wb <= Z.of_nat (length d) ->
  Z.of_nat (length d) - Wb <= Mb <= Z.of_nat (length d) -> Mb <= Z.of_nat (length s) ->
  exists s1 d1 s2 d2,
    mem_read s 0 (Z.of_nat (length d) - Wb) = Some s1 /\ mem_write d Wb s1 = Some d1 /\
    mem_read s (Z.of_nat (length d) - Wb) (Mb - (Z.of_nat (length d) - Wb)) = Some s2 /\
    mem_write d1 0 s2 = Some d2 /\
    circ_written Wb (take (Z.to_nat Mb) s) d d2.
Proof.
  intros HW HM Hs. set (n := Z.of_nat (length d)) in *.
  set (s1 := take (Z.to_nat (n - Wb)) (drop (Z.to_nat 0) s)).
  set (s2 := take (Z.to_nat (Mb - (n - Wb))) (drop (Z.to_nat (n - Wb)) s)).
  assert (Z.of_nat (length s1) = n - Wb) as Hl1
    by (unfold s1; rewrite length_take, length_drop; lia).
  assert (Z.of_nat (length s2) = Mb - (n - Wb)) as Hl2
    by (unfold s2; rewrite length_take, length_drop; lia).
  assert (length (splice (Z.to_nat Wb) s1 d) = length d) as Hl by (apply length_splice; lia).
  exists s1, (splice (Z.to_nat Wb) s1 d), s2, (splice 0 s2 (splice (Z.to_nat Wb) s1 d)).
  split; [apply mem_read_Some; lia|]. split; [apply mem_write_Some; lia|].
  split; [apply mem_read_Some; lia|]. split; [apply mem_write_Some; lia|].
  replace (take (Z.to_nat Mb) s) with (s1 ++ s2).
  - apply circ_written_wrap; lia.
  - unfold s1, s2. rewrite drop_0, take_take_drop. f_equal. lia.
Qed.

Lemma copy_in_plain (s d : list Z) Wb Mb :
  0 <= Wb -> 0 <= Mb -> Wb + Mb <= Z.of_nat (length d) -> Mb <= Z.of_nat (length s) ->
  exists s1 d1, mem_read s 0 Mb = Some s1 /\ mem_write d Wb s1 = Some d1 /\
    circ_written Wb (take (Z.to_nat Mb) s) d d1.
Proof.
  intros HW HM Hd Hs. set (s1 := take (Z.to_nat Mb) s).
  assert (Z.of_nat (length s1) = Mb) by (unfold s1; rewrite length_take; lia).
  exists s1, (splice (Z.to_nat Wb) s1 d). split; [|split].
  - rewrite mem_read_Some by lia. by rewrite drop_0.
  - apply mem_write_Some; lia.
  - apply circ_written_plain; lia.
Qed.

(** A wrapping write only happens when neither position has wrapped yet. *)
Lemma write_wrap_same b m : wf b -> 0 <= m <= element_count b - avail b ->
  element_count b - write_pos b < m ->
  rw_wrap b = SAME_WRAP /\ m - (element_count b - write_pos b) <= read_pos b <= write_pos b.
Proof.
  intros Hwf Hm Hlt. wf_destruct Hwf. unfold avail in *. destruct (rw_wrap b); [|lia].
  split; [done|lia].
Qed.

Lemma WriteBuffer_spec b s n : wf b -> 0 <= n ->
  written b n * element_size b <= Z.of_nat (length s) ->
  exists b', WebRtc_WriteBuffer (Some b) (Some s) n = Some (written b n, Some b') /\ wf b' /\
    element_count b' = element_count b /\ element_size b' = element_size b /\
    view b' = a_write (element_size b)
                (take (Z.to_nat (written b n * element_size b)) s) (written b n) (view b).
Proof.
  intros Hwf Hn Hs. pose proof (avail_bounds b Hwf) as Ha.
  unfold WebRtc_WriteBuffer. rewrite available_write_avail, min_if by done.
  fold (written b n). set (m := written b n) in *. cbv zeta.
  assert (0 <= m <= element_count b - avail b) as Hm by (unfold m, written; lia).
  pose proof Hwf as Hwf'. wf_destruct Hwf'.
  rewrite (u64_small (element_count b - write_pos b)) by lia.
  assert (0 <= write_pos b * element_size b <= element_count b * element_size b) as HWb by nia.
  assert (0 <= m * element_size b <= element_count b * element_size b) as HMb by nia.
  assert (Z.of_nat (length (take (Z.to_nat (m * element_size b)) s)) = m * element_size b) as Hls
    by (rewrite length_take; lia).
  destruct (Z.ltb_spec (element_count b - write_pos b) m) as [Hwr|Hnw].
  - destruct (write_wrap_same b m Hwf Hm Hwr) as [Hsame Hm2].
    rewrite (u64_small (m - _)), (u64_bytes b (element_count b - write_pos b)),
      (u64_bytes b (write_pos b)) by (lia || done).
    destruct (copy_in_wrap s (data b) (write_pos b * element_size b) (m * element_size b))
      as (s1 & d1 & s2 & d2 & E1 & E2 & E3 & E4 & Hcw); [nia..|].
    rewrite Hlen in E1, E3. rewrite Z.mul_sub_distr_r, E1. simpl. rewrite E2. simpl.
    replace (m - (m - (element_count b - write_pos b)))
      with (element_count b - write_pos b) by lia.
    rewrite (u64_small (element_count b - write_pos b)) by lia.
    rewrite (u64_bytes b (element_count b - write_pos b)),
      (u64_bytes b (m - (element_count b - write_pos b))) by (lia || done).
    rewrite !Z.mul_sub_distr_r in *. rewrite E3. simpl.
    rewrite Z.mul_0_l, Z.add_0_l. change (u64 0) with 0. rewrite E4. simpl.
    rewrite u64_small by lia. eexists. split; [done|].
    unfold avail in Ha, Hm. rewrite Hsame in Ha, Hm.
    destruct (write_view b _ m (m - (element_count b - write_pos b)) DIFF_WRAP d2 Hwf
                ltac:(unfold avail; rewrite Hsame; lia) Hls Hcw) as [Hwf' Hv];
      [lia|lia|unfold avail; rewrite Hsame; lia|]. auto.
  - simpl. rewrite Z.sub_diag. change (u64 0) with 0. rewrite Z.mul_0_l. change (u64 0) with 0.
    rewrite (u64_bytes b m), (u64_bytes b (write_pos b)) by (lia || done).
    destruct (copy_in_plain s (data b) (write_pos b * element_size b) (m * element_size b))
      as (s1 & d1 & E1 & E2 & Hcw); [nia..|].
    rewrite E1. simpl. rewrite E2. simpl. rewrite u64_small by lia. eexists. split; [done|].
    destruct (write_view b _ m (write_pos b + m) (rw_wrap b) d1 Hwf Hm Hls Hcw) as [Hwf' Hv];
      [lia|unfold avail in *; destruct (rw_wrap b); lia..|]. auto.
Qed.

(** ** Reading *)

Definition readable (b : RingBuffer) (n : Z) : Z := Z.min (avail b) n.

(** The bytes a caller obtains: through the stored pointer when there is one,
    otherwise in its own [data]. *)
Definition delivered (r : read_result) : option (list Z) :=
  let bytes := read_count r * element_size (buffer r) in
  match stored_ptr r with
  | NullPtr => Some []
  | BufPtr off => mem_read (data (buffer r)) off bytes
  | DataPtr | NotStored => mem_read (user_data r) 0 bytes
  end.

Lemma ring_split b : wf b ->
  let R := Z.to_nat (read_pos b * element_size b) in
  ring b = drop R (data b) ++ take R (data b).
Proof.
  intros Hwf R. wf_destruct Hwf. unfold ring, rot. rewrite Hlen.
  destruct (decide (read_pos b = element_count b)) as [E|E].
  - assert (R = length (data b)) as -> by (unfold R; rewrite E; lia).
    rewrite E, Z.mod_same, drop_all by nia.
    change (Z.to_nat 0) with 0%nat. by rewrite drop_0, take_0, app_nil_r, app_nil_l, take_ge.
  - rewrite Z.mod_small by nia. done.
Qed.

(** A circular read, at the level of bytes: the two copies deliver the prefix
    of the ring. *)
Lemma ring_prefix b Mb : wf b ->
  let R := read_pos b * element_size b in
  let n := element_count b * element_size b in
  0 <= Mb <= n ->
  take (Z.to_nat Mb) (ring b) =
  if n - R <? Mb
  then take (Z.to_nat (n - R)) (drop (Z.to_nat R) (data b)) ++
       take (Z.to_nat (Mb - (n - R))) (data b)
  else take (Z.to_nat Mb) (drop (Z.to_nat R) (data b)).
Proof.
  intros Hwf R n HM. rewrite ring_split by done. fold R. wf_destruct Hwf.
  assert (0 <= R <= n) by (unfold R, n; nia).
  rewrite take_app, length_drop. destruct (Z.ltb_spec (n - R) Mb).
  - rewrite take_ge by (rewrite length_drop; lia).
    rewrite (take_ge _ (Z.to_nat (n - R))) by (rewrite length_drop; lia).
    rewrite take_take. do 2 f_equal. lia.
  - replace (Z.to_nat Mb - _)%nat with 0%nat by lia. by rewrite take_0, app_nil_r.
Qed.

(** Consecutive copies into a fresh part of a block. *)
Lemma mem_write_two (d s1 s2 : list Z) :
  (length s1 + length s2 <= length d)%nat ->
  exists d1 d2, mem_write d 0 s1 = Some d1 /\
    mem_write d1 (Z.of_nat (length s1)) s2 = Some d2 /\ d2 = splice 0 (s1 ++ s2) d.
Proof.
  intros Hl. exists (splice 0 s1 d), (splice 0 (s1 ++ s2) d).
  split; [apply mem_write_Some; lia|]. split; [|done].
  rewrite mem_write_Some by (rewrite ?length_splice; lia). f_equal.
  unfold splice. rewrite !take_0, !app_nil_l, Nat2Z.id, length_app, app_assoc_reverse.
  rewrite take_app_length. do 2 f_equal.
  rewrite drop_app. rewrite drop_ge by lia. rewrite app_nil_l, drop_drop. f_equal. lia.
Qed.

Lemma splice_prefix (bs d : list Z) : (length bs <= length d)%nat ->
  mem_read (splice 0 bs d) 0 (Z.of_nat (length bs)) = Some bs.
Proof.
  intros. rewrite mem_read_Some by (rewrite ?length_splice; lia).
  unfold splice. rewrite take_0, drop_0, app_nil_l, Nat2Z.id, take_app_length. done.
Qed.

Lemma moved_readable b n : wf b -> 0 <= n -> moved b (readable b n) = readable b n.
Proof.
  intros Hwf Hn. pose proof (avail_bounds b Hwf). unfold moved, readable, clamp. lia.
Qed.

(** Which regions are copied: the sizes add up to the elements read. *)
Lemma GetBufferReadRegions_spec b n : wf b -> 0 <= n ->
  let m := readable b n in let es := element_size b in
  GetBufferReadRegions b n =
  if element_count b - read_pos b <? m
  then mkRegions m (read_pos b * es) (element_count b * es - read_pos b * es)
         (Some 0) (m * es - (element_count b * es - read_pos b * es))
  else mkRegions m (read_pos b * es) (m * es) None 0.
Proof.
  intros Hwf Hn m es. pose proof (avail_bounds b Hwf) as Ha.
  unfold GetBufferReadRegions. rewrite available_read_avail, min_if by done.
  fold (readable b n) m. cbv zeta. pose proof Hwf as Hwf'. wf_destruct Hwf'.
  assert (0 <= m <= element_count b) by (unfold m, readable; lia).
  rewrite (u64_small (element_count b - read_pos b)), (u64_bytes b (read_pos b)) by (lia || done).
  destruct (Z.ltb_spec (element_count b - read_pos b) m).
  - rewrite (u64_small (m - _)) by lia. rewrite !(u64_bytes b) by (lia || done).
    rewrite !Z.mul_sub_distr_r. done.
  - rewrite (u64_bytes b) by (lia || done). done.
Qed.

Lemma ReadBuffer_spec b want d n : wf b -> 0 <= n ->
  readable b n * element_size b <= Z.of_nat (length d) ->
  let m := readable b n in let es := element_size b in
  exists r, WebRtc_ReadBuffer (Some b) want (Some d) n = Some (inr r) /\
    read_count r = m /\ delivered r = Some (take (Z.to_nat (m * es)) (ring b)) /\
    (user_data r = d \/ user_data r = splice 0 (take (Z.to_nat (m * es)) (ring b)) d) /\
    wf (buffer r) /\ element_count (buffer r) = element_count b /\
    element_size (buffer r) = es /\ view (buffer r) = a_move es m (view b).
Proof.
  intros Hwf Hn Hd m es. pose proof (avail_bounds b Hwf) as Ha.
  unfold WebRtc_ReadBuffer. rewrite GetBufferReadRegions_spec by done. fold m es. fold m es in Hd.
  assert (0 <= m <= avail b) as Hm by (unfold m, readable; lia).
  destruct (MoveReadPtr_spec b m Hwf) as (b' & Emv & Hwf' & Hc' & Hs' & Hd' & Hv').
  { wf_destruct Hwf. unfold is_i32. lia. }
  unfold m in Emv, Hv' at 1. rewrite moved_readable in Emv, Hv' by done. fold m in Emv, Hv'.
  assert (i32 m = m) as Him by (wf_destruct Hwf; apply i32_id; unfold is_i32; lia).
  pose proof (length_ring b Hwf) as Hlr. fold es in Hlr.
  assert (0 <= m * es <= element_count b * es) as HMb by (wf_destruct Hwf; unfold es; nia).
  pose proof (ring_prefix b (m * es) Hwf HMb) as Hpre. fold es in Hpre.
  set (out := take (Z.to_nat (m * es)) (ring b)) in *.
  assert (Z.of_nat (length out) = m * es) as Hlo by (unfold out; rewrite length_take; lia).
  assert (0 <= read_pos b * es <= element_count b * es) as HRb by (wf_destruct Hwf; unfold es; nia).
  pose proof Hwf as Hwf0. wf_destruct Hwf0. fold es in Hlen, Hsize.
  destruct (Z.ltb_spec (element_count b - read_pos b) m) as [Hlt|Hge].
  - assert (element_count b * es - read_pos b * es < m * es) as Hlt' by nia.
    rewrite (proj2 (Z.ltb_lt _ _)) in Hpre by lia. simpl.
    rewrite (proj2 (Z.ltb_lt 0 _)) by lia.
    rewrite mem_read_Some by lia. simpl.
    set (s1 := take _ (drop _ (data b))) in *.
    rewrite mem_read_Some by lia. change (Z.to_nat 0) with 0%nat. rewrite drop_0.
    set (s2 := take _ (data b)) in *.
    assert (Z.of_nat (length s1) = element_count b * es - read_pos b * es) as Hl1
      by (unfold s1; rewrite length_take, length_drop; lia).
    destruct (mem_write_two d s1 s2) as (d1 & d2 & E1 & E2 & ->).
    { rewrite <-length_app, <-Hpre. lia. }
    simpl. fold s1. rewrite E1. simpl. rewrite <-Hl1, E2. simpl. rewrite Him, Emv.
    eexists. split; [done|]. simpl. rewrite <-Hpre. split; [done|].
    split; [|split; [by right|done]].
    unfold delivered. simpl. rewrite Hs'. fold es.
    assert (mem_read (splice 0 out d) 0 (m * es) = Some out) as Hsp
      by (rewrite <-Hlo; apply splice_prefix; lia).
    destruct want; [|done]. destruct (Z.eqb_spec m 0); [lia|done].
  - assert (m * es <= element_count b * es - read_pos b * es) as Hge' by nia.
    rewrite (proj2 (Z.ltb_ge _ _)) in Hpre by lia. simpl.
    assert (mem_read (data b) (read_pos b * es) (m * es) = Some out) as Hrd
      by (rewrite mem_read_Some by lia; by rewrite Hpre).
    destruct want; simpl.
    + rewrite Him, Emv. eexists. split; [done|]. simpl. split; [done|].
      split; [|split; [by left|done]]. unfold delivered. simpl. rewrite Hs', Hd'. fold es.
      destruct (Z.eqb_spec m 0) as [Em|]; [|done]. unfold out. by rewrite Em.
    + rewrite Hrd. simpl. rewrite mem_write_Some by lia. simpl. rewrite Him, Emv.
      eexists. split; [done|]. simpl. split; [done|]. split; [|split; [by right|done]].
      unfold delivered. simpl. rewrite Hs'. fold es. rewrite <-Hlo. apply splice_prefix. lia.
Qed.

(** ** Creation *)

Definition fresh (ec es : Z) : RingBuffer :=
  mkRingBuffer 0 0 ec es SAME_WRAP (replicate (Z.to_nat (ec * es)) 0).

Lemma InitBuffer_spec b : wf b ->
  WebRtc_InitBuffer b = Some (fresh (element_count b) (element_size b)).
Proof.
  intros Hwf. unfold WebRtc_InitBuffer. simpl. pose proof Hwf as Hwf'. wf_destruct Hwf'.
  rewrite (u64_bytes b) by (done || lia).
  rewrite mem_write_Some by (rewrite ?length_replicate; nia). simpl.
  rewrite length_replicate. unfold set_data, fresh. simpl. do 2 f_equal.
  rewrite drop_ge by lia. apply app_nil_r.
Qed.

Lemma fresh_wf ec es : 0 < ec <= 2 ^ 30 - 1 -> 0 < es -> ec * es < 2 ^ 64 -> wf (fresh ec es).
Proof. intros. unfold wf, fresh. simpl. rewrite length_replicate. nia. Qed.

(** ** Sequences of calls *)

Inductive op :=
| OpInit
| OpWrite (src : list Z) (n : Z)
| OpRead (want_ptr : bool) (dst : list Z) (n : Z)
| OpMove (k : Z).

Inductive out :=
| ODone
| OWrote (n : Z)
| ORead (n : Z) (bytes : list Z)
| OMoved (k : Z).

(** The caller's side of the contract: the blocks it passes hold [n] elements
    and a move count is an [int]. *)
Definition valid_op (es : Z) (o : op) : Prop :=
  match o with
  | OpInit => True
  | OpWrite src n => 0 <= n /\ n * es <= Z.of_nat (length src)
  | OpRead _ dst n => 0 <= n /\ n * es <= Z.of_nat (length dst)
  | OpMove k => is_i32 k
  end.

(** One call on the concrete buffer; [None] if it would access memory outside
    a block. *)
Definition exec (b : RingBuffer) (o : op) : option (out * RingBuffer) :=
  match o with
  | OpInit => b' ← WebRtc_InitBuffer b; Some (ODone, b')
  | OpWrite src n =>
      '(m, b') ← WebRtc_WriteBuffer (Some b) (Some src) n;
      b' ← b'; Some (OWrote m, b')
  | OpRead want dst n =>
      r ← WebRtc_ReadBuffer (Some b) want (Some dst) n;
      match r with
      | inl _ => None
      | inr r => bs ← delivered r; Some (ORead (read_count r) bs, buffer r)
      end
  | OpMove k =>
      let '(m, b') := WebRtc_MoveReadPtr (Some b) k in b' ← b'; Some (OMoved m, b')
  end.

(** The same call on the abstract ring of [ec] elements of [es] bytes. *)
Definition a_exec (ec es : Z) (a : aring) (o : op) : out * aring :=
  match o with
  | OpInit => (ODone, mkAring (replicate (Z.to_nat (ec * es)) 0) 0)
  | OpWrite src n =>
      let m := Z.min (ec - a_avail a) n in
      (OWrote m, a_write es (take (Z.to_nat (m * es)) src) m a)
  | OpRead _ _ n =>
      let m := Z.min (a_avail a) n in
      (ORead m (take (Z.to_nat (m * es)) (a_ring a)), a_move es m a)
  | OpMove k =>
      let m := clamp (- (ec - a_avail a)) (a_avail a) k in (OMoved m, a_move es m a)
  end.

Fixpoint run {S} (f : S -> op -> option (out * S)) (s : S) (ops : list op)
  : option (list out * S) :=
  match ops with
  | [] => Some ([], s)
  | o :: ops =>
      '(x, s) ← f s o; '(xs, s) ← run f s ops; Some (x :: xs, s)
  end.

Lemma exec_refines b o : wf b -> valid_op (element_size b) o ->
  exists x b', exec b o = Some (x, b') /\ wf b' /\
    element_count b' = element_count b /\ element_size b' = element_size b /\
    a_exec (element_count b) (element_size b) (view b) o = (x, view b').
Proof.
  intros Hwf Hv. pose proof (avail_bounds b Hwf). pose proof Hwf as Hwf'. wf_destruct Hwf'.
  destruct o as [|src n|want dst n|k]; simpl in Hv |- *.
  - rewrite InitBuffer_spec by done. simpl. do 2 eexists. split; [done|].
    split; [by apply fresh_wf|]. split; [done|]. split; [done|].
    unfold view, fresh, ring, avail, rot. simpl. by rewrite Z.mod_0_l, drop_0, take_0, app_nil_r
      by (rewrite length_replicate; nia).
  - destruct (WriteBuffer_spec b src n Hwf) as (b' & E & Hwf' & Hc & Hs & Hview);
      [lia|unfold written; nia|].
    rewrite E. simpl. do 2 eexists. split; [done|]. rewrite Hview. auto.
  - destruct (ReadBuffer_spec b want dst n Hwf) as (r & E & Hn & Hd & _ & Hwf' & Hc & Hs & Hview);
      [lia|unfold readable; nia|].
    rewrite E. simpl. rewrite Hd. simpl. do 2 eexists. split; [done|]. rewrite Hview, Hn. auto.
  - destruct (MoveReadPtr_spec b k Hwf Hv) as (b' & E & Hwf' & Hc & Hs & _ & Hview).
    rewrite E. simpl. do 2 eexists. split; [done|]. rewrite Hview. auto.
Qed.

(** C3: Any sequence of calls on a well-formed ring buffer whose callers pass
    large enough blocks runs without an out-of-bounds access, keeps the buffer
    well formed, and returns exactly what the abstract ring returns: the number
    of elements written, read or moved and the bytes read, whether they are
    delivered by copy or by pointer. *)
Theorem ring_buffer_refines b ops : wf b -> Forall (valid_op (element_size b)) ops ->
  exists outs b', run exec b ops = Some (outs, b') /\ wf b' /\
    run (fun a o => Some (a_exec (element_count b) (element_size b) a o)) (view b) ops
    = Some (outs, view b').
Proof.
  intros Hwf Hv. revert b Hwf Hv. induction ops as [|o ops IH]; intros b Hwf Hv.
  - exists [], b. done.
  - apply Forall_cons_iff in Hv as [Ho Hops].
    destruct (exec_refines b o Hwf Ho) as (x & b1 & E & Hwf1 & Hc & Hs & Ha).
    destruct (IH b1 Hwf1) as (outs & b' & E' & Hwf' & Hrun); [by rewrite Hs|].
    exists (x :: outs), b'. simpl. rewrite E. simpl. rewrite E'. split; [done|].
    split; [done|]. rewrite Hc, Hs in Hrun. rewrite Ha. simpl. by rewrite Hrun.
Qed.

Lemma ring_buffer_refines_witness :
  let ops := [OpWrite [1; 2; 3; 4; 5; 6] 3; OpRead false [0; 0; 0; 0] 2;
              OpWrite [7; 8; 9; 10] 2; OpRead true [0; 0; 0; 0; 0; 0] 3; OpMove (-1)] in
  exists outs b', run exec (fresh 3 2) ops = Some (outs, b') /\ wf b' /\
    outs = [OWrote 3; ORead 2 [1; 2; 3; 4]; OWrote 2; ORead 3 [5; 6; 7; 8; 9; 10]; OMoved (-1)].
Proof.
  intros ops. destruct (ring_buffer_refines (fresh 3 2) ops) as (outs & b' & E & Hwf & Ha).
  - apply fresh_wf; lia.
  - repeat constructor; simpl; try lia; unfold is_i32; lia.
  - exists outs, b'. split; [exact E|]. split; [exact Hwf|].
    vm_compute in Ha. congruence.
Defined.

(** ** The readable part is a bounded FIFO queue *)

(** The queue holds whole elements of [es] bytes and has room for [ec]. *)
Definition q_len (es : Z) (q : list Z) : Z := Z.of_nat (length q) / es.
Definition q_exec (ec es : Z) (q : list Z) (o : op) : out * list Z :=
  match o with
  | OpInit => (ODone, [])
  | OpWrite src n =>
      let m := Z.min (ec - q_len es q) n in
      (OWrote m, q ++ take (Z.to_nat (m * es)) src)
  | OpRead _ _ n =>
      let m := Z.min (q_len es q) n in
      (ORead m (take (Z.to_nat (m * es)) q), drop (Z.to_nat (m * es)) q)
  | OpMove k =>
      let m := Z.min (q_len es q) k in (OMoved m, drop (Z.to_nat (m * es)) q)
  end.

(** A call that does not move the read position backwards. *)
Definition forward_op (o : op) : Prop :=
  match o with OpMove k => 0 <= k | _ => True end.

Definition a_content (es : Z) (a : aring) : list Z :=
  take (Z.to_nat (a_avail a * es)) (a_ring a).

(** The shape of an abstract ring of [ec] elements. *)
Definition a_wf (ec es : Z) (a : aring) : Prop :=
  Z.of_nat (length (a_ring a)) = ec * es /\ 0 <= a_avail a <= ec.

Lemma view_wf b : wf b -> a_wf (element_count b) (element_size b) (view b).
Proof. intros H. split; [by apply length_ring|by apply avail_bounds]. Qed.

Lemma q_len_content ec es a : 0 < es -> a_wf ec es a -> q_len es (a_content es a) = a_avail a.
Proof.
  intros Hes [Hl Ha]. unfold q_len, a_content. rewrite length_take.
  replace (Z.of_nat _) with (a_avail a * es) by nia. apply Z.div_mul. lia.
Qed.

Lemma rot_prefix {A} (k : nat) (l : list A) : (k <= length l)%nat ->
  forall n, (n + k <= length l)%nat -> take n (rot (Z.of_nat k) l) = take n (drop k l).
Proof.
  intros Hk n Hn. destruct (decide (k = length l)) as [->|Hne].
  { by replace n with 0%nat by lia. }
  unfold rot. rewrite Z.mod_small, Nat2Z.id, take_app by lia.
  replace (n - length (drop k l))%nat with 0%nat by (rewrite length_drop; lia).
  by rewrite take_0, app_nil_r.
Qed.

Lemma a_move_content ec es a m : 0 < es -> a_wf ec es a -> 0 <= m <= a_avail a ->
  a_content es (a_move es m a) = drop (Z.to_nat (m * es)) (a_content es a).
Proof.
  intros Hes [Hl Ha] Hm. unfold a_content, a_move. simpl.
  replace (m * es) with (Z.of_nat (Z.to_nat (m * es))) at 1 by nia.
  rewrite rot_prefix by nia. rewrite skipn_firstn_comm. f_equal. nia.
Qed.

Lemma a_write_content ec es a bs m : 0 < es -> a_wf ec es a -> 0 <= m <= ec - a_avail a ->
  Z.of_nat (length bs) = m * es ->
  a_content es (a_write es bs m a) = a_content es a ++ bs.
Proof.
  intros Hes [Hl Ha] Hm Hbs. unfold a_content, a_write, splice. simpl.
  assert (length (take (Z.to_nat (a_avail a * es)) (a_ring a)) = Z.to_nat (a_avail a * es)) as Hlt
    by (rewrite length_take; nia).
  rewrite app_assoc. apply take_app_length'. rewrite length_app, Hlt. nia.
Qed.

Lemma exec_fifo b o : wf b -> valid_op (element_size b) o -> forward_op o ->
  exists x b', exec b o = Some (x, b') /\ wf b' /\
    element_count b' = element_count b /\ element_size b' = element_size b /\
    q_exec (element_count b) (element_size b) (content b) o = (x, content b').
Proof.
  intros Hwf Hv Hf. destruct (exec_refines b o Hwf Hv) as (x & b' & E & Hwf' & Hc & Hs & Ha).
  exists x, b'. do 4 (split; [done|]).
  pose proof (view_wf b Hwf) as Hw. set (ec := element_count b) in *. set (es := element_size b) in *.
  assert (0 < es) as Hes by (wf_destruct Hwf; done).
  pose proof (avail_bounds b Hwf) as Hav. fold ec in Hav.
  assert (forall c, content c = a_content (element_size c) (view c)) as Hcv by done.
  rewrite !Hcv, Hs. fold es.
  pose proof (f_equal fst Ha) as Hx. pose proof (f_equal snd Ha) as Hb. simpl in Hx, Hb.
  rewrite <-Hx, <-Hb. destruct o as [|src n|want dst n|k]; simpl in Hf, Hv |- *;
    rewrite ?(q_len_content ec es _ Hes Hw); f_equal;
    change (a_avail (view b)) with (avail b).
  - symmetry. apply (a_write_content ec); [done..|simpl; lia|]. rewrite length_take. nia.
  - unfold a_content. rewrite take_take. simpl. do 2 f_equal. nia.
  - symmetry. apply (a_move_content ec); [done..|]. simpl. lia.
  - f_equal. unfold clamp. lia.
  - replace (clamp _ _ _) with (Z.min (avail b) k) by (unfold clamp; lia).
    symmetry. apply (a_move_content ec); [done..|]. simpl. lia.
Qed.

(** C16: Read, written, flushed and re-initialised in any order, the buffer
    behaves as a FIFO queue bounded by its element count: writes append what
    fits, reads and flushes remove from the front what is there, and the bytes
    read come out in the order they were written. *)
Theorem ring_buffer_is_fifo b ops : wf b ->
  Forall (valid_op (element_size b)) ops -> Forall forward_op ops ->
  exists outs b', run exec b ops = Some (outs, b') /\ wf b' /\
    run (fun q o => Some (q_exec (element_count b) (element_size b) q o)) (content b) ops
    = Some (outs, content b').
Proof.
  intros Hwf Hv Hf. revert b Hwf Hv. induction ops as [|o ops IH]; intros b Hwf Hv.
  - exists [], b. done.
  - apply Forall_cons_iff in Hv as [Ho Hops]. apply Forall_cons_iff in Hf as [Hfo Hf].
    destruct (exec_fifo b o Hwf Ho Hfo) as (x & b1 & E & Hwf1 & Hc & Hs & Ha).
    destruct (IH Hf b1 Hwf1) as (outs & b' & E' & Hwf' & Hrun); [by rewrite Hs|].
    exists (x :: outs), b'. simpl. rewrite E. simpl. rewrite E'. split; [done|].
    split; [done|]. rewrite Hc, Hs in Hrun. rewrite Ha. simpl. by rewrite Hrun.
Qed.

Lemma ring_buffer_is_fifo_witness :
  let ops := [OpWrite [1; 2; 3; 4] 4; OpRead true [0; 0; 0] 3; OpWrite [5; 6] 2;
              OpMove 1; OpRead false [0; 0; 0; 0] 4] in
  exists outs b', run exec (fresh 4 1) ops = Some (outs, b') /\ wf b' /\
    outs = [OWrote 4; ORead 3 [1; 2; 3]; OWrote 2; OMoved 1; ORead 2 [5; 6]].
Proof.
  intros ops. destruct (ring_buffer_is_fifo (fresh 4 1) ops) as (outs & b' & E & Hwf & Ha).
  - apply fresh_wf; lia.
  - repeat constructor; simpl; try lia; unfold is_i32; lia.
  - repeat constructor; simpl; lia.
  - exists outs, b'. split; [exact E|]. split; [exact Hwf|].
    vm_compute in Ha. congruence.
Defined.

(** Stuffing undoes reading.  After a read of [m] elements, moving the read
    position back by [k <= m] makes the last [k] of them readable again, in
    front of what had not been read: nothing between the calls has overwritten
    them. *)
Theorem move_back_restores b want dst n k : wf b -> 0 <= n ->
  n * element_size b <= Z.of_nat (length dst) -> 0 <= k <= Z.min (avail b) n ->
  exists r b', WebRtc_ReadBuffer (Some b) want (Some dst) n = Some (inr r) /\
    WebRtc_MoveReadPtr (Some (buffer r)) (- k) = (- k, Some b') /\ wf b' /\
    content b' = drop (Z.to_nat ((Z.min (avail b) n - k) * element_size b)) (content b).
Proof.
  intros Hwf Hn Hd Hk. pose proof (avail_bounds b Hwf) as Ha.
  pose proof Hwf as Hwf0. wf_destruct Hwf0.
  destruct (ReadBuffer_spec b want dst n Hwf) as (r & E & Hm & _ & _ & Hwf1 & Hc1 & Hs1 & Hv1);
    [lia|unfold readable; nia|].
  fold (readable b n) in *. set (m := readable b n) in *.
  destruct (MoveReadPtr_spec (buffer r) (- k) Hwf1) as (b' & Emv & Hwf2 & Hc2 & Hs2 & _ & Hv2);
    [unfold is_i32, m, readable in *; lia|].
  assert (avail (buffer r) = avail b - m) as Hav by (apply (f_equal a_avail) in Hv1; done).
  assert (moved (buffer r) (- k) = - k) as Hmv.
  { unfold moved, clamp. rewrite Hav, Hc1. unfold m, readable in *. lia. }
  rewrite Hmv in Emv, Hv2. exists r, b'. do 3 (split; [done|]).
  change (content b') with (a_content (element_size b') (view b')).
  rewrite Hs2, Hs1, Hv2, Hv1, Hs1. change (content b) with (a_content (element_size b) (view b)).
  rewrite <-(a_move_content (element_count b)); [|done|by apply view_wf|simpl; unfold m, readable in *; lia].
  unfold a_move. simpl. rewrite rot_rot.
  f_equal. f_equal; [f_equal; lia|lia].
Qed.

Lemma move_back_restores_witness :
  exists r b', WebRtc_ReadBuffer
      (Some (mkRingBuffer 2 1 4 1 DIFF_WRAP [30; 99; 10; 20])) false (Some [0; 0; 0]) 3
      = Some (inr r) /\
    WebRtc_MoveReadPtr (Some (buffer r)) (- 2) = (- 2, Some b') /\ wf b' /\
    content b' = [20; 30].
Proof.
  destruct (move_back_restores (mkRingBuffer 2 1 4 1 DIFF_WRAP [30; 99; 10; 20]) false
              [0; 0; 0] 3 2) as (r & b' & H1 & H2 & H3 & H4).
  - unfold wf; simpl; lia.
  - lia.
  - simpl; lia.
  - unfold avail; simpl; lia.
  - exists r, b'. split; [exact H1|]. split; [exact H2|]. split; [exact H3|exact H4].
Defined.

(** Buffers obtained from a successful [WebRtc_CreateBuffer] by calls that
    respect the contract. *)
Inductive reachable (ec es : Z) : RingBuffer -> Prop :=
| reach_create block ops b :
    Z.of_nat (length block) = u64 (ec * es) ->
    WebRtc_CreateBuffer true (Some block) ec es = Some (Some b, ops) ->
    reachable ec es b
| reach_step b o x b' :
    reachable ec es b -> valid_op es o -> exec b o = Some (x, b') -> reachable ec es b'.

(** Creation rejects an empty geometry, returns null without leaking when
    an allocation fails, and otherwise yields an empty zeroed buffer.  Every
    buffer reached from it by API calls is well formed and its readable and
    writable element counts add up to its capacity. *)
Theorem create_and_reach ec es :
  0 <= ec <= 2 ^ 30 - 1 -> 0 <= es -> ec * es < 2 ^ 64 ->
  (ec = 0 \/ es = 0 -> forall ms md, WebRtc_CreateBuffer ms md ec es = Some (None, [])) /\
  (0 < ec -> 0 < es ->
     WebRtc_CreateBuffer true None ec es = Some (None, [MallocStruct; FreeStruct]) /\
     forall block, Z.of_nat (length block) = u64 (ec * es) ->
       WebRtc_CreateBuffer true (Some block) ec es
       = Some (Some (fresh ec es), [MallocStruct; MallocData (ec * es)])) /\
  (forall b, reachable ec es b -> wf b /\ element_count b = ec /\ element_size b = es /\
     WebRtc_available_read (Some b) + WebRtc_available_write (Some b) = ec).
Proof.
  intros Hec Hes Hb.
  assert (0 < ec -> 0 < es -> forall block, Z.of_nat (length block) = u64 (ec * es) ->
    WebRtc_CreateBuffer true (Some block) ec es
    = Some (Some (fresh ec es), [MallocStruct; MallocData (ec * es)])) as Hcreate.
  { intros H1 H2 block Hl. unfold WebRtc_CreateBuffer.
    rewrite (proj2 (Z.eqb_neq ec 0)), (proj2 (Z.eqb_neq es 0)) by lia. simpl.
    rewrite (u64_small (ec * es)) in * by nia. rewrite InitBuffer_spec; [done|].
    unfold wf. simpl. lia. }
  split; [|split].
  - intros H ms md. unfold WebRtc_CreateBuffer.
    by destruct H as [-> | ->]; rewrite ?Z.eqb_refl, ?orb_true_r.
  - intros H1 H2. split; [|by apply Hcreate]. unfold WebRtc_CreateBuffer.
    by rewrite (proj2 (Z.eqb_neq ec 0)), (proj2 (Z.eqb_neq es 0)) by lia.
  - intros b Hr. assert (wf b /\ element_count b = ec /\ element_size b = es) as (Hw & Hc & Hs).
    { induction Hr as [block ops b Hl E|b o x b' Hr IH Hv E].
      - destruct (decide (0 < ec)), (decide (0 < es)); try
          (unfold WebRtc_CreateBuffer in E;
           destruct (Z.eqb_spec ec 0), (Z.eqb_spec es 0); simpl in E; (done || lia)).
        rewrite Hcreate in E by done. injection E as <- _. split; [apply fresh_wf; lia|done].
      - destruct IH as (Hw & Hc & Hs). rewrite <-Hs in Hv.
        destruct (exec_refines b o Hw Hv) as (x1 & b1 & E1 & Hw1 & Hc1 & Hs1 & _).
        rewrite E1 in E. injection E as _ <-. rewrite Hc1, Hs1. auto. }
    do 3 (split; [done|]). rewrite available_read_avail, available_write_avail by done. lia.
Qed.

Lemma create_and_reach_witness :
  WebRtc_CreateBuffer true (Some [7; 7; 7; 7; 7; 7]) 3 2
    = Some (Some (fresh 3 2), [MallocStruct; MallocData 6]) /\ wf (fresh 3 2).
Proof.
  destruct (create_and_reach 3 2) as (_ & H2 & H3); [lia..|]. split.
  - apply H2; [lia..|done].
  - apply (H3 (fresh 3 2)). eapply (reach_create 3 2 [7; 7; 7; 7; 7; 7]); [done|].
    apply H2; [lia..|done].
Defined.
