(* ===== verification/IsacArith.v ===== *)
(** The arithmetic coder of the fixed-point iSAC codec:
    [modules/audio_coding/codecs/isac/fix/source/arith_routines.c] and
    [arith_routines_hist.c], with the bit-stream structs of [structs.h].

    Streams are arrays of 16-bit words filled high byte first; [full] tells
    whether the current word is empty (1) or has its high byte filled (0).
    Every read or write of a stream or a cdf table is checked: [None] is an
    access outside the array.  Loops whose exit depends on the data carry a
    fuel argument; the bounds chosen are large enough for every exit of the C
    loop (see [enc_renorm_total] and [dec_renorm_spec]). *)
From S2P Require Import Prelude SplInl.

Definition STREAM_MAXW16 : Z := 300.
Definition STREAM_MAXW16_60MS : Z := 200.
Definition INTERNAL_STREAM_SIZE_W16 : Z := STREAM_MAXW16 + 5.
Definition ISAC_DISALLOWED_BITSTREAM_LENGTH : Z := 6440.

Record Bitstr_dec := mkDec {
  d_stream : list Z;
  d_W_upper : Z;
  d_streamval : Z;
  d_stream_index : Z;
  d_full : Z;
  d_stream_size : Z
}.

Record Bitstr_enc := mkEnc {
  e_stream : list Z;
  e_W_upper : Z;
  e_streamval : Z;
  e_stream_index : Z;
  e_full : Z
}.

(** ** Shared steps *)

(** [UMUL(W_upper_MSB, cdf) + ((W_upper_LSB * cdf) >> 16)] *)
Definition W_scale (W_upper cdf : Z) : Z :=
  let W_upper_LSB := Z.land W_upper 0xFFFF in
  let W_upper_MSB := W_upper ≫ 16 in
  u32 (WEBRTC_SPL_UMUL W_upper_MSB cdf + (u32 (W_upper_LSB * cdf) ≫ 16)).

(** [!(W_upper & 0xFF000000)] *)
Definition W_small (W_upper : Z) : bool := Z.land W_upper 0xFF000000 =? 0.

(** Checked access to a word array. *)
Definition cell (s : list Z) (p : Z) : option Z :=
  if 0 <=? p then s !! Z.to_nat p else None.
Definition set_cell (s : list Z) (p v : Z) : option (list Z) :=
  _ ← cell s p; Some (<[Z.to_nat p := v]> s).

(** The loop that increments the words in front of the pointer until one does
    not wrap to zero; [p] words lie in front of it. *)
Fixpoint carry_back (s : list Z) (p : nat) : option (list Z) :=
  match p with
  | O => None
  | S q =>
      c ← s !! q;
      let c' := u16 (c + 1) in
      let s' := <[q := c']> s in
      if c' =? 0 then carry_back s' q else Some s'
  end.

(** The two carry branches: with a half-filled word the carry enters at its
    high byte. *)
Definition propagate_carry (s : list Z) (p full : Z) : option (list Z) :=
  if full =? 0 then
    c ← cell s p;
    let negCarry := u16 (c + 0x0100) in
    s ← set_cell s p negCarry;
    if negCarry =? 0 then carry_back s (Z.to_nat p) else Some s
  else carry_back s (Z.to_nat p).

(** Storing the most significant byte of [streamval]; returns the stream, the
    word position and [full]. *)
Definition put_byte (s : list Z) (p full streamval : Z) : option (list Z * Z * Z) :=
  if full =? 0 then
    c ← cell s p;
    s ← set_cell s p (u16 (c + u16 (streamval ≫ 24)));
    Some (s, p + 1, 1)
  else
    s ← set_cell s p (u16 ((streamval ≫ 24) ≪ 8));
    Some (s, p, 0).

(** Local variables of the encoder loops. *)
Record enc_loop := mkLoop {
  l_stream : list Z;
  l_ptr : Z;
  l_full : Z;
  l_val : Z;
  l_W : Z
}.

(** The renormalisation loop of the encoders.  [inl] is the early return with
    [-ISAC_DISALLOWED_BITSTREAM_LENGTH]. *)
Fixpoint enc_renorm (fuel : nat) (l : enc_loop) : option (enc_loop + enc_loop) :=
  if W_small (l_W l) then
    match fuel with
    | O => None
    | S fuel =>
        '(s, p, full) ← put_byte (l_stream l) (l_ptr l) (l_full l) (l_val l);
        let W := u32 (l_W l ≪ 8) in
        if STREAM_MAXW16_60MS - 1 <? p
        then Some (inl (mkLoop s p full (l_val l) W))
        else enc_renorm fuel (mkLoop s p full (u32 (l_val l ≪ 8)) W)
    end
  else Some (inr l).

(** Each iteration stores a byte and the array has room for 400, so 401
    iterations are never exceeded. *)
Definition enc_fuel : nat := 401.

(** One symbol with its interval bounds: update, carry, renormalise. *)
Definition enc_symbol (l : enc_loop) (cdfLo cdfHi : Z) : option (enc_loop + enc_loop) :=
  let W_lower := W_scale (l_W l) cdfLo in
  let W_upper := W_scale (l_W l) cdfHi in
  let W_lower := u32 (W_lower + 1) in
  let W_upper := u32 (W_upper - W_lower) in
  let streamval := u32 (l_val l + W_lower) in
  s ← (if streamval <? W_lower
       then propagate_carry (l_stream l) (l_ptr l) (l_full l)
       else Some (l_stream l));
  enc_renorm enc_fuel (mkLoop s (l_ptr l) (l_full l) streamval W_upper).

(** ** Encoder *)

(** The symbol loop of [WebRtcIsacfix_EncHistMulti] over the remaining data
    and tables. *)
Fixpoint enc_hist_loop (l : enc_loop) (data : list Z) (cdf : list (list Z))
  : option (enc_loop + enc_loop) :=
  match data with
  | [] => Some (inr l)
  | x :: data =>
      match cdf with
      | [] => None
      | tbl :: cdf =>
          cdfLo ← cell tbl (u32 x);
          cdfHi ← cell tbl (u32 x + 1);
          r ← enc_symbol l cdfLo cdfHi;
          match r with
          | inl l => Some (inl l)
          | inr l => enc_hist_loop l data cdf
          end
      end
  end.

Definition enc_start (st : Bitstr_enc) : enc_loop :=
  mkLoop (e_stream st) (e_stream_index st) (e_full st) (e_streamval st) (e_W_upper st).

(** What the encoders leave in the struct: the stream, [streamval] and [full]
    are updated as they go, [stream_index] and [W_upper] only on success. *)
Definition enc_finish (st : Bitstr_enc) (r : enc_loop + enc_loop) : Z * Bitstr_enc :=
  match r with
  | inl l => (- ISAC_DISALLOWED_BITSTREAM_LENGTH,
              mkEnc (l_stream l) (e_W_upper st) (l_val l) (e_stream_index st) (l_full l))
  | inr l => (0, mkEnc (l_stream l) (l_W l) (l_val l) (u16 (l_ptr l)) (l_full l))
  end.

Definition WebRtcIsacfix_EncHistMulti (streamData : Bitstr_enc) (data : list Z)
    (cdf : list (list Z)) : option (Z * Bitstr_enc) :=
  r ← enc_hist_loop (enc_start streamData) data cdf;
  Some (enc_finish streamData r).

(** The two-byte ending of [WebRtcIsacfix_EncTerminate]: with a half-filled
    word it fills that word and the high byte of the next one. *)
Definition term_narrow (s : list Z) (p full streamval : Z) : option (list Z * Z * Z) :=
  if negb (full =? 0) then
    s ← set_cell s p (u16 (streamval ≫ 16));
    Some (s, p + 1, full)
  else
    c ← cell s p;
    s ← set_cell s p (Z.lor c (u16 (streamval ≫ 24)));
    s ← set_cell s (p + 1) (Z.land (u16 (streamval ≫ 8)) 0xFF00);
    Some (s, p + 1, full).

(** [WebRtcIsacfix_EncTerminate]: returns the stream length in bytes. *)
Definition WebRtcIsacfix_EncTerminate (st : Bitstr_enc) : option (Z * Bitstr_enc) :=
  let p := e_stream_index st in
  let full := e_full st in
  let wide := 0x01FFFFFF <? e_W_upper st in
  let step := if wide then 0x01000000 else 0x00010000 in
  let streamval := u32 (e_streamval st + step) in
  s ← (if streamval <? step then propagate_carry (e_stream st) p full else Some (e_stream st));
  '(s, q, full) ←
    (if wide then put_byte s p full streamval
     else term_narrow s p full streamval);
  Some (i16 ((q ≪ 1) + (if full =? 0 then 1 else 0)),
        mkEnc s (e_W_upper st) streamval (e_stream_index st) full).

(** ** Decoders *)

(** Local variables of the decoder loops. *)
Record dec_loop := mkDLoop {
  dl_ptr : Z;
  dl_full : Z;
  dl_val : Z;
  dl_W : Z
}.

(** The renormalisation loop of the histogram decoders.  It leaves the loop
    only with [W_upper >= 2^24] or by reading outside [stream]; every second
    iteration advances the pointer, so the fuel of [dec_fuel] is never what
    stops it. *)
Fixpoint dec_renorm (fuel : nat) (stream : list Z) (l : dec_loop) : option dec_loop :=
  if W_small (dl_W l) then
    match fuel with
    | O => None
    | S fuel =>
        c ← cell stream (dl_ptr l);
        let l' :=
          if dl_full l =? 0
          then mkDLoop (dl_ptr l + 1) 1 (Z.lor (u32 (dl_val l ≪ 8)) (Z.land c 0x00FF))
                 (u32 (dl_W l ≪ 8))
          else mkDLoop (dl_ptr l) 0 (Z.lor (u32 (dl_val l ≪ 8)) (c ≫ 8))
                 (u32 (dl_W l ≪ 8)) in
        dec_renorm fuel stream l'
    end
  else Some l.
Definition dec_fuel (stream : list Z) : nat := 2 * length stream + 2.

(** [streamval] on entry: the first two words of a fresh stream, or the value
    kept by the previous call. *)
Definition dec_start (st : Bitstr_dec) : option dec_loop :=
  if d_stream_index st =? 0 then
    w0 ← cell (d_stream st) 0;
    w1 ← cell (d_stream st) 1;
    Some (mkDLoop 2 (d_full st) (Z.lor (u32 (w0 ≪ 16)) w1) (d_W_upper st))
  else Some (mkDLoop (d_stream_index st) (d_full st) (d_streamval st) (d_W_upper st)).

(** The stream length computed from the final pointer and interval. *)
Definition dec_length (l : dec_loop) : Z :=
  let index := u16 (dl_ptr l) in
  let odd := if dl_full l =? 0 then 1 else 0 in
  if 0x01FFFFFF <? dl_W l then index * 2 - 3 + odd else index * 2 - 2 + odd.

(** The epilogue: store the loop variables and return the stream length. *)
Definition dec_store (st : Bitstr_dec) (l : dec_loop) : Bitstr_dec :=
  mkDec (d_stream st) (dl_W l) (dl_val l) (u16 (dl_ptr l)) (dl_full l) (d_stream_size st).
Definition dec_finish (st : Bitstr_dec) (l : dec_loop) : Z * Bitstr_dec :=
  (i16 (dec_length l), dec_store st l).

(** On an error return only [full] has been stored. *)
Definition dec_abort (st : Bitstr_dec) (l : dec_loop) : Bitstr_dec :=
  mkDec (d_stream st) (d_W_upper st) (d_streamval st) (d_stream_index st) (dl_full l)
    (d_stream_size st).

(** The bisection of [WebRtcIsacfix_DecHistBisectMulti]: [sizeTmp] and the
    table position [i]; [lo] and [hi] are the current [W_lower] and [W_upper],
    [W] the interval on entry.  Returns the symbol and the interval found. *)
Fixpoint bisect (fuel : nat) (tbl : list Z) (W streamval sizeTmp i lo hi : Z)
  : option (Z * Z * Z) :=
  c ← cell tbl i;
  let W_tmp := W_scale W c in
  let sizeTmp := Z.quot sizeTmp 2 in
  if sizeTmp =? 0 then
    if W_tmp <? streamval then Some (i, W_tmp, hi) else Some (i - 1, lo, W_tmp)
  else
    match fuel with
    | O => None
    | S fuel =>
        if W_tmp <? streamval
        then bisect fuel tbl W streamval sizeTmp (i + sizeTmp) W_tmp hi
        else bisect fuel tbl W streamval sizeTmp (i - sizeTmp) lo W_tmp
    end.

(** [sizeTmp] is an [int16_t] that is halved in every round. *)
Definition bisect_fuel : nat := 16.

Fixpoint dec_bisect_loop (stream : list Z) (l : dec_loop) (W_lower : Z)
    (cdf : list (list Z)) (cdfSize : list Z) (n : nat)
  : option (list Z * (dec_loop + dec_loop)) :=
  match n with
  | O => Some ([], inr l)
  | S n =>
      match cdf, cdfSize with
      | tbl :: cdf, size :: cdfSize =>
          let sizeTmp := i16 (Z.quot size 2) in
          '(x, lo, hi) ←
            bisect bisect_fuel tbl (dl_W l) (dl_val l) sizeTmp (sizeTmp - 1) W_lower (dl_W l);
          let W_lower := u32 (lo + 1) in
          l ← dec_renorm (dec_fuel stream) stream
                (mkDLoop (dl_ptr l) (dl_full l) (u32 (dl_val l - W_lower)) (u32 (hi - W_lower)));
          if dl_W l =? 0 then Some ([i16 x], inl l)
          else
            '(xs, r) ← dec_bisect_loop stream l W_lower cdf cdfSize n;
            Some (i16 x :: xs, r)
      | _, _ => None
      end
  end.

(** Returns the symbols stored in [data], the return value and the struct. *)
Definition WebRtcIsacfix_DecHistBisectMulti (st : Bitstr_dec) (cdf : list (list Z))
    (cdfSize : list Z) (lenData : Z) : option (list Z * Z * Bitstr_dec) :=
  if d_W_upper st =? 0 then Some ([], -2, st)
  else
    l ← dec_start st;
    '(xs, r) ← dec_bisect_loop (d_stream st) l 0 cdf cdfSize (Z.to_nat lenData);
    match r with
    | inl l => Some (xs, -2, dec_abort st l)
    | inr l => let '(ret, st') := dec_finish st l in Some (xs, ret, st')
    end.

(** The upward and downward scans of [WebRtcIsacfix_DecHistOneStepMulti];
    [inl] is the [return -3] of the range checks. *)
Fixpoint step_up (fuel : nat) (tbl : list Z) (W streamval i W_tmp : Z)
  : option (unit + Z * Z * Z) :=
  match fuel with
  | O => None
  | S fuel =>
      let W_lower := W_tmp in
      c ← cell tbl i;
      if c =? 65535 then Some (inl tt)
      else
        c ← cell tbl (i + 1);
        let W_tmp := W_scale W c in
        if streamval <=? W_tmp then Some (inr (i, W_lower, W_tmp))
        else step_up fuel tbl W streamval (i + 1) W_tmp
  end.

Fixpoint step_down (fuel : nat) (tbl : list Z) (W streamval i W_tmp : Z)
  : option (unit + Z * Z * Z) :=
  match fuel with
  | O => None
  | S fuel =>
      let W_upper := W_tmp in
      let i := i - 1 in
      if i <? 0 then Some (inl tt)
      else
        c ← cell tbl i;
        let W_tmp := W_scale W c in
        if W_tmp <? streamval then Some (inr (i, W_tmp, W_upper))
        else step_down fuel tbl W streamval i W_tmp
  end.

Definition one_step (tbl : list Z) (W streamval init : Z) : option (unit + Z * Z * Z) :=
  c ← cell tbl init;
  let W_tmp := W_scale W c in
  if W_tmp <? streamval
  then step_up (length tbl) tbl W streamval init W_tmp
  else step_down (S (length tbl)) tbl W streamval init W_tmp.

Fixpoint dec_onestep_loop (stream : list Z) (l : dec_loop)
    (cdf : list (list Z)) (initIndex : list Z) (n : nat)
  : option (list Z * (dec_loop + dec_loop)) :=
  match n with
  | O => Some ([], inr l)
  | S n =>
      match cdf, initIndex with
      | tbl :: cdf, init :: initIndex =>
          r ← one_step tbl (dl_W l) (dl_val l) init;
          match r with
          | inl _ => Some ([], inl l)
          | inr (x, lo, hi) =>
              let W_lower := u32 (lo + 1) in
              l ← dec_renorm (dec_fuel stream) stream
                    (mkDLoop (dl_ptr l) (dl_full l) (u32 (dl_val l - W_lower))
                       (u32 (hi - W_lower)));
              '(xs, r) ← dec_onestep_loop stream l cdf initIndex n;
              Some (i16 x :: xs, r)
          end
      | _, _ => None
      end
  end.

Definition WebRtcIsacfix_DecHistOneStepMulti (st : Bitstr_dec) (cdf : list (list Z))
    (initIndex : list Z) (lenData : Z) : option (list Z * Z * Bitstr_dec) :=
  if d_W_upper st =? 0 then Some ([], -2, st)
  else
    l ← dec_start st;
    '(xs, r) ← dec_onestep_loop (d_stream st) l cdf initIndex (Z.to_nat lenData);
    match r with
    | inl l => Some (xs, -3, dec_abort st l)
    | inr l => let '(ret, st') := dec_finish st l in Some (xs, ret, st')
    end.

(** Reset of the structs at the start of a packet, as [encode.c] and
    [decode.c] do it (the stream contents are left as they are). *)
Definition enc_reset (stream : list Z) : Bitstr_enc := mkEnc stream 0xFFFFFFFF 0 0 1.
Definition dec_reset (stream : list Z) (size : Z) : Bitstr_dec :=
  mkDec stream 0xFFFFFFFF 0 0 1 size.
