(* ===== verification/IsacStream.v ===== *)
(** Byte-level reading of the iSAC word streams: the number formed by the
    first bytes of a stream, and the effect of the encoder's primitive writes
    ([carry_back], [propagate_carry], [put_byte]) on it. *)
From S2P Require Import Prelude SplInl IsacArith.

(** ** Interval scaling *)

Lemma W_scale_eq W c : is_u32 W -> is_u16 c -> W_scale W c = W * c / 2 ^ 16.
Proof.
  intros HW Hc. unfold W_scale, WEBRTC_SPL_UMUL.
  change 0xFFFF with (2 ^ 16 - 1). rewrite land_ones_mod, shiftr_div by lia.
  unfold is_u32, is_u16 in *.
  assert (0 <= W / 2 ^ 16 < 2 ^ 16) by (Z.div_mod_to_equations; lia).
  assert (0 <= W mod 2 ^ 16 < 2 ^ 16) by (apply Z.mod_pos_bound; lia).
  rewrite (u32_id (W / _)), (u32_id c), (u32_id (W / _ * c)), (u32_id (W mod _ * c))
    by (unfold is_u32; nia).
  rewrite shiftr_div by lia.
  assert (W * c = W / 2 ^ 16 * c * 2 ^ 16 + W mod 2 ^ 16 * c) as E.
  { rewrite (Z.div_mod W (2 ^ 16)) at 1 by lia. ring. }
  rewrite E, Z.div_add_l by lia. apply u32_id. unfold is_u32.
  assert (0 <= W mod 2 ^ 16 * c / 2 ^ 16 <= c) by (split; [apply Z.div_pos|apply Z.div_le_upper_bound]; nia).
  nia.
Qed.

Lemma W_small_spec W : is_u32 W -> W_small W = (W <? 2 ^ 24).
Proof.
  intros HW. unfold W_small, is_u32 in *.
  assert (Z.land W 0xFF000000 = (W / 2 ^ 24) * 2 ^ 24) as ->.
  { change 0xFF000000 with ((2 ^ 8 - 1) ≪ 24). rewrite land_field by lia.
    rewrite (Z.mod_small (W / _)) by (Z.div_mod_to_equations; lia). done. }
  destruct (Z.ltb_spec W (2 ^ 24)).
  - rewrite Z.div_small by lia. done.
  - apply Z.eqb_neq. assert (1 <= W / 2 ^ 24); [|lia]. apply Z.div_le_lower_bound; lia.
Qed.

(** ** Bytes of a word stream *)

Definition byteat (s : list Z) (i : nat) : Z :=
  let w := nth (i / 2) s 0 in
  if Nat.even i then w / 256 else w mod 256.

(** The number whose base-256 digits are the first [m] bytes. *)
Fixpoint bv (s : list Z) (m : nat) : Z :=
  match m with
  | O => 0
  | S m => bv s m * 256 + byteat s m
  end.

Lemma bv_S s m : bv s (S m) = bv s m * 256 + byteat s m.
Proof. done. Qed.
Arguments bv : simpl never.

Lemma nth_u16 s i : Forall is_u16 s -> is_u16 (nth i s 0).
Proof.
  intros H. pose proof (arr_Forall is_u16 s (Z.of_nat i)) as Ha. unfold arr in Ha.
  rewrite Nat2Z.id in Ha. apply Ha; [unfold is_u16; lia|done].
Qed.

Lemma byteat_range s i : Forall is_u16 s -> 0 <= byteat s i < 256.
Proof.
  intros H. pose proof (nth_u16 s (i / 2) H) as Hn. unfold byteat, is_u16 in *.
  destruct (Nat.even i); Z.div_mod_to_equations; lia.
Qed.

Lemma bv_ext s s' m : (forall i, (i < m)%nat -> byteat s i = byteat s' i) -> bv s m = bv s' m.
Proof.
  induction m as [|m IH]; intros H; [done|]. rewrite !bv_S, IH, H by auto. done.
Qed.

Lemma bv_bounds s m : Forall is_u16 s -> 0 <= bv s m < 256 ^ Z.of_nat m.
Proof.
  intros H. induction m as [|m IH]; [unfold bv; simpl; lia|]. rewrite bv_S.
  pose proof (byteat_range s m H). rewrite Nat2Z.inj_succ, Z.pow_succ_r by lia. lia.
Qed.

(** Reading [k] more bytes appends [k] digits. *)
Lemma bv_add s a k : Forall is_u16 s ->
  exists r, bv s (a + k) = bv s a * 256 ^ Z.of_nat k + r /\ 0 <= r < 256 ^ Z.of_nat k.
Proof.
  intros H. induction k as [|k [r [E Hr]]].
  - exists 0. rewrite Nat.add_0_r. simpl. lia.
  - rewrite Nat.add_succ_r, bv_S, E.
    pose proof (byteat_range s (a + k) H).
    exists (r * 256 + byteat s (a + k)). rewrite Nat2Z.inj_succ, Z.pow_succ_r by lia. lia.
Qed.

Lemma half_even i : (2 * i / 2 = i)%nat.
Proof. rewrite Nat.mul_comm. apply Nat.div_mul. lia. Qed.
Lemma half_odd i : (S (2 * i) / 2 = i)%nat.
Proof.
  replace (S (2 * i)) with (1 + i * 2)%nat by lia. rewrite Nat.div_add by lia. done.
Qed.

Lemma byteat_even s p : byteat s (2 * p) = nth p s 0 / 256.
Proof.
  unfold byteat. rewrite half_even. by rewrite Nat.even_mul.
Qed.
Lemma byteat_odd s p : byteat s (S (2 * p)) = nth p s 0 mod 256.
Proof.
  unfold byteat. rewrite half_odd, Nat.even_succ, <-Nat.negb_even, Nat.even_mul. done.
Qed.

Lemma bv_word s p : bv s (2 * S p) = bv s (2 * p) * 2 ^ 16 + nth p s 0.
Proof.
  replace (2 * S p)%nat with (S (S (2 * p))) by lia. rewrite !bv_S.
  rewrite byteat_odd, byteat_even. pose proof (Z.div_mod (nth p s 0) 256). lia.
Qed.

(** Words beyond the ones read do not matter. *)
Lemma bv_insert_ge s p v m : (m <= 2 * p)%nat -> bv (<[p := v]> s) m = bv s m.
Proof.
  intros Hm. apply bv_ext. intros i Hi. unfold byteat.
  assert (i / 2 <> p)%nat as Hne by (pose proof (Nat.div_mod_eq i 2); lia).
  rewrite !nth_lookup, list_lookup_insert_ne by lia. done.
Qed.

Lemma nth_insert_eq s p v : (p < length s)%nat -> nth p (<[p := v]> s) 0 = v.
Proof. intros. rewrite nth_lookup, list_lookup_insert_eq by done. done. Qed.

(** ** Carry *)

Lemma carry_back_spec p : forall s, Forall is_u16 s -> (p <= length s)%nat ->
  bv s (2 * p) + 1 < 256 ^ Z.of_nat (2 * p) ->
  exists s', carry_back s p = Some s' /\ length s' = length s /\ Forall is_u16 s' /\
    bv s' (2 * p) = bv s (2 * p) + 1 /\ (forall q, (p <= q)%nat -> nth q s' 0 = nth q s 0).
Proof.
  induction p as [|q IH]; intros s Hs Hl Hb.
  { unfold bv in Hb. simpl in Hb. lia. }
  cbn [carry_back]. destruct (lookup_lt_is_Some_2 s q ltac:(lia)) as [c Hc]. rewrite Hc. bind_simpl.
  assert (nth q s 0 = c) as Hn by (rewrite nth_lookup, Hc; done).
  pose proof (Forall_lookup_1 _ _ _ _ Hs Hc) as Hcr. unfold is_u16 in Hcr.
  rewrite (bv_word s), Hn in Hb |- *.
  assert (Forall is_u16 (<[q := u16 (c + 1)]> s)) as Hs' by (apply Forall_insert; auto with cint).
  assert (forall q', (S q <= q')%nat -> nth q' (<[q := u16 (c + 1)]> s) 0 = nth q' s 0) as Hrest.
  { intros q' Hq'. rewrite !nth_lookup, list_lookup_insert_ne by lia. done. }
  destruct (Z.eqb_spec (u16 (c + 1)) 0) as [E|E].
  - assert (c = 2 ^ 16 - 1) as Hcm by (unfold u16 in E; Z.div_mod_to_equations; lia).
    destruct (IH (<[q := u16 (c + 1)]> s)) as (s' & E1 & E2 & E3 & E4 & E5); [done| | |].
    + rewrite length_insert. lia.
    + rewrite bv_insert_ge by lia. rewrite Nat.mul_succ_r, Nat2Z.inj_add, Z.pow_add_r in Hb by lia.
      change (256 ^ Z.of_nat 2) with (2 ^ 16) in Hb. lia.
    + exists s'. rewrite length_insert in E2. split; [done|]. split; [done|]. split; [done|].
      rewrite bv_insert_ge in E4 by lia. split.
      * rewrite bv_word, E4, E5, nth_insert_eq, E by lia. lia.
      * intros q' Hq'. rewrite E5 by lia. apply Hrest. lia.
  - assert (u16 (c + 1) = c + 1) as Eu by (unfold u16 in *; Z.div_mod_to_equations; lia).
    exists (<[q := u16 (c + 1)]> s). rewrite length_insert. do 3 (split; [done|]).
    split; [|done]. rewrite bv_word, bv_insert_ge, nth_insert_eq, Eu by lia. lia.
Qed.

(** ** The encoder's position in its stream *)

(** Bytes written so far. *)
Definition nbytes (p full : Z) : nat := 2 * Z.to_nat p + (if full =? 0 then 1 else 0).

(** Words are 16 bits, the position is inside the array, and the second byte
    of a half-filled word is still zero. *)
Definition swf (s : list Z) (p full : Z) : Prop :=
  Forall is_u16 s /\ 0 <= p < Z.of_nat (length s) /\ (full = 0 \/ full = 1) /\
  (full = 0 -> nth (Z.to_nat p) s 0 mod 256 = 0).

Lemma cell_Some s p : 0 <= p < Z.of_nat (length s) -> cell s p = Some (nth (Z.to_nat p) s 0).
Proof.
  intros Hp. unfold cell. rewrite (proj2 (Z.leb_le 0 p)) by lia.
  destruct (lookup_lt_is_Some_2 s (Z.to_nat p) ltac:(lia)) as [c Hc].
  by rewrite Hc, nth_lookup, Hc.
Qed.

Lemma set_cell_Some s p v : 0 <= p < Z.of_nat (length s) ->
  set_cell s p v = Some (<[Z.to_nat p := v]> s).
Proof. intros Hp. unfold set_cell. by rewrite cell_Some. Qed.

Lemma bv_half s p : bv s (2 * p + 1) = bv s (2 * p) * 256 + nth p s 0 / 256.
Proof. rewrite Nat.add_1_r, bv_S, byteat_even. done. Qed.

Lemma propagate_carry_spec s p full : swf s p full ->
  bv s (nbytes p full) + 1 < 256 ^ Z.of_nat (nbytes p full) ->
  exists s', propagate_carry s p full = Some s' /\ length s' = length s /\ swf s' p full /\
    bv s' (nbytes p full) = bv s (nbytes p full) + 1.
Proof.
  intros (Hs & Hp & Hf & Hz) Hb. unfold propagate_carry, nbytes in *.
  set (P := Z.to_nat p) in *. destruct Hf as [-> | ->]; simpl (_ =? 0) in *.
  - specialize (Hz eq_refl). rewrite cell_Some by done. bind_simpl. fold P.
    rewrite set_cell_Some by done. bind_simpl. fold P.
    set (c := nth P s 0) in *. pose proof (nth_u16 s P Hs) as Hc. fold c in Hc. unfold is_u16 in Hc.
    rewrite bv_half in Hb |- *. fold c in Hb |- *.
    set (s1 := <[P := u16 (c + 0x0100)]> s).
    assert (Forall is_u16 s1) as Hs1 by (apply Forall_insert; auto with cint).
    assert (length s1 = length s) as Hl1 by apply length_insert.
    assert (nth P s1 0 = u16 (c + 0x0100)) as Hn1 by (apply nth_insert_eq; lia).
    assert (bv s1 (2 * P) = bv s (2 * P)) as Hb1 by (apply bv_insert_ge; lia).
    destruct (Z.eqb_spec (u16 (c + 0x0100)) 0) as [E|E].
    + assert (c = 0xFF00) as Hcc by (unfold u16 in E; Z.div_mod_to_equations; lia).
      destruct (carry_back_spec P s1) as (s' & E1 & E2 & E3 & E4 & E5); [done|lia| |].
      { rewrite Hb1. rewrite Nat2Z.inj_add, Z.pow_add_r in Hb by lia.
        change (256 ^ Z.of_nat 1) with 256 in Hb. rewrite Hcc in Hb.
        change (0xFF00 / 256) with 255 in Hb. lia. }
      exists s'. split; [done|]. split; [lia|]. split; [split; [done|split; [lia|]]|].
      * split; [by left|]. intros _. fold P. rewrite E5, Hn1, E by lia. done.
      * rewrite bv_half, E5, Hn1, E, E4, Hb1, Hcc by lia. change (0xFF00 / 256) with 255.
        change (0 / 256) with 0. lia.
    + assert (u16 (c + 0x0100) = c + 0x0100) as Eu
        by (unfold u16 in *; Z.div_mod_to_equations; lia).
      exists s1. split; [done|]. split; [done|]. split; [split; [done|split; [lia|]]|].
      * split; [by left|]. intros _. fold P. rewrite Hn1, Eu. Z.div_mod_to_equations; lia.
      * rewrite bv_half, Hn1, Eu, Hb1. Z.div_mod_to_equations; lia.
  - rewrite Nat.add_0_r in *.
    destruct (carry_back_spec P s) as (s' & E1 & E2 & E3 & E4 & E5); [done|lia|done|].
    exists s'. split; [done|]. split; [done|]. split; [|done].
    split; [done|]. split; [lia|]. split; [by right|done].
Qed.

(** Storing a byte appends a digit; the position may move to the end of the
    array. *)
Lemma put_byte_spec s p full v : swf s p full -> is_u32 v ->
  exists s' p' full', put_byte s p full v = Some (s', p', full') /\ length s' = length s /\
    nbytes p' full' = S (nbytes p full) /\
    bv s' (S (nbytes p full)) = bv s (nbytes p full) * 256 + v / 2 ^ 24 /\
    Forall is_u16 s' /\ (p' < Z.of_nat (length s) -> swf s' p' full') /\ p <= p' <= p + 1.
Proof.
  intros (Hs & Hp & Hf & Hz) Hv. unfold put_byte, nbytes in *. unfold is_u32 in Hv.
  set (P := Z.to_nat p) in *. rewrite shiftr_div by lia.
  assert (0 <= v / 2 ^ 24 < 256) as Hby by (Z.div_mod_to_equations; lia).
  destruct Hf as [-> | ->]; simpl (_ =? 0) in *.
  - specialize (Hz eq_refl). rewrite cell_Some by done. bind_simpl.
    rewrite set_cell_Some by done. bind_simpl. fold P. set (c := nth P s 0) in *.
    pose proof (nth_u16 s P Hs) as Hc. fold c in Hc. unfold is_u16 in Hc.
    rewrite (u16_id (v / _)) by (unfold is_u16; lia).
    rewrite u16_id by (unfold is_u16; Z.div_mod_to_equations; lia).
    do 3 eexists. split; [done|]. split; [apply length_insert|].
    split; [unfold P; cbn [Z.eqb]; lia|]. split.
    { replace (S (2 * P + 1)) with (2 * S P)%nat by lia.
      rewrite bv_word, bv_half, bv_insert_ge, nth_insert_eq by lia. fold c.
      Z.div_mod_to_equations; lia. }
    split; [apply Forall_insert; [done|unfold is_u16; Z.div_mod_to_equations; lia]|].
    split; [|lia]. intros Hlt. split.
    { apply Forall_insert; [done|unfold is_u16; Z.div_mod_to_equations; lia]. }
    rewrite length_insert. split; [lia|]. split; [by right|done].
  - rewrite set_cell_Some by done. bind_simpl. fold P.
    rewrite Z.shiftl_mul_pow2, u16_id by (unfold is_u16; lia).
    do 3 eexists. split; [done|]. split; [apply length_insert|].
    split; [unfold P; cbn [Z.eqb]; lia|]. split.
    { rewrite Nat.add_0_r, <-Nat.add_1_r, bv_half, bv_insert_ge, nth_insert_eq by lia.
      change (2 ^ 8) with 256. rewrite Z.div_mul by lia. done. }
    assert (Forall is_u16 (<[P := v / 2 ^ 24 * 2 ^ 8]> s))
      by (apply Forall_insert; [done|unfold is_u16; lia]).
    split; [done|]. split; [|lia]. intros Hlt. split; [done|].
    rewrite length_insert. split; [lia|]. split; [by left|]. intros _. fold P.
    rewrite nth_insert_eq by lia. apply Z.mod_mul. lia.
Qed.
