(* ===== verification/IsacEncoder.v ===== *)
(** The iSAC arithmetic encoder as exact interval arithmetic: after encoding,
    the stream and [streamval] form one big number, the lower end of an
    interval of width [W_upper]; each symbol narrows the interval, and the
    renormalisation multiplies both by a power of 256.  [enc_hist_loop] and
    [WebRtcIsacfix_EncTerminate] are shown to compute exactly that. *)
From S2P Require Import Prelude SplInl IsacArith IsacStream.

(** ** The interval computation *)

(** [trace V W n syms V' W' n']: encoding the intervals [syms] (pairs of
    neighbouring cdf values) takes the interval [V, V + W] over [n] emitted
    bytes to [V', V' + W'] over [n'] bytes. *)
Inductive trace : Z -> Z -> nat -> list (Z * Z) -> Z -> Z -> nat -> Prop :=
| trace_nil V W n : trace V W n [] V W n
| trace_cons V W n cl ch syms k V' W' n' :
    0 <= cl < ch -> ch < 2 ^ 16 ->
    let lo := W * cl / 2 ^ 16 in
    let hi := W * ch / 2 ^ 16 in
    2 ^ 24 <= (hi - lo - 1) * 256 ^ Z.of_nat k < 2 ^ 32 ->
    (forall j, (j < k)%nat -> (hi - lo - 1) * 256 ^ Z.of_nat j < 2 ^ 24) ->
    trace ((V + lo + 1) * 256 ^ Z.of_nat k) ((hi - lo - 1) * 256 ^ Z.of_nat k) (n + k)
      syms V' W' n' ->
    trace V W n ((cl, ch) :: syms) V' W' n'.

Lemma trace_app V W n s1 V1 W1 n1 s2 V2 W2 n2 :
  trace V W n s1 V1 W1 n1 -> trace V1 W1 n1 s2 V2 W2 n2 ->
  trace V W n (s1 ++ s2) V2 W2 n2.
Proof. induction 1; intros; simpl; [done|]. econstructor; eauto. Qed.

(** The bounds every symbol keeps. *)
Lemma narrow W cl ch : 2 ^ 24 <= W -> 0 <= cl < ch -> ch < 2 ^ 16 ->
  let lo := W * cl / 2 ^ 16 in
  let hi := W * ch / 2 ^ 16 in
  0 <= lo /\ lo + 256 <= hi /\ hi < W.
Proof.
  intros HW Hc Hch lo hi. unfold lo, hi. split; [apply Z.div_pos; nia|]. split.
  - rewrite <-Z.div_add by lia. apply Z.div_le_mono; nia.
  - apply Z.div_lt_upper_bound; nia.
Qed.

(** ** The encoder's state *)

(** [enc_rel l V W n]: the loop variables represent the interval [V, V + W]
    after [n] bytes. *)
Record enc_rel (l : enc_loop) (V W : Z) (n : nat) : Prop := {
  er_swf : swf (l_stream l) (l_ptr l) (l_full l);
  er_len : length (l_stream l) = Z.to_nat STREAM_MAXW16_60MS;
  er_n : nbytes (l_ptr l) (l_full l) = n;
  er_val : is_u32 (l_val l);
  er_V : V = bv (l_stream l) n * 2 ^ 32 + l_val l;
  er_W : l_W l = W;
  er_Wr : is_u32 W;
  er_top : V + W < 256 ^ Z.of_nat n * 2 ^ 32
}.

Lemma nbytes_lt s p full : swf s p full -> length s = Z.to_nat STREAM_MAXW16_60MS ->
  (nbytes p full <= 399)%nat /\ 0 <= p < 200 /\ (full = 0 \/ full = 1).
Proof.
  intros (_ & Hp & Hf & _) Hl. unfold nbytes. rewrite Hl in Hp.
  unfold STREAM_MAXW16_60MS in Hp. destruct Hf as [-> | ->]; cbn [Z.eqb]; lia.
Qed.

(** Shifting the top byte of [streamval] into the stream. *)
Lemma shift_out val : is_u32 val ->
  val / 2 ^ 24 * 2 ^ 32 + u32 (val ≪ 8) = val * 256.
Proof.
  intros Hv. rewrite Z.shiftl_mul_pow2 by lia. change (2 ^ 8) with 256.
  unfold is_u32, u32 in *. Z.div_mod_to_equations; lia.
Qed.

Lemma pow256_S n : 256 ^ Z.of_nat (S n) = 256 * 256 ^ Z.of_nat n.
Proof. rewrite Nat2Z.inj_succ, Z.pow_succ_r by lia. done. Qed.
Lemma pow256_pos n : 0 < 256 ^ Z.of_nat n.
Proof. apply Z.pow_pos_nonneg; lia. Qed.

(** One iteration of the renormalisation loop. *)
Lemma put_byte_rel l V W n : enc_rel l V W n -> W < 2 ^ 24 ->
  exists s p full, put_byte (l_stream l) (l_ptr l) (l_full l) (l_val l) = Some (s, p, full) /\
    nbytes p full = S n /\
    ((p = 200 /\ n = 399%nat) \/
     (p < 200 /\ enc_rel (mkLoop s p full (u32 (l_val l ≪ 8)) (u32 (l_W l ≪ 8)))
                   (V * 256) (W * 256) (S n))).
Proof.
  intros [Hs Hl Hn Hv HV HW HWr Ht] Hsm.
  destruct (put_byte_spec _ _ _ (l_val l) Hs Hv) as (s & p & full & E & El & En & Eb & Eu & Ew & Ep).
  destruct (nbytes_lt _ _ _ Hs Hl) as (Hlt & Hpr & Hf). rewrite Hn in En, Eb, Hlt.
  exists s, p, full. split; [done|]. split; [done|].
  rewrite Hl in Ew. change (Z.of_nat (Z.to_nat STREAM_MAXW16_60MS)) with 200 in Ew.
  destruct (Z_lt_le_dec p 200) as [Hp|Hp].
  - right. split; [done|]. specialize (Ew Hp). unfold is_u32 in HWr.
    assert (u32 (W ≪ 8) = W * 256) as EW.
    { rewrite Z.shiftl_mul_pow2 by lia. apply u32_id. unfold is_u32. lia. }
    constructor; cbn [l_stream l_ptr l_full l_val l_W]; auto with cint; try congruence.
    + rewrite Eb. pose proof (shift_out _ Hv). lia.
    + unfold is_u32. lia.
    + rewrite pow256_S. lia.
  - left. assert (p = 200) as -> by lia. split; [done|].
    revert En Hlt. clear. unfold nbytes. destruct (full =? 0); lia.
Qed.

(** The renormalisation loop always leaves with a result: either [W] has grown
    past [2^24], or the array is full after [k] bytes and [W] was still too
    small before the last of them. *)
Lemma enc_renorm_total fuel : forall l V W n, enc_rel l V W n -> (400 <= n + fuel)%nat ->
  (exists l' k, enc_renorm fuel l = Some (inr l') /\
     enc_rel l' (V * 256 ^ Z.of_nat k) (W * 256 ^ Z.of_nat k) (n + k) /\
     2 ^ 24 <= W * 256 ^ Z.of_nat k /\
     (forall j, (j < k)%nat -> W * 256 ^ Z.of_nat j < 2 ^ 24)) \/
  (exists l' k, enc_renorm fuel l = Some (inl l') /\ (n + S k)%nat = 400%nat /\
     W * 256 ^ Z.of_nat k < 2 ^ 24).
Proof.
  induction fuel as [|fuel IH]; intros l V W n Hr Hf; cbn [enc_renorm];
    rewrite (er_W _ _ _ _ Hr), W_small_spec by apply Hr.
  - destruct (nbytes_lt _ _ _ (er_swf _ _ _ _ Hr) (er_len _ _ _ _ Hr)) as (Hlt & _).
    rewrite (er_n _ _ _ _ Hr) in Hlt. lia.
  - destruct (Z.ltb_spec W (2 ^ 24)) as [Hsm|Hbig].
    + destruct (put_byte_rel _ _ _ _ Hr Hsm) as (s & p & full & -> & En & Hcase). bind_simpl.
      unfold STREAM_MAXW16_60MS. change (200 - 1) with 199.
      destruct Hcase as [(Hp & Hn)|(Hp & Hr')].
      * rewrite (proj2 (Z.ltb_lt 199 p)) by lia. right. eexists _, 0%nat.
        split; [done|]. simpl. lia.
      * rewrite (proj2 (Z.ltb_ge 199 p)) by lia. rewrite (er_W _ _ _ _ Hr) in Hr'.
        destruct (IH _ _ _ _ Hr' ltac:(lia)) as [(l' & k & E & Hl' & Hk & Hj)|(l' & k & E & Hk & Hb)].
        -- left. exists l', (S k). rewrite E, pow256_S, !Z.mul_assoc.
           replace (n + S k)%nat with (S n + k)%nat by lia. split; [done|]. split; [done|].
           split; [done|]. intros [|j] Hjk; [simpl; lia|].
           rewrite pow256_S, Z.mul_assoc. apply Hj. lia.
        -- right. exists l', (S k). rewrite E, pow256_S, Z.mul_assoc. split; [done|].
           split; [lia|done].
    + left. exists l, 0%nat. simpl. rewrite !Z.mul_1_r, Nat.add_0_r.
      split; [done|]. split; [done|]. split; [done|]. intros j Hj. lia.
Qed.

(** Adding to [streamval] with the carry propagated into the stream adds to
    the represented number. *)
Lemma carry_rel l V W n step : enc_rel l V W n -> 0 <= step <= W ->
  exists s, (if u32 (l_val l + step) <? step
             then propagate_carry (l_stream l) (l_ptr l) (l_full l)
             else Some (l_stream l)) = Some s /\
    forall W', is_u32 W' -> step + W' <= W ->
      enc_rel (mkLoop s (l_ptr l) (l_full l) (u32 (l_val l + step)) W') (V + step) W' n.
Proof.
  intros [Hs Hl Hn Hv HV HW HWr Ht] Hst.
  pose proof (bv_bounds (l_stream l) n (proj1 Hs)) as Hbv.
  unfold is_u32 in Hv, HWr. destruct (Z.ltb_spec (u32 (l_val l + step)) step) as [Hc|Hc].
  - assert (2 ^ 32 <= l_val l + step /\ u32 (l_val l + step) = l_val l + step - 2 ^ 32) as [Ho Eu]
      by (unfold u32 in *; Z.div_mod_to_equations; lia).
    destruct (propagate_carry_spec _ _ _ Hs) as (s & E1 & E2 & E3 & E4); [rewrite Hn; nia|].
    exists s. split; [done|]. intros W' HW' Hle. rewrite Hn in E4.
    constructor; cbn [l_stream l_ptr l_full l_val l_W]; auto with cint; try congruence; try lia.
  - assert (u32 (l_val l + step) = l_val l + step) as Eu
      by (unfold u32 in *; Z.div_mod_to_equations; lia).
    exists (l_stream l). split; [done|]. intros W' HW' Hle.
    constructor; cbn [l_stream l_ptr l_full l_val l_W]; auto with cint; try lia.
Qed.

(** ** Symbols *)

(** The interval step of [enc_symbol], and its failure for lack of room. *)
Lemma enc_symbol_spec l V W n cl ch : enc_rel l V W n -> 2 ^ 24 <= W ->
  0 <= cl < ch -> ch < 2 ^ 16 ->
  let lo := W * cl / 2 ^ 16 in
  let hi := W * ch / 2 ^ 16 in
  (exists l' k, enc_symbol l cl ch = Some (inr l') /\
     enc_rel l' ((V + lo + 1) * 256 ^ Z.of_nat k) ((hi - lo - 1) * 256 ^ Z.of_nat k) (n + k) /\
     2 ^ 24 <= (hi - lo - 1) * 256 ^ Z.of_nat k /\ (k <= 3)%nat /\
     (forall j, (j < k)%nat -> (hi - lo - 1) * 256 ^ Z.of_nat j < 2 ^ 24)) \/
  (exists l', enc_symbol l cl ch = Some (inl l') /\ (397 <= n)%nat).
Proof.
  intros Hr HW Hc Hch lo hi. pose proof (narrow W cl ch HW Hc Hch) as (Hlo & Hd & Hhi).
  fold lo hi in Hlo, Hd, Hhi. pose proof (er_Wr _ _ _ _ Hr) as HWr.
  unfold enc_symbol. rewrite (er_W _ _ _ _ Hr).
  rewrite !W_scale_eq by (try done; unfold is_u16; lia). fold lo hi.
  unfold is_u32 in HWr.
  rewrite (u32_id (lo + 1)), (u32_id (hi - _)) by (unfold is_u32; lia).
  destruct (carry_rel l V W n (lo + 1) Hr ltac:(lia)) as (s & -> & Hcr). bind_simpl.
  specialize (Hcr (hi - (lo + 1)) ltac:(unfold is_u32; lia) ltac:(lia)).
  replace (hi - (lo + 1)) with (hi - lo - 1) in Hcr |- * by lia.
  replace (V + (lo + 1)) with (V + lo + 1) in Hcr by lia.
  assert (forall k, (hi - lo - 1) * 256 ^ Z.of_nat k < 2 ^ 24 -> (k <= 2)%nat) as Hk3.
  { intros k Hk. destruct (le_lt_dec k 2) as [|Hgt]; [done|].
    assert (256 ^ 3 <= 256 ^ Z.of_nat k) by (apply Z.pow_le_mono_r; lia).
    change (256 ^ 3) with (2 ^ 24) in *. nia. }
  destruct (enc_renorm_total enc_fuel _ _ _ _ Hcr ltac:(unfold enc_fuel; lia))
    as [(l' & k & E & Hl' & Hbig & Hj)|(l' & k & E & Hk & Hb)].
  - left. exists l', k. split; [done|]. split; [done|]. split; [done|]. split; [|done].
    destruct k as [|k]; [lia|]. specialize (Hk3 k (Hj k ltac:(lia))). lia.
  - right. exists l'. split; [done|]. specialize (Hk3 k Hb). lia.
Qed.

(** A cdf table and a symbol with a nonempty interval in it. *)
Definition sym_ok (x : Z) (tbl : list Z) : Prop :=
  Forall is_u16 tbl /\ 0 <= x < 2 ^ 15 /\ x + 1 < Z.of_nat (length tbl) /\
  arr tbl x < arr tbl (x + 1).

Definition intervals (data : list Z) (cdf : list (list Z)) : list (Z * Z) :=
  zip_with (fun x tbl => (arr tbl x, arr tbl (x + 1))) data cdf.

Lemma cell_arr s p : 0 <= p < Z.of_nat (length s) -> cell s p = Some (arr s p).
Proof. intros. rewrite cell_Some by done. done. Qed.

Lemma sym_ok_cells x tbl : sym_ok x tbl ->
  cell tbl (u32 x) = Some (arr tbl x) /\ cell tbl (u32 x + 1) = Some (arr tbl (x + 1)) /\
  0 <= arr tbl x < arr tbl (x + 1) /\ arr tbl (x + 1) < 2 ^ 16.
Proof.
  intros (Hu & Hx & Hl & Hlt). rewrite u32_id by (unfold is_u32; lia).
  rewrite !cell_arr by lia. split; [done|]. split; [done|].
  pose proof (arr_Forall is_u16 tbl x ltac:(unfold is_u16; lia) Hu) as H1.
  pose proof (arr_Forall is_u16 tbl (x + 1) ltac:(unfold is_u16; lia) Hu) as H2.
  unfold is_u16 in *. lia.
Qed.

(** The symbol loop follows the interval computation, and gives up only when
    the array cannot hold three bytes per symbol. *)
Lemma enc_hist_loop_spec data : forall cdf l V W n,
  Forall2 sym_ok data cdf -> enc_rel l V W n -> 2 ^ 24 <= W ->
  (exists l' V' W' n', enc_hist_loop l data cdf = Some (inr l') /\
     enc_rel l' V' W' n' /\ 2 ^ 24 <= W' /\ (n' <= n + 3 * length data)%nat /\
     trace V W n (intervals data cdf) V' W' n') \/
  (exists l', enc_hist_loop l data cdf = Some (inl l') /\ (400 <= n + 3 * length data)%nat).
Proof.
  induction data as [|x data IH]; intros cdf l V W n Hok Hr HW.
  - apply Forall2_nil_inv_l in Hok as ->. left. exists l, V, W, n. simpl.
    split; [done|]. split; [done|]. split; [done|]. split; [lia|constructor].
  - apply Forall2_cons_inv_l in Hok as (tbl & cdf' & Hx & Hok & ->). cbn [enc_hist_loop].
    destruct (sym_ok_cells _ _ Hx) as (-> & -> & Hc & Hch). bind_simpl.
    destruct (enc_symbol_spec _ _ _ _ _ _ Hr HW Hc Hch)
      as [(l1 & k & -> & Hr1 & Hb1 & Hk & Hj)|(l1 & -> & Hn)]; bind_simpl; simpl length.
    + destruct (IH cdf' l1 _ _ _ Hok Hr1 Hb1) as [(l' & V' & W' & n' & -> & Hr' & HW' & Hn' & Ht)|(l' & -> & Hn')].
      * left. exists l', V', W', n'. split; [done|]. split; [done|]. split; [done|].
        split; [lia|]. simpl. econstructor; try done.
        split; [done|]. pose proof (er_Wr _ _ _ _ Hr1) as H. unfold is_u32 in H. lia.
      * right. exists l'. split; [done|]. lia.
    + right. exists l1. split; [done|]. lia.
Qed.

(** ** The struct between calls *)

Definition enc_inv (st : Bitstr_enc) (V W : Z) (n : nat) : Prop :=
  enc_rel (enc_start st) V W n /\ 2 ^ 24 <= W.

Lemma enc_reset_inv stream : Forall is_u16 stream ->
  length stream = Z.to_nat STREAM_MAXW16_60MS -> enc_inv (enc_reset stream) 0 (2 ^ 32 - 1) 0.
Proof.
  intros Hs Hl. split; [|lia].
  constructor; unfold enc_start, enc_reset; cbn [e_stream e_stream_index e_full e_streamval
    e_W_upper l_stream l_ptr l_full l_val l_W]; try done; try (unfold is_u32; lia).
  split; [done|]. rewrite Hl. split; [done|]. split; [by right|done].
Qed.

Lemma enc_finish_inv st l V W n : enc_rel l V W n -> 2 ^ 24 <= W ->
  enc_inv (enc_finish st (inr l)).2 V W n.
Proof.
  intros Hr HW. split; [|done]. destruct l as [s p f v w].
  destruct (nbytes_lt _ _ _ (er_swf _ _ _ _ Hr) (er_len _ _ _ _ Hr)) as (_ & Hp & _).
  cbn [l_ptr] in Hp. unfold enc_start, enc_finish.
  cbn [snd e_stream e_stream_index e_full e_streamval e_W_upper l_stream l_ptr l_full l_val l_W].
  rewrite u16_id by (unfold is_u16; lia). done.
Qed.

Lemma EncHistMulti_spec st V W n data cdf : enc_inv st V W n -> Forall2 sym_ok data cdf ->
  exists ret st', WebRtcIsacfix_EncHistMulti st data cdf = Some (ret, st') /\
    ((ret = 0 /\ exists V' W' n', enc_inv st' V' W' n' /\ (n' <= n + 3 * length data)%nat /\
        trace V W n (intervals data cdf) V' W' n') \/
     (ret = - ISAC_DISALLOWED_BITSTREAM_LENGTH /\ (400 <= n + 3 * length data)%nat)).
Proof.
  intros [Hr HW] Hok. unfold WebRtcIsacfix_EncHistMulti.
  destruct (enc_hist_loop_spec data cdf _ _ _ _ Hok Hr HW)
    as [(l' & V' & W' & n' & -> & Hr' & HW' & Hn' & Ht)|(l' & -> & Hn')]; bind_simpl.
  - eexists _, _. split; [done|]. left. split; [done|]. exists V', W', n'.
    split; [|done]. by apply (enc_finish_inv st).
  - eexists _, _. split; [done|]. by right.
Qed.

(** ** Termination of the stream *)

(** Bytes written by [EncTerminate], and the power of two it rounds to. *)
Definition term_bytes (W : Z) : nat := if 0x01FFFFFF <? W then 1 else 2.
Definition term_unit (W : Z) : Z := 2 ^ (32 - 8 * Z.of_nat (term_bytes W)).

Lemma term_narrow_spec s p full v : swf s p full -> is_u32 v ->
  (full = 0 -> p + 1 < Z.of_nat (length s)) ->
  exists s', term_narrow s p full v = Some (s', p + 1, full) /\ length s' = length s /\
    Forall is_u16 s' /\
    bv s' (nbytes p full + 2) = bv s (nbytes p full) * 2 ^ 16 + v / 2 ^ 16.
Proof.
  intros (Hs & Hp & Hf & Hz) Hv Hroom. unfold term_narrow, nbytes. unfold is_u32 in Hv.
  set (P := Z.to_nat p) in *. destruct Hf as [-> | ->]; cbn [Z.eqb negb].
  - specialize (Hz eq_refl). specialize (Hroom eq_refl).
    rewrite cell_Some by done. bind_simpl. fold P. set (c := nth P s 0) in *.
    pose proof (nth_u16 s P Hs) as Hc. fold c in Hc. unfold is_u16 in Hc.
    rewrite set_cell_Some by done. bind_simpl. fold P.
    rewrite set_cell_Some by (rewrite length_insert; lia). bind_simpl.
    replace (Z.to_nat (p + 1)) with (S P) by lia. rewrite !shiftr_div by lia.
    rewrite (u16_id (v / 2 ^ 24)) by cint.
    rewrite (lor_disjoint c _ 8) by (try done; Z.div_mod_to_equations; lia).
    change 0xFF00 with ((2 ^ 8 - 1) ≪ 8). rewrite land_field by lia.
    assert (u16 (v / 2 ^ 8) / 2 ^ 8 mod 2 ^ 8 = v / 2 ^ 16 mod 2 ^ 8) as ->
      by (unfold u16; Z.div_mod_to_equations; lia).
    assert (0 <= v / 2 ^ 16 mod 2 ^ 8 < 2 ^ 8) as Hm by (apply Z.mod_pos_bound; lia).
    set (s1 := <[P := c + v / 2 ^ 24]> s).
    assert (Forall is_u16 s1) as Hs1 by (apply Forall_insert; [done|cint]).
    assert (length s1 = length s) as Hl1 by apply length_insert.
    eexists. split; [done|]. split; [rewrite length_insert; done|].
    split; [apply Forall_insert; [done|unfold is_u16; lia]|].
    replace (2 * P + 1 + 2)%nat with (2 * S P + 1)%nat by lia.
    rewrite bv_half, nth_insert_eq, bv_insert_ge, bv_word, bv_half by lia.
    unfold s1. rewrite nth_insert_eq, bv_insert_ge by lia. fold c.
    change (2 ^ 8) with 256. rewrite Z.div_mul by lia. Z.div_mod_to_equations; lia.
  - rewrite set_cell_Some by done. bind_simpl. fold P. rewrite shiftr_div by lia.
    rewrite u16_id by cint.
    eexists. split; [done|]. split; [apply length_insert|].
    split; [apply Forall_insert; [done|cint]|].
    replace (2 * P + 0 + 2)%nat with (2 * S P)%nat by lia.
    rewrite Nat.add_0_r, bv_word, nth_insert_eq, bv_insert_ge by lia. done.
Qed.

(** The length returned is the number of bytes written. *)
Lemma term_length q full n : nbytes q full = n -> (n <= 400)%nat -> 0 <= q ->
  i16 ((q ≪ 1) + (if full =? 0 then 1 else 0)) = Z.of_nat n.
Proof.
  unfold nbytes. intros Hn Hle Hq. rewrite Z.shiftl_mul_pow2 by lia. change (2 ^ 1) with 2.
  rewrite i16_id; destruct (full =? 0); unfold is_i16; lia.
Qed.

(** The bytes of a terminated stream: the represented number plus one unit,
    rounded down to units. *)
Lemma EncTerminate_spec st V W n : enc_inv st V W n -> (n + term_bytes W <= 400)%nat ->
  exists st', WebRtcIsacfix_EncTerminate st = Some (Z.of_nat (n + term_bytes W), st') /\
    length (e_stream st') = Z.to_nat STREAM_MAXW16_60MS /\ Forall is_u16 (e_stream st') /\
    bv (e_stream st') (n + term_bytes W) = (V + term_unit W) / term_unit W.
Proof.
  intros [Hr HW] Hroom. destruct st as [s w v p full]. unfold WebRtcIsacfix_EncTerminate.
  cbn [e_stream e_stream_index e_full e_streamval e_W_upper].
  pose proof (er_W _ _ _ _ Hr) as Ew. cbn in Ew. subst w.
  pose proof (er_n _ _ _ _ Hr) as En. cbn [l_ptr l_full enc_start e_stream_index e_full] in En.
  unfold term_unit, term_bytes in *. destruct (Z.ltb_spec 0x01FFFFFF W) as [Hw|Hw].
  - destruct (carry_rel _ V W n 0x01000000 Hr ltac:(lia)) as (s1 & E1 & Hr1).
    cbn [l_stream l_ptr l_full l_val enc_start e_stream e_stream_index e_full e_streamval] in E1.
    cbn zeta. rewrite E1. bind_simpl. specialize (Hr1 0 ltac:(done) ltac:(lia)).
    destruct Hr1 as [Hs1 Hl1 _ Hv1 HV1 _ _ _]. cbn [l_stream l_ptr l_full l_val l_W enc_start
      e_stream e_stream_index e_full e_streamval] in *.
    destruct (put_byte_spec _ _ _ _ Hs1 Hv1) as (s2 & p2 & f2 & -> & El & En2 & Eb & Hs2 & _ & Hp2).
    bind_simpl. destruct (nbytes_lt _ _ _ Hs1 Hl1) as (_ & Hp & _). rewrite En in En2, Eb.
    rewrite (term_length p2 f2 (n + 1)) by lia. eexists. split; [done|].
    cbn [e_stream]. split; [congruence|]. split; [done|].
    rewrite Nat.add_1_r, Eb. change (2 ^ (32 - 8 * Z.of_nat 1)) with 0x01000000. rewrite HV1.
    replace (2 ^ 32) with (256 * 0x01000000) by done. rewrite Z.mul_assoc, Z.div_add_l by lia. done.
  - destruct (carry_rel _ V W n 0x00010000 Hr ltac:(lia)) as (s1 & E1 & Hr1).
    cbn [l_stream l_ptr l_full l_val enc_start e_stream e_stream_index e_full e_streamval] in E1.
    cbn zeta. rewrite E1. bind_simpl. specialize (Hr1 0 ltac:(done) ltac:(lia)).
    destruct Hr1 as [Hs1 Hl1 _ Hv1 HV1 _ _ _]. cbn [l_stream l_ptr l_full l_val l_W enc_start
      e_stream e_stream_index e_full e_streamval] in *.
    destruct (nbytes_lt _ _ _ Hs1 Hl1) as (_ & Hp & _).
    destruct (term_narrow_spec _ _ _ _ Hs1 Hv1) as (s2 & E2 & El2 & Hs2 & Eb).
    { intros ->. rewrite Hl1. change (Z.of_nat (Z.to_nat STREAM_MAXW16_60MS)) with 200.
      unfold nbytes in En. cbn [Z.eqb] in En. lia. }
    rewrite E2. bind_simpl. rewrite En in Eb.
    rewrite (term_length (p + 1) full (n + 2)) by (try lia; unfold nbytes in *; lia).
    eexists. split; [done|]. cbn [e_stream]. split; [congruence|]. split; [done|].
    rewrite Eb. change (2 ^ (32 - 8 * Z.of_nat 2)) with 0x00010000. rewrite HV1.
    replace (2 ^ 32) with (2 ^ 16 * 0x00010000) by done. rewrite Z.mul_assoc, Z.div_add_l by lia. done.
Qed.

(** With 399 bytes in the array and the two-byte ending, [EncTerminate] writes
    one word past its end. *)
Lemma EncTerminate_overrun st V W n : enc_inv st V W n -> (400 < n + term_bytes W)%nat ->
  WebRtcIsacfix_EncTerminate st = None.
Proof.
  intros [Hr HW] Hover. destruct st as [s w v p full]. unfold WebRtcIsacfix_EncTerminate.
  cbn [e_stream e_stream_index e_full e_streamval e_W_upper].
  pose proof (er_W _ _ _ _ Hr) as Ew. cbn in Ew. subst w.
  pose proof (er_n _ _ _ _ Hr) as En. cbn [l_ptr l_full enc_start e_stream_index e_full] in En.
  destruct (nbytes_lt _ _ _ (er_swf _ _ _ _ Hr) (er_len _ _ _ _ Hr)) as (Hn & Hp & Hf).
  cbn [l_ptr l_full enc_start e_stream_index e_full] in Hn, Hp, Hf.
  unfold term_bytes in Hover. destruct (Z.ltb_spec 0x01FFFFFF W) as [Hw|Hw]; [lia|].
  destruct (carry_rel _ V W n 0x00010000 Hr ltac:(lia)) as (s1 & E1 & Hr1).
  cbn [l_stream l_ptr l_full l_val enc_start e_stream e_stream_index e_full e_streamval] in E1.
  cbn zeta. rewrite E1. bind_simpl. specialize (Hr1 0 ltac:(done) ltac:(lia)).
  pose proof (er_len _ _ _ _ Hr1) as Hl1. cbn [l_stream] in Hl1.
  change (Z.to_nat STREAM_MAXW16_60MS) with 200%nat in Hl1.
  unfold nbytes in En, Hn. destruct Hf as [-> | ->]; cbn [Z.eqb] in En; [|lia].
  assert (p = 199) as -> by lia. unfold term_narrow. cbn [Z.eqb negb].
  rewrite cell_Some by lia. bind_simpl. rewrite set_cell_Some by lia. bind_simpl.
  unfold set_cell, cell.
  rewrite (proj2 (lookup_ge_None _ _)); [done|]. rewrite length_insert, Hl1. simpl. lia.
Qed.

(** ** Several calls in a row *)

(** How a group of symbols is decoded: by bisection with the table sizes, or
    by a scan from initial indices. *)
Inductive search_args :=
| Bisect (cdfSize : list Z)
| OneStep (initIndex : list Z).

(** The arguments of one encoder call and of the matching decoder call. *)
Record chunk := mkChunk {
  ck_data : list Z;
  ck_cdf : list (list Z);
  ck_args : search_args
}.

(** The encoder calls of a packet, in order, up to the first error. *)
Fixpoint encode_chunks (st : Bitstr_enc) (cs : list chunk) : option (Z * Bitstr_enc) :=
  match cs with
  | [] => Some (0, st)
  | c :: cs =>
      '(ret, st) ← WebRtcIsacfix_EncHistMulti st (ck_data c) (ck_cdf c);
      if ret =? 0 then encode_chunks st cs else Some (ret, st)
  end.

Definition chunk_syms (c : chunk) : list (Z * Z) := intervals (ck_data c) (ck_cdf c).
Definition total_symbols (cs : list chunk) : nat := list_sum (map (fun c => length (ck_data c)) cs).

Lemma encode_chunks_spec cs : forall st V W n, enc_inv st V W n ->
  Forall (fun c => Forall2 sym_ok (ck_data c) (ck_cdf c)) cs ->
  exists ret st', encode_chunks st cs = Some (ret, st') /\
    ((ret = 0 /\ exists V' W' n', enc_inv st' V' W' n' /\ (n' <= n + 3 * total_symbols cs)%nat /\
        trace V W n (concat (map chunk_syms cs)) V' W' n') \/
     (ret = - ISAC_DISALLOWED_BITSTREAM_LENGTH /\ (400 <= n + 3 * total_symbols cs)%nat)).
Proof.
  induction cs as [|c cs IH]; intros st V W n Hi Hok; unfold total_symbols;
    cbn [encode_chunks map list_sum concat].
  - eexists _, _. split; [done|]. left. split; [done|]. exists V, W, n.
    split; [done|]. split; [simpl; lia|constructor].
  - apply Forall_cons_iff in Hok as [Hc Hok].
    destruct (EncHistMulti_spec st V W n _ _ Hi Hc) as (ret & st1 & -> & Hcase). bind_simpl.
    destruct Hcase as [(-> & V1 & W1 & n1 & Hi1 & Hn1 & Ht1)|(-> & Hn1)].
    + change (0 =? 0) with true. cbv iota.
      destruct (IH _ _ _ _ Hi1 Hok) as (ret & st' & E & Hcase). exists ret, st'. split; [done|].
      unfold total_symbols in Hcase. destruct Hcase as [(-> & V2 & W2 & n2 & Hi2 & Hn2 & Ht2)|(-> & Hn2)].
      * left. split; [done|]. exists V2, W2, n2. split; [done|].
        split; [simpl; lia|].
        eapply trace_app; eauto.
      * right. split; [done|]. simpl. lia.
    + change (- ISAC_DISALLOWED_BITSTREAM_LENGTH =? 0) with false. cbv iota.
      eexists _, _. split; [done|]. right. split; [done|]. simpl. lia.
Qed.
