(* ===== verification/IsacDecoder.v ===== *)
(** The iSAC histogram decoders follow the encoder's interval computation:
    reading a stream whose digits lie in the final interval, they find every
    symbol again, whichever search they use ([CdfSearch]), and stop after the
    same number of bytes.  Ends with the round trip of the coder. *)
From S2P Require Import Prelude SplInl IsacArith IsacStream IsacEncoder.

(** ** Nested intervals *)

(** The first [m] digits lie in the interval [V, V + W]. *)
Definition in_range (s : list Z) (V W : Z) (m : nat) : Prop := V <= bv s m <= V + W.

(** Dropping the last [k] digits of a number in a scaled interval gives a
    number in the unscaled one. *)
Lemma in_range_unscale s V W m k : Forall is_u16 s ->
  in_range s (V * 256 ^ Z.of_nat k) (W * 256 ^ Z.of_nat k) (m + k) -> in_range s V W m.
Proof.
  intros Hs [Hlo Hhi]. destruct (bv_add s m k Hs) as (r & E & Hr). rewrite E in Hlo, Hhi.
  pose proof (pow256_pos k). split; nia.
Qed.

Lemma trace_mono V W n syms V' W' n' : trace V W n syms V' W' n' -> (n <= n')%nat.
Proof. induction 1; lia. Qed.

(** A number in the final interval was in the interval at every earlier
    point. *)
Lemma trace_nested s V W n syms V' W' n' : Forall is_u16 s -> 2 ^ 24 <= W ->
  trace V W n syms V' W' n' -> in_range s V' W' (n' + 4) -> in_range s V W (n + 4).
Proof.
  intros Hs HW Ht. induction Ht as [|V W n cl ch syms k V' W' n' Hc Hch lo hi Hk Hj Ht IH];
    intros Hr; [done|].
  pose proof (narrow W cl ch HW Hc Hch) as (Hlo & Hd & Hhi). fold lo hi in Hlo, Hd, Hhi.
  specialize (IH ltac:(lia) Hr). replace (n + k + 4)%nat with (n + 4 + k)%nat in IH by lia.
  apply in_range_unscale in IH; [|done]. unfold in_range in *. lia.
Qed.

Lemma trace_split s1 : forall s2 V W n V' W' n', trace V W n (s1 ++ s2) V' W' n' ->
  2 ^ 24 <= W ->
  exists V1 W1 n1, trace V W n s1 V1 W1 n1 /\ 2 ^ 24 <= W1 /\ trace V1 W1 n1 s2 V' W' n'.
Proof.
  induction s1 as [|[cl ch] s1 IH]; intros s2 V W n V' W' n' Ht HW.
  - exists V, W, n. split; [constructor|done].
  - inversion Ht as [|? ? ? ? ? ? k ? ? ? Hc Hch lo hi Hk Hj Ht']; subst.
    destruct (IH _ _ _ _ _ _ _ Ht' (proj1 Hk)) as (V1 & W1 & n1 & H1 & H2 & H3).
    exists V1, W1, n1. split; [by econstructor|done].
Qed.

(** ** The decoder's state *)

(** [dec_rel s l V W m]: having read [m] bytes, the decoder holds the offset
    of the digits read in the interval [V, V + W]. *)
Record dec_rel (s : list Z) (l : dec_loop) (V W : Z) (m : nat) : Prop := {
  dr_full : dl_full l = 0 \/ dl_full l = 1;
  dr_ptr : 0 <= dl_ptr l;
  dr_m : nbytes (dl_ptr l) (dl_full l) = m;
  dr_val : dl_val l = bv s m - V;
  dr_W : dl_W l = W;
  dr_Wr : is_u32 W;
  dr_in : in_range s V W m
}.

(** Appending the next byte to [streamval]. *)
Lemma shift_in v b : 0 <= v < 2 ^ 24 -> 0 <= b < 256 -> Z.lor (u32 (v ≪ 8)) b = v * 256 + b.
Proof.
  intros Hv Hb. rewrite Z.shiftl_mul_pow2 by lia. change (2 ^ 8) with 256.
  rewrite u32_id by (unfold is_u32; lia). apply lor_disjoint with 8; [lia| |done].
  apply Z.mod_mul. lia.
Qed.

Lemma scale_S X k : X * 256 ^ Z.of_nat (S k) = X * 256 * 256 ^ Z.of_nat k.
Proof. rewrite pow256_S. ring. Qed.

(** The renormalisation loop reads the [k] bytes the encoder wrote. *)
Lemma dec_renorm_spec s k : Forall is_u16 s -> forall fuel l V W m,
  dec_rel s l V W m ->
  in_range s (V * 256 ^ Z.of_nat k) (W * 256 ^ Z.of_nat k) (m + k) ->
  2 ^ 24 <= W * 256 ^ Z.of_nat k < 2 ^ 32 ->
  (forall j, (j < k)%nat -> W * 256 ^ Z.of_nat j < 2 ^ 24) ->
  (m + k <= 2 * length s)%nat -> (k <= fuel)%nat ->
  exists l', dec_renorm fuel s l = Some l' /\
    dec_rel s l' (V * 256 ^ Z.of_nat k) (W * 256 ^ Z.of_nat k) (m + k).
Proof.
  intros Hs. induction k as [|k IH]; intros fuel l V W m Hr Hin Hk Hj Hlen Hf.
  - exists l. change (256 ^ Z.of_nat 0) with 1 in *. rewrite !Z.mul_1_r, Nat.add_0_r in *.
    split; [|done]. destruct fuel; cbn [dec_renorm];
      rewrite (dr_W _ _ _ _ _ Hr), W_small_spec by apply Hr;
      by rewrite (proj2 (Z.ltb_ge W (2 ^ 24))) by lia.
  - destruct fuel as [|fuel]; [lia|]. cbn [dec_renorm].
    pose proof (Hj 0%nat ltac:(lia)) as Hsm. change (256 ^ Z.of_nat 0) with 1 in Hsm.
    rewrite Z.mul_1_r in Hsm.
    rewrite (dr_W _ _ _ _ _ Hr), W_small_spec, (proj2 (Z.ltb_lt W (2 ^ 24))) by (try done; apply Hr).
    rewrite !(scale_S V), !(scale_S W) in Hin |- *. rewrite !scale_S in Hk.
    replace (m + S k)%nat with (S m + k)%nat in Hin, Hlen |- * by lia.
    destruct Hr as [Hfu Hp Hm Hv HW HWr Hi]. unfold is_u32 in HWr.
    assert (0 <= dl_val l < 2 ^ 24) as Hvr by (unfold in_range in Hi; lia).
    pose proof (in_range_unscale s _ _ (S m) k Hs Hin) as Hin'.
    assert (u32 (W ≪ 8) = W * 256) as EW.
    { rewrite Z.shiftl_mul_pow2 by lia. apply u32_id. unfold is_u32. lia. }
    assert (dl_ptr l < Z.of_nat (length s)) as Hpl.
    { unfold nbytes in Hm. destruct (dl_full l =? 0); lia. }
    rewrite cell_Some by lia. bind_simpl. set (P := Z.to_nat (dl_ptr l)) in *.
    pose proof (nth_u16 s P Hs) as Hc. unfold is_u16 in Hc.
    pose proof (bv_S s m) as HbS. unfold nbytes in Hm. fold P in Hm.
    apply IH; auto; try lia; [|intros j Hjk; rewrite <-Z.mul_assoc, <-pow256_S; apply Hj; lia].
    destruct Hfu as [E | E]; rewrite E in *; cbn [Z.eqb] in *.
    + rewrite <-Hm, Nat.add_1_r, byteat_odd in HbS.
      constructor; cbn [dl_ptr dl_full dl_val dl_W]; auto; try lia; [| |unfold is_u32; lia].
      * unfold nbytes. cbn [Z.eqb]. lia.
      * change 0x00FF with (2 ^ 8 - 1). rewrite land_ones_mod by lia.
        rewrite shift_in by (try done; apply Z.mod_pos_bound; lia).
        rewrite <-Hm, Nat.add_1_r, HbS, Hv, <-Hm, Nat.add_1_r. change (2 ^ 8) with 256. lia.
    + rewrite <-Hm, Nat.add_0_r, byteat_even in HbS.
      constructor; cbn [dl_ptr dl_full dl_val dl_W]; auto; try lia; [| |unfold is_u32; lia].
      * unfold nbytes. cbn [Z.eqb]. lia.
      * rewrite shiftr_div by lia. change (2 ^ 8) with 256.
        rewrite shift_in by (try done; Z.div_mod_to_equations; lia).
        rewrite <-Hm, Nat.add_0_r, HbS, Hv, <-Hm, Nat.add_0_r. lia.
Qed.

(** One symbol with interval [cl, ch): the value held lies inside it, and
    moving to it and renormalising follows the encoder. *)
Lemma decode_interval s l cl ch V W n syms V' W' n' :
  Forall is_u16 s -> 2 ^ 24 <= W -> trace V W n ((cl, ch) :: syms) V' W' n' ->
  dec_rel s l V W (n + 4) -> in_range s V' W' (n' + 4) -> (n' + 4 <= 2 * length s)%nat ->
  let lo := W_scale W cl in
  let hi := W_scale W ch in
  lo < dl_val l <= hi /\ exists l1 V1 W1 n1,
    dec_renorm (dec_fuel s) s (mkDLoop (dl_ptr l) (dl_full l)
      (u32 (dl_val l - u32 (lo + 1))) (u32 (hi - u32 (lo + 1)))) = Some l1 /\
    dec_rel s l1 V1 W1 (n1 + 4) /\ 2 ^ 24 <= W1 /\ trace V1 W1 n1 syms V' W' n'.
Proof.
  intros Hs HW Ht Hr Hin Hlen.
  inversion Ht as [|? ? ? ? ? ? k ? ? ? Hc Hch lo hi Hk Hj Ht']; subst.
  pose proof (narrow W _ _ HW Hc Hch) as (Hlo & Hd & Hhi). fold lo hi in Hlo, Hd, Hhi.
  pose proof (trace_mono _ _ _ _ _ _ _ Ht') as Hmono.
  pose proof (trace_nested s _ _ _ _ _ _ _ Hs (proj1 Hk) Ht' Hin) as Hin1.
  replace (n + k + 4)%nat with (n + 4 + k)%nat in Hin1 by lia.
  pose proof (in_range_unscale s _ _ _ _ Hs Hin1) as Hin0.
  pose proof Hr as [Hfu Hp Hm Hv HWe HWr _]. pose proof HWr as HWr'. unfold is_u32 in HWr'.
  assert (W_scale W cl = lo /\ W_scale W ch = hi) as [-> ->].
  { split; apply W_scale_eq; try done; unfold is_u16; lia. }
  assert (lo + 1 <= dl_val l <= hi) as Hvr by (unfold in_range in Hin0; lia).
  cbn zeta. split; [lia|]. rewrite (u32_id (lo + 1)) by (unfold is_u32; lia).
  rewrite !u32_id by (unfold is_u32; lia).
  destruct (dec_renorm_spec s k Hs (dec_fuel s)
    (mkDLoop (dl_ptr l) (dl_full l) (dl_val l - (lo + 1)) (hi - (lo + 1)))
    (V + lo + 1) (hi - lo - 1) (n + 4)) as (l1 & E & Hr1); try done.
  - constructor; cbn [dl_ptr dl_full dl_val dl_W]; auto; try lia. unfold is_u32; lia.
  - lia.
  - unfold dec_fuel. lia.
  - exists l1, ((V + lo + 1) * 256 ^ Z.of_nat k), ((hi - lo - 1) * 256 ^ Z.of_nat k), (n + k)%nat.
    split; [done|]. split; [by replace (n + k + 4)%nat with (n + 4 + k)%nat by lia|].
    split; [lia|done].
Qed.

(** ** Searching a cdf table *)

(** What a decoder needs from its search: given a value in the interval of
    [x], find [x] and the interval's ends. *)
Class CdfSearch {P : Type} (find : P -> list Z -> Z -> Z -> option (Z * Z * Z))
    (ok : P -> Z -> list Z -> Prop) : Prop := {
  search_sym p x tbl : ok p x tbl -> sym_ok x tbl;
  search_found p x tbl W v : ok p x tbl -> is_u32 W ->
    W_scale W (arr tbl x) < v <= W_scale W (arr tbl (x + 1)) ->
    find p tbl W v = Some (x, W_scale W (arr tbl x), W_scale W (arr tbl (x + 1)))
}.

Section DecodeSymbol.
Context {P : Type} {find : P -> list Z -> Z -> Z -> option (Z * Z * Z)}.
Context {ok : P -> Z -> list Z -> Prop} {CS : CdfSearch find ok}.

(** One symbol of a decoder with any correct search. *)
Lemma decode_symbol s l p x tbl V W n syms V' W' n' :
  Forall is_u16 s -> 2 ^ 24 <= W -> ok p x tbl ->
  trace V W n ((arr tbl x, arr tbl (x + 1)) :: syms) V' W' n' ->
  dec_rel s l V W (n + 4) -> in_range s V' W' (n' + 4) -> (n' + 4 <= 2 * length s)%nat ->
  exists lo hi l1 V1 W1 n1,
    find p tbl W (dl_val l) = Some (x, lo, hi) /\
    dec_renorm (dec_fuel s) s (mkDLoop (dl_ptr l) (dl_full l)
      (u32 (dl_val l - u32 (lo + 1))) (u32 (hi - u32 (lo + 1)))) = Some l1 /\
    dec_rel s l1 V1 W1 (n1 + 4) /\ 2 ^ 24 <= W1 /\ trace V1 W1 n1 syms V' W' n'.
Proof.
  intros Hs HW Hok Ht Hr Hin Hlen.
  destruct (decode_interval s l _ _ V W n syms V' W' n' Hs HW Ht Hr Hin Hlen)
    as (Hv & l1 & V1 & W1 & n1 & H).
  eexists _, _, l1, V1, W1, n1. split; [|exact H].
  apply search_found; [done|exact (dr_Wr _ _ _ _ _ Hr)|done].
Qed.
End DecodeSymbol.

Lemma W_scale_mono W tbl i j : is_u32 W -> Forall is_u16 tbl -> sortedb tbl = true ->
  0 <= i <= j -> j < Z.of_nat (length tbl) ->
  W_scale W (arr tbl i) <= W_scale W (arr tbl j).
Proof.
  intros HW Hu Hs Hij Hj. pose proof (sortedb_arr tbl i j Hs Hij Hj).
  rewrite !W_scale_eq by (done || (apply arr_Forall; [unfold is_u16; lia|done])).
  unfold is_u32 in HW. apply Z.div_le_mono; nia.
Qed.

(** The position test of both searches. *)
Lemma scale_ltb W tbl x v i : is_u32 W -> Forall is_u16 tbl -> sortedb tbl = true ->
  0 <= x -> x + 1 < Z.of_nat (length tbl) -> 0 <= i < Z.of_nat (length tbl) ->
  W_scale W (arr tbl x) < v <= W_scale W (arr tbl (x + 1)) ->
  (W_scale W (arr tbl i) <? v) = (i <=? x).
Proof.
  intros HW Hu Hs Hx Hl Hi Hv. destruct (Z.leb_spec i x).
  - apply Z.ltb_lt. pose proof (W_scale_mono W tbl i x HW Hu Hs). lia.
  - apply Z.ltb_ge. pose proof (W_scale_mono W tbl (x + 1) i HW Hu Hs). lia.
Qed.

(** *** Bisection *)

(** [size] is a power of two, the table has at least [size - 1] entries and
    the symbol's upper entry is one the search can compare with. *)
Definition bisect_ok (size x : Z) (tbl : list Z) : Prop :=
  sym_ok x tbl /\ sortedb tbl = true /\ size = 2 ^ Z.log2 size /\ 2 <= size < 2 ^ 15 /\
  size - 1 <= Z.of_nat (length tbl) /\ x + 2 < size.

(** The call [WebRtcIsacfix_DecHistBisectMulti] makes; [W_lower] is what the
    previous symbol left. *)
Definition bisect_find (p : Z * Z) (tbl : list Z) (W v : Z) : option (Z * Z * Z) :=
  let sizeTmp := i16 (Z.quot p.1 2) in
  bisect bisect_fuel tbl W v sizeTmp (sizeTmp - 1) p.2 W.

(** The window [i - 2^j .. i + 2^j] always contains the symbol, and its ends
    have been compared unless they lie outside the table. *)
Lemma bisect_window j : forall fuel tbl W v size x i lo hi,
  sym_ok x tbl -> sortedb tbl = true -> is_u32 W ->
  W_scale W (arr tbl x) < v <= W_scale W (arr tbl (x + 1)) ->
  size - 1 <= Z.of_nat (length tbl) -> x + 2 < size ->
  let sz := 2 ^ Z.of_nat j in
  -1 <= i - sz <= x -> x < i + sz <= size - 1 ->
  (i - sz = -1 \/ lo = W_scale W (arr tbl (i - sz))) ->
  (i + sz = size - 1 \/ hi = W_scale W (arr tbl (i + sz))) ->
  (j <= fuel)%nat ->
  bisect fuel tbl W v sz i lo hi
  = Some (x, W_scale W (arr tbl x), W_scale W (arr tbl (x + 1))).
Proof.
  induction j as [|j IH]; intros fuel tbl W v size x i lo hi Hx Hs HW Hv Hlen Hxs sz Hl Hr Hlo Hhi Hf.
  - change sz with 1 in *. destruct Hx as (Hu & Hxr & Hxl & Hlt).
    assert (cell tbl i = Some (arr tbl i)) as Ec by (apply cell_arr; lia).
    pose proof (scale_ltb W tbl x v i HW Hu Hs ltac:(lia) Hxl ltac:(lia) Hv) as Et.
    destruct fuel; cbn [bisect]; rewrite Ec; bind_simpl; change (Z.quot 1 2 =? 0) with true;
      cbv iota; rewrite Et; destruct (Z.leb_spec i x).
    + assert (i = x) as -> by lia. destruct Hhi as [Hhi|Hhi]; [lia|congruence].
    + assert (i = x + 1) as -> by lia. destruct Hlo as [Hlo|Hlo]; [lia|].
      replace (x + 1 - 1) with x in * by lia. congruence.
    + assert (i = x) as -> by lia. destruct Hhi as [Hhi|Hhi]; [lia|congruence].
    + assert (i = x + 1) as -> by lia. destruct Hlo as [Hlo|Hlo]; [lia|].
      replace (x + 1 - 1) with x in * by lia. congruence.
  - destruct fuel as [|fuel]; [lia|]. pose proof Hx as (Hu & Hxr & Hxl & Hlt).
    assert (sz = 2 * 2 ^ Z.of_nat j) as Esz
      by (unfold sz; rewrite Nat2Z.inj_succ, Z.pow_succ_r by lia; done).
    assert (0 < 2 ^ Z.of_nat j) as Hpos by (apply Z.pow_pos_nonneg; lia).
    assert (Z.quot sz 2 = 2 ^ Z.of_nat j) as Eq.
    { rewrite Esz, Z.mul_comm. apply Z.quot_mul. lia. }
    cbn [bisect]. rewrite cell_arr by lia. bind_simpl.
    rewrite Eq, (proj2 (Z.eqb_neq _ 0)) by lia.
    rewrite (scale_ltb W tbl x v i HW Hu Hs) by (try done; lia).
    destruct (Z.leb_spec i x).
    + apply (IH fuel tbl W v size); try done; try lia.
      * right. f_equal. f_equal. lia.
      * replace (i + 2 ^ Z.of_nat j + 2 ^ Z.of_nat j) with (i + sz) by lia. done.
    + apply (IH fuel tbl W v size); try done; try lia.
      * replace (i - 2 ^ Z.of_nat j - 2 ^ Z.of_nat j) with (i - sz) by lia. done.
      * right. f_equal. f_equal. lia.
Qed.

#[export] Instance bisect_search :
  CdfSearch bisect_find (fun p x tbl => bisect_ok p.1 x tbl).
Proof.
  split; [by intros p x tbl (H & _)|].
  intros [size lo0] x tbl W v (Hx & Hs & Hpow & Hsz & Hlen & Hxs) HW Hv.
  cbn [fst] in *. unfold bisect_find. cbn [fst snd].
  pose proof (Z.log2_nonneg size). assert (1 <= Z.log2 size) by (apply Z.log2_le_pow2; lia).
  assert (Z.log2 size < 15) by (apply Z.log2_lt_pow2; lia).
  assert (size = 2 * 2 ^ (Z.log2 size - 1)) as Eh.
  { rewrite <-Z.pow_succ_r by lia. by replace (Z.succ (Z.log2 size - 1)) with (Z.log2 size) by lia. }
  set (h := 2 ^ (Z.log2 size - 1)) in *. assert (Z.quot size 2 = h) as Eq.
  { rewrite Eh, Z.mul_comm. apply Z.quot_mul. lia. }
  rewrite Eq, i16_id by (unfold is_i16; lia).
  replace h with (2 ^ Z.of_nat (Z.to_nat (Z.log2 size - 1))) by (rewrite Z2Nat.id by lia; done).
  pose proof Hx as (_ & Hxr & Hxl & _).
  apply (bisect_window _ bisect_fuel tbl W v size); try done; rewrite ?Z2Nat.id by lia; fold h; try lia.
  unfold bisect_fuel. lia.
Qed.

(** *** Linear scan from an initial index *)

Definition onestep_ok (init x : Z) (tbl : list Z) : Prop :=
  sym_ok x tbl /\ sortedb tbl = true /\ 0 <= init < Z.of_nat (length tbl).

Definition onestep_find (init : Z) (tbl : list Z) (W v : Z) : option (Z * Z * Z) :=
  match one_step tbl W v init with
  | Some (inr r) => Some r
  | _ => None
  end.

Section Scan.
Context (tbl : list Z) (W v x : Z).
Context (Hx : sym_ok x tbl) (Hs : sortedb tbl = true) (HW : is_u32 W).
Context (Hv : W_scale W (arr tbl x) < v <= W_scale W (arr tbl (x + 1))).

Let found := Some (inr (A := unit) (x, W_scale W (arr tbl x), W_scale W (arr tbl (x + 1)))).

Lemma step_up_found fuel : forall i, 0 <= i <= x -> (Z.to_nat (x - i) < fuel)%nat ->
  step_up fuel tbl W v i (W_scale W (arr tbl i)) = found.
Proof.
  induction fuel as [|fuel IH]; intros i Hi Hf; [lia|]. cbn [step_up].
  destruct Hx as (Hu & Hxr & Hxl & Hlt). rewrite !cell_arr by lia. bind_simpl.
  assert (arr tbl i =? 65535 = false) as ->.
  { apply Z.eqb_neq. pose proof (sortedb_arr tbl i x Hs). pose proof
      (arr_Forall is_u16 tbl (x + 1) ltac:(unfold is_u16; lia) Hu) as H1. unfold is_u16 in H1. lia. }
  rewrite Z.leb_antisym, (scale_ltb W tbl x v (i + 1)) by (try done; lia).
  destruct (Z.leb_spec (i + 1) x); cbn [negb].
  - apply IH; lia.
  - assert (i = x) as -> by lia. done.
Qed.

Lemma step_down_found fuel : forall i, x < i <= Z.of_nat (length tbl) - 1 ->
  (Z.to_nat (i - x) <= fuel)%nat ->
  step_down fuel tbl W v i (W_scale W (arr tbl i)) = found.
Proof.
  induction fuel as [|fuel IH]; intros i Hi Hf; [lia|]. cbn [step_down].
  destruct Hx as (Hu & Hxr & Hxl & Hlt). rewrite (proj2 (Z.ltb_ge (i - 1) 0)) by lia.
  rewrite cell_arr by lia. bind_simpl.
  rewrite (scale_ltb W tbl x v (i - 1)) by (try done; lia).
  destruct (Z.leb_spec (i - 1) x).
  - assert (i = x + 1) as -> by lia. by replace (x + 1 - 1) with x by lia.
  - apply IH; lia.
Qed.

Lemma one_step_found init : 0 <= init < Z.of_nat (length tbl) -> one_step tbl W v init = found.
Proof.
  intros Hi. unfold one_step. rewrite cell_arr by done. bind_simpl.
  pose proof Hx as (Hu & Hxr & Hxl & Hlt).
  rewrite (scale_ltb W tbl x v init) by (try done; lia).
  destruct (Z.leb_spec init x).
  - apply step_up_found; lia.
  - apply step_down_found; lia.
Qed.
End Scan.

#[export] Instance onestep_search : CdfSearch onestep_find onestep_ok.
Proof.
  split; [by intros p x tbl (H & _)|]. intros init x tbl W v (Hx & Hs & Hi) HW Hv.
  unfold onestep_find. by rewrite (one_step_found tbl W v x Hx Hs HW Hv init Hi).
Qed.

(** ** The symbol loops *)

Section Loops.
Context (s : list Z) (Hs : Forall is_u16 s).

(** The first symbol of each loop. *)
Lemma dec_bisect_loop_cons l W_lower tbl cdf size sizes n :
  dec_bisect_loop s l W_lower (tbl :: cdf) (size :: sizes) (S n)
  = '(x, lo, hi) ← bisect_find (size, W_lower) tbl (dl_W l) (dl_val l);
    l ← dec_renorm (dec_fuel s) s (mkDLoop (dl_ptr l) (dl_full l)
          (u32 (dl_val l - u32 (lo + 1))) (u32 (hi - u32 (lo + 1))));
    if dl_W l =? 0 then Some ([i16 x], inl l)
    else
      '(xs, r) ← dec_bisect_loop s l (u32 (lo + 1)) cdf sizes n;
      Some (i16 x :: xs, r).
Proof.
  unfold bisect_find. cbn [dec_bisect_loop fst snd]. set (f := bisect_fuel). clearbody f. reflexivity.
Qed.

Lemma dec_onestep_loop_cons l tbl cdf init inits n x lo hi :
  onestep_find init tbl (dl_W l) (dl_val l) = Some (x, lo, hi) ->
  dec_onestep_loop s l (tbl :: cdf) (init :: inits) (S n)
  = l ← dec_renorm (dec_fuel s) s (mkDLoop (dl_ptr l) (dl_full l)
          (u32 (dl_val l - u32 (lo + 1))) (u32 (hi - u32 (lo + 1))));
    '(xs, r) ← dec_onestep_loop s l cdf inits n;
    Some (i16 x :: xs, r).
Proof.
  unfold onestep_find. intros E. cbn [dec_onestep_loop].
  destruct (one_step tbl (dl_W l) (dl_val l) init) as [[|[[? ?] ?]]|]; try done.
  injection E as -> -> ->. done.
Qed.

Lemma dec_bisect_loop_spec data : forall cdf sizes l W_lower V W n V' W' n',
  Forall3 (fun x tbl size => bisect_ok size x tbl) data cdf sizes -> 2 ^ 24 <= W ->
  trace V W n (intervals data cdf) V' W' n' -> dec_rel s l V W (n + 4) ->
  in_range s V' W' (n' + 4) -> (n' + 4 <= 2 * length s)%nat ->
  exists l', dec_bisect_loop s l W_lower cdf sizes (length data) = Some (data, inr l') /\
    dec_rel s l' V' W' (n' + 4) /\ 2 ^ 24 <= W'.
Proof.
  induction data as [|x data IH]; intros cdf sizes l W_lower V W n V' W' n' Hok HW Ht Hr Hin Hlen.
  - inversion Hok; inversion Ht; subst. exists l. done.
  - inversion Hok as [|? tbl size ? cdf' sizes' Hx Hok']; subst. simpl intervals in Ht.
    destruct (decode_symbol (find := bisect_find) s l (size, W_lower) x tbl _ _ _ _ _ _ _ Hs HW Hx Ht Hr Hin Hlen)
      as (lo & hi & l1 & V1 & W1 & n1 & E1 & E2 & Hr1 & HW1 & Ht1).
    cbn [length]. rewrite dec_bisect_loop_cons, (dr_W _ _ _ _ _ Hr), E1. bind_simpl.
    rewrite E2. bind_simpl.
    rewrite (dr_W _ _ _ _ _ Hr1), (proj2 (Z.eqb_neq W1 0)) by lia.
    destruct (IH cdf' sizes' l1 (u32 (lo + 1)) _ _ _ _ _ _ Hok' HW1 Ht1 Hr1 Hin Hlen) as (l' & -> & Hl').
    bind_simpl. exists l'. destruct Hx as ((_ & Hxr & _) & _).
    rewrite i16_id by (unfold is_i16; lia). done.
Qed.

Lemma dec_onestep_loop_spec data : forall cdf inits l V W n V' W' n',
  Forall3 (fun x tbl init => onestep_ok init x tbl) data cdf inits -> 2 ^ 24 <= W ->
  trace V W n (intervals data cdf) V' W' n' -> dec_rel s l V W (n + 4) ->
  in_range s V' W' (n' + 4) -> (n' + 4 <= 2 * length s)%nat ->
  exists l', dec_onestep_loop s l cdf inits (length data) = Some (data, inr l') /\
    dec_rel s l' V' W' (n' + 4) /\ 2 ^ 24 <= W'.
Proof.
  induction data as [|x data IH]; intros cdf inits l V W n V' W' n' Hok HW Ht Hr Hin Hlen.
  - inversion Hok; inversion Ht; subst. exists l. done.
  - inversion Hok as [|? tbl init ? cdf' inits' Hx Hok']; subst. simpl intervals in Ht.
    destruct (decode_symbol (find := onestep_find) s l init x tbl _ _ _ _ _ _ _ Hs HW Hx Ht Hr Hin Hlen)
      as (lo & hi & l1 & V1 & W1 & n1 & E1 & E2 & Hr1 & HW1 & Ht1).
    rewrite <-(dr_W _ _ _ _ _ Hr) in E1. cbn [length].
    rewrite (dec_onestep_loop_cons _ _ _ _ _ _ _ _ _ E1), E2. bind_simpl.
    destruct (IH cdf' inits' l1 _ _ _ _ _ _ Hok' HW1 Ht1 Hr1 Hin Hlen) as (l' & -> & Hl').
    bind_simpl. exists l'. destruct Hx as ((_ & Hxr & _) & _).
    rewrite i16_id by (unfold is_i16; lia). done.
Qed.
End Loops.

(** ** The decoder between calls *)

(** Either nothing has been read yet, or the struct holds the loop state. *)
Definition dec_inv (st : Bitstr_dec) (V W : Z) (n : nat) : Prop :=
  d_W_upper st = W /\ 2 ^ 24 <= W /\
  ((d_stream_index st = 0 /\ d_full st = 1 /\ V = 0 /\ W = 2 ^ 32 - 1 /\ n = 0%nat) \/
   (d_stream_index st <> 0 /\
    dec_rel (d_stream st) (mkDLoop (d_stream_index st) (d_full st) (d_streamval st) W) V W (n + 4))).

Lemma dec_start_spec st V W n : Forall is_u16 (d_stream st) -> (2 <= length (d_stream st))%nat ->
  dec_inv st V W n ->
  exists l, dec_start st = Some l /\ dec_rel (d_stream st) l V W (n + 4).
Proof.
  intros Hs Hl (HW & HWr & [(Hi & Hf & -> & -> & ->)|(Hi & Hr)]); unfold dec_start; rewrite HW.
  - rewrite (proj2 (Z.eqb_eq _ _) Hi). rewrite !cell_Some by lia. bind_simpl.
    eexists. split; [done|]. change (Z.to_nat 0) with 0%nat. change (Z.to_nat 1) with 1%nat.
    pose proof (nth_u16 (d_stream st) 0 Hs) as H0. pose proof (nth_u16 (d_stream st) 1 Hs) as H1.
    unfold is_u16 in *.
    assert (bv (d_stream st) 4 = nth 0 (d_stream st) 0 * 2 ^ 16 + nth 1 (d_stream st) 0) as Eb.
    { change 4%nat with (2 * S 1)%nat. rewrite bv_word. change (2 * 1)%nat with (2 * S 0)%nat.
      rewrite bv_word. change (bv (d_stream st) (2 * 0)) with 0. lia. }
    constructor; cbn [dl_ptr dl_full dl_val dl_W]; rewrite ?Hf; auto; try lia.
    + rewrite Z.shiftl_mul_pow2, u32_id by (unfold is_u32; lia).
      change (0 + 4)%nat with 4%nat. rewrite Eb.
      rewrite (lor_disjoint _ _ 16); [lia|lia|apply Z.mod_mul; lia|done].
    + unfold is_u32. lia.
    + unfold in_range. change (0 + 4)%nat with 4%nat. rewrite Eb. lia.
  - rewrite (proj2 (Z.eqb_neq _ _) Hi). eexists. split; [done|]. done.
Qed.

(** The epilogue keeps the state and returns the terminated length. *)
Lemma dec_store_spec st l V W n : length (d_stream st) = Z.to_nat INTERNAL_STREAM_SIZE_W16 ->
  dec_rel (d_stream st) l V W (n + 4) -> 2 ^ 24 <= W -> (n + 4 <= 2 * length (d_stream st))%nat ->
  dec_length l = Z.of_nat (n + term_bytes W) /\ (n + term_bytes W < 1000)%nat /\
  d_stream (dec_store st l) = d_stream st /\ dec_inv (dec_store st l) V W n.
Proof.
  intros Hl Hr HW Hn. change (Z.to_nat INTERNAL_STREAM_SIZE_W16) with 305%nat in Hl.
  pose proof (dr_m _ _ _ _ _ Hr) as Hm. pose proof (dr_ptr _ _ _ _ _ Hr) as Hp.
  pose proof (dr_full _ _ _ _ _ Hr) as Hf. unfold nbytes in Hm.
  assert (u16 (dl_ptr l) = dl_ptr l) as Eu.
  { apply u16_id. unfold is_u16. destruct (dl_full l =? 0); lia. }
  unfold dec_length, dec_store. rewrite Eu, (dr_W _ _ _ _ _ Hr). split; [|split].
  - unfold term_bytes. destruct (0x01FFFFFF <? W), (dl_full l =? 0); lia.
  - unfold term_bytes. destruct (0x01FFFFFF <? W); lia.
  - split; [done|]. split; [done|]. split; [done|]. right.
    cbn [d_stream_index d_stream d_full d_streamval d_W_upper].
    split; [destruct (dl_full l =? 0); lia|]. destruct l, Hr; cbn in *; subst. constructor; cbn; auto.
Qed.

Lemma dec_finish_spec st l V W n : length (d_stream st) = Z.to_nat INTERNAL_STREAM_SIZE_W16 ->
  dec_rel (d_stream st) l V W (n + 4) -> 2 ^ 24 <= W -> (n + 4 <= 2 * length (d_stream st))%nat ->
  exists st', dec_finish st l = (Z.of_nat (n + term_bytes W), st') /\
    d_stream st' = d_stream st /\ d_stream_size st' = d_stream_size st /\ dec_inv st' V W n.
Proof.
  intros Hl Hr HW Hn. destruct (dec_store_spec st l V W n Hl Hr HW Hn) as (E & Hb & H).
  unfold dec_finish. rewrite E, i16_id by (unfold is_i16; lia). eexists. split; [done|].
  split; [done|]. split; [done|]. apply H.
Qed.

Definition decode_chunk (st : Bitstr_dec) (c : chunk) : option (list Z * Z * Bitstr_dec) :=
  let len := Z.of_nat (length (ck_data c)) in
  match ck_args c with
  | Bisect cdfSize => WebRtcIsacfix_DecHistBisectMulti st (ck_cdf c) cdfSize len
  | OneStep initIndex => WebRtcIsacfix_DecHistOneStepMulti st (ck_cdf c) initIndex len
  end.

(** The decoder calls of a packet, up to the first error: the symbols of each
    call and the last return value. *)
Fixpoint decode_chunks (st : Bitstr_dec) (cs : list chunk) (ret : Z)
  : option (list (list Z) * Z * Bitstr_dec) :=
  match cs with
  | [] => Some ([], ret, st)
  | c :: cs =>
      '(xs, ret, st) ← decode_chunk st c;
      if ret <? 0 then Some ([xs], ret, st)
      else
        '(xss, ret, st) ← decode_chunks st cs ret;
        Some (xs :: xss, ret, st)
  end.

Definition chunk_ok (c : chunk) : Prop :=
  match ck_args c with
  | Bisect sizes => Forall3 (fun x tbl size => bisect_ok size x tbl) (ck_data c) (ck_cdf c) sizes
  | OneStep inits => Forall3 (fun x tbl init => onestep_ok init x tbl) (ck_data c) (ck_cdf c) inits
  end.

Lemma chunk_ok_syms c : chunk_ok c -> Forall2 sym_ok (ck_data c) (ck_cdf c).
Proof.
  unfold chunk_ok, bisect_ok, onestep_ok.
  destruct (ck_args c); induction 1 as [|??????[? _]]; by constructor.
Qed.

Section Packet.
Context (ds : list Z) (Hds : Forall is_u16 ds).
Context (Hlen : length ds = Z.to_nat INTERNAL_STREAM_SIZE_W16).

Lemma decode_chunk_spec st c V W n V' W' n' : d_stream st = ds -> dec_inv st V W n ->
  chunk_ok c -> trace V W n (chunk_syms c) V' W' n' ->
  in_range ds V' W' (n' + 4) -> (n' + 4 <= 2 * length ds)%nat ->
  exists st', decode_chunk st c = Some (ck_data c, Z.of_nat (n' + term_bytes W'), st') /\
    d_stream st' = ds /\ d_stream_size st' = d_stream_size st /\ dec_inv st' V' W' n'.
Proof.
  intros Est Hi Hok Ht Hin Hn.
  assert (2 <= length ds)%nat as Hl2 by (rewrite Hlen; unfold INTERNAL_STREAM_SIZE_W16, STREAM_MAXW16; lia).
  destruct (dec_start_spec st V W n ltac:(by rewrite Est) ltac:(by rewrite Est) Hi) as (l & E & Hr).
  destruct Hi as (HW & HWr & _). unfold decode_chunk, chunk_ok in *. rewrite Est in Hr.
  destruct (ck_args c) as [sizes|inits].
  - destruct (dec_bisect_loop_spec ds Hds _ _ _ l 0 _ _ _ _ _ _ Hok HWr Ht Hr Hin Hn) as (l' & E' & Hr' & HW').
    unfold WebRtcIsacfix_DecHistBisectMulti. rewrite HW, (proj2 (Z.eqb_neq W 0)) by lia.
    rewrite E, Nat2Z.id, Est. bind_simpl. rewrite E'. bind_simpl.
    destruct (dec_finish_spec st l' V' W' n') as (st' & -> & Est' & Hz' & Hi'); rewrite ?Est; try done.
    exists st'. rewrite Est', Est. done.
  - destruct (dec_onestep_loop_spec ds Hds _ _ _ l _ _ _ _ _ _ Hok HWr Ht Hr Hin Hn) as (l' & E' & Hr' & HW').
    unfold WebRtcIsacfix_DecHistOneStepMulti. rewrite HW, (proj2 (Z.eqb_neq W 0)) by lia.
    rewrite E, Nat2Z.id, Est. bind_simpl. rewrite E'. bind_simpl.
    destruct (dec_finish_spec st l' V' W' n') as (st' & -> & Est' & Hz' & Hi'); rewrite ?Est; try done.
    exists st'. rewrite Est', Est. done.
Qed.

Lemma decode_chunks_spec cs : forall st V W n V' W' n' ret, d_stream st = ds -> dec_inv st V W n ->
  Forall chunk_ok cs -> trace V W n (concat (map chunk_syms cs)) V' W' n' ->
  in_range ds V' W' (n' + 4) -> (n' + 4 <= 2 * length ds)%nat ->
  (cs = [] -> ret = Z.of_nat (n' + term_bytes W')) ->
  exists st', decode_chunks st cs ret
    = Some (map ck_data cs, Z.of_nat (n' + term_bytes W'), st') /\
    d_stream st' = ds /\ d_stream_size st' = d_stream_size st /\ dec_inv st' V' W' n'.
Proof.
  induction cs as [|c cs IH]; intros st V W n V' W' n' ret Est Hi Hok Ht Hin Hn Hret.
  - rewrite Hret by done. inversion Ht; subst. eexists. done.
  - apply Forall_cons_iff in Hok as [Hc Hok]. simpl in Ht.
    destruct (trace_split _ _ _ _ _ _ _ _ Ht (proj1 (proj2 Hi))) as (V1 & W1 & n1 & Ht1 & HW1 & Ht2).
    pose proof (trace_mono _ _ _ _ _ _ _ Ht2).
    pose proof (trace_nested ds _ _ _ _ _ _ _ Hds HW1 Ht2 Hin) as Hin1.
    destruct (decode_chunk_spec st c _ _ _ _ _ _ Est Hi Hc Ht1 Hin1 ltac:(lia)) as (st1 & E1 & Est1 & Hz1 & Hi1).
    cbn [decode_chunks map]. rewrite E1. bind_simpl. rewrite (proj2 (Z.ltb_ge _ 0)) by lia.
    destruct (IH st1 _ _ _ _ _ _ (Z.of_nat (n1 + term_bytes W1)) Est1 Hi1 Hok Ht2 Hin Hn)
      as (st' & -> & Est' & Hz' & Hi'); [|eexists; split; [done|]; split; [done|]; by rewrite Hz', Hz1].
    intros ->. inversion Ht2; subst. done.
Qed.
End Packet.

(** A terminated stream and everything that agrees with it on the length
    returned lies in the encoder's final interval. *)
Lemma terminated_in_range s ds V W n : Forall is_u16 ds -> 2 ^ 24 <= W ->
  bv s (n + term_bytes W) = (V + term_unit W) / term_unit W ->
  (forall i, (i < n + term_bytes W)%nat -> byteat ds i = byteat s i) ->
  in_range ds V W (n + 4).
Proof.
  intros Hds HW Hb Hag. rewrite <-(bv_ext ds s _ Hag) in Hb.
  unfold term_unit, term_bytes in *. unfold in_range. destruct (Z.ltb_spec 0x01FFFFFF W).
  - destruct (bv_add ds (n + 1) 3 Hds) as (r & E & Hr). rewrite <-Nat.add_assoc in E.
    change (1 + 3)%nat with 4%nat in E. rewrite E, Hb.
    change (2 ^ (32 - 8 * Z.of_nat 1)) with (256 ^ Z.of_nat 3).
    change (256 ^ Z.of_nat 3) with (2 ^ 24) in *. Z.div_mod_to_equations; lia.
  - destruct (bv_add ds (n + 2) 2 Hds) as (r & E & Hr). rewrite <-Nat.add_assoc in E.
    change (2 + 2)%nat with 4%nat in E. rewrite E, Hb.
    change (2 ^ (32 - 8 * Z.of_nat 2)) with (256 ^ Z.of_nat 2).
    change (256 ^ Z.of_nat 2) with (2 ^ 16) in *. Z.div_mod_to_equations; lia.
Qed.

(** What a decoder needs to know of a terminated stream. *)
Lemma terminate_ready st V W n ds len st' : enc_inv st V W n ->
  WebRtcIsacfix_EncTerminate st = Some (len, st') ->
  Forall is_u16 ds -> length ds = Z.to_nat INTERNAL_STREAM_SIZE_W16 ->
  (forall i, (i < Z.to_nat len)%nat -> byteat ds i = byteat (e_stream st') i) ->
  len = Z.of_nat (n + term_bytes W) /\ in_range ds V W (n + 4) /\ (n + 4 <= 2 * length ds)%nat.
Proof.
  intros Hi Ht Hds Hld Hag.
  destruct (decide (n + term_bytes W <= 400)%nat) as [Hle|Hgt];
    [|by rewrite (EncTerminate_overrun st V W n Hi ltac:(lia)) in Ht].
  destruct (EncTerminate_spec st V W n Hi Hle) as (st2 & E2 & _ & _ & Hb).
  rewrite Ht in E2. injection E2 as -> ->. rewrite Nat2Z.id in Hag. split; [done|]. split.
  - exact (terminated_in_range _ ds V W n Hds (proj2 Hi) Hb Hag).
  - rewrite Hld. change (Z.to_nat INTERNAL_STREAM_SIZE_W16) with 305%nat.
    unfold term_bytes in Hle. destruct (_ <? _) in Hle; lia.
Qed.

(** C2: Round trip of the arithmetic coder.  Any sequence of
    [WebRtcIsacfix_EncHistMulti] calls that succeeds on a reset stream,
    followed by [WebRtcIsacfix_EncTerminate], is inverted by the matching
    sequence of [WebRtcIsacfix_DecHistBisectMulti] and
    [WebRtcIsacfix_DecHistOneStepMulti] calls, mixed freely: they return the
    encoded symbols, and the last one returns the length [EncTerminate]
    returned.  The decoder's array only has to agree with the encoder's on the
    bytes of that length. *)
Theorem arith_round_trip chunks stream ds size st len st' :
  Forall chunk_ok chunks -> chunks <> [] ->
  Forall is_u16 stream -> length stream = Z.to_nat STREAM_MAXW16_60MS ->
  Forall is_u16 ds -> length ds = Z.to_nat INTERNAL_STREAM_SIZE_W16 ->
  encode_chunks (enc_reset stream) chunks = Some (0, st) ->
  WebRtcIsacfix_EncTerminate st = Some (len, st') ->
  (forall i, (i < Z.to_nat len)%nat -> byteat ds i = byteat (e_stream st') i) ->
  exists dst, decode_chunks (dec_reset ds size) chunks 0 = Some (map ck_data chunks, len, dst).
Proof.
  intros Hok Hne Hs Hl Hds Hld He Ht Hag.
  destruct (encode_chunks_spec chunks (enc_reset stream) 0 (2 ^ 32 - 1) 0)
    as (ret & st1 & E & Hcase).
  { by apply enc_reset_inv. }
  { exact (Forall_impl _ chunk_ok_syms Hok). }
  rewrite He in E. injection E as <- <-.
  destruct Hcase as [(_ & V & W & n & Hi & Hn & Htr)|(? & _)]; [|done].
  destruct (terminate_ready st V W n ds len st' Hi Ht Hds Hld Hag) as (-> & Hin & Hroom).
  destruct (decode_chunks_spec ds Hds Hld chunks (dec_reset ds size) 0 (2 ^ 32 - 1) 0 V W n 0)
    as (dst & Ed & _); try done; [|by exists dst].
  split; [done|]. split; [done|]. left. done.
Qed.

(** *** A small packet, used by the witnesses below *)

Definition example_tbl : list Z := [0; 20000; 40000; 50000; 60000; 64000; 65535].
Definition example_chunks : list chunk :=
  [mkChunk [0; 3; 1] [example_tbl; example_tbl; example_tbl] (Bisect [8; 8; 8]);
   mkChunk [5; 2] [example_tbl; example_tbl] (OneStep [1; 3])].
Definition example_st : Bitstr_enc :=
  default (enc_reset []) (snd <$> encode_chunks (enc_reset (replicate 200 0)) example_chunks).
Definition example_end : Bitstr_enc :=
  default (enc_reset []) (snd <$> WebRtcIsacfix_EncTerminate example_st).
Definition example_ds : list Z := take 1 (e_stream example_end) ++ replicate 304 0xABCD.

Lemma example_ok : Forall chunk_ok example_chunks.
Proof.
  assert (Forall is_u16 example_tbl) by (repeat constructor; done).
  repeat constructor; simpl; try lia; try done.
Qed.

Lemma arith_round_trip_witness :
  exists dst, decode_chunks (dec_reset example_ds 4) example_chunks 0
    = Some ([[0; 3; 1]; [5; 2]], 2, dst).
Proof.
  apply (arith_round_trip example_chunks (replicate 200 0) example_ds 4 example_st 2 example_end).
  - exact example_ok.
  - done.
  - apply Forall_replicate. done.
  - done.
  - apply (bool_decide_unpack (Forall is_u16 example_ds)). vm_compute. exact I.
  - vm_compute. reflexivity.
  - vm_compute. reflexivity.
  - vm_compute. reflexivity.
  - intros i Hi. change (Z.to_nat 2) with 2%nat in Hi.
    destruct i as [|[|i]]; [vm_compute; reflexivity..|lia].
Defined.

(** C13: The encoder never touches memory outside its stream or tables and
    always terminates: for any sequence of valid calls on a reset stream it
    returns 0 or [-ISAC_DISALLOWED_BITSTREAM_LENGTH], and when three bytes per
    symbol fit in the array with two to spare it returns 0 and
    [WebRtcIsacfix_EncTerminate] produces a stream of at most
    [3 * symbols + 2] bytes. *)
Theorem encode_total chunks stream :
  Forall chunk_ok chunks -> Forall is_u16 stream ->
  length stream = Z.to_nat STREAM_MAXW16_60MS ->
  exists ret st, encode_chunks (enc_reset stream) chunks = Some (ret, st) /\
    (ret = 0 \/ ret = - ISAC_DISALLOWED_BITSTREAM_LENGTH) /\
    ((3 * total_symbols chunks <= 398)%nat ->
       ret = 0 /\ exists len st', WebRtcIsacfix_EncTerminate st = Some (len, st') /\
         0 < len <= 3 * Z.of_nat (total_symbols chunks) + 2).
Proof.
  intros Hok Hs Hl.
  destruct (encode_chunks_spec chunks (enc_reset stream) 0 (2 ^ 32 - 1) 0)
    as (ret & st & E & Hcase).
  { by apply enc_reset_inv. }
  { exact (Forall_impl _ chunk_ok_syms Hok). }
  exists ret, st. split; [done|].
  destruct Hcase as [(-> & V & W & n & Hi & Hn & _)|(-> & Hn)].
  - split; [by left|]. intros Hroom. split; [done|].
    assert (1 <= term_bytes W <= 2)%nat as Htb by (unfold term_bytes; destruct (_ <? _); lia).
    destruct (EncTerminate_spec st V W n Hi ltac:(lia)) as (st' & E' & _).
    eexists _, _. split; [done|]. lia.
  - split; [by right|]. lia.
Qed.

Lemma encode_total_witness :
  exists ret st, encode_chunks (enc_reset (replicate 200 7)) example_chunks = Some (ret, st) /\
    ret = 0 /\ exists len st', WebRtcIsacfix_EncTerminate st = Some (len, st') /\ 0 < len <= 17.
Proof.
  destruct (encode_total example_chunks (replicate 200 7)) as (ret & st & E & _ & H).
  - exact example_ok.
  - apply Forall_replicate. done.
  - done.
  - exists ret, st. split; [done|]. apply H. vm_compute. lia.
Defined.

(** *** The last byte of the array *)

(** 199 symbols of two bytes each and one of one byte fill 399 of the 400
    bytes of the array. *)
Definition overrun_chunks : list chunk :=
  [mkChunk (replicate 200 0) (replicate 199 [0; 1; 65535] ++ [[0; 2; 65535]])
     (OneStep (replicate 200 0))].

Lemma overrun_ok : Forall chunk_ok overrun_chunks.
Proof.
  assert (onestep_ok 0 0 [0; 1; 65535]) as H1 by (repeat constructor; simpl; lia).
  assert (onestep_ok 0 0 [0; 2; 65535]) as H2 by (repeat constructor; simpl; lia).
  constructor; [|constructor]. unfold chunk_ok, overrun_chunks; cbn [ck_args ck_data ck_cdf].
  unfold replicate; simpl. repeat (constructor; [first [exact H1|exact H2]|]). constructor.
Qed.

(** [WebRtcIsacfix_EncTerminate] after a successful sequence of encoder
    calls writes outside the stream array exactly when 399 bytes are used and
    the interval asks for a two-byte ending; otherwise it returns the number
    of bytes of the stream.  The bad case is reachable: a valid packet of 200
    symbols is encoded with return value 0 and then makes it write word 200 of
    a 200-word array. *)
Theorem encode_terminate_overrun :
  (forall chunks stream st,
     Forall chunk_ok chunks -> Forall is_u16 stream ->
     length stream = Z.to_nat STREAM_MAXW16_60MS ->
     encode_chunks (enc_reset stream) chunks = Some (0, st) ->
     let n := nbytes (e_stream_index st) (e_full st) in
     let narrow := e_W_upper st <=? 0x01FFFFFF in
     (n = 399%nat /\ narrow = true /\ WebRtcIsacfix_EncTerminate st = None) \/
     ((n <> 399%nat \/ narrow = false) /\ exists st',
        WebRtcIsacfix_EncTerminate st = Some (Z.of_nat n + (if narrow then 2 else 1), st'))) /\
  exists st, Forall chunk_ok overrun_chunks /\
    encode_chunks (enc_reset (replicate 200 0)) overrun_chunks = Some (0, st) /\
    WebRtcIsacfix_EncTerminate st = None.
Proof.
  split.
  - intros chunks stream st Hok Hs Hl He n narrow.
    destruct (encode_chunks_spec chunks (enc_reset stream) 0 (2 ^ 32 - 1) 0)
      as (ret & st1 & E & Hcase).
    { by apply enc_reset_inv. }
    { exact (Forall_impl _ chunk_ok_syms Hok). }
    rewrite He in E. injection E as <- <-.
    destruct Hcase as [(_ & V & W & m & Hi & _ & _)|(? & _)]; [|done].
    destruct (nbytes_lt _ _ _ (er_swf _ _ _ _ (proj1 Hi)) (er_len _ _ _ _ (proj1 Hi))) as (Hn & _).
    pose proof (er_n _ _ _ _ (proj1 Hi)) as En. pose proof (er_W _ _ _ _ (proj1 Hi)) as EW.
    unfold enc_start in Hn, En, EW. cbn [l_ptr l_full l_W] in Hn, En, EW. fold n in Hn, En.
    clearbody n. subst m. unfold narrow. rewrite EW.
    rewrite Z.leb_antisym. pose proof (EncTerminate_overrun st V W n Hi) as Hov.
    pose proof (EncTerminate_spec st V W n Hi) as Hsp. unfold term_bytes in *.
    destruct (0x01FFFFFF <? W); cbn [negb]; [|destruct (decide (n = 399%nat)) as [->|Hne]].
    + right. split; [by right|]. destruct Hsp as (st' & E & _); [lia|].
      exists st'. rewrite E. do 2 f_equal. lia.
    + left. split; [done|]. split; [done|]. apply Hov. lia.
    + right. split; [by left|]. destruct Hsp as (st' & E & _); [lia|].
      exists st'. rewrite E. do 2 f_equal. lia.
  - destruct (encode_chunks (enc_reset (replicate 200 0)) overrun_chunks) as [[r st]|] eqn:E;
      vm_compute in E; [|done].
    exists st. split; [exact overrun_ok|]. injection E as <- <-. split; vm_compute; reflexivity.
Qed.

Lemma encode_terminate_overrun_witness :
  exists st', WebRtcIsacfix_EncTerminate example_st = Some (2, st').
Proof.
  destruct (proj1 encode_terminate_overrun example_chunks (replicate 200 0) example_st)
    as [(_ & _ & H)|(_ & st' & H)].
  - exact example_ok.
  - apply Forall_replicate. done.
  - done.
  - vm_compute. reflexivity.
  - vm_compute in H. done.
  - exists st'. rewrite H. vm_compute. reflexivity.
Defined.
