(* ===== verification/IsacLogistic.v ===== *)
(** The logistic arithmetic coder of the fixed-point iSAC codec:
    [modules/audio_coding/codecs/isac/fix/source/arith_routines_logist.c] and
    the decoder's stream set-up in [isacfix.c].

    The spectrum is coded with a piecewise linear cdf instead of a table; the
    interval arithmetic is that of [IsacArith].  [None] is an access outside an
    array, a division by zero, or a loop that does not end. *)
From S2P Require Import Prelude SplInl IsacArith IsacStream IsacEncoder IsacDecoder.

(** ** The piecewise linear cdf *)

Definition kHistEdges : list Z :=
  [-327680; -314573; -301466; -288359; -275252; -262144; -249037; -235930; -222823; -209716;
   -196608; -183501; -170394; -157287; -144180; -131072; -117965; -104858; -91751; -78644;
   -65536; -52429; -39322; -26215; -13108; 0; 13107; 26214; 39321; 52428;
   65536; 78643; 91750; 104857; 117964; 131072; 144179; 157286; 170393; 183500;
   196608; 209715; 222822; 235929; 249036; 262144; 275251; 288358; 301465; 314572;
   327680].

Definition kCdfSlope : list Z :=
  [5; 5; 5; 5; 5; 5; 5; 5; 5; 5;
   5; 5; 13; 23; 47; 87; 154; 315; 700; 1088;
   2471; 6064; 14221; 21463; 36634; 36924; 19750; 13270; 5806; 2312;
   1095; 660; 316; 145; 86; 41; 32; 5; 5; 5;
   5; 5; 5; 5; 5; 5; 5; 5; 5; 2;
   0].

Definition kCdfLogistic : list Z :=
  [0; 2; 4; 6; 8; 10; 12; 14; 16; 18;
   20; 22; 24; 29; 38; 57; 92; 153; 279; 559;
   994; 1983; 4408; 10097; 18682; 33336; 48105; 56005; 61313; 63636;
   64560; 64998; 65262; 65389; 65447; 65481; 65497; 65510; 65512; 65514;
   65516; 65518; 65520; 65522; 65524; 65526; 65528; 65530; 65532; 65534;
   65535].

Definition WebRtcIsacfix_Piecewise (xinQ15 : Z) : Z :=
  let qtmp1 := WEBRTC_SPL_SAT (arr kHistEdges 50) xinQ15 (arr kHistEdges 0) in
  let ind := WEBRTC_SPL_MUL 5 (i32 (qtmp1 - arr kHistEdges 0)) ≫ 16 in
  let qtmp1 := i32 (qtmp1 - arr kHistEdges ind) in
  let qtmp2 := u16 (WEBRTC_SPL_RSHIFT_U32 (WEBRTC_SPL_UMUL_32_16 qtmp1 (arr kCdfSlope ind)) 15) in
  u16 (arr kCdfLogistic ind + qtmp2).

(** The cdf at the edge [x] of a sample in Q7, for the width [env] in Q8. *)
Definition cdf_at (x env : Z) : Z := WebRtcIsacfix_Piecewise (WEBRTC_SPL_MUL_16_U16 x env).

(** ** Encoder *)

(** The loop that moves a sample towards zero until its interval has two
    units; returns the sample and the interval.  With [env >= 1] it ends when
    the sample is within 64 of zero at the latest, after fewer than 260 rounds;
    with [env = 0] it never ends. *)
Fixpoint clip_loop (fuel : nat) (data env cdfLo cdfHi : Z) : option (Z * Z * Z) :=
  if cdfHi <=? u32 (cdfLo + 1) then
    match fuel with
    | O => None
    | S fuel =>
        if 0 <? data then
          let data := i16 (data - 128) in
          clip_loop fuel data env (cdf_at (data - 64) env) cdfLo
        else
          let data := i16 (data + 128) in
          clip_loop fuel data env cdfHi (cdf_at (data + 64) env)
    end
  else Some (data, cdfLo, cdfHi).

Definition clip_fuel : nat := 260.

Definition clip_sample (data env : Z) : option (Z * Z * Z) :=
  clip_loop clip_fuel data env (cdf_at (data - 64) env) (cdf_at (data + 64) env).

(** The symbol loop over the remaining samples; [envQ8] moves on after every
    fourth one.  Returns the array as the loop leaves it. *)
Fixpoint enc_logistic_loop (l : enc_loop) (k : Z) (dataQ7 : list Z) (envQ8 : list Z) (e : Z)
  : option (list Z * (enc_loop + enc_loop)) :=
  match dataQ7 with
  | [] => Some ([], inr l)
  | x :: dataQ7 =>
      env ← rd envQ8 e;
      '(x, cdfLo, cdfHi) ← clip_sample x env;
      r ← enc_symbol l cdfLo cdfHi;
      match r with
      | inl l => Some (x :: dataQ7, inl l)
      | inr l =>
          '(xs, r) ← enc_logistic_loop l (k + 1) dataQ7 envQ8 (e + Z.land (Z.land k 1) (k ≫ 1));
          Some (x :: xs, r)
      end
  end.

(** Returns the samples after clipping, the return value and the struct. *)
Definition WebRtcIsacfix_EncLogisticMulti2 (streamData : Bitstr_enc) (dataQ7 envQ8 : list Z)
  : option (list Z * Z * Bitstr_enc) :=
  '(xs, r) ← enc_logistic_loop (enc_start streamData) 0 dataQ7 envQ8 0;
  let '(ret, st) := enc_finish streamData r in
  Some (xs, ret, st).

(** ** Decoder *)

(** One step of the square root iteration. *)
Definition newton_step (inSqrt res : Z) : option Z :=
  if res =? 0 then None else Some (i32 (Z.quot inSqrt res + res) ≫ 1).

(** The [do ... while] loop, at most [i + 1] rounds; returns [newRes]. *)
Fixpoint newton_loop (i : nat) (inSqrt newRes : Z) : option (Z * Z) :=
  let res := newRes in
  newRes ← newton_step inSqrt res;
  if newRes =? res then Some (res, newRes)
  else match i with
       | O => Some (res, newRes)
       | S i => newton_loop i inSqrt newRes
       end.

(** The root of [spec], started at the result [res] of the previous one;
    returns the new [res] and [newRes]. *)
Definition newton_root (spec res : Z) : option (Z * Z) :=
  let inSqrt := if spec <? 0 then i32 (- spec) else spec in
  newRes ← newton_step inSqrt res;
  newton_loop 10 inSqrt newRes.

Definition newton_start (spec : Z) : Z := 1 ≪ (WebRtcSpl_GetSizeInBits (u32 spec) ≫ 1).

(** The local variables of the decoder loop. *)
Record lg_loop := mkLg {
  lg_ptr : Z;
  lg_off : Z;
  lg_full : Z;
  lg_val : Z;
  lg_W : Z
}.

(** The renormalisation loop: behind [stream_size] words zeros are read and
    the pointer's moves are counted in [offset].  It takes at most three
    rounds unless [W_upper] is 0, when it does not end. *)
Fixpoint lg_renorm (fuel : nat) (stream : list Z) (size : Z) (l : lg_loop) : option lg_loop :=
  if W_small (lg_W l) then
    match fuel with
    | O => None
    | S fuel =>
        let W := u32 (lg_W l ≪ 8) in
        let v := u32 (lg_val l ≪ 8) in
        l ← (if lg_ptr l <? size then
               c ← cell stream (lg_ptr l);
               Some (if lg_full l =? 0
                     then mkLg (lg_ptr l + 1) (lg_off l) 1 (Z.lor v (Z.land c 0x00FF)) W
                     else mkLg (lg_ptr l) (lg_off l) 0 (Z.lor v (c ≫ 8)) W)
             else
               Some (if lg_full l =? 0
                     then mkLg (lg_ptr l) (lg_off l + 1) 1 v W
                     else mkLg (lg_ptr l) (lg_off l) 0 v W));
        lg_renorm fuel stream size l
    end
  else Some l.

(** The upward and downward scans.  [cand] has 512 values, and a scan that
    meets one of them again goes round for ever. *)
Definition scan_fuel : nat := 513.

Fixpoint lg_up (fuel : nat) (env W v cand W_lower W_tmp : Z) : option (unit + Z * Z * Z) :=
  if W_tmp <? v then
    match fuel with
    | O => None
    | S fuel =>
        let W_lower := W_tmp in
        let cand := i16 (cand + 128) in
        let W_tmp := W_scale W (cdf_at cand env) in
        if W_lower =? W_tmp then Some (inl tt)
        else lg_up fuel env W v cand W_lower W_tmp
    end
  else Some (inr (i16 (cand - 64), W_lower, W_tmp)).

Fixpoint lg_down (fuel : nat) (env W v cand W_upper W_tmp : Z) : option (unit + Z * Z * Z) :=
  if negb (W_tmp <? v) then
    match fuel with
    | O => None
    | S fuel =>
        let W_upper := W_tmp in
        let cand := i16 (cand - 128) in
        let W_tmp := W_scale W (cdf_at cand env) in
        if W_upper =? W_tmp then Some (inl tt)
        else lg_down fuel env W v cand W_upper W_tmp
    end
  else Some (inr (i16 (cand + 64), W_tmp, W_upper)).

(** The search for one sample, started at its dither value. *)
Definition lg_search (dither env W v : Z) : option (unit + Z * Z * Z) :=
  let cand := i16 (- dither + 64) in
  let W_tmp := W_scale W (cdf_at cand env) in
  if W_tmp <? v then
    let cand' := i16 (cand + 128) in
    lg_up scan_fuel env W v cand' W_tmp (W_scale W (cdf_at cand' env))
  else
    let cand' := i16 (cand - 128) in
    lg_down scan_fuel env W v cand' W_tmp (W_scale W (cdf_at cand' env)).

(** [n] samples of the same width; returns the samples, the dither left and
    the loop state. *)
Fixpoint lg_samples (n : nat) (stream : list Z) (size env : Z) (l : lg_loop) (data : list Z)
  : option (list Z * list Z * (lg_loop + lg_loop)) :=
  match n with
  | O => Some ([], data, inr l)
  | S n =>
      match data with
      | [] => None
      | d :: data =>
          r ← lg_search d env (lg_W l) (lg_val l);
          match r with
          | inl _ => Some ([], d :: data, inl l)
          | inr (x, lo, hi) =>
              let W_lower := u32 (lo + 1) in
              l ← lg_renorm (dec_fuel stream) stream size
                    (mkLg (lg_ptr l) (lg_off l) (lg_full l) (u32 (lg_val l - W_lower))
                       (u32 (hi - W_lower)));
              '(xs, data, r) ← lg_samples n stream size env l data;
              Some (x :: xs, data, r)
          end
      end
  end.

(** The outer loop, four samples per round. *)
Fixpoint lg_groups (n : nat) (stream : list Z) (size : Z) (specs : list Z) (res : Z) (l : lg_loop)
    (data : list Z) : option (list Z * list Z * (lg_loop + lg_loop)) :=
  match n with
  | O => Some ([], data, inr l)
  | S n =>
      match specs with
      | [] => None
      | spec :: specs =>
          '(res, newRes) ← newton_root spec res;
          '(xs, data, r) ← lg_samples 4 stream size (u16 newRes) l data;
          match r with
          | inl l => Some (xs, data, inl l)
          | inr l =>
              '(ys, data, r) ← lg_groups n stream size specs res l data;
              Some (xs ++ ys, data, r)
          end
      end
  end.

(** [dataQ7] holds the dither on entry; returns the array, the return value
    and the struct. *)
Definition WebRtcIsacfix_DecLogisticMulti2 (dataQ7 : list Z) (st : Bitstr_dec) (envQ8 : list Z)
    (lenData : Z) : option (list Z * Z * Bitstr_dec) :=
  l ← dec_start st;
  spec ← rd envQ8 0;
  '(xs, rest, r) ← lg_groups (Z.to_nat ((lenData + 3) / 4)) (d_stream st) (d_stream_size st) envQ8
                     (newton_start spec) (mkLg (dl_ptr l) 0 (dl_full l) (dl_val l) (dl_W l)) dataQ7;
  match r with
  | inl l => Some (xs ++ rest, -1, dec_abort st (mkDLoop (lg_ptr l) (lg_full l) (lg_val l) (lg_W l)))
  | inr l =>
      let l := mkDLoop (lg_ptr l + lg_off l) (lg_full l) (lg_val l) (lg_W l) in
      Some (xs ++ rest, dec_length l, dec_store st l)
  end.

(** [InitializeDecoderBitstream] of isacfix.c: an all-zero array; the size is
    kept in words. *)
Definition InitializeDecoderBitstream (stream_size_bytes : Z) : Bitstr_dec :=
  mkDec (replicate (Z.to_nat INTERNAL_STREAM_SIZE_W16) 0) 0xFFFFFFFF 0 0 1
    ((stream_size_bytes + 1) ≫ 1).

(** ** The cdf is monotone *)

(** The segment of a saturated argument and the value on segment [i]. *)
Definition seg (q : Z) : Z := 5 * (q + 327680) / 2 ^ 16.
Definition seg_val (i q : Z) : Z :=
  arr kCdfLogistic i + arr kCdfSlope i * (q - arr kHistEdges i) / 2 ^ 15.

(** A decidable property of all indices below [n]. *)
Lemma all_below (P : Z -> bool) n i : forallb P (seqZ 0 n) = true -> 0 <= i < n -> P i = true.
Proof.
  intros H Hi. rewrite forallb_forall in H. apply H. apply list_elem_of_In, elem_of_seqZ. lia.
Qed.

Lemma edge_eq i : 0 <= i < 51 -> arr kHistEdges i = 65536 * i / 5 - 327680.
Proof.
  intros Hi. apply Z.eqb_eq. revert i Hi.
  intros i. apply (all_below (fun i => arr kHistEdges i =? 65536 * i / 5 - 327680)). reflexivity.
Qed.

Lemma slope_range i : 0 <= i < 51 -> 0 <= arr kCdfSlope i <= 36924.
Proof.
  intros Hi. assert ((0 <=? arr kCdfSlope i) && (arr kCdfSlope i <=? 36924) = true) as H; [|lia].
  revert Hi. apply (all_below (fun i => (0 <=? arr kCdfSlope i) && (arr kCdfSlope i <=? 36924))). reflexivity.
Qed.

Lemma seg_end i : 0 <= i < 50 ->
  arr kCdfLogistic i + arr kCdfSlope i * 13107 / 2 ^ 15 <= arr kCdfLogistic (i + 1).
Proof.
  intros Hi. apply Z.leb_le. revert Hi.
  apply (all_below (fun i => arr kCdfLogistic i + arr kCdfSlope i * 13107 / 2 ^ 15
                             <=? arr kCdfLogistic (i + 1))). reflexivity.
Qed.

Lemma logistic_sorted i j : 0 <= i <= j -> j < 51 -> arr kCdfLogistic i <= arr kCdfLogistic j.
Proof. intros. apply sortedb_arr; [reflexivity|done|exact (ltac:(done))]. Qed.

Lemma seg_bounds q : -327680 <= q <= 327680 ->
  0 <= seg q <= 50 /\ 0 <= q - arr kHistEdges (seg q) <= 13107 /\ (seg q = 50 -> q = 327680).
Proof.
  intros Hq. assert (0 <= seg q <= 50) as Hs by (unfold seg; Z.div_mod_to_equations; lia).
  rewrite edge_eq by lia. unfold seg in *. Z.div_mod_to_equations. lia.
Qed.

Lemma seg_val_range i q : 0 <= i <= 50 -> 0 <= q - arr kHistEdges i <= 13107 ->
  (i = 50 -> q = 327680) ->
  arr kCdfLogistic i <= seg_val i q /\ seg_val i q <= arr kCdfLogistic (Z.min 50 (i + 1)).
Proof.
  intros Hi Hq H50. unfold seg_val. pose proof (slope_range i ltac:(lia)) as Hs.
  split; [assert (0 <= arr kCdfSlope i * (q - arr kHistEdges i) / 2 ^ 15);
          [apply Z.div_pos; nia|lia]|].
  destruct (decide (i = 50)) as [->|Hne].
  - rewrite H50 by done. reflexivity || done.
  - replace (Z.min 50 (i + 1)) with (i + 1) by lia. pose proof (seg_end i ltac:(lia)).
    assert (arr kCdfSlope i * (q - arr kHistEdges i) / 2 ^ 15 <= arr kCdfSlope i * 13107 / 2 ^ 15)
      by (apply Z.div_le_mono; nia). lia.
Qed.

Lemma logistic_range i : 0 <= i <= 50 -> 0 <= arr kCdfLogistic i <= 65535.
Proof.
  intros Hi. pose proof (logistic_sorted 0 i ltac:(lia) ltac:(lia)) as H0.
  pose proof (logistic_sorted i 50 ltac:(lia) ltac:(lia)) as H1.
  change (arr kCdfLogistic 0) with 0 in H0. change (arr kCdfLogistic 50) with 65535 in H1. lia.
Qed.

(** The machine computation is the piecewise linear function. *)
Lemma Piecewise_eq x :
  let q := clamp (-327680) 327680 x in
  WebRtcIsacfix_Piecewise x = seg_val (seg q) q /\ -327680 <= q <= 327680.
Proof.
  intros q. assert (-327680 <= q <= 327680) as Hq by (unfold q, clamp; lia). split; [|done].
  unfold WebRtcIsacfix_Piecewise. change (arr kHistEdges 50) with 327680.
  change (arr kHistEdges 0) with (-327680). rewrite SAT_clamp by lia. fold q. clearbody q.
  pose proof (seg_bounds q Hq) as (Hs & Hb & H50).
  unfold WEBRTC_SPL_MUL, WEBRTC_SPL_RSHIFT_U32, WEBRTC_SPL_UMUL_32_16.
  rewrite !(i32_id (q - -327680)), (i32_id 5), (i32_id (5 * _)) by (unfold is_i32; lia).
  replace (5 * (q - -327680)) with (5 * (q + 327680)) by lia.
  rewrite (shiftr_div _ 16) by lia. fold (seg q). set (i := seg q) in *. clearbody i.
  pose proof (slope_range i ltac:(lia)) as Hsl. set (t := q - arr kHistEdges i) in *.
  rewrite (i32_id t) by (unfold is_i32; lia).
  rewrite (u32_id t), (u16_id (arr kCdfSlope i)) by (unfold is_u32, is_u16; lia).
  rewrite !(u32_id (t * _)) by (unfold is_u32; nia). rewrite shiftr_div by lia.
  pose proof (seg_val_range i q Hs Hb H50) as [Hv1 Hv2].
  pose proof (logistic_range i Hs). pose proof (logistic_range (Z.min 50 (i + 1)) ltac:(lia)).
  unfold seg_val in *. fold t in Hv1, Hv2 |- *. rewrite (Z.mul_comm t).
  rewrite (u16_id (_ / _)) by (unfold is_u16; lia). apply u16_id. unfold is_u16. lia.
Qed.

Lemma Piecewise_range x : 0 <= WebRtcIsacfix_Piecewise x <= 65535.
Proof.
  destruct (Piecewise_eq x) as [-> Hq]. pose proof (seg_bounds _ Hq) as (Hs & Hb & H50).
  pose proof (seg_val_range _ _ Hs Hb H50) as [H1 H2].
  pose proof (logistic_range _ Hs). pose proof (logistic_range (Z.min 50 (seg (clamp (-327680) 327680 x) + 1)) ltac:(lia)).
  lia.
Qed.

Lemma Piecewise_mono x y : x <= y -> WebRtcIsacfix_Piecewise x <= WebRtcIsacfix_Piecewise y.
Proof.
  intros Hxy. destruct (Piecewise_eq x) as [-> Hp], (Piecewise_eq y) as [-> Hq].
  assert (clamp (-327680) 327680 x <= clamp (-327680) 327680 y) as Hle by (unfold clamp; lia).
  set (p := clamp (-327680) 327680 x) in *. set (q := clamp (-327680) 327680 y) in *. clearbody p q.
  pose proof (seg_bounds p Hp) as (Hs & Hb & H50). pose proof (seg_bounds q Hq) as (Hs' & Hb' & H50').
  assert (seg p <= seg q) as Hseg by (unfold seg; apply Z.div_le_mono; lia).
  destruct (decide (seg p = seg q)) as [E|Hne].
  - rewrite E in *. unfold seg_val. pose proof (slope_range (seg q) ltac:(lia)).
    apply Z.add_le_mono_l, Z.div_le_mono; nia.
  - pose proof (seg_val_range _ _ Hs Hb H50) as [_ H1].
    pose proof (seg_val_range _ _ Hs' Hb' H50') as [H2 _].
    pose proof (logistic_sorted (Z.min 50 (seg p + 1)) (seg q) ltac:(lia) ltac:(lia)). lia.
Qed.

Lemma cdf_at_eq x e : is_i16 x -> is_u16 e -> cdf_at x e = WebRtcIsacfix_Piecewise (x * e).
Proof.
  intros Hx He. unfold cdf_at, WEBRTC_SPL_MUL_16_U16.
  rewrite i16_id, u16_id, i32_id; [done| |done|done]. unfold is_i16, is_u16, is_i32 in *. nia.
Qed.

Lemma cdf_at_u16 x e : is_u16 (cdf_at x e).
Proof. pose proof (Piecewise_range (WEBRTC_SPL_MUL_16_U16 x e)). unfold is_u16, cdf_at. lia. Qed.

Lemma cdf_at_mono x y e : is_i16 x -> is_i16 y -> is_u16 e -> x <= y -> cdf_at x e <= cdf_at y e.
Proof.
  intros Hx Hy He Hxy. rewrite !cdf_at_eq by done. apply Piecewise_mono.
  unfold is_u16 in He. nia.
Qed.

#[export] Hint Resolve cdf_at_u16 : cint.

(** ** Clipping *)

(** A sample whose two edges are [int16_t]. *)
Definition sample_ok (x : Z) : Prop := is_i16 (x - 64) /\ is_i16 (x + 64).

(** Near zero the cdf is steep enough for any width. *)
Lemma cdf_center x e : -64 <= x <= 64 -> 1 <= e < 2 ^ 16 -> cdf_at (x - 64) e + 2 <= cdf_at (x + 64) e.
Proof.
  intros Hx He. rewrite !cdf_at_eq by (unfold is_i16, is_u16; lia).
  destruct (Z.le_gt_cases 0 x).
  - pose proof (Piecewise_mono ((x - 64) * e) 0 ltac:(nia)).
    pose proof (Piecewise_mono 64 ((x + 64) * e) ltac:(nia)).
    assert (WebRtcIsacfix_Piecewise 0 + 2 <= WebRtcIsacfix_Piecewise 64) by (vm_compute; discriminate). lia.
  - pose proof (Piecewise_mono ((x - 64) * e) (-64) ltac:(nia)).
    pose proof (Piecewise_mono 0 ((x + 64) * e) ltac:(nia)).
    assert (WebRtcIsacfix_Piecewise (-64) + 2 <= WebRtcIsacfix_Piecewise 0) by (vm_compute; discriminate). lia.
Qed.

(** The clipped sample: congruent to the input, no farther from zero (or
    within 64 of it), with an interval of at least two units. *)
Definition clipped (x e x' : Z) : Prop :=
  sample_ok x' /\ (x' - x) mod 128 = 0 /\ Z.abs x' <= Z.max 64 (Z.abs x) /\
  cdf_at (x' - 64) e + 2 <= cdf_at (x' + 64) e.

Lemma clip_loop_spec e fuel : 1 <= e < 2 ^ 16 -> forall x, sample_ok x ->
  Z.abs x <= 64 + 128 * Z.of_nat fuel ->
  exists x', clip_loop fuel x e (cdf_at (x - 64) e) (cdf_at (x + 64) e)
    = Some (x', cdf_at (x' - 64) e, cdf_at (x' + 64) e) /\ clipped x e x'.
Proof.
  intros He. induction fuel as [|fuel IH]; intros x Hx Hf; cbn [clip_loop];
    pose proof (cdf_at_u16 (x - 64) e) as Hu; unfold is_u16 in Hu;
    rewrite (u32_id (_ + 1)) by (unfold is_u32; lia);
    destruct (Z.leb_spec (cdf_at (x + 64) e) (cdf_at (x - 64) e + 1)) as [Hc|Hc].
  - pose proof (cdf_center x e ltac:(lia) He). lia.
  - exists x. split; [done|]. split; [done|]. rewrite Z.sub_diag. split; [done|]. lia.
  - assert (64 < Z.abs x) as Ha.
    { destruct (Z.lt_ge_cases 64 (Z.abs x)); [done|]. pose proof (cdf_center x e ltac:(lia) He). lia. }
    destruct Hx as [Hx1 Hx2]. unfold is_i16 in *. destruct (Z.ltb_spec 0 x).
    + rewrite (i16_id (x - 128)) by (unfold is_i16; lia). cbn zeta.
      destruct (IH (x - 128)) as (x' & E & H1 & H2 & H3 & H4); [unfold sample_ok, is_i16; lia|lia|].
      replace (x - 128 + 64) with (x - 64) in E by lia. exists x'. split; [exact E|].
      split; [done|]. split; [|split; [lia|done]].
      replace (x' - x) with (x' - (x - 128) + -1 * 128) by lia. by rewrite Z.mod_add by lia.
    + rewrite (i16_id (x + 128)) by (unfold is_i16; lia). cbn zeta.
      destruct (IH (x + 128)) as (x' & E & H1 & H2 & H3 & H4); [unfold sample_ok, is_i16; lia|lia|].
      replace (x + 128 - 64) with (x + 64) in E by lia. exists x'. split; [exact E|].
      split; [done|]. split; [|split; [lia|done]].
      replace (x' - x) with (x' - (x + 128) + 1 * 128) by lia. by rewrite Z.mod_add by lia.
  - exists x. split; [done|]. split; [done|]. rewrite Z.sub_diag. split; [done|]. lia.
Qed.

Lemma clip_sample_spec x e : 1 <= e < 2 ^ 16 -> sample_ok x ->
  exists x', clip_sample x e = Some (x', cdf_at (x' - 64) e, cdf_at (x' + 64) e) /\ clipped x e x'.
Proof.
  intros He Hx. apply clip_loop_spec; [done|done|]. destruct Hx as [H1 H2]. unfold is_i16, clip_fuel in *. lia.
Qed.

(** ** The search *)

(** The candidates on the way from the dither value to the sample are told
    apart by the cdf. *)
Definition scan_ok (d e x : Z) : Prop :=
  forall j, (0 < j /\ 64 - d + 128 * (j + 1) <= x - 64) \/ (j < -1 /\ x + 64 <= 64 - d + 128 * j) ->
  cdf_at (64 - d + 128 * j) e < cdf_at (64 - d + 128 * (j + 1)) e.

Section Search.
Context (d e x W v : Z) (He : is_u16 e) (HW : is_u32 W) (HWb : 2 ^ 24 <= W).
Context (Hx : sample_ok x) (Hd : -64 <= d <= 64) (Hcong : (x + d) mod 128 = 0).
Context (Hgap : cdf_at (x - 64) e + 2 <= cdf_at (x + 64) e) (Hscan : scan_ok d e x).

Let Ws c := W_scale W (cdf_at c e).
Hypothesis Hv : Ws (x - 64) < v <= Ws (x + 64).
Let found := Some (inr (A := unit) (x, Ws (x - 64), Ws (x + 64))).

Lemma Ws_mono a b : is_i16 a -> is_i16 b -> a <= b -> Ws a <= Ws b.
Proof.
  intros Ha Hb Hab. unfold Ws. rewrite !W_scale_eq by auto with cint.
  pose proof (cdf_at_mono a b e Ha Hb He Hab). unfold is_u32 in HW. apply Z.div_le_mono; nia.
Qed.

Lemma Ws_strict a b : cdf_at a e < cdf_at b e -> Ws a < Ws b.
Proof.
  intros Hab. unfold Ws. rewrite !W_scale_eq by auto with cint.
  pose proof (cdf_at_u16 a e). pose proof (cdf_at_u16 b e). unfold is_u16 in *.
  pose proof (narrow W (cdf_at a e) (cdf_at b e) HWb ltac:(lia) ltac:(lia)) as Hn. cbn zeta in Hn. lia.
Qed.

Let J := (x + d) / 128.
Lemma x_J : x = 128 * J - d.
Proof. unfold J. Z.div_mod_to_equations. lia. Qed.

Lemma lg_up_found fuel : forall j, 0 < j <= J -> (Z.to_nat (J - j) <= fuel)%nat ->
  lg_up fuel e W v (64 - d + 128 * j) (Ws (64 - d + 128 * (j - 1))) (Ws (64 - d + 128 * j)) = found.
Proof.
  pose proof x_J as EJ. destruct Hx as [Hx1 Hx2]. unfold is_i16 in *.
  induction fuel as [|fuel IH]; intros j Hj Hf; cbn [lg_up];
    (destruct (Z.eq_dec j J) as [->|Hne];
     [replace (64 - d + 128 * J) with (x + 64) by lia;
      replace (64 - d + 128 * (J - 1)) with (x - 64) by lia;
      rewrite (proj2 (Z.ltb_ge _ _)) by lia; rewrite i16_id by (unfold is_i16; lia);
      by replace (x + 64 - 64) with x by lia|]); [lia|].
  assert (Ws (64 - d + 128 * j) <= Ws (x - 64)) by (apply Ws_mono; unfold is_i16; lia).
  rewrite (proj2 (Z.ltb_lt _ _)) by lia. rewrite i16_id by (unfold is_i16; lia). cbn zeta.
  replace (64 - d + 128 * j + 128) with (64 - d + 128 * (j + 1)) by lia.
  assert (Ws (64 - d + 128 * j) < Ws (64 - d + 128 * (j + 1))) as Hlt.
  { apply Ws_strict. destruct (Z.eq_dec (j + 1) J) as [E|?].
    - replace (64 - d + 128 * j) with (x - 64) by lia. rewrite E.
      replace (64 - d + 128 * J) with (x + 64) by lia. lia.
    - apply Hscan. left. lia. }
  fold (Ws (64 - d + 128 * (j + 1))). rewrite (proj2 (Z.eqb_neq _ _)) by lia.
  specialize (IH (j + 1)). replace (j + 1 - 1) with j in IH by lia. apply IH; lia.
Qed.

Lemma lg_down_found fuel : forall j, J - 1 <= j < 0 -> (Z.to_nat (j - (J - 1)) <= fuel)%nat ->
  lg_down fuel e W v (64 - d + 128 * j) (Ws (64 - d + 128 * (j + 1))) (Ws (64 - d + 128 * j)) = found.
Proof.
  pose proof x_J as EJ. destruct Hx as [Hx1 Hx2]. unfold is_i16 in *.
  induction fuel as [|fuel IH]; intros j Hj Hf; cbn [lg_down];
    (destruct (Z.eq_dec j (J - 1)) as [->|Hne];
     [replace (64 - d + 128 * (J - 1)) with (x - 64) by lia;
      replace (64 - d + 128 * (J - 1 + 1)) with (x + 64) by lia;
      rewrite (proj2 (Z.ltb_lt _ _)) by lia; cbn [negb]; rewrite i16_id by (unfold is_i16; lia);
      by replace (x - 64 + 64) with x by lia|]); [lia|].
  assert (Ws (x + 64) <= Ws (64 - d + 128 * j)) by (apply Ws_mono; unfold is_i16; lia).
  rewrite (proj2 (Z.ltb_ge _ _)) by lia. cbn [negb]. rewrite i16_id by (unfold is_i16; lia). cbn zeta.
  replace (64 - d + 128 * j - 128) with (64 - d + 128 * (j - 1)) by lia.
  assert (Ws (64 - d + 128 * (j - 1)) < Ws (64 - d + 128 * j)) as Hlt.
  { apply Ws_strict. destruct (Z.eq_dec (j - 1) (J - 1)) as [E|?].
    - rewrite E. replace (64 - d + 128 * (J - 1)) with (x - 64) by lia.
      replace (64 - d + 128 * j) with (x + 64) by lia. lia.
    - specialize (Hscan (j - 1)). replace (j - 1 + 1) with j in Hscan by lia. apply Hscan. right. lia. }
  fold (Ws (64 - d + 128 * (j - 1))). rewrite (proj2 (Z.eqb_neq _ _)) by lia.
  specialize (IH (j - 1)). replace (j - 1 + 1) with j in IH by lia. apply IH; lia.
Qed.

Lemma lg_search_found : lg_search d e W v = found.
Proof.
  pose proof x_J as EJ. pose proof Hx as [Hx1 Hx2]. unfold is_i16 in *.
  unfold lg_search. rewrite (i16_id (- d + 64)) by (unfold is_i16; lia). cbn zeta.
  fold (Ws (- d + 64)). replace (- d + 64) with (64 - d + 128 * 0) by lia.
  assert (-256 <= J <= 256) by lia.
  destruct (Z.ltb_spec (Ws (64 - d + 128 * 0)) v) as [Hlt|Hge].
  - assert (0 < J).
    { destruct (Z.lt_ge_cases 0 J); [done|].
      pose proof (Ws_mono (x + 64) (64 - d + 128 * 0) ltac:(unfold is_i16; lia) ltac:(unfold is_i16; lia)). lia. }
    rewrite i16_id by (unfold is_i16; lia). replace (64 - d + 128 * 0 + 128) with (64 - d + 128 * 1) by lia.
    fold (Ws (64 - d + 128 * 1)). replace (64 - d + 128 * 0) with (64 - d + 128 * (1 - 1)) by lia.
    apply lg_up_found; [lia|unfold scan_fuel; lia].
  - assert (J <= 0).
    { destruct (Z.le_gt_cases J 0); [done|].
      pose proof (Ws_mono (64 - d + 128 * 0) (x - 64) ltac:(unfold is_i16; lia) ltac:(unfold is_i16; lia)). lia. }
    rewrite i16_id by (unfold is_i16; lia). replace (64 - d + 128 * 0 - 128) with (64 - d + 128 * (-1)) by lia.
    fold (Ws (64 - d + 128 * (-1))). replace (64 - d + 128 * 0) with (64 - d + 128 * (-1 + 1)) by lia.
    apply lg_down_found; [lia|unfold scan_fuel; lia].
Qed.
End Search.

(** ** Widths for which every candidate is told apart *)

(** A step of 6554 crosses at least one unit of the cdf, short of the last
    segment. *)
Lemma seg_cross i t : 0 <= i < 48 -> 0 <= t <= 13107 ->
  let t' := t + 6554 - (arr kHistEdges (i + 1) - arr kHistEdges i) in 0 <= t' ->
  arr kCdfLogistic i + arr kCdfSlope i * t / 2 ^ 15 + 1
  <= arr kCdfLogistic (i + 1) + arr kCdfSlope (i + 1) * t' / 2 ^ 15.
Proof.
  intros Hi Ht. assert (In i (seqZ 0 48)) as Hin by (apply list_elem_of_In, elem_of_seqZ; lia).
  vm_compute in Hin. cbn zeta.
  repeat (destruct Hin as [<- | Hin];
    [match goal with |- context [arr kHistEdges ?a - arr kHistEdges ?b] =>
       let x := eval vm_compute in (arr kHistEdges a) in change (arr kHistEdges a) with x;
       let y := eval vm_compute in (arr kHistEdges b) in change (arr kHistEdges b) with y;
       let x := eval vm_compute in (arr kCdfLogistic a) in change (arr kCdfLogistic a) with x;
       let y := eval vm_compute in (arr kCdfLogistic b) in change (arr kCdfLogistic b) with y;
       let x := eval vm_compute in (arr kCdfSlope a) in change (arr kCdfSlope a) with x;
       let y := eval vm_compute in (arr kCdfSlope b) in change (arr kCdfSlope b) with y end;
     Z.div_mod_to_equations; lia|]).
  destruct Hin.
Qed.

Lemma slope_min i : 0 <= i < 49 -> 5 <= arr kCdfSlope i.
Proof.
  intros Hi. apply Z.leb_le. revert Hi. apply (all_below (fun i => 5 <=? arr kCdfSlope i)). reflexivity.
Qed.

Lemma Piecewise_step a b : -327680 <= a -> a + 6554 <= b -> a + 6554 < 314573 ->
  WebRtcIsacfix_Piecewise a < WebRtcIsacfix_Piecewise b.
Proof.
  intros Ha Hab Hb. apply Z.lt_le_trans with (WebRtcIsacfix_Piecewise (a + 6554));
    [|by apply Piecewise_mono].
  destruct (Piecewise_eq a) as [-> _], (Piecewise_eq (a + 6554)) as [-> _].
  replace (clamp (-327680) 327680 a) with a by (unfold clamp; lia).
  replace (clamp (-327680) 327680 (a + 6554)) with (a + 6554) by (unfold clamp; lia).
  pose proof (seg_bounds a ltac:(lia)) as (Hs & Ht & _).
  pose proof (seg_bounds (a + 6554) ltac:(lia)) as (Hs' & Ht' & _).
  assert (seg (a + 6554) <= 48) by (unfold seg; Z.div_mod_to_equations; lia).
  assert (seg (a + 6554) = seg a \/ seg (a + 6554) = seg a + 1) as [E|E]
    by (unfold seg; Z.div_mod_to_equations; lia); rewrite E in *; unfold seg_val.
  - pose proof (slope_min (seg a) ltac:(lia)). set (S := arr kCdfSlope (seg a)) in *.
    set (t := a - arr kHistEdges (seg a)) in *.
    replace (a + 6554 - arr kHistEdges (seg a)) with (t + 6554) by (unfold t; lia).
    assert (S * t / 2 ^ 15 + 1 <= S * (t + 6554) / 2 ^ 15); [|lia].
    rewrite <- Z.div_add by lia. apply Z.div_le_mono; nia.
  - pose proof (seg_cross (seg a) (a - arr kHistEdges (seg a)) ltac:(lia) ltac:(lia)) as Hc.
    cbn zeta in Hc.
    replace (a - arr kHistEdges (seg a) + 6554 - (arr kHistEdges (seg a + 1) - arr kHistEdges (seg a)))
      with (a + 6554 - arr kHistEdges (seg a + 1)) in Hc by lia.
    specialize (Hc (proj1 Ht')). lia.
Qed.

(** The ends of the scale. *)
Lemma Piecewise_top a : 314573 <= a -> 65534 <= WebRtcIsacfix_Piecewise a.
Proof. intros H. apply (Piecewise_mono 314573 a H). Qed.
Lemma Piecewise_bottom a : a <= -327680 -> WebRtcIsacfix_Piecewise a <= 0.
Proof. intros H. apply (Piecewise_mono a (-327680) H). Qed.

(** From [env = 52] (0.2 in Q8) on, every sample the encoder keeps is found. *)
Lemma scan_ok_wide d e x : 52 <= e < 2 ^ 16 -> sample_ok x ->
  cdf_at (x - 64) e + 2 <= cdf_at (x + 64) e -> -64 <= d <= 64 -> scan_ok d e x.
Proof.
  intros He [Hx1 Hx2] Hg Hd j Hj. unfold is_i16 in *.
  assert (is_u16 e) as Hu by (unfold is_u16; lia).
  rewrite !cdf_at_eq in Hg by (unfold is_i16; auto; lia).
  rewrite !cdf_at_eq by (unfold is_i16; auto; lia).
  pose proof (Piecewise_range ((x - 64) * e)). pose proof (Piecewise_range ((x + 64) * e)).
  assert ((x - 64) * e < 314573).
  { destruct (Z.lt_ge_cases ((x - 64) * e) 314573) as [|Hge]; [done|]. apply Piecewise_top in Hge. lia. }
  assert (-327680 < (x + 64) * e).
  { destruct (Z.lt_ge_cases (-327680) ((x + 64) * e)) as [|Hge]; [done|]. apply Piecewise_bottom in Hge. lia. }
  assert ((64 - d + 128 * (j + 1)) * e = (64 - d + 128 * j) * e + 128 * e) as Es by ring.
  destruct Hj as [[Hj1 Hj2]|[Hj1 Hj2]].
  - assert (0 <= (64 - d + 128 * j) * e) by nia.
    assert ((64 - d + 128 * (j + 1)) * e <= (x - 64) * e) by nia.
    apply Piecewise_step; lia.
  - assert ((64 - d + 128 * (j + 1)) * e <= 0) by nia.
    assert ((x + 64) * e <= (64 - d + 128 * j) * e) by nia.
    apply Piecewise_step; lia.
Qed.

(** ** The encoder loop *)

Definition interval_of (e x : Z) : Z * Z := (cdf_at (x - 64) e, cdf_at (x + 64) e).

(** Sample [k] uses width [k / 4]. *)
Fixpoint lg_intervals (k : Z) (xs env : list Z) : list (Z * Z) :=
  match xs with
  | [] => []
  | x :: xs => interval_of (arr env (k / 4)) x :: lg_intervals (k + 1) xs env
  end.

(** [P width a b] for the samples of two arrays, from number [k] on. *)
Fixpoint samples_rel (P : Z -> Z -> Z -> Prop) (env : list Z) (k : Z) (xs ys : list Z) : Prop :=
  match xs, ys with
  | [], [] => True
  | x :: xs, y :: ys => P (arr env (k / 4)) x y /\ samples_rel P env (k + 1) xs ys
  | _, _ => False
  end.

Lemma samples_rel_length P env k xs ys : samples_rel P env k xs ys -> length xs = length ys.
Proof.
  revert k ys. induction xs as [|x xs IH]; intros k [|y ys] H; try done. simpl. f_equal. by eapply IH, H.
Qed.

Lemma env_step k : 0 <= k -> k / 4 + Z.land (Z.land k 1) (k ≫ 1) = (k + 1) / 4.
Proof.
  intros Hk. rewrite shiftr_div by lia. change 1 with (2 ^ 1 - 1) at 1. rewrite land_ones_mod by lia.
  change (2 ^ 1) with 2. assert (k mod 2 = 0 \/ k mod 2 = 1) as [E|E] by (Z.div_mod_to_equations; lia);
    rewrite E.
  - rewrite Z.land_0_l. Z.div_mod_to_equations. lia.
  - rewrite Z.land_comm. change 1 with (2 ^ 1 - 1). rewrite land_ones_mod by lia. change (2 ^ 1) with 2.
    Z.div_mod_to_equations. lia.
Qed.

Lemma enc_logistic_loop_spec env data : Forall (fun e => 1 <= e < 2 ^ 16) env ->
  forall k l V W n, 0 <= k -> k + Z.of_nat (length data) <= 4 * Z.of_nat (length env) ->
  Forall sample_ok data -> enc_rel l V W n -> 2 ^ 24 <= W ->
  exists xs r, enc_logistic_loop l k data env (k / 4) = Some (xs, r) /\
  match r with
  | inr l' => exists V' W' n', enc_rel l' V' W' n' /\ 2 ^ 24 <= W' /\
      (n' <= n + 3 * length data)%nat /\
      samples_rel (fun e x x' => clipped x e x') env k data xs /\
      trace V W n (lg_intervals k xs env) V' W' n'
  | inl _ => (400 <= n + 3 * length data)%nat
  end.
Proof.
  intros Henv. pose proof clip_sample_spec as Hclip. unfold enc_logistic_loop. revert Hclip.
  generalize clip_sample as clip. intros clip Hclip.
  induction data as [|x data IH]; intros k l V W n Hk Hlen Hd Hr HW.
  - exists [], (inr l). split; [done|]. exists V, W, n.
    split; [done|]. split; [done|]. split; [lia|]. split; [done|constructor].
  - apply Forall_cons_iff in Hd as [Hx Hd]. cbn [length] in *.
    assert (0 <= k / 4 < Z.of_nat (length env)) as Hi by (Z.div_mod_to_equations; lia).
    assert (exists e, rd env (k / 4) = Some e /\ arr env (k / 4) = e /\ 1 <= e < 2 ^ 16)
      as (e & -> & Ee & He).
    { eexists. split; [by apply rd_Some|]. split; [done|].
      apply (proj1 (Forall_forall _ _) Henv). apply nth_In. lia. }
    bind_simpl.
    destruct (Hclip x e He Hx) as (x' & -> & Hc). bind_simpl.
    pose proof (cdf_at_u16 (x' - 64) e) as Hu1. pose proof (cdf_at_u16 (x' + 64) e) as Hu2.
    unfold is_u16 in Hu1, Hu2. pose proof Hc as (Hok & _ & _ & Hg).
    destruct (enc_symbol_spec l V W n (cdf_at (x' - 64) e) (cdf_at (x' + 64) e) Hr HW ltac:(lia) ltac:(lia))
      as [(l1 & j & -> & Hr1 & Hb1 & Hj & Hjs)|(l1 & -> & Hn)]; bind_simpl.
    + rewrite env_step by lia.
      destruct (IH (k + 1) l1 _ _ _ ltac:(lia) ltac:(lia) Hd Hr1 Hb1) as (xs & r & -> & Hcase). bind_simpl.
      exists (x' :: xs), r. split; [done|]. destruct r as [l2|l2]; [lia|].
      destruct Hcase as (V' & W' & n' & Hr' & HW' & Hn' & Hcl & Ht). exists V', W', n'.
      split; [done|]. split; [done|]. split; [lia|]. split; [by rewrite <- Ee in Hc|].
      cbn [lg_intervals]. rewrite Ee. unfold interval_of. econstructor; try done; [lia|lia|].
      split; [done|]. pose proof (er_Wr _ _ _ _ Hr1) as H. unfold is_u32 in H. lia.
    + eexists _, _. split; [done|]. cbn beta iota. lia.
Qed.

Lemma EncLogisticMulti2_spec st V W n data env : enc_inv st V W n ->
  Forall (fun e => 1 <= e < 2 ^ 16) env -> Forall sample_ok data ->
  (length data <= 4 * length env)%nat ->
  exists xs ret st', WebRtcIsacfix_EncLogisticMulti2 st data env = Some (xs, ret, st') /\
    ((ret = 0 /\ exists V' W' n', enc_inv st' V' W' n' /\ (n' <= n + 3 * length data)%nat /\
        samples_rel (fun e x x' => clipped x e x') env 0 data xs /\
        trace V W n (lg_intervals 0 xs env) V' W' n') \/
     (ret = - ISAC_DISALLOWED_BITSTREAM_LENGTH /\ (400 <= n + 3 * length data)%nat)).
Proof.
  intros [Hr HW] He Hd Hlen. unfold WebRtcIsacfix_EncLogisticMulti2.
  destruct (enc_logistic_loop_spec env data He 0 (enc_start st) V W n ltac:(lia) ltac:(lia) Hd Hr HW)
    as (xs & r & E & Hcase). change (0 / 4) with 0 in E. rewrite E. bind_simpl.
  destruct r as [l|l]; cbn beta iota zeta; eexists _, _, _; (split; [done|]); [by right|left].
  split; [done|]. destruct Hcase as (V' & W' & n' & Hr' & HW' & Hn' & Hcl & Ht).
  exists V', W', n'. split; [|done]. by apply (enc_finish_inv st).
Qed.

(** ** The decoder loop *)

Definition to_dl (l : lg_loop) : dec_loop := mkDLoop (lg_ptr l + lg_off l) (lg_full l) (lg_val l) (lg_W l).

(** The pointer stops at [size] and only then is anything counted. *)
Definition lg_inv (size : Z) (l : lg_loop) : Prop := 0 <= lg_off l /\ (lg_off l = 0 \/ size <= lg_ptr l).

(** Behind the packet the array holds zeros, as the decoder's set-up and the
    copy of the packet leave it. *)
Definition zero_from (s : list Z) (size : Z) : Prop := forall i c, size <= i -> cell s i = Some c -> c = 0.

(** Reading zeros behind the packet is reading the array there. *)
Lemma lg_renorm_sim s size fuel : zero_from s size -> forall l d, lg_inv size l ->
  dec_renorm fuel s (to_dl l) = Some d ->
  exists l', lg_renorm fuel s size l = Some l' /\ to_dl l' = d /\ lg_inv size l'.
Proof.
  intros Hz. induction fuel as [|fuel IH]; intros l d [H0 Hi]; cbn [dec_renorm lg_renorm];
    change (dl_W (to_dl l)) with (lg_W l); destruct (W_small (lg_W l)); try done;
    try (intros [= <-]; exists l; done).
  change (dl_ptr (to_dl l)) with (lg_ptr l + lg_off l). change (dl_val (to_dl l)) with (lg_val l).
  change (dl_full (to_dl l)) with (lg_full l).
  destruct (cell s (lg_ptr l + lg_off l)) as [c|] eqn:Ec; [|by intros [=]]. cbn [mbind option_bind].
  intros Hd. cbn zeta. destruct (Z.ltb_spec (lg_ptr l) size).
  - assert (lg_off l = 0) as E0 by lia. rewrite E0, Z.add_0_r in Ec. rewrite Ec. bind_simpl.
    apply IH; [destruct (lg_full l =? 0); split; cbn; lia|].
    rewrite <- Hd. unfold to_dl. cbn [dl_ptr dl_full dl_val dl_W].
    destruct (lg_full l =? 0); cbn [lg_ptr lg_off lg_full lg_val lg_W]; rewrite ?E0, ?Z.add_0_r; done.
  - assert (c = 0) as -> by (apply (Hz (lg_ptr l + lg_off l)); [lia|done]). bind_simpl.
    apply IH; [destruct (lg_full l =? 0); split; cbn; lia|].
    rewrite <- Hd. unfold to_dl. cbn [dl_ptr dl_full dl_val dl_W].
    destruct (lg_full l =? 0); cbn [lg_ptr lg_off lg_full lg_val lg_W];
      rewrite ?Z.land_0_l, ?Z.shiftr_0_l, ?Z.lor_0_r, ?Z.add_assoc; done.
Qed.

(** What makes the search find sample [x] from dither [d]. *)
Definition findable (e d x : Z) : Prop :=
  is_u16 e /\ sample_ok x /\ -64 <= d <= 64 /\ (x + d) mod 128 = 0 /\
  cdf_at (x - 64) e + 2 <= cdf_at (x + 64) e /\ scan_ok d e x.

Lemma findable_search e d x W v : findable e d x -> is_u32 W -> 2 ^ 24 <= W ->
  W_scale W (cdf_at (x - 64) e) < v <= W_scale W (cdf_at (x + 64) e) ->
  lg_search d e W v = Some (inr (x, W_scale W (cdf_at (x - 64) e), W_scale W (cdf_at (x + 64) e))).
Proof. intros (H1 & H2 & H3 & H4 & H5 & H6) HW HWb Hv. by apply lg_search_found. Qed.

Section DecodeLogistic.
Context (s : list Z) (Hs : Forall is_u16 s) (size : Z) (Hz : zero_from s size).

Lemma lg_samples_spec env e n : forall k xs ys ds es l V W m V' W' m',
  length xs = n -> (forall i, k <= i < k + Z.of_nat n -> arr env (i / 4) = e) ->
  samples_rel findable env k (ds ++ es) (xs ++ ys) -> length ds = n ->
  lg_inv size l -> dec_rel s (to_dl l) V W (m + 4) -> 2 ^ 24 <= W ->
  trace V W m (lg_intervals k (xs ++ ys) env) V' W' m' ->
  in_range s V' W' (m' + 4) -> (m' + 4 <= 2 * length s)%nat ->
  exists l' V1 W1 m1, lg_samples n s size e l (ds ++ es) = Some (xs, es, inr l') /\
    lg_inv size l' /\ dec_rel s (to_dl l') V1 W1 (m1 + 4) /\ 2 ^ 24 <= W1 /\
    trace V1 W1 m1 (lg_intervals (k + Z.of_nat n) ys env) V' W' m' /\
    samples_rel findable env (k + Z.of_nat n) es ys.
Proof.
  pose proof findable_search as Hsearch. unfold lg_samples. revert Hsearch.
  generalize lg_search as search. intros search Hsearch.
  induction n as [|n IH]; intros k xs ys ds es l V W m V' W' m' Hn He Hf Hd Hi Hr HW Ht Hin Hm.
  - destruct xs, ds; try done. exists l, V, W, m. rewrite Z.add_0_r. done.
  - destruct xs as [|x xs]; [done|]. destruct ds as [|d ds]; [done|].
    injection Hn as Hn. injection Hd as Hd. rewrite <- !app_comm_cons in *.
    cbn [samples_rel lg_intervals] in Hf, Ht. destruct Hf as [Hfx Hf].
    rewrite (He k ltac:(lia)) in Hfx, Ht. unfold interval_of in Ht.
    destruct (decode_interval s (to_dl l) _ _ V W m _ V' W' m' Hs HW Ht Hr Hin Hm)
      as (Hv & l1 & V1 & W1 & m1 & E1 & Hr1 & HW1 & Ht1).
    assert (lg_W l = W) as EW by exact (dr_W _ _ _ _ _ Hr). rewrite <- EW in E1, Hv.
    assert (is_u32 (lg_W l)) as HWu by (rewrite EW; apply Hr).
    change (dl_val (to_dl l)) with (lg_val l) in E1, Hv.
    rewrite (Hsearch e d x (lg_W l) (lg_val l) Hfx HWu ltac:(lia) Hv).
    bind_simpl. set (lo := W_scale (lg_W l) (cdf_at (x - 64) e)) in *.
    set (hi := W_scale (lg_W l) (cdf_at (x + 64) e)) in *. clearbody lo hi.
    destruct (lg_renorm_sim s size (dec_fuel s) Hz (mkLg (lg_ptr l) (lg_off l) (lg_full l)
      (u32 (lg_val l - u32 (lo + 1))) (u32 (hi - u32 (lo + 1)))) l1) as (l2 & E2 & <- & Hi2); [exact Hi|exact E1|].
    cbn zeta. rewrite E2. bind_simpl.
    destruct (IH (k + 1) xs ys ds es l2 V1 W1 m1 V' W' m' Hn ltac:(intros; apply He; lia) Hf Hd Hi2 Hr1 HW1 Ht1 Hin Hm)
      as (l' & V2 & W2 & m2 & -> & H1 & H2 & H3 & H4 & H5). bind_simpl.
    exists l', V2, W2, m2. replace (k + Z.of_nat (S n)) with (k + 1 + Z.of_nat n) by lia. done.
Qed.

(** The widths the decoder computes, one per four samples. *)
Fixpoint newton_roots (specs : list Z) (res : Z) : option (list Z) :=
  match specs with
  | [] => Some []
  | spec :: specs =>
      '(res, newRes) ← newton_root spec res;
      envs ← newton_roots specs res;
      Some (u16 newRes :: envs)
  end.

Lemma lg_groups_spec env n : forall g specs res xs ds l V W m V' W' m',
  newton_roots specs res = Some (drop g env) -> length specs = n ->
  length xs = (4 * n)%nat -> samples_rel findable env (4 * Z.of_nat g) ds xs ->
  lg_inv size l -> dec_rel s (to_dl l) V W (m + 4) -> 2 ^ 24 <= W ->
  trace V W m (lg_intervals (4 * Z.of_nat g) xs env) V' W' m' ->
  in_range s V' W' (m' + 4) -> (m' + 4 <= 2 * length s)%nat ->
  exists l', lg_groups n s size specs res l ds = Some (xs, [], inr l') /\
    dec_rel s (to_dl l') V' W' (m' + 4) /\ 2 ^ 24 <= W'.
Proof.
  pose proof (lg_samples_spec env) as Hsamples. unfold lg_groups. revert Hsamples.
  generalize lg_samples as samples. intros samples Hsamples.
  induction n as [|n IH]; intros g specs res xs ds l V W m V' W' m' Hroot Hsp Hx Hf Hi Hr HW Ht Hin Hm.
  - destruct xs, ds; try done. cbn [lg_intervals] in Ht. inversion Ht; subst. by exists l.
  - destruct specs as [|spec specs]; [done|]. injection Hsp as Hsp. cbn [newton_roots] in Hroot.
    destruct (newton_root spec res) as [[res' newRes]|]; [|done]. cbn [mbind option_bind] in Hroot |- *.
    destruct (newton_roots specs res') as [envs|] eqn:Eroots; [|done]. cbn [mbind option_bind] in Hroot.
    injection Hroot as Hroot.
    assert (arr env (Z.of_nat g) = u16 newRes /\ drop (S g) env = envs) as [Eg Edrop].
    { assert (env !! g = Some (u16 newRes)) as El.
      { replace g with (g + 0)%nat at 1 by lia. rewrite <- lookup_drop, <- Hroot. done. }
      split; [unfold arr; rewrite Nat2Z.id; by apply nth_lookup_Some with (d := 0) in El|].
      rewrite (drop_S _ _ _ El) in Hroot. by injection Hroot. }
    pose proof (samples_rel_length _ _ _ _ _ Hf) as Hlen.
    rewrite <- (firstn_skipn 4 xs), <- (firstn_skipn 4 ds) in Hf.
    rewrite <- (firstn_skipn 4 xs) in Ht |- *.
    destruct (Hsamples (u16 newRes) 4%nat (4 * Z.of_nat g) (take 4 xs) (drop 4 xs) (take 4 ds) (drop 4 ds)
      l V W m V' W' m') as (l1 & V1 & W1 & m1 & E1 & Hi1 & Hr1 & HW1 & Ht1 & Hf1);
      try done; try (rewrite length_take; lia).
    { intros i Hi'. rewrite <- Eg. f_equal. Z.div_mod_to_equations. lia. }
    rewrite <- (firstn_skipn 4 ds), E1. cbn [mbind option_bind].
    replace (4 * Z.of_nat g + Z.of_nat 4) with (4 * Z.of_nat (S g)) in Ht1, Hf1 by lia.
    destruct (IH (S g) specs res' (drop 4 xs) (drop 4 ds) l1 V1 W1 m1 V' W' m')
      as (l' & -> & Hl'); try done; [by rewrite Edrop|rewrite length_drop; lia|].
    cbn [mbind option_bind]. by exists l'.
Qed.
End DecodeLogistic.

Lemma DecLogisticMulti2_spec st V W n V' W' n' dither specs env xs :
  Forall is_u16 (d_stream st) -> length (d_stream st) = Z.to_nat INTERNAL_STREAM_SIZE_W16 ->
  zero_from (d_stream st) (d_stream_size st) -> dec_inv st V W n -> specs <> [] ->
  newton_roots specs (newton_start (arr specs 0)) = Some env ->
  length xs = (4 * length specs)%nat -> samples_rel findable env 0 dither xs ->
  trace V W n (lg_intervals 0 xs env) V' W' n' -> in_range (d_stream st) V' W' (n' + 4) ->
  (n' + 4 <= 2 * length (d_stream st))%nat ->
  exists st', WebRtcIsacfix_DecLogisticMulti2 dither st specs (Z.of_nat (length xs))
    = Some (xs, Z.of_nat (n' + term_bytes W'), st') /\
    d_stream st' = d_stream st /\ d_stream_size st' = d_stream_size st /\ dec_inv st' V' W' n'.
Proof.
  intros Hs Hl Hz Hi Hne Hroot Hx Hf Ht Hin Hn.
  destruct (dec_start_spec st V W n Hs ltac:(rewrite Hl; unfold INTERNAL_STREAM_SIZE_W16, STREAM_MAXW16; lia) Hi)
    as (l & E & Hr).
  unfold WebRtcIsacfix_DecLogisticMulti2. rewrite E. bind_simpl.
  rewrite rd_Some by (destruct specs; cbn; [done|lia]). bind_simpl.
  replace (Z.to_nat ((Z.of_nat (length xs) + 3) / 4)) with (length specs)
    by (rewrite Hx; Z.div_mod_to_equations; lia).
  destruct (lg_groups_spec (d_stream st) Hs (d_stream_size st) Hz env (length specs) 0 specs
    (newton_start (arr specs 0)) xs dither (mkLg (dl_ptr l) 0 (dl_full l) (dl_val l) (dl_W l)) V W n V' W' n')
    as (l' & -> & Hr' & HW'); try done.
  - split; [done|]. by left.
  - unfold to_dl. cbn. rewrite Z.add_0_r. by destruct l.
  - apply Hi.
  - bind_simpl. rewrite app_nil_r. fold (to_dl l').
    destruct (dec_store_spec st (to_dl l') V' W' n' Hl Hr' HW' Hn) as (-> & _ & Es & Hi').
    eexists. split; [done|]. done.
Qed.

(** ** Round trip of the spectrum *)

(** Samples the encoder may receive with this dither: what adding the dither
    and rounding to a multiple of 128 yields. *)
Definition dithered (d x : Z) : Prop := -64 <= d <= 64 /\ (x + d) mod 128 = 0.

Lemma clipped_findable env k data xs dither : Forall (fun e => 52 <= e < 2 ^ 16) env ->
  0 <= k -> k + Z.of_nat (length data) <= 4 * Z.of_nat (length env) ->
  samples_rel (fun e x x' => clipped x e x') env k data xs -> Forall2 dithered dither data ->
  samples_rel findable env k dither xs.
Proof.
  intros He. revert k xs dither. induction data as [|x data IH]; intros k [|x' xs] dither Hk Hl Hc Hd; try done.
  - by apply Forall2_nil_inv_r in Hd as ->.
  - apply Forall2_cons_inv_r in Hd as (d & ds & [Hd1 Hd2] & Hd & ->). destruct Hc as [(H1 & H2 & _ & H3) Hc].
    cbn [length] in Hl. split; [|apply (IH (k + 1) xs ds); try done; lia].
    assert (52 <= arr env (k / 4) < 2 ^ 16) as He'.
    { apply (proj1 (Forall_forall _ _) He). apply nth_In. Z.div_mod_to_equations. lia. }
    split; [unfold is_u16; lia|]. split; [done|]. split; [done|]. split.
    + replace (x' + d) with (x' - x + (x + d)) by lia. by rewrite Z.add_mod, H2, Hd2 by lia.
    + split; [done|]. by apply scan_ok_wide.
Qed.

Lemma newton_roots_shape specs : forall res env, newton_roots specs res = Some env ->
  length env = length specs /\ Forall (fun e => e < 2 ^ 16) env.
Proof.
  induction specs as [|spec specs IH]; intros res env; cbn [newton_roots]; [by intros [= <-]|].
  destruct (newton_root spec res) as [[r nr]|]; [|by intros [=]]. cbn [mbind option_bind].
  destruct (newton_roots specs r) as [es|] eqn:E; [|by intros [=]]. intros [= <-].
  destruct (IH _ _ E) as [H1 H2]. split; [cbn; by rewrite H1|]. constructor; [apply u16_range|done].
Qed.

(** C5: round trip of the logistic coder.  A spectrum encoded by
    [WebRtcIsacfix_EncLogisticMulti2] behind any histogram-coded parameters is
    returned sample for sample by [WebRtcIsacfix_DecLogisticMulti2], which gets
    only the dither, the squared widths (whose roots it computes itself) and
    the bytes of the terminated stream; it returns the stream length, and it
    never needs more than those bytes.  The samples are those of the input
    moved, where the cdf is too flat, towards zero by multiples of 128.  The
    widths have to be at least 52 (0.2 in Q8). *)
Theorem logistic_round_trip chunks data env dither specs stream ds size st xs st1 len st2 :
  Forall chunk_ok chunks -> chunks <> [] ->
  Forall sample_ok data -> Forall2 dithered dither data -> specs <> [] ->
  length data = (4 * length specs)%nat ->
  newton_roots specs (newton_start (arr specs 0)) = Some env -> Forall (fun e => 52 <= e) env ->
  Forall is_u16 stream -> length stream = Z.to_nat STREAM_MAXW16_60MS ->
  encode_chunks (enc_reset stream) chunks = Some (0, st) ->
  WebRtcIsacfix_EncLogisticMulti2 st data env = Some (xs, 0, st1) ->
  WebRtcIsacfix_EncTerminate st1 = Some (len, st2) ->
  Forall is_u16 ds -> length ds = Z.to_nat INTERNAL_STREAM_SIZE_W16 -> zero_from ds size ->
  (forall i, (i < Z.to_nat len)%nat -> byteat ds i = byteat (e_stream st2) i) ->
  samples_rel (fun e x x' => clipped x e x') env 0 data xs /\
  exists ret dst dst',
    decode_chunks (dec_reset ds size) chunks 0 = Some (map ck_data chunks, ret, dst) /\
    WebRtcIsacfix_DecLogisticMulti2 dither dst specs (Z.of_nat (length data)) = Some (xs, len, dst').
Proof.
  intros Hok Hne Hdata Hdi Hsp Hlen Hroot He Hs Hl Ec El Et Hds Hld Hz Hag.
  destruct (newton_roots_shape _ _ _ Hroot) as [Henv Hu].
  assert (Forall (fun e => 52 <= e < 2 ^ 16) env) as He'.
  { apply Forall_forall. intros e Hin. rewrite Forall_forall in He, Hu. split; auto. }
  destruct (encode_chunks_spec chunks (enc_reset stream) 0 (2 ^ 32 - 1) 0) as (r0 & st0 & E0 & Hc0);
    [by apply enc_reset_inv|exact (Forall_impl _ chunk_ok_syms Hok)|].
  rewrite Ec in E0. injection E0 as <- <-.
  destruct Hc0 as [(_ & V & W & n & Hi & _ & Htr)|(? & _)]; [|done].
  destruct (EncLogisticMulti2_spec st V W n data env Hi) as (xs' & r1 & st1' & E1 & Hc1);
    [exact (Forall_impl _ (fun e H => conj (Z.le_trans 1 52 e ltac:(done) (proj1 H)) (proj2 H)) He')|done|lia|].
  rewrite El in E1. injection E1 as <- <- <-.
  destruct Hc1 as [(_ & V' & W' & n' & Hi' & _ & Hcl & Htr')|(? & _)]; [|done]. split; [done|].
  pose proof (samples_rel_length _ _ _ _ _ Hcl) as Hlx.
  destruct (terminate_ready st1 V' W' n' ds len st2 Hi' Et Hds Hld Hag) as (-> & Hin' & Hroom).
  pose proof (trace_nested ds _ _ _ _ _ _ _ Hds (proj2 Hi) Htr' Hin') as Hin.
  pose proof (trace_mono _ _ _ _ _ _ _ Htr') as Hmono.
  destruct (decode_chunks_spec ds Hds Hld chunks (dec_reset ds size) 0 (2 ^ 32 - 1) 0 V W n 0)
    as (dst & Ed & Est & Hz' & Hdi'); try done; [split; [done|]; split; [done|]; by left|lia|].
  destruct (DecLogisticMulti2_spec dst V W n V' W' n' dither specs env xs) as (dst' & E' & _);
    rewrite ?Est; try done; try lia; [by rewrite Hz'|apply clipped_findable with data; try done; lia|].
  exists (Z.of_nat (n + term_bytes W)), dst, dst'. split; [done|]. by rewrite Hlx.
Qed.

(** *** A small spectrum, used by the witness *)

Definition ex_data : list Z := [118; 148; 12800; -5].
Definition ex_dither : list Z := [10; -20; 0; 5].
Definition ex_coded : option (list Z * Z * Bitstr_enc) :=
  WebRtcIsacfix_EncLogisticMulti2 example_st ex_data [256].
Definition ex_st1 : Bitstr_enc := default (enc_reset []) (snd <$> ex_coded).
Definition ex_xs : list Z := default [] ((fun r => r.1.1) <$> ex_coded).
Definition ex_st2 : Bitstr_enc := default (enc_reset []) (snd <$> WebRtcIsacfix_EncTerminate ex_st1).
Definition ex_ds : list Z := take 3 (e_stream ex_st2) ++ replicate 302 0.

Lemma zero_from_tail l n size : Z.of_nat (length l) <= size -> zero_from (l ++ replicate n 0) size.
Proof.
  intros Hl i c Hi. unfold cell. destruct (0 <=? i) eqn:E0; [|by intros [=]].
  rewrite lookup_app_r by lia. intros H%lookup_replicate. apply H.
Qed.

Lemma logistic_round_trip_witness :
  exists ret dst dst',
    decode_chunks (dec_reset ex_ds 3) example_chunks 0 = Some (map ck_data example_chunks, ret, dst) /\
    WebRtcIsacfix_DecLogisticMulti2 ex_dither dst [65536] 4 = Some (ex_xs, 5, dst').
Proof.
  destruct (logistic_round_trip example_chunks ex_data [256] ex_dither [65536] (replicate 200 0) ex_ds 3
    example_st ex_xs ex_st1 5 ex_st2) as [_ H].
  - exact example_ok.
  - done.
  - repeat constructor; unfold is_i16; lia.
  - repeat constructor; cbn; try lia; reflexivity.
  - done.
  - reflexivity.
  - vm_compute. reflexivity.
  - repeat constructor; lia.
  - apply Forall_replicate. unfold is_u16. lia.
  - reflexivity.
  - vm_compute. reflexivity.
  - vm_compute. reflexivity.
  - vm_compute. reflexivity.
  - apply (bool_decide_unpack (Forall is_u16 ex_ds)). vm_compute. exact I.
  - vm_compute. reflexivity.
  - apply zero_from_tail. vm_compute. discriminate.
  - intros i Hi. change (Z.to_nat 5) with 5%nat in Hi.
    do 5 (destruct i as [|i]; [vm_compute; reflexivity|]). lia.
  - exact H.
Defined.

(** ** Where the decoder gives up *)

(** With the width 1 the cdf never reaches the top of the scale: the upward
    scan for the value 0xFFFFFFFF wraps round in [int16_t] and goes on for
    ever, whatever the number of rounds. *)
Lemma scan_hangs fuel m lo : -256 <= m < 256 ->
  lg_up fuel 1 0xFFFFFFFF 0xFFFFFFFF (64 + 128 * m) lo (W_scale 0xFFFFFFFF (cdf_at (64 + 128 * m) 1)) = None.
Proof.
  assert (forall m, -256 <= m < 256 ->
    (W_scale 0xFFFFFFFF (cdf_at (64 + 128 * m) 1) <? 0xFFFFFFFF) = true /\
    (W_scale 0xFFFFFFFF (cdf_at (64 + 128 * m) 1) =?
     W_scale 0xFFFFFFFF (cdf_at (i16 (64 + 128 * m + 128)) 1)) = false) as Hstep.
  { clear. intros m Hm.
    pose proof (all_below (fun k => let c := 64 + 128 * (k - 256) in
      (W_scale 0xFFFFFFFF (cdf_at c 1) <? 0xFFFFFFFF) &&
      negb (W_scale 0xFFFFFFFF (cdf_at c 1) =? W_scale 0xFFFFFFFF (cdf_at (i16 (c + 128)) 1)))
      512 (m + 256) ltac:(vm_compute; reflexivity) ltac:(lia)) as H.
    cbn beta zeta in H. replace (m + 256 - 256) with m in H by lia.
    apply andb_true_iff in H as [H1 H2]. split; [done|]. by apply negb_true_iff in H2. }
  revert m lo. induction fuel as [|fuel IH]; intros m lo Hm; cbn [lg_up];
    destruct (Hstep m Hm) as [-> E]; [done|]. cbn zeta. rewrite E.
  destruct (decide (m = 255)) as [->|Hne].
  - change (i16 (64 + 128 * 255 + 128)) with (64 + 128 * (-256)). apply IH. lia.
  - rewrite i16_id by (unfold is_i16; lia). replace (64 + 128 * m + 128) with (64 + 128 * (m + 1)) by lia.
    apply IH. lia.
Qed.

(** A decoder that has just been set up for a packet of [2 * size] bytes. *)
Definition fresh_dec (stream : list Z) (size : Z) : Bitstr_dec := mkDec stream 0xFFFFFFFF 0 0 1 size.

(** Limits of the logistic decoder.  At width 7 the encoder accepts the
    sample 22416 (dither -16) unchanged and returns 0, but two candidates on
    the way to it have the same cdf value and the decoder answers -1 on that
    very stream.  At width 1 a stream of ones sends the upward scan round for
    ever.  A squared width of 0 makes the decoder divide by zero. *)
Theorem logistic_limits :
  (exists st1 len st2 dst,
     WebRtcIsacfix_EncLogisticMulti2 (enc_reset (replicate 200 0)) [22416; 0; 0; 0] [7]
       = Some ([22416; 0; 0; 0], 0, st1) /\
     WebRtcIsacfix_EncTerminate st1 = Some (len, st2) /\
     newton_roots [49] (newton_start 49) = Some [7] /\ dithered (-16) 22416 /\
     WebRtcIsacfix_DecLogisticMulti2 [-16; 0; 0; 0]
       (fresh_dec (e_stream st2 ++ replicate 105 0) ((len + 1) / 2)) [49] 4
       = Some ([-16; 0; 0; 0], -1, dst)) /\
  (newton_roots [1] (newton_start 1) = Some [1] /\
   lg_search 0 1 0xFFFFFFFF 0xFFFFFFFF = None /\
   forall fuel lo, lg_up fuel 1 0xFFFFFFFF 0xFFFFFFFF 192 lo (W_scale 0xFFFFFFFF (cdf_at 192 1)) = None) /\
  (newton_root 0 (newton_start 0) = None /\
   forall specs dither st, WebRtcIsacfix_DecLogisticMulti2 dither st (0 :: specs) 4 = None).
Proof.
  split; [|split; [split; [|split]|split]].
  - eexists _, _, _, _. split; [vm_compute; reflexivity|]. split; [vm_compute; reflexivity|].
    split; [vm_compute; reflexivity|]. split; [split; [lia|reflexivity]|]. vm_compute. reflexivity.
  - reflexivity.
  - vm_compute. reflexivity.
  - intros fuel lo. exact (scan_hangs fuel 1 lo ltac:(lia)).
  - reflexivity.
  - intros specs dither st. unfold WebRtcIsacfix_DecLogisticMulti2. by destruct (dec_start st).
Qed.
