(* ===== verification/IsacTransmit.v ===== *)
(** What an encoder function of the iSAC codec promises to the decoder
    function that reads its output.

    [transmits] relates one encoder step to the decoder that undoes it, for any
    position in a packet; it composes ([transmits_bind]), so that the round trip
    of a packet follows from the round trips of its parts.  [StreamCodec] is the
    interface the parts implement. *)
From S2P Require Import Prelude SplInl IsacArith IsacStream IsacEncoder IsacDecoder IsacLogistic.

(** A decoder function: the values read, the return value and the stream. *)
Definition decoder (A : Type) : Type := Bitstr_dec -> option (A * Z * Bitstr_dec).

(** Running two decoder functions, as the callers do: a negative return value
    ends the sequence.  The values are meaningless then. *)
Definition dbind {A B : Type} `{Inhabited B} (d : decoder A) (f : A -> decoder B) : decoder B :=
  fun st => '(v, err, st) ← d st;
            if err <? 0 then Some (inhabitant, err, st) else f v st.

Definition dret {A : Type} (v : A) : decoder A := fun st => Some (v, 0, st).

(** The decoder struct over the array [ds], which is zero behind the packet. *)
Definition reads (ds : list Z) (dst : Bitstr_dec) : Prop :=
  d_stream dst = ds /\ zero_from ds (d_stream_size dst).

(** What is known of a return value when the stream has [n] bytes and ends
    with the width [W]. *)
Definition no_error (ret : Z) (n : nat) (W : Z) : Prop := 0 <= ret.
Definition returns_zero (ret : Z) (n : nat) (W : Z) : Prop := ret = 0.
Definition stream_length (ret : Z) (n : nat) (W : Z) : Prop := ret = Z.of_nat (n + term_bytes W).

(** The encoder went from [st] to [st'], and from any corresponding position
    of a decoder whose bytes lie in the interval at [st'], [dec] reads [v] and
    arrives at the position that corresponds to [st']. *)
Definition transmits {A : Type} (Q : Z -> nat -> Z -> Prop) (st st' : Bitstr_enc) (dec : decoder A) (v : A) : Prop :=
  forall V W n, enc_inv st V W n ->
  exists syms V' W' n', trace V W n syms V' W' n' /\ enc_inv st' V' W' n' /\
  forall ds dst, Forall is_u16 ds -> length ds = Z.to_nat INTERNAL_STREAM_SIZE_W16 ->
    reads ds dst -> dec_inv dst V W n ->
    in_range ds V' W' (n' + 4) -> (n' + 4 <= 2 * length ds)%nat ->
    exists ret dst', dec dst = Some (v, ret, dst') /\ Q ret n' W' /\ reads ds dst' /\ dec_inv dst' V' W' n'.

(** An encoder function, which returns the values the decoder is to find. *)
Class StreamCodec {A : Type} (enc : Bitstr_enc -> option (A * Z * Bitstr_enc)) (dec : decoder A) : Prop :=
  codec_transmits st v st' : enc st = Some (v, 0, st') -> transmits no_error st st' dec v.

Lemma stream_length_no_error ret n W : stream_length ret n W -> no_error ret n W.
Proof. unfold stream_length, no_error. lia. Qed.

(** Post-processing of the values read. *)
Lemma transmits_post {A B} (Q1 Q2 : Z -> nat -> Z -> Prop) st st' (d : decoder A) (d2 : decoder B) v w :
  (forall dst ret dst' n W, d dst = Some (v, ret, dst') -> Q1 ret n W ->
     exists ret', d2 dst = Some (w, ret', dst') /\ Q2 ret' n W) ->
  transmits Q1 st st' d v -> transmits Q2 st st' d2 w.
Proof.
  intros Hp H V W n Hi. destruct (H V W n Hi) as (syms & V' & W' & n' & Ht & Hi' & Hd).
  exists syms, V', W', n'. split; [done|]. split; [done|]. intros ds dst H1 H2 H3 H4 H5 H6.
  destruct (Hd ds dst H1 H2 H3 H4 H5 H6) as (ret & dst' & E & Hq & H').
  destruct (Hp dst ret dst' n' W' E Hq) as (ret' & E' & Hq'). by exists ret', dst'.
Qed.

Lemma transmits_weaken {A} st st' (dec : decoder A) v :
  transmits stream_length st st' dec v -> transmits no_error st st' dec v.
Proof.
  apply transmits_post. intros dst ret dst' n W E Hq. exists ret. split; [done|].
  by apply stream_length_no_error in Hq.
Qed.

Lemma transmits_zero {A} st st' (dec : decoder A) v :
  transmits returns_zero st st' dec v -> transmits no_error st st' dec v.
Proof.
  apply transmits_post. intros dst ret dst' n W E Hq. exists ret. split; [done|]. unfold returns_zero in Hq. by subst.
Qed.

(** Encoder and decoder hold the same width, which seeds the dither. *)
Lemma transmits_seed {A} Q st st' (dec : Z -> decoder A) v :
  transmits Q st st' (dec (e_W_upper st)) v -> transmits Q st st' (fun dst => dec (d_W_upper dst) dst) v.
Proof.
  intros H V W n Hi. destruct (H V W n Hi) as (syms & V' & W' & n' & Ht & Hi' & Hd).
  exists syms, V', W', n'. split; [done|]. split; [done|]. intros ds dst H1 H2 H3 H4 H5 H6.
  destruct Hi as [Hr _]. pose proof (er_W _ _ _ _ Hr) as EW. cbn in EW.
  rewrite (proj1 H4), <- EW. by apply Hd.
Qed.

(** Composition: [D] calls [d] and [d2] one after the other. *)
Lemma transmits_seq {A B C} (Q1 Q : Z -> nat -> Z -> Prop) st st1 st2 (d : decoder A) (d2 : decoder B)
    (D : decoder C) v w x :
  transmits no_error st st1 d v -> transmits Q1 st1 st2 d2 w ->
  (forall dst r1 dst1 r2 dst2 n W, d dst = Some (v, r1, dst1) -> 0 <= r1 ->
     d2 dst1 = Some (w, r2, dst2) -> Q1 r2 n W -> exists r, D dst = Some (x, r, dst2) /\ Q r n W) ->
  transmits Q st st2 D x.
Proof.
  intros H1 H2 HD V W n Hi. destruct (H1 V W n Hi) as (s1 & V1 & W1 & n1 & Ht1 & Hi1 & Hd1).
  destruct (H2 V1 W1 n1 Hi1) as (s2 & V2 & W2 & n2 & Ht2 & Hi2 & Hd2).
  exists (s1 ++ s2), V2, W2, n2. split; [by eapply trace_app|]. split; [done|].
  intros ds dst Hds Hl Hr Hdi Hin Hn. pose proof (trace_mono _ _ _ _ _ _ _ Ht2) as Hm.
  pose proof (trace_nested ds _ _ _ _ _ _ _ Hds (proj2 Hi1) Ht2 Hin) as Hin1.
  destruct (Hd1 ds dst Hds Hl Hr Hdi Hin1 ltac:(lia)) as (r1 & dst1 & E1 & Hq1 & Hr1 & Hdi1).
  destruct (Hd2 ds dst1 Hds Hl Hr1 Hdi1 Hin Hn) as (r2 & dst2 & E2 & Hq2 & H').
  destruct (HD dst r1 dst1 r2 dst2 n2 W2 E1 Hq1 E2 Hq2) as (r & E & Hq). by exists r, dst2.
Qed.

(** The second part is read with what the first has delivered. *)
Lemma transmits_bind {A B} `{Inhabited B} Q st st1 st2 (d : decoder A) (f : A -> decoder B) v w :
  transmits no_error st st1 d v -> transmits Q st1 st2 (f v) w -> transmits Q st st2 (dbind d f) w.
Proof.
  intros H1 H2. apply (transmits_seq Q Q st st1 st2 d (f v) _ v w w H1 H2).
  intros dst r1 dst1 r2 dst2 n W E1 Hr1 E2 Hq. exists r2. split; [|done]. unfold dbind. rewrite E1. bind_simpl.
  by rewrite (proj2 (Z.ltb_ge r1 0)) by lia.
Qed.

(** A sequence that succeeds runs both parts. *)
Lemma dbind_inv {A B} `{Inhabited B} (d : decoder A) (f : A -> decoder B) st w ret st' :
  dbind d f st = Some (w, ret, st') -> 0 <= ret ->
  exists v r1 st1, d st = Some (v, r1, st1) /\ 0 <= r1 /\ f v st1 = Some (w, ret, st').
Proof.
  unfold dbind. destruct (d st) as [[[v r1] st1]|]; [|done]. cbn [mbind option_bind].
  destruct (Z.ltb_spec r1 0); [intros [= <- <- <-]; lia|]. intros E _. by exists v, r1, st1.
Qed.

(** Both parts and their values. *)
Definition dkeep {A B : Type} (d : decoder A) (d2 : decoder B) : decoder (A * B) :=
  fun st => '(v, _, st) ← d st; '(w, ret, st) ← d2 st; Some ((v, w), ret, st).

Lemma dkeep_Some {A B} (d : decoder A) (d2 : decoder B) st v w ret st' :
  dkeep d d2 st = Some ((v, w), ret, st') ->
  exists r1 st1, d st = Some (v, r1, st1) /\ d2 st1 = Some (w, ret, st').
Proof.
  unfold dkeep. destruct (d st) as [[[v' r1] st1]|]; [|done]. cbn [mbind option_bind].
  destruct (d2 st1) as [[[w' r2] st2]|] eqn:E2; [|done]. intros [= <- <- <- <-]. by exists r1, st1.
Qed.

Lemma transmits_keep {A B} Q st st1 st2 (d : decoder A) (d2 : decoder B) v w :
  transmits no_error st st1 d v -> transmits Q st1 st2 d2 w -> transmits Q st st2 (dkeep d d2) (v, w).
Proof.
  intros H1 H2. apply (transmits_seq Q Q st st1 st2 d d2 _ v w (v, w) H1 H2).
  intros dst r1 dst1 r2 dst2 n W E1 _ E2 Hq. exists r2. split; [|done]. unfold dkeep. by rewrite E1; bind_simpl; rewrite E2.
Qed.

Lemma transmits_ret {A} st (v : A) : transmits no_error st st (dret v) v.
Proof.
  intros V W n Hi. exists [], V, W, n. split; [constructor|]. split; [done|].
  intros ds dst _ _ Hr Hdi _ _. exists 0, dst. split; [done|]. split; [|done]. unfold no_error. lia.
Qed.

(** The two return values of the histogram encoder. *)
Lemma EncHist_status st data cdf r st' : WebRtcIsacfix_EncHistMulti st data cdf = Some (r, st') ->
  r = 0 \/ r = - ISAC_DISALLOWED_BITSTREAM_LENGTH.
Proof.
  unfold WebRtcIsacfix_EncHistMulti. destruct (enc_hist_loop _ data cdf) as [[l|l]|]; [..|done];
    cbn [mbind option_bind enc_finish]; intros [= <- <-]; auto.
Qed.

Lemma EncHist_nonneg st data cdf r st' : WebRtcIsacfix_EncHistMulti st data cdf = Some (r, st') -> 0 <= r -> r = 0.
Proof. intros [->| ->]%EncHist_status; [done|]. unfold ISAC_DISALLOWED_BITSTREAM_LENGTH. lia. Qed.

(** The histogram coder: one encoder call, and the decoder calls that read its
    symbols in one or several groups. *)
Lemma hist_transmits st c st' : chunk_ok c ->
  WebRtcIsacfix_EncHistMulti st (ck_data c) (ck_cdf c) = Some (0, st') ->
  transmits stream_length st st' (fun dst => decode_chunk dst c) (ck_data c).
Proof.
  intros Hok E V W n Hi.
  destruct (EncHistMulti_spec st V W n _ _ Hi (chunk_ok_syms c Hok)) as (ret & st1 & E1 & Hcase).
  rewrite E in E1. injection E1 as <- <-.
  destruct Hcase as [(_ & V' & W' & n' & Hi' & _ & Ht)|(? & _)]; [|done].
  exists (chunk_syms c), V', W', n'. split; [done|]. split; [done|].
  intros ds dst Hds Hl [Est Hz] Hdi Hin Hn.
  destruct (decode_chunk_spec ds Hds Hl dst c V W n V' W' n' Est Hdi Hok Ht Hin Hn) as (dst' & Ed & Est' & Hz' & Hdi').
  exists (Z.of_nat (n' + term_bytes W')), dst'. split; [done|]. split; [done|].
  split; [|done]. split; [done|]. by rewrite Hz'.
Qed.

Lemma decode_chunks_reads cs V W n V' W' n' ds dst : Forall chunk_ok cs -> cs <> [] ->
  trace V W n (concat (map chunk_syms cs)) V' W' n' ->
  Forall is_u16 ds -> length ds = Z.to_nat INTERNAL_STREAM_SIZE_W16 -> reads ds dst -> dec_inv dst V W n ->
  in_range ds V' W' (n' + 4) -> (n' + 4 <= 2 * length ds)%nat ->
  exists ret dst', decode_chunks dst cs 0 = Some (map ck_data cs, ret, dst') /\
    stream_length ret n' W' /\ reads ds dst' /\ dec_inv dst' V' W' n'.
Proof.
  intros Hok Hne Ht Hds Hl [Est Hz] Hdi Hin Hn.
  destruct (decode_chunks_spec ds Hds Hl cs dst V W n V' W' n' 0) as (dst' & Ed & Est' & Hz' & Hdi'); try done.
  eexists _, dst'. split; [exact Ed|]. split; [done|]. split; [|done]. split; [done|]. by rewrite Hz'.
Qed.

Lemma chunks_transmits cs st st' : Forall chunk_ok cs -> cs <> [] -> encode_chunks st cs = Some (0, st') ->
  transmits stream_length st st' (fun dst => decode_chunks dst cs 0) (map ck_data cs).
Proof.
  intros Hok Hne E V W n Hi.
  destruct (encode_chunks_spec cs st V W n Hi (Forall_impl _ chunk_ok_syms Hok)) as (r & st1 & E1 & Hcase).
  rewrite E in E1. injection E1 as <- <-.
  destruct Hcase as [(_ & V' & W' & n' & Hi' & _ & Ht)|(? & _)]; [|done].
  eexists _, V', W', n'. split; [exact Ht|]. split; [done|]. intros ds dst. by apply decode_chunks_reads.
Qed.

(** One encoder call whose symbols are read by several decoder calls. *)
Lemma intervals_concat cs : Forall chunk_ok cs ->
  Forall2 sym_ok (concat (map ck_data cs)) (concat (map ck_cdf cs)) /\
  intervals (concat (map ck_data cs)) (concat (map ck_cdf cs)) = concat (map chunk_syms cs).
Proof.
  induction 1 as [|c cs Hc Hcs [IH1 IH2]]; [done|]. cbn [map concat]. apply chunk_ok_syms in Hc.
  split; [by apply Forall2_app|]. unfold intervals in *. rewrite zip_with_app, IH2; [done|].
  exact (Forall2_length Hc).
Qed.

Lemma hist_split_transmits cs st st' : Forall chunk_ok cs -> cs <> [] ->
  WebRtcIsacfix_EncHistMulti st (concat (map ck_data cs)) (concat (map ck_cdf cs)) = Some (0, st') ->
  transmits stream_length st st' (fun dst => decode_chunks dst cs 0) (map ck_data cs).
Proof.
  intros Hok Hne E V W n Hi. destruct (intervals_concat cs Hok) as [Hsym Eint].
  destruct (EncHistMulti_spec st V W n _ _ Hi Hsym) as (r & st1 & E1 & Hcase).
  rewrite E in E1. injection E1 as <- <-.
  destruct Hcase as [(_ & V' & W' & n' & Hi' & _ & Ht)|(? & _)]; [|done]. rewrite Eint in Ht.
  eexists _, V', W', n'. split; [exact Ht|]. split; [done|]. intros ds dst. by apply decode_chunks_reads.
Qed.

(** The logistic coder, for widths of at least 52. *)
Section LogisticCodec.
Context (data dither specs env xs : list Z) (st st' : Bitstr_enc).
Context (Hdata : Forall sample_ok data) (Hdi : Forall2 dithered dither data) (Hsp : specs <> []).
Context (Hlen : length data = (4 * length specs)%nat).
Context (Hroot : newton_roots specs (newton_start (arr specs 0)) = Some env).
Context (Hw : Forall (fun e => 52 <= e) env).
Context (El : WebRtcIsacfix_EncLogisticMulti2 st data env = Some (xs, 0, st')).

Lemma roots_wide : length env = length specs /\ Forall (fun e => 52 <= e < 2 ^ 16) env.
Proof.
  destruct (newton_roots_shape _ _ _ Hroot) as [Henv Hu]. split; [done|].
  apply Forall_forall. intros e Hin. rewrite Forall_forall in Hw, Hu. split; auto.
Qed.

Lemma logistic_run V W n : enc_inv st V W n ->
  samples_rel (fun e x x' => clipped x e x') env 0 data xs /\
  exists V' W' n', enc_inv st' V' W' n' /\ trace V W n (lg_intervals 0 xs env) V' W' n'.
Proof.
  intros Hi. destruct roots_wide as [Henv He].
  destruct (EncLogisticMulti2_spec st V W n data env Hi) as (xs' & r1 & st1' & E1 & Hc1);
    [apply Forall_impl with (2 := He); intros e ?; lia|done|lia|].
  rewrite El in E1. injection E1 as <- <- <-.
  destruct Hc1 as [(_ & V' & W' & n' & Hi' & _ & Hcl & Htr)|(? & _)]; [|done].
  split; [done|]. by exists V', W', n'.
Qed.

Lemma logistic_transmits : transmits stream_length st st'
  (fun dst => WebRtcIsacfix_DecLogisticMulti2 dither dst specs (Z.of_nat (length data))) xs.
Proof.
  intros V W n Hi. destruct (logistic_run V W n Hi) as (Hcl & V' & W' & n' & Hi' & Htr).
  destruct roots_wide as [Henv He]. pose proof (samples_rel_length _ _ _ _ _ Hcl) as Hlx.
  exists (lg_intervals 0 xs env), V', W', n'. split; [done|]. split; [done|].
  intros ds dst Hds Hl [Est Hz] Hdi' Hin Hn.
  destruct (DecLogisticMulti2_spec dst V W n V' W' n' dither specs env xs) as (dst' & E & Est' & Hz' & Hdi'');
    rewrite ?Est; try done; try lia; [apply clipped_findable with data; try done; lia|].
  rewrite Hlx. eexists _, dst'. split; [exact E|]. split; [done|]. split; [|done].
  split; [by rewrite Est', Est|by rewrite Hz'].
Qed.
End LogisticCodec.

(** ** From the start to the end of a packet *)

(** A packet that starts on a reset stream and is terminated is read from a
    reset decoder whose array agrees with the stream on the bytes of the
    packet. *)
Lemma transmits_packet {A} Q stream st dec (v : A) len st' ds size :
  transmits Q (enc_reset stream) st dec v ->
  Forall is_u16 stream -> length stream = Z.to_nat STREAM_MAXW16_60MS ->
  WebRtcIsacfix_EncTerminate st = Some (len, st') ->
  Forall is_u16 ds -> length ds = Z.to_nat INTERNAL_STREAM_SIZE_W16 -> zero_from ds size ->
  (forall i, (i < Z.to_nat len)%nat -> byteat ds i = byteat (e_stream st') i) ->
  exists n W ret dst, dec (dec_reset ds size) = Some (v, ret, dst) /\ Q ret n W /\ stream_length len n W.
Proof.
  intros Ht Hs Hl Et Hds Hld Hz Hag.
  destruct (Ht 0 (2 ^ 32 - 1) 0%nat (enc_reset_inv stream Hs Hl)) as (syms & V & W & n & _ & Hi & Hd).
  destruct (terminate_ready st V W n ds len st' Hi Et Hds Hld Hag) as (-> & Hin & Hroom).
  destruct (Hd ds (dec_reset ds size)) as (ret & dst & E & Hq & _); try done.
  { split; [done|]. split; [done|]. by left. }
  by exists n, W, ret, dst.
Qed.
