(* ===== verification/IsacSpectrum.v ===== *)
(** Spectrum coding of the fixed-point iSAC codec: the parts of
    [modules/audio_coding/codecs/isac/fix/source/entropy_coding.c] that code
    the complex spectrum ([WebRtcIsacfix_EncodeSpec], [WebRtcIsacfix_DecodeSpec]
    and what they call), with the tables of [spectrum_ar_model_tables.c].

    [None] is an access outside an array, a division by zero or a loop that
    does not end, as in [IsacLogistic]. *)
From S2P Require Import Prelude SplInl SplMath SplLpc IsacArith IsacStream IsacEncoder IsacDecoder IsacLogistic IsacTransmit.

Definition FRAMESAMPLES : Z := 480.
Definition AR_ORDER : Z := 6.
Definition ISAC_RANGE_ERROR_DECODE_SPECTRUM : Z := 6690.

(** ** Tables *)

Definition WebRtcIsacfix_kRc1Cdf : list Z :=
  [0; 2; 4; 129; 7707; 57485; 65495; 65527; 65529; 65531; 65533; 65535].
Definition WebRtcIsacfix_kRc2Cdf : list Z :=
  [0; 2; 4; 7; 531; 25298; 64525; 65526; 65529; 65531; 65533; 65535].
Definition WebRtcIsacfix_kRc3Cdf : list Z :=
  [0; 2; 4; 6; 620; 22898; 64843; 65527; 65529; 65531; 65533; 65535].
Definition WebRtcIsacfix_kRc4Cdf : list Z :=
  [0; 2; 4; 6; 35; 10034; 60733; 65506; 65529; 65531; 65533; 65535].
Definition WebRtcIsacfix_kRc5Cdf : list Z :=
  [0; 2; 4; 6; 36; 7567; 56727; 65385; 65529; 65531; 65533; 65535].
Definition WebRtcIsacfix_kRc6Cdf : list Z :=
  [0; 2; 4; 6; 14; 6579; 57360; 65409; 65529; 65531; 65533; 65535].
Definition WebRtcIsacfix_kRc1Levels : list Z :=
  [-32104; -29007; -23202; -15496; -9279; -2577; 5934; 17535; 24512; 29503; 32104].
Definition WebRtcIsacfix_kRc2Levels : list Z :=
  [-32104; -29503; -23494; -15261; -7309; -1399; 6158; 16381; 24512; 29503; 32104].
Definition WebRtcIsacfix_kRc3Levels : list Z :=
  [-32104; -29503; -23157; -15186; -7347; -1359; 5829; 17535; 24512; 29503; 32104].
Definition WebRtcIsacfix_kRc4Levels : list Z :=
  [-32104; -29503; -24512; -15362; -6665; -342; 6596; 14585; 24512; 29503; 32104].
Definition WebRtcIsacfix_kRc5Levels : list Z :=
  [-32104; -29503; -24512; -15005; -6564; -106; 7123; 14920; 24512; 29503; 32104].
Definition WebRtcIsacfix_kRc6Levels : list Z :=
  [-32104; -29503; -24512; -15096; -6656; -37; 7036; 14847; 24512; 29503; 32104].
Definition WebRtcIsacfix_kRcBound : list Z :=
  [-32768; -31441; -27566; -21458; -13612; -4663; 4663; 13612; 21458; 27566; 31441; 32767].
Definition WebRtcIsacfix_kRcInitInd : list Z :=
  [5; 5; 5; 5; 5; 5].
Definition WebRtcIsacfix_kGainCdf : list Z :=
  [0; 2; 4; 6; 8; 10; 12; 14; 16; 1172; 11119; 29411; 51699; 64445; 65527; 65529; 65531;
   65533; 65535].
Definition WebRtcIsacfix_kGain2Lev : list Z :=
  [128; 128; 128; 128; 128; 215; 364; 709; 1268; 1960; 3405; 6078; 11286; 17827; 51918;
   134498; 487432; 2048000].
Definition WebRtcIsacfix_kGain2Bound : list Z :=
  [0; 21; 35; 59; 99; 166; 280; 475; 815; 1414; 2495; 4505; 8397; 16405; 34431; 81359; 240497;
   921600; 2147483647].
Definition WebRtcIsacfix_kGainInitInd : list Z :=
  [11].
Definition WebRtcIsacfix_kRcCdfPtr : list (list Z) :=
  [WebRtcIsacfix_kRc1Cdf; WebRtcIsacfix_kRc2Cdf; WebRtcIsacfix_kRc3Cdf;
   WebRtcIsacfix_kRc4Cdf; WebRtcIsacfix_kRc5Cdf; WebRtcIsacfix_kRc6Cdf].
Definition WebRtcIsacfix_kRcLevPtr : list (list Z) :=
  [WebRtcIsacfix_kRc1Levels; WebRtcIsacfix_kRc2Levels; WebRtcIsacfix_kRc3Levels;
   WebRtcIsacfix_kRc4Levels; WebRtcIsacfix_kRc5Levels; WebRtcIsacfix_kRc6Levels].
Definition WebRtcIsacfix_kGainPtr : list (list Z) := [WebRtcIsacfix_kGainCdf].
Definition WebRtcIsacfix_kCos : list (list Z) :=
  [[512; 512; 511; 510; 508; 507; 505; 502; 499; 496; 493; 489; 485; 480; 476; 470; 465; 459;
    453; 447; 440; 433; 426; 418; 410; 402; 394; 385; 376; 367; 357; 348; 338; 327; 317; 306;
    295; 284; 273; 262; 250; 238; 226; 214; 202; 190; 177; 165; 152; 139; 126; 113; 100; 87;
    73; 60; 47; 33; 20; 7];
   [512; 510; 508; 503; 498; 491; 483; 473; 462; 450; 437; 422; 406; 389; 371; 352; 333; 312;
    290; 268; 244; 220; 196; 171; 145; 120; 93; 67; 40; 13; -13; -40; -67; -93; -120; -145;
    -171; -196; -220; -244; -268; -290; -312; -333; -352; -371; -389; -406; -422; -437; -450;
    -462; -473; -483; -491; -498; -503; -508; -510; -512];
   [512; 508; 502; 493; 480; 465; 447; 426; 402; 376; 348; 317; 284; 250; 214; 177; 139; 100;
    60; 20; -20; -60; -100; -139; -177; -214; -250; -284; -317; -348; -376; -402; -426; -447;
    -465; -480; -493; -502; -508; -512; -512; -508; -502; -493; -480; -465; -447; -426; -402;
    -376; -348; -317; -284; -250; -214; -177; -139; -100; -60; -20];
   [511; 506; 495; 478; 456; 429; 398; 362; 322; 279; 232; 183; 133; 80; 27; -27; -80; -133;
    -183; -232; -279; -322; -362; -398; -429; -456; -478; -495; -506; -511; -511; -506; -495;
    -478; -456; -429; -398; -362; -322; -279; -232; -183; -133; -80; -27; 27; 80; 133; 183;
    232; 279; 322; 362; 398; 429; 456; 478; 495; 506; 511];
   [511; 502; 485; 459; 426; 385; 338; 284; 226; 165; 100; 33; -33; -100; -165; -226; -284;
    -338; -385; -426; -459; -485; -502; -511; -511; -502; -485; -459; -426; -385; -338; -284;
    -226; -165; -100; -33; 33; 100; 165; 226; 284; 338; 385; 426; 459; 485; 502; 511; 511;
    502; 485; 459; 426; 385; 338; 284; 226; 165; 100; 33];
   [510; 498; 473; 437; 389; 333; 268; 196; 120; 40; -40; -120; -196; -268; -333; -389; -437;
    -473; -498; -510; -510; -498; -473; -437; -389; -333; -268; -196; -120; -40; 40; 120; 196;
    268; 333; 389; 437; 473; 498; 510; 510; 498; 473; 437; 389; 333; 268; 196; 120; 40; -40;
    -120; -196; -268; -333; -389; -437; -473; -498; -510]].

(** ** Correlation and inverse AR spectrum *)

Definition kcos (k n : Z) : Z := arr (nth (Z.to_nat k) WebRtcIsacfix_kCos []) n.

(** [sum += (kCos[k][n] * v[n] + 256) >> 9] over a row. *)
Definition cos_sum (k : Z) (v : list Z) : Z :=
  for_loop (FRAMESAMPLES / 8) (fun n sum =>
    i32 (sum + (i32 (i32 (kcos k n * arr v n) + 256) ≫ 9))) 0.

Definition CalcCorrelation (PSpecQ12 : list Z) : list Z :=
  let mirror k := arr PSpecQ12 (FRAMESAMPLES / 4 - 1 - k) in
  let summ := map (fun k => i32 (i32 (arr PSpecQ12 k + mirror k) + 16) ≫ 5) (seqZ 0 60) in
  let diff := map (fun k => i32 (i32 (arr PSpecQ12 k - mirror k) + 16) ≫ 5) (seqZ 0 60) in
  let sum := for_loop (FRAMESAMPLES / 8) (fun n sum => i32 (sum + arr summ n)) 2 in
  [sum; cos_sum 0 diff; cos_sum 1 summ; cos_sum 2 diff; cos_sum 3 summ; cos_sum 4 diff; cos_sum 5 summ].

(** The correlation of the AR coefficients, scaled with the gain: the first
    part of both [CalcInvArSpec] and [CalcRootInvArSpec]. *)
Definition ar_corr (ARCoefQ12 : list Z) (gainQ10 : Z) : list Z :=
  let dot k start := for_loop (AR_ORDER + 1 - k) (fun d sum =>
    i32 (sum + WEBRTC_SPL_MUL (arr ARCoefQ12 d) (arr ARCoefQ12 (d + k)))) start in
  let sum := i32 (i32 ((dot 0 0 ≫ 6) * 65) + 32768) ≫ 16 in
  let corr0 := i32 (i32 (sum * gainQ10) + 256) ≫ 9 in
  let '(tmpGain, round, shftVal) :=
    if 400000 <? gainQ10 then (gainQ10 ≫ 3, 32, 6) else (gainQ10, 256, 9) in
  corr0 :: map (fun k => i32 (i32 ((dot k 16384 ≫ 15) * tmpGain) + round) ≫ shftVal) (seqZ 1 6).

(** The shift that keeps the odd part from overflowing. *)
Definition diff_shift (CorrQ11 : list Z) : Z :=
  let sh := if arr CorrQ11 1 =? 0 then WebRtcSpl_NormW32 (arr CorrQ11 2)
            else WebRtcSpl_NormW32 (arr CorrQ11 1) in
  if sh <? 9 then 9 - sh else 0.

(** [diffQ16[n]] after all its rounds. *)
Definition diffQ16 (CorrQ11 : list Z) (shftVal n : Z) : Z :=
  let term k := i32 (i32 (kcos k n * (arr CorrQ11 (k + 1) ≫ shftVal)) + 2) ≫ 2 in
  i32 (i32 (term 0 + term 2) + term 4).

(** Decoder side: the squared curve in Q16. *)
Definition CalcInvArSpec (ARCoefQ12 : list Z) (gainQ10 : Z) : list Z :=
  let CorrQ11 := ar_corr ARCoefQ12 gainQ10 in
  let shftVal := diff_shift CorrQ11 in
  let curve n :=
    let term k := i32 (i32 (kcos k n * arr CorrQ11 (k + 1)) + 2) ≫ 2 in
    i32 (i32 (i32 (i32 (arr CorrQ11 0 ≪ 7) + term 1) + term 3) + term 5) in
  let diff_q16 k := i32 (diffQ16 CorrQ11 shftVal k * (1 ≪ shftVal)) in
  map (fun k => i32 (curve k + diff_q16 k)) (seqZ 0 60) ++
  map (fun k => let m := FRAMESAMPLES / 4 - 1 - k in i32 (curve m - diff_q16 m)) (seqZ 60 60).

(** The roots of the two loops of [CalcRootInvArSpec], which share [res]. *)
Fixpoint root_curve (in_sqrt : list Z) (res : Z) : option (list Z) :=
  match in_sqrt with
  | [] => Some []
  | v :: in_sqrt =>
      '(res, newRes) ← newton_root v res;
      curve ← root_curve in_sqrt res;
      Some (u16 (i16 newRes) :: curve)
  end.

(** Encoder side: the curve in Q8. *)
Definition CalcRootInvArSpec (ARCoefQ12 : list Z) (gainQ10 : Z) : option (list Z) :=
  let CorrQ11 := ar_corr ARCoefQ12 gainQ10 in
  let shftVal := diff_shift CorrQ11 in
  let summQ16 n :=
    let term k := i32 (i32 (arr CorrQ11 (k + 1) * kcos k n) + 2) ≫ 2 in
    i32 (i32 (i32 (i32 (arr CorrQ11 0 ≪ 7) + term 1) + term 3) + term 5) in
  let diff k := i32 (diffQ16 CorrQ11 shftVal k ≪ shftVal) in
  let in_sqrt0 := i32 (summQ16 0 + diff 0) in
  root_curve
    (map (fun k => i32 (summQ16 k + diff k)) (seqZ 0 60) ++
     map (fun k => let m := FRAMESAMPLES / 4 - 1 - k in i32 (summQ16 m - diff m)) (seqZ 60 60))
    (newton_start in_sqrt0).

(** ** Dither *)

Definition next_seed (seed : Z) : Z := u32 (WEBRTC_SPL_UMUL seed 196314165 + 907633515).
Definition dither_of (seed : Z) : Z := i16 (i32 (u32 (seed + 16777216)) ≫ 25).

(** Two samples on three coefficients. *)
Fixpoint dither3 (n : nat) (seed : Z) : list Z :=
  match n with
  | O => []
  | S n =>
      let seed := next_seed seed in
      let dither1_Q7 := dither_of seed in
      let seed := next_seed seed in
      let dither2_Q7 := dither_of seed in
      let shft := i16 (Z.land (WEBRTC_SPL_RSHIFT_U32 seed 25) 15) in
      (if shft <? 5 then [dither1_Q7; dither2_Q7; 0]
       else if shft <? 10 then [dither1_Q7; 0; dither2_Q7]
       else [0; dither1_Q7; dither2_Q7]) ++ dither3 n seed
  end.

(** One sample on two coefficients. *)
Fixpoint dither2 (n : nat) (dither_gain_Q14 seed : Z) : list Z :=
  match n with
  | O => []
  | S n =>
      let seed := next_seed seed in
      let dither1_Q7 := dither_of seed in
      let shft := i16 (Z.land (WEBRTC_SPL_RSHIFT_U32 seed 25) 1) in
      let v := i16 (i32 (i32 (dither_gain_Q14 * dither1_Q7) + 8192) ≫ 14) in
      (if shft =? 0 then [v; 0] else [0; v]) ++ dither2 n dither_gain_Q14 seed
  end.

(** Every cell is written when [length] is a multiple of 6, as it is for a
    frame. *)
Definition GenerateDitherQ7 (seed length AvgPitchGain_Q12 : Z) : list Z :=
  if AvgPitchGain_Q12 <? 614 then dither3 (Z.to_nat (length / 3)) seed
  else dither2 (Z.to_nat (length / 2)) (i16 (22528 - WEBRTC_SPL_MUL 10 AvgPitchGain_Q12)) seed.

(** ** Quantisation of reflection coefficients and gain *)

(** [while (v > bound[index + 1]) index++] *)
Fixpoint quant_up (fuel : nat) (bound : list Z) (v index : Z) : option Z :=
  match fuel with
  | O => None
  | S fuel =>
      b ← rd bound (index + 1);
      if b <? v then quant_up fuel bound v (index + 1) else Some index
  end.

(** [while (v < bound[--index])] *)
Fixpoint quant_down (fuel : nat) (bound : list Z) (v index : Z) : option Z :=
  match fuel with
  | O => None
  | S fuel =>
      let index := index - 1 in
      b ← rd bound index;
      if v <? b then quant_down fuel bound v index else Some index
  end.

Definition quantize (bound : list Z) (init v : Z) : option Z :=
  b ← rd bound init;
  if b <? v then quant_up (S (length bound)) bound v init
  else quant_down (S (length bound)) bound v init.

(** The index and the level of each coefficient. *)
Fixpoint quantize_rc (RCQ15 init : list Z) (levels : list (list Z)) : option (list Z * list Z) :=
  match RCQ15, init, levels with
  | [], [], [] => Some ([], [])
  | rc :: RCQ15, i :: init, lev :: levels =>
      index ← quantize WebRtcIsacfix_kRcBound i rc;
      l ← rd lev index;
      '(ids, ls) ← quantize_rc RCQ15 init levels;
      Some (index :: ids, l :: ls)
  | _, _, _ => None
  end.

(** Returns the quantised coefficients, the status and the stream. *)
Definition WebRtcIsacfix_EncodeRcCoef (RCQ15 : list Z) (streamdata : Bitstr_enc)
  : option (list Z * Z * Bitstr_enc) :=
  '(index, RCQ15) ← quantize_rc RCQ15 WebRtcIsacfix_kRcInitInd WebRtcIsacfix_kRcLevPtr;
  '(status, st) ← WebRtcIsacfix_EncHistMulti streamdata index WebRtcIsacfix_kRcCdfPtr;
  Some (RCQ15, status, st).

Fixpoint rc_levels (index : list Z) (levels : list (list Z)) : option (list Z) :=
  match index, levels with
  | [], [] => Some []
  | i :: index, lev :: levels => l ← rd lev i; ls ← rc_levels index levels; Some (l :: ls)
  | _, _ => None
  end.

(** Returns the coefficients (empty on error), the status and the stream. *)
Definition WebRtcIsacfix_DecodeRcCoef (streamdata : Bitstr_dec) : option (list Z * Z * Bitstr_dec) :=
  '(index, err, st) ← WebRtcIsacfix_DecHistOneStepMulti streamdata WebRtcIsacfix_kRcCdfPtr
                        WebRtcIsacfix_kRcInitInd AR_ORDER;
  if err <? 0 then Some ([], err, st)
  else RCQ15 ← rc_levels index WebRtcIsacfix_kRcLevPtr; Some (RCQ15, 0, st).

Definition WebRtcIsacfix_EncodeGain2 (gainQ10 : Z) (streamdata : Bitstr_enc)
  : option (Z * Z * Bitstr_enc) :=
  index ← quantize WebRtcIsacfix_kGain2Bound (arr WebRtcIsacfix_kGainInitInd 0) gainQ10;
  gainQ10 ← rd WebRtcIsacfix_kGain2Lev index;
  '(status, st) ← WebRtcIsacfix_EncHistMulti streamdata [index] WebRtcIsacfix_kGainPtr;
  Some (gainQ10, status, st).

Definition WebRtcIsacfix_DecodeGain2 (streamdata : Bitstr_dec) : option (Z * Z * Bitstr_dec) :=
  '(index, err, st) ← WebRtcIsacfix_DecHistOneStepMulti streamdata WebRtcIsacfix_kGainPtr
                        WebRtcIsacfix_kGainInitInd 1;
  if err <? 0 then Some (0, err, st)
  else gainQ10 ← rd WebRtcIsacfix_kGain2Lev (arr index 0); Some (gainQ10, 0, st).

(** ** Encoder *)

(** Sample [k] of the interleaved spectrum after adding the dither and
    rounding to a multiple of 128. *)
Definition quantize_spec (fr fi dither : list Z) (k : Z) : Z :=
  let x := if Z.even k then arr fr (k / 2) else arr fi (k / 2) in
  let d := arr dither k in
  i16 (Z.land (i32 (x + d + 64)) 0xFF80 - d).

(** [PSpec[k >> 2]] *)
Definition power_spec (dataQ7 : list Z) (j : Z) : Z :=
  let sq i := WEBRTC_SPL_UMUL (arr dataQ7 (4 * j + i)) (arr dataQ7 (4 * j + i)) in
  i32 (WEBRTC_SPL_RSHIFT_U32 (u32 (u32 (u32 (sq 0 + sq 1) + sq 2) + sq 3)) 2).

(** [ARCoef' * Corr * ARCoef] *)
Definition ar_energy (ARCoefQ12 CorrQ7_norm : list Z) : Z :=
  for_loop (AR_ORDER + 1) (fun j nrg =>
    for_loop (AR_ORDER + 1) (fun n nrg =>
      i32 (nrg + (i32 (i32 (arr ARCoefQ12 j *
        (i32 (i32 (arr CorrQ7_norm (Z.abs (j - n)) * arr ARCoefQ12 n) + 256) ≫ 9)) + 4) ≫ 3))) nrg) 0.

Definition spec_gain (nrg lft_shft : Z) : Z :=
  let nrg := if 0 <? lft_shft then nrg ≫ lft_shft else i32 (nrg ≪ (- lft_shft)) in
  if 131072 <? nrg then WebRtcSpl_DivResultInQ31 (FRAMESAMPLES ≫ 2) nrg else FRAMESAMPLES ≫ 2.

(** The dithered and quantised spectrum. *)
Definition spec_data (fr fi : list Z) (seed AvgPitchGain_Q12 : Z) : list Z :=
  let dither := GenerateDitherQ7 seed FRAMESAMPLES AvgPitchGain_Q12 in
  map (quantize_spec fr fi dither) (seqZ 0 FRAMESAMPLES).

(** [CorrQ7_norm] and [lft_shft]. *)
Definition spec_corr (dataQ7 : list Z) : list Z * Z :=
  let CorrQ7 := CalcCorrelation (map (power_spec dataQ7) (seqZ 0 (FRAMESAMPLES / 4))) in
  let lft_shft := i16 (WebRtcSpl_NormW32 (arr CorrQ7 0) - 18) in
  (map (fun c => if 0 <? lft_shft then i32 (c ≪ lft_shft) else c ≫ (- lft_shft)) CorrQ7, lft_shft).

(** The AR model of the spectrum is computed, quantised and coded; [inl] is an
    early return with its status. *)
Definition encode_model (dataQ7 : list Z) (streamdata : Bitstr_enc)
  : option (Z * Bitstr_enc + list Z * Z * Bitstr_enc) :=
  let '(CorrQ7_norm, lft_shft) := spec_corr dataQ7 in
  let RCQ15 := WebRtcSpl_AutoCorrToReflCoef CorrQ7_norm AR_ORDER in
  '(RCQ15, status, st) ← WebRtcIsacfix_EncodeRcCoef RCQ15 streamdata;
  if i16 status <? 0 then Some (inl (i16 status, st))
  else
    let ARCoefQ12 := WebRtcSpl_ReflCoefToLpc RCQ15 AR_ORDER in
    let gain2_Q10 := spec_gain (ar_energy ARCoefQ12 CorrQ7_norm) lft_shft in
    '(gain2_Q10, status, st) ← WebRtcIsacfix_EncodeGain2 gain2_Q10 st;
    if negb (status =? 0) then Some (inl (-1, st))
    else Some (inr (ARCoefQ12, gain2_Q10, st)).

(** Returns [dataQ7] as the function leaves it, the status and the stream. *)
Definition WebRtcIsacfix_EncodeSpec (fr fi : list Z) (streamdata : Bitstr_enc) (AvgPitchGain_Q12 : Z)
  : option (list Z * Z * Bitstr_enc) :=
  let dataQ7 := spec_data fr fi (e_W_upper streamdata) AvgPitchGain_Q12 in
  r ← encode_model dataQ7 streamdata;
  match r with
  | inl (status, st) => Some (dataQ7, status, st)
  | inr (ARCoefQ12, gain2_Q10, st) =>
      invARSpecQ8 ← CalcRootInvArSpec ARCoefQ12 gain2_Q10;
      '(dataQ7, status, st) ← WebRtcIsacfix_EncLogisticMulti2 st dataQ7 invARSpecQ8;
      Some (dataQ7, i16 status, st)
  end.

(** ** Decoder *)

(** The gain applied to the four samples of [invARSpec2_Q16[k >> 2]]. *)
Definition spec_scale (AvgPitchGain_Q12 inv : Z) : Z :=
  if AvgPitchGain_Q12 <=? 614
  then WebRtcSpl_DivW32W16ResW16 (30 ≪ 10) (i16 (u32 (inv + 2195456) ≫ 16))
  else WebRtcSpl_DivW32W16ResW16 (36 ≪ 10) (i16 (u32 (inv + 2654208) ≫ 16)).

Definition scale_sample (gainQ10 x : Z) : Z := i16 (i32 (i32 (x * gainQ10) + 512) ≫ 10).

(** Real and imaginary parts. *)
Definition scale_spec (AvgPitchGain_Q12 : Z) (inv data : list Z) : list Z * list Z :=
  let out k := scale_sample (spec_scale AvgPitchGain_Q12 (arr inv (k / 4))) (arr data k) in
  (map (fun m => out (2 * m)) (seqZ 0 (FRAMESAMPLES / 2)),
   map (fun m => out (2 * m + 1)) (seqZ 0 (FRAMESAMPLES / 2))).

(** Reading the AR coefficients and the gain. *)
Definition decode_model : decoder (list Z * Z) :=
  dbind WebRtcIsacfix_DecodeRcCoef (fun RCQ15 st =>
    '(gain2_Q10, err, st) ← WebRtcIsacfix_DecodeGain2 st;
    Some ((WebRtcSpl_ReflCoefToLpc RCQ15 AR_ORDER, gain2_Q10), err, st)).

(** The function behind the dither generation; [data] holds the dither. *)
Definition decode_spec_data (AvgPitchGain_Q12 : Z) (data : list Z) : decoder (list Z * list Z) := fun streamdata =>
  let error st := Some (([], []), - ISAC_RANGE_ERROR_DECODE_SPECTRUM, st) in
  '((ARCoefQ12, gain2_Q10), err, st) ← decode_model streamdata;
  if err <? 0 then error st
  else
    let invARSpec2_Q16 := CalcInvArSpec ARCoefQ12 gain2_Q10 in
    '(data, len, st) ← WebRtcIsacfix_DecLogisticMulti2 data st invARSpec2_Q16 FRAMESAMPLES;
    if len <? 1 then error st
    else Some (scale_spec AvgPitchGain_Q12 invARSpec2_Q16 data, len, st).

(** Returns the spectrum (empty on error), the status and the stream. *)
Definition WebRtcIsacfix_DecodeSpec (AvgPitchGain_Q12 : Z) : decoder (list Z * list Z) := fun streamdata =>
  decode_spec_data AvgPitchGain_Q12
    (GenerateDitherQ7 (d_W_upper streamdata) FRAMESAMPLES AvgPitchGain_Q12) streamdata.

(** ** Both sides compute the same widths *)

Lemma u16_i16 x : u16 (i16 x) = u16 x.
Proof. unfold u16, i16. Z.div_mod_to_equations. lia. Qed.

Lemma root_curve_roots in_sqrt : forall res, root_curve in_sqrt res = newton_roots in_sqrt res.
Proof.
  induction in_sqrt as [|v in_sqrt IH]; intros res; [done|]. cbn [root_curve newton_roots].
  destruct (newton_root v res) as [[r nr]|]; [|done]. cbn [mbind option_bind]. by rewrite IH, u16_i16.
Qed.

Lemma diff_shift_nonneg CorrQ11 : 0 <= diff_shift CorrQ11.
Proof. unfold diff_shift. destruct (_ <? 9) eqn:E; lia. Qed.

Lemma CalcInvArSpec_length ar gain : length (CalcInvArSpec ar gain) = 120%nat.
Proof. unfold CalcInvArSpec. by rewrite length_app, !length_map, !length_seqZ. Qed.

Lemma arr_map_head (f : Z -> Z) l : arr (map f (seqZ 0 60) ++ l) 0 = f 0.
Proof. reflexivity. Qed.

Lemma roots_cong (f g f' g' : Z -> Z) l l' : (forall n, f n = f' n) -> (forall n, g n = g' n) ->
  newton_roots (map f l ++ map g l') (newton_start (f 0))
  = newton_roots (map f' l ++ map g' l') (newton_start (f' 0)).
Proof. intros Hf Hg. by rewrite (map_ext f f' Hf), (map_ext g g' Hg), Hf. Qed.

Lemma widths_agree ar gain :
  CalcRootInvArSpec ar gain
  = newton_roots (CalcInvArSpec ar gain) (newton_start (arr (CalcInvArSpec ar gain) 0)).
Proof.
  unfold CalcRootInvArSpec. rewrite root_curve_roots. unfold CalcInvArSpec.
  pose proof (diff_shift_nonneg (ar_corr ar gain)) as Hs.
  generalize dependent (ar_corr ar gain). intros C Hs. set (sh := diff_shift C) in *. clearbody sh.
  assert (forall n, i32 (diffQ16 C sh n ≪ sh) = i32 (diffQ16 C sh n * (1 ≪ sh))) as Ed.
  { intros n. by rewrite !Z.shiftl_mul_pow2, Z.mul_1_l by lia. }
  assert (forall k n, i32 (i32 (arr C (k + 1) * kcos k n) + 2) ≫ 2
    = i32 (i32 (kcos k n * arr C (k + 1)) + 2) ≫ 2) as Et by (intros; by rewrite Z.mul_comm).
  cbn zeta. rewrite arr_map_head. revert Ed Et. generalize (diffQ16 C sh) as d.
  generalize i32 as w, kcos as c. intros w c d Ed Et.
  apply (roots_cong (fun k => w (w (w (w (w (arr C 0 ≪ 7) + _) + _) + _) + _))
    (fun k => w (w (w (w (w (arr C 0 ≪ 7) + _) + _) + _) - _))); intros n; by rewrite Ed, !Et.
Qed.

(** ** Dither and quantisation of the samples *)

Definition dither_ok (d : Z) : Prop := -64 <= d <= 64.

Lemma dither_of_range seed : -64 <= dither_of seed <= 63.
Proof.
  unfold dither_of. pose proof (i32_range (u32 (seed + 16777216))) as H. unfold is_i32 in H.
  rewrite shiftr_div by lia. rewrite i16_id; [|unfold is_i16]; Z.div_mod_to_equations; lia.
Qed.

Lemma dither3_ok n : forall seed,
  length (dither3 n seed) = (3 * n)%nat /\ Forall dither_ok (dither3 n seed).
Proof.
  induction n as [|n IH]; intros seed; [done|]. cbn [dither3].
  set (s1 := next_seed seed). set (s2 := next_seed s1).
  pose proof (dither_of_range s1). pose proof (dither_of_range s2).
  destruct (IH s2) as [El Hf]. rewrite length_app, El, Forall_app. split.
  - destruct (_ <? 5); [|destruct (_ <? 10)]; cbn [length]; lia.
  - split; [|done]. destruct (_ <? 5); [|destruct (_ <? 10)]; repeat constructor; lia.
Qed.

Lemma dither2_ok n g : -16388 <= g <= 16388 -> forall seed,
  length (dither2 n g seed) = (2 * n)%nat /\ Forall dither_ok (dither2 n g seed).
Proof.
  intros Hg. induction n as [|n IH]; intros seed; [done|]. cbn [dither2].
  set (s1 := next_seed seed). pose proof (dither_of_range s1) as Hd.
  destruct (IH s1) as [El Hf]. rewrite length_app, El, Forall_app.
  assert (-1048832 <= g * dither_of s1 <= 1048832) as Hm by nia.
  rewrite (i32_id (g * _)), i32_id by (unfold is_i32; lia). rewrite shiftr_div by lia.
  assert (dither_ok ((g * dither_of s1 + 8192) / 2 ^ 14)) as Hv.
  { unfold dither_ok. generalize dependent (g * dither_of s1). intros m ?. Z.div_mod_to_equations. lia. }
  rewrite (i16_id (_ / _)) by (unfold is_i16, dither_ok in *; lia).
  split; destruct (_ =? 0); cbn [length]; try lia; split; try done; repeat constructor; apply Hv || lia.
Qed.

Lemma GenerateDither_ok seed apg : apg <= 3891 ->
  length (GenerateDitherQ7 seed FRAMESAMPLES apg) = 480%nat /\
  Forall dither_ok (GenerateDitherQ7 seed FRAMESAMPLES apg).
Proof.
  intros Ha. unfold GenerateDitherQ7. destruct (Z.ltb_spec apg 614); [by apply (dither3_ok 160)|].
  apply (dither2_ok 240). unfold WEBRTC_SPL_MUL.
  rewrite (i32_id 10), (i32_id apg), (i32_id (10 * apg)), i16_id by (unfold is_i16, is_i32; lia). lia.
Qed.

(** The rounded sample: the multiple of 128 nearest to [x + d], less [d]. *)
Definition rounded (d x : Z) : Z := 128 * ((x + d + 64) / 128) - d.

Definition spec_ok (x : Z) : Prop := -32000 <= x <= 32000.

Lemma round_FF80 d x : dither_ok d -> spec_ok x ->
  i16 (Z.land (i32 (x + d + 64)) 0xFF80 - d) = rounded d x.
Proof.
  unfold dither_ok, spec_ok, rounded. intros Hd Hx. rewrite i32_id by (unfold is_i32; lia).
  change 0xFF80 with ((2 ^ 9 - 1) ≪ 7). rewrite land_field by lia. unfold i16.
  Z.div_mod_to_equations. lia.
Qed.

Lemma rounded_ok d x : dither_ok d -> spec_ok x ->
  sample_ok (rounded d x) /\ dithered d (rounded d x) /\ -63 <= rounded d x - x <= 64.
Proof.
  unfold dither_ok, spec_ok, sample_ok, dithered, rounded, is_i16. intros Hd Hx.
  repeat split; Z.div_mod_to_equations; lia.
Qed.

(** The input in the order in which it is coded. *)
Definition interleaved (fr fi : list Z) (k : Z) : Z := if Z.even k then arr fr (k / 2) else arr fi (k / 2).

Definition spectrum_ok (l : list Z) : Prop := length l = Z.to_nat (FRAMESAMPLES / 2) /\ Forall spec_ok l.

Lemma Forall2_map_seqZ (P : Z -> Z -> Prop) (f : Z -> Z) D n : length D = Z.to_nat n ->
  (forall k, 0 <= k < n -> P (arr D k) (f k)) -> Forall2 P D (map f (seqZ 0 n)).
Proof.
  intros Hl HP. apply Forall2_same_length_lookup_2; [by rewrite length_map, length_seqZ|].
  intros i x y Hx Hy. apply list_lookup_fmap_Some in Hy as (k & -> & Hk).
  apply lookup_seqZ in Hk as [-> Hk]. specialize (HP (0 + Z.of_nat i) ltac:(lia)).
  unfold arr in HP. rewrite Z.add_0_l, Nat2Z.id in HP.
  by rewrite (nth_lookup_Some D i 0 x Hx) in HP.
Qed.

Lemma arr_map_seqZ (f : Z -> Z) n k : 0 <= k < n -> arr (map f (seqZ 0 n)) k = f k.
Proof.
  intros Hk. unfold arr. apply nth_lookup_Some. rewrite list_lookup_fmap, lookup_seqZ_lt by lia.
  cbn. do 2 f_equal. lia.
Qed.

Lemma quantize_spec_eq fr fi D k : Forall dither_ok D -> spectrum_ok fr -> spectrum_ok fi ->
  quantize_spec fr fi D k = rounded (arr D k) (interleaved fr fi k) /\
  dither_ok (arr D k) /\ spec_ok (interleaved fr fi k).
Proof.
  intros HD [_ Hr] [_ Hi]. assert (dither_ok (arr D k)) as Hd by (apply arr_Forall; [done|done]).
  assert (spec_ok (interleaved fr fi k)) as Hx
    by (unfold interleaved; destruct (Z.even k); apply arr_Forall; done).
  split; [|done]. by apply round_FF80.
Qed.

Lemma spec_data_ok fr fi seed apg : spectrum_ok fr -> spectrum_ok fi -> apg <= 3891 ->
  length (spec_data fr fi seed apg) = 480%nat /\ Forall sample_ok (spec_data fr fi seed apg) /\
  Forall2 dithered (GenerateDitherQ7 seed FRAMESAMPLES apg) (spec_data fr fi seed apg) /\
  forall k, 0 <= k < FRAMESAMPLES -> -63 <= arr (spec_data fr fi seed apg) k - interleaved fr fi k <= 64.
Proof.
  intros Hr Hi Ha. destruct (GenerateDither_ok seed apg Ha) as [Hl HD]. unfold spec_data.
  set (D := GenerateDitherQ7 seed FRAMESAMPLES apg) in *. clearbody D.
  assert (forall k, sample_ok (quantize_spec fr fi D k) /\ dithered (arr D k) (quantize_spec fr fi D k) /\
    -63 <= quantize_spec fr fi D k - interleaved fr fi k <= 64) as Hq.
  { intros k. destruct (quantize_spec_eq fr fi D k HD Hr Hi) as (-> & ? & ?). by apply rounded_ok. }
  split; [by rewrite length_map, length_seqZ|]. split; [|split].
  - apply Forall_map, Forall_forall. intros k _. apply Hq.
  - apply Forall2_map_seqZ; [done|]. intros k _. apply Hq.
  - intros k Hk. rewrite arr_map_seqZ by done. apply Hq.
Qed.

(** ** Quantisation of the model *)

(** The interval of [bound] that holds [v]. *)
Definition in_cell (bound : list Z) (v i : Z) : Prop :=
  0 <= i /\ i + 1 < Z.of_nat (length bound) /\ arr bound i <= v <= arr bound (i + 1).

Lemma quant_up_spec bound v : v <= arr bound (Z.of_nat (length bound) - 1) ->
  forall fuel i, 0 <= i -> i + 1 < Z.of_nat (length bound) -> arr bound i <= v ->
  (length bound <= fuel + Z.to_nat i)%nat ->
  exists j, quant_up fuel bound v i = Some j /\ in_cell bound v j.
Proof.
  intros Hv. induction fuel as [|fuel IH]; intros i Hi Hl Hb Hf; [lia|]. cbn [quant_up].
  rewrite rd_Some by lia. bind_simpl. destruct (Z.ltb_spec (arr bound (i + 1)) v).
  - destruct (decide (i + 2 = Z.of_nat (length bound))) as [E|Hne].
    + rewrite <- E in Hv. replace (i + 2 - 1) with (i + 1) in Hv by lia. lia.
    + apply IH; lia.
  - exists i. split; [done|]. split; [done|]. lia.
Qed.

Lemma quant_down_spec bound v : arr bound 0 <= v ->
  forall fuel i, 0 < i < Z.of_nat (length bound) -> v <= arr bound i -> (Z.to_nat i <= fuel)%nat ->
  exists j, quant_down fuel bound v i = Some j /\ in_cell bound v j.
Proof.
  intros Hv. induction fuel as [|fuel IH]; intros i Hi Hb Hf; [lia|]. cbn [quant_down].
  rewrite rd_Some by lia. bind_simpl. destruct (Z.ltb_spec v (arr bound (i - 1))).
  - destruct (decide (i = 1)) as [->|Hne]; [change (1 - 1) with 0 in *; lia|]. apply IH; lia.
  - exists (i - 1). split; [done|]. unfold in_cell. replace (i - 1 + 1) with i by lia. lia.
Qed.

Lemma quantize_found bound init v : 0 < init -> init + 1 < Z.of_nat (length bound) ->
  arr bound 0 <= v <= arr bound (Z.of_nat (length bound) - 1) ->
  exists i, quantize bound init v = Some i /\ in_cell bound v i.
Proof.
  intros Hi Hl Hv. unfold quantize. rewrite rd_Some by lia. bind_simpl.
  destruct (Z.ltb_spec (arr bound init) v); [apply quant_up_spec|apply quant_down_spec]; lia.
Qed.

(** *** The tables *)

(** A cdf table that gives every symbol an interval. *)
Definition strict_cdf (tbl : list Z) : bool :=
  bool_decide (Forall is_u16 tbl) && sortedb tbl && (Z.of_nat (length tbl) <? 2 ^ 15) &&
  forallb (fun i => arr tbl i <? arr tbl (i + 1)) (seqZ 0 (Z.of_nat (length tbl) - 1)).

Lemma strict_cdf_ok tbl init x : strict_cdf tbl = true -> 0 <= init < Z.of_nat (length tbl) ->
  0 <= x -> x + 1 < Z.of_nat (length tbl) -> onestep_ok init x tbl.
Proof.
  intros H Hi Hx Hl. unfold strict_cdf in H. rewrite !andb_true_iff in H. destruct H as [[[H1 H2] H3] H4].
  apply bool_decide_eq_true in H1.
  pose proof (all_below _ _ x H4 ltac:(lia)) as Hlt. cbn beta in Hlt.
  split; [|done]. split; [done|]. split; [lia|]. split; [done|lia].
Qed.

Lemma quantize_rc_spec RCQ15 : forall inits levels cdfs, Forall refl_ok RCQ15 ->
  Forall (fun i => i = 5) inits -> Forall (fun lev => length lev = 11%nat) levels ->
  Forall (fun tbl => strict_cdf tbl = true /\ length tbl = 12%nat) cdfs ->
  length inits = length RCQ15 -> length levels = length RCQ15 -> length cdfs = length RCQ15 ->
  exists index lev, quantize_rc RCQ15 inits levels = Some (index, lev) /\
    rc_levels index levels = Some lev /\ Forall2 (in_cell WebRtcIsacfix_kRcBound) RCQ15 index /\
    Forall3 (fun x tbl init => onestep_ok init x tbl) index cdfs inits.
Proof.
  induction RCQ15 as [|rc RCQ15 IH]; intros [|i inits] [|lev levels] [|tbl cdfs] Hrc Hi Hlev Hcdf H1 H2 H3;
    try done; [exists [], []; repeat split; constructor|].
  apply Forall_cons_iff in Hrc as [Hrc0 Hrc], Hi as [-> Hi], Hlev as [Hlev0 Hlev], Hcdf as [[Hs Ht] Hcdf].
  injection H1 as H1. injection H2 as H2. injection H3 as H3.
  destruct (quantize_found WebRtcIsacfix_kRcBound 5 rc) as (x & E & Hx); [lia|done| |].
  { unfold refl_ok in Hrc0. change (-32768 <= rc <= 32767). lia. }
  destruct (IH inits levels cdfs Hrc Hi Hlev Hcdf H1 H2 H3) as (index & ls & E' & El & Hc & Hok).
  pose proof Hx as (Hx0 & Hx1 & _). change (Z.of_nat (length WebRtcIsacfix_kRcBound)) with 12 in Hx1.
  exists (x :: index), (arr lev x :: ls). cbn [quantize_rc rc_levels]. rewrite E. bind_simpl.
  rewrite !rd_Some by lia. bind_simpl. rewrite E', El. bind_simpl. split; [done|]. split; [done|].
  split; [by constructor|]. constructor; [|done]. apply strict_cdf_ok; [done|lia..].
Qed.

(** The coefficients the model computes are always within the table. *)
Lemma rc_quantized RCQ15 : Forall refl_ok RCQ15 -> length RCQ15 = Z.to_nat AR_ORDER ->
  exists index lev, quantize_rc RCQ15 WebRtcIsacfix_kRcInitInd WebRtcIsacfix_kRcLevPtr = Some (index, lev) /\
    rc_levels index WebRtcIsacfix_kRcLevPtr = Some lev /\ Forall2 (in_cell WebRtcIsacfix_kRcBound) RCQ15 index /\
    chunk_ok (mkChunk index WebRtcIsacfix_kRcCdfPtr (OneStep WebRtcIsacfix_kRcInitInd)).
Proof.
  intros Hrc Hl. unfold chunk_ok. cbn [ck_args ck_data ck_cdf].
  apply quantize_rc_spec; [done|repeat constructor..|by rewrite Hl|by rewrite Hl|by rewrite Hl].
Qed.

Lemma gain_quantized gainQ10 : 0 <= gainQ10 < 2 ^ 31 ->
  exists index lev, quantize WebRtcIsacfix_kGain2Bound (arr WebRtcIsacfix_kGainInitInd 0) gainQ10 = Some index /\
    rd WebRtcIsacfix_kGain2Lev index = Some lev /\ in_cell WebRtcIsacfix_kGain2Bound gainQ10 index /\
    chunk_ok (mkChunk [index] WebRtcIsacfix_kGainPtr (OneStep WebRtcIsacfix_kGainInitInd)).
Proof.
  intros Hg. change (arr WebRtcIsacfix_kGainInitInd 0) with 11.
  destruct (quantize_found WebRtcIsacfix_kGain2Bound 11 gainQ10) as (x & E & Hx);
    [lia|done|change (0 <= gainQ10 <= 2147483647); lia|].
  pose proof Hx as (Hx0 & Hx1 & _). change (Z.of_nat (length WebRtcIsacfix_kGain2Bound)) with 19 in Hx1.
  exists x, (arr WebRtcIsacfix_kGain2Lev x). split; [done|]. split; [apply rd_Some; cbn; lia|]. split; [done|].
  constructor; [|constructor]. apply strict_cdf_ok; [vm_compute; reflexivity|cbn; lia..].
Qed.

Lemma q31_iter_range den n : (n <= 31)%nat -> forall num, 0 <= (Nat.iter n (q31_step den) (0, num)).1 < 2 ^ Z.of_nat n.
Proof.
  induction n as [|n IH]; intros Hn num; [done|]. specialize (IH ltac:(lia) num).
  change (Nat.iter (S n) (q31_step den) (0, num)) with (q31_step den (Nat.iter n (q31_step den) (0, num))).
  destruct (Nat.iter n (q31_step den) (0, num)) as [div r]. cbn [fst] in IH. unfold q31_step.
  rewrite Nat2Z.inj_succ, Z.pow_succ_r by lia.
  assert (2 ^ Z.of_nat n <= 2 ^ 30) by (apply Z.pow_le_mono_r; lia).
  rewrite !Z.shiftl_mul_pow2 by lia. change (2 ^ 1) with 2. rewrite (i32_id (div * 2)) by (unfold is_i32; lia).
  cbn zeta. destruct (_ <=? _); cbn [fst]; rewrite ?i32_id by (unfold is_i32; lia); lia.
Qed.

Lemma spec_gain_range nrg lft_shft : 0 <= spec_gain nrg lft_shft < 2 ^ 31.
Proof.
  unfold spec_gain. generalize (if 0 <? lft_shft then nrg ≫ lft_shft else i32 (nrg ≪ (- lft_shft))).
  intros m. cbn zeta. destruct (Z.ltb_spec 131072 m); [|done]. unfold WebRtcSpl_DivResultInQ31.
  change (FRAMESAMPLES ≫ 2) with 120. cbn [Z.eqb Z.ltb Z.compare]. rewrite (proj2 (Z.ltb_ge m 0)) by lia.
  pose proof (q31_iter_range m 31 ltac:(lia) 120) as Hq. destruct (Nat.iter 31 _ _) as [div r]. exact Hq.
Qed.

(** ** Coding of the model *)

(** The two histogram-coded groups in front of the samples. *)
Definition rc_chunk (index : list Z) : chunk :=
  mkChunk index WebRtcIsacfix_kRcCdfPtr (OneStep WebRtcIsacfix_kRcInitInd).
Definition gain_chunk (index : Z) : chunk :=
  mkChunk [index] WebRtcIsacfix_kGainPtr (OneStep WebRtcIsacfix_kGainInitInd).

Lemma AutoCorr_refl_ok R order : 0 < order ->
  length (WebRtcSpl_AutoCorrToReflCoef R order) = Z.to_nat order /\
  Forall refl_ok (WebRtcSpl_AutoCorrToReflCoef R order).
Proof.
  intros Ho. apply refl_loop_ok; apply Forall_map, Forall_forall; intros; auto with cint.
Qed.

Lemma EncodeRcCoef_transmits RCQ15 st lev st' : Forall refl_ok RCQ15 -> length RCQ15 = Z.to_nat AR_ORDER ->
  WebRtcIsacfix_EncodeRcCoef RCQ15 st = Some (lev, 0, st') ->
  transmits no_error st st' WebRtcIsacfix_DecodeRcCoef lev.
Proof.
  intros Hrc Hl E. unfold WebRtcIsacfix_EncodeRcCoef in E.
  destruct (rc_quantized RCQ15 Hrc Hl) as (index & lev' & Eq & El & Hcell & Hok). rewrite Eq in E.
  cbn [mbind option_bind] in E. destruct (WebRtcIsacfix_EncHistMulti st index _) as [[r st1]|] eqn:Eh; [|done].
  injection E as -> -> ->. apply (hist_transmits st (rc_chunk index)) in Eh; [|done].
  eapply transmits_post; [|exact Eh]. intros dst ret dst' n W Ed Hq. unfold stream_length in Hq.
  unfold decode_chunk, rc_chunk in Ed. cbn [ck_args ck_data ck_cdf] in Ed.
  rewrite <- (Forall2_length Hcell), Hl in Ed. change (Z.of_nat (Z.to_nat AR_ORDER)) with AR_ORDER in Ed.
  exists 0. split; [|done]. unfold WebRtcIsacfix_DecodeRcCoef. rewrite Ed. bind_simpl.
  rewrite (proj2 (Z.ltb_ge _ 0)) by lia. by rewrite El.
Qed.

Lemma EncodeGain2_transmits gainQ10 st lev st' : 0 <= gainQ10 < 2 ^ 31 ->
  WebRtcIsacfix_EncodeGain2 gainQ10 st = Some (lev, 0, st') ->
  transmits no_error st st' WebRtcIsacfix_DecodeGain2 lev.
Proof.
  intros Hg E. unfold WebRtcIsacfix_EncodeGain2 in E.
  destruct (gain_quantized gainQ10 Hg) as (gi & lev' & Eq & El & _ & Hok). rewrite Eq in E.
  cbn [mbind option_bind] in E. rewrite El in E. cbn [mbind option_bind] in E.
  destruct (WebRtcIsacfix_EncHistMulti st [gi] _) as [[r st1]|] eqn:Eh; [|done].
  injection E as -> -> ->. apply (hist_transmits st (gain_chunk gi)) in Eh; [|done].
  eapply transmits_post; [|exact Eh]. intros dst ret dst' n W Ed Hq. unfold stream_length in Hq.
  unfold decode_chunk, gain_chunk in Ed. cbn [ck_args ck_data ck_cdf length] in Ed. change (Z.of_nat 1) with 1 in Ed.
  exists 0. split; [|done]. unfold WebRtcIsacfix_DecodeGain2. rewrite Ed. bind_simpl.
  rewrite (proj2 (Z.ltb_ge _ 0)) by lia. change (arr [gi] 0) with gi. by rewrite El.
Qed.

(** The statuses of the two functions. *)
Lemma EncodeRcCoef_status RCQ15 st lev r st' V W n : enc_inv st V W n -> Forall refl_ok RCQ15 ->
  length RCQ15 = Z.to_nat AR_ORDER -> WebRtcIsacfix_EncodeRcCoef RCQ15 st = Some (lev, r, st') ->
  r = 0 \/ r = - ISAC_DISALLOWED_BITSTREAM_LENGTH.
Proof.
  intros Hi Hrc Hl E. unfold WebRtcIsacfix_EncodeRcCoef in E.
  destruct (rc_quantized RCQ15 Hrc Hl) as (index & lev' & Eq & El & Hcell & Hok). rewrite Eq in E.
  cbn [mbind option_bind] in E.
  destruct (EncHistMulti_spec st V W n _ _ Hi (chunk_ok_syms _ Hok)) as (r' & st1 & E1 & Hcase).
  cbn [ck_data ck_cdf] in E1. rewrite E1 in E. injection E as _ -> _.
  destruct Hcase as [[-> _]|[-> _]]; auto.
Qed.

(** The calls behind a successful [encode_model]. *)
Lemma encode_model_inr data st ar gain st' : encode_model data st = Some (inr (ar, gain, st')) ->
  exists C sh lev r st1, WebRtcIsacfix_EncodeRcCoef (WebRtcSpl_AutoCorrToReflCoef C AR_ORDER) st = Some (lev, r, st1) /\
    0 <= i16 r /\ ar = WebRtcSpl_ReflCoefToLpc lev AR_ORDER /\
    WebRtcIsacfix_EncodeGain2 (spec_gain (ar_energy ar C) sh) st1 = Some (gain, 0, st').
Proof.
  unfold encode_model. generalize WebRtcIsacfix_EncodeRcCoef as rc, WebRtcIsacfix_EncodeGain2 as ga.
  generalize WebRtcSpl_AutoCorrToReflCoef as corr, WebRtcSpl_ReflCoefToLpc as lpc, spec_gain as sg, ar_energy as en.
  intros corr lpc sg en rc ga. destruct (spec_corr data) as [C sh].
  destruct (rc (corr C AR_ORDER) st) as [[[lev r] st1]|] eqn:E1; [|done]. cbn [mbind option_bind].
  destruct (Z.ltb_spec (i16 r) 0); [done|].
  destruct (ga (sg (en (lpc lev AR_ORDER) C) sh) st1) as [[[gl r2] st2]|] eqn:E2; [|done]. cbn [mbind option_bind].
  destruct (Z.eqb_spec r2 0) as [->|?]; [|done]. intros [= <- <- <-].
  by exists C, sh, lev, r, st1.
Qed.

Lemma encode_model_some data st V W n : enc_inv st V W n ->
  exists r, encode_model data st = Some r /\
  match r with
  | inl (status, _) => status = - ISAC_DISALLOWED_BITSTREAM_LENGTH \/ status = -1
  | inr _ => True
  end.
Proof.
  intros Hi. unfold encode_model, WebRtcIsacfix_EncodeRcCoef. destruct (spec_corr data) as [C sh].
  destruct (AutoCorr_refl_ok C AR_ORDER ltac:(done)) as [Hl Hrc].
  generalize dependent (WebRtcSpl_AutoCorrToReflCoef C AR_ORDER). intros RC Hl Hrc. cbn zeta.
  destruct (rc_quantized RC Hrc Hl) as (index & lev & -> & El & Hcell & Hok). bind_simpl.
  destruct (EncHistMulti_spec st V W n _ _ Hi (chunk_ok_syms _ Hok)) as (ret & st1 & E1 & Hcase).
  cbn [ck_data ck_cdf] in E1. rewrite E1. bind_simpl.
  destruct Hcase as [(-> & V1 & W1 & n1 & Hi1 & _ & Ht1)|(-> & _)];
    [|eexists; split; [done|]; by left].
  change (i16 0 <? 0) with false. cbv iota. unfold WebRtcIsacfix_EncodeGain2.
  set (ar := WebRtcSpl_ReflCoefToLpc lev AR_ORDER). pose proof (spec_gain_range (ar_energy ar C) sh) as Hg.
  generalize dependent (spec_gain (ar_energy ar C) sh). intros g Hg.
  destruct (gain_quantized g Hg) as (gi & gl & -> & Eg & _ & Hok'). bind_simpl. rewrite Eg. bind_simpl.
  destruct (EncHistMulti_spec st1 V1 W1 n1 _ _ Hi1 (chunk_ok_syms _ Hok')) as (ret & st2 & E2 & Hcase).
  cbn [ck_data ck_cdf] in E2. rewrite E2. bind_simpl.
  destruct Hcase as [(-> & _)|(-> & _)]; [|eexists; split; [done|]; by right].
  by eexists.
Qed.

(** A successful [encode_model] can be read. *)
Lemma encode_model_transmits data st V W n ar gain st' : enc_inv st V W n ->
  encode_model data st = Some (inr (ar, gain, st')) ->
  transmits no_error st st' decode_model (ar, gain).
Proof.
  intros Hi (C & sh & lev & r & st1 & E1 & Hr & -> & E2)%encode_model_inr.
  destruct (AutoCorr_refl_ok C AR_ORDER ltac:(done)) as [Hl Hrc].
  destruct (EncodeRcCoef_status _ st lev r st1 V W n Hi Hrc Hl E1) as [-> | ->]; [|done].
  apply (transmits_bind no_error st st1 st' _ _ lev); [exact (EncodeRcCoef_transmits _ st lev st1 Hrc Hl E1)|].
  eapply transmits_post; [|exact (EncodeGain2_transmits _ st1 gain st' (spec_gain_range _ _) E2)].
  intros dst ret dst' n' W' Ed Hq. exists ret. split; [|done]. by rewrite Ed.
Qed.

(** ** Coding of the spectrum *)

(** The part behind the model. *)
Lemma EncodeSpec_eq fr fi st apg ar gain sta env :
  encode_model (spec_data fr fi (e_W_upper st) apg) st = Some (inr (ar, gain, sta)) ->
  CalcRootInvArSpec ar gain = Some env ->
  WebRtcIsacfix_EncodeSpec fr fi st apg
  = '(dataQ7, status, st) ← WebRtcIsacfix_EncLogisticMulti2 sta (spec_data fr fi (e_W_upper st) apg) env;
    Some (dataQ7, i16 status, st).
Proof.
  unfold WebRtcIsacfix_EncodeSpec. generalize (spec_data fr fi (e_W_upper st) apg) as data.
  generalize WebRtcIsacfix_EncLogisticMulti2 as logistic, encode_model as model, CalcRootInvArSpec as root.
  intros logistic model root data -> Henv. cbn zeta. bind_simpl. rewrite Henv. by bind_simpl.
Qed.

Lemma decode_spec_data_eq apg dither dst ar gain r1 dst1 xs r2 dst2 n W :
  decode_model dst = Some ((ar, gain), r1, dst1) -> 0 <= r1 ->
  WebRtcIsacfix_DecLogisticMulti2 dither dst1 (CalcInvArSpec ar gain) FRAMESAMPLES = Some (xs, r2, dst2) ->
  stream_length r2 n W ->
  decode_spec_data apg dither dst = Some (scale_spec apg (CalcInvArSpec ar gain) xs, r2, dst2).
Proof.
  unfold decode_spec_data. generalize WebRtcIsacfix_DecLogisticMulti2 as logistic, decode_model as model.
  generalize CalcInvArSpec as inv, scale_spec as scale. intros inv scale logistic model -> Hr1 E2 Hq.
  bind_simpl. rewrite (proj2 (Z.ltb_ge r1 0)) by lia. rewrite E2. bind_simpl. unfold stream_length in Hq.
  assert (1 <= term_bytes W)%nat by (unfold term_bytes; destruct (_ <? _); lia).
  by rewrite (proj2 (Z.ltb_ge r2 1)) by lia.
Qed.

(** A successful [WebRtcIsacfix_EncodeSpec] whose widths are at least 52 can be
    read by [WebRtcIsacfix_DecodeSpec]. *)
Section Spectrum.
Context (fr fi : list Z) (apg : Z) (st sta st1 : Bitstr_enc) (ar : list Z) (gain : Z) (env xs : list Z).
Context (Hfr : spectrum_ok fr) (Hfi : spectrum_ok fi) (Hapg : apg <= 3891).
Context (Em : encode_model (spec_data fr fi (e_W_upper st) apg) st = Some (inr (ar, gain, sta))).
Context (Henv : CalcRootInvArSpec ar gain = Some env) (Hwide : Forall (fun e => 52 <= e) env).
Context (Es : WebRtcIsacfix_EncodeSpec fr fi st apg = Some (xs, 0, st1)).

Let dither := GenerateDitherQ7 (e_W_upper st) FRAMESAMPLES apg.
Let data := spec_data fr fi (e_W_upper st) apg.

Lemma EncodeSpec_logistic V W n : enc_inv st V W n ->
  WebRtcIsacfix_EncLogisticMulti2 sta data env = Some (xs, 0, st1).
Proof.
  intros Hi. pose proof Es as E. rewrite (EncodeSpec_eq _ _ _ _ _ _ _ _ Em Henv) in E. fold data in E.
  destruct (encode_model_transmits _ _ _ _ _ _ _ _ Hi Em V W n Hi) as (syms & V1 & W1 & n1 & _ & Hi1 & _).
  destruct (spec_data_ok fr fi (e_W_upper st) apg Hfr Hfi Hapg) as (Hld & Hok & _ & _). fold data in Hld, Hok.
  pose proof Henv as Hroot. rewrite widths_agree in Hroot. destruct (roots_wide _ _ Hroot Hwide) as [El He].
  rewrite CalcInvArSpec_length in El. clearbody data.
  destruct (EncLogisticMulti2_spec sta V1 W1 n1 data env Hi1) as (xs' & ret & st' & E' & Hcase);
    [apply Forall_impl with (2 := He); intros e ?; lia|done|lia|].
  rewrite E' in E |- *. cbn [mbind option_bind] in E. injection E as -> Er ->.
  by destruct Hcase as [[-> _]|[-> _]].
Qed.

Lemma EncodeSpec_transmits V W n : enc_inv st V W n ->
  transmits stream_length st st1 (WebRtcIsacfix_DecodeSpec apg) (scale_spec apg (CalcInvArSpec ar gain) xs) /\
  samples_rel (fun e x x' => clipped x e x') env 0 data xs.
Proof.
  intros Hi. pose proof (EncodeSpec_logistic V W n Hi) as El.
  pose proof (encode_model_transmits _ _ _ _ _ _ _ _ Hi Em) as Hm.
  destruct (Hm V W n Hi) as (syms & V1 & W1 & n1 & _ & Hi1 & _).
  destruct (spec_data_ok fr fi (e_W_upper st) apg Hfr Hfi Hapg) as (Hld & Hok & Hdi & _).
  fold data in Hld, Hok, Hdi. fold dither in Hdi.
  pose proof Henv as Hroot. rewrite widths_agree in Hroot. pose proof (CalcInvArSpec_length ar gain) as Hls.
  assert (CalcInvArSpec ar gain <> []) as Hne by (intros E; by rewrite E in Hls).
  assert (length data = (4 * length (CalcInvArSpec ar gain))%nat) as Hlen by (rewrite Hls; exact Hld).
  split; [|by apply (logistic_run data _ env xs sta st1 Hok Hlen Hroot Hwide El V1 W1 n1 Hi1)].
  apply (transmits_seed stream_length st st1
    (fun W => decode_spec_data apg (GenerateDitherQ7 W FRAMESAMPLES apg))). fold dither.
  pose proof (logistic_transmits data dither _ env xs sta st1 Hok Hdi Hne Hlen Hroot Hwide El) as Hlog.
  rewrite Hld in Hlog. change (Z.of_nat 480) with FRAMESAMPLES in Hlog. clearbody dither data.
  apply (transmits_seq _ _ _ _ _ _ _ _ _ _ _ Hm Hlog).
  intros dst r1 dst1 r2 dst2 n' W' E1 Hr1 E2 Hq. exists r2. split; [|done].
  by apply (decode_spec_data_eq apg dither dst ar gain r1 dst1 xs r2 dst2 n' W').
Qed.
End Spectrum.

(** Encoder and decoder weigh the spectrum with the same widths.  The
    encoder's [CalcRootInvArSpec] and the decoder's [CalcInvArSpec] followed by
    the root iteration of [WebRtcIsacfix_DecLogisticMulti2] are written
    separately, with products in another order, a shift for a multiplication
    and an [int16_t] where the other has [uint16_t]; for all coefficients and
    gains, overflow included, they divide by zero together or give the same 120
    16-bit widths. *)
Theorem spectrum_widths_agree ar gain :
  let specs := CalcInvArSpec ar gain in
  CalcRootInvArSpec ar gain = newton_roots specs (newton_start (arr specs 0)) /\
  forall env, CalcRootInvArSpec ar gain = Some env ->
    length env = Z.to_nat (FRAMESAMPLES / 4) /\ Forall (fun e => e < 2 ^ 16) env.
Proof.
  cbn zeta. rewrite widths_agree. split; [done|]. intros env H.
  destruct (newton_roots_shape _ _ _ H) as [E Hu]. by rewrite CalcInvArSpec_length in E.
Qed.

Lemma spectrum_widths_agree_witness :
  length (default [] (CalcRootInvArSpec [4096; -302; -162; -167; -43; -14; -5] 128)) = 120%nat.
Proof.
  destruct (proj2 (spectrum_widths_agree [4096; -302; -162; -167; -43; -14; -5] 128)
    (default [] (CalcRootInvArSpec [4096; -302; -162; -167; -43; -14; -5] 128))) as [H _].
  - vm_compute. reflexivity.
  - exact H.
Defined.

(** The AR model of the spectrum is coded without a failure of its own.
    Whatever spectrum comes in, the reflection coefficients and the gain
    computed from it lie between the ends of the quantiser's bounds, so the two
    search loops of [WebRtcIsacfix_EncodeRcCoef] and
    [WebRtcIsacfix_EncodeGain2] end inside their tables with the cell that
    holds the value, and at any position of a stream the model is coded with
    status 0 or given up because the stream is full. *)
Theorem model_coding_total data st V W n : enc_inv st V W n ->
  let '(C, sh) := spec_corr data in
  (exists index lev, quantize_rc (WebRtcSpl_AutoCorrToReflCoef C AR_ORDER)
       WebRtcIsacfix_kRcInitInd WebRtcIsacfix_kRcLevPtr = Some (index, lev) /\
     Forall2 (in_cell WebRtcIsacfix_kRcBound) (WebRtcSpl_AutoCorrToReflCoef C AR_ORDER) index) /\
  (forall nrg, exists gi, quantize WebRtcIsacfix_kGain2Bound (arr WebRtcIsacfix_kGainInitInd 0) (spec_gain nrg sh) = Some gi /\
     in_cell WebRtcIsacfix_kGain2Bound (spec_gain nrg sh) gi) /\
  exists r, encode_model data st = Some r /\
    match r with
    | inl (status, _) => status = - ISAC_DISALLOWED_BITSTREAM_LENGTH \/ status = -1
    | inr _ => True
    end.
Proof.
  intros Hi. pose proof (encode_model_some data st V W n Hi) as Hm. destruct (spec_corr data) as [C sh].
  destruct (AutoCorr_refl_ok C AR_ORDER ltac:(done)) as [Hl Hrc]. split; [|split; [|exact Hm]].
  - destruct (rc_quantized _ Hrc Hl) as (index & lev & E & _ & Hc & _). by exists index, lev.
  - intros nrg. destruct (gain_quantized _ (spec_gain_range nrg sh)) as (gi & lev & E & _ & Hc & _). by exists gi.
Qed.

Lemma model_coding_total_witness :
  exists r, encode_model (replicate 480 0) (enc_reset (replicate 200 0)) = Some r /\
    match r with
    | inl (status, _) => status = - ISAC_DISALLOWED_BITSTREAM_LENGTH \/ status = -1
    | inr _ => True
    end.
Proof.
  pose proof (model_coding_total (replicate 480 0) (enc_reset (replicate 200 0)) 0 (2 ^ 32 - 1) 0) as H.
  destruct (spec_corr (replicate 480 0)) as [C sh].
  apply H. apply enc_reset_inv.
  - apply Forall_replicate. unfold is_u16. lia.
  - reflexivity.
Defined.

(** *** What the decoder does to a decoded sample *)

(** The gain of the decoder in Q10, exactly: [30 / (inv + 33.5)] rounded down
    twice, or [36 / (inv + 40.5)] when the average pitch gain is above 0.15,
    for a power spectrum [inv] given in Q16. *)
Definition wiener_gain (AvgPitchGain_Q12 inv : Z) : Z :=
  if AvgPitchGain_Q12 <=? 614 then 30 * 2 ^ 10 / ((2 * inv + 67 * 2 ^ 16) / 2 ^ 17)
  else 36 * 2 ^ 10 / ((2 * inv + 81 * 2 ^ 16) / 2 ^ 17).

(** A sample times the gain, rounded. *)
Definition attenuated (AvgPitchGain_Q12 inv x : Z) : Z :=
  (x * wiener_gain AvgPitchGain_Q12 inv + 2 ^ 9) / 2 ^ 10.

Lemma wiener_gain_range apg inv : 0 <= inv < 2 ^ 31 - 81 * 2 ^ 15 ->
  spec_scale apg inv = wiener_gain apg inv /\ 0 <= wiener_gain apg inv < 2 ^ 10.
Proof.
  intros Hi. unfold spec_scale, wiener_gain, WebRtcSpl_DivW32W16ResW16. rewrite !shiftr_div by lia.
  rewrite !Z.shiftl_mul_pow2 by lia. destruct (apg <=? 614).
  - rewrite (u32_id (inv + 2195456)) by (unfold is_u32; lia).
    replace ((2 * inv + 67 * 2 ^ 16) / 2 ^ 17) with ((inv + 2195456) / 2 ^ 16) by (Z.div_mod_to_equations; lia).
    assert (33 <= (inv + 2195456) / 2 ^ 16 < 2 ^ 15) as Hd by (Z.div_mod_to_equations; lia).
    set (d := (inv + 2195456) / 2 ^ 16) in *. clearbody d. rewrite (i16_id d) by (unfold is_i16; lia).
    rewrite (proj2 (Z.eqb_neq d 0)) by lia. cbn [negb]. rewrite Z.quot_div_nonneg by lia.
    assert (0 <= 30 * 2 ^ 10 / d < 2 ^ 10) by (split; [apply Z.div_pos; lia|apply Z.div_lt_upper_bound; lia]).
    rewrite i32_id, i16_id by (unfold is_i32, is_i16; lia). done.
  - rewrite (u32_id (inv + 2654208)) by (unfold is_u32; lia).
    replace ((2 * inv + 81 * 2 ^ 16) / 2 ^ 17) with ((inv + 2654208) / 2 ^ 16) by (Z.div_mod_to_equations; lia).
    assert (40 <= (inv + 2654208) / 2 ^ 16 < 2 ^ 15) as Hd by (Z.div_mod_to_equations; lia).
    set (d := (inv + 2654208) / 2 ^ 16) in *. clearbody d. rewrite (i16_id d) by (unfold is_i16; lia).
    rewrite (proj2 (Z.eqb_neq d 0)) by lia. cbn [negb]. rewrite Z.quot_div_nonneg by lia.
    assert (0 <= 36 * 2 ^ 10 / d < 2 ^ 10) by (split; [apply Z.div_pos; lia|apply Z.div_lt_upper_bound; lia]).
    rewrite i32_id, i16_id by (unfold is_i32, is_i16; lia). done.
Qed.

Lemma scale_sample_exact apg inv x : 0 <= inv < 2 ^ 31 - 81 * 2 ^ 15 -> is_i16 x ->
  scale_sample (spec_scale apg inv) x = attenuated apg inv x /\
  Z.abs (attenuated apg inv x) <= Z.abs x.
Proof.
  intros Hi Hx. destruct (wiener_gain_range apg inv Hi) as [-> Hg]. unfold scale_sample, attenuated.
  set (g := wiener_gain apg inv) in *. clearbody g. unfold is_i16 in Hx.
  assert (- 2 ^ 25 <= x * g <= 32767 * 1023) as Hp by nia.
  assert (Z.abs ((x * g + 2 ^ 9) / 2 ^ 10) <= Z.abs x) as Ha.
  { assert (0 <= x -> 0 <= x * g <= x * 1024) by nia. assert (x <= 0 -> x * 1024 <= x * g <= 0) by nia.
    Z.div_mod_to_equations. lia. }
  rewrite (i32_id (x * g)), i32_id by (unfold is_i32; lia). rewrite shiftr_div by lia. change 512 with (2 ^ 9).
  assert (- 2 ^ 15 <= (x * g + 2 ^ 9) / 2 ^ 10 < 2 ^ 15) by (Z.div_mod_to_equations; lia).
  rewrite i16_id by done. done.
Qed.

Lemma scale_spec_exact apg inv xs : Forall is_i16 xs ->
  length (scale_spec apg inv xs).1 = 240%nat /\ length (scale_spec apg inv xs).2 = 240%nat /\
  forall k, 0 <= k < FRAMESAMPLES -> 0 <= arr inv (k / 4) < 2 ^ 31 - 81 * 2 ^ 15 ->
    arr (if Z.even k then (scale_spec apg inv xs).1 else (scale_spec apg inv xs).2) (k / 2)
      = attenuated apg (arr inv (k / 4)) (arr xs k) /\
    Z.abs (attenuated apg (arr inv (k / 4)) (arr xs k)) <= Z.abs (arr xs k).
Proof.
  intros Hx. unfold scale_spec. cbn [fst snd]. rewrite !length_map, !length_seqZ. do 2 (split; [done|]).
  intros k Hk Hi. assert (is_i16 (arr xs k)) as Hxk by (apply arr_Forall; [unfold is_i16; lia|done]).
  rewrite <- (proj1 (scale_sample_exact apg _ _ Hi Hxk)). split.
  - unfold FRAMESAMPLES in *. destruct (Z.even k) eqn:E.
    + rewrite arr_map_seqZ by (Z.div_mod_to_equations; lia).
      apply Z.even_spec in E as [m ->]. by replace (2 * (2 * m / 2)) with (2 * m) by (Z.div_mod_to_equations; lia).
    + rewrite <- Z.negb_odd in E. apply negb_false_iff, Z.odd_spec in E as [m ->].
      rewrite arr_map_seqZ by (Z.div_mod_to_equations; lia).
      by replace (2 * ((2 * m + 1) / 2) + 1) with (2 * m + 1) by (Z.div_mod_to_equations; lia).
  - rewrite (proj1 (scale_sample_exact apg _ _ Hi Hxk)). apply scale_sample_exact; done.
Qed.

Lemma clipped_i16 env k data xs : samples_rel (fun e x x' => clipped x e x') env k data xs -> Forall is_i16 xs.
Proof.
  revert k xs. induction data as [|x data IH]; intros k [|y xs] H; try done.
  cbn [samples_rel] in H. destruct H as [[Hy _] H]. constructor; [|by eapply IH].
  unfold sample_ok, is_i16 in *. lia.
Qed.


(** *** A frame, used by the witness *)

Definition ex_fr : list Z := Eval vm_compute in map (fun k => k * 7919 mod 2001 - 1000) (seqZ 0 240).
Definition ex_fi : list Z := Eval vm_compute in map (fun k => k * 104729 mod 1501 - 750) (seqZ 0 240).
Definition ex_start : Bitstr_enc := Eval vm_compute in example_st.
Definition model_of (r : Z * Bitstr_enc + list Z * Z * Bitstr_enc) : list Z * Z * Bitstr_enc :=
  match r with inl (_, st) => ([], 0, st) | inr m => m end.
Definition ex_model : list Z * Z * Bitstr_enc := Eval vm_compute in
  from_option model_of ([], 0, ex_start)
    (encode_model (spec_data ex_fr ex_fi (e_W_upper ex_start) 1000) ex_start).
Definition ex_env : list Z := Eval vm_compute in default [] (CalcRootInvArSpec ex_model.1.1 ex_model.1.2).
Definition ex_spec : list Z * Z * Bitstr_enc := Eval vm_compute in
  default ([], 0, ex_start) (WebRtcIsacfix_EncodeSpec ex_fr ex_fi ex_start 1000).
Definition ex_end : Z * Bitstr_enc := Eval vm_compute in default (0, ex_start) (WebRtcIsacfix_EncTerminate ex_spec.2).
Definition ex_packet : list Z := Eval vm_compute in take 143 (e_stream ex_end.2) ++ replicate 162 0.

Lemma bytes_agree a b n : forallb (fun i => byteat a i =? byteat b i) (seq 0 n) = true ->
  forall i, (i < n)%nat -> byteat a i = byteat b i.
Proof. intros H i Hi. rewrite forallb_forall in H. apply Z.eqb_eq, H, in_seq. lia. Qed.

