(* ===== verification/IsacPitch.v ===== *)
(** The side information of an iSAC packet: frame length, bandwidth index,
    pitch gains and pitch lags ([WebRtcIsacfix_EncodeFrameLen] to
    [WebRtcIsacfix_EncodePitchLag] and their decoders,
    [IS/entropy_coding.c]), with the record that keeps the parameters of a
    frame for further packets ([IS/structs.h]).

    Every parameter is transmitted ([StreamCodec]): the decoder returns exactly
    the value the encoder continues with.  The quantisers never leave their
    tables. *)
From S2P Require Import Prelude SplInl IsacArith IsacStream IsacEncoder IsacDecoder IsacLogistic IsacTransmit IsacSpectrum IsacTables.

(** ** settings.h and structs.h *)
Definition PITCH_SUBFRAMES : Z := 4.
Definition KLT_ORDER_GAIN : Z := 12.
Definition KLT_ORDER_SHAPE : Z := 108.
Definition ISAC_RANGE_ERROR_BW_ESTIMATOR : Z := 6240.
Definition ISAC_DISALLOWED_FRAME_MODE_ENCODER : Z := 6430.
Definition ISAC_DISALLOWED_FRAME_MODE_DECODER : Z := 6630.
Definition ISAC_RANGE_ERROR_DECODE_FRAME_LENGTH : Z := 6640.
Definition ISAC_RANGE_ERROR_DECODE_BANDWIDTH : Z := 6650.
Definition ISAC_RANGE_ERROR_DECODE_PITCH_GAIN : Z := 6660.
Definition ISAC_RANGE_ERROR_DECODE_PITCH_LAG : Z := 6670.

Record IsacSaveEncoderData := mkSaveEncoderData {
  startIdx : Z;
  framelength : Z;
  pitchGain_index : list Z;
  meanGain : list Z;
  pitchIndex : list Z;
  LPCcoeffs_g : list Z;
  LPCindex_s : list Z;
  LPCindex_g : list Z;
  fre : list Z;
  fim : list Z;
  AvgPitchGain : list Z;
  minBytes : Z
}.

(** Assignments to the members. *)
Definition set_pitchGain_index v s := mkSaveEncoderData (startIdx s) (framelength s) v (meanGain s) (pitchIndex s)
  (LPCcoeffs_g s) (LPCindex_s s) (LPCindex_g s) (fre s) (fim s) (AvgPitchGain s) (minBytes s).
Definition set_meanGain v s := mkSaveEncoderData (startIdx s) (framelength s) (pitchGain_index s) v (pitchIndex s)
  (LPCcoeffs_g s) (LPCindex_s s) (LPCindex_g s) (fre s) (fim s) (AvgPitchGain s) (minBytes s).
Definition set_pitchIndex v s := mkSaveEncoderData (startIdx s) (framelength s) (pitchGain_index s) (meanGain s) v
  (LPCcoeffs_g s) (LPCindex_s s) (LPCindex_g s) (fre s) (fim s) (AvgPitchGain s) (minBytes s).

(** [if (encData != NULL) ...]; [None] is the null pointer. *)
Definition save (f : IsacSaveEncoderData -> option IsacSaveEncoderData)
    (encData : option IsacSaveEncoderData) : option (option IsacSaveEncoderData) :=
  match encData with
  | None => Some None
  | Some s => s ← f s; Some (Some s)
  end.

(** [dst[at .. at + length src) = src], one cell after the other. *)
Fixpoint wr_all (dst : list Z) (at_ : Z) (src : list Z) : option (list Z) :=
  match src with
  | [] => Some dst
  | v :: src => dst ← wr dst at_ v; wr_all dst (at_ + 1) src
  end.

(** ** Frame length and bandwidth *)

Definition kFrameLenCdf : list Z := [0; 21845; 43690; 65535].
Definition kFrameLenCdfPtr : list (list Z) := [kFrameLenCdf].
Definition kFrameLenInitIndex : list Z := [1].

Definition kBwCdf : list Z :=
  [0; 2731; 5461; 8192; 10923; 13653; 16384; 19114; 21845; 24576; 27306; 30037;
   32768; 35498; 38229; 40959; 43690; 46421; 49151; 51882; 54613; 57343; 60074;
   62804; 65535].
Definition kBwCdfPtr : list (list Z) := [kBwCdf].
Definition kBwInitIndex : list Z := [7].

(** The value is [*framesamples], 0 where the function leaves it unset. *)
Definition WebRtcIsacfix_DecodeFrameLen : decoder Z := fun streamdata =>
  '(frame_mode, err, st) ← WebRtcIsacfix_DecHistOneStepMulti streamdata kFrameLenCdfPtr kFrameLenInitIndex 1;
  if err <? 0 then Some (0, - ISAC_RANGE_ERROR_DECODE_FRAME_LENGTH, st)
  else if arr frame_mode 0 =? 1 then Some (480, err, st)
  else if arr frame_mode 0 =? 2 then Some (960, err, st)
  else Some (0, - ISAC_DISALLOWED_FRAME_MODE_DECODER, st).

Definition WebRtcIsacfix_EncodeFrameLen (framesamples : Z) (streamdata : Bitstr_enc) : option (Z * Bitstr_enc) :=
  let code frame_mode := WebRtcIsacfix_EncHistMulti streamdata [frame_mode] kFrameLenCdfPtr in
  if framesamples =? 480 then code 1
  else if framesamples =? 960 then code 2
  else Some (- ISAC_DISALLOWED_FRAME_MODE_ENCODER, streamdata).

Definition WebRtcIsacfix_DecodeSendBandwidth : decoder Z := fun streamdata =>
  '(BWno32, err, st) ← WebRtcIsacfix_DecHistOneStepMulti streamdata kBwCdfPtr kBwInitIndex 1;
  if err <? 0 then Some (0, - ISAC_RANGE_ERROR_DECODE_BANDWIDTH, st)
  else Some (arr BWno32 0, err, st).

Definition WebRtcIsacfix_EncodeReceiveBandwidth (BWno : Z) (streamdata : Bitstr_enc) : option (Z * Bitstr_enc) :=
  WebRtcIsacfix_EncHistMulti streamdata [BWno] kBwCdfPtr.

(** ** Pitch gains *)

(** The table look-up both sides perform. *)
Definition gains_of (index_comb : Z) : option (list Z) :=
  g1 ← rd WebRtcIsacfix_kPitchGain1 index_comb;
  g2 ← rd WebRtcIsacfix_kPitchGain2 index_comb;
  g3 ← rd WebRtcIsacfix_kPitchGain3 index_comb;
  g4 ← rd WebRtcIsacfix_kPitchGain4 index_comb;
  Some [g1; g2; g3; g4].

Definition WebRtcIsacfix_DecodePitchGain : decoder (list Z) := fun streamdata =>
  '(index_comb, err, st) ← WebRtcIsacfix_DecHistBisectMulti streamdata [WebRtcIsacfix_kPitchGainCdf]
                             WebRtcIsacfix_kCdfTableSizeGain 1;
  if (err <? 0) || (arr index_comb 0 <? 0) || (144 <=? arr index_comb 0)
  then Some ([], - ISAC_RANGE_ERROR_DECODE_PITCH_GAIN, st)
  else PitchGains_Q12 ← gains_of (arr index_comb 0); Some (PitchGains_Q12, 0, st).

Definition transform (k j : Z) : Z := arr (nth (Z.to_nat k) WebRtcIsacfix_kTransform []) j.

(** Limits an index to its table. *)
Definition limit_index (lower upper index : Z) : Z :=
  i16 ((if index <? lower then lower else if upper <? index then upper else index) - lower).

(** [index[k]] *)
Definition gain_index (SQ15 : list Z) (k : Z) : Z :=
  let CQ17 := for_loop PITCH_SUBFRAMES (fun j CQ17 => i32 (CQ17 + ((transform k j * arr SQ15 j) ≫ 10))) 0 in
  limit_index (arr WebRtcIsacfix_kLowerlimiGain k) (arr WebRtcIsacfix_kUpperlimitGain k)
    (i16 (i32 (CQ17 + 8192) ≫ 14)).

(** [index_comb] of the gains. *)
Definition gain_comb (PitchGains_Q12 : list Z) : Z :=
  let SQ15 := map (fun g => i16 ((g * 33) ≫ 2)) PitchGains_Q12 in
  let index k := gain_index SQ15 k in
  i16 (WEBRTC_SPL_MUL (arr WebRtcIsacfix_kMultsGain 0) (index 0)
       + WEBRTC_SPL_MUL (arr WebRtcIsacfix_kMultsGain 1) (index 1) + index 2).

(** Returns [PitchGains_Q12] as the function leaves it, the status, the stream
    and the saved data. *)
Definition WebRtcIsacfix_EncodePitchGain (PitchGains_Q12 : list Z) (streamdata : Bitstr_enc)
    (encData : option IsacSaveEncoderData) : option (list Z * Z * Bitstr_enc * option IsacSaveEncoderData) :=
  let index_comb := gain_comb PitchGains_Q12 in
  PitchGains_Q12 ← gains_of index_comb;
  '(status, st) ← WebRtcIsacfix_EncHistMulti streamdata [index_comb] [WebRtcIsacfix_kPitchGainCdf];
  if status <? 0 then Some (PitchGains_Q12, status, st, encData)
  else
    encData ← save (fun s => l ← wr (pitchGain_index s) (startIdx s) index_comb;
                             Some (set_pitchGain_index l s)) encData;
    Some (PitchGains_Q12, 0, st, encData).

(** ** Pitch lags *)

Definition WEBRTC_SPL_SHIFT_W32 (x c : Z) : Z := if 0 <=? c then i32 (x * i32 (1 ≪ c)) else x ≫ (- c).

(** The tables of a voicing class. *)
Record lag_class := mkLagClass {
  shft : Z;
  cdf : list (list Z);
  cdf_size : list Z;
  mean_val2Q10 : list Z;
  mean_val4Q10 : list Z;
  lower_limit : list Z;
  upper_limit : list Z;
  init_index : list Z
}.

Definition lag_lo : lag_class := mkLagClass (-1) WebRtcIsacfix_kPitchLagPtrLo WebRtcIsacfix_kPitchLagSizeLo
  WebRtcIsacfix_kMeanLag2Lo WebRtcIsacfix_kMeanLag4Lo WebRtcIsacfix_kLowerLimitLo WebRtcIsacfix_kUpperLimitLo
  WebRtcIsacfix_kInitIndLo.
Definition lag_mid : lag_class := mkLagClass 0 WebRtcIsacfix_kPitchLagPtrMid WebRtcIsacfix_kPitchLagSizeMid
  WebRtcIsacfix_kMeanLag2Mid WebRtcIsacfix_kMeanLag4Mid WebRtcIsacfix_kLowerLimitMid WebRtcIsacfix_kUpperLimitMid
  WebRtcIsacfix_kInitIndMid.
Definition lag_hi : lag_class := mkLagClass 1 WebRtcIsacfix_kPitchLagPtrHi WebRtcIsacfix_kPitchLagSizeHi
  WebRtcIsacfix_kMeanLag2Hi WebRtcIsacfix_kMeanLag4Hi WebRtcIsacfix_kLowerLimitHi WebRtcIsacfix_kUpperLimitHi
  WebRtcIsacfix_kInitIndHi.

(** The voicing classification. *)
Definition voicing (meangainQ12 : Z) : lag_class :=
  if meangainQ12 <=? 819 then lag_lo else if meangainQ12 <=? 1638 then lag_mid else lag_hi.

Definition mean_gain (PitchGain_Q12 : list Z) : Z :=
  for_loop 4 (fun k m => i32 (m + arr PitchGain_Q12 k)) 0 ≫ 2.

(** The inverse transform of both sides. *)
Definition lags_of (c : lag_class) (index : list Z) : option (list Z) :=
  let CQ11 := WEBRTC_SPL_SHIFT_W32 (i32 (arr index 0 + arr (lower_limit c) 0)) (11 - shft c) in
  C2 ← rd (mean_val2Q10 c) (arr index 1);
  C4 ← rd (mean_val4Q10 c) (arr index 3);
  Some (map (fun k =>
    let l := i16 (WEBRTC_SPL_MUL_16_32_RSFT11 (transform 0 k) CQ11 ≫ 5) in
    let l := i16 (l + i16 (((transform 1 k * i16 C2) ≫ 10) ≫ 5)) in
    i16 (l + i16 (((transform 3 k * i16 C4) ≫ 10) ≫ 5))) (seqZ 0 PITCH_SUBFRAMES)).

Definition WebRtcIsacfix_DecodePitchLag (PitchGain_Q12 : list Z) : decoder (list Z) := fun streamdata =>
  let c := voicing (mean_gain PitchGain_Q12) in
  '(index0, err, st) ← WebRtcIsacfix_DecHistBisectMulti streamdata (cdf c) (cdf_size c) 1;
  if (err <? 0) || (arr index0 0 <? 0) then Some ([], - ISAC_RANGE_ERROR_DECODE_PITCH_LAG, st)
  else
    '(index1, err, st) ← WebRtcIsacfix_DecHistOneStepMulti st (tail (cdf c)) (init_index c) 3;
    if err <? 0 then Some ([], - ISAC_RANGE_ERROR_DECODE_PITCH_LAG, st)
    else PitchLags_Q7 ← lags_of c (index0 ++ index1); Some (PitchLags_Q7, 0, st).

(** [index[k]] *)
Definition lag_index (c : lag_class) (PitchLagsQ7 : list Z) (k : Z) : Z :=
  let CQ17 := for_loop PITCH_SUBFRAMES (fun j CQ17 => i32 (CQ17 + ((transform k j * arr PitchLagsQ7 j) ≫ 2))) 0 in
  let CQ17 := WEBRTC_SPL_SHIFT_W32 CQ17 (shft c) in
  limit_index (arr (lower_limit c) k) (arr (upper_limit c) k) (i16 (i32 (CQ17 + 65536) ≫ 17)).

(** Returns [PitchLagsQ7] as the function leaves it, the status, the stream
    and the saved data. *)
Definition WebRtcIsacfix_EncodePitchLag (PitchLagsQ7 PitchGain_Q12 : list Z) (streamdata : Bitstr_enc)
    (encData : option IsacSaveEncoderData) : option (list Z * Z * Bitstr_enc * option IsacSaveEncoderData) :=
  let meangainQ12 := mean_gain PitchGain_Q12 in
  encData ← save (fun s => l ← wr (meanGain s) (startIdx s) meangainQ12; Some (set_meanGain l s)) encData;
  let c := voicing meangainQ12 in
  let index := map (lag_index c PitchLagsQ7) (seqZ 0 4) in
  encData ← save (fun s => l ← wr_all (pitchIndex s) (PITCH_SUBFRAMES * startIdx s) index;
                           Some (set_pitchIndex l s)) encData;
  PitchLagsQ7 ← lags_of c index;
  '(status, st) ← WebRtcIsacfix_EncHistMulti streamdata index (cdf c);
  Some (PitchLagsQ7, status, st, encData).

(** ** Tables and indices *)

(** The symbols [0 .. n-1] can be coded with [tbl]. *)
Definition coded_cdf (tbl : list Z) (n : Z) : bool :=
  bool_decide (Forall is_u16 tbl) && sortedb tbl && (n <? 2 ^ 15) && (n <? Z.of_nat (length tbl)) &&
  forallb (fun i => arr tbl i <? arr tbl (i + 1)) (seqZ 0 n).

Lemma coded_cdf_ok tbl n x : coded_cdf tbl n = true -> 0 <= x < n ->
  sym_ok x tbl /\ sortedb tbl = true.
Proof.
  intros H Hx. unfold coded_cdf in H. rewrite !andb_true_iff in H. destruct H as [[[[H1 H2] H3] H4] H5].
  apply bool_decide_eq_true in H1. pose proof (all_below _ _ x H5 ltac:(lia)) as Hlt. cbn beta in Hlt.
  repeat split; (done || lia).
Qed.

Lemma coded_onestep tbl n x init : coded_cdf tbl n = true -> 0 <= x < n ->
  0 <= init < Z.of_nat (length tbl) -> onestep_ok init x tbl.
Proof. intros H Hx Hi. destruct (coded_cdf_ok tbl n x H Hx). by split. Qed.

(** A table of [size - 1] entries at least, searched by bisection. *)
Definition bisect_size (tbl : list Z) (n size : Z) : bool :=
  (size =? 2 ^ Z.log2 size) && (2 <=? size) && (size <? 2 ^ 15) && (size - 1 <=? Z.of_nat (length tbl)) && (n + 2 <=? size).

Lemma coded_bisect tbl n x size : coded_cdf tbl n = true -> bisect_size tbl n size = true -> 0 <= x < n ->
  bisect_ok size x tbl.
Proof.
  intros H Hs Hx. destruct (coded_cdf_ok tbl n x H Hx). unfold bisect_size in Hs.
  rewrite !andb_true_iff in Hs. destruct Hs as ((((Hp & ?) & ?) & ?) & ?). apply Z.eqb_eq in Hp.
  split; [done|]. split; [done|]. split; [done|]. lia.
Qed.

Lemma limit_index_range lower upper index : lower <= upper -> upper - lower < 2 ^ 15 ->
  0 <= limit_index lower upper index <= upper - lower.
Proof.
  intros H1 H2. unfold limit_index. destruct (Z.ltb_spec index lower); [cint|].
  destruct (Z.ltb_spec upper index); cint.
Qed.

(** ** Frame length and bandwidth *)

Definition one_chunk (x : Z) (cdf : list (list Z)) (args : search_args) : chunk := mkChunk [x] cdf args.

Lemma frame_mode_ok m : m = 1 \/ m = 2 -> chunk_ok (one_chunk m kFrameLenCdfPtr (OneStep kFrameLenInitIndex)).
Proof.
  intros Hm. constructor; [|constructor]. apply coded_onestep with 3; [reflexivity|lia|].
  change (0 <= 1 < 4). lia.
Qed.

Lemma bandwidth_ok BWno : 0 <= BWno < 24 -> chunk_ok (one_chunk BWno kBwCdfPtr (OneStep kBwInitIndex)).
Proof.
  intros H. constructor; [|constructor]. apply coded_onestep with 24; [reflexivity|lia|].
  change (0 <= 7 < 25). lia.
Qed.

(** The two accepted frame lengths. *)
Lemma EncodeFrameLen_mode framesamples st r : WebRtcIsacfix_EncodeFrameLen framesamples st = Some (0, r) ->
  exists m, (framesamples = 480 /\ m = 1 \/ framesamples = 960 /\ m = 2) /\
    WebRtcIsacfix_EncHistMulti st [m] kFrameLenCdfPtr = Some (0, r).
Proof.
  unfold WebRtcIsacfix_EncodeFrameLen. destruct (Z.eqb_spec framesamples 480); [exists 1; auto|].
  destruct (Z.eqb_spec framesamples 960); [exists 2; auto|]. done.
Qed.

(** The encoder functions, with the value their caller passes or keeps. *)
Lemma FrameLen_transmits framesamples st st' : WebRtcIsacfix_EncodeFrameLen framesamples st = Some (0, st') ->
  transmits stream_length st st' WebRtcIsacfix_DecodeFrameLen framesamples.
Proof.
  intros E1. apply EncodeFrameLen_mode in E1 as (m & Hm & Eh).
  apply (hist_transmits st (one_chunk m kFrameLenCdfPtr (OneStep kFrameLenInitIndex))) in Eh;
    [|apply frame_mode_ok; lia].
  eapply transmits_post; [|exact Eh]. intros dst ret dst' n W Ed Hq. exists ret. split; [|exact Hq].
  unfold stream_length in Hq. unfold WebRtcIsacfix_DecodeFrameLen.
  change (WebRtcIsacfix_DecHistOneStepMulti dst kFrameLenCdfPtr kFrameLenInitIndex 1 = Some ([m], ret, dst')) in Ed.
  rewrite Ed. bind_simpl. rewrite (proj2 (Z.ltb_ge ret 0)) by lia.
  by destruct Hm as [[-> ->]|[-> ->]].
Qed.

#[export] Instance FrameLen_codec framesamples :
  StreamCodec (fun st => '(status, st) ← WebRtcIsacfix_EncodeFrameLen framesamples st; Some (framesamples, status, st))
    WebRtcIsacfix_DecodeFrameLen.
Proof.
  intros st v st' E. destruct (WebRtcIsacfix_EncodeFrameLen framesamples st) as [[r st1]|] eqn:E1; [|done].
  injection E as <- -> <-. by apply transmits_weaken, FrameLen_transmits.
Qed.

Lemma Bandwidth_transmits BWno st st' : 0 <= BWno < 24 -> WebRtcIsacfix_EncodeReceiveBandwidth BWno st = Some (0, st') ->
  transmits stream_length st st' WebRtcIsacfix_DecodeSendBandwidth BWno.
Proof.
  intros Hb E1. unfold WebRtcIsacfix_EncodeReceiveBandwidth in E1.
  apply (hist_transmits st (one_chunk BWno kBwCdfPtr (OneStep kBwInitIndex)) _ (bandwidth_ok BWno Hb)) in E1.
  eapply transmits_post; [|exact E1]. intros dst ret dst' n W Ed Hq. exists ret. split; [|exact Hq].
  unfold stream_length in Hq. unfold WebRtcIsacfix_DecodeSendBandwidth.
  change (WebRtcIsacfix_DecHistOneStepMulti dst kBwCdfPtr kBwInitIndex 1 = Some ([BWno], ret, dst')) in Ed.
  rewrite Ed. bind_simpl. by rewrite (proj2 (Z.ltb_ge ret 0)) by lia.
Qed.

#[export] Instance Bandwidth_codec BWno : 0 <= BWno < 24 ->
  StreamCodec (fun st => '(status, st) ← WebRtcIsacfix_EncodeReceiveBandwidth BWno st; Some (BWno, status, st))
    WebRtcIsacfix_DecodeSendBandwidth.
Proof.
  intros Hb st v st' E. destruct (WebRtcIsacfix_EncodeReceiveBandwidth BWno st) as [[r st1]|] eqn:E1; [|done].
  injection E as <- -> <-. by apply transmits_weaken, Bandwidth_transmits.
Qed.

(** ** Pitch gains *)

Lemma gain_index_range SQ15 k : k = 0 \/ k = 1 \/ k = 2 ->
  0 <= gain_index SQ15 k <= arr WebRtcIsacfix_kUpperlimitGain k - arr WebRtcIsacfix_kLowerlimiGain k.
Proof. intros Hk. apply limit_index_range; destruct Hk as [-> | [-> | ->] ]; (discriminate || reflexivity). Qed.

Lemma gain_comb_range gains : 0 <= gain_comb gains < 144.
Proof.
  unfold gain_comb. generalize (map (fun g => i16 ((g * 33) ≫ 2)) gains) as SQ15. intros SQ15.
  pose proof (gain_index_range SQ15 0 ltac:(auto)) as H0. pose proof (gain_index_range SQ15 1 ltac:(auto)) as H1.
  pose proof (gain_index_range SQ15 2 ltac:(auto)) as H2. cbn zeta.
  generalize dependent (gain_index SQ15 0). generalize dependent (gain_index SQ15 1).
  generalize dependent (gain_index SQ15 2). intros c H2 b H1 a H0.
  change (0 <= a <= 7) in H0. change (0 <= b <= 5) in H1. change (0 <= c <= 2) in H2.
  change (arr WebRtcIsacfix_kMultsGain 0) with 18. change (arr WebRtcIsacfix_kMultsGain 1) with 3.
  unfold WEBRTC_SPL_MUL. cint.
Qed.

Lemma gains_of_Some i : 0 <= i < 144 -> exists g, gains_of i = Some g.
Proof.
  intros Hi. unfold gains_of.
  rewrite !rd_Some by (split; [lia|apply Z.lt_le_trans with (1 := proj2 Hi); discriminate]). by eexists.
Qed.

Lemma gain_chunk_ok i : 0 <= i < 144 ->
  chunk_ok (one_chunk i [WebRtcIsacfix_kPitchGainCdf] (Bisect WebRtcIsacfix_kCdfTableSizeGain)).
Proof. intros Hi. constructor; [|constructor]. by apply coded_bisect with 144. Qed.

(** A coded index is read as its table entries. *)
Lemma DecodePitchGain_transmits i g st st' : 0 <= i < 144 -> gains_of i = Some g ->
  WebRtcIsacfix_EncHistMulti st [i] [WebRtcIsacfix_kPitchGainCdf] = Some (0, st') ->
  transmits no_error st st' WebRtcIsacfix_DecodePitchGain g.
Proof.
  intros Hi Eg Eh. apply (hist_transmits st _ _ (gain_chunk_ok i Hi)) in Eh.
  eapply transmits_post; [|exact Eh]. intros dst ret dst' n W Ed Hq. unfold stream_length in Hq.
  exists 0. split; [|done]. unfold WebRtcIsacfix_DecodePitchGain.
  change (WebRtcIsacfix_DecHistBisectMulti dst [WebRtcIsacfix_kPitchGainCdf] WebRtcIsacfix_kCdfTableSizeGain 1
    = Some ([i], ret, dst')) in Ed. rewrite Ed. bind_simpl. change (arr [i] 0) with i.
  rewrite (proj2 (Z.ltb_ge ret 0)), (proj2 (Z.ltb_ge i 0)), (proj2 (Z.leb_gt 144 i)) by lia. cbn [orb].
  rewrite Eg. by bind_simpl.
Qed.

Lemma EncodePitchGain_transmits gains st enc gains' st' enc' :
  WebRtcIsacfix_EncodePitchGain gains st enc = Some (gains', 0, st', enc') ->
  transmits no_error st st' WebRtcIsacfix_DecodePitchGain gains'.
Proof.
  unfold WebRtcIsacfix_EncodePitchGain. pose proof (gain_comb_range gains) as Hr.
  generalize dependent (gain_comb gains). intros i Hi. cbn zeta.
  destruct (gains_of_Some i Hi) as [g Eg]. rewrite Eg. cbn [mbind option_bind].
  destruct (WebRtcIsacfix_EncHistMulti st _ _) as [[r st1]|] eqn:Eh; [|done]. cbn [mbind option_bind].
  destruct (Z.ltb_spec r 0); [intros [= <- -> <- <-]; lia|].
  destruct (save _ enc) as [enc1|]; [|done]. cbn [mbind option_bind]. intros [= <- <- <-].
  assert (r = 0) as -> by exact (EncHist_nonneg _ _ _ _ _ Eh ltac:(done)).
  by apply (DecodePitchGain_transmits i).
Qed.

(** ** Pitch lags *)

(** Number of values of index [k]. *)
Definition lag_count (c : lag_class) (k : Z) : Z := arr (upper_limit c) k - arr (lower_limit c) k + 1.

(** The tables of a class fit each other. *)
Definition class_ok (c : lag_class) : bool :=
  let ok tbl k := coded_cdf tbl (lag_count c k) && (1 <=? lag_count c k) in
  let inside i (tbl : list Z) := (0 <=? i) && (i <? Z.of_nat (length tbl)) in
  match cdf c, cdf_size c, init_index c with
  | [t0; t1; t2; t3], [s], [i1; i2; i3] =>
      ok t0 0 && ok t1 1 && ok t2 2 && ok t3 3 && bisect_size t0 (lag_count c 0) s &&
      inside i1 t1 && inside i2 t2 && inside i3 t3 &&
      (lag_count c 1 <=? Z.of_nat (length (mean_val2Q10 c))) &&
      (lag_count c 3 <=? Z.of_nat (length (mean_val4Q10 c)))
  | _, _, _ => false
  end.

Lemma voicing_ok m : class_ok (voicing m) = true.
Proof. unfold voicing. destruct (m <=? 819); [|destruct (m <=? 1638)]; vm_compute; reflexivity. Qed.

Lemma lag_count_ok c tbl k : coded_cdf tbl (lag_count c k) && (1 <=? lag_count c k) = true -> 1 <= lag_count c k < 2 ^ 15.
Proof. rewrite andb_true_iff. unfold coded_cdf. rewrite !andb_true_iff. lia. Qed.

Lemma lag_index_range c tbl lags k : coded_cdf tbl (lag_count c k) && (1 <=? lag_count c k) = true ->
  0 <= lag_index c lags k < lag_count c k.
Proof.
  intros H%lag_count_ok. unfold lag_count in *. unfold lag_index.
  generalize (i16 (i32 (WEBRTC_SPL_SHIFT_W32 (for_loop PITCH_SUBFRAMES (fun j CQ17 =>
    i32 (CQ17 + ((transform k j * arr lags j) ≫ 2))) 0) (shft c) + 65536) ≫ 17)) as x. intros x.
  pose proof (limit_index_range (arr (lower_limit c) k) (arr (upper_limit c) k) x). lia.
Qed.

Lemma class_indices c lags : class_ok c = true -> forall k, 0 <= k < 4 -> 0 <= lag_index c lags k < lag_count c k.
Proof.
  unfold class_ok. destruct (cdf c) as [|t0 [|t1 [|t2 [|t3 [|]]]]]; try done.
  destruct (cdf_size c) as [|s [|]]; try done. destruct (init_index c) as [|i1 [|i2 [|i3 [|]]]]; try done.
  rewrite !(andb_true_iff (_ && _)). intros (((((((((H0 & H1) & H2) & H3) & _) & _) & _) & _) & _) & _) k Hk.
  assert (k = 0 \/ k = 1 \/ k = 2 \/ k = 3) as [-> | [-> | [-> | ->] ] ] by lia;
    (eapply lag_index_range; eassumption).
Qed.

(** The two decoder calls, and the indices they return. *)
Definition lag_chunks (c : lag_class) (index : list Z) : list chunk :=
  [mkChunk (take 1 index) (take 1 (cdf c)) (Bisect (cdf_size c));
   mkChunk (drop 1 index) (drop 1 (cdf c)) (OneStep (init_index c))].

Lemma lag_index_ok c x0 x1 x2 x3 : class_ok c = true -> 0 <= x0 < lag_count c 0 -> 0 <= x1 < lag_count c 1 ->
  0 <= x2 < lag_count c 2 -> 0 <= x3 < lag_count c 3 -> let index := [x0; x1; x2; x3] in
  (exists l, lags_of c index = Some l) /\ Forall chunk_ok (lag_chunks c index) /\
  concat (map ck_cdf (lag_chunks c index)) = cdf c /\ concat (map ck_data (lag_chunks c index)) = index.
Proof.
  intros Hok R0 R1 R2 R3 index. subst index. unfold class_ok in Hok. unfold lag_chunks, lags_of.
  destruct (cdf c) as [|t0 [|t1 [|t2 [|t3 [|]]]]]; try done. destruct (cdf_size c) as [|s [|]]; try done.
  destruct (init_index c) as [|i1 [|i2 [|i3 [|]]]]; try done. rewrite !(andb_true_iff (_ && _)) in Hok.
  destruct Hok as (((((((((H0 & H1) & H2) & H3) & Hb) & Hi1) & Hi2) & Hi3) & Hm2) & Hm4).
  apply andb_true_iff in H0 as [H0 _], H1 as [H1 _], H2 as [H2 _], H3 as [H3 _]. cbn [take drop].
  split; [|split; [|done]].
  - change (arr [x0; x1; x2; x3] 1) with x1. change (arr [x0; x1; x2; x3] 3) with x3.
    rewrite !rd_Some by lia. by eexists.
  - constructor; [constructor; [by eapply coded_bisect|constructor]|].
    constructor; [|constructor]. constructor; [|constructor; [|constructor; [|constructor] ] ];
      eapply coded_onestep; (done || lia).
Qed.

(** A bisection call reads as many tables as symbols. *)
Lemma bisect_loop_first stream l W tbls sizes :
  dec_bisect_loop stream l W (take 1 tbls) sizes 1 = dec_bisect_loop stream l W tbls sizes 1.
Proof.
  destruct tbls as [|t0 ts]; [done|]. cbn [take dec_bisect_loop]. destruct sizes; [done|].
  by destruct ts; cbn [take dec_bisect_loop].
Qed.

Lemma bisect_first dst tbls sizes x : decode_chunk dst (mkChunk [x] (take 1 tbls) (Bisect sizes))
  = WebRtcIsacfix_DecHistBisectMulti dst tbls sizes 1.
Proof.
  unfold decode_chunk, WebRtcIsacfix_DecHistBisectMulti. cbn [ck_args ck_data ck_cdf length].
  change (Z.to_nat (Z.of_nat 1)) with 1%nat. change (Z.to_nat 1) with 1%nat.
  destruct (d_W_upper dst =? 0); [done|]. destruct (dec_start dst) as [l|]; [|done]. bind_simpl.
  by rewrite bisect_loop_first.
Qed.

Lemma onestep_three dst tbls inits x1 x2 x3 : decode_chunk dst (mkChunk [x1; x2; x3] (drop 1 tbls) (OneStep inits))
  = WebRtcIsacfix_DecHistOneStepMulti dst (tail tbls) inits 3.
Proof. by destruct tbls. Qed.

Lemma lag_chunks_reads gains x0 x1 x2 x3 dst ret dst' : let c := voicing (mean_gain gains) in
  0 <= x0 ->
  decode_chunks dst (lag_chunks c [x0; x1; x2; x3]) 0 = Some ([[x0]; [x1; x2; x3]], ret, dst') -> 0 <= ret ->
  WebRtcIsacfix_DecodePitchLag gains dst = l ← lags_of c [x0; x1; x2; x3]; Some (l, 0, dst').
Proof.
  intros c Hx. unfold WebRtcIsacfix_DecodePitchLag. fold c. clearbody c.
  unfold lag_chunks. cbn [take decode_chunks]. rewrite bisect_first. intros E Hret. revert E.
  pose proof (fun st => onestep_three st (cdf c) (init_index c) x1 x2 x3) as E3. revert E3.
  generalize decode_chunk as dc, WebRtcIsacfix_DecHistBisectMulti as bis, WebRtcIsacfix_DecHistOneStepMulti as one.
  generalize lags_of as lo. intros lo dc bis one E3.
  destruct (bis dst _ _ 1) as [[[xs r] st]|]; [|done]. cbn [mbind option_bind].
  destruct (Z.ltb_spec r 0); [intros [= ? ? ?]; lia|]. rewrite E3.
  destruct (one st _ _ 3) as [[[ys r1] st1]|]; [|done]. cbn [mbind option_bind].
  destruct (Z.ltb_spec r1 0); [intros [= ? ? ?]; lia|]. intros [= -> -> -> ->].
  change (arr [x0] 0) with x0. rewrite (proj2 (Z.ltb_ge x0 0)) by lia. done.
Qed.

(** The four indices of the encoder. *)
Lemma lag_indices c lags : class_ok c = true -> exists x0 x1 x2 x3,
  map (lag_index c lags) (seqZ 0 4) = [x0; x1; x2; x3] /\ 0 <= x0 < lag_count c 0 /\ 0 <= x1 < lag_count c 1 /\
  0 <= x2 < lag_count c 2 /\ 0 <= x3 < lag_count c 3.
Proof.
  intros Hv. pose proof (class_indices c lags Hv) as H.
  exists (lag_index c lags 0), (lag_index c lags 1), (lag_index c lags 2), (lag_index c lags 3).
  split; [done|]. repeat split; apply H; lia.
Qed.

(** Coded indices are read as the lags they stand for. *)
Lemma DecodePitchLag_transmits gains x0 x1 x2 x3 l st st' : let c := voicing (mean_gain gains) in
  0 <= x0 < lag_count c 0 -> 0 <= x1 < lag_count c 1 -> 0 <= x2 < lag_count c 2 -> 0 <= x3 < lag_count c 3 ->
  lags_of c [x0; x1; x2; x3] = Some l ->
  WebRtcIsacfix_EncHistMulti st [x0; x1; x2; x3] (cdf c) = Some (0, st') ->
  transmits no_error st st' (WebRtcIsacfix_DecodePitchLag gains) l.
Proof.
  intros c R0 R1 R2 R3 El. pose proof (lag_chunks_reads gains x0 x1 x2 x3) as Hd. cbn zeta in Hd. fold c in Hd.
  destruct (lag_index_ok c x0 x1 x2 x3 (voicing_ok _) R0 R1 R2 R3) as (_ & Hok & Ec & Ei). clearbody c. rewrite <- Ec.
  rewrite <- Ei at 1. intros Eh. apply (hist_split_transmits (lag_chunks c [x0; x1; x2; x3]) st st') in Eh; [|done..].
  eapply transmits_post; [|exact Eh]. intros dst ret dst' n W Ed Hq. unfold stream_length in Hq.
  exists 0. split; [|done]. rewrite (Hd dst ret dst' (proj1 R0) Ed ltac:(lia)), El. done.
Qed.

Lemma EncodePitchLag_transmits lags gains st enc lags' st' enc' :
  WebRtcIsacfix_EncodePitchLag lags gains st enc = Some (lags', 0, st', enc') ->
  transmits no_error st st' (WebRtcIsacfix_DecodePitchLag gains) lags'.
Proof.
  unfold WebRtcIsacfix_EncodePitchLag. cbn zeta. pose proof (DecodePitchLag_transmits gains) as HD. cbn zeta in HD.
  destruct (lag_indices (voicing (mean_gain gains)) lags (voicing_ok _)) as (x0 & x1 & x2 & x3 & Ex & R0 & R1 & R2 & R3).
  specialize (fun l st st' => HD x0 x1 x2 x3 l st st' R0 R1 R2 R3). rewrite Ex. revert HD.
  generalize (mean_gain gains) as m, WebRtcIsacfix_EncHistMulti as hist, lags_of as lo, voicing as vc.
  generalize (WebRtcIsacfix_DecodePitchLag gains) as dec. intros dec m hist lo vc HD.
  destruct (save _ enc) as [enc1|]; [|done]. cbn [mbind option_bind].
  destruct (save _ enc1) as [enc2|]; [|done]. cbn [mbind option_bind].
  destruct (lo _ _) as [l|] eqn:El; [|done]. cbn [mbind option_bind].
  destruct (hist st _ _) as [[r st1]|] eqn:Eh; [|done]. cbn [mbind option_bind].
  intros [= <- -> <- <-]. by apply HD.
Qed.

(** ** Saved parameters *)

(** The record as declared, for the first or the second half of a packet. *)
Record saved_ok (s : IsacSaveEncoderData) : Prop := mkSavedOk {
  so_start : startIdx s = 0 \/ startIdx s = 1;
  so_gain : length (pitchGain_index s) = 2%nat;
  so_mean : length (meanGain s) = 2%nat;
  so_lag : length (pitchIndex s) = 8%nat;
  so_lpc_g : length (LPCcoeffs_g s) = 24%nat;
  so_ind_s : length (LPCindex_s s) = 216%nat;
  so_ind_g : length (LPCindex_g s) = 24%nat;
  so_fre : length (fre s) = 480%nat;
  so_fim : length (fim s) = 480%nat;
  so_apg : length (AvgPitchGain s) = 2%nat
}.

(** Splits [saved_ok] of a record with assigned members. *)
Ltac saved_fields := constructor;
  cbn [set_pitchGain_index set_meanGain set_pitchIndex startIdx pitchGain_index meanGain pitchIndex LPCcoeffs_g
       LPCindex_s LPCindex_g fre fim AvgPitchGain]; rewrite ?length_upd.

(** Storing into the half of an array that belongs to the frame. *)
Lemma wr_all_Some src : forall dst at_, 0 <= at_ -> at_ + Z.of_nat (length src) <= Z.of_nat (length dst) ->
  exists dst', wr_all dst at_ src = Some dst' /\ length dst' = length dst /\
    (forall i, 0 <= i < Z.of_nat (length src) -> arr dst' (at_ + i) = arr src i) /\
    (forall i, 0 <= i -> (i < at_ \/ at_ + Z.of_nat (length src) <= i) -> arr dst' i = arr dst i).
Proof.
  induction src as [|v src IH]; intros dst a Ha Hl; cbn [wr_all length] in *.
  { exists dst. split; [done|]. split; [done|]. split; [intros i Hi; lia|done]. }
  rewrite wr_Some by lia. bind_simpl.
  destruct (IH (upd dst a v) (a + 1)) as (d' & -> & Hlen & Hin & Hout); [lia|rewrite length_upd; lia|].
  rewrite length_upd in Hlen. exists d'. split; [done|]. split; [done|]. split.
  - intros i Hi. destruct (Z.eq_dec i 0) as [->|Hne].
    + rewrite Z.add_0_r, Hout by lia. rewrite arr_upd_eq by lia. done.
    + replace (a + i) with (a + 1 + (i - 1)) by lia. rewrite Hin by lia.
      unfold arr. replace (Z.to_nat i) with (S (Z.to_nat (i - 1))) by lia. done.
  - intros i Hi Hc. rewrite Hout by lia. apply arr_upd_ne; lia.
Qed.

Lemma EncodePitchGain_total gains st V W n s : enc_inv st V W n -> saved_ok s ->
  exists gains' r st1 s1, WebRtcIsacfix_EncodePitchGain gains st (Some s) = Some (gains', r, st1, Some s1) /\
     saved_ok s1 /\ gains_of (gain_comb gains) = Some gains' /\
     (r = 0 /\ arr (pitchGain_index s1) (startIdx s) = gain_comb gains /\
        arr (pitchGain_index s1) (1 - startIdx s) = arr (pitchGain_index s) (1 - startIdx s) \/
      r = - ISAC_DISALLOWED_BITSTREAM_LENGTH /\ s1 = s).
Proof.
  intros Hi Hs. unfold WebRtcIsacfix_EncodePitchGain. pose proof (gain_comb_range gains) as Hr. cbn zeta.
  generalize dependent (gain_comb gains). intros x Hx. destruct (gains_of_Some x Hx) as [g Eg]. rewrite Eg. bind_simpl.
  destruct (EncHistMulti_spec st V W n _ _ Hi (chunk_ok_syms _ (gain_chunk_ok x Hx))) as (r & st1 & E1 & Hcase).
  cbn [one_chunk ck_data ck_cdf] in E1. rewrite E1. bind_simpl. exists g, r, st1.
  destruct Hcase as [(-> & _)|(-> & _)]; [|exists s; auto 6]. destruct Hs. cbn [Z.ltb Z.compare].
  unfold save. rewrite wr_Some by lia. bind_simpl. eexists. split; [done|]. split; [|split; [done|left; split; [done|] ] ].
  - by saved_fields.
  - cbn [set_pitchGain_index pitchGain_index]. rewrite arr_upd_eq, arr_upd_ne by lia. done.
Qed.

Lemma EncodePitchLag_total lags gains st V W n s : enc_inv st V W n -> saved_ok s ->
  exists lags' r st1 s1, WebRtcIsacfix_EncodePitchLag lags gains st (Some s) = Some (lags', r, st1, Some s1) /\
     saved_ok s1 /\ (r = 0 \/ r = - ISAC_DISALLOWED_BITSTREAM_LENGTH) /\
     arr (meanGain s1) (startIdx s) = mean_gain gains /\
     forall k, 0 <= k < 4 ->
       let c := voicing (mean_gain gains) in
       0 <= arr (pitchIndex s1) (4 * startIdx s + k) < lag_count c k /\
       arr (pitchIndex s1) (4 * startIdx s + k) = lag_index c lags k /\
       arr (pitchIndex s1) (4 * (1 - startIdx s) + k) = arr (pitchIndex s) (4 * (1 - startIdx s) + k).
Proof.
  intros Hi Hs. unfold WebRtcIsacfix_EncodePitchLag. cbn zeta. pose proof (voicing_ok (mean_gain gains)) as Hv.
  generalize dependent (mean_gain gains). intros m Hv. generalize dependent (voicing m). intros c Hv.
  pose proof (class_indices c lags Hv) as Hr. destruct Hs.
  cbn [save]. rewrite wr_Some by lia. bind_simpl.
  assert (forall k, 0 <= k < 4 -> arr (map (lag_index c lags) (seqZ 0 4)) k = lag_index c lags k) as Hx
    by (intros; by apply arr_map_seqZ).
  destruct (lag_indices c lags Hv) as (x0 & x1 & x2 & x3 & Ex & R0 & R1 & R2 & R3). rewrite Ex in *.
  destruct (lag_index_ok c x0 x1 x2 x3 Hv R0 R1 R2 R3) as ((l & El) & Hok & Ec & Ei).
  assert (length [x0; x1; x2; x3] = 4%nat) as Hl4 by done. generalize dependent [x0; x1; x2; x3].
  intros index Hx _ El Hok Ec Ei Hl4. cbn [save set_meanGain pitchIndex startIdx].
  unfold PITCH_SUBFRAMES.
  destruct (wr_all_Some index (pitchIndex s) (4 * startIdx s)) as (d & -> & Hld & Hin & Hout);
    [lia|lia|]. bind_simpl. rewrite El. bind_simpl. rewrite Hl4 in *.
  destruct (intervals_concat _ Hok) as [Hsym _]. rewrite Ec, Ei in Hsym.
  destruct (EncHistMulti_spec st V W n _ _ Hi Hsym) as (r & st1 & -> & Hcase). bind_simpl.
  exists l, r, st1. eexists. split; [done|]. split; [|split; [destruct Hcase as [(-> & _)|(-> & _)]; auto|split] ].
  - by saved_fields; rewrite ?Hld.
  - cbn [set_pitchIndex set_meanGain meanGain]. by rewrite arr_upd_eq by lia.
  - intros k Hk. cbn [set_pitchIndex pitchIndex]. rewrite Hin, Hout by lia. specialize (Hr k Hk).
    by rewrite Hx.
Qed.

(** C15: The encoders of the pitch parameters never leave their tables or the
    record that keeps the parameters: for any gains and lags and every stream
    position they return, with status 0 or the error of a full stream.  The
    gains continue as the table entry of the combined index, which is stored
    only when it was coded; the mean gain and the four lag indices, each within
    the limits of the voicing class, are stored in any case, in the half of the
    record that belongs to the frame, and the other half is left alone. *)
Theorem pitch_encoders_total gains lags st V W n s : enc_inv st V W n -> saved_ok s ->
  (exists gains' r st1 s1, WebRtcIsacfix_EncodePitchGain gains st (Some s) = Some (gains', r, st1, Some s1) /\
     saved_ok s1 /\ gains_of (gain_comb gains) = Some gains' /\
     (r = 0 /\ arr (pitchGain_index s1) (startIdx s) = gain_comb gains /\
        arr (pitchGain_index s1) (1 - startIdx s) = arr (pitchGain_index s) (1 - startIdx s) \/
      r = - ISAC_DISALLOWED_BITSTREAM_LENGTH /\ s1 = s)) /\
  exists lags' r st1 s1, WebRtcIsacfix_EncodePitchLag lags gains st (Some s) = Some (lags', r, st1, Some s1) /\
     saved_ok s1 /\ (r = 0 \/ r = - ISAC_DISALLOWED_BITSTREAM_LENGTH) /\
     arr (meanGain s1) (startIdx s) = mean_gain gains /\
     forall k, 0 <= k < 4 ->
       let c := voicing (mean_gain gains) in
       0 <= arr (pitchIndex s1) (4 * startIdx s + k) < lag_count c k /\
       arr (pitchIndex s1) (4 * startIdx s + k) = lag_index c lags k /\
       arr (pitchIndex s1) (4 * (1 - startIdx s) + k) = arr (pitchIndex s) (4 * (1 - startIdx s) + k).
Proof.
  intros Hi Hs. split; [exact (EncodePitchGain_total gains st V W n s Hi Hs)|
                        exact (EncodePitchLag_total lags gains st V W n s Hi Hs)].
Qed.

(** A fresh record, for the witnesses. *)
Definition ex_saved (half : Z) : IsacSaveEncoderData := mkSaveEncoderData half 480 [7; 7] [0; 0] (replicate 8 0)
  (replicate 24 0) (replicate 216 0) (replicate 24 0) (replicate 480 0) (replicate 480 0) [0; 0] 0.

Lemma ex_saved_ok half : half = 0 \/ half = 1 -> saved_ok (ex_saved half).
Proof. intros H. by constructor. Qed.

Lemma pitch_encoders_total_witness :
  exists gains' r st1 s1, WebRtcIsacfix_EncodePitchGain [1000; 1100; 1200; 900] (enc_reset (replicate 200 0))
      (Some (ex_saved 1)) = Some (gains', r, st1, Some s1) /\ arr (pitchGain_index s1) 0 = 7.
Proof.
  destruct (pitch_encoders_total [1000; 1100; 1200; 900] [6000; 6100; 6000; 5900] (enc_reset (replicate 200 0)) 0
    (2 ^ 32 - 1) 0 (ex_saved 1)) as [(gains' & r & st1 & s1 & E & _ & _ & H) _].
  - apply enc_reset_inv; [apply Forall_replicate; unfold is_u16; lia|reflexivity].
  - apply ex_saved_ok. auto.
  - exists gains', r, st1, s1. split; [exact E|]. destruct H as [(_ & _ & H)|(_ & ->)]; [exact H|reflexivity].
Defined.

(** Errors of the side information.  A frame length other than 480 and 960
    samples is refused and nothing is written.  A packet that starts with the
    unused frame mode 0 makes the decoder report the frame mode, and on a
    stream whose interval is empty each decoder reports its own error code. *)
Theorem side_information_errors :
  (forall framesamples st, framesamples <> 480 -> framesamples <> 960 ->
     WebRtcIsacfix_EncodeFrameLen framesamples st = Some (- ISAC_DISALLOWED_FRAME_MODE_ENCODER, st)) /\
  (forall st stream len st' ds size, Forall is_u16 stream -> length stream = Z.to_nat STREAM_MAXW16_60MS ->
     WebRtcIsacfix_EncHistMulti (enc_reset stream) [0] kFrameLenCdfPtr = Some (0, st) ->
     WebRtcIsacfix_EncTerminate st = Some (len, st') ->
     Forall is_u16 ds -> length ds = Z.to_nat INTERNAL_STREAM_SIZE_W16 -> zero_from ds size ->
     (forall i, (i < Z.to_nat len)%nat -> byteat ds i = byteat (e_stream st') i) ->
     exists dst, WebRtcIsacfix_DecodeFrameLen (dec_reset ds size) = Some (0, - ISAC_DISALLOWED_FRAME_MODE_DECODER, dst)) /\
  (forall st gains, d_W_upper st = 0 ->
     WebRtcIsacfix_DecodeFrameLen st = Some (0, - ISAC_RANGE_ERROR_DECODE_FRAME_LENGTH, st) /\
     WebRtcIsacfix_DecodeSendBandwidth st = Some (0, - ISAC_RANGE_ERROR_DECODE_BANDWIDTH, st) /\
     WebRtcIsacfix_DecodePitchGain st = Some ([], - ISAC_RANGE_ERROR_DECODE_PITCH_GAIN, st) /\
     WebRtcIsacfix_DecodePitchLag gains st = Some ([], - ISAC_RANGE_ERROR_DECODE_PITCH_LAG, st)).
Proof.
  split; [|split].
  - intros f st H1 H2. unfold WebRtcIsacfix_EncodeFrameLen.
    by rewrite (proj2 (Z.eqb_neq f 480)), (proj2 (Z.eqb_neq f 960)).
  - intros st stream len st' ds size Hs Hl Eh Et Hds Hld Hz Hag.
    apply (hist_transmits _ (one_chunk 0 kFrameLenCdfPtr (OneStep kFrameLenInitIndex))) in Eh;
      [|constructor; [by apply coded_onestep with 3|constructor] ].
    destruct (transmits_packet _ _ _ _ _ len st' ds size Eh Hs Hl Et Hds Hld Hz Hag)
      as (n & W & ret & dst & E & Hq & _). unfold stream_length in Hq. exists dst.
    change (WebRtcIsacfix_DecHistOneStepMulti (dec_reset ds size) kFrameLenCdfPtr kFrameLenInitIndex 1
      = Some ([0], ret, dst)) in E. unfold WebRtcIsacfix_DecodeFrameLen. rewrite E. bind_simpl.
    by rewrite (proj2 (Z.ltb_ge ret 0)) by lia.
  - intros st gains H. unfold WebRtcIsacfix_DecodeFrameLen, WebRtcIsacfix_DecodeSendBandwidth,
      WebRtcIsacfix_DecodePitchGain, WebRtcIsacfix_DecodePitchLag.
    unfold WebRtcIsacfix_DecHistOneStepMulti, WebRtcIsacfix_DecHistBisectMulti. by rewrite H.
Qed.

Definition ex_mode0 : Bitstr_enc := Eval vm_compute in
  default (enc_reset []) (snd <$> WebRtcIsacfix_EncHistMulti (enc_reset (replicate 200 0)) [0] kFrameLenCdfPtr).
Definition ex_mode0_end : Z * Bitstr_enc := Eval vm_compute in default (0, ex_mode0) (WebRtcIsacfix_EncTerminate ex_mode0).
Definition ex_mode0_packet : list Z := Eval vm_compute in e_stream ex_mode0_end.2 ++ replicate 105 0.

Lemma side_information_errors_witness :
  exists dst, WebRtcIsacfix_DecodeFrameLen (dec_reset ex_mode0_packet 200)
    = Some (0, - ISAC_DISALLOWED_FRAME_MODE_DECODER, dst).
Proof.
  apply (proj1 (proj2 side_information_errors) ex_mode0 (replicate 200 0) ex_mode0_end.1 ex_mode0_end.2).
  - apply Forall_replicate. unfold is_u16. lia.
  - reflexivity.
  - vm_compute. reflexivity.
  - vm_compute. reflexivity.
  - apply (bool_decide_unpack (Forall is_u16 ex_mode0_packet)). vm_compute. exact I.
  - vm_compute. reflexivity.
  - apply (zero_from_tail (take 200 ex_mode0_packet) 105). vm_compute. discriminate.
  - apply bytes_agree. vm_compute. reflexivity.
Defined.
