(* ===== verification/IsacLar.v ===== *)
(** Log-area ratios of the iSAC prediction filters ([Rc2LarFix], [Lar2RcFix],
    [Poly2LarFix], [Lar2polyFix] of [IS/entropy_coding.c]): piecewise linear
    conversions from and to reflection coefficients, and the order in which the
    ratios of a frame are stored.  The two directions undo each other up to 8
    units in Q15, and beyond a largest ratio the result wraps. *)
From S2P Require Import Prelude SplInl SplLpc.

(** ** settings.h *)
Definition SUBFRAMES : Z := 6.
Definition ORDERLO : Z := 12.
Definition ORDERHI : Z := 6.
Definition LPC_SHAPE_ORDER : Z := 18.

(** One coefficient of [Rc2LarFix] and of [Lar2RcFix]. *)
Definition rc2lar (rcQ15 : Z) : Z :=
  let rc := i16 (WEBRTC_SPL_ABS_W16 rcQ15) in
  let larAbsQ17 :=
    if rc <? 24956 then i32 (rc * 21512) ≫ 11
    else if rc <? 30000 then i32 (-465024 + (i32 (rc * 29837) ≫ 10))
    else if rc <? 32500 then i32 (-3324784 + (i32 (rc * 31863) ≫ 8))
    else i32 (-88546020 + (i32 (rc * 21973) ≫ 3)) in
  if 0 <? rcQ15 then larAbsQ17 else i32 (- larAbsQ17).

Definition lar2rc (larQ17 : Z) : Z :=
  let larAbsQ11 := i16 (WEBRTC_SPL_ABS_W32 (i32 (larQ17 + 32) ≫ 6)) in
  let rc :=
    if larAbsQ11 <? 4097 then i32 (larAbsQ11 * 24957) ≫ 12
    else if larAbsQ11 <? 6393 then i32 (i32 (larAbsQ11 * 17993) + 130738688) ≫ 13
    else if larAbsQ11 <? 11255 then i32 (i32 (larAbsQ11 * 16850) + 875329820) ≫ 15
    else i32 ((i32 (larAbsQ11 * 24433) ≫ 16) + 515804) ≫ 4 in
  i16 (if larQ17 <=? 0 then i32 (- rc) else rc).

Definition Rc2LarFix (rcQ15 : list Z) : list Z := map rc2lar rcQ15.
Definition Lar2RcFix (larQ17 : list Z) : list Z := map lar2rc larQ17.

(** [n] cells from position [i]. *)
Definition cells (l : list Z) (i n : Z) : list Z := take (Z.to_nat n) (drop (Z.to_nat i) l).

Definition Poly2LarFix (lowbandQ15 : list Z) (orderLo : Z) (hibandQ15 : list Z) (orderHi Nsub : Z) : list Z :=
  concat (map (fun k => Rc2LarFix (cells lowbandQ15 (k * orderLo) orderLo) ++
                        Rc2LarFix (cells hibandQ15 (k * orderHi) orderHi)) (seqZ 0 Nsub)).

Definition Lar2polyFix (larsQ17 : list Z) (orderLo orderHi Nsub : Z) : list Z * list Z :=
  let orderTot := orderLo + orderHi in
  (concat (map (fun k => Lar2RcFix (cells larsQ17 (k * orderTot) orderLo)) (seqZ 0 Nsub)),
   concat (map (fun k => Lar2RcFix (cells larsQ17 (k * orderTot + orderLo) orderHi)) (seqZ 0 Nsub))).

(** ** Log-area ratios *)

(** The two conversions on magnitudes, without the conversions to 16 and 32
    bits. *)
Definition lar_abs (rc : Z) : Z :=
  if rc <? 24956 then rc * 21512 / 2048
  else if rc <? 30000 then -465024 + rc * 29837 / 1024
  else if rc <? 32500 then -3324784 + rc * 31863 / 256
  else -88546020 + rc * 21973 / 8.

Definition rc_abs (lar : Z) : Z :=
  if lar <? 4097 then lar * 24957 / 4096
  else if lar <? 6393 then (lar * 17993 + 130738688) / 8192
  else if lar <? 11255 then (lar * 16850 + 875329820) / 32768
  else (lar * 24433 / 65536 + 515804) / 16.

Lemma rc2lar_eq rc : -32767 <= rc <= 32767 -> rc2lar rc = if 0 <? rc then lar_abs rc else - lar_abs (- rc).
Proof.
  intros H. unfold rc2lar, WEBRTC_SPL_ABS_W16. rewrite (i16_id rc) by (unfold is_i16; lia).
  assert (i16 (if 0 <=? rc then rc else - rc) = Z.abs rc) as -> by (destruct (Z.leb_spec 0 rc); cint).
  assert (0 <= Z.abs rc <= 32767) as Ha by lia.
  replace (if 0 <? rc then lar_abs rc else - lar_abs (- rc)) with (if 0 <? rc then lar_abs (Z.abs rc) else - lar_abs (Z.abs rc))
    by (destruct (Z.ltb_spec 0 rc); [by rewrite Z.abs_eq by lia|by rewrite Z.abs_neq by lia]).
  generalize dependent (Z.abs rc). intros a Ha. unfold lar_abs. rewrite !shiftr_div by lia.
  rewrite !(i32_id (a * _)) by (unfold is_i32; lia).
  change (2 ^ 11) with 2048. change (2 ^ 10) with 1024. change (2 ^ 8) with 256. change (2 ^ 3) with 8.
  destruct (a <? 24956); [|destruct (a <? 30000); [|destruct (a <? 32500)] ]; destruct (0 <? rc); cint.
Qed.

Lemma rc_abs_eq a : 0 <= a <= 22756 ->
  (if a <? 4097 then i32 (a * 24957) ≫ 12
   else if a <? 6393 then i32 (i32 (a * 17993) + 130738688) ≫ 13
   else if a <? 11255 then i32 (i32 (a * 16850) + 875329820) ≫ 15
   else i32 ((i32 (a * 24433) ≫ 16) + 515804) ≫ 4) = rc_abs a.
Proof.
  intros H. unfold rc_abs. rewrite !(i32_id (a * _)) by (unfold is_i32; lia).
  rewrite !(i32_id (a * _ + _)) by (unfold is_i32; lia). rewrite !shiftr_div by lia.
  rewrite (i32_id (_ / _ + _)) by (unfold is_i32; Z.div_mod_to_equations; lia). done.
Qed.

Lemma rc_abs_range a : 0 <= a <= 22756 -> 0 <= rc_abs a <= 32767.
Proof.
  intros H. unfold rc_abs. destruct (Z.ltb_spec a 4097); [|destruct (Z.ltb_spec a 6393); [|destruct (Z.ltb_spec a 11255)] ];
    Z.div_mod_to_equations; lia.
Qed.

Lemma rc_abs_mono a b : 0 <= a <= b -> b <= 22756 -> rc_abs a <= rc_abs b.
Proof.
  intros H Hb. unfold rc_abs.
  destruct (Z.ltb_spec a 4097); [|destruct (Z.ltb_spec a 6393); [|destruct (Z.ltb_spec a 11255)] ];
  (destruct (Z.ltb_spec b 4097); [|destruct (Z.ltb_spec b 6393); [|destruct (Z.ltb_spec b 11255)] ]);
    Z.div_mod_to_equations; lia.
Qed.

(** The largest ratio that is converted without wrapping. *)
Definition lar_limit : Z := 22756 * 64.

Lemma lar2rc_eq lar : - lar_limit <= lar <= lar_limit ->
  lar2rc lar = if lar <=? 0 then - rc_abs (- ((lar + 32) / 64)) else rc_abs ((lar + 32) / 64).
Proof.
  unfold lar_limit. intros H. unfold lar2rc, WEBRTC_SPL_ABS_W32. rewrite (shiftr_div _ 6) by lia.
  rewrite (i32_id (lar + 32)) by (unfold is_i32; lia). change (2 ^ 6) with 64.
  rewrite !(i32_id ((lar + 32) / 64)) by (unfold is_i32; Z.div_mod_to_equations; lia).
  assert (i16 (if 0 <=? (lar + 32) / 64 then (lar + 32) / 64 else i32 (- ((lar + 32) / 64))) = Z.abs ((lar + 32) / 64)) as ->
    by (destruct (Z.leb_spec 0 ((lar + 32) / 64)); cint).
  assert (0 <= Z.abs ((lar + 32) / 64) <= 22756) as Ha by (Z.div_mod_to_equations; lia). rewrite rc_abs_eq by done.
  pose proof (rc_abs_range _ Ha) as Hr. destruct (Z.leb_spec lar 0).
  - rewrite Z.abs_neq in * by (Z.div_mod_to_equations; lia). rewrite i16_id; cint.
  - rewrite Z.abs_eq in * by (Z.div_mod_to_equations; lia). rewrite i16_id; cint.
Qed.

Lemma lar_abs_range rc : 0 <= rc <= 32767 -> 0 <= lar_abs rc <= lar_limit.
Proof.
  intros H. unfold lar_abs, lar_limit.
  destruct (Z.ltb_spec rc 24956); [|destruct (Z.ltb_spec rc 30000); [|destruct (Z.ltb_spec rc 32500)] ];
    Z.div_mod_to_equations; lia.
Qed.

Lemma rc_lar_close rc : 0 <= rc <= 32767 ->
  -8 <= rc_abs ((lar_abs rc + 32) / 64) - rc <= 8 /\ -8 <= rc_abs (- ((- lar_abs rc + 32) / 64)) - rc <= 8.
Proof.
  intros H. unfold lar_abs, rc_abs.
  destruct (Z.ltb_spec rc 24956); [|destruct (Z.ltb_spec rc 30000); [|destruct (Z.ltb_spec rc 32500)] ];
  repeat match goal with |- context [?a <? ?b] => destruct (Z.ltb_spec a b) end; Z.div_mod_to_equations; lia.
Qed.

(** Blocks of [t] cells. *)
Lemma cells_block (f : Z -> list Z) (t : nat) n : forall a k,
  (forall k, a <= k < a + Z.of_nat n -> length (f k) = t) -> (k < n)%nat ->
  take t (drop (k * t) (concat (map f (seqZ a (Z.of_nat n))))) = f (a + Z.of_nat k).
Proof.
  induction n as [|n IH]; intros a k Hf Hk; [lia|].
  rewrite seqZ_cons by lia. cbn [map concat]. pose proof (Hf a ltac:(lia)) as Ha. destruct k as [|k].
  - rewrite Nat.mul_0_l, drop_0, Z.add_0_r, take_app_le by lia. by rewrite take_ge by lia.
  - rewrite drop_app_ge by (rewrite Ha; lia). replace (S k * t - length (f a))%nat with (k * t)%nat by lia.
    replace (Z.pred (Z.of_nat (S n))) with (Z.of_nat n) by lia.
    rewrite IH; [f_equal; lia|intros j Hj; apply Hf; lia|lia].
Qed.

Lemma concat_cells (l : list Z) (t : nat) n : forall a, (length l = (a + n) * t)%nat ->
  concat (map (fun k => cells l (k * Z.of_nat t) (Z.of_nat t)) (seqZ (Z.of_nat a) (Z.of_nat n))) = drop (a * t) l.
Proof.
  induction n as [|n IH]; intros a Hl.
  - symmetry. apply nil_length_inv. rewrite length_drop. lia.
  - rewrite seqZ_cons by lia. cbn [map concat]. replace (Z.succ (Z.of_nat a)) with (Z.of_nat (S a)) by lia.
    replace (Z.pred (Z.of_nat (S n))) with (Z.of_nat n) by lia. rewrite IH by lia. unfold cells.
    rewrite Nat2Z.id. replace (Z.to_nat (Z.of_nat a * Z.of_nat t)) with (a * t)%nat by lia.
    rewrite <- (take_drop t (drop (a * t) l)) at 2. f_equal. rewrite drop_drop. f_equal. lia.
Qed.

Lemma length_cells l i n : 0 <= i -> 0 <= n -> i + n <= Z.of_nat (length l) -> length (cells l i n) = Z.to_nat n.
Proof. intros. unfold cells. rewrite length_take, length_drop. lia. Qed.

Lemma blocks_map (g : Z -> Z) l (t n : nat) (h : Z -> list Z) : (length l = n * t)%nat ->
  (forall k, 0 <= k < Z.of_nat n -> h k = map g (cells l (k * Z.of_nat t) (Z.of_nat t))) ->
  concat (map h (seqZ 0 (Z.of_nat n))) = map g l.
Proof.
  intros Hl Hh. rewrite (map_ext_in h (fun k => map g (cells l (k * Z.of_nat t) (Z.of_nat t))))
    by (intros k Hk%list_elem_of_In%elem_of_seqZ; apply Hh; lia).
  rewrite <- (map_map _ (map g)), <- concat_map. f_equal. by apply (concat_cells l t n 0).
Qed.

(** The two conversions of a frame. *)
Lemma Lar2poly_Poly2Lar lo hi : length lo = 72%nat -> length hi = 36%nat ->
  Lar2polyFix (Poly2LarFix lo ORDERLO hi ORDERHI SUBFRAMES) ORDERLO ORDERHI SUBFRAMES
  = (Lar2RcFix (Rc2LarFix lo), Lar2RcFix (Rc2LarFix hi)).
Proof.
  intros Hlo Hhi. unfold Lar2polyFix. cbn zeta.
  set (f := fun k => Rc2LarFix (cells lo (k * 12) 12) ++ Rc2LarFix (cells hi (k * 6) 6)).
  assert (forall k, 0 <= k < 6 -> length (Rc2LarFix (cells lo (k * 12) 12)) = 12%nat /\
    length (Rc2LarFix (cells hi (k * 6) 6)) = 6%nat) as Hlen.
  { intros k Hk. unfold Rc2LarFix. rewrite !length_map, !length_cells by lia. done. }
  assert (forall k, 0 <= k < 6 -> take 18 (drop (Z.to_nat (k * 18)) (concat (map f (seqZ 0 6)))) = f k) as Hb.
  { intros k Hk. pose proof (cells_block f 18 6 0 (Z.to_nat k)) as E. change (Z.of_nat 6) with 6 in E.
    replace (Z.to_nat (k * 18)) with (Z.to_nat k * 18)%nat by lia. rewrite E; [f_equal; lia|intros j Hj|lia].
    unfold f. rewrite length_app. destruct (Hlen j ltac:(lia)) as [-> ->]. done. }
  change (Poly2LarFix lo ORDERLO hi ORDERHI SUBFRAMES) with (concat (map f (seqZ 0 6))).
  unfold ORDERLO, ORDERHI, SUBFRAMES. change (12 + 6) with 18. generalize dependent (concat (map f (seqZ 0 6))).
  intros L Hb. unfold Lar2RcFix, Rc2LarFix in *. rewrite !map_map. f_equal.
  - apply (blocks_map _ lo 12 6); [done|]. intros k Hk. destruct (Hlen k Hk) as [Ha _]. rewrite <- (map_map rc2lar lar2rc). f_equal.
    unfold cells at 1. change (Z.to_nat 12) with (Nat.min 12 18). rewrite <- take_take, Hb by done. unfold f.
    rewrite take_app_le by lia. by rewrite take_ge by lia.
  - apply (blocks_map _ hi 6 6); [done|]. intros k Hk. destruct (Hlen k Hk) as [Ha Hc]. rewrite <- (map_map rc2lar lar2rc). f_equal.
    unfold cells at 1. replace (Z.to_nat (k * 18 + 12)) with (Z.to_nat (k * 18) + 12)%nat by lia.
    change (Z.to_nat 6) with (18 - 12)%nat. rewrite <- drop_drop, <- skipn_firstn_comm, Hb by done. unfold f.
    rewrite drop_app_ge by lia. by rewrite Ha, Nat.sub_diag, drop_0.
Qed.

Lemma lar_rc_close rc : -32767 <= rc <= 32767 -> -8 <= lar2rc (rc2lar rc) - rc <= 8.
Proof.
  intros H. rewrite rc2lar_eq by done. destruct (Z.ltb_spec 0 rc).
  - pose proof (lar_abs_range rc ltac:(lia)). destruct (rc_lar_close rc) as [Hc _]; [lia|].
    assert (lar_abs rc > 0) by (unfold lar_abs; destruct (Z.ltb_spec rc 24956); [|destruct (Z.ltb_spec rc 30000);
      [|destruct (Z.ltb_spec rc 32500)] ]; Z.div_mod_to_equations; lia).
    rewrite lar2rc_eq by (unfold lar_limit in *; lia). by rewrite (proj2 (Z.leb_gt (lar_abs rc) 0)) by lia.
  - pose proof (lar_abs_range (- rc) ltac:(lia)). destruct (rc_lar_close (- rc)) as [_ Hc]; [lia|].
    rewrite lar2rc_eq by (unfold lar_limit in *; lia). rewrite (proj2 (Z.leb_le (- lar_abs (- rc)) 0)) by lia. lia.
Qed.

(** A pair of lists that differ by at most [d] in every position. *)
Definition within (d : Z) (l l' : list Z) : Prop := Forall2 (fun x y => - d <= y - x <= d) l l'.

Lemma within_conversion l : Forall (fun rc => -32767 <= rc <= 32767) l -> within 8 l (Lar2RcFix (Rc2LarFix l)).
Proof. induction 1 as [|rc l H _ IH]; [constructor|]. constructor; [by apply lar_rc_close|done]. Qed.

(** The log-area ratios.  Converting the reflection coefficients of a frame
    to ratios and back returns every coefficient of both bands in its place,
    changed by at most 8 (in Q15).  On ratios up to [lar_limit] the inverse
    conversion is nondecreasing and yields coefficients of magnitude below one;
    the next ratio wraps to -32768, and the coefficient -32768, whose magnitude
    has no 16-bit value, comes back with the wrong sign. *)
Theorem lar_conversion lo hi a b :
  (length lo = 72%nat -> length hi = 36%nat ->
   Forall (fun rc => -32767 <= rc <= 32767) lo -> Forall (fun rc => -32767 <= rc <= 32767) hi ->
   let '(lo', hi') := Lar2polyFix (Poly2LarFix lo ORDERLO hi ORDERHI SUBFRAMES) ORDERLO ORDERHI SUBFRAMES in
   within 8 lo lo' /\ within 8 hi hi') /\
  (- lar_limit <= a <= b -> b <= lar_limit -> -32767 <= lar2rc a <= lar2rc b /\ lar2rc b <= 32767) /\
  lar2rc (lar_limit + 64) = -32768 /\ lar2rc (rc2lar (-32768)) = 27771.
Proof.
  split; [|split; [|split; vm_compute; reflexivity] ].
  - intros Hlo Hhi Rlo Rhi. rewrite Lar2poly_Poly2Lar by done. split; by apply within_conversion.
  - intros Ha Hb. unfold lar_limit in *. rewrite !lar2rc_eq by (unfold lar_limit; lia).
    destruct (Z.leb_spec a 0), (Z.leb_spec b 0).
    + pose proof (rc_abs_mono (- ((b + 32) / 64)) (- ((a + 32) / 64))). pose proof (rc_abs_range (- ((a + 32) / 64))).
      pose proof (rc_abs_range (- ((b + 32) / 64))). Z.div_mod_to_equations; lia.
    + pose proof (rc_abs_range (- ((a + 32) / 64))). pose proof (rc_abs_range ((b + 32) / 64)). Z.div_mod_to_equations; lia.
    + lia.
    + pose proof (rc_abs_mono ((a + 32) / 64) ((b + 32) / 64)). pose proof (rc_abs_range ((a + 32) / 64)).
      pose proof (rc_abs_range ((b + 32) / 64)). Z.div_mod_to_equations; lia.
Qed.

Lemma lar_conversion_witness :
  within 8 (replicate 72 20000) (fst (Lar2polyFix (Poly2LarFix (replicate 72 20000) ORDERLO
    (replicate 36 (-30001)) ORDERHI SUBFRAMES) ORDERLO ORDERHI SUBFRAMES)) /\ -32767 <= lar2rc (-131072) <= lar2rc 131072.
Proof.
  destruct (lar_conversion (replicate 72 20000) (replicate 36 (-30001)) (-131072) 131072) as (H1 & H2 & _).
  split.
  - destruct H1 as [H1 _]; [reflexivity|reflexivity|apply Forall_replicate; lia|apply Forall_replicate; lia|].
    exact H1.
  - apply H2; unfold lar_limit; lia.
Defined.
