(* ===== verification/IsacLpc.v ===== *)
(** Coding of the linear-prediction parameters of iSAC
    ([WebRtcIsacfix_EncodeLpc], [WebRtcIsacfix_DecodeLpc] and the functions they
    call, [IS/entropy_coding.c]).

    Reflection coefficients become log-area ratios, the ratios and the logarithms
    of the gains are transformed (KLT), quantised and coded; the decoder looks the
    levels up and inverts the transform.  The matrix products are the portable C
    variants.  Shown: the log-area conversion and its inverse agree, the
    quantisers never leave their tables, and the indices the decoder reads are
    the ones the encoder has chosen, so that its parameters are the function
    [lpc_of_indices] of those. *)
From S2P Require Import Prelude SplInl SplMath SplLpc IsacArith IsacStream IsacEncoder IsacDecoder IsacLogistic IsacTransmit IsacSpectrum IsacTables IsacPitch IsacLar.

(** ** settings.h, structs.h *)
Definition ISAC_RANGE_ERROR_DECODE_LPC : Z := 6680.

Record transcode_obj := mkTranscode {
  lpcGains : list Z;
  t_W_upper : Z;
  t_streamval : Z;
  t_stream_index : Z;
  t_full : Z;
  beforeLastWord : Z;
  lastWord : Z
}.

Definition set_LPCcoeffs_g v s := mkSaveEncoderData (startIdx s) (framelength s) (pitchGain_index s) (meanGain s)
  (pitchIndex s) v (LPCindex_s s) (LPCindex_g s) (fre s) (fim s) (AvgPitchGain s) (minBytes s).
Definition set_LPCindex_s v s := mkSaveEncoderData (startIdx s) (framelength s) (pitchGain_index s) (meanGain s)
  (pitchIndex s) (LPCcoeffs_g s) v (LPCindex_g s) (fre s) (fim s) (AvgPitchGain s) (minBytes s).
Definition set_LPCindex_g v s := mkSaveEncoderData (startIdx s) (framelength s) (pitchGain_index s) (meanGain s)
  (pitchIndex s) (LPCcoeffs_g s) (LPCindex_s s) v (fre s) (fim s) (AvgPitchGain s) (minBytes s).

(** ** Scalar functions *)

Definition CalcLrIntQ (fixVal qDomain : Z) : Z := i32 (fixVal + (1 ≪ (qDomain - 1))) ≫ qDomain.

(** The natural logarithm in Q8 of a positive number. *)
Definition CalcLogN (arg : Z) : Z :=
  let zeros := i16 (WebRtcSpl_NormU32 (u32 arg)) in
  let frac := i16 (u32 (Z.land (i32 (arg ≪ zeros)) 0x7FFFFFFF) ≫ 23) in
  let log2 := i16 (((31 - zeros) ≪ 8) + frac) in
  let logN := i16 (i32 (log2 * 22713) ≫ 15) in
  i16 (logN + 11).

(** The exponential: Q8 to Q17. *)
Definition CalcExpN (x : Z) : Z :=
  let ax := i16 (i32 (x * 23637) ≫ 14) in
  if 0 <=? x then
    let axINT := ax ≫ 8 in
    let axFRAC := i16 (Z.land ax 0x00FF + 256) in
    let exp16 := i16 (1 ≪ axINT) in
    i32 (i32 (exp16 * axFRAC) ≪ 9)
  else
    let ax := i16 (- ax) in
    let axINT := i16 (1 + (ax ≫ 8)) in
    let axFRAC := i16 (i16 (0x00FF - Z.land ax 0x00FF) + 256) in
    let exp16 := i16 (32768 ≫ axINT) in
    i32 (exp16 * axFRAC) ≫ 6.

(** ** Matrix products *)

Definition WebRtcIsacfix_MatrixProduct1C (matrix0 matrix1 : list Z)
    (matrix1_index_factor1 matrix0_index_factor1 matrix1_index_init_case matrix1_index_step matrix0_index_step
     inner_loop_count mid_loop_count shift : Z) : list Z :=
  concat (map (fun j => map (fun k =>
    let matrix0_index_factor2 := if matrix1_index_init_case =? 0 then k else j in
    let matrix1_index_factor2 := if matrix1_index_init_case =? 0 then j else k in
    for_loop inner_loop_count (fun n sum32 =>
      let matrix0_index := matrix0_index_factor1 * matrix0_index_factor2 + n * matrix0_index_step in
      let matrix1_index := matrix1_index_factor1 * matrix1_index_factor2 + n * matrix1_index_step in
      i32 (sum32 + WEBRTC_SPL_MUL_16_32_RSFT16 (arr matrix0 matrix0_index)
                     (i32 (arr matrix1 matrix1_index * (1 ≪ shift))))) 0)
    (seqZ 0 mid_loop_count)) (seqZ 0 SUBFRAMES)).

Definition WebRtcIsacfix_MatrixProduct2C (matrix0 matrix1 : list Z) (matrix0_index_factor matrix0_index_step : Z)
  : list Z :=
  concat (map (fun j =>
    let column c := for_loop SUBFRAMES (fun n sum32 =>
      i32 (sum32 + WEBRTC_SPL_MUL_16_32_RSFT16 (arr matrix0 (matrix0_index_factor * j + n * matrix0_index_step))
                     (arr matrix1 (2 * n + c)))) 0 in
    [column 0 ≫ 3; column 1 ≫ 3]) (seqZ 0 SUBFRAMES)).

Definition row (tbl : list (list Z)) (model : Z) : list Z := nth (Z.to_nat model) tbl [].

(** ** Decoder *)

(** Stores [vals] at the positions [sel] of an array of [n] cells. *)
Definition scatter (sel vals : list Z) (n : Z) : list Z :=
  foldl (fun a '(p, v) => upd a p v) (replicate (Z.to_nat n) 0) (zip sel vals).

(** Levels of the indices of a vector: [levels[base + offset[k] + index[k]]]. *)
Fixpoint look_up (levels : list Z) (base : Z) (offset index : list Z) : option (list Z) :=
  match offset, index with
  | [], [] => Some []
  | o :: offset, i :: index =>
      l ← rd levels (base + o + i); ls ← look_up levels base offset index; Some (l :: ls)
  | _, _ => None
  end.

(** [tmpcoeffs2_sQ18]: the left transform of the shape. *)
Definition left_shape (tmpcoeffs_sQ10 T1 : list Z) : list Z :=
  concat (map (fun j => map (fun k =>
    for_loop LPC_SHAPE_ORDER (fun n sumQQ =>
      i32 (sumQQ + ((arr tmpcoeffs_sQ10 (LPC_SHAPE_ORDER * j + n) * arr T1 (LPC_SHAPE_ORDER * k + n)) ≫ 7))) 0)
    (seqZ 0 LPC_SHAPE_ORDER)) (seqZ 0 SUBFRAMES)).

(** Scaling and mean addition of the shape. *)
Definition restore_shape (means tmpcoeffs_sQ17 : list Z) : list Z :=
  map (fun poss =>
    let s := arr tmpcoeffs_sQ17 poss in
    let tmp32 := if poss mod LPC_SHAPE_ORDER <? ORDERLO then WEBRTC_SPL_MUL_16_32_RSFT16 31208 s
                 else i32 (WEBRTC_SPL_MUL_16_32_RSFT16 18204 s * (1 ≪ 3)) in
    i32 (tmp32 + arr means poss)) (seqZ 0 KLT_ORDER_SHAPE).

(** Scaling, mean addition and exponential of the gains. *)
Definition restore_gains (means tmpcoeffs_gQ17 : list Z) : list Z :=
  map (fun posg => CalcExpN (i16 (i16 (arr tmpcoeffs_gQ17 posg ≫ 11) + arr means posg))) (seqZ 0 KLT_ORDER_GAIN).

(** The ratios of the shape indices. *)
Definition shape_of_indices (model : Z) (index_s : list Z) : option (list Z) :=
  lev ← look_up WebRtcIsacfix_kLevelsShapeQ10 (arr WebRtcIsacfix_kOfLevelsShape model)
          (row WebRtcIsacfix_kOffsetShape model) index_s;
  let tmpcoeffs_sQ10 := scatter WebRtcIsacfix_kSelIndShape lev KLT_ORDER_SHAPE in
  let tmpcoeffs2_sQ18 := left_shape tmpcoeffs_sQ10 (row WebRtcIsacfix_kT1ShapeQ15 model) in
  let tmpcoeffs_sQ17 := WebRtcIsacfix_MatrixProduct1C (row WebRtcIsacfix_kT2ShapeQ15 model) tmpcoeffs2_sQ18
                          1 1 1 LPC_SHAPE_ORDER SUBFRAMES SUBFRAMES LPC_SHAPE_ORDER 0 in
  Some (restore_shape (row WebRtcIsacfix_kMeansShapeQ17 model) tmpcoeffs_sQ17).

(** The gains of the gain indices. *)
Definition gains_of_indices (model : Z) (index_g : list Z) : option (list Z) :=
  lev ← look_up WebRtcIsacfix_kLevelsGainQ17 (arr WebRtcIsacfix_kOfLevelsGain model)
          (row WebRtcIsacfix_kOffsetGain model) index_g;
  let tmpcoeffs_gQ17 := scatter WebRtcIsacfix_kSelIndGain lev KLT_ORDER_GAIN in
  let tmpcoeffs2_gQ21 := WebRtcIsacfix_MatrixProduct1C (row WebRtcIsacfix_kT1GainQ15 model) tmpcoeffs_gQ17
                           2 2 0 1 1 2 2 5 in
  let tmpcoeffs_gQ17 := WebRtcIsacfix_MatrixProduct2C (row WebRtcIsacfix_kT2GainQ15 0) tmpcoeffs2_gQ21 1 SUBFRAMES in
  Some (restore_gains (row WebRtcIsacfix_kMeansGainQ8 model) tmpcoeffs_gQ17).

(** Returns [LPCCoefQ17], [gain_lo_hiQ17] and [*outmodel]. *)
Definition WebRtcIsacfix_DecodeLpcCoef : decoder (list Z * list Z * Z) := fun streamdata =>
  '(model, err, st) ← WebRtcIsacfix_DecHistOneStepMulti streamdata WebRtcIsacfix_kModelCdfPtr
                        WebRtcIsacfix_kModelInitIndex 1;
  if err <? 0 then Some (([], [], 0), err, st)
  else
    let model := arr model 0 in
    '(index_s, err, st) ← WebRtcIsacfix_DecHistOneStepMulti st (nth (Z.to_nat model) WebRtcIsacfix_kCdfShapePtr [])
                            (row WebRtcIsacfix_kInitIndexShape model) KLT_ORDER_SHAPE;
    if err <? 0 then Some (([], [], 0), err, st)
    else
      LPCCoefQ17 ← shape_of_indices model index_s;
      '(index_g, err, st) ← WebRtcIsacfix_DecHistOneStepMulti st (nth (Z.to_nat model) WebRtcIsacfix_kCdfGainPtr [])
                              (row WebRtcIsacfix_kInitIndexGain model) KLT_ORDER_GAIN;
      if err <? 0 then Some (([], [], 0), err, st)
      else
        gain_lo_hiQ17 ← gains_of_indices model index_g;
        Some ((LPCCoefQ17, gain_lo_hiQ17, model), 0, st).

(** Gains, reflection coefficients of both bands and model. *)
Definition WebRtcIsacfix_DecodeLpc : decoder (list Z * list Z * list Z * Z) := fun streamdata =>
  '((larsQ17, gain_lo_hiQ17, outmodel), err, st) ← WebRtcIsacfix_DecodeLpcCoef streamdata;
  if err <? 0 then Some (([], [], [], 0), - ISAC_RANGE_ERROR_DECODE_LPC, st)
  else
    let '(lo, hi) := Lar2polyFix larsQ17 ORDERLO ORDERHI SUBFRAMES in
    Some ((gain_lo_hiQ17, lo, hi, outmodel), 0, st).

(** ** Encoder *)

(** [tmpcoeffs_gQ6]: log gains without their means. *)
Definition log_gains (gain_lo_hiQ17 : list Z) : list Z :=
  map (fun posg => i16 (i16 (CalcLogN (arr gain_lo_hiQ17 posg) - 3017) - arr (row WebRtcIsacfix_kMeansGainQ8 0) posg))
    (seqZ 0 KLT_ORDER_GAIN).

(** The left transform of the gains. *)
Definition left_gains (tmpcoeffs_gQ6 : list Z) : list Z :=
  let T := row WebRtcIsacfix_kT1GainQ15 0 in
  let g := arr tmpcoeffs_gQ6 in
  concat (map (fun j => [i32 (i32 (g (2 * j) * arr T 0) + i32 (g (2 * j + 1) * arr T 2));
                         i32 (i32 (g (2 * j) * arr T 1) + i32 (g (2 * j + 1) * arr T 3))]) (seqZ 0 SUBFRAMES)).

(** Limits an index to [0 .. max]. *)
Definition clip_index (max index : Z) : Z := if index <? 0 then 0 else if max <? index then max else index.

(** [index_gQQ] of log gains. *)
Definition quantize_gains (tmpcoeffs_gQ6 : list Z) : list Z :=
  let tmpcoeffs_gQ17 := WebRtcIsacfix_MatrixProduct2C (row WebRtcIsacfix_kT2GainQ15 0) (left_gains tmpcoeffs_gQ6)
                          SUBFRAMES 1 in
  map (fun k =>
    let pos2QQ := i16 (CalcLrIntQ (arr tmpcoeffs_gQ17 (arr WebRtcIsacfix_kSelIndGain k)) 17) in
    clip_index (arr WebRtcIsacfix_kMaxIndGain k) (i16 (pos2QQ + arr WebRtcIsacfix_kQuantMinGain k)))
    (seqZ 0 KLT_ORDER_GAIN).

(** The ratios without their means, scaled. *)
Definition scale_shape (LPCCoefQ17 : list Z) : list Z :=
  map (fun poss =>
    let tmp32 := i32 (arr LPCCoefQ17 poss - arr (row WebRtcIsacfix_kMeansShapeQ17 0) poss) in
    if poss mod LPC_SHAPE_ORDER <? ORDERLO then WEBRTC_SPL_MUL_16_32_RSFT16 17203 (i32 (tmp32 ≪ 3))
    else WEBRTC_SPL_MUL_16_32_RSFT16 14746 (i32 (tmp32 ≪ 1))) (seqZ 0 KLT_ORDER_SHAPE).

(** [index_sQQ] of log-area ratios. *)
Definition quantize_shape (LPCCoefQ17 : list Z) : list Z :=
  let tmpcoeffs2_sQ17 := WebRtcIsacfix_MatrixProduct1C (row WebRtcIsacfix_kT1ShapeQ15 0) (scale_shape LPCCoefQ17)
                           LPC_SHAPE_ORDER 1 0 1 LPC_SHAPE_ORDER LPC_SHAPE_ORDER LPC_SHAPE_ORDER 1 in
  let tmpcoeffs_sQ17 := WebRtcIsacfix_MatrixProduct1C (row WebRtcIsacfix_kT2ShapeQ15 0) tmpcoeffs2_sQ17
                          1 SUBFRAMES 1 LPC_SHAPE_ORDER 1 SUBFRAMES LPC_SHAPE_ORDER 1 in
  map (fun k =>
    clip_index (arr WebRtcIsacfix_kMaxIndShape k)
      (i16 (CalcLrIntQ (arr tmpcoeffs_sQ17 (arr WebRtcIsacfix_kSelIndShape k)) 17 + arr WebRtcIsacfix_kQuantMinShape k)))
    (seqZ 0 KLT_ORDER_SHAPE).

(** The code lengths of the indices, summed onto [BitsQQ]. *)
Definition code_length (lens : list Z) (BitsQQ : Z) : Z := foldl (fun b l => i32 (b + l)) BitsQQ lens.

(** The ratios as the encoder reconstructs them. *)
Definition enc_shape (index_s : list Z) : option (list Z) :=
  lev ← look_up WebRtcIsacfix_kLevelsShapeQ10 (arr WebRtcIsacfix_kOfLevelsShape 0) (row WebRtcIsacfix_kOffsetShape 0) index_s;
  let tmpcoeffs_sQ17 := scatter WebRtcIsacfix_kSelIndShape (map (WEBRTC_SPL_MUL 128) lev) KLT_ORDER_SHAPE in
  let tmpcoeffs2_sQ17 := WebRtcIsacfix_MatrixProduct1C (row WebRtcIsacfix_kT1ShapeQ15 0) tmpcoeffs_sQ17
                           LPC_SHAPE_ORDER LPC_SHAPE_ORDER 0 1 1 LPC_SHAPE_ORDER LPC_SHAPE_ORDER 1 in
  let tmpcoeffs_sQ17 := WebRtcIsacfix_MatrixProduct1C (row WebRtcIsacfix_kT2ShapeQ15 0) tmpcoeffs2_sQ17
                          1 1 1 LPC_SHAPE_ORDER SUBFRAMES SUBFRAMES LPC_SHAPE_ORDER 1 in
  Some (restore_shape (row WebRtcIsacfix_kMeansShapeQ17 0) tmpcoeffs_sQ17).

(** The gains as the encoder reconstructs them. *)
Definition enc_gains (index_g : list Z) : option (list Z) :=
  lev ← look_up WebRtcIsacfix_kLevelsGainQ17 (arr WebRtcIsacfix_kOfLevelsGain 0) (row WebRtcIsacfix_kOffsetGain 0) index_g;
  let g := arr (scatter WebRtcIsacfix_kSelIndGain lev KLT_ORDER_GAIN) in
  let T := row WebRtcIsacfix_kT1GainQ15 0 in
  let sum a b j := i32 (i32 (i32 (WEBRTC_SPL_MUL_16_32_RSFT16 (arr T a) (g (2 * j)) ≪ 1)
                             + i32 (WEBRTC_SPL_MUL_16_32_RSFT16 (arr T b) (g (2 * j + 1)) ≪ 1)) ≪ 4) in
  let tmpcoeffs2_gQ21 := concat (map (fun j => [sum 0 1 j; sum 2 3 j]) (seqZ 0 SUBFRAMES)) in
  let tmpcoeffs_gQ17 := WebRtcIsacfix_MatrixProduct2C (row WebRtcIsacfix_kT2GainQ15 0) tmpcoeffs2_gQ21 1 SUBFRAMES in
  Some (restore_gains (row WebRtcIsacfix_kMeansGainQ8 0) tmpcoeffs_gQ17).

(** The state of the stream before the gains are coded; [None] reads outside
    the stream array. *)
Definition save_transcode (t : transcode_obj) (streamdata : Bitstr_enc) : option transcode_obj :=
  before ← rd (e_stream streamdata) (e_stream_index streamdata - 1);
  last ← rd (e_stream streamdata) (e_stream_index streamdata);
  Some (mkTranscode (lpcGains t) (e_W_upper streamdata) (e_streamval streamdata) (e_stream_index streamdata)
          (e_full streamdata) before last).

(** What [EstCodeLpcCoef] leaves behind; [e_lars] and [e_gains] are [LPCCoefQ17]
    and [gain_lo_hiQ17]. *)
Record lpc_result := mkLpcResult {
  r_lars : list Z;
  r_gains : list Z;
  r_model : Z;
  r_size : Z;
  r_status : Z;
  r_stream : Bitstr_enc;
  r_encData : option IsacSaveEncoderData;
  r_transcode : transcode_obj
}.

(** Stores a vector of the frame in the half of an array that belongs to it. *)
Definition save_gains (order : Z) (gains : list Z) : option IsacSaveEncoderData -> option (option IsacSaveEncoderData) :=
  save (fun s => l ← wr_all (LPCcoeffs_g s) (order * startIdx s) gains; Some (set_LPCcoeffs_g l s)).
Definition save_index_g (index : list Z) : option IsacSaveEncoderData -> option (option IsacSaveEncoderData) :=
  save (fun s => l ← wr_all (LPCindex_g s) (KLT_ORDER_GAIN * startIdx s) index; Some (set_LPCindex_g l s)).
Definition save_index_s (index : list Z) : option IsacSaveEncoderData -> option (option IsacSaveEncoderData) :=
  save (fun s => l ← wr_all (LPCindex_s s) (KLT_ORDER_SHAPE * startIdx s) index; Some (set_LPCindex_s l s)).

Definition EstCodeLpcCoef (LPCCoefQ17 gain_lo_hiQ17 : list Z) (streamdata : Bitstr_enc)
    (encData : option IsacSaveEncoderData) (transcodingParam : transcode_obj) : option lpc_result :=
  encData ← save_gains KLT_ORDER_GAIN gain_lo_hiQ17 encData;
  let index_g := quantize_gains (log_gains gain_lo_hiQ17) in
  encData ← save_index_g index_g encData;
  lens_g ← look_up WebRtcIsacfix_kCodeLenGainQ11 (arr WebRtcIsacfix_kOfLevelsGain 0) (row WebRtcIsacfix_kOffsetGain 0) index_g;
  let index_s := quantize_shape LPCCoefQ17 in
  lens_s ← look_up WebRtcIsacfix_kCodeLenShapeQ11 (arr WebRtcIsacfix_kOfLevelsShape 0) (row WebRtcIsacfix_kOffsetShape 0) index_s;
  let sizeQ11 := code_length lens_s (code_length lens_g 0) in
  let stop status st encData t := mkLpcResult LPCCoefQ17 gain_lo_hiQ17 0 sizeQ11 status st encData t in
  '(status, st) ← WebRtcIsacfix_EncHistMulti streamdata [0] WebRtcIsacfix_kModelCdfPtr;
  if status <? 0 then Some (stop status st encData transcodingParam)
  else
    '(status, st) ← WebRtcIsacfix_EncHistMulti st index_s (nth 0 WebRtcIsacfix_kCdfShapePtr []);
    if status <? 0 then Some (stop status st encData transcodingParam)
    else
      encData ← save_index_s index_s encData;
      t ← save_transcode transcodingParam st;
      '(status, st) ← WebRtcIsacfix_EncHistMulti st index_g (nth 0 WebRtcIsacfix_kCdfGainPtr []);
      if status <? 0 then Some (stop status st encData t)
      else
        lars ← enc_shape index_s;
        gains ← enc_gains index_g;
        Some (mkLpcResult lars gains 0 sizeQ11 0 st encData t).

(** Returns the status, the stream and the saved data. *)
Definition WebRtcIsacfix_EstCodeLpcGain (gain_lo_hiQ17 : list Z) (streamdata : Bitstr_enc)
    (encData : option IsacSaveEncoderData) : option (Z * Bitstr_enc * option IsacSaveEncoderData) :=
  encData ← save_gains KLT_ORDER_GAIN gain_lo_hiQ17 encData;
  let index_g := quantize_gains (log_gains gain_lo_hiQ17) in
  encData ← save_index_g index_g encData;
  '(status, st) ← WebRtcIsacfix_EncHistMulti streamdata index_g (nth 0 WebRtcIsacfix_kCdfGainPtr []);
  Some ((if status <? 0 then status else 0), st, encData).

(** Returns the result of [EstCodeLpcCoef] with the coefficients of both bands
    as the function leaves them. *)
Definition WebRtcIsacfix_EncodeLpc (gain_lo_hiQ17 LPCCoef_loQ15 LPCCoef_hiQ15 : list Z) (streamdata : Bitstr_enc)
    (encData : option IsacSaveEncoderData) (transcodeParam : transcode_obj) : option (lpc_result * list Z * list Z) :=
  let larsQ17 := Poly2LarFix LPCCoef_loQ15 ORDERLO LPCCoef_hiQ15 ORDERHI SUBFRAMES in
  r ← EstCodeLpcCoef larsQ17 gain_lo_hiQ17 streamdata encData transcodeParam;
  if r_status r <? 0 then Some (r, LPCCoef_loQ15, LPCCoef_hiQ15)
  else
    let '(lo, hi) := Lar2polyFix (r_lars r) ORDERLO ORDERHI SUBFRAMES in
    Some (r, lo, hi).

(** The gain indices of rescaled gains; here the intermediate array is 32 bits
    wide. *)
Definition WebRtcIsacfix_TranscodeLpcCoef (gain_lo_hiQ17 : list Z) : list Z :=
  quantize_gains (map (fun posg =>
    i32 (i32 (CalcLogN (arr gain_lo_hiQ17 posg) - 3017) - arr (row WebRtcIsacfix_kMeansGainQ8 0) posg))
    (seqZ 0 KLT_ORDER_GAIN)).

(** ** Tables *)

(** The indices a vector may have. *)
Definition in_limits (index max : list Z) : Prop := Forall2 (fun x m => 0 <= x <= m) index max.

(** Every index within [max] can be coded and its level exists. *)
Fixpoint vector_tables (cdfs : list (list Z)) (max init : list Z) : bool :=
  match cdfs, max, init with
  | [], [], [] => true
  | tbl :: cdfs, m :: max, i :: init =>
      coded_cdf tbl (m + 1) && (0 <=? i) && (i <? Z.of_nat (length tbl)) && vector_tables cdfs max init
  | _, _, _ => false
  end.

Fixpoint level_tables (n base : Z) (offset max : list Z) : bool :=
  match offset, max with
  | [], [] => true
  | o :: offset, m :: max => (0 <=? base + o) && (base + o + m <? n) && level_tables n base offset max
  | _, _ => false
  end.

Lemma vector_tables_ok cdfs : forall max init index, vector_tables cdfs max init = true -> in_limits index max ->
  chunk_ok (mkChunk index cdfs (OneStep init)).
Proof.
  unfold chunk_ok. cbn [ck_args ck_data ck_cdf].
  induction cdfs as [|tbl cdfs IH]; intros [|m max] [|i init] index H Hl; try done.
  { inversion Hl; subst. constructor. }
  inversion Hl as [|x ? index' ? Hx Hl']; subst. cbn [vector_tables] in H. rewrite !andb_true_iff in H.
  destruct H as (((H1 & H2) & H3) & H4). constructor; [|by apply (IH max)].
  apply coded_onestep with (m + 1); [done|lia..].
Qed.

Lemma look_up_Some levels base offset : forall max index,
  level_tables (Z.of_nat (length levels)) base offset max = true -> in_limits index max ->
  exists l, look_up levels base offset index = Some l.
Proof.
  induction offset as [|o offset IH]; intros [|m max] index H Hl; try done.
  { inversion Hl; subst. by exists []. }
  inversion Hl as [|x ? index' ? Hx Hl']; subst. cbn [level_tables] in H. rewrite !andb_true_iff in H.
  destruct H as ((H1 & H2) & H3). cbn [look_up]. rewrite rd_Some by lia. bind_simpl.
  destruct (IH max index' H3 Hl') as [l ->]. by eexists.
Qed.

Lemma shape_vector : vector_tables (nth 0 WebRtcIsacfix_kCdfShapePtr []) WebRtcIsacfix_kMaxIndShape
  (row WebRtcIsacfix_kInitIndexShape 0) = true.
Proof. vm_compute. reflexivity. Qed.
Lemma gain_vector : vector_tables (nth 0 WebRtcIsacfix_kCdfGainPtr []) WebRtcIsacfix_kMaxIndGain
  (row WebRtcIsacfix_kInitIndexGain 0) = true.
Proof. vm_compute. reflexivity. Qed.

Lemma shape_levels : level_tables (Z.of_nat (length WebRtcIsacfix_kLevelsShapeQ10)) (arr WebRtcIsacfix_kOfLevelsShape 0)
  (row WebRtcIsacfix_kOffsetShape 0) WebRtcIsacfix_kMaxIndShape = true.
Proof. vm_compute. reflexivity. Qed.
Lemma gain_levels : level_tables (Z.of_nat (length WebRtcIsacfix_kLevelsGainQ17)) (arr WebRtcIsacfix_kOfLevelsGain 0)
  (row WebRtcIsacfix_kOffsetGain 0) WebRtcIsacfix_kMaxIndGain = true.
Proof. vm_compute. reflexivity. Qed.
Lemma shape_lengths : level_tables (Z.of_nat (length WebRtcIsacfix_kCodeLenShapeQ11)) (arr WebRtcIsacfix_kOfLevelsShape 0)
  (row WebRtcIsacfix_kOffsetShape 0) WebRtcIsacfix_kMaxIndShape = true.
Proof. vm_compute. reflexivity. Qed.
Lemma gain_lengths : level_tables (Z.of_nat (length WebRtcIsacfix_kCodeLenGainQ11)) (arr WebRtcIsacfix_kOfLevelsGain 0)
  (row WebRtcIsacfix_kOffsetGain 0) WebRtcIsacfix_kMaxIndGain = true.
Proof. vm_compute. reflexivity. Qed.

(** ** Quantisers *)

Lemma clip_index_range max index : 0 <= max -> 0 <= clip_index max index <= max.
Proof. intros H. unfold clip_index. destruct (Z.ltb_spec index 0), (Z.ltb_spec max index); lia. Qed.

Lemma in_limits_map (f : Z -> Z) max n : length max = Z.to_nat n -> Forall (fun m => 0 <= m) max ->
  in_limits (map (fun k => clip_index (arr max k) (f k)) (seqZ 0 n)) max.
Proof.
  intros Hl Hm. unfold in_limits. apply Forall2_same_length_lookup_2.
  - by rewrite length_map, length_seqZ.
  - intros i x m Hx Hmi. rewrite list_lookup_fmap, lookup_seqZ_lt in Hx
      by (apply lookup_lt_Some in Hmi; lia). injection Hx as <-.
    apply (Forall_lookup_1 _ _ _ _ Hm) in Hmi as Hm0.
    replace (arr max (0 + Z.of_nat i)) with m; [by apply clip_index_range|].
    unfold arr. rewrite Z.add_0_l, Nat2Z.id. by rewrite (nth_lookup_Some _ _ _ _ Hmi).
Qed.

Lemma quantize_shape_limits lars : in_limits (quantize_shape lars) WebRtcIsacfix_kMaxIndShape.
Proof.
  unfold quantize_shape. apply in_limits_map; [reflexivity|].
  apply (bool_decide_unpack (Forall (fun m => 0 <= m) WebRtcIsacfix_kMaxIndShape)). vm_compute. exact I.
Qed.

Lemma quantize_gains_limits g : in_limits (quantize_gains g) WebRtcIsacfix_kMaxIndGain.
Proof.
  unfold quantize_gains. apply in_limits_map; [reflexivity|].
  apply (bool_decide_unpack (Forall (fun m => 0 <= m) WebRtcIsacfix_kMaxIndGain)). vm_compute. exact I.
Qed.

(** ** Transmission *)

Lemma of_indices index_s index_g :
  in_limits index_s WebRtcIsacfix_kMaxIndShape -> in_limits index_g WebRtcIsacfix_kMaxIndGain ->
  exists lars gains, shape_of_indices 0 index_s = Some lars /\ gains_of_indices 0 index_g = Some gains.
Proof.
  intros Hs Hg. destruct (look_up_Some _ _ _ _ _ shape_levels Hs) as [ls El].
  destruct (look_up_Some _ _ _ _ _ gain_levels Hg) as [lg Eg]. unfold shape_of_indices, gains_of_indices.
  rewrite El, Eg. by do 2 eexists.
Qed.

(** What the decoder makes of the indices: gains, reflection coefficients of
    both bands and the model. *)
Definition lpc_of_indices (index_s index_g : list Z) : list Z * list Z * list Z * Z :=
  let lars := default [] (shape_of_indices 0 index_s) in
  let gains := default [] (gains_of_indices 0 index_g) in
  let '(lo, hi) := Lar2polyFix lars ORDERLO ORDERHI SUBFRAMES in
  (gains, lo, hi, 0).

Definition model_chunk : chunk := mkChunk [0] WebRtcIsacfix_kModelCdfPtr (OneStep WebRtcIsacfix_kModelInitIndex).
Definition shape_chunk (index : list Z) : chunk :=
  mkChunk index (nth 0 WebRtcIsacfix_kCdfShapePtr []) (OneStep (row WebRtcIsacfix_kInitIndexShape 0)).
Definition gains_chunk (index : list Z) : chunk :=
  mkChunk index (nth 0 WebRtcIsacfix_kCdfGainPtr []) (OneStep (row WebRtcIsacfix_kInitIndexGain 0)).

Lemma model_chunk_ok : chunk_ok model_chunk.
Proof. constructor; [|constructor]. apply coded_onestep with 1; [reflexivity|lia|]. vm_compute. intuition congruence. Qed.

(** The three decoder calls. *)
Definition read_indices : decoder (list Z * list Z * list Z) :=
  dbind (fun st => WebRtcIsacfix_DecHistOneStepMulti st WebRtcIsacfix_kModelCdfPtr WebRtcIsacfix_kModelInitIndex 1)
  (fun model => dbind (fun st => WebRtcIsacfix_DecHistOneStepMulti st
     (nth (Z.to_nat (arr model 0)) WebRtcIsacfix_kCdfShapePtr []) (row WebRtcIsacfix_kInitIndexShape (arr model 0)) KLT_ORDER_SHAPE)
  (fun index_s => dbind (fun st => WebRtcIsacfix_DecHistOneStepMulti st
     (nth (Z.to_nat (arr model 0)) WebRtcIsacfix_kCdfGainPtr []) (row WebRtcIsacfix_kInitIndexGain (arr model 0)) KLT_ORDER_GAIN)
  (fun index_g => dret (model, index_s, index_g)))).

Lemma DecodeLpc_read index_s index_g lars gains dst ret dst' :
  read_indices dst = Some (([0], index_s, index_g), ret, dst') -> 0 <= ret ->
  shape_of_indices 0 index_s = Some lars -> gains_of_indices 0 index_g = Some gains ->
  WebRtcIsacfix_DecodeLpc dst = Some (lpc_of_indices index_s index_g, 0, dst').
Proof.
  unfold read_indices, WebRtcIsacfix_DecodeLpc, WebRtcIsacfix_DecodeLpcCoef, lpc_of_indices.
  generalize WebRtcIsacfix_DecHistOneStepMulti as dec, shape_of_indices as so, gains_of_indices as go.
  generalize WebRtcIsacfix_kCdfShapePtr as cs, WebRtcIsacfix_kCdfGainPtr as cg.
  generalize WebRtcIsacfix_kModelCdfPtr as cm, WebRtcIsacfix_kModelInitIndex as im, row as rw, Lar2polyFix as poly.
  intros cm im rw poly cs cg dec so go E Hret Es Eg.
  apply dbind_inv in E as (m & r1 & st1 & E1 & Hr1 & E); [|done].
  apply dbind_inv in E as (xs & r2 & st2 & E2 & Hr2 & E); [|done].
  apply dbind_inv in E as (ys & r3 & st3 & E3 & Hr3 & E); [|done].
  injection E as -> -> -> <- <-. change (arr [0] 0) with 0 in *. rewrite E1. bind_simpl.
  rewrite (proj2 (Z.ltb_ge r1 0)) by lia. change (arr [0] 0) with 0. rewrite E2. bind_simpl.
  rewrite (proj2 (Z.ltb_ge r2 0)) by lia. rewrite Es. bind_simpl. rewrite E3. bind_simpl.
  rewrite (proj2 (Z.ltb_ge r3 0)) by lia. rewrite Eg. bind_simpl. cbn [Z.ltb Z.compare default].
  unfold id. by destruct (poly lars ORDERLO ORDERHI SUBFRAMES).
Qed.

Section Indices.
Context (index_s index_g : list Z) (st st1 st2 st3 : Bitstr_enc).
Context (Hs : in_limits index_s WebRtcIsacfix_kMaxIndShape) (Hg : in_limits index_g WebRtcIsacfix_kMaxIndGain).
Context (E1 : WebRtcIsacfix_EncHistMulti st [0] WebRtcIsacfix_kModelCdfPtr = Some (0, st1)).
Context (E2 : WebRtcIsacfix_EncHistMulti st1 index_s (nth 0 WebRtcIsacfix_kCdfShapePtr []) = Some (0, st2)).
Context (E3 : WebRtcIsacfix_EncHistMulti st2 index_g (nth 0 WebRtcIsacfix_kCdfGainPtr []) = Some (0, st3)).

Lemma read_indices_transmits : transmits no_error st st3 read_indices ([0], index_s, index_g).
Proof.
  pose proof (transmits_weaken _ _ _ _ (hist_transmits st model_chunk st1 model_chunk_ok E1)) as T1.
  pose proof (vector_tables_ok _ _ _ _ shape_vector Hs) as Hok2. pose proof (vector_tables_ok _ _ _ _ gain_vector Hg) as Hok3.
  pose proof (transmits_weaken _ _ _ _ (hist_transmits st1 (shape_chunk index_s) st2 Hok2 E2)) as T2.
  pose proof (transmits_weaken _ _ _ _ (hist_transmits st2 (gains_chunk index_g) st3 Hok3 E3)) as T3.
  unfold decode_chunk, model_chunk, shape_chunk, gains_chunk in *. cbn [ck_args ck_data ck_cdf] in *.
  rewrite (Forall2_length Hs) in T2. rewrite (Forall2_length Hg) in T3.
  eapply transmits_bind; [exact T1|]. eapply transmits_bind; [exact T2|]. eapply transmits_bind; [exact T3|].
  apply transmits_ret.
Qed.

Lemma DecodeLpc_transmits : transmits returns_zero st st3 WebRtcIsacfix_DecodeLpc (lpc_of_indices index_s index_g).
Proof.
  destruct (of_indices index_s index_g Hs Hg) as (lars & gains & Es & Eg).
  eapply transmits_post; [|exact read_indices_transmits]. intros dst ret dst' n W E Hq. exists 0. split; [|done].
  by eapply DecodeLpc_read.
Qed.
End Indices.

(** ** EncodeLpc *)

Lemma wr_all_cells dst at_ src dst' : 0 <= at_ -> at_ + Z.of_nat (length src) <= Z.of_nat (length dst) ->
  wr_all dst at_ src = Some dst' -> cells dst' at_ (Z.of_nat (length src)) = src /\ length dst' = length dst.
Proof.
  intros Ha Hl E. destruct (wr_all_Some src dst at_ Ha Hl) as (d & E' & Hd & Hin & _). rewrite E in E'.
  injection E' as <-. split; [|done]. unfold cells. rewrite Nat2Z.id.
  apply list_eq_same_length with (n := length src); [done|rewrite length_take, length_drop; lia|].
  intros i x y Hi Hx Hy.
  specialize (Hin (Z.of_nat i) ltac:(lia)). unfold arr in Hin. rewrite Nat2Z.id in Hin.
  replace (Z.to_nat (at_ + Z.of_nat i)) with (Z.to_nat at_ + i)%nat in Hin by lia.
  rewrite lookup_take_lt in Hx by lia. rewrite lookup_drop in Hx.
  rewrite (nth_lookup_Some _ _ _ _ Hx), (nth_lookup_Some _ _ _ _ Hy) in Hin. congruence.
Qed.

(** The indices the record keeps for the frame. *)
Definition saved_s (s : IsacSaveEncoderData) : list Z := cells (LPCindex_s s) (KLT_ORDER_SHAPE * startIdx s) KLT_ORDER_SHAPE.
Definition saved_g (s : IsacSaveEncoderData) : list Z := cells (LPCindex_g s) (KLT_ORDER_GAIN * startIdx s) KLT_ORDER_GAIN.

Ltac saved_cbn := cbn [set_LPCcoeffs_g set_LPCindex_s set_LPCindex_g startIdx framelength pitchGain_index meanGain pitchIndex
  LPCcoeffs_g LPCindex_s LPCindex_g fre fim AvgPitchGain minBytes].

Lemma save_gains_Some g s : length g = 12%nat -> saved_ok s ->
  exists s', save_gains KLT_ORDER_GAIN g (Some s) = Some (Some s') /\ saved_ok s' /\ startIdx s' = startIdx s.
Proof.
  intros Hg [Hst Hgi Hme Hla Hlg His Hig Hfr Hfi Hap]. unfold save_gains, save, KLT_ORDER_GAIN.
  destruct (wr_all_Some g (LPCcoeffs_g s) (12 * startIdx s)) as (d & -> & Hd & _); [lia|lia|]. bind_simpl.
  eexists. split; [done|]. split; [|done]. constructor; saved_cbn; congruence.
Qed.

Lemma save_index_g_Some idx s : length idx = 12%nat -> saved_ok s ->
  exists s', save_index_g idx (Some s) = Some (Some s') /\ saved_ok s' /\ startIdx s' = startIdx s /\ saved_g s' = idx.
Proof.
  intros Hg [Hst Hgi Hme Hla Hlg His Hig Hfr Hfi Hap]. unfold save_index_g, save, saved_g, KLT_ORDER_GAIN.
  destruct (wr_all_Some idx (LPCindex_g s) (12 * startIdx s)) as (d & E & Hd & _); [lia|lia|]. rewrite E. bind_simpl.
  eexists. split; [done|]. apply wr_all_cells in E as [E _]; [|lia|lia]. rewrite Hg in E. saved_cbn.
  split; [constructor; saved_cbn; congruence|]. split; [done|exact E].
Qed.

Lemma save_index_s_Some idx s : length idx = 108%nat -> saved_ok s ->
  exists s', save_index_s idx (Some s) = Some (Some s') /\ saved_ok s' /\ startIdx s' = startIdx s /\ saved_s s' = idx /\
    saved_g s' = saved_g s.
Proof.
  intros Hg [Hst Hgi Hme Hla Hlg His Hig Hfr Hfi Hap]. unfold save_index_s, save, saved_s, saved_g, KLT_ORDER_SHAPE.
  destruct (wr_all_Some idx (LPCindex_s s) (108 * startIdx s)) as (d & E & Hd & _); [lia|lia|]. rewrite E. bind_simpl.
  eexists. split; [done|]. apply wr_all_cells in E as [E _]; [|lia|lia]. rewrite Hg in E. saved_cbn.
  split; [constructor; saved_cbn; congruence|]. split; [done|]. split; [exact E|done].
Qed.

Lemma save_transcode_Some t st V W n : enc_inv st V W n -> (2 <= n)%nat -> exists t', save_transcode t st = Some t'.
Proof.
  intros [Hr _] Hn. pose proof (er_swf _ _ _ _ Hr) as Hsw. pose proof (er_len _ _ _ _ Hr) as Hl.
  pose proof (er_n _ _ _ _ Hr) as Hnb. unfold enc_start in *. cbn [l_stream l_ptr l_full] in *.
  destruct (nbytes_lt _ _ _ Hsw Hl) as (_ & Hp & Hf). unfold nbytes in Hnb.
  assert (1 <= e_stream_index st) by (destruct Hf as [Hf|Hf]; rewrite Hf in Hnb; cbn [Z.eqb] in Hnb; lia).
  unfold save_transcode. rewrite !rd_Some by (rewrite Hl; unfold STREAM_MAXW16_60MS; lia). by eexists.
Qed.

(** The calls behind a successful [EstCodeLpcCoef]. *)
Definition lpc_calls (st : Bitstr_enc) (s : IsacSaveEncoderData) (r : lpc_result) : Prop :=
  exists s' st1 st2, r_encData r = Some s' /\ saved_ok s' /\ startIdx s' = startIdx s /\
    in_limits (saved_s s') WebRtcIsacfix_kMaxIndShape /\ in_limits (saved_g s') WebRtcIsacfix_kMaxIndGain /\
    WebRtcIsacfix_EncHistMulti st [0] WebRtcIsacfix_kModelCdfPtr = Some (0, st1) /\
    WebRtcIsacfix_EncHistMulti st1 (saved_s s') (nth 0 WebRtcIsacfix_kCdfShapePtr []) = Some (0, st2) /\
    WebRtcIsacfix_EncHistMulti st2 (saved_g s') (nth 0 WebRtcIsacfix_kCdfGainPtr []) = Some (0, r_stream r).

Lemma EstCodeLpcCoef_calls lars gains st s t r : length gains = 12%nat -> saved_ok s ->
  EstCodeLpcCoef lars gains st (Some s) t = Some r -> r_status r = 0 -> lpc_calls st s r.
Proof.
  intros Hlg Hs. unfold EstCodeLpcCoef, lpc_calls. cbn zeta.
  pose proof (quantize_gains_limits (log_gains gains)) as Hg. pose proof (quantize_shape_limits lars) as Hsh.
  generalize dependent (quantize_gains (log_gains gains)). intros ig Hg.
  generalize dependent (quantize_shape lars). intros ixs Hsh.
  pose proof (Forall2_length Hg) as Lg. pose proof (Forall2_length Hsh) as Lsh.
  change (length ig = 12%nat) in Lg. change (length ixs = 108%nat) in Lsh.
  destruct (save_gains_Some gains s Hlg Hs) as (s1 & -> & Hs1 & Hst1). cbn [mbind option_bind].
  destruct (save_index_g_Some ig s1 Lg Hs1) as (s2 & -> & Hs2 & Hst2 & Esg). cbn [mbind option_bind].
  generalize (look_up WebRtcIsacfix_kCodeLenGainQ11 (arr WebRtcIsacfix_kOfLevelsGain 0) (row WebRtcIsacfix_kOffsetGain 0) ig) as lg.
  generalize (look_up WebRtcIsacfix_kCodeLenShapeQ11 (arr WebRtcIsacfix_kOfLevelsShape 0) (row WebRtcIsacfix_kOffsetShape 0) ixs) as ls.
  generalize (enc_shape ixs) as es, (enc_gains ig) as eg, save_transcode as sv, code_length as cl.
  pose proof EncHist_nonneg as Hnn. revert Hnn.
  generalize WebRtcIsacfix_EncHistMulti as enc. intros enc Hnn es eg sv cl ls lg.
  destruct lg as [lg|]; [|done]. cbn [mbind option_bind]. destruct ls as [ls|]; [|done]. cbn [mbind option_bind].
  destruct (enc st [0] _) as [[r1 st1]|] eqn:E1; [|done]. cbn [mbind option_bind].
  destruct (Z.ltb_spec r1 0); [intros [= <-]; cbn [r_status]; lia|]. apply (Hnn _ _ _ _ _ E1) in H as ->.
  destruct (enc st1 ixs _) as [[r2 st2]|] eqn:E2; [|done]. cbn [mbind option_bind].
  destruct (Z.ltb_spec r2 0) as [|H2]; [intros [= <-]; cbn [r_status]; lia|]. apply (Hnn _ _ _ _ _ E2) in H2 as ->.
  destruct (save_index_s_Some ixs s2 Lsh Hs2) as (s3 & -> & Hs3 & Hst3 & Ess & Esg'). cbn [mbind option_bind].
  destruct (sv t st2) as [t'|]; [|done]. cbn [mbind option_bind].
  destruct (enc st2 ig _) as [[r3 st3]|] eqn:E3; [|done]. cbn [mbind option_bind].
  destruct (Z.ltb_spec r3 0) as [|H3]; [intros [= <-]; cbn [r_status]; lia|]. apply (Hnn _ _ _ _ _ E3) in H3 as ->.
  destruct es as [es|]; [|done]. cbn [mbind option_bind]. destruct eg as [eg|]; [|done]. cbn [mbind option_bind].
  intros [= <-] _. exists s3, st1, st2. cbn [r_encData r_stream]. rewrite Ess, Esg', Esg, Hst3, Hst2, Hst1.
  by repeat (split; [done|]).
Qed.

Lemma EncodeLpc_calls gains lo hi st s t r lo' hi' : length gains = 12%nat -> saved_ok s ->
  WebRtcIsacfix_EncodeLpc gains lo hi st (Some s) t = Some (r, lo', hi') -> r_status r = 0 -> lpc_calls st s r.
Proof.
  intros Hlg Hs. unfold WebRtcIsacfix_EncodeLpc. cbn zeta.
  generalize (Poly2LarFix lo ORDERLO hi ORDERHI SUBFRAMES). intros lars.
  pose proof (EstCodeLpcCoef_calls lars gains st s t) as H. revert H.
  generalize (EstCodeLpcCoef lars gains st (Some s) t) as r0. intros [r0|] H; [|done]. cbn [mbind option_bind].
  destruct (r_status r0 <? 0); [|destruct (Lar2polyFix _ _ _ _)]; intros [= -> <- <-] Hr; by apply H.
Qed.

(** A coded vector, seen from the state of the encoder: the status, and the
    bytes only grow. *)
Lemma EncHist_step st V W n c : enc_inv st V W n -> chunk_ok c ->
  exists r st', WebRtcIsacfix_EncHistMulti st (ck_data c) (ck_cdf c) = Some (r, st') /\
    (r = 0 /\ (exists V' W' n', enc_inv st' V' W' n' /\ (n <= n')%nat) \/ r = - ISAC_DISALLOWED_BITSTREAM_LENGTH).
Proof.
  intros Hi Hok. destruct (EncHistMulti_spec st V W n _ _ Hi (chunk_ok_syms c Hok)) as (r & st' & E & Hcase).
  exists r, st'. split; [done|]. destruct Hcase as [(-> & V' & W' & n' & Hi' & _ & Ht)|(-> & _)]; [left|by right].
  split; [done|]. exists V', W', n'. split; [done|]. exact (trace_mono _ _ _ _ _ _ _ Ht).
Qed.

Lemma EstCodeLpcCoef_total lars gains st V W n s t : enc_inv st V W n -> (2 <= n)%nat ->
  length gains = 12%nat -> saved_ok s ->
  exists r, EstCodeLpcCoef lars gains st (Some s) t = Some r /\
    (r_status r = 0 /\ enc_shape (quantize_shape lars) = Some (r_lars r) /\
       enc_gains (quantize_gains (log_gains gains)) = Some (r_gains r) \/
     r_status r = - ISAC_DISALLOWED_BITSTREAM_LENGTH /\ r_lars r = lars /\ r_gains r = gains).
Proof.
  intros Hi Hn Hlg Hs. unfold EstCodeLpcCoef. cbn zeta.
  pose proof (quantize_gains_limits (log_gains gains)) as Hg. pose proof (quantize_shape_limits lars) as Hsh.
  generalize dependent (quantize_gains (log_gains gains)). intros ig Hg.
  generalize dependent (quantize_shape lars). intros ixs Hsh.
  pose proof (Forall2_length Hg) as Lg. pose proof (Forall2_length Hsh) as Lsh.
  change (length ig = 12%nat) in Lg. change (length ixs = 108%nat) in Lsh.
  destruct (save_gains_Some gains s Hlg Hs) as (s1 & -> & Hs1 & Hst1). bind_simpl.
  destruct (save_index_g_Some ig s1 Lg Hs1) as (s2 & -> & Hs2 & Hst2 & Esg). bind_simpl.
  destruct (look_up_Some _ _ _ _ _ gain_lengths Hg) as [lg ->]. bind_simpl.
  destruct (look_up_Some _ _ _ _ _ shape_lengths Hsh) as [ls ->]. bind_simpl.
  destruct (EncHist_step st V W n model_chunk Hi model_chunk_ok) as (r1 & st1 & E1 & Hc1).
  cbn [ck_data ck_cdf model_chunk] in E1. rewrite E1. bind_simpl.
  destruct Hc1 as [(-> & V1 & W1 & n1 & Hi1 & Hn1)| ->]; [|eexists; split; [done|by right] ]. cbn [Z.ltb Z.compare].
  destruct (EncHist_step st1 V1 W1 n1 (shape_chunk ixs) Hi1 (vector_tables_ok _ _ _ _ shape_vector Hsh)) as (r2 & st2 & E2 & Hc2).
  cbn [ck_data ck_cdf shape_chunk] in E2. rewrite E2. bind_simpl.
  destruct Hc2 as [(-> & V2 & W2 & n2 & Hi2 & Hn2)| ->]; [|eexists; split; [done|by right] ]. cbn [Z.ltb Z.compare].
  destruct (save_index_s_Some ixs s2 Lsh Hs2) as (s3 & -> & _). bind_simpl.
  destruct (save_transcode_Some t st2 V2 W2 n2 Hi2 ltac:(lia)) as [t' ->]. bind_simpl.
  destruct (EncHist_step st2 V2 W2 n2 (gains_chunk ig) Hi2 (vector_tables_ok _ _ _ _ gain_vector Hg)) as (r3 & st3 & E3 & Hc3).
  cbn [ck_data ck_cdf gains_chunk] in E3. rewrite E3. bind_simpl.
  destruct Hc3 as [(-> & _)| ->]; [|eexists; split; [done|by right] ]. cbn [Z.ltb Z.compare].
  unfold enc_shape, enc_gains. destruct (look_up_Some _ _ _ _ _ shape_levels Hsh) as [l1 ->]. bind_simpl.
  destruct (look_up_Some _ _ _ _ _ gain_levels Hg) as [l2 ->]. bind_simpl. eexists. split; [done|]. by left.
Qed.

(** ** Claims *)

(** C14: [WebRtcIsacfix_EncodeLpc] never leaves its tables, the stream or the
    record.  From any position behind the first word of a packet (its state
    saved for rate reduction reads the word before the current one) it returns,
    for arbitrary coefficients and gains: with status 0 and the coefficients and
    gains that the chosen indices stand for, or with the error of a full stream
    and its arguments unchanged. *)
Theorem encode_lpc_total gains lo hi st V W n s t :
  enc_inv st V W n -> (2 <= n)%nat -> length gains = Z.to_nat KLT_ORDER_GAIN -> saved_ok s ->
  let larsQ17 := Poly2LarFix lo ORDERLO hi ORDERHI SUBFRAMES in
  exists r lo' hi', WebRtcIsacfix_EncodeLpc gains lo hi st (Some s) t = Some (r, lo', hi') /\
    (r_status r = 0 /\ enc_gains (quantize_gains (log_gains gains)) = Some (r_gains r) /\
       (exists lars, enc_shape (quantize_shape larsQ17) = Some lars /\
          (lo', hi') = Lar2polyFix lars ORDERLO ORDERHI SUBFRAMES) \/
     r_status r = - ISAC_DISALLOWED_BITSTREAM_LENGTH /\ r_gains r = gains /\ lo' = lo /\ hi' = hi).
Proof.
  intros Hi Hn Hl Hs. cbn zeta. unfold WebRtcIsacfix_EncodeLpc. cbn zeta.
  generalize (Poly2LarFix lo ORDERLO hi ORDERHI SUBFRAMES) as lars. intros lars.
  destruct (EstCodeLpcCoef_total lars gains st V W n s t Hi Hn Hl Hs) as (r & -> & Hcase). bind_simpl.
  destruct Hcase as [(Hr & Es & Eg)|(Hr & Es & Eg)]; rewrite Hr.
  - cbn [Z.ltb Z.compare]. destruct (Lar2polyFix (r_lars r) ORDERLO ORDERHI SUBFRAMES) as [lo' hi'] eqn:El.
    exists r, lo', hi'. split; [done|]. left. split; [done|]. split; [done|]. exists (r_lars r). by rewrite El.
  - exists r, lo, hi. split; [done|]. right. done.
Qed.

(** *** A frame, used by the witnesses *)

Definition ex_lo : list Z := Eval vm_compute in map (fun k => (k * 7919) mod 20001 - 10000) (seqZ 0 72).
Definition ex_hi : list Z := Eval vm_compute in map (fun k => (k * 104729) mod 10001 - 5000) (seqZ 0 36).
Definition ex_gains : list Z := Eval vm_compute in map (fun k => 100000 + k * 5000) (seqZ 0 12).
Definition ex_transcode : transcode_obj := mkTranscode ex_gains 0 0 0 0 0 0.
Definition ex_prefix : list chunk := [mkChunk [5; 9; 17; 3; 20; 11] (replicate 6 kBwCdf) (OneStep (replicate 6 7))].
Definition ex_prefix_st : Bitstr_enc := Eval vm_compute in
  default (enc_reset []) (snd <$> encode_chunks (enc_reset (replicate 200 0)) ex_prefix).
Definition ex_lpc : lpc_result * list Z * list Z := Eval vm_compute in
  default (mkLpcResult [] [] 0 0 0 ex_prefix_st None ex_transcode, [], [])
    (WebRtcIsacfix_EncodeLpc ex_gains ex_lo ex_hi ex_prefix_st (Some (ex_saved 0)) ex_transcode).
Definition ex_lpc_end : Z * Bitstr_enc := Eval vm_compute in
  default (0, ex_prefix_st) (WebRtcIsacfix_EncTerminate (r_stream ex_lpc.1.1)).
Definition ex_lpc_packet : list Z := Eval vm_compute in e_stream ex_lpc_end.2 ++ replicate 105 0.

Lemma ex_prefix_ok : Forall chunk_ok ex_prefix.
Proof.
  constructor; [|constructor]. unfold chunk_ok. cbn [ck_args ck_data ck_cdf replicate].
  assert (forall x, 0 <= x < 24 -> onestep_ok 7 x kBwCdf) as H.
  { intros x Hx. apply coded_onestep with 24; [reflexivity|lia|]. change (0 <= 7 < 25). lia. }
  repeat (apply Forall3_cons; [apply H; lia|]). constructor.
Qed.

Lemma encode_lpc_total_witness :
  exists r lo' hi', WebRtcIsacfix_EncodeLpc ex_gains ex_lo ex_hi ex_prefix_st (Some (ex_saved 1)) ex_transcode
    = Some (r, lo', hi').
Proof.
  destruct (encode_chunks_spec ex_prefix (enc_reset (replicate 200 0)) 0 (2 ^ 32 - 1) 0) as (ret & st & E & Hcase).
  - apply enc_reset_inv; [apply Forall_replicate; unfold is_u16; lia|reflexivity].
  - exact (Forall_impl _ chunk_ok_syms ex_prefix_ok).
  - assert (ret = 0 /\ st = ex_prefix_st) as [-> ->] by (vm_compute in E; injection E as <- <-; done).
    destruct Hcase as [(_ & V & W & n & Hi & _ & _)|(? & _)]; [|discriminate].
    assert (2 <= n)%nat as Hn.
    { destruct Hi as [Hr _]. rewrite <- (er_n _ _ _ _ Hr). vm_compute. repeat constructor. }
    destruct (encode_lpc_total ex_gains ex_lo ex_hi ex_prefix_st V W n (ex_saved 1) ex_transcode Hi Hn) as (r & lo' & hi' & E' & _).
    + reflexivity.
    + apply ex_saved_ok. auto.
    + by exists r, lo', hi'.
Defined.

(** C11: The prediction parameters of a frame arrive.  When
    [WebRtcIsacfix_EncodeLpc] succeeds behind any other coded parameters and the
    packet is terminated, the decoder returns the gains and the reflection
    coefficients of both bands that belong to the indices the encoder has
    chosen and kept in the record, whose indices all lie within their tables. *)
Theorem lpc_round_trip chunks gains lo hi s t stream st r lo' hi' len st' ds size :
  Forall chunk_ok chunks -> chunks <> [] -> length gains = Z.to_nat KLT_ORDER_GAIN -> saved_ok s ->
  Forall is_u16 stream -> length stream = Z.to_nat STREAM_MAXW16_60MS ->
  encode_chunks (enc_reset stream) chunks = Some (0, st) ->
  WebRtcIsacfix_EncodeLpc gains lo hi st (Some s) t = Some (r, lo', hi') -> r_status r = 0 ->
  WebRtcIsacfix_EncTerminate (r_stream r) = Some (len, st') ->
  Forall is_u16 ds -> length ds = Z.to_nat INTERNAL_STREAM_SIZE_W16 -> zero_from ds size ->
  (forall i, (i < Z.to_nat len)%nat -> byteat ds i = byteat (e_stream st') i) ->
  exists s' ret dst dst', r_encData r = Some s' /\ saved_ok s' /\
    in_limits (saved_s s') WebRtcIsacfix_kMaxIndShape /\ in_limits (saved_g s') WebRtcIsacfix_kMaxIndGain /\
    decode_chunks (dec_reset ds size) chunks 0 = Some (map ck_data chunks, ret, dst) /\
    WebRtcIsacfix_DecodeLpc dst = Some (lpc_of_indices (saved_s s') (saved_g s'), 0, dst').
Proof.
  intros Hok Hne Hl Hs Hst Hls Ec El Hr Et Hds Hld Hz Hag.
  destruct (EncodeLpc_calls gains lo hi st s t r lo' hi' Hl Hs El Hr) as (s' & st1 & st2 & Es & Hs' & _ & Ls & Lg & E1 & E2 & E3).
  pose proof (transmits_weaken _ _ _ _ (chunks_transmits chunks _ _ Hok Hne Ec)) as T1.
  pose proof (DecodeLpc_transmits _ _ _ _ _ _ Ls Lg E1 E2 E3) as T2.
  pose proof (transmits_keep _ _ _ _ _ _ _ _ T1 T2) as Hk.
  destruct (transmits_packet _ _ _ _ _ len st' ds size Hk Hst Hls Et Hds Hld Hz Hag) as (n & W & ret & dst' & E & Hq & _).
  destruct (dkeep_Some _ _ _ _ _ _ _ E) as (r1 & dst & Ed1 & Ed2). exists s', r1, dst, dst'.
  unfold returns_zero in Hq. rewrite Hq in Ed2. done.
Qed.

Lemma lpc_round_trip_witness :
  exists s' ret dst dst', r_encData ex_lpc.1.1 = Some s' /\
    decode_chunks (dec_reset ex_lpc_packet 200) ex_prefix 0 = Some (map ck_data ex_prefix, ret, dst) /\
    WebRtcIsacfix_DecodeLpc dst = Some (lpc_of_indices (saved_s s') (saved_g s'), 0, dst').
Proof.
  destruct (lpc_round_trip ex_prefix ex_gains ex_lo ex_hi (ex_saved 0) ex_transcode (replicate 200 0) ex_prefix_st
    ex_lpc.1.1 ex_lpc.1.2 ex_lpc.2 ex_lpc_end.1 ex_lpc_end.2 ex_lpc_packet 200) as (s' & ret & dst & dst' & H1 & _ & _ & _ & H2 & H3).
  - exact ex_prefix_ok.
  - done.
  - reflexivity.
  - apply ex_saved_ok. auto.
  - apply Forall_replicate. unfold is_u16. lia.
  - reflexivity.
  - vm_compute. reflexivity.
  - vm_compute. reflexivity.
  - reflexivity.
  - vm_compute. reflexivity.
  - apply (bool_decide_unpack (Forall is_u16 ex_lpc_packet)). vm_compute. exact I.
  - vm_compute. reflexivity.
  - apply (zero_from_tail (take 200 ex_lpc_packet) 105). vm_compute. discriminate.
  - apply bytes_agree. vm_compute. reflexivity.
  - exists s', ret, dst, dst'. split; [exact H1|]. split; [exact H2|exact H3].
Defined.
