(* ===== verification/IsacPacket.v ===== *)
(** Packets of the iSAC codec: building one from stored parameters
    ([WebRtcIsacfix_EncodeStoredData], [IS/encode.c]), its bytes ([write_be16] and
    [read_be16], [IS/isacfix.c]), and reading the parameters of a packet back (the
    bit stream part of [WebRtcIsacfix_DecodeImpl], [IS/decode.c]).

    The packet theorem composes the coders of the parameters: what a packet of
    30 or 60 ms was built from is what the decoder reads out of its bytes. *)
From Stdlib Require Import SpecFloat.
From S2P Require Import Prelude SplInl IsacArith IsacStream IsacEncoder IsacDecoder IsacLogistic IsacTransmit IsacSpectrum IsacTables IsacPitch IsacLar IsacLpc.

Definition FRAMESAMPLES_HALF : Z := 240.
Definition MAX_FRAMESAMPLES : Z := 960.

(** ** Bytes *)

(** [dest]: the bytes written, one more than [nbytes] when that is odd. *)
Definition write_be16 (src : list Z) (nbytes : Z) : list Z :=
  concat (map (fun i => [u8 (arr src i ≫ 8); u8 (arr src i)]) (seqZ 0 (nbytes / 2)))
  ++ (if nbytes mod 2 =? 1 then [u8 (arr src (nbytes / 2) ≫ 8); 0] else []).

Definition read_be16 (src : list Z) (nbytes : Z) (dest : list Z) : list Z :=
  let dest := for_loop (nbytes / 2) (fun i dest =>
    upd dest i (u16 (Z.lor (arr src (2 * i) ≪ 8) (arr src (2 * i + 1))))) dest in
  if nbytes mod 2 =? 1 then upd dest (nbytes / 2) (u16 (arr src (nbytes - 1) ≪ 8)) else dest.

(** The decoder stream of a packet of [nbytes] bytes. *)
Definition packet_stream (encoded : list Z) (nbytes : Z) : Bitstr_dec :=
  let st := InitializeDecoderBitstream nbytes in
  mkDec (read_be16 encoded nbytes (d_stream st)) (d_W_upper st) (d_streamval st) (d_stream_index st) (d_full st)
    (d_stream_size st).

(** ** Single-precision numbers

    IEEE 754 binary32: conversion of an integer (to nearest), product, order,
    and conversion to an integer (towards zero). *)
Definition f32 : Type := spec_float.
Definition f32_of_Z (z : Z) : f32 := binary_normalize 24 128 z 0 false.
Definition f32_mul (x y : f32) : f32 := SFmul 24 128 x y.
Definition f32_ltb (x y : f32) : bool := SFltb x y.
Definition Z_of_f32 (x : f32) : Z :=
  match x with
  | S754_finite s m e =>
      let v := if 0 <=? e then Zpos m * 2 ^ e else Zpos m / 2 ^ (- e) in
      if s then - v else v
  | _ => 0
  end.

(** ** Encoder *)

(** A call that returns a status, and what follows it unless the status is
    negative. *)
Definition ebind (c : option (Z * Bitstr_enc)) (f : Bitstr_enc -> option (Z * Bitstr_enc)) : option (Z * Bitstr_enc) :=
  '(status, st) ← c; if status <? 0 then Some (status, st) else f st.

(** The loop body behind the spectrum, for the frame [ii]. *)
Definition encode_stored_params (s : IsacSaveEncoderData) (index_g : list Z) (ii : Z) (st : Bitstr_enc)
  : option (Z * Bitstr_enc) :=
  ebind (WebRtcIsacfix_EncHistMulti st [arr (pitchGain_index s) ii] [WebRtcIsacfix_kPitchGainCdf]) (fun st =>
  let cdf := cdf (voicing (arr (meanGain s) ii)) in
  ebind (WebRtcIsacfix_EncHistMulti st (cells (pitchIndex s) (PITCH_SUBFRAMES * ii) PITCH_SUBFRAMES) cdf) (fun st =>
  ebind (WebRtcIsacfix_EncHistMulti st [0] WebRtcIsacfix_kModelCdfPtr) (fun st =>
  ebind (WebRtcIsacfix_EncHistMulti st (cells (LPCindex_s s) (KLT_ORDER_SHAPE * ii) KLT_ORDER_SHAPE)
           (nth 0 WebRtcIsacfix_kCdfShapePtr [])) (fun st =>
  WebRtcIsacfix_EncHistMulti st index_g (nth 0 WebRtcIsacfix_kCdfGainPtr []))))).

Definition encode_stored_frame (s : IsacSaveEncoderData) (index_g : Z -> list Z) (tmp_fre tmp_fim : list Z) (ii : Z)
    (st : Bitstr_enc) : option (Z * Bitstr_enc) :=
  ebind (encode_stored_params s (index_g ii) ii st) (fun st =>
    '(_, status, st) ← WebRtcIsacfix_EncodeSpec (cells tmp_fre (ii * FRAMESAMPLES_HALF) FRAMESAMPLES_HALF)
                         (cells tmp_fim (ii * FRAMESAMPLES_HALF) FRAMESAMPLES_HALF) st (arr (AvgPitchGain s) ii);
    Some (status, st)).

Fixpoint encode_stored_frames (s : IsacSaveEncoderData) (index_g : Z -> list Z) (tmp_fre tmp_fim : list Z) (ii : Z)
    (n : nat) (st : Bitstr_enc) : option (Z * Bitstr_enc) :=
  match n with
  | O => Some (0, st)
  | S n => ebind (encode_stored_frame s index_g tmp_fre tmp_fim ii st)
                 (encode_stored_frames s index_g tmp_fre tmp_fim (ii + 1) n)
  end.

(** [tmpLPCcoeffs_g], [tmp_fre] and [tmp_fim]; [junk] is what the first array
    holds when nothing is assigned to it. *)
Definition rescaled (scale : f32) : bool := f32_ltb (f32_of_Z 0) scale && f32_ltb scale (f32_of_Z 1).
Definition scale_cells (scale : f32) (to_int : Z -> Z) (l : list Z) : list Z :=
  map (fun x => to_int (Z_of_f32 (f32_mul scale (f32_of_Z x)))) l.

Definition tmp_gains (s : IsacSaveEncoderData) (scale : f32) (junk : list Z) : list Z :=
  if rescaled scale then scale_cells scale i32 (take (Z.to_nat (KLT_ORDER_GAIN * (1 + startIdx s))) (LPCcoeffs_g s))
  else junk.
Definition tmp_dft (s : IsacSaveEncoderData) (scale : f32) (l : list Z) : list Z :=
  let l := take (Z.to_nat (FRAMESAMPLES_HALF * (1 + startIdx s))) l in
  if rescaled scale then scale_cells scale i16 l else l.

(** [tmpLPCindex_g] of frame [ii], as it is coded. *)
Definition tmp_index_g (s : IsacSaveEncoderData) (scale : f32) (junk : list Z) (ii : Z) : list Z :=
  if f32_ltb scale (f32_of_Z 1)
  then WebRtcIsacfix_TranscodeLpcCoef (cells (tmp_gains s scale junk) (KLT_ORDER_GAIN * ii) KLT_ORDER_GAIN)
  else cells (LPCindex_g s) (KLT_ORDER_GAIN * ii) KLT_ORDER_GAIN.

(** [SaveEnc_ptr] and [bitstr_obj] are the members of the instance the function
    uses.  Returns the packet length or an error. *)
Definition WebRtcIsacfix_EncodeStoredData (SaveEnc_ptr : option IsacSaveEncoderData) (bitstr_obj : Bitstr_enc)
    (BWnumber : Z) (scale : f32) (junk : list Z) : option (Z * Bitstr_enc) :=
  match SaveEnc_ptr with
  | None => Some (-1, bitstr_obj)
  | Some s =>
      if (BWnumber <? 0) || (23 <? BWnumber) then Some (- ISAC_RANGE_ERROR_BW_ESTIMATOR, bitstr_obj)
      else
        ebind (WebRtcIsacfix_EncodeFrameLen (framelength s) (enc_reset (e_stream bitstr_obj))) (fun st =>
        ebind (WebRtcIsacfix_EncodeReceiveBandwidth (i16 BWnumber) st) (fun st =>
        ebind (encode_stored_frames s (tmp_index_g s scale junk) (tmp_dft s scale (fre s)) (tmp_dft s scale (fim s)) 0
                 (Z.to_nat (startIdx s + 1)) st)
          WebRtcIsacfix_EncTerminate))
  end.

(** ** Decoder *)

Definition dmap {A B : Type} (f : A -> B) (d : decoder A) : decoder B :=
  fun st => '(v, ret, st) ← d st; Some (f v, ret, st).

Definition avg_pitch_gain (PitchGains_Q12 : list Z) : Z :=
  i16 (i32 (arr PitchGains_Q12 0 + arr PitchGains_Q12 1 + arr PitchGains_Q12 2 + arr PitchGains_Q12 3) ≫ 2).

(** Pitch gains and lags, prediction parameters and spectrum of a frame. *)
Definition frame : Type := list Z * list Z * (list Z * list Z * list Z * Z) * (list Z * list Z).

(** The calls of one round of the loop; the return value is that of the last. *)
Definition decode_frame : decoder frame :=
  dbind WebRtcIsacfix_DecodePitchGain (fun PitchGains_Q12 =>
  dbind (WebRtcIsacfix_DecodePitchLag PitchGains_Q12) (fun PitchLags_Q7 =>
  dbind WebRtcIsacfix_DecodeLpc (fun lpc =>
  dmap (fun spec => (PitchGains_Q12, PitchLags_Q7, lpc, spec))
    (WebRtcIsacfix_DecodeSpec (avg_pitch_gain PitchGains_Q12))))).

Fixpoint decode_frames (n : nat) (len : Z) : decoder (list frame) := fun st =>
  match n with
  | O => Some ([], len, st)
  | S n =>
      '(f, len, st) ← decode_frame st;
      if len <? 0 then Some ([], len, st)
      else '(fs, len, st) ← decode_frames n len st; Some (f :: fs, len, st)
  end.

(** Frame length, bandwidth index and the parameters of every frame; the return
    value is the number of bytes read or an error. *)
Definition decode_packet : decoder (Z * Z * list frame) :=
  dbind WebRtcIsacfix_DecodeFrameLen (fun current_framesamples =>
  dbind WebRtcIsacfix_DecodeSendBandwidth (fun BWno =>
  dmap (fun frames => (current_framesamples, BWno, frames))
    (decode_frames (S (Z.to_nat (current_framesamples / MAX_FRAMESAMPLES))) 0))).

(** ** Bytes *)

Lemma nth_pairs (a b : Z -> Z) tl n : forall k i, (i < n)%nat ->
  let l := concat (map (fun i => [a i; b i]) (seqZ k (Z.of_nat n))) ++ tl in
  nth (2 * i) l 0 = a (k + Z.of_nat i) /\ nth (2 * i + 1) l 0 = b (k + Z.of_nat i).
Proof.
  induction n as [|n IH]; intros k i Hi; [lia|]. cbn zeta. rewrite seqZ_cons by lia. cbn [map concat app].
  replace (Z.pred (Z.of_nat (S n))) with (Z.of_nat n) by lia. destruct i as [|i].
  - cbn. by rewrite Z.add_0_r.
  - replace (2 * S i)%nat with (S (S (2 * i))) by lia. replace (S (S (2 * i)) + 1)%nat with (S (S (2 * i + 1))) by lia.
    cbn [nth]. replace (k + Z.of_nat (S i)) with (Z.succ k + Z.of_nat i) by lia. apply IH. lia.
Qed.

Lemma length_pairs (a b : Z -> Z) n : forall k,
  length (concat (map (fun i => [a i; b i]) (seqZ k (Z.of_nat n)))) = (2 * n)%nat.
Proof.
  induction n as [|n IH]; intros k; [done|]. rewrite seqZ_cons by lia. cbn [map concat app length].
  replace (Z.pred (Z.of_nat (S n))) with (Z.of_nat n) by lia. rewrite IH. lia.
Qed.

Section Bytes.
Context (src : list Z) (nbytes : Z) (Hsrc : Forall is_u16 src) (Hn : 0 <= nbytes).

Lemma write_be16_pair i : 0 <= i < nbytes / 2 ->
  arr (write_be16 src nbytes) (2 * i) = u8 (arr src i ≫ 8) /\ arr (write_be16 src nbytes) (2 * i + 1) = u8 (arr src i).
Proof.
  intros Hi. unfold write_be16.
  destruct (nth_pairs (fun i => u8 (arr src i ≫ 8)) (fun i => u8 (arr src i))
    (if nbytes mod 2 =? 1 then [u8 (arr src (nbytes / 2) ≫ 8); 0] else []) (Z.to_nat (nbytes / 2)) 0 (Z.to_nat i)) as [H1 H2];
    [lia|]. rewrite Z2Nat.id in H1, H2 by lia. replace (0 + Z.of_nat (Z.to_nat i)) with i in * by lia.
  replace (2 * Z.to_nat i)%nat with (Z.to_nat (2 * i)) in H1 by lia.
  replace (2 * Z.to_nat i + 1)%nat with (Z.to_nat (2 * i + 1)) in H2 by lia. split; [exact H1|exact H2].
Qed.

Lemma write_be16_last : nbytes mod 2 = 1 -> arr (write_be16 src nbytes) (nbytes - 1) = u8 (arr src (nbytes / 2) ≫ 8).
Proof.
  intros Ho. unfold write_be16, arr at 1. rewrite Ho. cbn [Z.eqb Pos.eqb].
  pose proof (length_pairs (fun i => u8 (arr src i ≫ 8)) (fun i => u8 (arr src i)) (Z.to_nat (nbytes / 2)) 0) as Hl.
  rewrite Z2Nat.id in Hl by (Z.div_mod_to_equations; lia). rewrite app_nth2; rewrite Hl; [|Z.div_mod_to_equations; lia].
  replace (Z.to_nat (nbytes - 1) - 2 * Z.to_nat (nbytes / 2))%nat with 0%nat by (Z.div_mod_to_equations; lia). done.
Qed.

Let ds := read_be16 (write_be16 src nbytes) nbytes (replicate (Z.to_nat INTERNAL_STREAM_SIZE_W16) 0).

(** The words read: those written, the last one without its low byte when the
    number of bytes is odd, zeros behind. *)
Lemma read_write_words : nbytes <= 2 * INTERNAL_STREAM_SIZE_W16 ->
  length ds = Z.to_nat INTERNAL_STREAM_SIZE_W16 /\ Forall is_u16 ds /\
  (forall i, 0 <= i < nbytes / 2 -> arr ds i = arr src i) /\
  (nbytes mod 2 = 1 -> arr ds (nbytes / 2) = arr src (nbytes / 2) / 256 * 256) /\
  (forall i, (nbytes + 1) / 2 <= i -> arr ds i = 0).
Proof.
  intros Hb. unfold INTERNAL_STREAM_SIZE_W16, STREAM_MAXW16 in Hb.
  assert (forall i, is_u16 (arr src i)) as Hw by (intros i; apply arr_Forall; [cint|done]).
  unfold ds, read_be16. set (z := replicate _ 0). set (f := fun (i : Z) dest => _). set (d := for_loop _ f z).
  assert (length d = 305%nat /\ Forall is_u16 d /\ (forall i, 0 <= i < nbytes / 2 -> arr d i = arr src i) /\
    (forall i, nbytes / 2 <= i -> arr d i = 0)) as (Hl & Hf & Hin & Hout).
  { unfold d. apply (for_loop_ind (fun j d => length d = 305%nat /\ Forall is_u16 d /\
      (forall i, 0 <= i < j -> arr d i = arr src i) /\ (forall i, j <= i -> arr d i = 0))).
    - Z.div_mod_to_equations; lia.
    - split; [done|]. split; [apply Forall_replicate; cint|]. split; [intros; lia|].
      intros i _. apply (arr_Forall (fun x => x = 0)); [done|by apply Forall_replicate].
    - intros j dj Hj (Hl & Hf & Hin & Hout). unfold f. rewrite length_upd. split; [done|].
      split; [apply Forall_upd; [done|apply u16_range]|].
      destruct (write_be16_pair j Hj) as [-> ->]. specialize (Hw j).
      assert (u16 (Z.lor (u8 (arr src j ≫ 8) ≪ 8) (u8 (arr src j))) = arr src j) as ->.
      { rewrite Z.shiftl_mul_pow2, shiftr_div by lia. rewrite lor_disjoint with (k := 8); [cint|lia|..].
        - apply Z_mod_mult.
        - cint. }
      split; intros i Hi.
      + destruct (Z.eq_dec i j) as [->|]; [by rewrite arr_upd_eq by (Z.div_mod_to_equations; lia)|].
        rewrite arr_upd_ne by lia. apply Hin. lia.
      + rewrite arr_upd_ne by lia. apply Hout. lia. }
  assert (nbytes mod 2 = 0 \/ nbytes mod 2 = 1) as [Ho|Ho] by (Z.div_mod_to_equations; lia); rewrite Ho; cbn [Z.eqb Pos.eqb].
  - split; [done|]. split; [done|]. split; [done|]. split; [done|]. intros i Hi. apply Hout. Z.div_mod_to_equations; lia.
  - rewrite write_be16_last by done. rewrite length_upd. split; [done|]. split; [apply Forall_upd; [done|apply u16_range]|].
    split; [intros i Hi; rewrite arr_upd_ne by lia; by apply Hin|]. split.
    + intros _. rewrite arr_upd_eq by (Z.div_mod_to_equations; lia). specialize (Hw (nbytes / 2)).
      rewrite Z.shiftl_mul_pow2, shiftr_div by lia. generalize dependent (arr src (nbytes / 2)). intros w Hw. cint.
    + intros i Hi. rewrite arr_upd_ne by (Z.div_mod_to_equations; lia). apply Hout. Z.div_mod_to_equations; lia.
Qed.

(** Every byte of the packet, and nothing else, reaches the decoder. *)
Lemma read_write_bytes : nbytes <= 2 * INTERNAL_STREAM_SIZE_W16 ->
  (forall i, (i < Z.to_nat nbytes)%nat -> byteat ds i = byteat src i) /\ zero_from ds ((nbytes + 1) ≫ 1).
Proof.
  intros Hb. destruct (read_write_words Hb) as (Hl & Hf & Hin & Hlast & Hout). split.
  - intros i Hi. unfold byteat. pose proof (Nat.div_mod_eq i 2) as Hd. pose proof (Nat.mod_upper_bound i 2 ltac:(lia)) as Hm.
    destruct (Z_lt_le_dec (Z.of_nat (i / 2)) (nbytes / 2)) as [Hlt|Hge].
    + specialize (Hin (Z.of_nat (i / 2)) ltac:(lia)). unfold arr in Hin. rewrite Nat2Z.id in Hin. by rewrite Hin.
    + assert (nbytes mod 2 = 1 /\ Z.of_nat (i / 2) = nbytes / 2 /\ (i mod 2 = 0)%nat) as (Ho & He & He2)
        by (Z.div_mod_to_equations; lia).
      specialize (Hlast Ho). rewrite <- He in Hlast. unfold arr in Hlast. rewrite Nat2Z.id in Hlast.
      rewrite Hlast, (proj2 (Nat.even_spec i)) by (exists (i / 2)%nat; lia). by rewrite Z.div_mul.
  - intros i c Hi Hc. rewrite shiftr_div in Hi by lia. change (2 ^ 1) with 2 in Hi. unfold cell in Hc.
    destruct (0 <=? i); [|done]. rewrite <- (Hout i Hi). unfold arr. by rewrite (nth_lookup_Some _ _ _ _ Hc).
Qed.
End Bytes.

(** ** Stored frames *)

Definition stored_gains (s : IsacSaveEncoderData) (ii : Z) : list Z := default [] (gains_of (arr (pitchGain_index s) ii)).

(** What the encoder stores for frame [ii]: indices within their tables, the
    mean gain and the average of the gains that belong to the gain index, and a
    spectrum within range.  [fr] and [fi] are the spectrum as it is coded. *)
Record frame_ok (s : IsacSaveEncoderData) (index_g fr fi : list Z) (ii : Z) : Prop := {
  fo_gain : 0 <= arr (pitchGain_index s) ii < 144;
  fo_mean : arr (meanGain s) ii = mean_gain (stored_gains s ii);
  fo_avg : arr (AvgPitchGain s) ii = avg_pitch_gain (stored_gains s ii);
  fo_lag : exists x0 x1 x2 x3, cells (pitchIndex s) (PITCH_SUBFRAMES * ii) PITCH_SUBFRAMES = [x0; x1; x2; x3] /\
    let c := voicing (arr (meanGain s) ii) in
    0 <= x0 < lag_count c 0 /\ 0 <= x1 < lag_count c 1 /\ 0 <= x2 < lag_count c 2 /\ 0 <= x3 < lag_count c 3;
  fo_shape : in_limits (cells (LPCindex_s s) (KLT_ORDER_SHAPE * ii) KLT_ORDER_SHAPE) WebRtcIsacfix_kMaxIndShape;
  fo_gains : in_limits index_g WebRtcIsacfix_kMaxIndGain;
  fo_fre : spectrum_ok fr;
  fo_fim : spectrum_ok fi
}.

(** The parameters of frame [ii] in front of the spectrum, as the decoder
    reconstructs them. *)
Definition frame_params (s : IsacSaveEncoderData) (index_g : list Z) (ii : Z)
  : list Z * list Z * (list Z * list Z * list Z * Z) :=
  let gains := stored_gains s ii in
  let lags := default [] (lags_of (voicing (mean_gain gains)) (cells (pitchIndex s) (PITCH_SUBFRAMES * ii) PITCH_SUBFRAMES)) in
  (gains, lags, lpc_of_indices (cells (LPCindex_s s) (KLT_ORDER_SHAPE * ii) KLT_ORDER_SHAPE) index_g).

(** The decoder of these parameters. *)
Definition decode_params : decoder (list Z * list Z * (list Z * list Z * list Z * Z)) :=
  dbind WebRtcIsacfix_DecodePitchGain (fun g =>
  dbind (WebRtcIsacfix_DecodePitchLag g) (fun l => dbind WebRtcIsacfix_DecodeLpc (fun p => dret (g, l, p)))).

Lemma ebind_inv c f r' st' : ebind c f = Some (r', st') -> 0 <= r' ->
  exists r st1, c = Some (r, st1) /\ 0 <= r /\ f st1 = Some (r', st').
Proof.
  unfold ebind. destruct c as [[r st1]|]; [|done]. cbn [mbind option_bind].
  destruct (Z.ltb_spec r 0); [intros [= -> <-]; lia|]. intros E _. by exists r, st1.
Qed.

Lemma hist_inv st data tbls f r' st' : ebind (WebRtcIsacfix_EncHistMulti st data tbls) f = Some (r', st') -> 0 <= r' ->
  exists st1, WebRtcIsacfix_EncHistMulti st data tbls = Some (0, st1) /\ f st1 = Some (r', st').
Proof.
  intros E Hr'. apply ebind_inv in E as (r & st1 & E & Hr & Ef); [|done]. exists st1. split; [|done].
  by rewrite (EncHist_nonneg _ _ _ _ _ E Hr) in E.
Qed.

Lemma stored_params_transmits s index_g fr fi ii st st' : frame_ok s index_g fr fi ii ->
  encode_stored_params s index_g ii st = Some (0, st') ->
  transmits no_error st st' decode_params (frame_params s index_g ii).
Proof.
  intros [Hg Hm _ (x0 & x1 & x2 & x3 & Ex & R0 & R1 & R2 & R3) Hs Hgi _ _]. unfold encode_stored_params. rewrite Ex.
  intros (st1 & E1 & E)%hist_inv; [|done]. apply hist_inv in E as (st2 & E2 & E); [|done].
  apply hist_inv in E as (st3 & E3 & E); [|done]. apply hist_inv in E as (st4 & E4 & E5); [|done]. destruct (gains_of_Some _ Hg) as [g Eg].
  unfold frame_params, stored_gains in *. rewrite Ex. rewrite Hm in E2, R0, R1, R2, R3. rewrite Eg in *. cbn [default from_option id] in *.
  destruct (lag_index_ok (voicing (mean_gain g)) x0 x1 x2 x3 (voicing_ok _) R0 R1 R2 R3) as ((l & El) & _). rewrite El.
  cbn [default from_option id].
  eapply transmits_bind; [exact (DecodePitchGain_transmits _ g st st1 Hg Eg E1)|].
  eapply transmits_bind; [exact (DecodePitchLag_transmits g x0 x1 x2 x3 l st1 st2 R0 R1 R2 R3 El E2)|].
  eapply transmits_bind; [exact (transmits_zero _ _ _ _ (DecodeLpc_transmits _ _ _ _ _ _ Hs Hgi E3 E4 E5))|].
  apply transmits_ret.
Qed.

(** Statuses: a nonnegative one is 0. *)
Lemma stored_params_status s index_g ii st r st' : encode_stored_params s index_g ii st = Some (r, st') -> 0 <= r -> r = 0.
Proof.
  unfold encode_stored_params. intros E Hr. apply hist_inv in E as (st1 & _ & E); [|done]. apply hist_inv in E as (st2 & _ & E); [|done].
  apply hist_inv in E as (st3 & _ & E); [|done]. apply hist_inv in E as (st4 & _ & E); [|done].
  exact (EncHist_nonneg _ _ _ _ _ E Hr).
Qed.

(** ** Spectrum of a stored frame *)

(** The widths the spectrum is coded with are at least 52. *)
Definition wide_spec (fr fi : list Z) (apg : Z) (st : Bitstr_enc) : Prop := forall ar gain sta env,
  encode_model (spec_data fr fi (e_W_upper st) apg) st = Some (inr (ar, gain, sta)) ->
  CalcRootInvArSpec ar gain = Some env -> Forall (fun e => 52 <= e) env.

(** The spectrum is coded as [xs], which is the dithered and rounded spectrum up
    to clipping, and the decoder's output [out] is [xs] scaled. *)
Definition spec_coded (fr fi : list Z) (apg : Z) (st st' : Bitstr_enc) (out : list Z * list Z) : Prop :=
  let data := spec_data fr fi (e_W_upper st) apg in
  exists ar gain sta env xs, encode_model data st = Some (inr (ar, gain, sta)) /\
    CalcRootInvArSpec ar gain = Some env /\ WebRtcIsacfix_EncodeSpec fr fi st apg = Some (xs, 0, st') /\
    (forall k, 0 <= k < FRAMESAMPLES -> -63 <= arr data k - interleaved fr fi k <= 64) /\
    samples_rel (fun e x x' => clipped x e x') env 0 data xs /\ out = scale_spec apg (CalcInvArSpec ar gain) xs.

Lemma EncLogistic_status st data env xs r st' : WebRtcIsacfix_EncLogisticMulti2 st data env = Some (xs, r, st') ->
  r = 0 \/ r = - ISAC_DISALLOWED_BITSTREAM_LENGTH.
Proof.
  unfold WebRtcIsacfix_EncLogisticMulti2. destruct (enc_logistic_loop _ _ _ _ _) as [[ys [l|l]]|]; [..|done];
    cbn [mbind option_bind enc_finish]; intros [= <- <- <-]; auto.
Qed.

Lemma EncodeSpec_inv fr fi apg st V W n xs r st' : enc_inv st V W n ->
  WebRtcIsacfix_EncodeSpec fr fi st apg = Some (xs, r, st') -> 0 <= r ->
  r = 0 /\ exists ar gain sta env, encode_model (spec_data fr fi (e_W_upper st) apg) st = Some (inr (ar, gain, sta)) /\
    CalcRootInvArSpec ar gain = Some env.
Proof.
  intros Hi. unfold WebRtcIsacfix_EncodeSpec. generalize (spec_data fr fi (e_W_upper st) apg) as data. intros data.
  cbn zeta. destruct (encode_model_some data st V W n Hi) as (m & E & Hm). revert E Hm.
  pose proof EncLogistic_status as Hl. revert Hl.
  generalize encode_model as model, CalcRootInvArSpec as root, WebRtcIsacfix_EncLogisticMulti2 as logistic.
  intros model root logistic Hl E Hm. rewrite E. cbn [mbind option_bind]. destruct m as [[status stm]|[[ar gain] sta] ].
  - intros [= <- -> <-] Hr. destruct Hm as [-> | ->]; [|lia]. unfold ISAC_DISALLOWED_BITSTREAM_LENGTH in Hr. lia.
  - destruct (root ar gain) as [env|] eqn:Er; [|done]. cbn [mbind option_bind].
    destruct (logistic sta data env) as [[[ys s1] st1]|] eqn:El; [|done]. cbn [mbind option_bind].
    intros [= <- <- <-] Hr. split; [|by exists ar, gain, sta, env].
    apply Hl in El as [-> | ->]; [done|]. exfalso. vm_compute in Hr. by apply Hr.
Qed.

Lemma stored_spec_transmits fr fi apg st V W n xs r st' : enc_inv st V W n ->
  spectrum_ok fr -> spectrum_ok fi -> apg <= 3891 -> wide_spec fr fi apg st ->
  WebRtcIsacfix_EncodeSpec fr fi st apg = Some (xs, r, st') -> 0 <= r ->
  r = 0 /\ exists out, spec_coded fr fi apg st st' out /\
    transmits stream_length st st' (WebRtcIsacfix_DecodeSpec apg) out.
Proof.
  intros Hi Hfr Hfi Ha Hw Es Hr. destruct (EncodeSpec_inv _ _ _ _ _ _ _ _ _ _ Hi Es Hr) as (-> & ar & gain & sta & env & Em & Er).
  split; [done|]. specialize (Hw ar gain sta env Em Er).
  destruct (EncodeSpec_transmits fr fi apg st sta st' ar gain env xs Hfr Hfi Ha Em Er Hw Es V W n Hi) as [Hx Hcl].
  eexists. split; [|exact Hx]. exists ar, gain, sta, env, xs. split; [done|]. split; [done|]. split; [done|].
  split; [apply (spec_data_ok fr fi (e_W_upper st) apg Hfr Hfi Ha)|]. by split.
Qed.

(** The pitch gains of the tables are small enough for the dither. *)
Lemma avg_gain_small i g : 0 <= i < 144 -> gains_of i = Some g -> avg_pitch_gain g <= 3891.
Proof.
  intros Hi E. pose proof (all_below (fun i => match gains_of i with Some g => avg_pitch_gain g <=? 3891 | None => false end) 144 i) as H.
  cbn beta in H. rewrite E in H. apply Z.leb_le, H; [|done]. vm_compute. reflexivity.
Qed.

(** ** Frames *)

Section Frames.
Context (s : IsacSaveEncoderData) (index_g : Z -> list Z) (tmp_fre tmp_fim : list Z).

(** The spectrum of frame [ii]. *)
Definition frame_fr (ii : Z) : list Z := cells tmp_fre (ii * FRAMESAMPLES_HALF) FRAMESAMPLES_HALF.
Definition frame_fi (ii : Z) : list Z := cells tmp_fim (ii * FRAMESAMPLES_HALF) FRAMESAMPLES_HALF.

(** What the decoder returns for the frames from [ii] on. *)
Fixpoint frames_coded (ii : Z) (fs : list frame) (st st' : Bitstr_enc) : Prop :=
  match fs with
  | [] => st = st'
  | (params, out) :: fs => exists st1 st2,
      encode_stored_params s (index_g ii) ii st = Some (0, st1) /\ params = frame_params s (index_g ii) ii /\
      spec_coded (frame_fr ii) (frame_fi ii) (arr (AvgPitchGain s) ii) st1 st2 out /\ frames_coded (ii + 1) fs st2 st'
  end.

(** Every spectrum is coded with widths of at least 52. *)
Fixpoint wide_frames (ii : Z) (n : nat) (st : Bitstr_enc) : Prop :=
  match n with
  | O => True
  | S n => forall st1, encode_stored_params s (index_g ii) ii st = Some (0, st1) ->
      wide_spec (frame_fr ii) (frame_fi ii) (arr (AvgPitchGain s) ii) st1 /\
      forall xs st2, WebRtcIsacfix_EncodeSpec (frame_fr ii) (frame_fi ii) st1 (arr (AvgPitchGain s) ii) = Some (xs, 0, st2) ->
        wide_frames (ii + 1) n st2
  end.

Lemma decode_frame_read dst p ret1 dst1 out ret2 dst2 : decode_params dst = Some (p, ret1, dst1) -> 0 <= ret1 ->
  WebRtcIsacfix_DecodeSpec (avg_pitch_gain p.1.1) dst1 = Some (out, ret2, dst2) ->
  decode_frame dst = Some ((p, out), ret2, dst2).
Proof.
  unfold decode_params, decode_frame.
  generalize WebRtcIsacfix_DecodePitchGain as dg, WebRtcIsacfix_DecodePitchLag as dl, WebRtcIsacfix_DecodeLpc as dp.
  generalize WebRtcIsacfix_DecodeSpec as dsp. intros dsp dg dl dp E Hr Es.
  apply dbind_inv in E as (g & r1 & st1 & E1 & Hr1 & E); [|done].
  apply dbind_inv in E as (l & r2 & st2 & E2 & Hr2 & E); [|done].
  apply dbind_inv in E as (q & r3 & st3 & E3 & Hr3 & E); [|done]. injection E as <- <- <-.
  unfold dbind, dmap. rewrite E1. bind_simpl. rewrite (proj2 (Z.ltb_ge r1 0)) by lia. rewrite E2. bind_simpl.
  rewrite (proj2 (Z.ltb_ge r2 0)) by lia. rewrite E3. bind_simpl. rewrite (proj2 (Z.ltb_ge r3 0)) by lia.
  cbn [fst] in Es. rewrite Es. by bind_simpl.
Qed.

Lemma stored_frame_transmits ii st V W n r st' : frame_ok s (index_g ii) (frame_fr ii) (frame_fi ii) ii ->
  enc_inv st V W n -> wide_frames ii 1 st ->
  encode_stored_frame s index_g tmp_fre tmp_fim ii st = Some (r, st') -> 0 <= r ->
  r = 0 /\ exists st1 out xs, encode_stored_params s (index_g ii) ii st = Some (0, st1) /\
    WebRtcIsacfix_EncodeSpec (frame_fr ii) (frame_fi ii) st1 (arr (AvgPitchGain s) ii) = Some (xs, 0, st') /\
    spec_coded (frame_fr ii) (frame_fi ii) (arr (AvgPitchGain s) ii) st1 st' out /\
    transmits stream_length st st' decode_frame (frame_params s (index_g ii) ii, out).
Proof.
  intros Hf Hi Hw. unfold encode_stored_frame. fold (frame_fr ii) (frame_fi ii). intros E Hr.
  apply ebind_inv in E as (r1 & st1 & E1 & Hr1 & E); [|done].
  assert (r1 = 0) as -> by exact (stored_params_status _ _ _ _ _ _ E1 Hr1).
  pose proof (stored_params_transmits _ _ _ _ _ _ _ Hf E1) as T1.
  destruct (T1 V W n Hi) as (syms & V1 & W1 & n1 & _ & Hi1 & _). destruct (Hw st1 E1) as [Hw1 _]. clear Hw.
  destruct Hf as [Hg _ Hav _ _ _ Hfr Hfi]. destruct (gains_of_Some _ Hg) as [g Eg].
  assert (arr (AvgPitchGain s) ii = avg_pitch_gain g) as Ea by (rewrite Hav; unfold stored_gains; by rewrite Eg).
  pose proof (avg_gain_small _ _ Hg Eg) as Hs. rewrite <- Ea in Hs.
  destruct (WebRtcIsacfix_EncodeSpec _ _ st1 _) as [[[xs r2] st2]|] eqn:Es; [|done]. cbn [mbind option_bind] in E.
  injection E as -> ->.
  destruct (stored_spec_transmits _ _ _ _ _ _ _ _ _ _ Hi1 Hfr Hfi Hs Hw1 Es Hr) as (-> & out & Hc & T2). split; [done|].
  exists st1, out, xs. split; [done|]. split; [done|]. split; [done|].
  apply (transmits_seq _ _ _ _ _ _ _ _ _ _ _ T1 T2). intros dst s1 dst1 s2 dst2 n' W' D1 Hs1 D2 Hq.
  exists s2. split; [|done]. apply (decode_frame_read dst _ s1 dst1 out s2 dst2 D1 Hs1). 
  assert ((frame_params s (index_g ii) ii).1.1 = g) as -> by (unfold frame_params, stored_gains; cbn [fst]; by rewrite Eg).
  by rewrite <- Ea.
Qed.

Lemma stored_frames_transmits m : forall ii st V W n len r st',
  (forall k, ii <= k <= ii + Z.of_nat m -> frame_ok s (index_g k) (frame_fr k) (frame_fi k) k) ->
  enc_inv st V W n -> wide_frames ii (S m) st ->
  encode_stored_frames s index_g tmp_fre tmp_fim ii (S m) st = Some (r, st') -> 0 <= r ->
  exists fs, length fs = S m /\ frames_coded ii fs st st' /\ transmits stream_length st st' (decode_frames (S m) len) fs.
Proof.
  induction m as [|m IH]; intros ii st V W n len r st' Hf Hi Hw E Hr.
  - cbn [encode_stored_frames] in E. apply ebind_inv in E as (r1 & st1 & E1 & Hr1 & E); [|done]. injection E as <- <-.
    destruct (stored_frame_transmits ii st V W n r1 st1 (Hf ii ltac:(lia)) Hi Hw E1 Hr1)
      as (-> & st0 & out & xs & Ep & _ & Hc & T). exists [(frame_params s (index_g ii) ii, out)].
    split; [done|]. split; [by exists st0, st1|].
    eapply transmits_post; [|exact T]. intros dst ret dst' n' W' Ed Hq. exists ret. split; [|done].
    cbn [decode_frames]. rewrite Ed. bind_simpl. unfold stream_length in Hq. by rewrite (proj2 (Z.ltb_ge ret 0)) by lia.
  - change (encode_stored_frames s index_g tmp_fre tmp_fim ii (S (S m)) st) with
      (ebind (encode_stored_frame s index_g tmp_fre tmp_fim ii st)
        (encode_stored_frames s index_g tmp_fre tmp_fim (ii + 1) (S m))) in E.
    apply ebind_inv in E as (r1 & st1 & E1 & Hr1 & E); [|done].
    assert (wide_frames ii 1 st) as Hw1 by (intros sx Ex; destruct (Hw sx Ex) as [H _]; by split).
    destruct (stored_frame_transmits ii st V W n r1 st1 (Hf ii ltac:(lia)) Hi Hw1 E1 Hr1)
      as (-> & st0 & out & xs & Ep & Es & Hc & T).
    destruct (T V W n Hi) as (syms & V1 & W1 & n1 & _ & Hi1 & _).
    destruct (Hw st0 Ep) as [_ Hw2]. specialize (Hw2 xs st1 Es).
    destruct (IH (ii + 1) st1 V1 W1 n1 0 r st') as (fs & Hl & Hfc & T2); [intros k Hk; apply Hf; lia|done..|].
    exists ((frame_params s (index_g ii) ii, out) :: fs). split; [cbn [length]; lia|]. split; [by exists st0, st1|].
    apply (transmits_seq _ _ _ _ _ _ _ _ _ _ _ (transmits_weaken _ _ _ _ T) T2).
    intros dst s1 dst1 s2 dst2 n' W' D1 Hs1 D2 Hq. exists s2. split; [|done].
    change (decode_frames (S (S m)) len dst) with ('(f, len, st) ← decode_frame dst;
      if len <? 0 then Some ([], len, st) else '(fs, len, st) ← decode_frames (S m) 0 st; Some (f :: fs, len, st)).
    rewrite D1. bind_simpl. rewrite (proj2 (Z.ltb_ge s1 0)) by lia. by rewrite D2.
Qed.
End Frames.

(** ** Packets *)

Lemma transmits_dmap {A B} Q st st' (f : A -> B) d v : transmits Q st st' d v -> transmits Q st st' (dmap f d) (f v).
Proof.
  apply transmits_post. intros dst ret dst' n W E Hq. exists ret. split; [|done]. unfold dmap. by rewrite E.
Qed.

(** The gain indices of a packet are within their tables, whatever the scale. *)
Lemma tmp_index_g_limits s scale junk ii :
  in_limits (cells (LPCindex_g s) (KLT_ORDER_GAIN * ii) KLT_ORDER_GAIN) WebRtcIsacfix_kMaxIndGain ->
  in_limits (tmp_index_g s scale junk ii) WebRtcIsacfix_kMaxIndGain.
Proof.
  intros H. unfold tmp_index_g. destruct (f32_ltb scale (f32_of_Z 1)); [apply quantize_gains_limits|done].
Qed.

(** The calls of a successful [WebRtcIsacfix_EncodeStoredData]. *)
Lemma EncodeStoredData_calls s bitstr BWnumber scale junk len st' :
  WebRtcIsacfix_EncodeStoredData (Some s) bitstr BWnumber scale junk = Some (len, st') -> 0 <= len ->
  0 <= BWnumber < 24 /\ exists st1 st2 st3 r,
    WebRtcIsacfix_EncodeFrameLen (framelength s) (enc_reset (e_stream bitstr)) = Some (0, st1) /\
    WebRtcIsacfix_EncodeReceiveBandwidth BWnumber st1 = Some (0, st2) /\
    encode_stored_frames s (tmp_index_g s scale junk) (tmp_dft s scale (fre s)) (tmp_dft s scale (fim s)) 0
      (Z.to_nat (startIdx s + 1)) st2 = Some (r, st3) /\ 0 <= r /\
    WebRtcIsacfix_EncTerminate st3 = Some (len, st').
Proof.
  unfold WebRtcIsacfix_EncodeStoredData. destruct (Z.ltb_spec BWnumber 0), (Z.ltb_spec 23 BWnumber); cbn [orb];
    try (intros [= <- _]; unfold ISAC_RANGE_ERROR_BW_ESTIMATOR; lia).
  intros E Hl. rewrite (i16_id BWnumber) in E by (unfold is_i16; lia). split; [lia|].
  apply ebind_inv in E as (r1 & st1 & E1 & Hr1 & E); [|done].
  apply ebind_inv in E as (r2 & st2 & E2 & Hr2 & E); [|done].
  apply ebind_inv in E as (r3 & st3 & E3 & Hr3 & E); [|done].
  assert (r2 = 0) as -> by exact (EncHist_nonneg _ _ _ _ _ E2 Hr2).
  assert (r1 = 0) as ->.
  { unfold WebRtcIsacfix_EncodeFrameLen in E1. destruct (_ =? 480); [exact (EncHist_nonneg _ _ _ _ _ E1 Hr1)|].
    destruct (_ =? 960); [exact (EncHist_nonneg _ _ _ _ _ E1 Hr1)|]. injection E1 as <- _.
    unfold ISAC_DISALLOWED_FRAME_MODE_ENCODER in Hr1. lia. }
  by exists st1, st2, st3, r3.
Qed.

(** The bytes of a terminated stream, read back by a decoder. *)
Lemma transmits_bytes {A} Q stream st dec (v : A) len st' :
  transmits Q (enc_reset stream) st dec v -> Forall is_u16 stream -> length stream = Z.to_nat STREAM_MAXW16_60MS ->
  WebRtcIsacfix_EncTerminate st = Some (len, st') ->
  exists n W ret dst, dec (packet_stream (write_be16 (e_stream st') len) len) = Some (v, ret, dst) /\
    Q ret n W /\ stream_length len n W.
Proof.
  intros Ht Hs Hl Et. destruct (Ht 0 (2 ^ 32 - 1) 0%nat (enc_reset_inv stream Hs Hl)) as (syms & V & W & n & _ & Hi & _).
  destruct (decide (n + term_bytes W <= 400)%nat) as [Hle|];
    [|by rewrite (EncTerminate_overrun st V W n Hi ltac:(lia)) in Et].
  destruct (EncTerminate_spec st V W n Hi Hle) as (st2 & E2 & _ & Hu & _). rewrite Et in E2. injection E2 as -> ->.
  set (len := Z.of_nat (n + term_bytes W)) in *.
  assert (0 <= len <= 2 * INTERNAL_STREAM_SIZE_W16) as [H0 Hb]
    by (subst len; unfold INTERNAL_STREAM_SIZE_W16, STREAM_MAXW16; lia).
  destruct (read_write_words _ len Hu H0 Hb) as (Hld & Hds & _). destruct (read_write_bytes _ len Hu H0 Hb) as [Hag Hz].
  exact (transmits_packet Q stream st dec v len st2 _ _ Ht Hs Hl Et Hds Hld Hz Hag).
Qed.

(** The parts of a packet built from well-formed stored parameters. *)
Section StoredPacket.
Context (s : IsacSaveEncoderData) (bitstr : Bitstr_enc) (BWnumber : Z) (scale : f32) (junk : list Z) (len : Z) (st' : Bitstr_enc).
Let tmp_fre := tmp_dft s scale (fre s).
Let tmp_fim := tmp_dft s scale (fim s).
Let index_g := tmp_index_g s scale junk.
Context (Hst : startIdx s = 0 \/ startIdx s = 1) (Hfl : framelength s = FRAMESAMPLES * (startIdx s + 1)).
Context (Hf : forall ii, 0 <= ii <= startIdx s ->
  frame_ok s (cells (LPCindex_g s) (KLT_ORDER_GAIN * ii) KLT_ORDER_GAIN) (frame_fr tmp_fre ii) (frame_fi tmp_fim ii) ii).
Context (Hw : forall st1 st2, WebRtcIsacfix_EncodeFrameLen (framelength s) (enc_reset (e_stream bitstr)) = Some (0, st1) ->
  WebRtcIsacfix_EncodeReceiveBandwidth BWnumber st1 = Some (0, st2) ->
  wide_frames s index_g tmp_fre tmp_fim 0 (Z.to_nat (startIdx s + 1)) st2).
Context (Hs : Forall is_u16 (e_stream bitstr)) (Hl : length (e_stream bitstr) = Z.to_nat STREAM_MAXW16_60MS).
Context (E : WebRtcIsacfix_EncodeStoredData (Some s) bitstr BWnumber scale junk = Some (len, st')) (Hlen : 0 <= len).

Lemma stored_packet_transmits : exists st1 st2 st3 fs, 0 <= BWnumber < 24 /\
  WebRtcIsacfix_EncodeFrameLen (framelength s) (enc_reset (e_stream bitstr)) = Some (0, st1) /\
  WebRtcIsacfix_EncodeReceiveBandwidth BWnumber st1 = Some (0, st2) /\
  transmits stream_length (enc_reset (e_stream bitstr)) st1 WebRtcIsacfix_DecodeFrameLen (framelength s) /\
  transmits stream_length st1 st2 WebRtcIsacfix_DecodeSendBandwidth BWnumber /\
  length fs = Z.to_nat (startIdx s + 1) /\ frames_coded s index_g tmp_fre tmp_fim 0 fs st2 st3 /\
  transmits stream_length st2 st3 (decode_frames (S (Z.to_nat (framelength s / MAX_FRAMESAMPLES))) 0) fs /\
  WebRtcIsacfix_EncTerminate st3 = Some (len, st').
Proof.
  destruct (EncodeStoredData_calls _ _ _ _ _ _ _ E Hlen) as (Hb & st1 & st2 & st3 & r & E1 & E2 & E3 & Hr & Et).
  pose proof (Hw st1 st2 E1 E2) as Hw2. fold tmp_fre tmp_fim index_g in E3.
  pose proof (FrameLen_transmits _ _ _ E1) as T1. pose proof (Bandwidth_transmits _ _ _ Hb E2) as T2.
  destruct (T1 0 (2 ^ 32 - 1) 0%nat (enc_reset_inv _ Hs Hl)) as (s1 & V1 & W1 & n1 & _ & Hi1 & _).
  destruct (T2 V1 W1 n1 Hi1) as (s2 & V2 & W2 & n2 & _ & Hi2 & _).
  replace (Z.to_nat (startIdx s + 1)) with (S (Z.to_nat (startIdx s))) in * by lia.
  destruct (stored_frames_transmits s index_g tmp_fre tmp_fim (Z.to_nat (startIdx s)) 0 st2 V2 W2 n2 0 r st3)
    as (fs & Hlf & Hfc & T3); try done.
  { intros k Hk. destruct (Hf k ltac:(lia)) as [H1 H2 H3 H4 H5 H6 H7 H8]. constructor; try done. by apply tmp_index_g_limits. }
  assert (Z.to_nat (startIdx s) = Z.to_nat (framelength s / MAX_FRAMESAMPLES)) as En
    by (rewrite Hfl; destruct Hst as [-> | ->]; reflexivity).
  rewrite En in T3. exists st1, st2, st3, fs. repeat (split; [assumption|]). assumption.
Qed.
End StoredPacket.

(** C1: Packets.  A packet of one or two frames that
    [WebRtcIsacfix_EncodeStoredData] builds from stored parameters, with any
    bandwidth index and any scale, is read back from its bytes: the decoder
    returns the frame length, the bandwidth index and, for every frame, the
    pitch gains and lags, the prediction gains and coefficients and the spectrum
    that the stored indices stand for, and it reads exactly the bytes of the
    packet.  The stored indices have to lie within their tables and the spectrum
    within range, which the encoder functions ensure, and the spectrum has to be
    coded with widths of at least 52. *)
Theorem packet_round_trip s bitstr BWnumber scale junk len st' :
  startIdx s = 0 \/ startIdx s = 1 -> framelength s = FRAMESAMPLES * (startIdx s + 1) ->
  let tmp_fre := tmp_dft s scale (fre s) in
  let tmp_fim := tmp_dft s scale (fim s) in
  let index_g := tmp_index_g s scale junk in
  (forall ii, 0 <= ii <= startIdx s ->
     frame_ok s (cells (LPCindex_g s) (KLT_ORDER_GAIN * ii) KLT_ORDER_GAIN) (frame_fr tmp_fre ii) (frame_fi tmp_fim ii) ii) ->
  (forall st1 st2, WebRtcIsacfix_EncodeFrameLen (framelength s) (enc_reset (e_stream bitstr)) = Some (0, st1) ->
     WebRtcIsacfix_EncodeReceiveBandwidth BWnumber st1 = Some (0, st2) ->
     wide_frames s index_g tmp_fre tmp_fim 0 (Z.to_nat (startIdx s + 1)) st2) ->
  Forall is_u16 (e_stream bitstr) -> length (e_stream bitstr) = Z.to_nat STREAM_MAXW16_60MS ->
  WebRtcIsacfix_EncodeStoredData (Some s) bitstr BWnumber scale junk = Some (len, st') -> 0 <= len ->
  exists fs stb ste dst, length fs = Z.to_nat (startIdx s + 1) /\
    frames_coded s index_g tmp_fre tmp_fim 0 fs stb ste /\
    decode_packet (packet_stream (write_be16 (e_stream st') len) len) = Some ((framelength s, BWnumber, fs), len, dst).
Proof.
  intros Hst Hfl tmp_fre tmp_fim index_g Hf Hw Hs Hl E Hlen.
  destruct (stored_packet_transmits s bitstr BWnumber scale junk len st' Hst Hfl Hf Hw Hs Hl E Hlen)
    as (st1 & st2 & st3 & fs & Hb & E1 & E2 & T1 & T2 & Hlf & Hfc & T3 & Et).
  apply (transmits_dmap _ _ _ (fun frames => (framelength s, BWnumber, frames))) in T3.
  assert (transmits stream_length (enc_reset (e_stream bitstr)) st3 decode_packet (framelength s, BWnumber, fs)) as T
    by (eapply transmits_bind; [exact (transmits_weaken _ _ _ _ T1)|];
        eapply transmits_bind; [exact (transmits_weaken _ _ _ _ T2)|exact T3]).
  destruct (transmits_bytes _ _ _ _ _ len st' T Hs Hl Et) as (n & W & ret & dst & Ed & Hq & Hlw).
  unfold stream_length in Hq, Hlw. rewrite Hq, <- Hlw in Ed. by exists fs, st2, st3, dst.
Qed.

(** *** A packet, used by the witnesses *)

Definition ex_pitch : Z := Eval vm_compute in gain_comb [1000; 1100; 1200; 900].
Definition ex_pitch_gains : list Z := Eval vm_compute in default [] (gains_of ex_pitch).
Definition ex_lags : list Z := Eval vm_compute in
  map (lag_index (voicing (mean_gain ex_pitch_gains)) [6000; 6100; 6000; 5900]) (seqZ 0 4).
Definition ex_index_s : list Z := Eval vm_compute in quantize_shape (Poly2LarFix ex_lo ORDERLO ex_hi ORDERHI SUBFRAMES).
Definition ex_index_g : list Z := Eval vm_compute in quantize_gains (log_gains ex_gains).
Definition ex_avg : Z := Eval vm_compute in avg_pitch_gain ex_pitch_gains.
Definition ex_mean : Z := Eval vm_compute in mean_gain ex_pitch_gains.

Definition ex_stored : IsacSaveEncoderData := mkSaveEncoderData 0 480 [ex_pitch; 0] [ex_mean; 0]
  (ex_lags ++ replicate 4 0) (ex_gains ++ replicate 12 0) (ex_index_s ++ replicate 108 0) (ex_index_g ++ replicate 12 0)
  (ex_fr ++ replicate 240 0) (ex_fi ++ replicate 240 0) [ex_avg; 0] 0.
Definition ex_header : Bitstr_enc := Eval vm_compute in
  default (enc_reset []) (snd <$> (ebind (WebRtcIsacfix_EncodeFrameLen 480 (enc_reset (replicate 200 0)))
    (WebRtcIsacfix_EncodeReceiveBandwidth 11))).
Definition ex_params : Bitstr_enc := Eval vm_compute in
  default ex_header (snd <$> encode_stored_params ex_stored ex_index_g 0 ex_header).
Definition ex_st_model : list Z * Z * Bitstr_enc := Eval vm_compute in
  from_option model_of ([], 0, ex_params)
    (encode_model (spec_data ex_fr ex_fi (e_W_upper ex_params) ex_avg) ex_params).
Definition ex_st_env : list Z := Eval vm_compute in default [] (CalcRootInvArSpec ex_st_model.1.1 ex_st_model.1.2).
Definition ex_built : Z * Bitstr_enc := Eval vm_compute in
  default (0, ex_params) (WebRtcIsacfix_EncodeStoredData (Some ex_stored) (enc_reset (replicate 200 0)) 11 (f32_of_Z 1) []).

Lemma ex_stored_frame : frame_ok ex_stored ex_index_g ex_fr ex_fi 0.
Proof.
  constructor.
  - change (0 <= ex_pitch < 144). unfold ex_pitch. lia.
  - vm_compute. reflexivity.
  - vm_compute. reflexivity.
  - eexists _, _, _, _. split; [vm_compute; reflexivity|]. vm_compute. intuition discriminate.
  - apply (bool_decide_unpack (Forall2 (fun x m => 0 <= x <= m) ex_index_s WebRtcIsacfix_kMaxIndShape)).
    vm_compute. exact I.
  - apply (bool_decide_unpack (Forall2 (fun x m => 0 <= x <= m) ex_index_g WebRtcIsacfix_kMaxIndGain)).
    vm_compute. exact I.
  - split; [reflexivity|]. apply (bool_decide_unpack (Forall (fun x => -32000 <= x <= 32000) ex_fr)). vm_compute. exact I.
  - split; [reflexivity|]. apply (bool_decide_unpack (Forall (fun x => -32000 <= x <= 32000) ex_fi)). vm_compute. exact I.
Qed.

Lemma ex_wide : wide_spec ex_fr ex_fi ex_avg ex_params.
Proof.
  intros ar gain sta env Em Er.
  assert (encode_model (spec_data ex_fr ex_fi (e_W_upper ex_params) ex_avg) ex_params
    = Some (inr ex_st_model)) as E by (vm_compute; reflexivity).
  rewrite E in Em. injection Em as <- <- <-.
  assert (CalcRootInvArSpec ex_st_model.1.1 ex_st_model.1.2 = Some ex_st_env) as E' by (vm_compute; reflexivity).
  change (CalcRootInvArSpec ex_st_model.1.1 ex_st_model.1.2 = Some env) in Er. rewrite E' in Er. injection Er as <-.
  apply (bool_decide_unpack (Forall (fun e => 52 <= e) ex_st_env)). vm_compute. exact I.
Qed.

Lemma ex_packet_wide st1 st2 :
  WebRtcIsacfix_EncodeFrameLen 480 (enc_reset (replicate 200 0)) = Some (0, st1) ->
  WebRtcIsacfix_EncodeReceiveBandwidth 11 st1 = Some (0, st2) ->
  wide_frames ex_stored (tmp_index_g ex_stored (f32_of_Z 1) []) (tmp_dft ex_stored (f32_of_Z 1) (fre ex_stored))
    (tmp_dft ex_stored (f32_of_Z 1) (fim ex_stored)) 0 1 st2.
Proof.
  intros E1 E2 stp Ep.
  assert (st2 = ex_header) as ->.
  { assert (st1 = default (enc_reset []) (snd <$> WebRtcIsacfix_EncodeFrameLen 480 (enc_reset (replicate 200 0)))) as ->
      by (by rewrite E1).
    vm_compute in E2. injection E2 as <-. reflexivity. }
  assert (stp = ex_params) as -> by (vm_compute in Ep; injection Ep as <-; reflexivity).
  split; [exact ex_wide|]. intros xs st3 _. exact I.
Qed.

Lemma packet_round_trip_witness :
  exists fs dst, length fs = 1%nat /\
    decode_packet (packet_stream (write_be16 (e_stream ex_built.2) 322) 322) = Some ((480, 11, fs), 322, dst).
Proof.
  destruct (packet_round_trip ex_stored (enc_reset (replicate 200 0)) 11 (f32_of_Z 1) [] 322 ex_built.2)
    as (fs & stb & ste & dst & Hl & _ & H).
  - left. reflexivity.
  - reflexivity.
  - intros ii Hii. assert (ii = 0) as -> by (change (startIdx ex_stored) with 0 in Hii; lia). exact ex_stored_frame.
  - exact ex_packet_wide.
  - apply Forall_replicate. unfold is_u16. lia.
  - reflexivity.
  - vm_compute. reflexivity.
  - lia.
  - exists fs, dst. split; [exact Hl|exact H].
Defined.

(** Errors of [WebRtcIsacfix_EncodeStoredData].  Without stored data, or
    with a bandwidth index outside 0 .. 23, it reports the error and leaves the
    stream alone; a frame length other than 480 and 960 is reported and nothing
    is coded.  A scale of 0 or below is not treated as a scale (the spectrum is
    coded as stored), yet the gain indices are computed anew, from an array that
    was never assigned: the same call gives packets of different contents for
    different contents of that array. *)
Theorem stored_data_errors :
  (forall bitstr BWnumber scale junk,
     WebRtcIsacfix_EncodeStoredData None bitstr BWnumber scale junk = Some (-1, bitstr)) /\
  (forall s bitstr BWnumber scale junk, BWnumber < 0 \/ 23 < BWnumber ->
     WebRtcIsacfix_EncodeStoredData (Some s) bitstr BWnumber scale junk = Some (- ISAC_RANGE_ERROR_BW_ESTIMATOR, bitstr)) /\
  (forall s bitstr BWnumber scale junk, 0 <= BWnumber <= 23 -> framelength s <> 480 -> framelength s <> 960 ->
     WebRtcIsacfix_EncodeStoredData (Some s) bitstr BWnumber scale junk
     = Some (- ISAC_DISALLOWED_FRAME_MODE_ENCODER, enc_reset (e_stream bitstr))) /\
  (exists s bitstr scale, rescaled scale = false /\ f32_ltb scale (f32_of_Z 1) = true /\
     exists junk1 junk2 len1 st1 len2 st2, length junk1 = 24%nat /\ length junk2 = 24%nat /\
       WebRtcIsacfix_EncodeStoredData (Some s) bitstr 11 scale junk1 = Some (len1, st1) /\ 0 < len1 /\
       WebRtcIsacfix_EncodeStoredData (Some s) bitstr 11 scale junk2 = Some (len2, st2) /\ 0 < len2 /\
       write_be16 (e_stream st1) len1 <> write_be16 (e_stream st2) len2).
Proof.
  split; [done|]. split; [|split].
  - intros s bitstr BW scale junk H. unfold WebRtcIsacfix_EncodeStoredData.
    destruct (Z.ltb_spec BW 0), (Z.ltb_spec 23 BW); cbn [orb]; (done || lia).
  - intros s bitstr BW scale junk H H1 H2. unfold WebRtcIsacfix_EncodeStoredData, WebRtcIsacfix_EncodeFrameLen.
    rewrite (proj2 (Z.ltb_ge BW 0)), (proj2 (Z.ltb_ge 23 BW)), (proj2 (Z.eqb_neq _ 480)), (proj2 (Z.eqb_neq _ 960)) by lia.
    done.
  - exists ex_stored, (enc_reset (replicate 200 0)), (f32_of_Z 0). split; [reflexivity|]. split; [reflexivity|].
    exists (replicate 24 0), (replicate 24 1000000). do 4 eexists. split; [done|]. split; [done|].
    split; [vm_compute; reflexivity|]. split; [reflexivity|]. split; [vm_compute; reflexivity|]. split; [reflexivity|].
    vm_compute. discriminate.
Qed.

Lemma stored_data_errors_witness :
  WebRtcIsacfix_EncodeStoredData (Some (ex_saved 0)) (enc_reset (replicate 200 0)) 24 (f32_of_Z 1) []
  = Some (- ISAC_RANGE_ERROR_BW_ESTIMATOR, enc_reset (replicate 200 0)).
Proof. apply (proj1 (proj2 stored_data_errors)). lia. Defined.
