(* ===== verification/IsacBwe.v ===== *)
(** The bandwidth estimator of the fixed-point iSAC codec:
    [bandwidth_estimator.c], the structs [BwEstimatorstr] and [RateModel] of
    [structs.h], and [decode_bwe.c], all in
    [modules/audio_coding/codecs/isac/fix/source].

    An operation on the estimator is a function on its record.  [None] is an
    operation C does not define: a division by zero, a shift by more than the
    width, a failed [RTC_DCHECK]. *)
From S2P Require Import Prelude SplInl SplMath IsacArith IsacLogistic IsacTransmit IsacPitch.

Definition FS_1_HALF : Z := 24000.
Definition FS3 : Z := 48000.
Definition FS8 : Z := 128000.
Definition SAMPLES_PER_MSEC : Z := 16.
Definition FRAMESAMPLES_10ms : Z := 160.
Definition MIN_ISAC_BW : Z := 10000.
Definition MAX_ISAC_BW : Z := 32000.
Definition MIN_ISAC_MD : Z := 5.
Definition MAX_ISAC_MD : Z := 25.
Definition DELAY_CORRECTION_MAX : Z := 717.
Definition DELAY_CORRECTION_MED : Z := 819.
Definition Thld_30_60 : Z := 18000.
Definition Thld_60_30 : Z := 27000.
Definition HEADER_SIZE : Z := 35.
Definition INIT_FRAME_LEN : Z := 60.
Definition INIT_BN_EST : Z := 20000.
Definition INIT_BN_EST_Q7 : Z := 2560000.
Definition INIT_REC_BN_EST_Q5 : Z := 789312.
Definition INIT_HDR_RATE : Z := 4666.
Definition BURST_LEN : Z := 3.
Definition BURST_INTERVAL : Z := 800.
Definition INIT_BURST_LEN : Z := 5.
Definition INIT_RATE : Z := 10240000.

Definition kQRateTable : list Z :=
  [10000; 11115; 12355; 13733; 15265; 16967; 18860; 20963; 23301; 25900; 28789; 32000].
Definition KQRate01 : list Z :=
  [65536000; 72843264; 80969728; 90000589; 100040704; 111194931;
   123600896; 137383117; 152705434; 169738240; 188671590; 209715200].
Definition kBitsByteSec : Z := 4369000.
Definition kRecHeaderRate : list Z := [9333; 4666].
Definition kInvBandwidth : list Z := [55539; 25978; 73213; 29284].
Definition kSamplesIn25msec : Z := 400.

(** Division, undefined at zero; a right shift of a 32-bit value, undefined
    from 32 on. *)
Definition cdiv (a b : Z) : option Z := if b =? 0 then None else Some (Z.quot a b).
Definition shr32 (a n : Z) : option Z := if (0 <=? n) && (n <? 32) then Some (a ≫ n) else None.

Record IsacBandwidthInfo := mkBwInfo {
  in_use : Z;
  send_bw_avg : Z;
  send_max_delay_avg : Z;
  bottleneck_idx : Z;
  jitter_info : Z
}.

Record BwEstimatorstr := mkBwe {
  prevFrameSizeMs : Z;
  prevRtpNumber : Z;
  prevSendTime : Z;
  prevArrivalTime : Z;
  prevRtpRate : Z;
  lastUpdate : Z;
  lastReduction : Z;
  countUpdates : Z;
  recBw : Z;
  recBwInv : Z;
  recBwAvg : Z;
  recBwAvgQ : Z;
  minBwInv : Z;
  maxBwInv : Z;
  recJitter : Z;
  recJitterShortTerm : Z;
  recJitterShortTermAbs : Z;
  recMaxDelay : Z;
  recMaxDelayAvgQ : Z;
  recHeaderRate : Z;
  sendBwAvg : Z;
  sendMaxDelayAvg : Z;
  countRecPkts : Z;
  highSpeedRec : Z;
  countHighSpeedRec : Z;
  inWaitPeriod : Z;
  startWaitPeriod : Z;
  countHighSpeedSent : Z;
  highSpeedSend : Z;
  external_bw_info : IsacBandwidthInfo
}.

Section Setters.
Variable s : BwEstimatorstr.
Definition set_prevFrameSizeMs (v : Z) : BwEstimatorstr :=
  mkBwe v (prevRtpNumber s) (prevSendTime s) (prevArrivalTime s) (prevRtpRate s) (lastUpdate s)
  (lastReduction s) (countUpdates s) (recBw s) (recBwInv s) (recBwAvg s) (recBwAvgQ s)
  (minBwInv s) (maxBwInv s) (recJitter s) (recJitterShortTerm s) (recJitterShortTermAbs s)
  (recMaxDelay s) (recMaxDelayAvgQ s) (recHeaderRate s) (sendBwAvg s) (sendMaxDelayAvg s)
  (countRecPkts s) (highSpeedRec s) (countHighSpeedRec s) (inWaitPeriod s) (startWaitPeriod s)
  (countHighSpeedSent s) (highSpeedSend s) (external_bw_info s).
Definition set_prevRtpNumber (v : Z) : BwEstimatorstr :=
  mkBwe (prevFrameSizeMs s) v (prevSendTime s) (prevArrivalTime s) (prevRtpRate s)
  (lastUpdate s) (lastReduction s) (countUpdates s) (recBw s) (recBwInv s) (recBwAvg s)
  (recBwAvgQ s) (minBwInv s) (maxBwInv s) (recJitter s) (recJitterShortTerm s)
  (recJitterShortTermAbs s) (recMaxDelay s) (recMaxDelayAvgQ s) (recHeaderRate s) (sendBwAvg s)
  (sendMaxDelayAvg s) (countRecPkts s) (highSpeedRec s) (countHighSpeedRec s) (inWaitPeriod s)
  (startWaitPeriod s) (countHighSpeedSent s) (highSpeedSend s) (external_bw_info s).
Definition set_prevSendTime (v : Z) : BwEstimatorstr :=
  mkBwe (prevFrameSizeMs s) (prevRtpNumber s) v (prevArrivalTime s) (prevRtpRate s)
  (lastUpdate s) (lastReduction s) (countUpdates s) (recBw s) (recBwInv s) (recBwAvg s)
  (recBwAvgQ s) (minBwInv s) (maxBwInv s) (recJitter s) (recJitterShortTerm s)
  (recJitterShortTermAbs s) (recMaxDelay s) (recMaxDelayAvgQ s) (recHeaderRate s) (sendBwAvg s)
  (sendMaxDelayAvg s) (countRecPkts s) (highSpeedRec s) (countHighSpeedRec s) (inWaitPeriod s)
  (startWaitPeriod s) (countHighSpeedSent s) (highSpeedSend s) (external_bw_info s).
Definition set_prevArrivalTime (v : Z) : BwEstimatorstr :=
  mkBwe (prevFrameSizeMs s) (prevRtpNumber s) (prevSendTime s) v (prevRtpRate s) (lastUpdate s)
  (lastReduction s) (countUpdates s) (recBw s) (recBwInv s) (recBwAvg s) (recBwAvgQ s)
  (minBwInv s) (maxBwInv s) (recJitter s) (recJitterShortTerm s) (recJitterShortTermAbs s)
  (recMaxDelay s) (recMaxDelayAvgQ s) (recHeaderRate s) (sendBwAvg s) (sendMaxDelayAvg s)
  (countRecPkts s) (highSpeedRec s) (countHighSpeedRec s) (inWaitPeriod s) (startWaitPeriod s)
  (countHighSpeedSent s) (highSpeedSend s) (external_bw_info s).
Definition set_prevRtpRate (v : Z) : BwEstimatorstr :=
  mkBwe (prevFrameSizeMs s) (prevRtpNumber s) (prevSendTime s) (prevArrivalTime s) v
  (lastUpdate s) (lastReduction s) (countUpdates s) (recBw s) (recBwInv s) (recBwAvg s)
  (recBwAvgQ s) (minBwInv s) (maxBwInv s) (recJitter s) (recJitterShortTerm s)
  (recJitterShortTermAbs s) (recMaxDelay s) (recMaxDelayAvgQ s) (recHeaderRate s) (sendBwAvg s)
  (sendMaxDelayAvg s) (countRecPkts s) (highSpeedRec s) (countHighSpeedRec s) (inWaitPeriod s)
  (startWaitPeriod s) (countHighSpeedSent s) (highSpeedSend s) (external_bw_info s).
Definition set_lastUpdate (v : Z) : BwEstimatorstr :=
  mkBwe (prevFrameSizeMs s) (prevRtpNumber s) (prevSendTime s) (prevArrivalTime s)
  (prevRtpRate s) v (lastReduction s) (countUpdates s) (recBw s) (recBwInv s) (recBwAvg s)
  (recBwAvgQ s) (minBwInv s) (maxBwInv s) (recJitter s) (recJitterShortTerm s)
  (recJitterShortTermAbs s) (recMaxDelay s) (recMaxDelayAvgQ s) (recHeaderRate s) (sendBwAvg s)
  (sendMaxDelayAvg s) (countRecPkts s) (highSpeedRec s) (countHighSpeedRec s) (inWaitPeriod s)
  (startWaitPeriod s) (countHighSpeedSent s) (highSpeedSend s) (external_bw_info s).
Definition set_lastReduction (v : Z) : BwEstimatorstr :=
  mkBwe (prevFrameSizeMs s) (prevRtpNumber s) (prevSendTime s) (prevArrivalTime s)
  (prevRtpRate s) (lastUpdate s) v (countUpdates s) (recBw s) (recBwInv s) (recBwAvg s)
  (recBwAvgQ s) (minBwInv s) (maxBwInv s) (recJitter s) (recJitterShortTerm s)
  (recJitterShortTermAbs s) (recMaxDelay s) (recMaxDelayAvgQ s) (recHeaderRate s) (sendBwAvg s)
  (sendMaxDelayAvg s) (countRecPkts s) (highSpeedRec s) (countHighSpeedRec s) (inWaitPeriod s)
  (startWaitPeriod s) (countHighSpeedSent s) (highSpeedSend s) (external_bw_info s).
Definition set_countUpdates (v : Z) : BwEstimatorstr :=
  mkBwe (prevFrameSizeMs s) (prevRtpNumber s) (prevSendTime s) (prevArrivalTime s)
  (prevRtpRate s) (lastUpdate s) (lastReduction s) v (recBw s) (recBwInv s) (recBwAvg s)
  (recBwAvgQ s) (minBwInv s) (maxBwInv s) (recJitter s) (recJitterShortTerm s)
  (recJitterShortTermAbs s) (recMaxDelay s) (recMaxDelayAvgQ s) (recHeaderRate s) (sendBwAvg s)
  (sendMaxDelayAvg s) (countRecPkts s) (highSpeedRec s) (countHighSpeedRec s) (inWaitPeriod s)
  (startWaitPeriod s) (countHighSpeedSent s) (highSpeedSend s) (external_bw_info s).
Definition set_recBw (v : Z) : BwEstimatorstr :=
  mkBwe (prevFrameSizeMs s) (prevRtpNumber s) (prevSendTime s) (prevArrivalTime s)
  (prevRtpRate s) (lastUpdate s) (lastReduction s) (countUpdates s) v (recBwInv s) (recBwAvg s)
  (recBwAvgQ s) (minBwInv s) (maxBwInv s) (recJitter s) (recJitterShortTerm s)
  (recJitterShortTermAbs s) (recMaxDelay s) (recMaxDelayAvgQ s) (recHeaderRate s) (sendBwAvg s)
  (sendMaxDelayAvg s) (countRecPkts s) (highSpeedRec s) (countHighSpeedRec s) (inWaitPeriod s)
  (startWaitPeriod s) (countHighSpeedSent s) (highSpeedSend s) (external_bw_info s).
Definition set_recBwInv (v : Z) : BwEstimatorstr :=
  mkBwe (prevFrameSizeMs s) (prevRtpNumber s) (prevSendTime s) (prevArrivalTime s)
  (prevRtpRate s) (lastUpdate s) (lastReduction s) (countUpdates s) (recBw s) v (recBwAvg s)
  (recBwAvgQ s) (minBwInv s) (maxBwInv s) (recJitter s) (recJitterShortTerm s)
  (recJitterShortTermAbs s) (recMaxDelay s) (recMaxDelayAvgQ s) (recHeaderRate s) (sendBwAvg s)
  (sendMaxDelayAvg s) (countRecPkts s) (highSpeedRec s) (countHighSpeedRec s) (inWaitPeriod s)
  (startWaitPeriod s) (countHighSpeedSent s) (highSpeedSend s) (external_bw_info s).
Definition set_recBwAvg (v : Z) : BwEstimatorstr :=
  mkBwe (prevFrameSizeMs s) (prevRtpNumber s) (prevSendTime s) (prevArrivalTime s)
  (prevRtpRate s) (lastUpdate s) (lastReduction s) (countUpdates s) (recBw s) (recBwInv s) v
  (recBwAvgQ s) (minBwInv s) (maxBwInv s) (recJitter s) (recJitterShortTerm s)
  (recJitterShortTermAbs s) (recMaxDelay s) (recMaxDelayAvgQ s) (recHeaderRate s) (sendBwAvg s)
  (sendMaxDelayAvg s) (countRecPkts s) (highSpeedRec s) (countHighSpeedRec s) (inWaitPeriod s)
  (startWaitPeriod s) (countHighSpeedSent s) (highSpeedSend s) (external_bw_info s).
Definition set_recBwAvgQ (v : Z) : BwEstimatorstr :=
  mkBwe (prevFrameSizeMs s) (prevRtpNumber s) (prevSendTime s) (prevArrivalTime s)
  (prevRtpRate s) (lastUpdate s) (lastReduction s) (countUpdates s) (recBw s) (recBwInv s)
  (recBwAvg s) v (minBwInv s) (maxBwInv s) (recJitter s) (recJitterShortTerm s)
  (recJitterShortTermAbs s) (recMaxDelay s) (recMaxDelayAvgQ s) (recHeaderRate s) (sendBwAvg s)
  (sendMaxDelayAvg s) (countRecPkts s) (highSpeedRec s) (countHighSpeedRec s) (inWaitPeriod s)
  (startWaitPeriod s) (countHighSpeedSent s) (highSpeedSend s) (external_bw_info s).
Definition set_minBwInv (v : Z) : BwEstimatorstr :=
  mkBwe (prevFrameSizeMs s) (prevRtpNumber s) (prevSendTime s) (prevArrivalTime s)
  (prevRtpRate s) (lastUpdate s) (lastReduction s) (countUpdates s) (recBw s) (recBwInv s)
  (recBwAvg s) (recBwAvgQ s) v (maxBwInv s) (recJitter s) (recJitterShortTerm s)
  (recJitterShortTermAbs s) (recMaxDelay s) (recMaxDelayAvgQ s) (recHeaderRate s) (sendBwAvg s)
  (sendMaxDelayAvg s) (countRecPkts s) (highSpeedRec s) (countHighSpeedRec s) (inWaitPeriod s)
  (startWaitPeriod s) (countHighSpeedSent s) (highSpeedSend s) (external_bw_info s).
Definition set_maxBwInv (v : Z) : BwEstimatorstr :=
  mkBwe (prevFrameSizeMs s) (prevRtpNumber s) (prevSendTime s) (prevArrivalTime s)
  (prevRtpRate s) (lastUpdate s) (lastReduction s) (countUpdates s) (recBw s) (recBwInv s)
  (recBwAvg s) (recBwAvgQ s) (minBwInv s) v (recJitter s) (recJitterShortTerm s)
  (recJitterShortTermAbs s) (recMaxDelay s) (recMaxDelayAvgQ s) (recHeaderRate s) (sendBwAvg s)
  (sendMaxDelayAvg s) (countRecPkts s) (highSpeedRec s) (countHighSpeedRec s) (inWaitPeriod s)
  (startWaitPeriod s) (countHighSpeedSent s) (highSpeedSend s) (external_bw_info s).
Definition set_recJitter (v : Z) : BwEstimatorstr :=
  mkBwe (prevFrameSizeMs s) (prevRtpNumber s) (prevSendTime s) (prevArrivalTime s)
  (prevRtpRate s) (lastUpdate s) (lastReduction s) (countUpdates s) (recBw s) (recBwInv s)
  (recBwAvg s) (recBwAvgQ s) (minBwInv s) (maxBwInv s) v (recJitterShortTerm s)
  (recJitterShortTermAbs s) (recMaxDelay s) (recMaxDelayAvgQ s) (recHeaderRate s) (sendBwAvg s)
  (sendMaxDelayAvg s) (countRecPkts s) (highSpeedRec s) (countHighSpeedRec s) (inWaitPeriod s)
  (startWaitPeriod s) (countHighSpeedSent s) (highSpeedSend s) (external_bw_info s).
Definition set_recJitterShortTerm (v : Z) : BwEstimatorstr :=
  mkBwe (prevFrameSizeMs s) (prevRtpNumber s) (prevSendTime s) (prevArrivalTime s)
  (prevRtpRate s) (lastUpdate s) (lastReduction s) (countUpdates s) (recBw s) (recBwInv s)
  (recBwAvg s) (recBwAvgQ s) (minBwInv s) (maxBwInv s) (recJitter s) v (recJitterShortTermAbs s)
  (recMaxDelay s) (recMaxDelayAvgQ s) (recHeaderRate s) (sendBwAvg s) (sendMaxDelayAvg s)
  (countRecPkts s) (highSpeedRec s) (countHighSpeedRec s) (inWaitPeriod s) (startWaitPeriod s)
  (countHighSpeedSent s) (highSpeedSend s) (external_bw_info s).
Definition set_recJitterShortTermAbs (v : Z) : BwEstimatorstr :=
  mkBwe (prevFrameSizeMs s) (prevRtpNumber s) (prevSendTime s) (prevArrivalTime s)
  (prevRtpRate s) (lastUpdate s) (lastReduction s) (countUpdates s) (recBw s) (recBwInv s)
  (recBwAvg s) (recBwAvgQ s) (minBwInv s) (maxBwInv s) (recJitter s) (recJitterShortTerm s) v
  (recMaxDelay s) (recMaxDelayAvgQ s) (recHeaderRate s) (sendBwAvg s) (sendMaxDelayAvg s)
  (countRecPkts s) (highSpeedRec s) (countHighSpeedRec s) (inWaitPeriod s) (startWaitPeriod s)
  (countHighSpeedSent s) (highSpeedSend s) (external_bw_info s).
Definition set_recMaxDelay (v : Z) : BwEstimatorstr :=
  mkBwe (prevFrameSizeMs s) (prevRtpNumber s) (prevSendTime s) (prevArrivalTime s)
  (prevRtpRate s) (lastUpdate s) (lastReduction s) (countUpdates s) (recBw s) (recBwInv s)
  (recBwAvg s) (recBwAvgQ s) (minBwInv s) (maxBwInv s) (recJitter s) (recJitterShortTerm s)
  (recJitterShortTermAbs s) v (recMaxDelayAvgQ s) (recHeaderRate s) (sendBwAvg s)
  (sendMaxDelayAvg s) (countRecPkts s) (highSpeedRec s) (countHighSpeedRec s) (inWaitPeriod s)
  (startWaitPeriod s) (countHighSpeedSent s) (highSpeedSend s) (external_bw_info s).
Definition set_recMaxDelayAvgQ (v : Z) : BwEstimatorstr :=
  mkBwe (prevFrameSizeMs s) (prevRtpNumber s) (prevSendTime s) (prevArrivalTime s)
  (prevRtpRate s) (lastUpdate s) (lastReduction s) (countUpdates s) (recBw s) (recBwInv s)
  (recBwAvg s) (recBwAvgQ s) (minBwInv s) (maxBwInv s) (recJitter s) (recJitterShortTerm s)
  (recJitterShortTermAbs s) (recMaxDelay s) v (recHeaderRate s) (sendBwAvg s)
  (sendMaxDelayAvg s) (countRecPkts s) (highSpeedRec s) (countHighSpeedRec s) (inWaitPeriod s)
  (startWaitPeriod s) (countHighSpeedSent s) (highSpeedSend s) (external_bw_info s).
Definition set_recHeaderRate (v : Z) : BwEstimatorstr :=
  mkBwe (prevFrameSizeMs s) (prevRtpNumber s) (prevSendTime s) (prevArrivalTime s)
  (prevRtpRate s) (lastUpdate s) (lastReduction s) (countUpdates s) (recBw s) (recBwInv s)
  (recBwAvg s) (recBwAvgQ s) (minBwInv s) (maxBwInv s) (recJitter s) (recJitterShortTerm s)
  (recJitterShortTermAbs s) (recMaxDelay s) (recMaxDelayAvgQ s) v (sendBwAvg s)
  (sendMaxDelayAvg s) (countRecPkts s) (highSpeedRec s) (countHighSpeedRec s) (inWaitPeriod s)
  (startWaitPeriod s) (countHighSpeedSent s) (highSpeedSend s) (external_bw_info s).
Definition set_sendBwAvg (v : Z) : BwEstimatorstr :=
  mkBwe (prevFrameSizeMs s) (prevRtpNumber s) (prevSendTime s) (prevArrivalTime s)
  (prevRtpRate s) (lastUpdate s) (lastReduction s) (countUpdates s) (recBw s) (recBwInv s)
  (recBwAvg s) (recBwAvgQ s) (minBwInv s) (maxBwInv s) (recJitter s) (recJitterShortTerm s)
  (recJitterShortTermAbs s) (recMaxDelay s) (recMaxDelayAvgQ s) (recHeaderRate s) v
  (sendMaxDelayAvg s) (countRecPkts s) (highSpeedRec s) (countHighSpeedRec s) (inWaitPeriod s)
  (startWaitPeriod s) (countHighSpeedSent s) (highSpeedSend s) (external_bw_info s).
Definition set_sendMaxDelayAvg (v : Z) : BwEstimatorstr :=
  mkBwe (prevFrameSizeMs s) (prevRtpNumber s) (prevSendTime s) (prevArrivalTime s)
  (prevRtpRate s) (lastUpdate s) (lastReduction s) (countUpdates s) (recBw s) (recBwInv s)
  (recBwAvg s) (recBwAvgQ s) (minBwInv s) (maxBwInv s) (recJitter s) (recJitterShortTerm s)
  (recJitterShortTermAbs s) (recMaxDelay s) (recMaxDelayAvgQ s) (recHeaderRate s) (sendBwAvg s)
  v (countRecPkts s) (highSpeedRec s) (countHighSpeedRec s) (inWaitPeriod s) (startWaitPeriod s)
  (countHighSpeedSent s) (highSpeedSend s) (external_bw_info s).
Definition set_countRecPkts (v : Z) : BwEstimatorstr :=
  mkBwe (prevFrameSizeMs s) (prevRtpNumber s) (prevSendTime s) (prevArrivalTime s)
  (prevRtpRate s) (lastUpdate s) (lastReduction s) (countUpdates s) (recBw s) (recBwInv s)
  (recBwAvg s) (recBwAvgQ s) (minBwInv s) (maxBwInv s) (recJitter s) (recJitterShortTerm s)
  (recJitterShortTermAbs s) (recMaxDelay s) (recMaxDelayAvgQ s) (recHeaderRate s) (sendBwAvg s)
  (sendMaxDelayAvg s) v (highSpeedRec s) (countHighSpeedRec s) (inWaitPeriod s)
  (startWaitPeriod s) (countHighSpeedSent s) (highSpeedSend s) (external_bw_info s).
Definition set_highSpeedRec (v : Z) : BwEstimatorstr :=
  mkBwe (prevFrameSizeMs s) (prevRtpNumber s) (prevSendTime s) (prevArrivalTime s)
  (prevRtpRate s) (lastUpdate s) (lastReduction s) (countUpdates s) (recBw s) (recBwInv s)
  (recBwAvg s) (recBwAvgQ s) (minBwInv s) (maxBwInv s) (recJitter s) (recJitterShortTerm s)
  (recJitterShortTermAbs s) (recMaxDelay s) (recMaxDelayAvgQ s) (recHeaderRate s) (sendBwAvg s)
  (sendMaxDelayAvg s) (countRecPkts s) v (countHighSpeedRec s) (inWaitPeriod s)
  (startWaitPeriod s) (countHighSpeedSent s) (highSpeedSend s) (external_bw_info s).
Definition set_countHighSpeedRec (v : Z) : BwEstimatorstr :=
  mkBwe (prevFrameSizeMs s) (prevRtpNumber s) (prevSendTime s) (prevArrivalTime s)
  (prevRtpRate s) (lastUpdate s) (lastReduction s) (countUpdates s) (recBw s) (recBwInv s)
  (recBwAvg s) (recBwAvgQ s) (minBwInv s) (maxBwInv s) (recJitter s) (recJitterShortTerm s)
  (recJitterShortTermAbs s) (recMaxDelay s) (recMaxDelayAvgQ s) (recHeaderRate s) (sendBwAvg s)
  (sendMaxDelayAvg s) (countRecPkts s) (highSpeedRec s) v (inWaitPeriod s) (startWaitPeriod s)
  (countHighSpeedSent s) (highSpeedSend s) (external_bw_info s).
Definition set_inWaitPeriod (v : Z) : BwEstimatorstr :=
  mkBwe (prevFrameSizeMs s) (prevRtpNumber s) (prevSendTime s) (prevArrivalTime s)
  (prevRtpRate s) (lastUpdate s) (lastReduction s) (countUpdates s) (recBw s) (recBwInv s)
  (recBwAvg s) (recBwAvgQ s) (minBwInv s) (maxBwInv s) (recJitter s) (recJitterShortTerm s)
  (recJitterShortTermAbs s) (recMaxDelay s) (recMaxDelayAvgQ s) (recHeaderRate s) (sendBwAvg s)
  (sendMaxDelayAvg s) (countRecPkts s) (highSpeedRec s) (countHighSpeedRec s) v
  (startWaitPeriod s) (countHighSpeedSent s) (highSpeedSend s) (external_bw_info s).
Definition set_startWaitPeriod (v : Z) : BwEstimatorstr :=
  mkBwe (prevFrameSizeMs s) (prevRtpNumber s) (prevSendTime s) (prevArrivalTime s)
  (prevRtpRate s) (lastUpdate s) (lastReduction s) (countUpdates s) (recBw s) (recBwInv s)
  (recBwAvg s) (recBwAvgQ s) (minBwInv s) (maxBwInv s) (recJitter s) (recJitterShortTerm s)
  (recJitterShortTermAbs s) (recMaxDelay s) (recMaxDelayAvgQ s) (recHeaderRate s) (sendBwAvg s)
  (sendMaxDelayAvg s) (countRecPkts s) (highSpeedRec s) (countHighSpeedRec s) (inWaitPeriod s) v
  (countHighSpeedSent s) (highSpeedSend s) (external_bw_info s).
Definition set_countHighSpeedSent (v : Z) : BwEstimatorstr :=
  mkBwe (prevFrameSizeMs s) (prevRtpNumber s) (prevSendTime s) (prevArrivalTime s)
  (prevRtpRate s) (lastUpdate s) (lastReduction s) (countUpdates s) (recBw s) (recBwInv s)
  (recBwAvg s) (recBwAvgQ s) (minBwInv s) (maxBwInv s) (recJitter s) (recJitterShortTerm s)
  (recJitterShortTermAbs s) (recMaxDelay s) (recMaxDelayAvgQ s) (recHeaderRate s) (sendBwAvg s)
  (sendMaxDelayAvg s) (countRecPkts s) (highSpeedRec s) (countHighSpeedRec s) (inWaitPeriod s)
  (startWaitPeriod s) v (highSpeedSend s) (external_bw_info s).
Definition set_highSpeedSend (v : Z) : BwEstimatorstr :=
  mkBwe (prevFrameSizeMs s) (prevRtpNumber s) (prevSendTime s) (prevArrivalTime s)
  (prevRtpRate s) (lastUpdate s) (lastReduction s) (countUpdates s) (recBw s) (recBwInv s)
  (recBwAvg s) (recBwAvgQ s) (minBwInv s) (maxBwInv s) (recJitter s) (recJitterShortTerm s)
  (recJitterShortTermAbs s) (recMaxDelay s) (recMaxDelayAvgQ s) (recHeaderRate s) (sendBwAvg s)
  (sendMaxDelayAvg s) (countRecPkts s) (highSpeedRec s) (countHighSpeedRec s) (inWaitPeriod s)
  (startWaitPeriod s) (countHighSpeedSent s) v (external_bw_info s).
Definition set_external_bw_info (v : IsacBandwidthInfo) : BwEstimatorstr :=
  mkBwe (prevFrameSizeMs s) (prevRtpNumber s) (prevSendTime s) (prevArrivalTime s)
  (prevRtpRate s) (lastUpdate s) (lastReduction s) (countUpdates s) (recBw s) (recBwInv s)
  (recBwAvg s) (recBwAvgQ s) (minBwInv s) (maxBwInv s) (recJitter s) (recJitterShortTerm s)
  (recJitterShortTermAbs s) (recMaxDelay s) (recMaxDelayAvgQ s) (recHeaderRate s) (sendBwAvg s)
  (sendMaxDelayAvg s) (countRecPkts s) (highSpeedRec s) (countHighSpeedRec s) (inWaitPeriod s)
  (startWaitPeriod s) (countHighSpeedSent s) (highSpeedSend s) v.
End Setters.

(** Computes the fields of a chain of assignments. *)
Ltac bwe_simpl :=
  cbn [prevFrameSizeMs prevRtpNumber prevSendTime prevArrivalTime prevRtpRate lastUpdate
       lastReduction countUpdates recBw recBwInv recBwAvg recBwAvgQ minBwInv maxBwInv recJitter
       recJitterShortTerm recJitterShortTermAbs recMaxDelay recMaxDelayAvgQ recHeaderRate
       sendBwAvg sendMaxDelayAvg countRecPkts highSpeedRec countHighSpeedRec inWaitPeriod
       startWaitPeriod countHighSpeedSent highSpeedSend external_bw_info
       set_prevFrameSizeMs set_prevRtpNumber set_prevSendTime set_prevArrivalTime
       set_prevRtpRate set_lastUpdate set_lastReduction set_countUpdates set_recBw set_recBwInv
       set_recBwAvg set_recBwAvgQ set_minBwInv set_maxBwInv set_recJitter set_recJitterShortTerm
       set_recJitterShortTermAbs set_recMaxDelay set_recMaxDelayAvgQ set_recHeaderRate
       set_sendBwAvg set_sendMaxDelayAvg set_countRecPkts set_highSpeedRec set_countHighSpeedRec
       set_inWaitPeriod set_startWaitPeriod set_countHighSpeedSent set_highSpeedSend
       set_external_bw_info] in *.

(** ** The estimator *)

(** The fields [startWaitPeriod] and those of the external information are not
    assigned. *)
Definition WebRtcIsacfix_InitBandwidthEstimator (s : BwEstimatorstr) : Z * BwEstimatorstr :=
  let e := external_bw_info s in
  (0, {| prevFrameSizeMs := INIT_FRAME_LEN; prevRtpNumber := 0; prevSendTime := 0;
         prevArrivalTime := 0; prevRtpRate := 1; lastUpdate := 0; lastReduction := 0;
         countUpdates := -9; recBw := INIT_BN_EST; recBwInv := 43531;
         recBwAvg := INIT_REC_BN_EST_Q5; recBwAvgQ := INIT_BN_EST_Q7;
         minBwInv := arr kInvBandwidth 2; maxBwInv := arr kInvBandwidth 3;
         recJitter := 327680; recJitterShortTerm := 0; recJitterShortTermAbs := 40960;
         recMaxDelay := 10; recMaxDelayAvgQ := 5120; recHeaderRate := INIT_HDR_RATE;
         sendBwAvg := INIT_BN_EST_Q7; sendMaxDelayAvg := 5120; countRecPkts := 0;
         highSpeedRec := 0; countHighSpeedRec := 0; inWaitPeriod := 0;
         startWaitPeriod := startWaitPeriod s; countHighSpeedSent := 0; highSpeedSend := 0;
         external_bw_info := mkBwInfo 0 (send_bw_avg e) (send_max_delay_avg e)
                               (bottleneck_idx e) (jitter_info e) |}).

(** [0.9 * avg + 0.1 * md] in Q9, as both ends compute it. *)
Definition md_average (avg md : Z) : Z := i32 (WEBRTC_SPL_MUL 461 avg + 51 * (md ≪ 9)) ≫ 9.

Definition count_high_speed_sent (s : BwEstimatorstr) : BwEstimatorstr :=
  if (28000 <? WEBRTC_SPL_RSHIFT_U32 (sendBwAvg s) 7) && (highSpeedSend s =? 0) then
    let s := set_countHighSpeedSent s (i16 (countHighSpeedSent s + 1)) in
    if 66 <=? countHighSpeedSent s then set_highSpeedSend s 1 else s
  else if highSpeedSend s =? 0 then set_countHighSpeedSent s 0 else s.

Definition WebRtcIsacfix_UpdateUplinkBwRec (s : BwEstimatorstr) (Index : Z) : option (Z * BwEstimatorstr) :=
  _ ← RTC_DCHECK (in_use (external_bw_info s) =? 0);
  if (Index <? 0) || (23 <? Index) then Some (- ISAC_RANGE_ERROR_BW_ESTIMATOR, s)
  else
    let '(RateInd, md) := if 11 <? Index then (u16 (Index - 12), MAX_ISAC_MD) else (u16 Index, MIN_ISAC_MD) in
    let s := set_sendMaxDelayAvg s (md_average (sendMaxDelayAvg s) md) in
    q ← rd kQRateTable RateInd;
    let avg := u32 (461 * sendBwAvg s + u32 (51 * (u32 q ≪ 7))) in
    let s := set_sendBwAvg s (WEBRTC_SPL_RSHIFT_U32 avg 9) in
    Some (0, count_high_speed_sent s).

(** The values that depend on the frame length, recomputed when it changes
    ([k] is the row of the tables). *)
Definition change_frame_size (k : Z) (s : BwEstimatorstr) : option BwEstimatorstr :=
  let s := set_countUpdates s 10 in
  let s := set_recHeaderRate s (arr kRecHeaderRate k) in
  let s := set_maxBwInv s (arr kInvBandwidth (2 * k + 1)) in
  let s := set_minBwInv s (arr kInvBandwidth (2 * k)) in
  q ← cdiv 1073741824 (u32 (recBw s + u32 (recHeaderRate s)));
  Some (set_recBwInv s q).

Definition frame_size_step (s : BwEstimatorstr) (frameSize pksize : Z) : option (Z * BwEstimatorstr) :=
  let changed := negb (frameSize =? prevFrameSizeMs s) && (0 <? countUpdates s) in
  if frameSize =? 60 then
    s ← (if changed then change_frame_size 1 s else Some s);
    Some (u16 (i16 (u64 (kBitsByteSec * pksize) ≫ 15) + recHeaderRate s), s)
  else
    s ← (if changed then change_frame_size 0 s else Some s);
    Some (u16 (u16 (u64 (kBitsByteSec * pksize) ≫ 14) + recHeaderRate s), s).

(** Restarts the measurement of the time since the last update. *)
Definition restart_update (s : BwEstimatorstr) (arrivalTime : Z) : BwEstimatorstr :=
  let s := set_lastUpdate s arrivalTime in
  let s := set_lastReduction s (u32 (arrivalTime + FS3)) in
  set_countRecPkts s 0.

Definition leave_wait_period (s : BwEstimatorstr) (arrivalTime : Z) : BwEstimatorstr :=
  if negb (inWaitPeriod s =? 0) && (FS_1_HALF <? u32 (arrivalTime - startWaitPeriod s))
  then set_inWaitPeriod s 0 else s.

(** The reduction of the estimate by [2^(-76 msec / 2^20)]. *)
Definition reduce_estimate (s : BwEstimatorstr) (arrivalTime : Z) : option BwEstimatorstr :=
  let msec := i32 (arrivalTime - lastReduction s) in
  let msec := if 208000 <? msec then 208000 else msec in
  let exponent := WEBRTC_SPL_UMUL 0x4C msec in
  reductionFactor ← shr32 (Z.lor 0x01000000 (Z.land exponent 0x00FFFFFF)) (WEBRTC_SPL_RSHIFT_U32 exponent 24);
  let reductionFactor := WEBRTC_SPL_RSHIFT_U32 reductionFactor 11 in
  let inv :=
    if negb (reductionFactor =? 0) then
      let inv := u32 (WEBRTC_SPL_MUL (i32 (recBwInv s)) (i32 reductionFactor)) in
      u32 (i32 inv ≫ 13)
    else
      let kInitRate := INIT_BN_EST + INIT_HDR_RATE in
      Z.quot (1073741824 + Z.quot kInitRate 2) kInitRate in
  Some (set_lastReduction (set_recBwInv s inv) arrivalTime).

Definition reduction_step (s : BwEstimatorstr) (sendTimeDiff frameSizeSampl arrivalTime : Z) : option BwEstimatorstr :=
  if sendTimeDiff <=? i32 (frameSizeSampl * 2) then
    if FS3 <? u32 (arrivalTime - lastUpdate s) then
      n ← cdiv (u32 (arrivalTime - lastUpdate s)) (u32 frameSizeSampl);
      let numPktsExpected := i32 n in
      if i32 (922 * numPktsExpected) <? i32 (countRecPkts s ≪ 10)
      then reduce_estimate s arrivalTime
      else Some (restart_update s arrivalTime)
    else Some s
  else Some (restart_update s arrivalTime).

(** A packet that is very late: the state, the correction factor and
    [immediateSet]. *)
Definition late_step (s : BwEstimatorstr) (arrTimeDiff sendTimeDiff frameSizeSampl arrivalTime : Z)
  : BwEstimatorstr * Z * Z :=
  if negb (negb (highSpeedSend s =? 0) && negb (highSpeedRec s =? 0)) && (frameSizeSampl <? arrTimeDiff) then
    let lateDiff :=
      if 0 <? sendTimeDiff then i32 (i32 (arrTimeDiff - sendTimeDiff) - i32 (frameSizeSampl * 2))
      else i32 (arrTimeDiff - frameSizeSampl) in
    let wait s := set_startWaitPeriod (set_inWaitPeriod s 1) arrivalTime in
    if 8000 <? lateDiff then (wait s, DELAY_CORRECTION_MAX, 1)
    else if 5120 <? lateDiff then (wait s, DELAY_CORRECTION_MED, 1)
    else (s, DELAY_CORRECTION_MED, 0)
  else (s, DELAY_CORRECTION_MED, 0).

(** The inverse rate at which the last packet was received, limited. *)
Definition current_bw_inv (s : BwEstimatorstr) (arrTimeDiff pksize : Z) : Z :=
  let numBytesInv := u16 (WebRtcSpl_DivW32W16 (i32 (u64 (524288 + (u64 (pksize + HEADER_SIZE) ≫ 1))))
                                              (i16 (pksize + HEADER_SIZE))) in
  let byteSecondsPerBit := u32 (i32 (arrTimeDiff * 8389)) in
  let tempUpper := WEBRTC_SPL_RSHIFT_U32 byteSecondsPerBit 15 in
  let tempLower := Z.land byteSecondsPerBit 0x7FFF in
  let tempUpper := u32 (WEBRTC_SPL_MUL tempUpper numBytesInv) in
  let tempLower := u32 (WEBRTC_SPL_MUL tempLower numBytesInv) in
  let tempLower := WEBRTC_SPL_RSHIFT_U32 tempLower 15 in
  let currBwInv := u32 (tempUpper + tempLower) in
  let currBwInv := WEBRTC_SPL_RSHIFT_U32 currBwInv 4 in
  if currBwInv <? maxBwInv s then maxBwInv s
  else if minBwInv s <? currBwInv then minBwInv s
  else currBwInv.

(** Magnitude and sign of the difference between the arrival time and the one
    projected from the average rate. *)
Definition arrival_noise (s : BwEstimatorstr) (arrTimeDiff pksize : Z) : option (Z * Z) :=
  inv ← cdiv (u32 (0x80000000 + Z.quot (recBwAvg s) 2)) (recBwAvg s);
  let recBwAvgInv := i32 inv in
  let arrTimeProj := u32 (WEBRTC_SPL_MUL 8000 recBwAvgInv) in
  let arrTimeProj := WEBRTC_SPL_RSHIFT_U32 arrTimeProj 4 in
  let arrTimeProj := u32 (WEBRTC_SPL_MUL (i32 (i32 pksize + HEADER_SIZE)) arrTimeProj) in
  let arrTimeProj := WEBRTC_SPL_RSHIFT_U32 arrTimeProj 12 in
  let d := i32 (arrTimeDiff ≪ 6) in
  Some (if i32 arrTimeProj <? d then (i32 (d - arrTimeProj), 1) else (i32 (arrTimeProj - d), -1)).

(** Division by [2^n] that rounds towards zero, as the source writes it. *)
Definition shift_to_zero (x n : Z) : Z :=
  if x <? 0 then i32 (- (i32 (- x) ≫ n)) else x ≫ n.

Definition jitter_step (s : BwEstimatorstr) (weight noise sign : Z) : BwEstimatorstr :=
  let weight := weight ≫ 3 in
  let jitter := i32 (i32 (weight * i32 (noise ≪ 5)) + i32 ((1024 - weight) * recJitter s)) in
  let jitter := jitter ≫ 10 in
  let jitter := if 327680 <? jitter then 327680 else jitter in
  let short_abs := i32 (i32 (51 * i32 (noise ≪ 3)) + WEBRTC_SPL_MUL 973 (recJitterShortTermAbs s)) in
  let short_abs := short_abs ≫ 10 in
  let short := i32 (i32 (i32 (205 * i32 (noise ≪ 3)) * sign) + WEBRTC_SPL_MUL 3891 (recJitterShortTerm s)) in
  let short := shift_to_zero short 12 in
  set_recJitterShortTerm (set_recJitterShortTermAbs (set_recJitter s jitter) short_abs) short.

(** The new estimate from a packet that arrived [arrTimeDiff] samples after its
    predecessor. *)
Definition estimation_step (s : BwEstimatorstr) (arrTimeDiff frameSizeSampl arrivalTime pksize recRtpRate : Z)
  : option BwEstimatorstr :=
  if ((i32 (recBwAvg s) ≫ 5) <? prevRtpRate s) && ((i32 (recBwAvg s) ≫ 5) <? recRtpRate) && (inWaitPeriod s =? 0)
  then
    let old := countUpdates s in
    let s := set_countUpdates s (i32 (countUpdates s + 1)) in
    let weight := if 99 <? old then 82
                  else u16 (WebRtcSpl_DivW32W16 (i32 (8192 + (countUpdates s ≫ 1))) (i16 (countUpdates s))) in
    let arrTimeDiff := if i32 (frameSizeSampl + kSamplesIn25msec) <? arrTimeDiff
                       then i32 (frameSizeSampl + kSamplesIn25msec) else arrTimeDiff in
    let arrTimeDiff := if arrTimeDiff <? i32 (frameSizeSampl - FRAMESAMPLES_10ms)
                       then i32 (frameSizeSampl - FRAMESAMPLES_10ms) else arrTimeDiff in
    let currBwInv := current_bw_inv s arrTimeDiff pksize in
    let inv := u32 (WEBRTC_SPL_UMUL weight currBwInv + WEBRTC_SPL_UMUL (u32 (8192 - weight)) (recBwInv s)) in
    let s := set_recBwInv s (WEBRTC_SPL_RSHIFT_U32 inv 13) in
    let s := restart_update s arrivalTime in
    '(noise, sign) ← arrival_noise s arrTimeDiff pksize;
    Some (jitter_step s weight noise sign)
  else Some s.

(** One packet after the first ones: the state, the correction factor and
    [immediateSet]. *)
Definition packet_step (s : BwEstimatorstr) (rtpNumber frameSizeSampl sendTime arrivalTime pksize recRtpRate : Z)
  : option (BwEstimatorstr * Z * Z) :=
  let s := leave_wait_period s arrivalTime in
  let sendTimeDiff := i32 (sendTime - prevSendTime s) in
  s ← reduction_step s sendTimeDiff frameSizeSampl arrivalTime;
  if rtpNumber =? prevRtpNumber s + 1 then
    let arrTimeDiff := i32 (arrivalTime - prevArrivalTime s) in
    let '(s, delayCorrFactor, immediateSet) := late_step s arrTimeDiff sendTimeDiff frameSizeSampl arrivalTime in
    s ← estimation_step s arrTimeDiff frameSizeSampl arrivalTime pksize recRtpRate;
    Some (s, delayCorrFactor, immediateSet)
  else Some (s, DELAY_CORRECTION_MED, 0).

Definition limit_estimate (s : BwEstimatorstr) : BwEstimatorstr :=
  if minBwInv s <? recBwInv s then set_recBwInv s (minBwInv s)
  else if recBwInv s <? maxBwInv s then set_recBwInv s (maxBwInv s)
  else s.

(** The rate reduced at once after a very late packet. *)
Definition corrected_rate (bw delayCorrFactor : Z) : Z :=
  let bw := WEBRTC_SPL_UMUL delayCorrFactor bw in
  let bw := WEBRTC_SPL_RSHIFT_U32 bw 10 in
  if bw <? MIN_ISAC_BW then MIN_ISAC_BW else bw.

Definition immediate_step (s : BwEstimatorstr) (delayCorrFactor : Z) : option BwEstimatorstr :=
  let s := set_recBw s (corrected_rate (recBw s) delayCorrFactor) in
  let s := set_recBwAvg s (u32 (u32 (recBw s + u32 (recHeaderRate s)) ≪ 5)) in
  let s := set_recBwAvgQ s (u32 (recBw s ≪ 7)) in
  let s := set_recJitterShortTerm s 0 in
  q ← cdiv 1073741824 (u32 (recBw s + u32 (recHeaderRate s)));
  Some (set_recBwInv s q).

(** What the state remembers of a packet. *)
Definition store_packet (s : BwEstimatorstr) (frameSize recRtpRate rtpNumber : Z) : BwEstimatorstr :=
  set_prevRtpNumber (set_prevRtpRate (set_prevFrameSizeMs s frameSize) recRtpRate) rtpNumber.

Definition finish_packet (s : BwEstimatorstr)
    (rtpNumber frameSize sendTime arrivalTime recRtpRate delayCorrFactor immediateSet : Z)
  : option (Z * BwEstimatorstr) :=
  let s := limit_estimate s in
  let s := store_packet s frameSize recRtpRate rtpNumber in
  let s := if negb (prevArrivalTime s =? 0xffffffff)
           then set_recMaxDelay s (WEBRTC_SPL_MUL 3 (recJitter s)) else s in
  let s := set_prevArrivalTime s arrivalTime in
  let s := set_prevSendTime s sendTime in
  q ← cdiv 1073741824 (recBwInv s);
  let s := set_recBw s (u32 (q - recHeaderRate s)) in
  s ← (if negb (immediateSet =? 0) then immediate_step s delayCorrFactor else Some s);
  Some (0, s).

(** The part from [if (bweStr->countUpdates > 0)] on. *)
Definition timed_packet (s : BwEstimatorstr) (rtpNumber frameSize sendTime arrivalTime pksize recRtpRate : Z)
  : option (Z * BwEstimatorstr) :=
  let frameSizeSampl := SAMPLES_PER_MSEC * frameSize in
  '(s, delayCorrFactor, immediateSet) ←
    (if 0 <? countUpdates s
     then packet_step s rtpNumber frameSizeSampl sendTime arrivalTime pksize recRtpRate
     else
       let s := restart_update s arrivalTime in
       Some (set_countUpdates s (i32 (countUpdates s + 1)), DELAY_CORRECTION_MED, 0));
  finish_packet s rtpNumber frameSize sendTime arrivalTime recRtpRate delayCorrFactor immediateSet.

(** The estimates on this side. *)
Definition receive_packet (s : BwEstimatorstr) (rtpNumber frameSize sendTime arrivalTime pksize : Z)
  : option (Z * BwEstimatorstr) :=
  '(recRtpRate, s) ← frame_size_step s frameSize pksize;
  if arrivalTime <? prevArrivalTime s then
    let s := set_prevArrivalTime s arrivalTime in
    let s := restart_update s arrivalTime in
    Some (0, store_packet s frameSize recRtpRate rtpNumber)
  else
    let s := set_countRecPkts s (i16 (countRecPkts s + 1)) in
    timed_packet s rtpNumber frameSize sendTime arrivalTime pksize recRtpRate.

Definition WebRtcIsacfix_UpdateUplinkBwImpl (s : BwEstimatorstr)
    (rtpNumber frameSize sendTime arrivalTime pksize Index : Z) : option (Z * BwEstimatorstr) :=
  _ ← RTC_DCHECK (in_use (external_bw_info s) =? 0);
  '(errCode, s) ← WebRtcIsacfix_UpdateUplinkBwRec s (i16 Index);
  if errCode <? 0 then Some (errCode, s)
  else receive_packet s rtpNumber frameSize sendTime arrivalTime pksize.

(** ** What the estimator reports *)

Definition WebRtcIsacfix_GetDownlinkBandwidth (s : BwEstimatorstr) : option Z :=
  _ ← RTC_DCHECK (in_use (external_bw_info s) =? 0);
  inv ← cdiv 0x80000000 (u32 (recJitterShortTermAbs s));
  let rec_jitter_short_term_abs_inv := i32 inv in
  let jitter_sign := i32 ((recJitterShortTerm s ≫ 4) * rec_jitter_short_term_abs_inv) in
  let jitter_sign := shift_to_zero jitter_sign 19 in
  let temp := i32 (9830 + (i32 (i32 (38 * jitter_sign) * jitter_sign) ≫ 8)) in
  let bw_adjust :=
    if jitter_sign <? 0 then
      let temp := WEBRTC_SPL_MUL jitter_sign temp in
      let temp := i32 (- temp) in
      let temp := temp ≫ 8 in
      i32 (u32 (65536 + temp))
    else i32 (65536 - (i32 (jitter_sign * temp) ≫ 8)) in
  let bw_adjust := bw_adjust ≫ 2 in
  let rate := WEBRTC_SPL_UMUL (recBw s) bw_adjust in
  let rate := rate ≫ 14 in
  let rate := if rate <? MIN_ISAC_BW then MIN_ISAC_BW
              else if MAX_ISAC_BW <? rate then MAX_ISAC_BW else rate in
  Some (u16 rate).

Definition WebRtcIsacfix_GetDownlinkMaxDelay (s : BwEstimatorstr) : option Z :=
  let delay := i16 (recMaxDelay s ≫ 15) in
  _ ← RTC_DCHECK (in_use (external_bw_info s) =? 0);
  Some (if delay <? MIN_ISAC_MD then MIN_ISAC_MD
        else if MAX_ISAC_MD <? delay then MAX_ISAC_MD else delay).

(** [for (rateInd = 1; rateInd < 11; rateInd++) if (rate <= kQRateTable[rateInd]) break;] *)
Fixpoint rate_search (n : nat) (rate rateInd : Z) : Z :=
  match n with
  | O => rateInd
  | S n' =>
    if rateInd <? 11 then
      if rate <=? arr kQRateTable rateInd then rateInd else rate_search n' rate (rateInd + 1)
    else rateInd
  end.

Definition count_high_speed_rec (s : BwEstimatorstr) : BwEstimatorstr :=
  if (3584000 <? recBwAvgQ s) && (highSpeedRec s =? 0) then
    let s := set_countHighSpeedRec s (i16 (countHighSpeedRec s + 1)) in
    if 66 <=? countHighSpeedRec s then set_highSpeedRec s 1 else s
  else if highSpeedRec s =? 0 then set_countHighSpeedRec s 0 else s.

(** The rate index for [rate], and the quantised average it leads to. *)
Definition rate_index (s : BwEstimatorstr) (rate : Z) : Z * BwEstimatorstr :=
  let rateInd := rate_search 10 rate 1 in
  let tempTerm1 := WEBRTC_SPL_MUL (recBwAvgQ s) 25 ≫ 7 in
  let tempTermX := i32 (WEBRTC_SPL_UMUL 461 (recBwAvgQ s) - u32 tempTerm1) in
  let tempTermY := i32 (rate ≪ 16) in
  let tempTerm1 := i32 (i32 (tempTermX + arr KQRate01 rateInd) - tempTermY) in
  let tempTerm2 := i32 (i32 (tempTermY - tempTermX) - arr KQRate01 (rateInd - 1)) in
  let rateInd := if tempTerm2 <? tempTerm1 then u16 (rateInd - 1) else rateInd in
  let tempTermX := i32 (tempTermX + arr KQRate01 rateInd) in
  (rateInd, set_recBwAvgQ s (u32 (tempTermX ≫ 9))).

(** The delay bit for [maxDelay], and the quantised average it leads to. *)
Definition delay_bit (s : BwEstimatorstr) (maxDelay : Z) : Z * BwEstimatorstr :=
  let tempMax := 652800 in
  let tempMin := 130560 in
  let tempTermX := WEBRTC_SPL_MUL (recMaxDelayAvgQ s) 461 in
  let tempTermY := i32 (maxDelay ≪ 18) in
  let tempTerm1 := i32 (i32 (tempTermX + tempMax) - tempTermY) in
  let tempTerm2 := i32 (i32 (tempTermY - tempTermX) - tempMin) in
  if tempTerm2 <? tempTerm1 then (0, set_recMaxDelayAvgQ s (i32 (tempTermX + tempMin) ≫ 9))
  else (12, set_recMaxDelayAvgQ s (i32 (tempTermX + tempMax) ≫ 9)).

Definition WebRtcIsacfix_GetDownlinkBwIndexImpl (s : BwEstimatorstr) : option (Z * BwEstimatorstr) :=
  if negb (in_use (external_bw_info s) =? 0) then Some (u16 (bottleneck_idx (external_bw_info s)), s)
  else
    rate ← WebRtcIsacfix_GetDownlinkBandwidth s;
    let avg := u32 (u32 (922 * recBwAvg s) + u32 (102 * u32 (u32 (rate + u32 (recHeaderRate s)) ≪ 5))) in
    let s := set_recBwAvg s (WEBRTC_SPL_RSHIFT_U32 avg 10) in
    let '(rateInd, s) := rate_index s rate in
    let s := count_high_speed_rec s in
    maxDelay ← WebRtcIsacfix_GetDownlinkMaxDelay s;
    let '(maxDelayBit, s) := delay_bit s maxDelay in
    Some (u16 (rateInd + maxDelayBit), s).

(** [static int16_t clamp(val, min, max)]; the arguments are [int16_t]. *)
Definition clamp16 (val min max : Z) : option Z :=
  _ ← RTC_DCHECK (min <=? max);
  Some (if val <? min then min else if max <? val then max else val).

Definition WebRtcIsacfix_GetUplinkBandwidth (s : BwEstimatorstr) : option Z :=
  if negb (in_use (external_bw_info s) =? 0) then Some (i16 (send_bw_avg (external_bw_info s)))
  else clamp16 (i16 (sendBwAvg s ≫ 7)) MIN_ISAC_BW MAX_ISAC_BW.

Definition WebRtcIsacfix_GetUplinkMaxDelay (s : BwEstimatorstr) : option Z :=
  if negb (in_use (external_bw_info s) =? 0) then Some (i16 (send_max_delay_avg (external_bw_info s)))
  else clamp16 (i16 (sendMaxDelayAvg s ≫ 9)) MIN_ISAC_MD MAX_ISAC_MD.

(** ** The rate model *)

Record RateModel := mkRate {
  PrevExceed : Z;
  ExceedAgo : Z;
  BurstCounter : Z;
  InitCounter : Z;
  StillBuffered : Z
}.

(** The minimum rate of a packet of a burst, in Q9. *)
Definition burst_rate (sb FrameSamples BottleNeck DelayBuildUp : Z) : option Z :=
  if sb <? (((512 - Z.quot 512 BURST_LEN) * DelayBuildUp) ≫ 9) then
    inv_Q12 ← cdiv 4096 (BURST_LEN * FrameSamples);
    Some (i32 (i32 (512 + SAMPLES_PER_MSEC * (i32 (DelayBuildUp * inv_Q12) ≫ 3)) * BottleNeck))
  else
    inv_Q12 ← cdiv 4096 FrameSamples;
    let den := WEBRTC_SPL_MUL SAMPLES_PER_MSEC (sb - DelayBuildUp) in
    let MinRate :=
      if sb <? DelayBuildUp then
        i32 (i32 (512 + SAMPLES_PER_MSEC * (i32 ((DelayBuildUp - sb) * inv_Q12) ≫ 3)) * BottleNeck)
      else if FrameSamples <=? den then 0
      else i32 (i32 (512 - (i32 (den * inv_Q12) ≫ 3)) * BottleNeck) in
    Some (if MinRate <? WEBRTC_SPL_MUL 532 BottleNeck
          then i32 (MinRate + WEBRTC_SPL_MUL 22 BottleNeck) else MinRate).

(** The minimum rate in Q9 and the counters after the packet. *)
Definition min_rate (st : RateModel) (FrameSamples BottleNeck DelayBuildUp : Z) : option (Z * RateModel) :=
  let '(mkRate pe ea bc ic sb) := st in
  if 0 <? ic then
    Some (if ic <=? INIT_BURST_LEN then INIT_RATE else 0, mkRate pe ea bc (i16 (ic - 1)) sb)
  else if negb (bc =? 0) then
    r ← burst_rate sb FrameSamples BottleNeck DelayBuildUp;
    Some (r, mkRate pe ea (i16 (bc - 1)) ic sb)
  else Some (0, st).

(** Records whether the packet exceeded the bottle neck by one percent. *)
Definition exceed_step (st : RateModel) (StreamSize FrameSamples BottleNeck : Z) : option RateModel :=
  let '(mkRate pe ea bc ic sb) := st in
  rate ← cdiv (i32 (StreamSize * FS8)) FrameSamples;
  let later := i16 (ea + Z.quot FrameSamples SAMPLES_PER_MSEC) in
  Some (if (i32 (517 * BottleNeck) ≫ 9) <? rate then
          if negb (pe =? 0) then
            let ea := i16 (ea - Z.quot BURST_INTERVAL (BURST_LEN - 1)) in
            mkRate pe (if ea <? 0 then 0 else ea) bc ic sb
          else mkRate 1 later bc ic sb
        else mkRate 0 later bc ic sb).

Definition burst_step (st : RateModel) : RateModel :=
  let '(mkRate pe ea bc ic sb) := st in
  if (BURST_INTERVAL <? ea) && (bc =? 0)
  then mkRate pe ea (if negb (pe =? 0) then BURST_LEN - 1 else BURST_LEN) ic sb else st.

(** The time the packet adds to the bottle neck buffer, less the frame. *)
Definition buffer_step (sb StreamSize FrameSamples BottleNeck : Z) : option Z :=
  t ← cdiv (i32 (StreamSize * 8000)) BottleNeck;
  let sb := i16 (sb + i16 t) in
  let sb := i16 (sb - Z.quot FrameSamples SAMPLES_PER_MSEC) in
  Some (if sb <? 0 then 0 else sb).

Definition WebRtcIsacfix_GetMinBytes (st : RateModel) (StreamSize FrameSamples BottleNeck DelayBuildUp : Z)
  : option (Z * RateModel) :=
  '(MinRate, st) ← min_rate st FrameSamples BottleNeck DelayBuildUp;
  let MinRate := i32 (MinRate + 256) in
  let MinRate := MinRate ≫ 9 in
  let MinBytes := u16 (Z.quot (u32 (i32 (MinRate * FrameSamples))) FS8) in
  let StreamSize := if StreamSize <? MinBytes then i16 MinBytes else StreamSize in
  st ← exceed_step st StreamSize FrameSamples BottleNeck;
  let '(mkRate pe ea bc ic sb) := burst_step st in
  sb ← buffer_step sb StreamSize FrameSamples BottleNeck;
  let sb := if 2000 <? sb then 2000 else sb in
  Some (MinBytes, mkRate pe ea bc ic sb).

Definition WebRtcIsacfix_UpdateRateModel (st : RateModel) (StreamSize FrameSamples BottleNeck : Z) : option RateModel :=
  t ← cdiv (i32 (StreamSize * 8000)) BottleNeck;
  let TransmissionTime := i16 t in
  let '(mkRate pe ea bc _ sb) := st in
  let sb := i16 (sb + TransmissionTime) in
  let sb := i16 (sb - (FrameSamples ≫ 4)) in
  Some (mkRate pe ea bc 0 (if sb <? 0 then 0 else sb)).

Definition WebRtcIsacfix_InitRateModel : RateModel := mkRate 0 0 0 (INIT_BURST_LEN + 10) 1.

(** ** Frame length and target SNR *)

Definition WebRtcIsacfix_GetNewFrameLength (bottle_neck current_framesamples : Z) : Z :=
  if current_framesamples =? 480 then (if bottle_neck <? Thld_30_60 then 960 else current_framesamples)
  else if current_framesamples =? 960 then (if Thld_60_30 <=? bottle_neck then 480 else current_framesamples)
  else -1.

Definition WebRtcIsacfix_GetSnr (bottle_neck framesamples : Z) : Z :=
  if framesamples =? 480 then i16 (-22500 + i16 (i32 (500 * bottle_neck) ≫ 10))
  else if framesamples =? 960 then i16 (-22500 + i16 (i32 (500 * bottle_neck) ≫ 10))
  else -1.

(** ** [decode_bwe.c] *)

(** The estimator, the stream and the error, after the first parameters of a
    packet have been read. *)
Definition WebRtcIsacfix_EstimateBandwidth (s : BwEstimatorstr) (streamdata : Bitstr_dec)
    (packet_size rtp_seq_number send_ts arr_ts : Z) : option (Z * BwEstimatorstr * Bitstr_dec) :=
  '(frame_samples, err, streamdata) ← WebRtcIsacfix_DecodeFrameLen streamdata;
  if err <? 0 then Some (err, s, streamdata)
  else
    '(index, err, streamdata) ← WebRtcIsacfix_DecodeSendBandwidth streamdata;
    if err <? 0 then Some (err, s, streamdata)
    else
      '(err, s) ← WebRtcIsacfix_UpdateUplinkBwImpl s rtp_seq_number (i16 (Z.quot (frame_samples * 1000) 16000))
                    send_ts arr_ts packet_size (u16 index);
      if err <? 0 then Some (err, s, streamdata) else Some (0, s, streamdata).

(** ** The invariant *)

(** A flag that is raised by the 66th high estimate in a row. *)
Definition high_speed_ok (flag count : Z) : Prop :=
  (flag = 0 /\ 0 <= count < 66) \/ (flag = 1 /\ count = 66).

(** Header rate and limits of the inverse rate belong to the same frame
    length. *)
Definition limits_ok (hdr lo hi : Z) : Prop :=
  (hdr = 9333 /\ lo = 25978 /\ hi = 55539) \/ (hdr = 4666 /\ lo = 29284 /\ hi = 73213).

(** The ranges of the fields.  [recBw] may be one below [MIN_ISAC_BW], from
    the rounding of the inverse. *)
Record bwe_base (s : BwEstimatorstr) : Prop := {
  base_frame : prevFrameSizeMs s = 30 \/ prevFrameSizeMs s = 60;
  base_rtp : is_u16 (prevRtpNumber s) /\ is_u16 (prevRtpRate s);
  base_times : is_u32 (prevSendTime s) /\ is_u32 (prevArrivalTime s) /\ is_u32 (startWaitPeriod s);
  base_updates : is_i32 (countUpdates s) /\ is_i16 (countRecPkts s);
  base_bw : 9999 <= recBw s <= MAX_ISAC_BW;
  base_avg : 469302 <= recBwAvg s <= 1322656;
  base_avgQ : 1280000 <= recBwAvgQ s <= 4096400;
  base_limits : limits_ok (recHeaderRate s) (maxBwInv s) (minBwInv s);
  base_jitter : is_i32 (recJitter s) /\ recJitter s <= 327680;
  base_short : is_i32 (recJitterShortTerm s) /\ is_i32 (recJitterShortTermAbs s);
  base_delay : is_i32 (recMaxDelay s) /\ 2560 <= recMaxDelayAvgQ s <= 12800;
  base_send : 1280000 <= sendBwAvg s <= 4096000;
  base_send_delay : 2560 <= sendMaxDelayAvg s <= 12800;
  base_rec : high_speed_ok (highSpeedRec s) (countHighSpeedRec s);
  base_sent : high_speed_ok (highSpeedSend s) (countHighSpeedSent s);
  base_wait : inWaitPeriod s = 0 \/ inWaitPeriod s = 1;
  base_external : in_use (external_bw_info s) = 0
}.

(** At time [T] the next reduction is due [FS3] samples after the last update,
    or the last packet has just caused one. *)
Definition time_ok (T : Z) (s : BwEstimatorstr) : Prop :=
  is_u32 (lastUpdate s) /\ lastUpdate s <= T /\
  ((lastReduction s = u32 (lastUpdate s + FS3) /\ T - lastUpdate s <= FS3)
   \/ (lastReduction s = T /\ FS3 < T - lastUpdate s)).

(** The whole invariant with a bound [B] on the inverse rate. *)
Definition bwe_upto (B T : Z) (s : BwEstimatorstr) : Prop :=
  bwe_base s /\ 25977 <= recBwInv s <= B /\ (0 < countUpdates s -> time_ok T s).

Definition bwe_wf (s : BwEstimatorstr) : Prop := bwe_upto 73218 (prevArrivalTime s) s.

(** Proves that an assignment keeps the ranges of the other fields. *)
Ltac keep_base :=
  match goal with H : bwe_base _ |- bwe_base _ => destruct H; constructor; bwe_simpl; try assumption end.

Section Steps.
Implicit Types s : BwEstimatorstr.

Lemma md_average_range avg md : 2560 <= avg <= 12800 -> md = MIN_ISAC_MD \/ md = MAX_ISAC_MD ->
  2560 <= md_average avg md <= 12800.
Proof.
  intros Ha Hm. unfold md_average, WEBRTC_SPL_MUL.
  rewrite !(i32_id 461), (i32_id avg), (i32_id (461 * avg)) by (unfold is_i32; lia).
  rewrite Z.shiftl_mul_pow2, shiftr_div by lia.
  destruct Hm as [-> | ->]; unfold MIN_ISAC_MD, MAX_ISAC_MD; 
    rewrite i32_id by (unfold is_i32; lia); Z.div_mod_to_equations; lia.
Qed.

Lemma rate_tables i : 0 <= i < 12 ->
  10000 <= arr kQRateTable i <= 32000 /\ - 5 <= 10 * arr KQRate01 i - 65536 * arr kQRateTable i <= 5.
Proof.
  intros Hi.
  pose proof (all_below (fun i => (10000 <=? arr kQRateTable i) && (arr kQRateTable i <=? 32000) &&
    (- 5 <=? 10 * arr KQRate01 i - 65536 * arr kQRateTable i) &&
    (10 * arr KQRate01 i - 65536 * arr kQRateTable i <=? 5)) 12 i eq_refl Hi) as H.
  cbn beta in H. lia.
Qed.

(** The averages of the far side's estimate, for the index it sent. *)
Lemma send_average_range avg q : 1280000 <= avg <= 4096000 -> 10000 <= q <= 32000 ->
  let x := u32 (461 * avg + u32 (51 * (u32 q ≪ 7))) in
  WEBRTC_SPL_RSHIFT_U32 x 9 = (461 * avg + 6528 * q) / 512 /\
  1280000 <= WEBRTC_SPL_RSHIFT_U32 x 9 <= 4096000.
Proof.
  intros Ha Hq x. subst x. unfold WEBRTC_SPL_RSHIFT_U32.
  rewrite (u32_id q), Z.shiftl_mul_pow2, (u32_id (51 * _)), (u32_id (461 * avg + _)), (u32_id (461 * avg + _)), shiftr_div
    by (unfold is_u32; lia).
  replace (461 * avg + 51 * (q * 2 ^ 7)) with (461 * avg + 6528 * q) by lia. change (2 ^ 9) with 512.
  split; [done|]. Z.div_mod_to_equations; lia.
Qed.

Lemma count_high_speed_sent_ok s : bwe_base s ->
  bwe_base (count_high_speed_sent s) /\
  sendBwAvg (count_high_speed_sent s) = sendBwAvg s /\
  sendMaxDelayAvg (count_high_speed_sent s) = sendMaxDelayAvg s.
Proof.
  intros H. pose proof (base_sent s H) as Hs. unfold count_high_speed_sent, high_speed_ok in *.
  repeat case_match; bwe_simpl; (split; [|done]); keep_base; unfold high_speed_ok;
    rewrite ?i16_id in * by (unfold is_i16; lia); lia.
Qed.

(** The far side's index: ranges, and what it does to the averages. *)
Lemma UpdateUplinkBwRec_ok s i B T : bwe_upto B T s -> 0 <= i <= 23 ->
  exists s', WebRtcIsacfix_UpdateUplinkBwRec s i = Some (0, s') /\ bwe_upto B T s' /\
    prevArrivalTime s' = prevArrivalTime s /\ recMaxDelayAvgQ s' = recMaxDelayAvgQ s /\
    sendBwAvg s' = (461 * sendBwAvg s + 6528 * arr kQRateTable (i mod 12)) / 512 /\
    sendMaxDelayAvg s' = md_average (sendMaxDelayAvg s) (if 11 <? i then MAX_ISAC_MD else MIN_ISAC_MD).
Proof.
  intros (H & Hinv & Ht) Hi. unfold WebRtcIsacfix_UpdateUplinkBwRec.
  rewrite (base_external s H). simpl RTC_DCHECK. bind_simpl.
  rewrite (proj2 (Z.ltb_ge i 0)), (proj2 (Z.ltb_ge 23 i)) by lia. cbn [orb].
  set (md := if 11 <? i then MAX_ISAC_MD else MIN_ISAC_MD).
  replace (if 11 <? i then _ else _) with (i mod 12, md).
  2: { subst md. destruct (Z.ltb_spec 11 i); rewrite u16_id by (unfold is_u16; lia); f_equal;
       Z.div_mod_to_equations; lia. }
  pose proof (Z.mod_pos_bound i 12 ltac:(lia)) as Hm.
  rewrite rd_Some by (exact Hm). bind_simpl.
  destruct (rate_tables (i mod 12) Hm) as [Hq _]. destruct (send_average_range (sendBwAvg s) _ (base_send s H) Hq) as [E Hr].
  pose proof (md_average_range (sendMaxDelayAvg s) md (base_send_delay s H) ltac:(subst md; case_match; auto)) as Hd.
  bwe_simpl. rewrite E in *. match goal with |- context [count_high_speed_sent ?x] => set (s1 := x) end.
  assert (bwe_base s1) as H1 by (subst s1; keep_base).
  destruct (count_high_speed_sent_ok s1 H1) as (H2 & E1 & E2).
  eexists. split; [done|]. rewrite E1, E2. unfold bwe_upto, time_ok in *.
  assert (forall f : BwEstimatorstr -> Z, In f [recBwInv; countUpdates; lastUpdate; lastReduction; prevArrivalTime; recMaxDelayAvgQ] ->
    f (count_high_speed_sent s1) = f s) as Hf.
  { intros f Hf. unfold count_high_speed_sent. repeat case_match; repeat (destruct Hf as [<-|Hf]; [done|]); done. }
  rewrite !(Hf recBwInv), !(Hf countUpdates), !(Hf lastUpdate), !(Hf lastReduction), !(Hf prevArrivalTime),
    !(Hf recMaxDelayAvgQ)     by (simpl; tauto). done.
Qed.

Lemma cdiv_Some a b : 0 <= a -> 0 < b -> cdiv a b = Some (a / b).
Proof. intros. unfold cdiv. rewrite (proj2 (Z.eqb_neq b 0)), Z.quot_div_nonneg by lia. done. Qed.

(** The inverse of a rate within the limits. *)
Lemma inverse_rate bw hdr lo hi : 9999 <= bw <= MAX_ISAC_BW -> limits_ok hdr lo hi ->
  exists q, cdiv 1073741824 (u32 (bw + u32 hdr)) = Some q /\ 25977 <= q <= 73218.
Proof.
  intros Hb Hl. unfold MAX_ISAC_BW in Hb. unfold limits_ok in Hl.
  rewrite (u32_id hdr), (u32_id (bw + hdr)), cdiv_Some by (unfold is_u32; lia).
  eexists. split; [done|]. split.
  - apply Z.div_le_lower_bound; lia.
  - apply Z.div_le_upper_bound; lia.
Qed.

Lemma frame_size_step_ok s frameSize pksize T : bwe_upto 73218 T s ->
  exists r s', frame_size_step s frameSize pksize = Some (r, s') /\ is_u16 r /\ bwe_upto 73218 T s' /\
    prevArrivalTime s' = prevArrivalTime s /\ (0 < countUpdates s <-> 0 < countUpdates s').
Proof.
  intros (H & Hinv & Ht).
  assert (forall k, k = 0 \/ k = 1 -> 0 < countUpdates s -> exists s', change_frame_size k s = Some s' /\
    bwe_upto 73218 T s' /\ prevArrivalTime s' = prevArrivalTime s /\ 0 < countUpdates s') as Hc.
  { intros k Hk Hu. unfold change_frame_size. bwe_simpl.
    assert (limits_ok (arr kRecHeaderRate k) (arr kInvBandwidth (2 * k + 1)) (arr kInvBandwidth (2 * k))) as Hl
      by (destruct Hk as [-> | ->]; vm_compute; tauto).
    destruct (inverse_rate (recBw s) _ _ _ (base_bw s H) Hl) as (q & -> & Hq). bind_simpl.
    eexists. split; [done|]. unfold bwe_upto, time_ok in *. bwe_simpl.
    split; [|lia || tauto]. split; [|tauto]. keep_base. cint. }
  unfold frame_size_step.
  destruct (negb (frameSize =? prevFrameSizeMs s) && (0 <? countUpdates s)) eqn:E.
  - apply andb_true_iff in E as [_ E]. apply Z.ltb_lt in E.
    destruct (frameSize =? 60);
      [destruct (Hc 1 ltac:(lia) E) as (s' & -> & H1 & H2 & H3)|destruct (Hc 0 ltac:(lia) E) as (s' & -> & H1 & H2 & H3)];
      bind_simpl; do 2 eexists; (split; [done|]); split_and!; auto with cint; lia.
  - destruct (frameSize =? 60); bind_simpl; do 2 eexists; (split; [done|]); split_and!; auto with cint; unfold bwe_upto; tauto.
Qed.

Lemma restart_update_ok s A B T : is_u32 A -> bwe_upto B T s -> bwe_upto B A (restart_update s A).
Proof.
  intros HA (H & Hinv & Ht). unfold restart_update, bwe_upto, time_ok. bwe_simpl. split_and!; [|lia|lia|].
  - keep_base. split; [tauto|cint].
  - intros _. split; [done|]. split; [lia|]. left. unfold FS3. lia.
Qed.

(** The reduction factor is between 1 and 1.95 in Q13. *)
Lemma reduce_estimate_ok s A : 25977 <= recBwInv s <= 73218 -> is_u32 A -> 0 <= i32 (A - lastReduction s) ->
  exists q, reduce_estimate s A = Some (set_lastReduction (set_recBwInv s q) A) /\ 25977 <= q <= 145000.
Proof.
  intros Hinv HA Hm. unfold reduce_estimate. set (m := i32 (A - lastReduction s)) in *.
  set (m1 := if 208000 <? m then 208000 else m).
  assert (0 <= m1 <= 208000) as Hm1 by (subst m1; case_match; lia). clearbody m1.
  unfold WEBRTC_SPL_UMUL. change (u32 76) with 76. rewrite (u32_id m1), (u32_id (76 * m1)) by (unfold is_u32; lia).
  change 0x00FFFFFF with (2 ^ 24 - 1). rewrite land_ones_mod, Z.mod_small by lia.
  unfold WEBRTC_SPL_RSHIFT_U32. rewrite (u32_id (76 * m1)) by (unfold is_u32; lia).
  rewrite (shiftr_div (76 * m1) 24), (Z.div_small (76 * m1)) by lia.
  rewrite (lor_disjoint _ _ 24) by (reflexivity || lia). unfold shr32. cbn [Z.leb Z.ltb andb Z.compare].
  bind_simpl. rewrite Z.shiftr_0_r, (u32_id (_ + _)), (shiftr_div _ 11) by (unfold is_u32; lia).
  set (f := (0x01000000 + 76 * m1) / 2 ^ 11).
  assert (8192 <= f <= 15912) as Hf by (subst f; Z.div_mod_to_equations; lia). clearbody f.
  rewrite (proj2 (Z.eqb_neq f 0)) by lia. cbn [negb]. bwe_simpl. unfold WEBRTC_SPL_MUL.
  assert (0 <= recBwInv s * f < 2 ^ 31) as Hp by nia.
  rewrite (i32_id (recBwInv s)), !(i32_id f), (i32_id (recBwInv s)), (u32_id (i32 _)), (i32_id (i32 _)), (i32_id (_ * _))
    by (rewrite ?i32_id; unfold is_i32, is_u32; lia).
  rewrite shiftr_div, u32_id by (try (unfold is_u32); Z.div_mod_to_equations; lia).
  eexists. split; [done|]. split; [apply Z.div_le_lower_bound|apply Z.div_le_upper_bound]; nia.
Qed.

(** With the invariant at the previous packet's time, the time since the last
    reduction is at most the time since that packet. *)
Lemma since_reduction T A s : time_ok T s -> is_u32 A -> T <= A -> A - T < 2 ^ 31 ->
  FS3 < u32 (A - lastUpdate s) -> 0 <= i32 (A - lastReduction s).
Proof.
  unfold time_ok, FS3. intros (Hu & HT & Hc) HA Hle Hd Hl.
  rewrite u32_id in Hl by (unfold is_u32 in *; lia).
  destruct Hc as [ [-> Hc] | [-> Hc] ]; cint.
Qed.

Lemma reduction_step_ok s d frame A T : bwe_upto 73218 T s -> 0 < countUpdates s -> frame = 480 \/ frame = 960 ->
  is_u32 A -> T <= A -> A - T < 2 ^ 31 ->
  exists s', reduction_step s d frame A = Some s' /\ bwe_upto 145000 A s' /\ 0 < countUpdates s'.
Proof.
  intros (H & Hinv & Ht) Hc Hfr HA HT Hd. specialize (Ht Hc).
  assert (bwe_upto 145000 T s) as H1 by (split; [done|split; [lia|done]]).
  unfold reduction_step. case_match; [|eauto using restart_update_ok].
  case_match eqn:El; rewrite ?Z.ltb_lt, ?Z.ltb_ge in El.
  - rewrite (u32_id frame), cdiv_Some by (try apply u32_range; unfold is_u32; lia). bind_simpl.
    case_match; [|eauto using restart_update_ok].
    destruct (reduce_estimate_ok s A Hinv HA (since_reduction T A s Ht HA HT Hd El)) as (q & -> & Hq).
    eexists. split; [done|]. bwe_simpl. split; [|done]. unfold bwe_upto, time_ok, FS3 in *. bwe_simpl. split_and!; [keep_base|lia|lia|].
    destruct Ht as (Hu & HuT & _). rewrite u32_id in El by (unfold is_u32 in *; lia).
    intros _. split; [done|]. split; [lia|]. right. lia.
  - exists s. split; [done|]. split; [|done]. split; [done|]. split; [lia|]. intros _.
    unfold time_ok, FS3 in *. destruct Ht as (Hu & HuT & Hr). rewrite u32_id in El by (unfold is_u32 in *; lia).
    split; [done|]. split; lia.
Qed.

Lemma late_step_ok s ad sd frame A B T : is_u32 A -> bwe_upto B T s -> 
  exists s' c i, late_step s ad sd frame A = (s', c, i) /\ bwe_upto B T s' /\
    (c = DELAY_CORRECTION_MED \/ c = DELAY_CORRECTION_MAX) /\ (0 < countUpdates s <-> 0 < countUpdates s').
Proof.
  intros HA (H & Hinv & Ht). unfold late_step.
  assert (bwe_upto B T (set_startWaitPeriod (set_inWaitPeriod s 1) A)) as Hw.
  { unfold bwe_upto, time_ok in *. bwe_simpl. split; [|tauto]. keep_base; [tauto|lia]. }
  repeat case_match; do 3 eexists; (split; [done|]); split_and!; auto; unfold bwe_upto; tauto.
Qed.

Lemma current_bw_inv_range s ad pksize : bwe_base s ->
  maxBwInv s <= current_bw_inv s ad pksize <= minBwInv s.
Proof.
  intros H. pose proof (base_limits s H) as Hl. unfold limits_ok in Hl. unfold current_bw_inv. cbv zeta.
  match goal with |- context [WEBRTC_SPL_RSHIFT_U32 ?x 4] => generalize (WEBRTC_SPL_RSHIFT_U32 x 4) as c end.
  intros c. repeat case_match; lia.
Qed.

(** The weight of a new observation. *)
Lemma weight_range c : 0 < c -> is_i32 c ->
  0 <= (if 99 <? c then 82
        else u16 (WebRtcSpl_DivW32W16 (i32 (8192 + (i32 (c + 1) ≫ 1))) (i16 (i32 (c + 1))))) <= 8192.
Proof.
  intros Hc Hi. case_match eqn:E; [lia|]. apply Z.ltb_ge in E.
  rewrite (i32_id (c + 1)), (i16_id (c + 1)), shiftr_div by (unfold is_i32, is_i16; lia).
  assert (1 <= (c + 1) / 2 ^ 1 <= 50) by (Z.div_mod_to_equations; lia).
  rewrite i32_id by (unfold is_i32; lia). unfold WebRtcSpl_DivW32W16.
  rewrite (proj2 (Z.eqb_neq (c + 1) 0)), Z.quot_div_nonneg by lia. cbn [negb].
  assert (0 <= (8192 + (c + 1) / 2 ^ 1) / (c + 1) <= 8192) as Hd.
  { split; [apply Z.div_pos; lia|]. apply Z.div_le_upper_bound; lia. }
  rewrite i32_id, u16_id by (unfold is_i32, is_u16; lia). done.
Qed.

Lemma weighted_mean w a b lo hi : 0 <= w <= 8192 -> 0 <= lo <= a -> a <= hi -> lo <= b <= hi -> hi <= 145000 ->
  lo <= WEBRTC_SPL_RSHIFT_U32 (u32 (WEBRTC_SPL_UMUL w a + WEBRTC_SPL_UMUL (u32 (8192 - w)) b)) 13 <= hi.
Proof.
  intros Hw Ha Ha' Hb Hhi. unfold WEBRTC_SPL_RSHIFT_U32, WEBRTC_SPL_UMUL.
  assert (0 <= w * a <= 8192 * 145000) by nia. assert (0 <= (8192 - w) * b <= 8192 * 145000) by nia.
  assert (8192 * lo <= w * a + (8192 - w) * b <= 8192 * hi) as Hs by nia.
  rewrite (u32_id w), (u32_id a), (u32_id (w * a)), (u32_id (8192 - w)), (u32_id (8192 - w)), (u32_id b),
    (u32_id (_ * b)) by (unfold is_u32; lia).
  rewrite (u32_id (_ + _)), (u32_id (_ + _)), shiftr_div by (unfold is_u32; lia).
  split; [apply Z.div_le_lower_bound|apply Z.div_le_upper_bound]; lia.
Qed.

Lemma shift_to_zero_range x n : 0 <= n -> is_i32 x -> is_i32 (shift_to_zero x n).
Proof. intros Hn Hx. unfold shift_to_zero. case_match; [apply i32_range|by apply i32_shiftr]. Qed.

Lemma jitter_step_ok s w noise sign B T : bwe_upto B T s -> bwe_upto B T (jitter_step s w noise sign).
Proof.
  intros (H & Hinv & Ht). unfold jitter_step. split; [|done].
  set (j := i32 (_ + _) ≫ 10). assert (is_i32 j) as Hj by (apply i32_shiftr; [lia|apply i32_range]). clearbody j.
  keep_base.
  - destruct (Z.ltb_spec 327680 j); (split; [|lia]); [unfold is_i32; lia|done].
  - split; [apply shift_to_zero_range; [lia|]|apply i32_shiftr; [lia|] ]; apply i32_range.
Qed.

Lemma arrival_noise_Some s ad pksize : bwe_base s -> exists n sg, arrival_noise s ad pksize = Some (n, sg).
Proof.
  intros H. pose proof (base_avg s H) as Ha. unfold arrival_noise.
  rewrite cdiv_Some by (try apply u32_range; lia). bind_simpl. case_match; eauto.
Qed.

Lemma estimation_step_ok s ad frame A pksize r T : bwe_upto 145000 T s -> 0 < countUpdates s -> is_u32 A -> T = A ->
  exists s', estimation_step s ad frame A pksize r = Some s' /\ bwe_upto 145000 A s'.
Proof.
  intros (H & Hinv & Ht) Hc HA ->. unfold estimation_step. case_match; [|exists s; split; [done|unfold bwe_upto; tauto]].
  bwe_simpl. pose proof (weight_range (countUpdates s) Hc (proj1 (base_updates s H))) as Hw.
  revert Hw. match goal with |- 0 <= ?x <= _ -> _ => generalize x as w end. intros w Hw.
  match goal with |- context [current_bw_inv _ ?x _] => generalize x as ad1 end. intros ad1.
  set (s1 := set_countUpdates s (i32 (countUpdates s + 1))).
  assert (bwe_base s1) as H1 by (subst s1; keep_base; split; [apply i32_range|tauto]).
  pose proof (current_bw_inv_range s1 ad1 pksize H1) as Hcur.
  pose proof (base_limits s1 H1) as Hl. unfold limits_ok in Hl.
  pose proof (weighted_mean w (current_bw_inv s1 ad1 pksize) (recBwInv s) 25977 145000 Hw ltac:(lia) ltac:(lia) Hinv
    ltac:(lia)) as Hm.
  match goal with |- context [arrival_noise ?x] => set (s2 := x) end.
  assert (bwe_upto 145000 A s2) as H2.
  { subst s2. apply (restart_update_ok _ A _ A HA). split; [|split; [exact Hm|]].
    - destruct H1. constructor; bwe_simpl; assumption.
    - bwe_simpl. unfold time_ok in *. bwe_simpl. intros _. exact (Ht Hc). }
  destruct (arrival_noise_Some s2 ad1 pksize (proj1 H2)) as (n & sg & ->). bind_simpl.
  eexists. split; [done|]. by apply jitter_step_ok.
Qed.

Lemma packet_step_ok s rtp frame send A pksize r T : bwe_upto 73218 T s -> 0 < countUpdates s ->
  frame = 480 \/ frame = 960 -> is_u32 A -> T <= A -> A - T < 2 ^ 31 ->
  exists s' c i, packet_step s rtp frame send A pksize r = Some (s', c, i) /\ bwe_upto 145000 A s' /\
    (c = DELAY_CORRECTION_MED \/ c = DELAY_CORRECTION_MAX).
Proof.
  intros H Hc Hfr HA HT Hd. unfold packet_step.
  assert (bwe_upto 73218 T (leave_wait_period s A) /\ 0 < countUpdates (leave_wait_period s A)) as [H1 Hc1].
  { unfold leave_wait_period. case_match; [|done]. split; [|done]. destruct H as (H & Hinv & Ht).
    unfold bwe_upto, time_ok in *. bwe_simpl. split; [|tauto]. keep_base. lia. }
  destruct (reduction_step_ok _ (i32 (send - prevSendTime (leave_wait_period s A))) frame A T H1 Hc1 Hfr HA HT Hd)
    as (s2 & -> & H2 & Hc2).
  bind_simpl. case_match; [|do 3 eexists; eauto].
  destruct (late_step_ok s2 (i32 (A - prevArrivalTime s2)) (i32 (send - prevSendTime (leave_wait_period s A))) frame A
    _ _ HA H2) as (s3 & c & i & -> & H3 & Hcf & Hc3).
  destruct (estimation_step_ok s3 (i32 (A - prevArrivalTime s2)) frame A pksize r A H3 ltac:(tauto) HA eq_refl)
    as (s4 & -> & H4).
  bind_simpl. do 3 eexists. eauto.
Qed.

Lemma limit_estimate_ok s B T : bwe_upto B T s ->
  bwe_upto 73218 T (limit_estimate s) /\
  maxBwInv (limit_estimate s) <= recBwInv (limit_estimate s) <= minBwInv (limit_estimate s).
Proof.
  intros (H & Hinv & Ht). pose proof (base_limits s H) as Hl. unfold limits_ok in Hl.
  unfold limit_estimate, bwe_upto, time_ok in *.
  destruct (Z.ltb_spec (minBwInv s) (recBwInv s)); [|destruct (Z.ltb_spec (recBwInv s) (maxBwInv s))];
    bwe_simpl; (split; [|lia]); (split; [|split; [lia|exact Ht] ]); try exact H; keep_base.
Qed.

(** The rate of a limited inverse. *)
Lemma rate_of_inverse inv hdr lo hi : limits_ok hdr lo hi -> lo <= inv <= hi ->
  exists q, cdiv 1073741824 inv = Some q /\ 9999 <= u32 (q - hdr) <= MAX_ISAC_BW /\ u32 (q - hdr) = q - hdr.
Proof.
  intros Hl Hi. unfold limits_ok, MAX_ISAC_BW in *. rewrite cdiv_Some by lia. eexists. split; [done|].
  assert (1073741824 / hi <= 1073741824 / inv <= 1073741824 / lo) as Hq.
  { split; apply Z.div_le_compat_l; lia. }
  assert (9999 <= 1073741824 / inv - hdr <= 32000) as Hr.
  { destruct Hl as [(-> & -> & ->)|(-> & -> & ->)].
    - change (1073741824 / 55539) with 19333 in Hq. change (1073741824 / 25978) with 41332 in Hq. lia.
    - change (1073741824 / 73213) with 14665 in Hq. change (1073741824 / 29284) with 36666 in Hq. lia. }
  rewrite u32_id by (unfold is_u32; lia). split; [exact Hr|reflexivity].
Qed.

Lemma immediate_step_ok s c T : bwe_upto 73218 T s -> c = DELAY_CORRECTION_MED \/ c = DELAY_CORRECTION_MAX ->
  exists s', immediate_step s c = Some s' /\ bwe_upto 73218 T s' /\ prevArrivalTime s' = prevArrivalTime s.
Proof.
  intros (H & Hinv & Ht) Hc. pose proof (base_bw s H) as Hb. unfold MAX_ISAC_BW in Hb. pose proof (base_limits s H) as Hl.
  assert (10000 <= corrected_rate (recBw s) c <= 32000) as Hw.
  { unfold corrected_rate, WEBRTC_SPL_UMUL, WEBRTC_SPL_RSHIFT_U32, MIN_ISAC_BW.
    assert (c = 819 \/ c = 717) as Hc' by exact Hc.
    rewrite (u32_id c), (u32_id (recBw s)), (u32_id (c * _)), (u32_id (c * _)), shiftr_div by (unfold is_u32; nia).
    destruct (Z.ltb_spec (c * recBw s / 2 ^ 10) 10000) as [Hlt|Hge]; [lia|].
    split; [exact Hge|]. apply Z.div_le_upper_bound; nia. }
  unfold immediate_step. revert Hw. generalize (corrected_rate (recBw s) c) as w. intros w Hw. bwe_simpl.
  assert (is_u32 (recHeaderRate s) /\ 4666 <= recHeaderRate s <= 9333) as [Hh Hh'] by (unfold limits_ok, is_u32 in *; lia).
  destruct (inverse_rate w _ _ _ ltac:(unfold MAX_ISAC_BW; lia) Hl) as (q & -> & Hq). bind_simpl.
  eexists. split; [done|]. bwe_simpl. split; [|done]. split; [|split; [exact Hq|exact Ht] ].
  rewrite (u32_id (recHeaderRate s)), (u32_id (w + _)), !Z.shiftl_mul_pow2, !u32_id by (try assumption; unfold is_u32; lia).
  destruct H; constructor; bwe_simpl; try assumption;
    [unfold MAX_ISAC_BW; lia|lia|lia|split; [unfold is_i32; lia|tauto] ].
Qed.

Lemma store_packet_ok s f r n B T : f = 30 \/ f = 60 -> is_u16 r -> is_u16 n ->
  bwe_upto B T s -> bwe_upto B T (store_packet s f r n).
Proof. intros Hf Hr Hn (H & Hinv & Ht). split; [|split; assumption]. unfold store_packet. keep_base. auto. Qed.

Lemma finish_packet_ok s rtp f send A r c i : bwe_upto 145000 A s -> f = 30 \/ f = 60 -> is_u16 rtp -> is_u16 r ->
  is_u32 send -> is_u32 A -> c = DELAY_CORRECTION_MED \/ c = DELAY_CORRECTION_MAX ->
  exists s', finish_packet s rtp f send A r c i = Some (0, s') /\ bwe_wf s' /\ prevArrivalTime s' = A.
Proof.
  intros H Hf Hrtp Hr Hsend HA Hc. unfold finish_packet.
  destruct (limit_estimate_ok s _ _ H) as [H1 Hlim]. revert H1 Hlim. generalize (limit_estimate s) as s1. intros s1 H1 Hlim.
  pose proof (store_packet_ok s1 f r rtp _ _ Hf Hr Hrtp H1) as H2.
  assert (maxBwInv (store_packet s1 f r rtp) <= recBwInv (store_packet s1 f r rtp) <= minBwInv (store_packet s1 f r rtp))
    as Hlim2 by exact Hlim.
  revert H2 Hlim2. generalize (store_packet s1 f r rtp) as s2. intros s2 (H2 & Hinv & Ht) Hlim2.
  set (s3 := if negb (prevArrivalTime s2 =? 0xffffffff) then _ else s2).
  assert (exists md, is_i32 md /\ s3 = set_recMaxDelay s2 md) as (md & Hmd & ->).
  { subst s3. case_match.
    - eexists. split; [apply i32_range|reflexivity].
    - exists (recMaxDelay s2). split; [apply (base_delay s2 H2)|by destruct s2]. }
  bwe_simpl.
  destruct (rate_of_inverse _ _ _ _ (base_limits s2 H2) Hlim2) as (q & -> & Hq & _). bind_simpl. bwe_simpl.
  match goal with |- context [immediate_step ?x] => set (s4 := x) end.
  assert (bwe_upto 73218 A s4) as H4.
  { split; [|split; [exact Hinv|exact Ht] ]. subst s4. destruct H2; constructor; bwe_simpl; try assumption; tauto. }
  assert (prevArrivalTime s4 = A) as E4 by reflexivity.
  case_match; bind_simpl.
  - destruct (immediate_step_ok s4 c A H4 Hc) as (s5 & -> & H5 & E5). bind_simpl.
    eexists. split; [done|]. unfold bwe_wf. by rewrite E5, E4.
  - eexists. split; [done|]. unfold bwe_wf. by rewrite E4.
Qed.

(** An index outside the table changes nothing. *)
Lemma UpdateUplinkBwRec_range s i : in_use (external_bw_info s) = 0 -> i < 0 \/ 23 < i ->
  WebRtcIsacfix_UpdateUplinkBwRec s i = Some (- ISAC_RANGE_ERROR_BW_ESTIMATOR, s).
Proof.
  intros Hu Hi. unfold WebRtcIsacfix_UpdateUplinkBwRec. rewrite Hu. simpl RTC_DCHECK. bind_simpl.
  by replace ((i <? 0) || (23 <? i)) with true by lia.
Qed.

Lemma timed_packet_ok s rtp f send A pksize r T : bwe_upto 73218 T s -> is_u16 rtp -> f = 30 \/ f = 60 ->
  is_u32 send -> is_u32 A -> T <= A -> A - T < 2 ^ 31 -> is_u16 r ->
  exists s', timed_packet s rtp f send A pksize r = Some (0, s') /\ bwe_wf s' /\ prevArrivalTime s' = A.
Proof.
  intros H3 Hrtp Hf Hsend HA Hge Hgap Hr. unfold timed_packet. destruct (Z.ltb_spec 0 (countUpdates s)) as [Hc|Hc].
  - destruct (packet_step_ok s rtp (SAMPLES_PER_MSEC * f) send A pksize r _ H3 Hc
      ltac:(unfold SAMPLES_PER_MSEC; lia) HA Hge ltac:(lia)) as (s4 & c & im & -> & H4 & Hcf).
    bind_simpl. by apply finish_packet_ok.
  - bind_simpl. apply finish_packet_ok; try assumption; [|by left].
    destruct (restart_update_ok s A _ _ HA H3) as (H5 & Hinv & Ht). split; [|split].
    + keep_base. split; [apply i32_range|tauto].
    + change (25977 <= recBwInv s <= 145000). destruct H3 as (_ & ? & _). lia.
    + intros _. unfold restart_update, time_ok. bwe_simpl. split; [exact HA|]. split; [lia|]. left. unfold FS3. lia.
Qed.

Lemma receive_packet_ok s rtp f send A pksize : bwe_wf s -> is_u16 rtp -> f = 30 \/ f = 60 ->
  is_u32 send -> is_u32 A -> A - prevArrivalTime s < 2 ^ 31 ->
  exists s', receive_packet s rtp f send A pksize = Some (0, s') /\ bwe_wf s' /\ prevArrivalTime s' = A.
Proof.
  intros H Hrtp Hf Hsend HA Hgap. unfold receive_packet.
  destruct (frame_size_step_ok s f pksize _ H) as (r & s2 & -> & Hr & H2 & E2 & _). bind_simpl. rewrite <-E2 in *.
  destruct (Z.ltb_spec A (prevArrivalTime s2)) as [Hlt|Hge].
  - eexists. split; [done|]. split; [|done].
    apply (store_packet_ok _ f r rtp 73218 A Hf Hr Hrtp), (restart_update_ok _ A _ (prevArrivalTime s2) HA).
    destruct H2 as (H2 & Hinv & Ht). split; [|split; [exact Hinv|exact Ht] ]. keep_base. tauto.
  - apply (timed_packet_ok _ _ _ _ _ _ _ (prevArrivalTime s2)); auto; try lia.
    destruct H2 as (H2 & Hinv & Ht). split; [|split; [exact Hinv|exact Ht] ]. keep_base.
    split; [tauto|apply i16_range].
Qed.

Lemma UpdateUplinkBwImpl_ok s rtp f send A pksize i : bwe_wf s -> is_u16 rtp -> f = 30 \/ f = 60 ->
  is_u32 send -> is_u32 A -> A - prevArrivalTime s < 2 ^ 31 -> 0 <= i <= 23 ->
  exists s', WebRtcIsacfix_UpdateUplinkBwImpl s rtp f send A pksize i = Some (0, s') /\ bwe_wf s' /\
    prevArrivalTime s' = A.
Proof.
  intros H Hrtp Hf Hsend HA Hgap Hi. unfold WebRtcIsacfix_UpdateUplinkBwImpl.
  rewrite (base_external s (proj1 H)). simpl RTC_DCHECK. bind_simpl. rewrite (i16_id i) by (unfold is_i16; lia).
  destruct (UpdateUplinkBwRec_ok s i _ _ H Hi) as (s1 & -> & H1 & E1 & _). bind_simpl. cbn [Z.ltb Z.compare].
  rewrite <-E1 in H1, Hgap. by apply receive_packet_ok.
Qed.

(** ** Reports *)

Lemma GetDownlinkBandwidth_ok s : bwe_base s -> recJitterShortTermAbs s <> 0 ->
  exists r, WebRtcIsacfix_GetDownlinkBandwidth s = Some r /\ MIN_ISAC_BW <= r <= MAX_ISAC_BW.
Proof.
  intros H Hj. unfold WebRtcIsacfix_GetDownlinkBandwidth. rewrite (base_external s H). simpl RTC_DCHECK. bind_simpl.
  rewrite cdiv_Some.
  2: lia.
  2: { pose proof (proj2 (base_short s H)). pose proof (u32_range (recJitterShortTermAbs s)). cint. }
  bind_simpl. cbv zeta. match goal with |- context [?x ≫ 14] => generalize (x ≫ 14) as r end. intros r.
  eexists. split; [done|]. unfold MIN_ISAC_BW, MAX_ISAC_BW.
  rewrite u16_id; unfold is_u16; repeat case_match; lia.
Qed.

Lemma GetDownlinkMaxDelay_ok s : bwe_base s ->
  exists d, WebRtcIsacfix_GetDownlinkMaxDelay s = Some d /\ MIN_ISAC_MD <= d <= MAX_ISAC_MD.
Proof.
  intros H. unfold WebRtcIsacfix_GetDownlinkMaxDelay. rewrite (base_external s H). simpl RTC_DCHECK. bind_simpl.
  eexists. split; [done|]. unfold MIN_ISAC_MD, MAX_ISAC_MD. repeat case_match; lia.
Qed.

(** The search stops at the first table entry that is not below the rate, or
    at the last one. *)
Lemma rate_search_spec n rate k : 1 <= k <= 11 -> Z.of_nat n + k = 11 -> (1 < k -> arr kQRateTable (k - 1) < rate) ->
  let r := rate_search n rate k in
  1 <= r <= 11 /\ (1 < r -> arr kQRateTable (r - 1) < rate) /\ (r < 11 -> rate <= arr kQRateTable r).
Proof.
  revert k. induction n as [|n IH]; intros k Hk Hn Hlo; cbn [rate_search]; [split_and!; auto; lia|].
  rewrite (proj2 (Z.ltb_lt k 11)) by lia. case_match eqn:E; [split_and!; auto; lia|].
  apply IH; [lia|lia|]. intros _. replace (k + 1 - 1) with k by lia. lia.
Qed.

(** The quantised average this end keeps, for the rate index it sends. *)
Definition quantised_average (Q i : Z) : Z := (461 * Q - 25 * Q / 128 + arr KQRate01 i) / 512.

(** In units of [2^-16] bit/s, the distance of that average from the rate. *)
Definition quantised_distance (Q rate i : Z) : Z :=
  Z.abs (461 * Q - 25 * Q / 128 + arr KQRate01 i - 65536 * rate).

Lemma rate_index_spec s rate : bwe_base s -> MIN_ISAC_BW <= rate <= MAX_ISAC_BW ->
  exists r i, rate_index s rate = (i, set_recBwAvgQ s (quantised_average (recBwAvgQ s) i)) /\
    1 <= r <= 11 /\ (1 < r -> arr kQRateTable (r - 1) < rate) /\ (r < 11 -> rate <= arr kQRateTable r) /\
    (i = r - 1 \/ i = r) /\
    quantised_distance (recBwAvgQ s) rate i <= quantised_distance (recBwAvgQ s) rate r /\
    quantised_distance (recBwAvgQ s) rate i <= quantised_distance (recBwAvgQ s) rate (r - 1) /\
    1280000 <= quantised_average (recBwAvgQ s) i <= 4096400.
Proof.
  intros H Hr. unfold MIN_ISAC_BW, MAX_ISAC_BW in Hr. pose proof (base_avgQ s H) as HQ.
  destruct (rate_search_spec 10 rate 1 ltac:(lia) eq_refl ltac:(lia)) as (H1 & H2 & H3).
  unfold rate_index. set (r := rate_search 10 rate 1) in *. clearbody r. generalize dependent (recBwAvgQ s). intros Q HQ.
  destruct (rate_tables r ltac:(lia)) as [Hq Hk], (rate_tables (r - 1) ltac:(lia)) as [Hq1 Hk1].
  unfold WEBRTC_SPL_MUL, WEBRTC_SPL_UMUL.
  rewrite (i32_id Q), (i32_id 25), (i32_id (Q * 25)), (u32_id 461), (u32_id Q), (u32_id (461 * Q)), shiftr_div
    by (unfold is_i32, is_u32; lia).
  replace (Q * 25 / 2 ^ 7) with (25 * Q / 128) by (f_equal; lia).
  assert (250000 <= 25 * Q / 128 <= 800100) as Hd by (Z.div_mod_to_equations; lia).
  rewrite (u32_id (25 * Q / 128)), Z.shiftl_mul_pow2 by (unfold is_u32; lia).
  set (X := 461 * Q - 25 * Q / 128). assert (589000000 <= X <= 1887700000) as HX by (subst X; Z.div_mod_to_equations; lia).
  rewrite (i32_id X), (i32_id (rate * 2 ^ 16)), (i32_id (X + arr KQRate01 r)), (i32_id (rate * 2 ^ 16 - X)),
    (i32_id (X + arr KQRate01 r - _)), (i32_id (_ - X - _)) by (unfold is_i32; lia).
  set (i := if _ <? _ then u16 (r - 1) else r). exists r, i.
  assert (arr kQRateTable (r - 1) <= arr kQRateTable r) as Hmono by (apply sortedb_arr; [reflexivity|lia|simpl; lia]).
  assert ((i = r - 1 \/ i = r) /\ Z.abs (X + arr KQRate01 i - 65536 * rate) <= Z.abs (X + arr KQRate01 r - 65536 * rate) /\
    Z.abs (X + arr KQRate01 i - 65536 * rate) <= Z.abs (X + arr KQRate01 (r - 1) - 65536 * rate)) as (Hi & D1 & D2).
  { subst i. destruct (Z.ltb_spec (rate * 2 ^ 16 - X - arr KQRate01 (r - 1)) (X + arr KQRate01 r - rate * 2 ^ 16));
      rewrite ?(u16_id (r - 1)) by (unfold is_u16; lia); lia. }
  clearbody i. destruct (rate_tables i ltac:(lia)) as [Hqi Hki].
  rewrite (i32_id (X + arr KQRate01 i)), shiftr_div by (unfold is_i32; lia). unfold quantised_average, quantised_distance.
  change (2 ^ 9) with 512. fold X.
  assert (1280000 <= (X + arr KQRate01 i) / 512 <= 4096400) as Ha.
  { split; [apply Z.div_le_lower_bound|apply Z.div_le_upper_bound]; subst X; Z.div_mod_to_equations; lia. }
  rewrite u32_id by (unfold is_u32; lia). split_and!; auto; lia.
Qed.

Lemma delay_bit_spec s d : bwe_base s -> MIN_ISAC_MD <= d <= MAX_ISAC_MD ->
  exists b, delay_bit s d
    = (b, set_recMaxDelayAvgQ s (md_average (recMaxDelayAvgQ s) (if 11 <? b then MAX_ISAC_MD else MIN_ISAC_MD))) /\
    (b = 0 \/ b = 12).
Proof.
  intros H Hd. pose proof (proj2 (base_delay s H)) as Ha. unfold delay_bit, md_average, WEBRTC_SPL_MUL.
  rewrite (Z.mul_comm (i32 (recMaxDelayAvgQ s))). destruct (_ <? _); [exists 0|exists 12]; (split; [|auto]).
  - change (11 <? 0) with false. cbn iota. by change (51 * (MIN_ISAC_MD ≪ 9)) with 130560.
  - change (11 <? 12) with true. cbn iota. by change (51 * (MAX_ISAC_MD ≪ 9)) with 652800.
Qed.

Lemma count_high_speed_rec_ok s : bwe_base s ->
  bwe_base (count_high_speed_rec s) /\ exists f c, count_high_speed_rec s = set_countHighSpeedRec (set_highSpeedRec s f) c.
Proof.
  intros H. pose proof (base_rec s H) as Hs. unfold count_high_speed_rec, high_speed_ok in *.
  split.
  - repeat case_match; bwe_simpl; keep_base; unfold high_speed_ok;
      rewrite ?i16_id in * by (unfold is_i16; lia); lia.
  - repeat case_match.
    + by exists 1, (i16 (countHighSpeedRec s + 1)).
    + exists (highSpeedRec s), (i16 (countHighSpeedRec s + 1)). by destruct s.
    + exists (highSpeedRec s), 0. by destruct s.
    + exists (highSpeedRec s), (countHighSpeedRec s). by destruct s.
Qed.

Lemma GetDownlinkBwIndexImpl_ok s : bwe_wf s -> recJitterShortTermAbs s <> 0 ->
  exists rate r i s', WebRtcIsacfix_GetDownlinkBandwidth s = Some rate /\ MIN_ISAC_BW <= rate <= MAX_ISAC_BW /\
    WebRtcIsacfix_GetDownlinkBwIndexImpl s = Some (i, s') /\ 0 <= i <= 23 /\ bwe_wf s' /\
    recBwAvgQ s' = quantised_average (recBwAvgQ s) (i mod 12) /\
    recMaxDelayAvgQ s' = md_average (recMaxDelayAvgQ s) (if 11 <? i then MAX_ISAC_MD else MIN_ISAC_MD) /\
    1 <= r <= 11 /\ (1 < r -> arr kQRateTable (r - 1) < rate) /\ (r < 11 -> rate <= arr kQRateTable r) /\
    (i mod 12 = r - 1 \/ i mod 12 = r) /\
    quantised_distance (recBwAvgQ s) rate (i mod 12) <= quantised_distance (recBwAvgQ s) rate r /\
    quantised_distance (recBwAvgQ s) rate (i mod 12) <= quantised_distance (recBwAvgQ s) rate (r - 1).
Proof.
  intros (H & Hinv & Ht) Hj. destruct (GetDownlinkBandwidth_ok s H Hj) as (rate & E & Hr). exists rate.
  unfold WebRtcIsacfix_GetDownlinkBwIndexImpl. rewrite E, (base_external s H). cbn [Z.eqb negb]. bind_simpl. bwe_simpl.
  match goal with |- context [rate_index ?x rate] => set (s1 := x) end.
  assert (bwe_base s1) as H1.
  { subst s1. pose proof (base_avg s H) as Ha. pose proof (base_limits s H) as Hl. unfold limits_ok in Hl.
    unfold MIN_ISAC_BW, MAX_ISAC_BW in Hr. keep_base. unfold WEBRTC_SPL_RSHIFT_U32.
    rewrite (u32_id (recHeaderRate s)), (u32_id (rate + _)), Z.shiftl_mul_pow2, (u32_id (_ * 2 ^ 5)),
      (u32_id (922 * _)), (u32_id (102 * _)), (u32_id (_ + _)), (u32_id (_ + _)), shiftr_div by (unfold is_u32; lia).
    split; [apply Z.div_le_lower_bound|apply Z.div_le_upper_bound]; lia. }
  assert (recBwAvgQ s1 = recBwAvgQ s) as EQ by reflexivity.
  destruct (rate_index_spec s1 rate H1 Hr) as (r & k & -> & Hr1 & Hlo & Hhi & Hk & D1 & D2 & Hq). rewrite EQ in *.
  set (s2 := set_recBwAvgQ s1 _). assert (bwe_base s2) as H2 by (subst s2; destruct H1; constructor; bwe_simpl; assumption).
  destruct (count_high_speed_rec_ok s2 H2) as [H3 (f & c & E3)]. rewrite E3 in *.
  set (s3 := set_countHighSpeedRec _ c) in *.
  destruct (GetDownlinkMaxDelay_ok s3 H3) as (d & -> & Hd). bind_simpl.
  destruct (delay_bit_spec s3 d H3 Hd) as (b & -> & Hb). rewrite u16_id by (unfold is_u16; lia).
  exists r, (k + b). eexists. 
  assert ((k + b) mod 12 = k) as -> by (destruct Hb as [-> | ->]; Z.div_mod_to_equations; lia).
  replace (11 <? k + b) with (11 <? b) by (destruct Hb as [-> | ->]; lia).
  assert (recMaxDelayAvgQ s3 = recMaxDelayAvgQ s) as -> by reflexivity.
  split_and!; auto; try lia; try reflexivity.
  split; [|split; [exact Hinv|exact Ht] ]. keep_base. split; [tauto|].
  apply md_average_range; [exact (proj2 (base_delay s H))|case_match; auto].
Qed.
End Steps.

(** ** What a packet leaves alone *)

(** The averages exchanged with the far side. *)
Definition link_fields (s s' : BwEstimatorstr) : Prop :=
  sendBwAvg s' = sendBwAvg s /\ sendMaxDelayAvg s' = sendMaxDelayAvg s /\ recMaxDelayAvgQ s' = recMaxDelayAvgQ s.

#[export] Instance link_fields_preorder : PreOrder link_fields.
Proof. split; [done|]. intros a b c (E1 & E2 & E3) (F1 & F2 & F3). unfold link_fields. by rewrite F1, F2, F3. Qed.

Lemma restart_update_link s A : link_fields s (restart_update s A).
Proof. done. Qed.
Lemma change_frame_size_link k s s' : change_frame_size k s = Some s' -> link_fields s s'.
Proof. unfold change_frame_size. destruct (cdiv _ _) as [q|]; [|done]. by intros [= <-]. Qed.
Lemma frame_size_step_link s f p r s' : frame_size_step s f p = Some (r, s') -> link_fields s s'.
Proof.
  intros E. unfold frame_size_step in E. destruct (f =? 60); apply bind_Some in E as (s1 & E1 & E);
    injection E as _ <-; (destruct (_ && _); [eauto using change_frame_size_link|by injection E1 as <-]).
Qed.
Lemma reduce_estimate_link s A s' : reduce_estimate s A = Some s' -> link_fields s s'.
Proof.
  unfold reduce_estimate. destruct (shr32 _ _) as [q|]; [|done]. by intros [= <-].
Qed.
Lemma reduction_step_link s d fr A s' : reduction_step s d fr A = Some s' -> link_fields s s'.
Proof.
  intros E. unfold reduction_step in E. case_match; [|injection E as <-; apply restart_update_link].
  case_match; [|by injection E as <-]. apply bind_Some in E as (n & _ & E).
  case_match; [eauto using reduce_estimate_link|injection E as <-; apply restart_update_link].
Qed.
Lemma late_step_link s ad sd fr A : link_fields s (late_step s ad sd fr A).1.1.
Proof. unfold late_step. repeat case_match; done. Qed.
Lemma jitter_step_link s w n sg : link_fields s (jitter_step s w n sg).
Proof. done. Qed.
Lemma estimation_step_link s ad fr A p r s' : estimation_step s ad fr A p r = Some s' -> link_fields s s'.
Proof.
  unfold estimation_step. destruct (_ && _); [|by intros [= <-] ].
  destruct (arrival_noise _ _ _) as [ [n sg] |]; [|done]. by intros [= <-].
Qed.
Lemma packet_step_link s rtp fr send A p r s' c i :
  packet_step s rtp fr send A p r = Some (s', c, i) -> link_fields s s'.
Proof.
  intros E. unfold packet_step in E. apply bind_Some in E as (s1 & E1 & E).
  apply reduction_step_link in E1. assert (link_fields s (leave_wait_period s A)) as H0
    by (unfold leave_wait_period; destruct (_ && _); reflexivity || done).
  case_match; [|injection E as <- <- <-; by rewrite H0].
  pose proof (late_step_link s1 (i32 (A - prevArrivalTime s1)) (i32 (send - prevSendTime (leave_wait_period s A))) fr A) as H2.
  destruct (late_step _ _ _ _ _) as [[s2 c2] i2]. cbn [fst] in H2.
  apply bind_Some in E as (s3 & E3 & E). injection E as <- _ _. apply estimation_step_link in E3.
  by rewrite H0, E1, H2.
Qed.
Lemma limit_estimate_link s : link_fields s (limit_estimate s).
Proof. unfold limit_estimate. repeat case_match; done. Qed.
Lemma immediate_step_link s c s' : immediate_step s c = Some s' -> link_fields s s'.
Proof.
  unfold immediate_step. destruct (cdiv _ _) as [q|]; [|done]. by intros [= <-].
Qed.
Lemma finish_packet_link s rtp f send A r c i e s' :
  finish_packet s rtp f send A r c i = Some (e, s') -> link_fields s s'.
Proof.
  intros E. rewrite (limit_estimate_link s). revert E. unfold finish_packet. generalize (limit_estimate s) as s1.
  intros s1 E. assert (link_fields s1 (store_packet s1 f r rtp)) as -> by done. revert E.
  generalize (store_packet s1 f r rtp) as s2. intros s2 E. set (s3 := if negb _ then _ else s2) in E.
  assert (link_fields s2 s3) as -> by (subst s3; destruct (negb (prevArrivalTime s2 =? _)); done).
  clearbody s3. revert E.
  destruct (cdiv _ _) as [q|]; [|done]. cbn [mbind option_bind]. destruct (negb (i =? 0)).
  - destruct (immediate_step _ c) as [s4|] eqn:E4; [|done]. intros [= _ <-]. exact (immediate_step_link _ _ _ E4).
  - by intros [= _ <-].
Qed.

Lemma timed_packet_link s rtp f send A p r e s' :
  timed_packet s rtp f send A p r = Some (e, s') -> link_fields s s'.
Proof.
  unfold timed_packet. destruct (0 <? countUpdates s).
  - destruct (packet_step s rtp _ send A p r) as [ [ [s4 c] im] |] eqn:E4; [|done]. cbn [mbind option_bind].
    intros E. apply packet_step_link in E4. apply finish_packet_link in E. by rewrite E4.
  - cbn [mbind option_bind]. intros E. apply finish_packet_link in E. exact E.
Qed.
Lemma receive_packet_link s rtp f send A p e s' : receive_packet s rtp f send A p = Some (e, s') -> link_fields s s'.
Proof.
  unfold receive_packet. destruct (frame_size_step s f p) as [ [r s2] |] eqn:E2; [|done]. cbn [mbind option_bind].
  apply frame_size_step_link in E2. rewrite E2. destruct (A <? prevArrivalTime s2); [by intros [= _ <-]|].
  intros E. apply timed_packet_link in E. exact E.
Qed.

Lemma UpdateUplinkBwRec_status s i r s' : 0 <= i <= 23 -> WebRtcIsacfix_UpdateUplinkBwRec s i = Some (r, s') -> r = 0.
Proof.
  intros Hi. unfold WebRtcIsacfix_UpdateUplinkBwRec. destruct (RTC_DCHECK _); [|done]. cbn [mbind option_bind].
  rewrite (proj2 (Z.ltb_ge i 0)), (proj2 (Z.ltb_ge 23 i)) by lia. cbn [orb].
  destruct (if 11 <? i then _ else _) as [k md]. destruct (rd kQRateTable k); [|done]. by intros [= <- _].
Qed.

(** A packet with a valid index updates the averages of the far side's estimate
    exactly as the index alone. *)
Lemma UpdateUplinkBwImpl_link s rtp f send A p i s' : 0 <= i <= 23 ->
  WebRtcIsacfix_UpdateUplinkBwImpl s rtp f send A p i = Some (0, s') ->
  exists s1, WebRtcIsacfix_UpdateUplinkBwRec s i = Some (0, s1) /\ link_fields s1 s'.
Proof.
  intros Hi. unfold WebRtcIsacfix_UpdateUplinkBwImpl. rewrite (i16_id i) by (unfold is_i16; lia).
  destruct (RTC_DCHECK _); [|done]. cbn [mbind option_bind].
  destruct (WebRtcIsacfix_UpdateUplinkBwRec s i) as [ [r s1] |] eqn:E1; [|done]. cbn [mbind option_bind].
  rewrite (UpdateUplinkBwRec_status s i r s1 Hi E1). cbn [Z.ltb Z.compare]. intros E.
  apply receive_packet_link in E. by exists s1.
Qed.

(** Reporting an estimate leaves what the far side reported alone. *)
Definition far_fields (s s' : BwEstimatorstr) : Prop :=
  sendBwAvg s' = sendBwAvg s /\ sendMaxDelayAvg s' = sendMaxDelayAvg s.

#[export] Instance far_fields_preorder : PreOrder far_fields.
Proof. split; [done|]. intros a b c [E1 E2] [F1 F2]. unfold far_fields. by rewrite F1, F2. Qed.

Lemma rate_index_far s rate : far_fields s (rate_index s rate).2.
Proof. done. Qed.
Lemma delay_bit_far s d : far_fields s (delay_bit s d).2.
Proof. unfold delay_bit. destruct (_ <? _); done. Qed.
Lemma count_high_speed_rec_far s : far_fields s (count_high_speed_rec s).
Proof. unfold count_high_speed_rec. repeat case_match; done. Qed.

Lemma GetDownlinkBwIndexImpl_far s i s' : WebRtcIsacfix_GetDownlinkBwIndexImpl s = Some (i, s') -> far_fields s s'.
Proof.
  unfold WebRtcIsacfix_GetDownlinkBwIndexImpl. destruct (negb _); [by intros [= _ <-]|].
  destruct (WebRtcIsacfix_GetDownlinkBandwidth s) as [rate|]; [|done]. cbn [mbind option_bind].
  set (s1 := set_recBwAvg s _). assert (far_fields s s1) as H1 by done. clearbody s1.
  pose proof (rate_index_far s1 rate) as H2. destruct (rate_index s1 rate) as [k s2]. cbn [snd] in H2.
  pose proof (count_high_speed_rec_far s2) as H3. revert H3. generalize (count_high_speed_rec s2) as s3. intros s3 H3.
  destruct (WebRtcIsacfix_GetDownlinkMaxDelay s3) as [d|]; [|done]. cbn [mbind option_bind].
  pose proof (delay_bit_far s3 d) as H4. destruct (delay_bit s3 d) as [b s4]. cbn [snd] in H4.
  intros [= _ <-]. by rewrite H1, H2, H3, H4.
Qed.

(** ** The two ends of a connection *)

(** One side of a connection with the estimate of the other: [link s r] holds
    of a local state [s] and a far state [r] when every index [s] has reported
    has reached [r], alone or in a packet, and [s] has corrected its quantised
    average at once for no late packet. *)
Inductive link : BwEstimatorstr -> BwEstimatorstr -> Prop :=
| link_init a b : is_u32 (startWaitPeriod a) -> is_u32 (startWaitPeriod b) ->
    link (snd (WebRtcIsacfix_InitBandwidthEstimator a)) (snd (WebRtcIsacfix_InitBandwidthEstimator b))
| link_index s r i s' r' : link s r -> recJitterShortTermAbs s <> 0 ->
    WebRtcIsacfix_GetDownlinkBwIndexImpl s = Some (i, s') ->
    WebRtcIsacfix_UpdateUplinkBwRec r i = Some (0, r') -> link s' r'
| link_packet s r rtp f send A p i s' r' : link s r -> recJitterShortTermAbs s <> 0 ->
    WebRtcIsacfix_GetDownlinkBwIndexImpl s = Some (i, s') ->
    is_u16 rtp -> f = 30 \/ f = 60 -> is_u32 send -> is_u32 A -> A - prevArrivalTime r < 2 ^ 31 ->
    WebRtcIsacfix_UpdateUplinkBwImpl r rtp f send A p i = Some (0, r') -> link s' r'
| link_receive s r rtp f send A p j s' : link s r ->
    is_u16 rtp -> f = 30 \/ f = 60 -> is_u32 send -> is_u32 A -> A - prevArrivalTime s < 2 ^ 31 -> 0 <= j <= 23 ->
    WebRtcIsacfix_UpdateUplinkBwImpl s rtp f send A p j = Some (0, s') -> recBwAvgQ s' = recBwAvgQ s -> link s' r
| link_report s r j r' : link s r -> recJitterShortTermAbs r <> 0 ->
    WebRtcIsacfix_GetDownlinkBwIndexImpl r = Some (j, r') -> link s r'.

(** The quantised averages of both ends differ by at most 88 bit/s (Q7), the
    delay averages not at all. *)
Definition link_close (s r : BwEstimatorstr) : Prop :=
  - 11172 <= recBwAvgQ s - sendBwAvg r <= 11172 /\ recMaxDelayAvgQ s = sendMaxDelayAvg r.

Lemma init_wf a : is_u32 (startWaitPeriod a) -> bwe_wf (snd (WebRtcIsacfix_InitBandwidthEstimator a)).
Proof.
  intros Ha. unfold bwe_wf, bwe_upto. cbn [snd WebRtcIsacfix_InitBandwidthEstimator]. bwe_simpl. split; [|split; [lia|lia] ].
  constructor; bwe_simpl; unfold is_u16, is_u32, is_i32, is_i16, limits_ok, high_speed_ok, INIT_FRAME_LEN, INIT_BN_EST,
    MAX_ISAC_BW, INIT_REC_BN_EST_Q5, INIT_BN_EST_Q7, INIT_HDR_RATE in *; try lia; try done; vm_compute; tauto.
Qed.

(** The step of both averages for the same index. *)
Lemma averages_close Q S i : 0 <= i < 12 -> 1280000 <= Q <= 4096400 -> 1280000 <= S <= 4096000 ->
  - 11172 <= Q - S <= 11172 ->
  - 11172 <= quantised_average Q i - (461 * S + 6528 * arr kQRateTable i) / 512 <= 11172.
Proof.
  intros Hi HQ HS HD. destruct (rate_tables i Hi) as [Hq Hk]. unfold quantised_average.
  generalize dependent (arr kQRateTable i). generalize dependent (arr KQRate01 i). intros K q Hq Hk.
  Z.div_mod_to_equations; lia.
Qed.

Lemma exchange_close s r i s' r' : bwe_wf s -> bwe_wf r -> link_close s r -> recJitterShortTermAbs s <> 0 ->
  WebRtcIsacfix_GetDownlinkBwIndexImpl s = Some (i, s') -> WebRtcIsacfix_UpdateUplinkBwRec r i = Some (0, r') ->
  0 <= i <= 23 /\ bwe_wf s' /\ bwe_wf r' /\ link_close s' r'.
Proof.
  intros Hs Hr [HQ Hd] Hj Es Er.
  destruct (GetDownlinkBwIndexImpl_ok s Hs Hj) as (rate & n & i' & s1 & _ & _ & E1 & Hi & Hs1 & EQ & Ed & _).
  rewrite Es in E1. injection E1 as <- <-.
  destruct (UpdateUplinkBwRec_ok r i _ _ Hr Hi) as (r1 & E1 & Hr1 & EA & _ & EB & ED). rewrite Er in E1. injection E1 as <-.
  split; [done|]. split; [done|]. split; [unfold bwe_wf; by rewrite EA|]. unfold link_close. rewrite EQ, Ed, EB, ED, Hd. split; [|done].
  apply averages_close; [apply Z.mod_pos_bound; lia|exact (base_avgQ s (proj1 Hs))|exact (base_send r (proj1 Hr))|done].
Qed.

Lemma link_invariant s r : link s r -> bwe_wf s /\ bwe_wf r /\ link_close s r.
Proof.
  induction 1 as [a b Ha Hb|s r i s' r' H (Hs & Hr & HL) Hj Es Er|s r rtp f send A p i s' r' H (Hs & Hr & HL) Hj Es Hrtp Hf Hsend HA Hgap Er
    |s r rtp f send A p j s' H (Hs & Hr & HL) Hrtp Hf Hsend HA Hgap Hi Es EQ|s r j r' H (Hs & Hr & HL) Hj Er].
  - split; [by apply init_wf|]. split; [by apply init_wf|]. split; [vm_compute; intuition congruence|reflexivity].
  - destruct (exchange_close s r i s' r' Hs Hr HL Hj Es Er) as (_ & ? & ? & ?). done.
  - destruct (GetDownlinkBwIndexImpl_ok s Hs Hj) as (_ & _ & i' & s1 & _ & _ & E1 & Hi & _).
    rewrite Es in E1. injection E1 as <- <-.
    destruct (UpdateUplinkBwImpl_link r rtp f send A p i r' Hi Er) as (r1 & E1 & L1 & L2 & _).
    destruct (exchange_close s r i s' r1 Hs Hr HL Hj Es E1) as (_ & Hs' & _ & HL').
    destruct (UpdateUplinkBwImpl_ok r rtp f send A p i Hr Hrtp Hf Hsend HA Hgap Hi) as (r2 & E2 & Hr2 & _).
    rewrite Er in E2. injection E2 as <-. split; [done|]. split; [done|]. unfold link_close in *. by rewrite L1, L2.
  - destruct (UpdateUplinkBwImpl_ok s rtp f send A p j Hs Hrtp Hf Hsend HA Hgap Hi) as (s2 & E2 & Hs2 & _).
    rewrite Es in E2. injection E2 as <-. split; [done|]. split; [done|].
    destruct (UpdateUplinkBwImpl_link s rtp f send A p j s' Hi Es) as (s1 & E1 & _ & _ & L3).
    destruct (UpdateUplinkBwRec_ok s j _ _ Hs Hi) as (s3 & E3 & _ & _ & L4 & _). rewrite E1 in E3. injection E3 as <-.
    unfold link_close in *. rewrite EQ, L3, L4. done.
  - destruct (GetDownlinkBwIndexImpl_ok r Hr Hj) as (_ & _ & i' & r1 & _ & _ & E1 & _ & Hr1 & _).
    rewrite Er in E1. injection E1 as <- <-. split; [done|]. split; [done|].
    destruct (GetDownlinkBwIndexImpl_far r j r' Er) as [F1 F2]. unfold link_close in *. by rewrite F1, F2.
Qed.

(** What the API reports of the far side's estimate. *)
Lemma uplink_reports s : bwe_wf s ->
  WebRtcIsacfix_GetUplinkBandwidth s = Some (sendBwAvg s / 128) /\ MIN_ISAC_BW <= sendBwAvg s / 128 <= MAX_ISAC_BW /\
  WebRtcIsacfix_GetUplinkMaxDelay s = Some (sendMaxDelayAvg s / 512) /\
  MIN_ISAC_MD <= sendMaxDelayAvg s / 512 <= MAX_ISAC_MD.
Proof.
  intros (H & _). pose proof (base_send s H) as H1. pose proof (base_send_delay s H) as H2.
  unfold WebRtcIsacfix_GetUplinkBandwidth, WebRtcIsacfix_GetUplinkMaxDelay. rewrite (base_external s H). cbn [Z.eqb negb].
  unfold MIN_ISAC_BW, MAX_ISAC_BW, MIN_ISAC_MD, MAX_ISAC_MD.
  assert (10000 <= sendBwAvg s / 128 <= 32000) as Hb by (Z.div_mod_to_equations; lia).
  assert (5 <= sendMaxDelayAvg s / 512 <= 25) as Hd by (Z.div_mod_to_equations; lia).
  rewrite !shiftr_div by lia. change (2 ^ 7) with 128. change (2 ^ 9) with 512.
  rewrite !i16_id by (unfold is_i16; lia). unfold clamp16. cbn [Z.leb Z.compare Pos.compare Pos.compare_cont RTC_DCHECK mbind option_bind].
  rewrite (proj2 (Z.ltb_ge _ 10000)), (proj2 (Z.ltb_ge 32000 _)), (proj2 (Z.ltb_ge _ 5)), (proj2 (Z.ltb_ge 25 _)) by lia. tauto.
Qed.

(** ** The rate model *)

Record rate_wf (st : RateModel) : Prop := {
  rate_exceed : PrevExceed st = 0 \/ PrevExceed st = 1;
  rate_ago : is_i16 (ExceedAgo st);
  rate_burst : 0 <= BurstCounter st <= BURST_LEN;
  rate_init : 0 <= InitCounter st <= INIT_BURST_LEN + 10;
  rate_buffer : 0 <= StillBuffered st <= 2000
}.

Section RateModel.
Context (F BN D : Z) (HF : F = 480 \/ F = 960) (HBN : MIN_ISAC_BW <= BN <= MAX_ISAC_BW).
Context (HD : MIN_ISAC_MD <= D <= MAX_ISAC_MD).

Lemma cdiv_quot a b : b <> 0 -> cdiv a b = Some (Z.quot a b).
Proof. intros H. unfold cdiv. by rewrite (proj2 (Z.eqb_neq b 0)). Qed.

Lemma rate_product a A : 0 <= a <= A -> A <= 1024 -> i32 (i32 a * BN) = a * BN /\ 0 <= a * BN <= A * 32000.
Proof.
  unfold MIN_ISAC_BW, MAX_ISAC_BW in HBN. intros Ha HA. assert (0 <= a * BN <= A * 32000) as Hp by nia.
  rewrite (i32_id a), i32_id by (unfold is_i32; lia). done.
Qed.

(** A burst asks for at most 270 bytes in 60 ms and 153 in 30 ms. *)
Lemma burst_rate_ok sb : 0 <= sb <= 2000 ->
  exists r, burst_rate sb F BN D = Some r /\ 0 <= r /\ r * F <= 18432000 * 960.
Proof.
  intros Hsb. unfold burst_rate, BURST_LEN, MIN_ISAC_MD, MAX_ISAC_MD, SAMPLES_PER_MSEC in *.
  change (Z.quot 512 3) with 170. rewrite (shiftr_div _ 9) by lia. change (2 ^ 9) with 512.
  assert (exists k k3, cdiv 4096 F = Some k /\ cdiv 4096 (3 * F) = Some k3 /\
    ((F = 480 /\ k = 8 /\ k3 = 2) \/ (F = 960 /\ k = 4 /\ k3 = 1))) as (k & k3 & -> & -> & Hk).
  { destruct HF as [-> | ->]; [exists 8, 2|exists 4, 1]; (split; [reflexivity|split; [reflexivity|lia] ]). }
  destruct (Z.ltb_spec sb ((512 - 170) * D / 512)) as [Hlt|Hge]; bind_simpl; eexists; (split; [reflexivity|]).
  - rewrite (i32_id (D * k3)), shiftr_div by (try (unfold is_i32); nia).
    destruct (rate_product (512 + 16 * (D * k3 / 2 ^ 3)) (if F =? 960 then 560 else 608)) as [-> Hr];
      destruct Hk as [(-> & -> & ->)|(-> & -> & ->)]; cbn [Z.eqb Pos.eqb] in *; Z.div_mod_to_equations; lia.
  - unfold WEBRTC_SPL_MUL. set (m := if sb <? D then _ else _).
    assert (0 <= m /\ m * F <= 18432000 * 960) as [Hm Hm'].
    { subst m. destruct (Z.ltb_spec sb D) as [Hd|Hd].
      - assert (D - sb <= 9) by (revert Hge; Z.div_mod_to_equations; lia).
        rewrite (i32_id (_ * k)), shiftr_div by (try (unfold is_i32); nia).
        destruct (rate_product (512 + 16 * ((D - sb) * k / 2 ^ 3)) (if F =? 960 then 576 else 656)) as [-> Hr];
          destruct Hk as [(-> & -> & ->)|(-> & -> & ->)]; cbn [Z.eqb Pos.eqb] in *; Z.div_mod_to_equations; lia.
      - rewrite (i32_id 16), (i32_id (sb - D)), (i32_id (16 * _)) by (unfold is_i32; lia).
        destruct (Z.leb_spec F (16 * (sb - D))); [lia|].
        rewrite (i32_id (_ * k)), shiftr_div by (try (unfold is_i32); nia).
        destruct (rate_product (512 - 16 * (sb - D) * k / 2 ^ 3) 512) as [-> Hr];
          destruct Hk as [(-> & -> & ->)|(-> & -> & ->)]; Z.div_mod_to_equations; lia. }
    clearbody m. unfold MIN_ISAC_BW, MAX_ISAC_BW in HBN.
    rewrite (i32_id 532), (i32_id 22), !(i32_id BN), (i32_id (532 * BN)), (i32_id (22 * BN)) by (unfold is_i32; lia).
    destruct (Z.ltb_spec m (532 * BN)); [|lia]. rewrite i32_id by (unfold is_i32; lia).
    destruct HF as [-> | ->]; lia.
Qed.

(** In the initial phase the rate is 0 and then [INIT_RATE]. *)
Lemma min_rate_ok st : rate_wf st ->
  exists r st', min_rate st F BN D = Some (r, st') /\ rate_wf st' /\ 0 <= r /\ r * F <= 18432000 * 960 /\
    (0 < InitCounter st -> r = if InitCounter st <=? INIT_BURST_LEN then INIT_RATE else 0) /\
    StillBuffered st' = StillBuffered st.
Proof.
  intros Hst. pose proof Hst as [H1 H2 H3 H4 H5]. destruct st as [pe ea bc ic sb].
  unfold min_rate, BURST_LEN, INIT_BURST_LEN in *.
  cbn [PrevExceed ExceedAgo BurstCounter InitCounter StillBuffered] in *. destruct (Z.ltb_spec 0 ic).
  - do 2 eexists. split; [reflexivity|]. rewrite i16_id by (unfold is_i16; lia).
    split; [constructor; cbn; unfold BURST_LEN, INIT_BURST_LEN; auto; lia|]. unfold INIT_RATE.
    destruct (ic <=? 5); (split; [lia|]); (split; [lia|]); done.
  - destruct (Z.eqb_spec bc 0) as [->|Hb]; cbn [negb].
    + do 2 eexists. split; [reflexivity|]. split; [exact Hst|]. split; [lia|]. split; [lia|]. split; [lia|done].
    + destruct (burst_rate_ok sb H5) as (r & -> & Hr & Hr'). bind_simpl. do 2 eexists. split; [reflexivity|].
      rewrite i16_id by (unfold is_i16; lia).
      split; [constructor; cbn; unfold BURST_LEN, INIT_BURST_LEN; auto; lia|]. split; [done|]. split; [done|]. split; [lia|done].
Qed.

Lemma exceed_step_ok st n : rate_wf st ->
  exists st', exceed_step st n F BN = Some st' /\ rate_wf st' /\ StillBuffered st' = StillBuffered st.
Proof.
  intros [H1 H2 H3 H4 H5]. destruct st as [pe ea bc ic sb]. cbn in H1, H2, H3, H4, H5. unfold exceed_step.
  rewrite cdiv_quot by lia. bind_simpl. eexists. split; [reflexivity|].
  repeat case_match; (split; [|done]); constructor; cbn; auto with cint; unfold is_i16; lia.
Qed.

Lemma burst_step_ok st : rate_wf st -> rate_wf (burst_step st) /\ StillBuffered (burst_step st) = StillBuffered st.
Proof.
  intros Hst. pose proof Hst as [H1 H2 H3 H4 H5]. destruct st as [pe ea bc ic sb]. cbn in H1, H2, H3, H4, H5.
  unfold burst_step. case_match; [|done]. split; [|done].
  constructor; cbn; auto. unfold BURST_LEN. case_match; lia.
Qed.

(** The buffer fills by the transmission time and drains by the frame. *)
Lemma buffer_step_ok sb n : 0 <= sb <= 2000 -> 0 <= n <= 400 ->
  buffer_step sb n F BN = Some (Z.max 0 (sb + 8000 * n / BN - F / 16)).
Proof.
  intros Hs Hn. unfold buffer_step, MIN_ISAC_BW, MAX_ISAC_BW, SAMPLES_PER_MSEC in *.
  rewrite (i32_id (n * 8000)), cdiv_Some by (unfold is_i32; lia). bind_simpl. rewrite (Z.mul_comm n).
  assert (0 <= 8000 * n / BN <= 320) as Ht
    by (split; [apply Z.div_pos; lia|apply Z.div_le_upper_bound; lia]).
  rewrite (Z.quot_div_nonneg F 16) by lia.
  assert (30 <= F / 16 <= 60) as HF' by (destruct HF as [-> | ->]; vm_compute; intuition congruence).
  rewrite (i16_id (_ / BN)), (i16_id (sb + _)), (i16_id (_ - _)) by (unfold is_i16; lia).
  f_equal. destruct (Z.ltb_spec (sb + 8000 * n / BN - F / 16) 0); lia.
Qed.

Lemma GetMinBytes_ok st n : rate_wf st -> 0 <= n <= 400 ->
  exists m st', WebRtcIsacfix_GetMinBytes st n F BN D = Some (m, st') /\ rate_wf st' /\ 0 <= m <= 270 /\
    (0 < InitCounter st -> m = if InitCounter st <=? INIT_BURST_LEN then 20000 * F / 128000 else 0) /\
    StillBuffered st' = Z.min 2000 (Z.max 0 (StillBuffered st + 8000 * Z.max n m / BN - F / 16)).
Proof.
  intros Hst Hn. unfold WebRtcIsacfix_GetMinBytes.
  destruct (min_rate_ok st Hst) as (r & st1 & -> & Hst1 & Hr0 & HrF & Hinit & E1). bind_simpl.
  assert (0 <= r <= 36864000) as Hr by (destruct HF; subst F; lia).
  rewrite (i32_id (r + 256)), shiftr_div by (unfold is_i32; lia).
  set (x := (r + 256) / 2 ^ 9). assert (0 <= x /\ x * 512 <= r + 256) as [Hx Hx'] by (subst x; Z.div_mod_to_equations; lia).
  assert (0 <= x * F <= 34560480) as HxF by (destruct HF; subst F; lia).
  rewrite (i32_id (x * F)), (u32_id (x * F)), Z.quot_div_nonneg by (unfold is_i32, is_u32, FS8; lia). unfold FS8.
  assert (0 <= x * F / 128000 <= 270) as Hm by (split; [apply Z.div_pos; lia|apply Z.div_le_upper_bound; lia]).
  rewrite (u16_id (x * F / 128000)), (i16_id (x * F / 128000)) by (unfold is_u16, is_i16; lia).
  set (m := x * F / 128000) in *. set (n' := if n <? m then m else n).
  assert (n' = Z.max n m) as En by (subst n'; destruct (Z.ltb_spec n m); lia).
  destruct (exceed_step_ok st1 n' Hst1) as (st2 & -> & Hst2 & E2). bind_simpl.
  destruct (burst_step_ok st2 Hst2) as [Hst3 E3]. destruct (burst_step st2) as [pe ea bc ic sb].
  cbn [StillBuffered] in E3. rewrite E3, E2, E1. pose proof (rate_buffer st Hst) as Hb.
  rewrite buffer_step_ok by lia. bind_simpl. do 2 eexists. split; [reflexivity|]. rewrite En.
  destruct Hst3 as [G1 G2 G3 G4 G5]. cbn in G1, G2, G3, G4, G5.
  set (y := Z.max 0 (_ - F / 16)). assert (0 <= y) by (subst y; lia). split; [|split; [done|split] ].
  - constructor; cbn; auto. destruct (Z.ltb_spec 2000 y); lia.
  - intros Hi. specialize (Hinit Hi). subst m x. rewrite Hinit. destruct (_ <=? _); destruct HF as [-> | ->]; reflexivity.
  - cbn. destruct (Z.ltb_spec 2000 y); lia.
Qed.
End RateModel.

(** ** Properties *)

(** C7: The invariant of the bandwidth estimator.  Initialisation establishes
    it; every packet, with any size, sequence number, time stamps and index, is
    processed and keeps it, as long as consecutive arrival times are less than
    2^31 samples apart: no division by zero, no shift by a negative count or by
    the width or more, no access outside a table and no failed assertion.
    (Signed sums and products are taken modulo 2^32: [3891 * recJitterShortTerm]
    can exceed [int32_t] in states the invariant admits.)  An index outside
    0 .. 23 is refused with nothing changed, by the negated error code
    [ISAC_RANGE_ERROR_BW_ESTIMATOR] (the comments announce -1).  The invariant bounds the rates,
    their averages and inverses, keeps header rate and limits of the same frame
    length, and relates the two time stamps of the last update and reduction. *)
Theorem bandwidth_estimator_invariant :
  (forall a, is_u32 (startWaitPeriod a) -> bwe_wf (snd (WebRtcIsacfix_InitBandwidthEstimator a))) /\
  (forall s rtp f send A pksize i, bwe_wf s -> is_u16 rtp -> f = 30 \/ f = 60 -> is_u32 send -> is_u32 A ->
     A - prevArrivalTime s < 2 ^ 31 -> 0 <= i <= 23 ->
     exists s', WebRtcIsacfix_UpdateUplinkBwImpl s rtp f send A pksize i = Some (0, s') /\ bwe_wf s' /\
       prevArrivalTime s' = A) /\
  (forall s rtp f send A pksize i, bwe_wf s -> is_u16 i -> 23 < i ->
     WebRtcIsacfix_UpdateUplinkBwImpl s rtp f send A pksize i = Some (- ISAC_RANGE_ERROR_BW_ESTIMATOR, s)) /\
  (forall s i, bwe_wf s -> 0 <= i <= 23 ->
     exists s', WebRtcIsacfix_UpdateUplinkBwRec s i = Some (0, s') /\ bwe_wf s') /\
  (forall s, bwe_wf s ->
     WebRtcIsacfix_GetUplinkBandwidth s = Some (sendBwAvg s / 128) /\ MIN_ISAC_BW <= sendBwAvg s / 128 <= MAX_ISAC_BW).
Proof.
  split; [exact init_wf|]. split; [exact UpdateUplinkBwImpl_ok|]. split; [|split].
  - intros s rtp f send A p i H Hi H23. unfold WebRtcIsacfix_UpdateUplinkBwImpl.
    pose proof (base_external s (proj1 H)) as Hu. rewrite Hu. simpl RTC_DCHECK. bind_simpl.
    rewrite UpdateUplinkBwRec_range by (done || cint). reflexivity.
  - intros s i H Hi. destruct (UpdateUplinkBwRec_ok s i _ _ H Hi) as (s' & E & H' & EA & _). exists s'.
    split; [done|]. unfold bwe_wf. by rewrite EA.
  - intros s H. destruct (uplink_reports s H) as (? & ? & _). done.
Qed.

(** A record before initialisation, and the initial state. *)
Definition raw_bwe : BwEstimatorstr :=
  mkBwe 0 0 0 0 0 0 0 0 0 0 0 0 0 0 0 0 0 0 0 0 0 0 0 0 0 0 0 0 0 (mkBwInfo 0 0 0 0 0).
Definition init_bwe : BwEstimatorstr := snd (WebRtcIsacfix_InitBandwidthEstimator raw_bwe).

Lemma init_bwe_wf : bwe_wf init_bwe.
Proof. apply init_wf. unfold is_u32. cbn. lia. Qed.

Lemma bandwidth_estimator_invariant_witness :
  exists s', WebRtcIsacfix_UpdateUplinkBwImpl init_bwe 1 30 480 500 120 7 = Some (0, s') /\ bwe_wf s' /\
    prevArrivalTime s' = 500.
Proof.
  apply (proj1 (proj2 bandwidth_estimator_invariant)); [exact init_bwe_wf|..]; unfold is_u16, is_u32; cbn; lia.
Defined.

(** The reported index.  While the short-term jitter is not 0, the
    downlink estimate is a rate between 10000 and 32000 bit/s, and the index is
    in 0 .. 23: its rate part is one of the two entries of the rate table around
    the estimate, namely the one that brings the quantised average closer to
    it, and the quantised averages are updated with what the index stands for. *)
Theorem downlink_index_correct s : bwe_wf s -> recJitterShortTermAbs s <> 0 ->
  exists rate r i s', WebRtcIsacfix_GetDownlinkBandwidth s = Some rate /\ MIN_ISAC_BW <= rate <= MAX_ISAC_BW /\
    WebRtcIsacfix_GetDownlinkBwIndexImpl s = Some (i, s') /\ 0 <= i <= 23 /\ bwe_wf s' /\
    recBwAvgQ s' = quantised_average (recBwAvgQ s) (i mod 12) /\
    recMaxDelayAvgQ s' = md_average (recMaxDelayAvgQ s) (if 11 <? i then MAX_ISAC_MD else MIN_ISAC_MD) /\
    1 <= r <= 11 /\ (1 < r -> arr kQRateTable (r - 1) < rate) /\ (r < 11 -> rate <= arr kQRateTable r) /\
    (i mod 12 = r - 1 \/ i mod 12 = r) /\
    quantised_distance (recBwAvgQ s) rate (i mod 12) <= quantised_distance (recBwAvgQ s) rate r /\
    quantised_distance (recBwAvgQ s) rate (i mod 12) <= quantised_distance (recBwAvgQ s) rate (r - 1).
Proof. exact (GetDownlinkBwIndexImpl_ok s). Qed.

Lemma downlink_index_correct_witness :
  exists i s', WebRtcIsacfix_GetDownlinkBwIndexImpl init_bwe = Some (i, s') /\ 0 <= i <= 23 /\ bwe_wf s'.
Proof.
  destruct (downlink_index_correct init_bwe init_bwe_wf) as (rate & r & i & s' & _ & _ & E & Hi & Hs & _).
  - vm_compute. discriminate.
  - exists i, s'. exact (conj E (conj Hi Hs)).
Defined.

(** C8: The two ends of a connection agree.  Whatever the order in which the
    ends report indices and receive packets, the average rate the far end
    computes from the indices it receives stays within 88 bit/s of the quantised
    average the near end keeps, and the delay averages are equal, as long as
    every index arrives and no late packet makes the near end reset its
    average.  So the near end knows at which rate the far end will send. *)
Theorem link_ends_agree s r : link s r ->
  bwe_wf s /\ bwe_wf r /\ recMaxDelayAvgQ s = sendMaxDelayAvg r /\
  exists bw, WebRtcIsacfix_GetUplinkBandwidth r = Some bw /\ - 88 <= recBwAvgQ s / 128 - bw <= 88.
Proof.
  intros H. destruct (link_invariant s r H) as (Hs & Hr & HQ & Hd). split; [done|]. split; [done|]. split; [done|].
  destruct (uplink_reports r Hr) as (E & _). exists (sendBwAvg r / 128). split; [done|].
  revert HQ. generalize (recBwAvgQ s) (sendBwAvg r). intros Q S HQ. Z.div_mod_to_equations; lia.
Qed.

Definition ex_reported : Z * BwEstimatorstr := Eval vm_compute in
  default (0, init_bwe) (WebRtcIsacfix_GetDownlinkBwIndexImpl init_bwe).
Definition ex_informed : BwEstimatorstr := Eval vm_compute in
  from_option snd init_bwe (WebRtcIsacfix_UpdateUplinkBwImpl init_bwe 1 60 960 1000 150 ex_reported.1).

Lemma link_ends_agree_witness :
  exists bw, WebRtcIsacfix_GetUplinkBandwidth ex_informed = Some bw /\ - 88 <= recBwAvgQ ex_reported.2 / 128 - bw <= 88.
Proof.
  apply (link_ends_agree ex_reported.2 ex_informed).
  apply (link_packet init_bwe init_bwe 1 60 960 1000 150 ex_reported.1).
  - apply (link_init raw_bwe raw_bwe); unfold is_u32; cbn; lia.
  - vm_compute. discriminate.
  - vm_compute. reflexivity.
  - unfold is_u16. lia.
  - by right.
  - unfold is_u32. lia.
  - unfold is_u32. lia.
  - cbn. lia.
  - vm_compute. reflexivity.
Defined.

(** The rate model.  For a bottle neck and a delay within their ranges and
    frames of 30 or 60 ms the minimum payload is at most 270 bytes, less than
    the 400 bytes of the stream; the first ten packets have no minimum and the
    next five a fixed one; the buffer is the leaky bucket of the transmission
    times, limited to 0 .. 2000 ms; and the state stays well formed. *)
Theorem rate_model_correct st n F BN D : rate_wf st -> 0 <= n <= 400 -> F = 480 \/ F = 960 ->
  MIN_ISAC_BW <= BN <= MAX_ISAC_BW -> MIN_ISAC_MD <= D <= MAX_ISAC_MD ->
  rate_wf WebRtcIsacfix_InitRateModel /\
  exists m st', WebRtcIsacfix_GetMinBytes st n F BN D = Some (m, st') /\ rate_wf st' /\ 0 <= m <= 270 /\
    (0 < InitCounter st -> m = if InitCounter st <=? INIT_BURST_LEN then 20000 * F / 128000 else 0) /\
    StillBuffered st' = Z.min 2000 (Z.max 0 (StillBuffered st + 8000 * Z.max n m / BN - F / 16)).
Proof.
  intros Hst Hn HF HBN HD. split; [|by apply GetMinBytes_ok].
  constructor; cbn; unfold is_i16, BURST_LEN, INIT_BURST_LEN; lia.
Qed.

Lemma rate_model_correct_witness :
  exists m st', WebRtcIsacfix_GetMinBytes (mkRate 0 900 2 0 16) 100 960 32000 25 = Some (m, st') /\ 0 <= m <= 270.
Proof.
  destruct (rate_model_correct (mkRate 0 900 2 0 16) 100 960 32000 25) as (_ & m & st' & E & _ & Hm & _).
  - constructor; cbn; unfold is_i16, BURST_LEN, INIT_BURST_LEN; lia.
  - lia.
  - by right.
  - unfold MIN_ISAC_BW, MAX_ISAC_BW. lia.
  - unfold MIN_ISAC_MD, MAX_ISAC_MD. lia.
  - exists m, st'. exact (conj E Hm).
Defined.

(** [n] packets of [pksize] bytes and [frameSize] ms, [d] samples apart. *)
Fixpoint steady_packets (n : nat) (k d frameSize pksize : Z) (s : BwEstimatorstr) : option BwEstimatorstr :=
  match n with
  | O => Some s
  | S n' =>
    '(_, s) ← WebRtcIsacfix_UpdateUplinkBwImpl s k frameSize (k * frameSize * 16) (k * d) pksize 5;
    steady_packets n' (k + 1) d frameSize pksize s
  end.

Lemma steady_packets_wf n : forall k d f p s, bwe_wf s -> 0 <= k -> k + Z.of_nat n <= 2 ^ 16 ->
  0 <= d < 2 ^ 15 -> f = 30 \/ f = 60 -> exists s', steady_packets n k d f p s = Some s' /\ bwe_wf s'.
Proof.
  induction n as [|n IH]; intros k d f p s Hs Hk Hn Hd Hf; cbn [steady_packets]; [by exists s|].
  assert (0 <= prevArrivalTime s) by (apply (base_times s (proj1 Hs))).
  destruct (UpdateUplinkBwImpl_ok s k f (k * f * 16) (k * d) p 5) as (s' & -> & Hs' & _);
    unfold is_u16, is_u32; try assumption; try lia; try nia.
  bind_simpl. apply IH; lia || assumption.
Qed.

(** The states after 190 and after 40 and 50 such packets. *)
Definition ex_idle : BwEstimatorstr := Eval vm_compute in default init_bwe (steady_packets 190 1 1230 60 202 init_bwe).
Definition ex_early : BwEstimatorstr := Eval vm_compute in default init_bwe (steady_packets 40 1 960 60 400 init_bwe).
Definition ex_wrapped : BwEstimatorstr := Eval vm_compute in default init_bwe (steady_packets 50 1 960 60 400 init_bwe).

(** Where the estimator fails.  The short-term jitter decays to 0 when
    packets arrive exactly as projected: 190 packets of 202 bytes, 1230 samples
    apart, leave an initialised estimator in a state in which
    [GetDownlinkBandwidth] divides by zero.  Packets of 400 bytes every 60 ms
    arrive earlier than projected every time, yet the product with 3891
    overflows and the average of the negative differences turns positive.  The
    initial maximum delay is reported as the minimum, 5 ms. *)
Theorem estimator_failures :
  (exists s, steady_packets 190 1 1230 60 202 init_bwe = Some s /\ bwe_wf s /\
     WebRtcIsacfix_GetDownlinkBandwidth s = None) /\
  (exists s s', steady_packets 40 1 960 60 400 init_bwe = Some s /\ steady_packets 50 1 960 60 400 init_bwe = Some s' /\
     recJitterShortTerm s < 0 < recJitterShortTerm s') /\
  WebRtcIsacfix_GetDownlinkMaxDelay init_bwe = Some MIN_ISAC_MD.
Proof.
  split; [|split; [|reflexivity] ].
  - destruct (steady_packets_wf 190 1 1230 60 202 init_bwe init_bwe_wf) as (s & E & Hs); [lia|lia|lia|by right|].
    exists s. assert (steady_packets 190 1 1230 60 202 init_bwe = Some ex_idle) as E' by (vm_compute; reflexivity).
    split; [exact E|]. split; [exact Hs|]. rewrite E' in E. injection E as <-. vm_compute. reflexivity.
  - exists ex_early, ex_wrapped. split; [vm_compute; reflexivity|]. split; [vm_compute; reflexivity|].
    vm_compute. split; reflexivity.
Qed.

(** Ten packets, not nine, pass before the estimate is updated; a stream that
    starts with 30 ms frames keeps the header rate of 60 ms frames. *)
Lemma first_packets :
  countUpdates <$> steady_packets 10 1 480 30 100 init_bwe = Some 1 /\
  recHeaderRate <$> steady_packets 50 1 480 30 100 init_bwe = Some (arr kRecHeaderRate 1).
Proof. split; vm_compute; reflexivity. Qed.

(** The time since the bottle neck was exceeded is kept in 16 bits: with short
    packets of 60 ms and a delay of 5 ms no burst exceeds the bottle neck, and
    it wraps to a negative value. *)
Fixpoint short_packets (n : nat) (st : RateModel) : option RateModel :=
  match n with
  | O => Some st
  | S n' => '(_, st) ← WebRtcIsacfix_GetMinBytes st 50 960 32000 5; short_packets n' st
  end.

Lemma exceed_ago_wraps :
  exists st, short_packets 550 WebRtcIsacfix_InitRateModel = Some st /\ ExceedAgo st < 0.
Proof. eexists. split; [vm_compute; reflexivity|]. vm_compute. reflexivity. Qed.

(** The index is the better of the two table neighbours of the rate, not the
    best of the table: from an average of 10000 bit/s and for an estimate of
    20000 the last entry would bring the average closer. *)
Lemma index_not_closest :
  let s := set_recBwAvgQ init_bwe 1280000 in
  quantised_distance (recBwAvgQ s) 20000 11 < quantised_distance (recBwAvgQ s) 20000 (rate_index s 20000).1.
Proof. vm_compute. reflexivity. Qed.
