(* ===== verification/IsacState.v ===== *)
(** The instance of the fixed-point iSAC codec: the structs of [structs.h] that
    [isacfix.c] keeps per instance, and their initialisation in [initialize.c]
    (both in [modules/audio_coding/codecs/isac/fix/source]).

    An array member is the list of its cells; its length is fixed by its type,
    so the loops that clear an array are [zeros]. *)
From S2P Require Import Prelude SplInl SplVec IsacArith IsacSpectrum IsacPitch IsacLar IsacBwe.

Definition WINLEN : Z := 256.
Definition QLOOKAHEAD : Z := 24.
Definition QORDER : Z := 3.
Definition POSTQORDER : Z := 3.
Definition HPORDER : Z := 2.
Definition ALLPASSSECTIONS : Z := 2.
Definition PITCH_FRAME_LEN : Z := 240.
Definition PITCH_MAX_LAG : Z := 140.
Definition PITCH_CORR_LEN2 : Z := 60.
Definition PITCH_CORR_STEP2 : Z := 60.
Definition PITCH_BUFFSIZE : Z := 190.
Definition PITCH_DAMPORDER : Z := 5.
Definition RECOVERY_OVERLAP : Z := 80.
Definition PLC_WAS_USED : Z := 1.
Definition DEC_BUFFER16_LEN : Z :=
  PITCH_CORR_LEN2 + PITCH_CORR_STEP2 + Z.quot PITCH_MAX_LAG 2 - Z.quot PITCH_FRAME_LEN 2 + 2.

Definition zeros (n : Z) : list Z := replicate (Z.to_nat n) 0.

(** ** Filter states *)

Record MaskFiltstr_enc := mkMaskEnc {
  DataBufferLoQ0 : list Z;
  DataBufferHiQ0 : list Z;
  CorrBufLoQQ : list Z;
  CorrBufHiQQ : list Z;
  CorrBufLoQdom : list Z;
  CorrBufHiQdom : list Z;
  PreStateLoGQ15 : list Z;
  PreStateHiGQ15 : list Z;
  OldEnergy_enc : Z
}.

Record MaskFiltstr_dec := mkMaskDec {
  PostStateLoGQ0 : list Z;
  PostStateHiGQ0 : list Z;
  OldEnergy_dec : Z
}.

Record PreFiltBankstr := mkPreFilt {
  INSTAT1_fix : list Z;
  INSTAT2_fix : list Z;
  INLABUF1_fix : list Z;
  INLABUF2_fix : list Z;
  HPstates_fix : list Z
}.

Record PostFiltBankstr := mkPostFilt {
  STATE_0_LOWER_fix : list Z;
  STATE_0_UPPER_fix : list Z;
  HPstates1_fix : list Z;
  HPstates2_fix : list Z
}.

Record PitchFiltstr := mkPitchFilt {
  ubufQQ : list Z;
  ystateQQ : list Z;
  oldlagQ7 : Z;
  oldgainQ12 : Z
}.

Record PitchAnalysisStruct := mkPitchAnalysis {
  dec_buffer16 : list Z;
  decimator_state32 : list Z;
  inbuf : list Z;
  PFstr_wght : PitchFiltstr;
  PFstr : PitchFiltstr
}.

(** The pointers [lastPitchLP] and [prevPitchLP] are not used by the modelled
    code and left out. *)
Record PLCstr := mkPlc {
  prevPitchInvIn : list Z;
  prevPitchInvOut : list Z;
  prevHP : list Z;
  decayCoeffPriodic : Z;
  decayCoeffNoise : Z;
  plc_used : Z;
  lofilt_coefQ15 : list Z;
  hifilt_coefQ15 : list Z;
  gain_lo_hiQ17 : list Z;
  AvgPitchGain_Q12 : Z;
  lastPitchGain_Q12 : Z;
  lastPitchLag_Q7 : Z;
  overlapLP : list Z;
  pitchCycles : Z;
  plc_A : Z;
  plc_B : Z;
  plc_pitchIndex : Z;
  stretchLag : Z;
  plc_seed : Z;
  plc_std : Z
}.

(** ** Initialisation *)

Definition WebRtcIsacfix_InitMaskingEnc : MaskFiltstr_enc :=
  {| DataBufferLoQ0 := zeros WINLEN; DataBufferHiQ0 := zeros WINLEN;
     CorrBufLoQQ := zeros (ORDERLO + 1); CorrBufHiQQ := zeros (ORDERHI + 1);
     CorrBufLoQdom := zeros (ORDERLO + 1); CorrBufHiQdom := zeros (ORDERHI + 1);
     PreStateLoGQ15 := zeros (ORDERLO + 1); PreStateHiGQ15 := zeros (ORDERHI + 1);
     OldEnergy_enc := 10 |}.

Definition WebRtcIsacfix_InitMaskingDec : MaskFiltstr_dec :=
  {| PostStateLoGQ0 := zeros (ORDERLO + 1); PostStateHiGQ0 := zeros (ORDERHI + 1); OldEnergy_dec := 10 |}.

Definition WebRtcIsacfix_InitPreFilterbank : PreFiltBankstr :=
  {| INSTAT1_fix := zeros (2 * (QORDER - 1)); INSTAT2_fix := zeros (2 * (QORDER - 1));
     INLABUF1_fix := zeros QLOOKAHEAD; INLABUF2_fix := zeros QLOOKAHEAD; HPstates_fix := zeros HPORDER |}.

Definition WebRtcIsacfix_InitPostFilterbank : PostFiltBankstr :=
  {| STATE_0_LOWER_fix := zeros (2 * POSTQORDER); STATE_0_UPPER_fix := zeros (2 * POSTQORDER);
     HPstates1_fix := zeros HPORDER; HPstates2_fix := zeros HPORDER |}.

Definition WebRtcIsacfix_InitPitchFilter : PitchFiltstr :=
  {| ubufQQ := zeros PITCH_BUFFSIZE; ystateQQ := zeros PITCH_DAMPORDER; oldlagQ7 := 6400; oldgainQ12 := 0 |}.

Definition WebRtcIsacfix_InitPitchAnalysis : PitchAnalysisStruct :=
  {| dec_buffer16 := zeros DEC_BUFFER16_LEN; decimator_state32 := zeros (2 * ALLPASSSECTIONS + 1);
     inbuf := zeros QLOOKAHEAD; PFstr_wght := WebRtcIsacfix_InitPitchFilter; PFstr := WebRtcIsacfix_InitPitchFilter |}.

(** The member [std] is not assigned. *)
Definition WebRtcIsacfix_InitPlc (State : PLCstr) : PLCstr :=
  {| prevPitchInvIn := zeros (Z.quot FRAMESAMPLES 2); prevPitchInvOut := zeros (PITCH_MAX_LAG + 10);
     prevHP := zeros (PITCH_MAX_LAG + 10); decayCoeffPriodic := 32767; decayCoeffNoise := 32767;
     plc_used := PLC_WAS_USED; lofilt_coefQ15 := zeros ORDERLO; hifilt_coefQ15 := zeros ORDERHI;
     gain_lo_hiQ17 := [0; 0]; AvgPitchGain_Q12 := 0; lastPitchGain_Q12 := 0; lastPitchLag_Q7 := 0;
     overlapLP := zeros RECOVERY_OVERLAP; pitchCycles := 0; plc_A := 0; plc_B := 0; plc_pitchIndex := 0;
     stretchLag := 240; plc_seed := 4447; plc_std := plc_std State |}.

(** ** The instance *)

Record IsacFixEncoderInstance := mkEncInst {
  bitstr_obj : Bitstr_enc;
  maskfiltstr_enc : MaskFiltstr_enc;
  prefiltbankstr_obj : PreFiltBankstr;
  pitchfiltstr_enc : PitchFiltstr;
  pitchanalysisstr_obj : PitchAnalysisStruct;
  rate_data_obj : RateModel;
  buffer_index : Z;
  current_framesamples : Z;
  data_buffer_fix : list Z;
  frame_nb : Z;
  BottleNeck : Z;
  MaxDelay : Z;
  new_framelength : Z;
  s2nr : Z;
  MaxBits : Z;
  bitstr_seed : Z;
  SaveEnc_ptr : option IsacSaveEncoderData;
  payloadLimitBytes30 : Z;
  payloadLimitBytes60 : Z;
  maxPayloadBytes : Z;
  maxRateInBytes : Z;
  enforceFrameSize : Z
}.

Record IsacFixDecoderInstance := mkDecInst {
  dec_bitstr_obj : Bitstr_dec;
  maskfiltstr_dec : MaskFiltstr_dec;
  postfiltbankstr_obj : PostFiltBankstr;
  pitchfiltstr_dec : PitchFiltstr;
  plcstr_obj : PLCstr
}.

Record ISACFIX_SubStruct := mkIsac {
  ISACenc_obj : IsacFixEncoderInstance;
  ISACdec_obj : IsacFixDecoderInstance;
  bwestimator_obj : BwEstimatorstr;
  CodingMode : Z;
  errorcode : Z;
  initflag : Z
}.

(** Assignments to the members the interface changes. *)
Definition set_bitstr_obj (v : Bitstr_enc) (s : IsacFixEncoderInstance) : IsacFixEncoderInstance :=
  mkEncInst v (maskfiltstr_enc s) (prefiltbankstr_obj s) (pitchfiltstr_enc s) (pitchanalysisstr_obj s)
  (rate_data_obj s) (buffer_index s) (current_framesamples s) (data_buffer_fix s) (frame_nb s) (BottleNeck s)
  (MaxDelay s) (new_framelength s) (s2nr s) (MaxBits s) (bitstr_seed s) (SaveEnc_ptr s)
  (payloadLimitBytes30 s) (payloadLimitBytes60 s) (maxPayloadBytes s) (maxRateInBytes s) (enforceFrameSize s).
Definition set_BottleNeck (v : Z) (s : IsacFixEncoderInstance) : IsacFixEncoderInstance :=
  mkEncInst (bitstr_obj s) (maskfiltstr_enc s) (prefiltbankstr_obj s) (pitchfiltstr_enc s)
  (pitchanalysisstr_obj s) (rate_data_obj s) (buffer_index s) (current_framesamples s) (data_buffer_fix s)
  (frame_nb s) v (MaxDelay s) (new_framelength s) (s2nr s) (MaxBits s) (bitstr_seed s) (SaveEnc_ptr s)
  (payloadLimitBytes30 s) (payloadLimitBytes60 s) (maxPayloadBytes s) (maxRateInBytes s) (enforceFrameSize s).
Definition set_new_framelength (v : Z) (s : IsacFixEncoderInstance) : IsacFixEncoderInstance :=
  mkEncInst (bitstr_obj s) (maskfiltstr_enc s) (prefiltbankstr_obj s) (pitchfiltstr_enc s)
  (pitchanalysisstr_obj s) (rate_data_obj s) (buffer_index s) (current_framesamples s) (data_buffer_fix s)
  (frame_nb s) (BottleNeck s) (MaxDelay s) v (s2nr s) (MaxBits s) (bitstr_seed s) (SaveEnc_ptr s)
  (payloadLimitBytes30 s) (payloadLimitBytes60 s) (maxPayloadBytes s) (maxRateInBytes s) (enforceFrameSize s).
Definition set_payloadLimitBytes30 (v : Z) (s : IsacFixEncoderInstance) : IsacFixEncoderInstance :=
  mkEncInst (bitstr_obj s) (maskfiltstr_enc s) (prefiltbankstr_obj s) (pitchfiltstr_enc s)
  (pitchanalysisstr_obj s) (rate_data_obj s) (buffer_index s) (current_framesamples s) (data_buffer_fix s)
  (frame_nb s) (BottleNeck s) (MaxDelay s) (new_framelength s) (s2nr s) (MaxBits s) (bitstr_seed s)
  (SaveEnc_ptr s) v (payloadLimitBytes60 s) (maxPayloadBytes s) (maxRateInBytes s) (enforceFrameSize s).
Definition set_payloadLimitBytes60 (v : Z) (s : IsacFixEncoderInstance) : IsacFixEncoderInstance :=
  mkEncInst (bitstr_obj s) (maskfiltstr_enc s) (prefiltbankstr_obj s) (pitchfiltstr_enc s)
  (pitchanalysisstr_obj s) (rate_data_obj s) (buffer_index s) (current_framesamples s) (data_buffer_fix s)
  (frame_nb s) (BottleNeck s) (MaxDelay s) (new_framelength s) (s2nr s) (MaxBits s) (bitstr_seed s)
  (SaveEnc_ptr s) (payloadLimitBytes30 s) v (maxPayloadBytes s) (maxRateInBytes s) (enforceFrameSize s).
Definition set_maxPayloadBytes (v : Z) (s : IsacFixEncoderInstance) : IsacFixEncoderInstance :=
  mkEncInst (bitstr_obj s) (maskfiltstr_enc s) (prefiltbankstr_obj s) (pitchfiltstr_enc s)
  (pitchanalysisstr_obj s) (rate_data_obj s) (buffer_index s) (current_framesamples s) (data_buffer_fix s)
  (frame_nb s) (BottleNeck s) (MaxDelay s) (new_framelength s) (s2nr s) (MaxBits s) (bitstr_seed s)
  (SaveEnc_ptr s) (payloadLimitBytes30 s) (payloadLimitBytes60 s) v (maxRateInBytes s) (enforceFrameSize s).
Definition set_maxRateInBytes (v : Z) (s : IsacFixEncoderInstance) : IsacFixEncoderInstance :=
  mkEncInst (bitstr_obj s) (maskfiltstr_enc s) (prefiltbankstr_obj s) (pitchfiltstr_enc s)
  (pitchanalysisstr_obj s) (rate_data_obj s) (buffer_index s) (current_framesamples s) (data_buffer_fix s)
  (frame_nb s) (BottleNeck s) (MaxDelay s) (new_framelength s) (s2nr s) (MaxBits s) (bitstr_seed s)
  (SaveEnc_ptr s) (payloadLimitBytes30 s) (payloadLimitBytes60 s) (maxPayloadBytes s) v (enforceFrameSize s).
Definition set_enforceFrameSize (v : Z) (s : IsacFixEncoderInstance) : IsacFixEncoderInstance :=
  mkEncInst (bitstr_obj s) (maskfiltstr_enc s) (prefiltbankstr_obj s) (pitchfiltstr_enc s)
  (pitchanalysisstr_obj s) (rate_data_obj s) (buffer_index s) (current_framesamples s) (data_buffer_fix s)
  (frame_nb s) (BottleNeck s) (MaxDelay s) (new_framelength s) (s2nr s) (MaxBits s) (bitstr_seed s)
  (SaveEnc_ptr s) (payloadLimitBytes30 s) (payloadLimitBytes60 s) (maxPayloadBytes s) (maxRateInBytes s) v.
Definition set_ISACenc_obj (v : IsacFixEncoderInstance) (s : ISACFIX_SubStruct) : ISACFIX_SubStruct :=
  mkIsac v (ISACdec_obj s) (bwestimator_obj s) (CodingMode s) (errorcode s) (initflag s).
Definition set_ISACdec_obj (v : IsacFixDecoderInstance) (s : ISACFIX_SubStruct) : ISACFIX_SubStruct :=
  mkIsac (ISACenc_obj s) v (bwestimator_obj s) (CodingMode s) (errorcode s) (initflag s).
Definition set_bwestimator_obj (v : BwEstimatorstr) (s : ISACFIX_SubStruct) : ISACFIX_SubStruct :=
  mkIsac (ISACenc_obj s) (ISACdec_obj s) v (CodingMode s) (errorcode s) (initflag s).
Definition set_CodingMode (v : Z) (s : ISACFIX_SubStruct) : ISACFIX_SubStruct :=
  mkIsac (ISACenc_obj s) (ISACdec_obj s) (bwestimator_obj s) v (errorcode s) (initflag s).
Definition set_errorcode (v : Z) (s : ISACFIX_SubStruct) : ISACFIX_SubStruct :=
  mkIsac (ISACenc_obj s) (ISACdec_obj s) (bwestimator_obj s) (CodingMode s) v (initflag s).
Definition set_initflag (v : Z) (s : ISACFIX_SubStruct) : ISACFIX_SubStruct :=
  mkIsac (ISACenc_obj s) (ISACdec_obj s) (bwestimator_obj s) (CodingMode s) (errorcode s) v.

(** Computes the members of a chain of assignments. *)
Ltac isac_simpl :=
  cbn [fst snd bitstr_obj maskfiltstr_enc prefiltbankstr_obj pitchfiltstr_enc pitchanalysisstr_obj rate_data_obj
       buffer_index current_framesamples data_buffer_fix frame_nb BottleNeck MaxDelay new_framelength s2nr
       MaxBits bitstr_seed SaveEnc_ptr payloadLimitBytes30 payloadLimitBytes60 maxPayloadBytes maxRateInBytes
       enforceFrameSize ISACenc_obj ISACdec_obj bwestimator_obj CodingMode errorcode initflag dec_bitstr_obj
       maskfiltstr_dec postfiltbankstr_obj pitchfiltstr_dec plcstr_obj set_bitstr_obj set_BottleNeck
       set_new_framelength set_payloadLimitBytes30 set_payloadLimitBytes60 set_maxPayloadBytes
       set_maxRateInBytes set_enforceFrameSize set_ISACenc_obj set_ISACdec_obj set_bwestimator_obj
       set_CodingMode set_errorcode set_initflag] in *.
