(* ===== verification/IsacFilters.v ===== *)
(** The filters of the fixed-point iSAC codec:
    [modules/audio_coding/codecs/isac/fix/source/filters.c] (autocorrelation
    and the decimator of the pitch analysis), [filterbanks.c] with
    [filterbank_tables.c] (the two-band analysis and synthesis of a frame).
    The portable C variants are modelled; [None] is an access outside an array.
    Local arrays the code does not initialise are arguments. *)
From S2P Require Import Prelude Signal SplInl IsacPacket IsacSpectrum IsacState.

(** ** filters.c *)

(** [prod += x[j] * x[i + j]] over [j < N - i]. *)
Definition autocorr_sum (x : list Z) (N i : Z) : option Z :=
  for_opt (N - i) (fun j prod =>
    a ← rd x j; b ← rd x (i + j); Some (i64 (prod + i32 (a * b)))) 0.

(** The array [r], the number of lags and the shift. *)
Definition WebRtcIsacfix_AutocorrC (r x : list Z) (N order : Z) : option (Z * list Z * Z) :=
  _ ← RTC_DCHECK (N mod 4 =? 0); _ ← RTC_DCHECK (8 <=? N);
  prod ← autocorr_sum x N 0;
  let temp := u32 (prod ≫ 31) in
  let scaling := if temp =? 0 then 0 else i16 (32 - WebRtcSpl_NormU32 temp) in
  r ← wr r 0 (i32 (prod ≫ scaling));
  r ← for_opt order (fun d r =>
    let i := d + 1 in
    prod ← autocorr_sum x N i;
    wr r i (i32 (prod ≫ scaling))) r;
  Some (order + 1, r, scaling).

Definition kApUpperQ15 : list Z := [1137; 12537].
Definition kApLowerQ15 : list Z := [5059; 24379].

(** One sample through one section: the output and the new state. *)
Definition dec_section (factor fs x : Z) : Z * Z :=
  let a := i32 (WEBRTC_SPL_MUL_16_32_RSFT16 x factor ≪ 1) in
  let b := WebRtcSpl_AddSatW32 a fs in
  let a := WEBRTC_SPL_MUL_16_32_RSFT16 (b ≫ 16) (- factor) in
  (i16 (b ≫ 16), WebRtcSpl_AddSatW32 (i32 (a ≪ 1)) (i32 (u32 (x ≪ 16)))).

(** [InOut16] is the part of [data] from [base] on, [FilterState] the part of
    [state] from [sbase] on. *)
Definition AllpassFilterForDec32 (data : list Z) (base : Z) (APSectionFactors : list Z)
    (lengthInOut : Z) (state : list Z) (sbase : Z) : option (list Z * list Z) :=
  for_opt ALLPASSSECTIONS (fun j '(data, state) =>
    for_opt ((lengthInOut + 1) / 2) (fun i '(data, state) =>
      x ← rd data (base + 2 * i);
      fs ← rd state (sbase + j);
      let y := dec_section (arr APSectionFactors j) fs x in
      state ← wr state (sbase + j) y.2;
      data ← wr data (base + 2 * i) y.1;
      Some (data, state)) (data, state)) (data, state).

(** [data_vec] is the local array of [PITCH_FRAME_LEN] samples. *)
Definition WebRtcIsacfix_DecimateAllpass32 (data_vec inp state_in : list Z) (N : Z) (out : list Z)
  : option (list Z * list Z) :=
  bs ← mem_read inp 0 (N - 1);
  data_vec ← mem_write data_vec 1 bs;
  st ← rd state_in (2 * ALLPASSSECTIONS);
  data_vec ← wr data_vec 0 (i16 (st ≫ 16));
  v ← rd inp (N - 1);
  state_in ← wr state_in (2 * ALLPASSSECTIONS) (i32 (u32 (v ≪ 16)));
  '(data_vec, state_in) ← AllpassFilterForDec32 data_vec 1 kApUpperQ15 N state_in 0;
  '(data_vec, state_in) ← AllpassFilterForDec32 data_vec 0 kApLowerQ15 N state_in ALLPASSSECTIONS;
  out ← for_opt (N / 2) (fun n out =>
    a ← rd data_vec (2 * n); b ← rd data_vec (2 * n + 1);
    wr out n (WebRtcSpl_AddSatW16 a b)) out;
  Some (state_in, out).

(** ** filterbank_tables.c *)

Definition WebRtcIsacfix_kHpStCoeffInQ30 : list Z :=
  [16189; -31932; 17243; 15562; -17186; -26748; -27476; 26296].
Definition WebRtcIsacfix_kHPStCoeffOut1Q30 : list Z :=
  [-1306; -32719; 11486; 16337; 26078; 8918; 3956; -8935].
Definition WebRtcIsacfix_kHPStCoeffOut2Q30 : list Z :=
  [-2953; -32546; 32233; 16166; 13217; 3383; -4597; -3473].
Definition WebRtcIsacfix_kUpperApFactorsQ15 : list Z := [1137; 12537].
Definition WebRtcIsacfix_kLowerApFactorsQ15 : list Z := [5059; 24379].

(** ** filterbanks.c *)

(** One sample through one allpass section. *)
Definition ap_section (factor state in_out : Z) : Z * Z :=
  let a := i32 (factor * in_out) in
  let a := i32 (a * 2) in
  let b := WebRtcSpl_AddSatW32 a state in
  let a := i32 (- factor * i16 (b ≫ 16)) in
  (i16 (b ≫ 16), WebRtcSpl_AddSatW32 (i32 (a * 2)) (i32 (in_out * 65536))).

(** One sample of one channel through its two sections. *)
Definition ap_channel (factor : list Z) (state : Z * Z) (x : Z) : Z * (Z * Z) :=
  let y := ap_section (arr factor 0) state.1 x in
  let z := ap_section (arr factor 1) state.2 y.1 in
  (z.1, (y.2, z.2)).

(** [data_ch1] and [data_ch2] are the parts of the two arrays from [base] on. *)
Definition WebRtcIsacfix_AllpassFilter2FixDec16C (data_ch1 data_ch2 : list Z) (base : Z)
    (factor_ch1 factor_ch2 : list Z) (length : Z) (filter_state_ch1 filter_state_ch2 : list Z)
  : option (list Z * list Z * list Z * list Z) :=
  _ ← RTC_DCHECK (length mod 2 =? 0);
  a0 ← rd filter_state_ch1 0; a1 ← rd filter_state_ch1 1;
  b0 ← rd filter_state_ch2 0; b1 ← rd filter_state_ch2 1;
  '(data_ch1, s1, data_ch2, s2) ← for_opt length (fun n '(data_ch1, s1, data_ch2, s2) =>
    x ← rd data_ch1 (base + n);
    let y := ap_channel factor_ch1 s1 x in
    data_ch1 ← wr data_ch1 (base + n) y.1;
    x ← rd data_ch2 (base + n);
    let z := ap_channel factor_ch2 s2 x in
    data_ch2 ← wr data_ch2 (base + n) z.1;
    Some (data_ch1, y.2, data_ch2, z.2)) (data_ch1, (a0, a1), data_ch2, (b0, b1));
  st1 ← wr filter_state_ch1 0 s1.1; st1 ← wr st1 1 s1.2;
  st2 ← wr filter_state_ch2 0 s2.1; st2 ← wr st2 1 s2.2;
  Some (data_ch1, data_ch2, st1, st2).

(** A coefficient pair [hi], [lo] times a state. *)
Definition hp_product (hi lo state : Z) : Z :=
  i32 (WEBRTC_SPL_MUL_16_32_RSFT16 hi state + (WEBRTC_SPL_MUL_16_32_RSFT16 lo state ≫ 16)).

(** One sample: the output and the states [(state0, state1)]. *)
Definition hp_step (coefficient : list Z) (state : Z * Z) (x : Z) : Z * (Z * Z) :=
  let c k := arr coefficient k in
  let a1 := hp_product (c 5) (c 4) state.1 in
  let b1 := hp_product (c 7) (c 6) state.2 in
  let a2 := hp_product (c 1) (c 0) state.1 in
  let b2 := hp_product (c 3) (c 2) state.2 in
  let y := WebRtcSpl_SatW32ToW16 (i32 (x + (i32 (a1 + b1) ≫ 7))) in
  let v := i32 (i32 (i32 (x * 4) - a2) - b2) in
  let v := WEBRTC_SPL_SAT 536870911 v (-536870912) in
  (y, (i32 (v * 4), state.1)).

Definition WebRtcIsacfix_HighpassFilterFixDec32C (io : list Z) (len : Z) (coefficient state : list Z)
  : option (list Z * list Z) :=
  s0 ← rd state 0; s1 ← rd state 1;
  '(io, s) ← for_opt len (fun k '(io, s) =>
    x ← rd io k;
    let y := hp_step coefficient s x in
    io ← wr io k y.1;
    Some (io, y.2)) (io, (s0, s1));
  st ← wr state 0 s.1; st ← wr st 1 s.2;
  Some (io, st).

(** One polyphase channel of the frame behind the saved samples: sample
    [2 k + odd] of the frame goes to position [k] after the lookahead. *)
Definition load_channel (odd : Z) (pin tempin lookahead : list Z) : option (list Z * list Z) :=
  tempin ← for_opt (FRAMESAMPLES / 2) (fun k tempin =>
    v ← rd pin (odd + 2 * k); wr tempin (QLOOKAHEAD + k) v) tempin;
  for_opt QLOOKAHEAD (fun k '(tempin, lookahead) =>
    v ← rd lookahead k;
    tempin ← wr tempin k v;
    v ← rd pin (FRAMESAMPLES + odd - 2 * (QLOOKAHEAD - k));
    lookahead ← wr lookahead k v;
    Some (tempin, lookahead)) (tempin, lookahead).

(** [tempin_ch1] and [tempin_ch2] are the two local arrays of 264 samples. *)
Definition WebRtcIsacfix_SplitAndFilter1 (tempin_ch1 tempin_ch2 pin LP16 HP16 : list Z)
    (prefiltdata : PreFiltBankstr) : option (list Z * list Z * list Z * PreFiltBankstr) :=
  '(pin, hp) ← WebRtcIsacfix_HighpassFilterFixDec32C pin FRAMESAMPLES WebRtcIsacfix_kHpStCoeffInQ30
                 (HPstates_fix prefiltdata);
  '(ch1, la1) ← load_channel 1 pin tempin_ch1 (INLABUF1_fix prefiltdata);
  '(ch2, la2) ← load_channel 0 pin tempin_ch2 (INLABUF2_fix prefiltdata);
  '(ch1, ch2, st1, st2) ← WebRtcIsacfix_AllpassFilter2FixDec16C ch1 ch2 0
     WebRtcIsacfix_kUpperApFactorsQ15 WebRtcIsacfix_kLowerApFactorsQ15 (FRAMESAMPLES / 2)
     (INSTAT1_fix prefiltdata) (INSTAT2_fix prefiltdata);
  tmpState_ch1 ← mem_read st1 0 (2 * (QORDER - 1));
  tmpState_ch2 ← mem_read st2 0 (2 * (QORDER - 1));
  '(ch1, ch2, _, _) ← WebRtcIsacfix_AllpassFilter2FixDec16C ch1 ch2 (FRAMESAMPLES / 2)
     WebRtcIsacfix_kUpperApFactorsQ15 WebRtcIsacfix_kLowerApFactorsQ15 QLOOKAHEAD
     tmpState_ch1 tmpState_ch2;
  '(LP16, HP16) ← for_opt (FRAMESAMPLES / 2 + QLOOKAHEAD) (fun k '(LP16, HP16) =>
    tmp1 ← rd ch1 k; tmp2 ← rd ch2 k;
    LP16 ← wr LP16 k (WebRtcSpl_SatW32ToW16 (i32 (tmp1 + tmp2) ≫ 1));
    HP16 ← wr HP16 k (WebRtcSpl_SatW32ToW16 (i32 (tmp1 - tmp2) ≫ 1));
    Some (LP16, HP16)) (LP16, HP16);
  Some (pin, LP16, HP16, {| INSTAT1_fix := st1; INSTAT2_fix := st2; INLABUF1_fix := la1;
                            INLABUF2_fix := la2; HPstates_fix := hp |}).

(** [inp] is the local array of [FRAMESAMPLES] samples. *)
Definition WebRtcIsacfix_FilterAndCombine1 (inp tempin_ch1 tempin_ch2 out16 : list Z)
    (postfiltdata : PostFiltBankstr) : option (list Z * list Z * list Z * PostFiltBankstr) :=
  '(ch1, ch2, up, lo) ← WebRtcIsacfix_AllpassFilter2FixDec16C tempin_ch1 tempin_ch2 0
     WebRtcIsacfix_kLowerApFactorsQ15 WebRtcIsacfix_kUpperApFactorsQ15 (FRAMESAMPLES / 2)
     (STATE_0_UPPER_fix postfiltdata) (STATE_0_LOWER_fix postfiltdata);
  inp ← for_opt (FRAMESAMPLES / 2) (fun k inp =>
    v ← rd ch2 k; inp ← wr inp (2 * k) v;
    v ← rd ch1 k; wr inp (2 * k + 1) v) inp;
  '(inp, hp1) ← WebRtcIsacfix_HighpassFilterFixDec32C inp FRAMESAMPLES WebRtcIsacfix_kHPStCoeffOut1Q30
                  (HPstates1_fix postfiltdata);
  '(inp, hp2) ← WebRtcIsacfix_HighpassFilterFixDec32C inp FRAMESAMPLES WebRtcIsacfix_kHPStCoeffOut2Q30
                  (HPstates2_fix postfiltdata);
  out16 ← for_opt FRAMESAMPLES (fun k out16 => v ← rd inp k; wr out16 k v) out16;
  Some (ch1, ch2, out16, {| STATE_0_LOWER_fix := lo; STATE_0_UPPER_fix := up;
                            HPstates1_fix := hp1; HPstates2_fix := hp2 |}).

(** ** Autocorrelation *)

(** The exact autocorrelation at lag [i] of the first [N] samples. *)
Definition autocorr (x : list Z) (N i : Z) : Z :=
  zsum (fun j => arr x j * arr x (i + j)) (Z.to_nat (N - i)).

Lemma zsum_abs_le f g n : (forall j, 0 <= j < Z.of_nat n -> Z.abs (f j) <= g j) -> Z.abs (zsum f n) <= zsum g n.
Proof.
  induction n as [|n IH]; intros H; cbn [zsum]; [lia|]. specialize (IH ltac:(intros; apply H; lia)).
  specialize (H (Z.of_nat n) ltac:(lia)). lia.
Qed.
Lemma zsum_le_mono f n m : (forall j, 0 <= f j) -> (n <= m)%nat -> zsum f n <= zsum f m.
Proof.
  intros H Hn. induction Hn as [|m Hn IH]; [lia|]. cbn [zsum]. specialize (H (Z.of_nat m)). lia.
Qed.
Lemma zsum_split f n m : zsum f (n + m) = zsum f n + zsum (fun j => f (Z.of_nat n + j)) m.
Proof.
  induction m as [|m IH]; [rewrite Nat.add_0_r; cbn [zsum]; lia|]. rewrite Nat.add_succ_r. cbn [zsum].
  rewrite IH. replace (Z.of_nat (n + m)) with (Z.of_nat n + Z.of_nat m) by lia. lia.
Qed.
Lemma zsum_scale c f n : zsum (fun j => c * f j) n = c * zsum f n.
Proof. induction n as [|n IH]; cbn [zsum]; [lia|]. rewrite IH. lia. Qed.
Lemma zsum_plus f g n : zsum (fun j => f j + g j) n = zsum f n + zsum g n.
Proof. induction n as [|n IH]; cbn [zsum]; [lia|]. rewrite IH. lia. Qed.

(** No lag exceeds the energy. *)
Lemma autocorr_energy x N i : 0 <= i <= N -> Z.abs (autocorr x N i) <= autocorr x N 0.
Proof.
  intros Hi. unfold autocorr. set (sq := fun j => arr x j * arr x j).
  assert (2 * Z.abs (zsum (fun j => arr x j * arr x (i + j)) (Z.to_nat (N - i)))
    <= zsum (fun j => sq j + sq (i + j)) (Z.to_nat (N - i))) as H.
  { replace (2 * Z.abs _) with (Z.abs (zsum (fun j => 2 * (arr x j * arr x (i + j))) (Z.to_nat (N - i))))
      by (rewrite zsum_scale; lia).
    apply zsum_abs_le. intros j _. unfold sq. generalize (arr x j) (arr x (i + j)). intros a b.
    pose proof (Z.square_nonneg (a - b)). pose proof (Z.square_nonneg (a + b)). lia. }
  rewrite zsum_plus in H.
  assert (zsum sq (Z.to_nat (N - i)) <= zsum sq (Z.to_nat N)) as H1
    by (apply zsum_le_mono; [intros; unfold sq; nia|lia]).
  assert (zsum (fun j => sq (i + j)) (Z.to_nat (N - i)) <= zsum sq (Z.to_nat N)) as H2.
  { replace (Z.to_nat N) with (Z.to_nat i + Z.to_nat (N - i))%nat by lia. rewrite zsum_split.
    rewrite Z2Nat.id by lia. assert (0 <= zsum sq (Z.to_nat i)); [|lia].
    apply (zsum_le_mono sq 0); [intros; unfold sq; nia|lia]. }
  change (zsum sq (Z.to_nat N)) with (zsum (fun j => arr x j * arr x j) (Z.to_nat N)) in *.
  rewrite Z.sub_0_r. rewrite (zsum_ext (fun j => arr x j * arr x (0 + j)) (fun j => arr x j * arr x j)); [lia|].
  intros; by rewrite Z.add_0_l.
Qed.

Lemma autocorr_sum_exact x N i : Forall is_i16 x -> 0 <= i <= N -> N <= Z.of_nat (length x) -> N <= 32767 ->
  autocorr_sum x N i = Some (autocorr x N i).
Proof.
  intros Hx Hi HN HB. unfold autocorr_sum.
  destruct (for_opt_ind (fun j p => p = zsum (fun j => arr x j * arr x (i + j)) (Z.to_nat j))
    (fun j prod => a ← rd x j; b ← rd x (i + j); Some (i64 (prod + i32 (a * b)))) (N - i) 0) as (p & -> & ->); [lia|done| |done].
  intros j p Hj ->. rewrite !rd_Some by lia. bind_simpl. eexists. split; [done|].
  rewrite zsum_snoc by lia.
  assert (forall k, is_i16 (arr x k)) as Ha by (intros; apply arr_Forall; [unfold is_i16; lia|done]).
  pose proof (Ha j) as H1. pose proof (Ha (i + j)) as H2. unfold is_i16 in *.
  rewrite i32_id by (unfold is_i32; nia). apply i64_id.
  assert (- (2 ^ 30 * Z.of_nat (Z.to_nat j)) <= zsum (fun j0 => arr x j0 * arr x (i + j0)) (Z.to_nat j)
    <= 2 ^ 30 * Z.of_nat (Z.to_nat j)) as Hb
    by (apply zsum_bound; intros k; pose proof (Ha k); pose proof (Ha (i + k)); nia).
  unfold is_i64. nia.
Qed.

Lemma autocorr_bound x N : Forall is_i16 x -> 0 <= N <= 32767 -> 0 <= autocorr x N 0 < 2 ^ 46.
Proof.
  intros Hx HN. unfold autocorr. rewrite Z.sub_0_r.
  assert (forall k, is_i16 (arr x k)) as Ha by (intros; apply arr_Forall; [unfold is_i16; lia|done]).
  split.
  - apply (zsum_le_mono _ 0); [intros j; rewrite Z.add_0_l; nia|lia].
  - assert (zsum (fun j => arr x j * arr x (0 + j)) (Z.to_nat N) <= 2 ^ 30 * Z.of_nat (Z.to_nat N)); [|lia].
    apply zsum_bound. intros j. rewrite Z.add_0_l. pose proof (Ha j). unfold is_i16 in *. nia.
Qed.

(** The shift: none below [2^31], otherwise the least that brings the energy
    below. *)
Definition autocorr_shift (e : Z) : Z :=
  let temp := u32 (e ≫ 31) in if temp =? 0 then 0 else i16 (32 - WebRtcSpl_NormU32 temp).

Lemma autocorr_shift_spec e : 0 <= e < 2 ^ 46 ->
  0 <= autocorr_shift e <= 15 /\ e / 2 ^ autocorr_shift e < 2 ^ 31 /\
  (0 < autocorr_shift e -> 2 ^ 31 <= e / 2 ^ (autocorr_shift e - 1)).
Proof.
  intros He. unfold autocorr_shift. rewrite shiftr_div by lia.
  assert (0 <= e / 2 ^ 31 < 2 ^ 15) as Ht by (Z.div_mod_to_equations; lia).
  rewrite u32_id by (unfold is_u32; lia). set (t := e / 2 ^ 31) in *.
  destruct (Z.eqb_spec t 0) as [E|E].
  - split; [lia|]. rewrite Z.pow_0_r, Z.div_1_r. split; [|lia]. unfold t in E. Z.div_mod_to_equations. lia.
  - pose proof (NormU32_spec t ltac:(unfold is_u32; lia) E) as Hn. cbn zeta in Hn.
    set (n := WebRtcSpl_NormU32 t) in *. destruct Hn as (Hn & Hlo & Hhi).
    assert (17 <= n <= 31) as Hn'.
    { split; [|lia]. destruct (Z_lt_ge_dec n 17) as [Hl|]; [|lia]. exfalso.
      assert (2 ^ n <= 2 ^ 16) by (apply Z.pow_le_mono_r; lia). nia. }
    rewrite i16_id by (unfold is_i16; lia). split; [lia|].
    assert (2 ^ (32 - n) * 2 ^ n = 2 ^ 32) as Hp by (rewrite <-Z.pow_add_r by lia; f_equal; lia).
    assert (2 ^ (32 - n) = 2 * 2 ^ (32 - n - 1)) as Hp1
      by (rewrite <-Z.pow_succ_r by lia; f_equal; lia).
    assert (0 < 2 ^ n /\ 0 < 2 ^ (32 - n - 1)) as [Hp2 Hp3] by (split; apply Z.pow_pos_nonneg; lia).
    assert (2 ^ 31 * t <= e < 2 ^ 31 * t + 2 ^ 31) as Hte
      by (unfold t; Z.div_mod_to_equations; lia).
    split.
    + apply Z.div_lt_upper_bound; [lia|]. assert (t < 2 ^ (32 - n)) by nia. nia.
    + intros _. apply Z.div_le_lower_bound; [lia|]. assert (2 ^ (32 - n - 1) <= t) by nia. nia.
Qed.

(** The autocorrelation is exact: for any 16-bit signal of 8 to 32767
    samples, a multiple of four as the function asserts, no 64-bit sum overflows, the shift is 0 if the energy is below
    [2^31] and otherwise the least one that brings it below, and every lag is
    the exact sum shifted down, which fits [int32_t] because no lag exceeds the
    energy. *)
Theorem autocorr_exact r x N order : Forall is_i16 x -> 8 <= N <= 32767 -> N mod 4 = 0 -> N <= Z.of_nat (length x) ->
  0 <= order <= N -> order < Z.of_nat (length r) ->
  let s := autocorr_shift (autocorr x N 0) in
  exists r', WebRtcIsacfix_AutocorrC r x N order = Some (order + 1, r', s) /\ length r' = length r /\
    (forall i, 0 <= i <= order -> arr r' i = autocorr x N i / 2 ^ s /\ is_i32 (autocorr x N i / 2 ^ s)) /\
    (forall i, order < i -> arr r' i = arr r i) /\
    0 <= s /\ autocorr x N 0 / 2 ^ s < 2 ^ 31 /\ (0 < s -> 2 ^ 31 <= autocorr x N 0 / 2 ^ (s - 1)).
Proof.
  intros Hx HN H4 HL Ho Hr s. pose proof (autocorr_shift_spec _ (autocorr_bound x N Hx ltac:(lia))) as (Hs & Hfit & Hmin).
  fold s in Hs, Hfit, Hmin.
  assert (forall i, 0 <= i <= order -> i32 (autocorr x N i ≫ s) = autocorr x N i / 2 ^ s /\
    is_i32 (autocorr x N i / 2 ^ s)) as Hi.
  { intros i Hi. rewrite shiftr_div by lia. pose proof (autocorr_energy x N i ltac:(lia)) as He.
    assert (0 < 2 ^ s) by (apply Z.pow_pos_nonneg; lia).
    assert (autocorr x N 0 < 2 ^ 31 * 2 ^ s) by (pose proof (Z.div_mod (autocorr x N 0) (2 ^ s) ltac:(lia));
      pose proof (Z.mod_pos_bound (autocorr x N 0) (2 ^ s) ltac:(lia)); nia).
    assert (is_i32 (autocorr x N i / 2 ^ s)) as R.
    { unfold is_i32. split; [apply Z.div_le_lower_bound; lia|apply Z.div_lt_upper_bound; lia]. }
    by split; [apply i32_id|]. }
  unfold WebRtcIsacfix_AutocorrC. rewrite !RTC_DCHECK_true by (rewrite ?H4; lia).
  rewrite autocorr_sum_exact by (try done; lia). bind_simpl. cbn zeta.
  change (if u32 (autocorr x N 0 ≫ 31) =? 0 then 0 else i16 (32 - WebRtcSpl_NormU32 (u32 (autocorr x N 0 ≫ 31))))
    with s.
  rewrite wr_Some by lia. bind_simpl. rewrite (proj1 (Hi 0 ltac:(lia))).
  destruct (for_opt_ind (fun d r' => length r' = length r /\
      (forall i, 0 <= i <= d -> arr r' i = autocorr x N i / 2 ^ s) /\
      (forall i, d < i -> arr r' i = arr r i)) (fun d r =>
    prod ← autocorr_sum x N (d + 1); wr r (d + 1) (i32 (prod ≫ s))) order (upd r 0 (autocorr x N 0 / 2 ^ s)))
    as (r' & -> & H1 & H2 & H3); [lia| | |].
  - split; [by rewrite length_upd|]. split; intros i Hi'; [|by rewrite arr_upd_ne by lia].
    replace i with 0 by lia. by rewrite arr_upd_eq by lia.
  - intros d r' Hd (H1 & H2 & H3). rewrite autocorr_sum_exact by (try done; lia). bind_simpl.
    rewrite wr_Some by lia. eexists. split; [done|]. rewrite (proj1 (Hi (d + 1) ltac:(lia))).
    split; [by rewrite length_upd|]. split; intros i Hi'.
    + destruct (decide (i = d + 1)) as [->|]; [by rewrite arr_upd_eq by lia|].
      rewrite arr_upd_ne by lia. apply H2. lia.
    + rewrite arr_upd_ne by lia. apply H3. lia.
  - bind_simpl. exists r'. split; [done|]. split; [done|]. split; [|by split; [done|lia] ].
    intros i Hi'. split; [by apply H2|by apply Hi].
Qed.

Lemma autocorr_exact_witness : exists r',
  WebRtcIsacfix_AutocorrC [0; 0; 0; 9] (replicate 8 (-32768)) 8 2 = Some (3, r', 3) /\
  arr r' 2 = autocorr (replicate 8 (-32768)) 8 2 / 2 ^ 3 /\ arr r' 3 = 9.
Proof.
  destruct (autocorr_exact [0; 0; 0; 9] (replicate 8 (-32768)) 8 2) as (r' & E & _ & H & H' & _).
  - apply Forall_replicate. unfold is_i16. lia.
  - lia.
  - reflexivity.
  - rewrite length_replicate. lia.
  - lia.
  - simpl. lia.
  - exists r'. split; [exact E|]. split; [exact (proj1 (H 2 ltac:(lia)))|exact (H' 3 ltac:(lia))].
Defined.

(** ** The high-pass filters *)

(** [WEBRTC_SPL_MUL_16_32_RSFT16] over the integers. *)
Definition mul_rsft16 (a b : Z) : Z := a * (b / 65536) + (a * (b mod 65536 / 2) + 16384) / 32768.

Lemma MUL_16_32_RSFT16_exact a b : is_i16 a -> is_i32 b ->
  WEBRTC_SPL_MUL_16_32_RSFT16 a b = mul_rsft16 a b /\ - 65536 <= 65536 * mul_rsft16 a b - a * b <= 65536.
Proof.
  intros Ha Hb. unfold WEBRTC_SPL_MUL_16_32_RSFT16, WEBRTC_SPL_MUL_16_16, mul_rsft16.
  change 0xffff with (2 ^ 16 - 1). rewrite land_ones_mod, !shiftr_div by lia.
  change (2 ^ 16) with 65536. change (2 ^ 1) with 2. change (2 ^ 15) with 32768. change 0x4000 with 16384.
  unfold is_i16, is_i32 in *.
  assert (-32768 <= b / 65536 < 32768) by (Z.div_mod_to_equations; lia).
  assert (0 <= b mod 65536 / 2 < 32768) by (Z.div_mod_to_equations; lia).
  rewrite !(i16_id a), !(i16_id (b / 65536)), (i16_id (b mod 65536 / 2)) by (unfold is_i16; lia).
  rewrite (i32_id (a * (b / 65536))) by (unfold is_i32; nia).
  rewrite (i32_id (a * (b mod 65536 / 2))) by (unfold is_i32; nia).
  rewrite (i32_id (a * _ + 16384)) by (unfold is_i32; nia).
  assert (-32768 <= (a * (b mod 65536 / 2) + 16384) / 32768 <= 32768).
  { split; [apply Z.div_le_lower_bound; nia|apply Z.div_le_upper_bound; nia]. }
  assert (b = 65536 * (b / 65536) + 2 * (b mod 65536 / 2) + b mod 2) as Eb
    by (Z.div_mod_to_equations; lia).
  split.
  - apply i32_id. unfold is_i32. nia.
  - pose proof (Z.mul_div_le (a * (b mod 65536 / 2) + 16384) 32768 ltac:(lia)).
    pose proof (Z.mul_succ_div_gt (a * (b mod 65536 / 2) + 16384) 32768 ltac:(lia)).
    assert (0 <= b mod 2 < 2) by (apply Z.mod_pos_bound; lia). nia.
Qed.

Lemma mul_rsft16_bound a b : is_i16 a -> is_i32 b -> Z.abs (mul_rsft16 a b) <= Z.abs a * 32768 + 1.
Proof.
  intros Ha Hb. destruct (MUL_16_32_RSFT16_exact a b Ha Hb) as [_ H]. unfold is_i32 in Hb.
  assert (Z.abs (a * b) <= Z.abs a * 2147483648) by nia. lia.
Qed.

Lemma hp_product_exact hi lo s : is_i16 hi -> is_i16 lo -> is_i32 s ->
  hp_product hi lo s = mul_rsft16 hi s + mul_rsft16 lo s / 65536 /\
  Z.abs (mul_rsft16 hi s + mul_rsft16 lo s / 65536) <= Z.abs hi * 32768 + 16386.
Proof.
  intros Hh Hl Hs. unfold hp_product. destruct (MUL_16_32_RSFT16_exact hi s Hh Hs) as [-> _].
  destruct (MUL_16_32_RSFT16_exact lo s Hl Hs) as [-> _].
  pose proof (mul_rsft16_bound hi s Hh Hs). pose proof (mul_rsft16_bound lo s Hl Hs).
  rewrite shiftr_div by lia. change (2 ^ 16) with 65536. unfold is_i16 in *.
  assert (-16385 <= mul_rsft16 lo s / 65536 <= 16384) by (Z.div_mod_to_equations; lia).
  split; [apply i32_id; unfold is_i32; lia|lia].
Qed.

(** One sample over the integers: only the two clamps are left. *)
Definition hp_exact (c : list Z) (s : Z * Z) (x : Z) : Z * (Z * Z) :=
  let p hi lo v := mul_rsft16 (arr c hi) v + mul_rsft16 (arr c lo) v / 65536 in
  (clamp (-32768) 32767 (x + (p 5 4 s.1 + p 7 6 s.2) / 128),
   (4 * clamp (-536870912) 536870911 (4 * x - p 1 0 s.1 - p 3 2 s.2), s.1)).

Definition hp_coef_ok (c : list Z) : bool :=
  forallb (fun v => (-32768 <=? v) && (v <=? 32767)) c &&
  (Z.abs (arr c 5) + Z.abs (arr c 7) <=? 65500) && (Z.abs (arr c 1) + Z.abs (arr c 3) <=? 65500).

Lemma hp_step_exact c s x : hp_coef_ok c = true -> is_i32 s.1 -> is_i32 s.2 -> is_i16 x ->
  hp_step c s x = hp_exact c s x /\ is_i16 (hp_exact c s x).1 /\ is_i32 (hp_exact c s x).2.1.
Proof.
  intros Hc H1 H2 Hx. unfold hp_coef_ok in Hc. rewrite !andb_true_iff, !Z.leb_le in Hc.
  destruct Hc as [[Hf Ho] Hst].
  assert (forall k, is_i16 (arr c k)) as Ha.
  { intros k. apply arr_Forall; [unfold is_i16; lia|]. apply List.Forall_forall. rewrite forallb_forall in Hf.
    intros v Hv. specialize (Hf v Hv). unfold is_i16. lia. }
  unfold hp_step, hp_exact. cbn zeta.
  destruct (hp_product_exact (arr c 5) (arr c 4) s.1 (Ha 5) (Ha 4) H1) as [-> B1].
  destruct (hp_product_exact (arr c 7) (arr c 6) s.2 (Ha 7) (Ha 6) H2) as [-> B2].
  destruct (hp_product_exact (arr c 1) (arr c 0) s.1 (Ha 1) (Ha 0) H1) as [-> B3].
  destruct (hp_product_exact (arr c 3) (arr c 2) s.2 (Ha 3) (Ha 2) H2) as [-> B4].
  set (p1 := mul_rsft16 (arr c 5) _ + _) in *. set (p2 := mul_rsft16 (arr c 7) _ + _) in *.
  set (p3 := mul_rsft16 (arr c 1) _ + _) in *. set (p4 := mul_rsft16 (arr c 3) _ + _) in *.
  clearbody p1 p2 p3 p4. unfold is_i16 in Hx.
  rewrite (i32_id (p1 + p2)) by (unfold is_i32; lia). rewrite shiftr_div by lia. change (2 ^ 7) with 128.
  assert (-20000000 <= (p1 + p2) / 128 <= 20000000) by (Z.div_mod_to_equations; lia).
  rewrite (i32_id (x + _)) by (unfold is_i32; lia). rewrite SatW32ToW16_clamp.
  rewrite (i32_id (x * 4)) by (unfold is_i32; lia). rewrite (i32_id (x * 4 - p3)) by (unfold is_i32; lia).
  rewrite (i32_id (x * 4 - p3 - p4)) by (unfold is_i32; lia). rewrite SAT_clamp by lia.
  assert (-536870912 <= clamp (-536870912) 536870911 (x * 4 - p3 - p4) <= 536870911) by (unfold clamp; lia).
  replace (4 * x - p3 - p4) with (x * 4 - p3 - p4) by lia.
  rewrite i32_id by (unfold is_i32; lia). split; [do 2 f_equal; lia|]. cbn [fst snd].
  split; [unfold is_i16, clamp; lia|unfold is_i32; lia].
Qed.

(** The pair of states a filter keeps in the first two cells of an array. *)
Definition state2 (st : list Z) : Z * Z := (arr st 0, arr st 1).
Definition set_state2 (st : list Z) (s : Z * Z) : list Z := upd (upd st 0 s.1) 1 s.2.

Lemma state2_set st s : (2 <= length st)%nat -> state2 (set_state2 st s) = s.
Proof.
  intros H. unfold state2, set_state2. rewrite arr_upd_ne by lia. rewrite !arr_upd_eq by (rewrite ?length_upd; lia).
  by destruct s.
Qed.

Lemma HighpassFilter_spec io len c st : 0 <= len <= Z.of_nat (length io) -> (2 <= length st)%nat ->
  let r := scan (hp_step c) (state2 st) (strided 1 0 (Z.to_nat len) io) in
  exists io', WebRtcIsacfix_HighpassFilterFixDec32C io len c st = Some (io', set_state2 st r.2) /\
    overwritten 1 0 r.1 io io'.
Proof.
  intros Hl Hs r. unfold WebRtcIsacfix_HighpassFilterFixDec32C. rewrite !rd_Some by lia. bind_simpl.
  destruct (for_scan1 (hp_step c) 0 len io (arr st 0, arr st 1)) as (io' & E & Ho); [lia|lia|lia|].
  exists io'. split; [|exact Ho]. cbn zeta.
  rewrite (for_opt_ext _ (fun i '(data, s) =>
      x ← rd data (0 + i); data ← wr data (0 + i) (hp_step c s x).1; Some (data, (hp_step c s x).2))) by
    (intros j [d t] _; by rewrite Z.add_0_l).
  rewrite E. bind_simpl. rewrite wr_Some by lia. bind_simpl. rewrite wr_Some by (rewrite length_upd; lia). reflexivity.
Qed.

Lemma coefs_ok : hp_coef_ok WebRtcIsacfix_kHpStCoeffInQ30 = true /\
  hp_coef_ok WebRtcIsacfix_kHPStCoeffOut1Q30 = true /\ hp_coef_ok WebRtcIsacfix_kHPStCoeffOut2Q30 = true.
Proof. vm_compute. done. Qed.

Definition pair32 (s : Z * Z) : Prop := is_i32 s.1 /\ is_i32 s.2.

Lemma hp_scan c xs s : hp_coef_ok c = true -> pair32 s -> Forall is_i16 xs ->
  scan (hp_step c) s xs = scan (hp_exact c) s xs /\ Forall is_i16 (scan (hp_exact c) s xs).1 /\
  pair32 (scan (hp_exact c) s xs).2.
Proof.
  intros Hc. apply (scan_agree (hp_step c) (hp_exact c) pair32 is_i16 is_i16). intros t x [H1 H2] Hx.
  destruct (hp_step_exact c t x Hc H1 H2 Hx) as (E & R & S'). split; [done|]. split; [done|].
  split; [done|exact H1].
Qed.

(** ** The allpass channels *)

Lemma AllpassFilter2_spec d1 d2 base f1 f2 len st1 st2 : 0 <= base -> 0 <= len -> len mod 2 = 0 ->
  base + len <= Z.of_nat (length d1) -> base + len <= Z.of_nat (length d2) ->
  (2 <= length st1)%nat -> (2 <= length st2)%nat ->
  let r1 := scan (ap_channel f1) (state2 st1) (strided 1 base (Z.to_nat len) d1) in
  let r2 := scan (ap_channel f2) (state2 st2) (strided 1 base (Z.to_nat len) d2) in
  exists d1' d2', WebRtcIsacfix_AllpassFilter2FixDec16C d1 d2 base f1 f2 len st1 st2
    = Some (d1', d2', set_state2 st1 r1.2, set_state2 st2 r2.2) /\
    overwritten 1 base r1.1 d1 d1' /\ overwritten 1 base r2.1 d2 d2'.
Proof.
  intros Hb Hl Hev H1 H2 Hs1 Hs2 r1 r2. unfold WebRtcIsacfix_AllpassFilter2FixDec16C.
  rewrite RTC_DCHECK_true by (by rewrite Hev).
  rewrite !rd_Some by lia. bind_simpl. cbn zeta.
  set (ru1 := fun j => scan (ap_channel f1) (state2 st1) (strided 1 base (Z.to_nat j) d1)).
  set (ru2 := fun j => scan (ap_channel f2) (state2 st2) (strided 1 base (Z.to_nat j) d2)).
  destruct (for_opt_ind (fun j (q : list Z * (Z * Z) * list Z * (Z * Z)) =>
      let '(a, s, b, t) := q in s = (ru1 j).2 /\ t = (ru2 j).2 /\
      overwritten 1 base (ru1 j).1 d1 a /\ overwritten 1 base (ru2 j).1 d2 b)
    (fun n '(data_ch1, s1, data_ch2, s2) =>
    x ← rd data_ch1 (base + n);
    data_ch1 ← wr data_ch1 (base + n) (ap_channel f1 s1 x).1;
    x0 ← rd data_ch2 (base + n);
    data_ch2 ← wr data_ch2 (base + n) (ap_channel f2 s2 x0).1;
    Some (data_ch1, (ap_channel f1 s1 x).2, data_ch2, (ap_channel f2 s2 x0).2)) len
    (d1, (arr st1 0, arr st1 1), d2, (arr st2 0, arr st2 1)))
    as ([[[a s] b] t] & -> & Es & Et & Ha & Hb'); [lia| | |].
  - split; [done|]. split; [done|]. split; apply overwritten_nil.
  - intros j [[[a s] b] t] Hj (-> & -> & Ha & Hb'). pose proof Ha as (La & _). pose proof Hb' as (Lb & _).
    rewrite !rd_Some by lia. bind_simpl. rewrite !wr_Some by lia. bind_simpl.
    eexists. split; [done|]. cbn beta iota.
    assert (length (ru1 j).1 = Z.to_nat j /\ length (ru2 j).1 = Z.to_nat j) as [L1 L2]
      by (unfold ru1, ru2; by rewrite !length_scan, !length_strided).
    assert (forall f st d, scan (ap_channel f) (state2 st) (strided 1 base (Z.to_nat (j + 1)) d)
      = let r := scan (ap_channel f) (state2 st) (strided 1 base (Z.to_nat j) d) in
        (r.1 ++ [(ap_channel f r.2 (arr d (base + j))).1], (ap_channel f r.2 (arr d (base + j))).2)) as Hn.
    { intros f st d. replace (Z.to_nat (j + 1)) with (S (Z.to_nat j)) by lia. rewrite strided_snoc, scan_snoc.
      rewrite Z2Nat.id, Z.mul_1_l by lia. done. }
    assert (arr a (base + j) = arr d1 (base + j)) as E1
      by (rewrite <-(Z.mul_1_l j); apply (overwritten_next 1 base (ru1 j).1 d1 a j); [lia|lia|done|lia]).
    assert (arr b (base + j) = arr d2 (base + j)) as E2
      by (rewrite <-(Z.mul_1_l j); apply (overwritten_next 1 base (ru2 j).1 d2 b j); [lia|lia|done|lia]).
    assert (ru1 (j + 1) = ((ru1 j).1 ++ [(ap_channel f1 (ru1 j).2 (arr d1 (base + j))).1],
      (ap_channel f1 (ru1 j).2 (arr d1 (base + j))).2)) as -> by exact (Hn f1 st1 d1).
    assert (ru2 (j + 1) = ((ru2 j).1 ++ [(ap_channel f2 (ru2 j).2 (arr d2 (base + j))).1],
      (ap_channel f2 (ru2 j).2 (arr d2 (base + j))).2)) as -> by exact (Hn f2 st2 d2).
    rewrite E1, E2. cbn [fst snd]. split; [done|]. split; [done|].
    pose proof (overwritten_snoc 1 base _ (ap_channel f1 (ru1 j).2 (arr d1 (base + j))).1 d1 a ltac:(lia) Hb Ha) as O1.
    pose proof (overwritten_snoc 1 base _ (ap_channel f2 (ru2 j).2 (arr d2 (base + j))).1 d2 b ltac:(lia) Hb Hb') as O2.
    rewrite L1, Z2Nat.id, Z.mul_1_l in O1 by lia. rewrite L2, Z2Nat.id, Z.mul_1_l in O2 by lia.
    split; [apply O1; lia|apply O2; lia].
  - bind_simpl. do 4 (rewrite wr_Some by (rewrite ?length_upd; lia); bind_simpl). exists a, b. subst s t. by split.
Qed.

(** ** Analysis *)

Lemma load_channel_spec odd pin tempin la : 0 <= odd <= 1 -> (480 <= length pin)%nat ->
  length tempin = 264%nat -> length la = 24%nat ->
  load_channel odd pin tempin la = Some (la ++ strided 2 odd 240 pin, strided 2 (432 + odd) 24 pin).
Proof.
  intros Ho Hp Ht Hl. unfold load_channel. change (FRAMESAMPLES / 2) with 240. change QLOOKAHEAD with 24.
  change FRAMESAMPLES with 480.
  destruct (for_opt_ind (fun j t => length t = 264%nat /\
      forall k, 0 <= k < j -> arr t (24 + k) = arr pin (odd + 2 * k))
    (fun k tempin => v ← rd pin (odd + 2 * k); wr tempin (24 + k) v) 240 tempin) as (t1 & -> & L1 & H1);
    [lia|split; [done|lia]| |].
  - intros j t Hj [L H]. rewrite rd_Some by lia. bind_simpl. rewrite wr_Some by lia. eexists. split; [done|].
    split; [by rewrite length_upd|]. intros k Hk. destruct (decide (k = j)) as [->|]; [by rewrite arr_upd_eq by lia|].
    rewrite arr_upd_ne by lia. apply H. lia.
  - bind_simpl. destruct (for_opt_ind (fun j (q : list Z * list Z) => length q.1 = 264%nat /\ length q.2 = 24%nat /\
      (forall k, 24 <= k -> arr q.1 k = arr t1 k) /\ (forall k, 0 <= k < j -> arr q.1 k = arr la k) /\
      (forall k, 0 <= k < j -> arr q.2 k = arr pin (432 + odd + 2 * k)) /\
      (forall k, j <= k -> arr q.2 k = arr la k))
      (fun k '(tempin, lookahead) => v ← rd lookahead k; tempin ← wr tempin k v;
        v ← rd pin (480 + odd - 2 * (24 - k)); lookahead ← wr lookahead k v; Some (tempin, lookahead)) 24 (t1, la))
      as ([t2 l2] & -> & L2 & L3 & A & B & C & _).
    + lia.
    + split; [done|]. split; [done|]. split; [done|]. split; [lia|]. split; [lia|done].
    + intros j [t l] Hj (La & Lb & A & B & C & D). cbn [fst snd] in *. rewrite rd_Some by lia. bind_simpl.
      rewrite wr_Some by lia. bind_simpl. rewrite rd_Some by lia. bind_simpl. rewrite wr_Some by lia. bind_simpl.
      eexists. split; [done|]. cbn [fst snd]. rewrite !length_upd. split; [done|]. split; [done|].
      split; [intros k Hk; rewrite arr_upd_ne by lia; by apply A|].
      split; [|split].
      * intros k Hk. destruct (decide (k = j)) as [->|]; [rewrite arr_upd_eq by lia; apply D; lia|].
        rewrite arr_upd_ne by lia. apply B. lia.
      * intros k Hk. destruct (decide (k = j)) as [->|]; [rewrite arr_upd_eq by lia; f_equal; lia|].
        rewrite arr_upd_ne by lia. apply C. lia.
      * intros k Hk. rewrite arr_upd_ne by lia. apply D. lia.
    + cbn [fst snd] in *. f_equal. f_equal; apply list_arr.
      * rewrite length_app, length_strided. lia.
      * intros k Hk. destruct (decide (k < 24)).
        -- rewrite B by lia. unfold arr. rewrite app_nth1 by lia. done.
        -- rewrite A by lia. replace k with (24 + (k - 24)) by lia. rewrite H1 by lia.
           assert (arr (la ++ strided 2 odd 240 pin) (24 + (k - 24)) = arr (strided 2 odd 240 pin) (k - 24)) as ->.
           { unfold arr. rewrite app_nth2 by lia. f_equal. lia. }
           by rewrite arr_strided by lia.
      * by rewrite length_strided.
      * intros k Hk. rewrite C by lia. by rewrite arr_strided by lia.
Qed.

Lemma ap_channel_i16 f xs s : Forall is_i16 (scan (ap_channel f) s xs).1.
Proof.
  apply (scan_inv (ap_channel f) (fun _ => True) (fun _ => True) is_i16); [|done|by apply Forall_true].
  intros t x _ _. split; [apply i16_range|done].
Qed.

(** The loop that combines the two channels. *)
Lemma combine_loop c1 c2 LP HP : length c1 = 264%nat -> length c2 = 264%nat -> Forall is_i16 c1 -> Forall is_i16 c2 ->
  (264 <= length LP)%nat -> (264 <= length HP)%nat -> exists LP' HP',
  for_opt (FRAMESAMPLES / 2 + QLOOKAHEAD) (fun k '(LP16, HP16) =>
    tmp1 ← rd c1 k; tmp2 ← rd c2 k;
    LP16 ← wr LP16 k (WebRtcSpl_SatW32ToW16 (i32 (tmp1 + tmp2) ≫ 1));
    HP16 ← wr HP16 k (WebRtcSpl_SatW32ToW16 (i32 (tmp1 - tmp2) ≫ 1));
    Some (LP16, HP16)) (LP, HP) = Some (LP', HP') /\ length LP' = length LP /\ length HP' = length HP /\
  (forall k, 0 <= k < 264 -> arr LP' k = (arr c1 k + arr c2 k) / 2 /\ arr HP' k = (arr c1 k - arr c2 k) / 2) /\
  (forall k, 264 <= k -> arr LP' k = arr LP k /\ arr HP' k = arr HP k).
Proof.
  intros L1 L2 F1 F2 HL HH. change (FRAMESAMPLES / 2 + QLOOKAHEAD) with 264.
  destruct (for_opt_ind (fun j (q : list Z * list Z) => length q.1 = length LP /\ length q.2 = length HP /\
    (forall k, 0 <= k < j -> arr q.1 k = (arr c1 k + arr c2 k) / 2 /\ arr q.2 k = (arr c1 k - arr c2 k) / 2) /\
    (forall k, j <= k -> arr q.1 k = arr LP k /\ arr q.2 k = arr HP k)) (fun k '(LP16, HP16) =>
    tmp1 ← rd c1 k; tmp2 ← rd c2 k;
    LP16 ← wr LP16 k (WebRtcSpl_SatW32ToW16 (i32 (tmp1 + tmp2) ≫ 1));
    HP16 ← wr HP16 k (WebRtcSpl_SatW32ToW16 (i32 (tmp1 - tmp2) ≫ 1));
    Some (LP16, HP16)) 264 (LP, HP)) as ([l h] & E & H1 & H2 & H3 & H4).
  - lia.
  - split; [done|]. split; [done|]. split; [lia|done].
  - intros j [l h] Hj (A & B & C & D). cbn [fst snd] in *. rewrite !rd_Some by lia. bind_simpl.
    assert (is_i16 (arr c1 j)) as I1 by (apply arr_Forall; [unfold is_i16; lia|done]).
    assert (is_i16 (arr c2 j)) as I2 by (apply arr_Forall; [unfold is_i16; lia|done]).
    unfold is_i16 in *. rewrite !i32_id by (unfold is_i32; lia). rewrite !shiftr_div by lia. change (2 ^ 1) with 2.
    rewrite !SatW32ToW16_clamp.
    assert (clamp (-32768) 32767 ((arr c1 j + arr c2 j) / 2) = (arr c1 j + arr c2 j) / 2) as ->
      by (unfold clamp; Z.div_mod_to_equations; lia).
    assert (clamp (-32768) 32767 ((arr c1 j - arr c2 j) / 2) = (arr c1 j - arr c2 j) / 2) as ->
      by (unfold clamp; Z.div_mod_to_equations; lia).
    rewrite wr_Some by lia. bind_simpl. rewrite wr_Some by lia. bind_simpl. eexists. split; [done|].
    cbn [fst snd]. rewrite !length_upd. split; [done|]. split; [done|]. split; intros k Hk.
    + destruct (decide (k = j)) as [->|]; [rewrite !arr_upd_eq by lia; done|].
      rewrite !arr_upd_ne by lia. apply C. lia.
    + rewrite !arr_upd_ne by lia. apply D. lia.
  - cbn [fst snd] in *. exists l, h. done.
Qed.

(** Filtering 240 samples, and 24 more with a copy of the state, is filtering
    264 samples in a row. *)
Lemma two_passes x1 x2 f1 f2 st1 st2 : length x1 = 264%nat -> length x2 = 264%nat ->
  length st1 = 4%nat -> length st2 = 4%nat ->
  let s1 := set_state2 st1 (scan (ap_channel f1) (state2 st1) (take 240 x1)).2 in
  let s2 := set_state2 st2 (scan (ap_channel f2) (state2 st2) (take 240 x2)).2 in
  exists a b, WebRtcIsacfix_AllpassFilter2FixDec16C x1 x2 0 f1 f2 240 st1 st2 = Some (a, b, s1, s2) /\
    mem_read s1 0 4 = Some s1 /\ mem_read s2 0 4 = Some s2 /\
    exists t1 t2, WebRtcIsacfix_AllpassFilter2FixDec16C a b 240 f1 f2 24 s1 s2
      = Some ((scan (ap_channel f1) (state2 st1) x1).1, (scan (ap_channel f2) (state2 st2) x2).1, t1, t2).
Proof.
  intros L1 L2 S1 S2 s1 s2.
  assert (forall x : list Z, length x = 264%nat -> strided 1 0 240 x = take 240 x) as Htake.
  { intros x Lx. rewrite <-(strided_all x) at 2. rewrite Lx. by rewrite strided_take by lia. }
  destruct (AllpassFilter2_spec x1 x2 0 f1 f2 240 st1 st2) as (a & b & E & Oa & Ob); try lia; try reflexivity.
  cbn zeta in E. change (Z.to_nat 240) with 240%nat in *. rewrite (Htake x1 L1), (Htake x2 L2) in E. rewrite (Htake x1 L1) in Oa. rewrite (Htake x2 L2) in Ob.
  exists a, b. split; [exact E|].
  assert (length s1 = 4%nat /\ length s2 = 4%nat) as [Ls1 Ls2] by (unfold s1, s2, set_state2; by rewrite !length_upd).
  assert (forall s : list Z, length s = 4%nat -> mem_read s 0 4 = Some s) as Hread.
  { intros s Ls. rewrite mem_read_Some by lia. change (Z.to_nat 0) with 0%nat. change (Z.to_nat 4) with 4%nat.
    by rewrite drop_0, take_ge by lia. }
  split; [by apply Hread|]. split; [by apply Hread|].
  pose proof Oa as (La & _ & Ua). pose proof Ob as (Lb & _ & Ub).
  destruct (AllpassFilter2_spec a b 240 f1 f2 24 s1 s2) as (a' & b' & E' & Oa' & Ob'); try lia; try reflexivity.
  cbn zeta in E'. change (Z.to_nat 24) with 24%nat in *.
  assert (forall (x d : list Z) f s, length x = 264%nat -> length d = 264%nat ->
    overwritten 1 0 (scan (ap_channel f) s (take 240 x)).1 x d -> strided 1 240 24 d = drop 240 x) as Hdrop.
  { intros x d f s Lx Ld (_ & _ & U). apply list_arr; rewrite length_strided, ?length_drop, ?Lx; [done|].
    intros k Hk. rewrite arr_strided by lia. rewrite U by (try lia; rewrite length_scan, length_take; lia).
    unfold arr. rewrite nth_skipn. f_equal. lia. }
  rewrite (Hdrop x1 a f1 (state2 st1)) in E', Oa' by (try done; lia).
  rewrite (Hdrop x2 b f2 (state2 st2)) in E', Ob' by (try done; lia).
  assert (forall (x d d' st s : list Z) f, length x = 264%nat -> length d = 264%nat -> length st = 4%nat ->
    overwritten 1 0 (scan (ap_channel f) (state2 st) (take 240 x)).1 x d ->
    s = set_state2 st (scan (ap_channel f) (state2 st) (take 240 x)).2 ->
    overwritten 1 240 (scan (ap_channel f) (state2 s) (drop 240 x)).1 d d' ->
    d' = (scan (ap_channel f) (state2 st) x).1) as Hjoin.
  { intros x d d' st s f Lx Ld Lst O1 -> O2. rewrite state2_set in O2 by lia.
    pose proof (fun zs => overwritten_app _ zs x d d' O1) as O. rewrite length_scan, length_take in O.
    replace (Z.of_nat (240 `min` length x)) with 240 in O by lia. specialize (O _ O2).
    apply overwritten_whole in O.
    - rewrite O. transitivity (scan (ap_channel f) (state2 st) (take 240 x ++ drop 240 x)).1;
        [by rewrite scan_app|by rewrite take_drop].
    - rewrite length_app, !length_scan, length_take, length_drop. lia. }
  rewrite (Hjoin x1 a a' st1 s1 f1 L1 ltac:(lia) S1 Oa eq_refl Oa') in E'.
  rewrite (Hjoin x2 b b' st2 s2 f2 L2 ltac:(lia) S2 Ob eq_refl Ob') in E'.
  eexists _, _. exact E'.
Qed.

(** The struct has its array lengths, and states in range. *)
Definition prefilt_ok (p : PreFiltBankstr) : Prop :=
  length (INSTAT1_fix p) = 4%nat /\ length (INSTAT2_fix p) = 4%nat /\
  length (INLABUF1_fix p) = 24%nat /\ length (INLABUF2_fix p) = 24%nat /\
  length (HPstates_fix p) = 2%nat /\ pair32 (state2 (HPstates_fix p)).

(** The signal after the high-pass filter, and a channel with its lookahead. *)
Definition highpassed (p : PreFiltBankstr) (pin : list Z) : list Z * (Z * Z) :=
  scan (hp_exact WebRtcIsacfix_kHpStCoeffInQ30) (state2 (HPstates_fix p)) (strided 1 0 480 pin).
Definition channel1 (p : PreFiltBankstr) (pin : list Z) : list Z :=
  INLABUF1_fix p ++ strided 2 1 240 (highpassed p pin).1.
Definition channel2 (p : PreFiltBankstr) (pin : list Z) : list Z :=
  INLABUF2_fix p ++ strided 2 0 240 (highpassed p pin).1.
Definition filtered1 (p : PreFiltBankstr) (xs : list Z) : list Z * (Z * Z) :=
  scan (ap_channel WebRtcIsacfix_kUpperApFactorsQ15) (state2 (INSTAT1_fix p)) xs.
Definition filtered2 (p : PreFiltBankstr) (xs : list Z) : list Z * (Z * Z) :=
  scan (ap_channel WebRtcIsacfix_kLowerApFactorsQ15) (state2 (INSTAT2_fix p)) xs.

(** The samples kept for the next frame are the last ones of the channel. *)
Lemma saved_lookahead odd la data : length la = 24%nat -> 0 <= odd ->
  strided 2 (432 + odd) 24 data = drop 240 (la ++ strided 2 odd 240 data).
Proof.
  intros Hl Ho. rewrite drop_app, Hl, drop_ge by lia. cbn [app]. change (240 - 24)%nat with 216%nat.
  apply list_arr; rewrite ?length_drop, !length_strided; [done|]. intros k Hk.
  rewrite arr_strided by lia. unfold arr at 2. rewrite nth_skipn.
  assert (nth (216 + Z.to_nat k) (strided 2 odd 240 data) 0 = arr (strided 2 odd 240 data) (216 + k)) as ->
    by (unfold arr; f_equal; lia).
  rewrite arr_strided by lia. f_equal. lia.
Qed.

Lemma split_spec ch1 ch2 pin LP HP p : prefilt_ok p -> (480 <= length pin)%nat -> Forall is_i16 pin ->
  length ch1 = 264%nat -> length ch2 = 264%nat -> (264 <= length LP)%nat -> (264 <= length HP)%nat ->
  let x1 := channel1 p pin in let x2 := channel2 p pin in
  let c1 := (filtered1 p x1).1 in let c2 := (filtered2 p x2).1 in
  exists pin' LP' HP', WebRtcIsacfix_SplitAndFilter1 ch1 ch2 pin LP HP p
    = Some (pin', LP', HP',
        {| INSTAT1_fix := set_state2 (INSTAT1_fix p) (filtered1 p (take 240 x1)).2;
           INSTAT2_fix := set_state2 (INSTAT2_fix p) (filtered2 p (take 240 x2)).2;
           INLABUF1_fix := drop 240 x1; INLABUF2_fix := drop 240 x2;
           HPstates_fix := set_state2 (HPstates_fix p) (highpassed p pin).2 |}) /\
    overwritten 1 0 (highpassed p pin).1 pin pin' /\ length LP' = length LP /\ length HP' = length HP /\
    (forall k, 0 <= k < 264 -> arr LP' k = (arr c1 k + arr c2 k) / 2 /\ arr HP' k = (arr c1 k - arr c2 k) / 2) /\
    (forall k, 264 <= k -> arr LP' k = arr LP k /\ arr HP' k = arr HP k).
Proof.
  intros (H1 & H2 & H3 & H4 & H5 & H6) Hp Fp C1 C2 HL HH x1 x2 c1 c2. unfold WebRtcIsacfix_SplitAndFilter1.
  destruct (HighpassFilter_spec pin FRAMESAMPLES WebRtcIsacfix_kHpStCoeffInQ30 (HPstates_fix p))
    as (pin' & E & Op); [change FRAMESAMPLES with 480; lia|lia|].
  cbn zeta in E. change (Z.to_nat FRAMESAMPLES) with 480%nat in *.
  destruct (hp_scan WebRtcIsacfix_kHpStCoeffInQ30 (strided 1 0 480 pin) (state2 (HPstates_fix p)))
    as (Ex & Fx & _); [apply coefs_ok|done|by apply Forall_strided; [unfold is_i16; lia|]|].
  rewrite Ex in E, Op. assert (highpassed p pin = scan (hp_exact WebRtcIsacfix_kHpStCoeffInQ30)
    (state2 (HPstates_fix p)) (strided 1 0 480 pin)) as Eh by reflexivity.
  rewrite <-Eh in E, Op. clear Eh. rewrite E. bind_simpl.
  assert (length (highpassed p pin).1 = 480%nat) as Lh by (unfold highpassed; by rewrite length_scan, length_strided).
  pose proof Op as (Lp & Hpin & _). rewrite Lh in Hpin.
  assert (forall odd n, 0 <= odd -> odd + 2 * Z.of_nat n <= 481 ->
    strided 2 odd n pin' = strided 2 odd n (highpassed p pin).1) as Es.
  { intros odd n Ho Hn. apply strided_ext. intros k Hk. rewrite <-(Hpin (odd + 2 * k)) by lia. f_equal. lia. }
  rewrite (load_channel_spec 1 pin' ch1 (INLABUF1_fix p)) by lia. bind_simpl.
  rewrite (load_channel_spec 0 pin' ch2 (INLABUF2_fix p)) by lia. bind_simpl.
  rewrite !Es by lia.
  assert (x1 = INLABUF1_fix p ++ strided 2 1 240 (highpassed p pin).1) as Ex1 by reflexivity.
  assert (x2 = INLABUF2_fix p ++ strided 2 0 240 (highpassed p pin).1) as Ex2 by reflexivity.
  assert (strided 2 (432 + 1) 24 (highpassed p pin).1 = drop 240 x1) as Ed1
    by (rewrite Ex1; apply saved_lookahead; [exact H3|lia]).
  assert (strided 2 (432 + 0) 24 (highpassed p pin).1 = drop 240 x2) as Ed2
    by (rewrite Ex2; apply saved_lookahead; [exact H4|lia]).
  rewrite <-Ex1, <-Ex2. change (FRAMESAMPLES / 2) with 240.
  change QLOOKAHEAD with 24. change (2 * (QORDER - 1)) with 4.
  assert (length x1 = 264%nat /\ length x2 = 264%nat) as [Lx1 Lx2]
    by (unfold x1, x2, channel1, channel2; rewrite !length_app, !length_strided; lia).
  destruct (two_passes x1 x2 WebRtcIsacfix_kUpperApFactorsQ15 WebRtcIsacfix_kLowerApFactorsQ15
    (INSTAT1_fix p) (INSTAT2_fix p) Lx1 Lx2 H1 H2) as (a & b & Ea & R1 & R2 & t1 & t2 & Eb).
  cbn zeta in Ea. rewrite Ea. bind_simpl. rewrite R1. bind_simpl. rewrite R2. bind_simpl. rewrite Eb. bind_simpl.
  destruct (combine_loop c1 c2 LP HP) as (LP' & HP' & El & H7 & H8 & H9 & H10); [| | | |exact HL|exact HH|].
  - unfold c1, filtered1. rewrite length_scan. exact Lx1.
  - unfold c2, filtered2. rewrite length_scan. exact Lx2.
  - apply ap_channel_i16.
  - apply ap_channel_i16.
  - change (FRAMESAMPLES / 2 + QLOOKAHEAD) with (240 + 24) in El. unfold c1, c2, filtered1, filtered2 in El. rewrite El. bind_simpl.
    exists pin', LP', HP'. rewrite Ed1, Ed2.
    split; [reflexivity|exact (conj Op (conj H7 (conj H8 (conj H9 H10))))].
Qed.

(** The two-frame signal: high-passed as one stream, a channel of it behind the
    saved samples. *)
Definition stream (odd : Z) (la : list Z) (p : PreFiltBankstr) (pin1 pin2 : list Z) : list Z :=
  la ++ strided 2 odd 480 (scan (hp_exact WebRtcIsacfix_kHpStCoeffInQ30) (state2 (HPstates_fix p))
                             (strided 1 0 480 pin1 ++ strided 1 0 480 pin2)).1.

Lemma strided_polyphase odd h1 h2 : 0 <= odd <= 1 -> length h1 = 480%nat ->
  strided 2 odd 480 (h1 ++ h2) = strided 2 odd 240 h1 ++ strided 2 odd 240 h2.
Proof.
  intros Ho L. apply list_arr; [by rewrite length_app, !length_strided|]. rewrite length_strided. intros k Hk.
  rewrite arr_strided by lia. destruct (decide (k < 240)).
  - rewrite !arr_cat_l by (rewrite ?length_strided; lia). by rewrite arr_strided by lia.
  - rewrite !arr_cat_r by (rewrite ?length_strided; lia). rewrite length_strided, L, arr_strided by lia. f_equal. lia.
Qed.

Lemma stream_two odd la p q pin1 pin2 : 0 <= odd <= 1 ->
  highpassed q pin2
  = scan (hp_exact WebRtcIsacfix_kHpStCoeffInQ30) (highpassed p pin1).2 (strided 1 0 480 pin2) ->
  stream odd la p pin1 pin2
  = la ++ (strided 2 odd 240 (highpassed p pin1).1 ++ strided 2 odd 240 (highpassed q pin2).1).
Proof.
  intros Ho E. rewrite <-strided_polyphase; [|exact Ho|unfold highpassed; rewrite length_scan; apply length_strided].
  rewrite E. unfold stream. rewrite scan_app. cbn [fst]. unfold highpassed. reflexivity.
Qed.

(** The struct after a frame. *)
Definition after_frame (p : PreFiltBankstr) (pin : list Z) : PreFiltBankstr :=
  {| INSTAT1_fix := set_state2 (INSTAT1_fix p) (filtered1 p (take 240 (channel1 p pin))).2;
     INSTAT2_fix := set_state2 (INSTAT2_fix p) (filtered2 p (take 240 (channel2 p pin))).2;
     INLABUF1_fix := drop 240 (channel1 p pin); INLABUF2_fix := drop 240 (channel2 p pin);
     HPstates_fix := set_state2 (HPstates_fix p) (highpassed p pin).2 |}.

Lemma length_channels p pin : prefilt_ok p -> length (channel1 p pin) = 264%nat /\ length (channel2 p pin) = 264%nat.
Proof.
  intros (_ & _ & H3 & H4 & _). unfold channel1, channel2. rewrite !length_app, !length_strided, H3, H4. done.
Qed.

Lemma after_frame_ok p pin : prefilt_ok p -> Forall is_i16 pin -> prefilt_ok (after_frame p pin).
Proof.
  intros Hp F. pose proof Hp as (H1 & H2 & H3 & H4 & H5 & H6). destruct (length_channels p pin Hp) as [L1 L2].
  unfold prefilt_ok, after_frame. cbn [INSTAT1_fix INSTAT2_fix INLABUF1_fix INLABUF2_fix HPstates_fix].
  rewrite !length_drop, L1, L2. unfold set_state2 at 1 2 3. rewrite !length_upd.
  do 5 (split; [assumption || reflexivity|]). rewrite state2_set by lia.
  apply (hp_scan WebRtcIsacfix_kHpStCoeffInQ30); [apply coefs_ok|done|].
  apply Forall_strided; [unfold is_i16; lia|done].
Qed.

(** One channel over two frames. *)
Lemma filtered_stream f la (st : Z * Z) h1 h2 : length la = 24%nat ->
  let x := la ++ strided 2 f.1 240 h1 in
  let s1 := scan (ap_channel f.2) st (take 240 x) in
  (scan (ap_channel f.2) st (la ++ (strided 2 f.1 240 h1 ++ strided 2 f.1 240 h2))).1
  = take 240 (scan (ap_channel f.2) st x).1
    ++ (scan (ap_channel f.2) s1.2 (drop 240 x ++ strided 2 f.1 240 h2)).1.
Proof.
  intros Hl x s1. rewrite app_assoc. change (la ++ strided 2 f.1 240 h1) with x.
  rewrite <-(take_drop 240 x) at 1. rewrite <-app_assoc, scan_app. cbn [fst]. by rewrite scan_take.
Qed.

(** The filters go on where the frame before stopped. *)
Lemma after_frame_filters p pin : prefilt_ok p -> let q := after_frame p pin in
  (forall pin2, highpassed q pin2
     = scan (hp_exact WebRtcIsacfix_kHpStCoeffInQ30) (highpassed p pin).2 (strided 1 0 480 pin2)) /\
  (forall xs, filtered1 q xs = scan (ap_channel WebRtcIsacfix_kUpperApFactorsQ15)
     (filtered1 p (take 240 (channel1 p pin))).2 xs) /\
  (forall xs, filtered2 q xs = scan (ap_channel WebRtcIsacfix_kLowerApFactorsQ15)
     (filtered2 p (take 240 (channel2 p pin))).2 xs) /\
  (forall pin2, channel1 q pin2 = drop 240 (channel1 p pin) ++ strided 2 1 240 (highpassed q pin2).1) /\
  (forall pin2, channel2 q pin2 = drop 240 (channel2 p pin) ++ strided 2 0 240 (highpassed q pin2).1).
Proof.
  intros (S1 & S2 & _ & _ & S3 & _) q.
  assert (state2 (HPstates_fix q) = (highpassed p pin).2) as E1 by (apply state2_set; rewrite S3; repeat constructor).
  assert (state2 (INSTAT1_fix q) = (filtered1 p (take 240 (channel1 p pin))).2) as E2
    by (apply state2_set; rewrite S1; repeat constructor).
  assert (state2 (INSTAT2_fix q) = (filtered2 p (take 240 (channel2 p pin))).2) as E3
    by (apply state2_set; rewrite S2; repeat constructor).
  split; [intros pin2; rewrite <-E1; reflexivity|]. split; [intros xs; rewrite <-E2; reflexivity|].
  split; [intros xs; rewrite <-E3; reflexivity|]. split; intros pin2; reflexivity.
Qed.

(** The lookahead outputs of a frame come first in the next frame. *)
Lemma filtered_lookahead f st x ys k : length x = 264%nat -> 0 <= k < 24 ->
  arr (scan (ap_channel f) (scan (ap_channel f) st (take 240 x)).2 (drop 240 x ++ ys)).1 k
  = arr (scan (ap_channel f) st x).1 (240 + k).
Proof.
  intros Lx Hk. rewrite scan_app. cbn [fst]. rewrite arr_cat_l by (rewrite length_scan, length_drop; lia).
  rewrite <-(take_drop 240 x) at 3. rewrite scan_app. cbn [fst].
  rewrite arr_cat_r by (rewrite length_scan, length_take; lia). rewrite length_scan, length_take. f_equal. lia.
Qed.

(** C34: The analysis filter bank works on one continuous signal.  For every
    well-formed state and all 16-bit frames nothing is accessed out of bounds,
    no 32-bit operation of the high-pass filter wraps, the struct stays well
    formed, and the two bands of consecutive frames are half the sum and half
    the difference of the two allpass channels of the concatenated signal; the
    24 lookahead samples of a frame are already the first samples of the next
    one. *)
Theorem split_lookahead p pin1 pin2 (ch1 ch2 ch3 ch4 LP1 HP1 LP2 HP2 : list Z) : prefilt_ok p ->
  (480 <= length pin1)%nat -> (480 <= length pin2)%nat -> Forall is_i16 pin1 -> Forall is_i16 pin2 ->
  Forall (fun l : list Z => length l = 264%nat) [ch1; ch2; ch3; ch4; LP1; HP1; LP2; HP2] ->
  let c1 := (filtered1 p (stream 1 (INLABUF1_fix p) p pin1 pin2)).1 in
  let c2 := (filtered2 p (stream 0 (INLABUF2_fix p) p pin1 pin2)).1 in
  exists pin1' L1 U1 pin2' L2 U2 p2,
    WebRtcIsacfix_SplitAndFilter1 ch1 ch2 pin1 LP1 HP1 p = Some (pin1', L1, U1, after_frame p pin1) /\
    WebRtcIsacfix_SplitAndFilter1 ch3 ch4 pin2 LP2 HP2 (after_frame p pin1) = Some (pin2', L2, U2, p2) /\
    prefilt_ok (after_frame p pin1) /\ prefilt_ok p2 /\
    (forall k, 0 <= k < 240 -> arr L1 k = (arr c1 k + arr c2 k) / 2 /\ arr U1 k = (arr c1 k - arr c2 k) / 2) /\
    (forall k, 0 <= k < 264 -> arr L2 k = (arr c1 (240 + k) + arr c2 (240 + k)) / 2 /\
                               arr U2 k = (arr c1 (240 + k) - arr c2 (240 + k)) / 2) /\
    (forall k, 0 <= k < 24 -> arr L2 k = arr L1 (240 + k) /\ arr U2 k = arr U1 (240 + k)).
Proof.
  intros Hp Lp1 Lp2 F1 F2 HF c1 c2.
  repeat match goal with H : Forall _ (_ :: _) |- _ => inversion H; subst; clear H end.
  pose proof (after_frame_ok p pin1 Hp F1) as Hq. set (q := after_frame p pin1) in *.
  destruct (split_spec ch1 ch2 pin1 LP1 HP1 p) as (pin1' & L1 & U1 & E1 & _ & _ & _ & O1 & _); try assumption; try lia.
  destruct (split_spec ch3 ch4 pin2 LP2 HP2 q) as (pin2' & L2 & U2 & E2 & _ & _ & _ & O2 & _); try assumption; try lia.
  cbn zeta in *. exists pin1', L1, U1, pin2', L2, U2, (after_frame q pin2).
  split; [exact E1|]. split; [exact E2|]. split; [exact Hq|]. split; [by apply after_frame_ok|].
  pose proof Hp as (S1 & S2 & A1 & A2 & S3 & _).
  destruct (after_frame_filters p pin1 Hp) as (Q1 & Q2 & Q3 & Q4 & Q5). fold q in Q1, Q2, Q3, Q4, Q5.
  assert (forall odd la, 0 <= odd <= 1 -> stream odd la p pin1 pin2
    = la ++ (strided 2 odd 240 (highpassed p pin1).1 ++ strided 2 odd 240 (highpassed q pin2).1)) as Est.
  { intros odd la Ho. apply stream_two; [exact Ho|exact (Q1 pin2)]. }
  assert (c1 = take 240 (filtered1 p (channel1 p pin1)).1 ++ (filtered1 q (channel1 q pin2)).1) as Ec1.
  { unfold c1, filtered1 at 1. rewrite Est by lia.
    rewrite (filtered_stream (1, WebRtcIsacfix_kUpperApFactorsQ15)) by exact A1. cbn [fst snd].
    rewrite (Q2 (channel1 q pin2)), (Q4 pin2). reflexivity. }
  assert (c2 = take 240 (filtered2 p (channel2 p pin1)).1 ++ (filtered2 q (channel2 q pin2)).1) as Ec2.
  { unfold c2, filtered2 at 1. rewrite Est by lia.
    rewrite (filtered_stream (0, WebRtcIsacfix_kLowerApFactorsQ15)) by exact A2. cbn [fst snd].
    rewrite (Q3 (channel2 q pin2)), (Q5 pin2). reflexivity. }
  destruct (length_channels p pin1 Hp) as [Lx1 Lx2]. destruct (length_channels q pin2 Hq) as [Ly1 Ly2].
  assert (length (filtered1 p (channel1 p pin1)).1 = 264%nat) as Lf1 by (unfold filtered1; by rewrite length_scan).
  assert (length (filtered2 p (channel2 p pin1)).1 = 264%nat) as Lf2 by (unfold filtered2; by rewrite length_scan).
  assert (forall l k, length l = 264%nat -> 0 <= k < 240 -> arr (take 240 l) k = arr l k) as Htake.
  { intros l k Ll Hk. rewrite <-(take_drop 240 l) at 2. by rewrite arr_cat_l by (rewrite length_take; lia). }
  split; [|split].
  - intros k Hk. rewrite Ec1, Ec2, !arr_cat_l by (rewrite length_take; lia).
    rewrite !Htake by (assumption || lia). apply O1. lia.
  - intros k Hk. rewrite Ec1, Ec2, !arr_cat_r by (rewrite length_take; lia). rewrite !length_take, Lf1, Lf2.
    replace (240 + k - Z.of_nat (240 `min` 264)) with k by lia. by apply O2.
  - intros k Hk. destruct (O2 k ltac:(lia)) as [-> ->]. destruct (O1 (240 + k) ltac:(lia)) as [-> ->].
    assert (arr (filtered1 q (channel1 q pin2)).1 k = arr (filtered1 p (channel1 p pin1)).1 (240 + k)) as ->.
    { rewrite (Q2 (channel1 q pin2)), (Q4 pin2). unfold filtered1. apply filtered_lookahead; [exact Lx1|exact Hk]. }
    assert (arr (filtered2 q (channel2 q pin2)).1 k = arr (filtered2 p (channel2 p pin1)).1 (240 + k)) as ->.
    { rewrite (Q3 (channel2 q pin2)), (Q5 pin2). unfold filtered2. apply filtered_lookahead; [exact Lx2|exact Hk]. }
    done.
Qed.

Lemma split_lookahead_witness : exists pin1' L1 U1 pin2' L2 U2 p2,
  let z := replicate 264 0 in let p := WebRtcIsacfix_InitPreFilterbank in
  WebRtcIsacfix_SplitAndFilter1 z z (replicate 480 1000) z z p
    = Some (pin1', L1, U1, after_frame p (replicate 480 1000)) /\
  WebRtcIsacfix_SplitAndFilter1 z z (replicate 480 (-1000)) z z (after_frame p (replicate 480 1000))
    = Some (pin2', L2, U2, p2) /\ arr L2 7 = arr L1 247.
Proof.
  destruct (split_lookahead WebRtcIsacfix_InitPreFilterbank (replicate 480 1000) (replicate 480 (-1000))
    (replicate 264 0) (replicate 264 0) (replicate 264 0) (replicate 264 0)
    (replicate 264 0) (replicate 264 0) (replicate 264 0) (replicate 264 0))
    as (pin1' & L1 & U1 & pin2' & L2 & U2 & p2 & E1 & E2 & _ & _ & _ & _ & H).
  - split; [reflexivity|]. split; [reflexivity|]. split; [reflexivity|]. split; [reflexivity|].
    split; [reflexivity|]. vm_compute. split; split; congruence.
  - rewrite length_replicate. lia.
  - rewrite length_replicate. lia.
  - apply Forall_replicate. unfold is_i16. lia.
  - apply Forall_replicate. unfold is_i16. lia.
  - repeat constructor.
  - exists pin1', L1, U1, pin2', L2, U2, p2. split; [exact E1|]. split; [exact E2|].
    exact (proj1 (H 7 ltac:(lia))).
Defined.

(** ** Synthesis *)

Definition interleave (n : nat) (xs ys : list Z) : list Z :=
  map (fun i => if Z.even i then arr xs (i / 2) else arr ys (i / 2)) (seqZ 0 (2 * Z.of_nat n)).

Lemma length_interleave n xs ys : length (interleave n xs ys) = (2 * n)%nat.
Proof. unfold interleave. rewrite length_map, length_seqZ. lia. Qed.

Lemma arr_interleave n xs ys k : 0 <= k < Z.of_nat n ->
  arr (interleave n xs ys) (2 * k) = arr xs k /\ arr (interleave n xs ys) (2 * k + 1) = arr ys k.
Proof.
  intros Hk. assert (forall i, 0 <= i < 2 * Z.of_nat n ->
    arr (interleave n xs ys) i = if Z.even i then arr xs (i / 2) else arr ys (i / 2)) as H.
  { intros i Hi. unfold arr at 1. apply nth_lookup_Some. unfold interleave. change (map ?f ?l) with (f <$> l).
    rewrite list_lookup_fmap, lookup_seqZ_lt by lia. cbn. by replace (0 + Z.of_nat (Z.to_nat i)) with i by lia. }
  split; rewrite H by lia.
  - rewrite Z.even_mul. cbn [Z.even orb]. f_equal. Z.div_mod_to_equations; lia.
  - rewrite Z.even_add, Z.even_mul. cbn [Z.even orb Bool.eqb]. f_equal. Z.div_mod_to_equations; lia.
Qed.

Lemma interleave_ext n xs ys xs' ys' : (forall k, 0 <= k < Z.of_nat n -> arr xs k = arr xs' k) ->
  (forall k, 0 <= k < Z.of_nat n -> arr ys k = arr ys' k) -> interleave n xs ys = interleave n xs' ys'.
Proof.
  intros H1 H2. apply map_ext_in. intros i Hi. apply list_elem_of_In, elem_of_seqZ in Hi.
  assert (0 <= i / 2 < Z.of_nat n) by (Z.div_mod_to_equations; lia). by rewrite H1, H2.
Qed.

Lemma interleave_i16 n xs ys : Forall is_i16 xs -> Forall is_i16 ys -> Forall is_i16 (interleave n xs ys).
Proof.
  intros H1 H2. apply Forall_map, Forall_true. intros i.
  destruct (Z.even i); apply arr_Forall; try done; unfold is_i16; lia.
Qed.

(** Two high-pass filters over one buffer, one after the other. *)
Lemma highpass_twice m st1 st2 : length m = 480%nat -> Forall is_i16 m -> length st1 = 2%nat -> length st2 = 2%nat ->
  pair32 (state2 st1) -> pair32 (state2 st2) ->
  let y := scan (chain (hp_exact WebRtcIsacfix_kHPStCoeffOut1Q30) (hp_exact WebRtcIsacfix_kHPStCoeffOut2Q30))
             (state2 st1, state2 st2) m in
  exists m1, WebRtcIsacfix_HighpassFilterFixDec32C m FRAMESAMPLES WebRtcIsacfix_kHPStCoeffOut1Q30 st1
      = Some (m1, set_state2 st1 y.2.1) /\
    WebRtcIsacfix_HighpassFilterFixDec32C m1 FRAMESAMPLES WebRtcIsacfix_kHPStCoeffOut2Q30 st2
      = Some (y.1, set_state2 st2 y.2.2) /\
    length y.1 = 480%nat /\ Forall is_i16 y.1 /\ pair32 y.2.1 /\ pair32 y.2.2.
Proof.
  intros Lm Fm L1 L2 P1 P2 y. destruct coefs_ok as (_ & C1 & C2).
  assert (forall l : list Z, length l = 480%nat -> strided 1 0 480 l = l) as Hs
    by (intros l Hl; rewrite <-Hl; apply strided_all).
  destruct (hp_scan _ m (state2 st1) C1 P1 Fm) as (E1 & F1 & R1).
  destruct (HighpassFilter_spec m FRAMESAMPLES WebRtcIsacfix_kHPStCoeffOut1Q30 st1) as (m1 & H1 & O1);
    [change FRAMESAMPLES with 480; lia|lia|].
  cbn zeta in H1. change (Z.to_nat FRAMESAMPLES) with 480%nat in *. rewrite (Hs m Lm), E1 in H1, O1.
  set (r1 := scan (hp_exact WebRtcIsacfix_kHPStCoeffOut1Q30) (state2 st1) m) in *.
  assert (length r1.1 = 480%nat) as Lr1 by (unfold r1; rewrite length_scan; exact Lm).
  apply overwritten_whole in O1; [|congruence]. subst m1.
  destruct (hp_scan _ r1.1 (state2 st2) C2 P2 F1) as (E2 & F2 & R2).
  destruct (HighpassFilter_spec r1.1 FRAMESAMPLES WebRtcIsacfix_kHPStCoeffOut2Q30 st2) as (m2 & H2 & O2);
    [change FRAMESAMPLES with 480; lia|lia|].
  cbn zeta in H2. change (Z.to_nat FRAMESAMPLES) with 480%nat in *. rewrite (Hs r1.1 Lr1), E2 in H2, O2.
  apply overwritten_whole in O2; [|rewrite length_scan; reflexivity]. subst m2.
  assert (y = ((scan (hp_exact WebRtcIsacfix_kHPStCoeffOut2Q30) (state2 st2) r1.1).1,
    (r1.2, (scan (hp_exact WebRtcIsacfix_kHPStCoeffOut2Q30) (state2 st2) r1.1).2))) as ->
    by (unfold y; rewrite scan_chain; reflexivity).
  cbn [fst snd]. exists r1.1. split; [exact H1|]. split; [exact H2|]. rewrite length_scan. done.
Qed.

Definition postfilt_ok (p : PostFiltBankstr) : Prop :=
  length (STATE_0_LOWER_fix p) = 6%nat /\ length (STATE_0_UPPER_fix p) = 6%nat /\
  length (HPstates1_fix p) = 2%nat /\ length (HPstates2_fix p) = 2%nat /\
  pair32 (state2 (HPstates1_fix p)) /\ pair32 (state2 (HPstates2_fix p)).

(** The merged channels of a frame: the allpass factors are those of the
    opposite channel of the analysis. *)
Definition synthesis_up (p : PostFiltBankstr) (ch1 : list Z) : list Z * (Z * Z) :=
  scan (ap_channel WebRtcIsacfix_kLowerApFactorsQ15) (state2 (STATE_0_UPPER_fix p)) (strided 1 0 240 ch1).
Definition synthesis_lo (p : PostFiltBankstr) (ch2 : list Z) : list Z * (Z * Z) :=
  scan (ap_channel WebRtcIsacfix_kUpperApFactorsQ15) (state2 (STATE_0_LOWER_fix p)) (strided 1 0 240 ch2).
Definition synthesised (p : PostFiltBankstr) (ch1 ch2 : list Z) : list Z * ((Z * Z) * (Z * Z)) :=
  scan (chain (hp_exact WebRtcIsacfix_kHPStCoeffOut1Q30) (hp_exact WebRtcIsacfix_kHPStCoeffOut2Q30))
    (state2 (HPstates1_fix p), state2 (HPstates2_fix p))
    (interleave 240 (synthesis_lo p ch2).1 (synthesis_up p ch1).1).

Lemma merge_loop inp ch1 ch2 : length inp = 480%nat -> (240 <= length ch1)%nat -> (240 <= length ch2)%nat ->
  for_opt (FRAMESAMPLES / 2) (fun k inp =>
    v ← rd ch2 k; inp ← wr inp (2 * k) v; v ← rd ch1 k; wr inp (2 * k + 1) v) inp
  = Some (interleave 240 ch2 ch1).
Proof.
  intros Li L1 L2. change (FRAMESAMPLES / 2) with 240.
  destruct (for_opt_ind (fun j l => length l = 480%nat /\
    forall k, 0 <= k < j -> arr l (2 * k) = arr ch2 k /\ arr l (2 * k + 1) = arr ch1 k) (fun k inp =>
    v ← rd ch2 k; inp ← wr inp (2 * k) v; v ← rd ch1 k; wr inp (2 * k + 1) v) 240 inp) as (l & -> & L & H).
  - lia.
  - split; [done|lia].
  - intros j l Hj [L H]. rewrite (rd_Some ch2) by lia. bind_simpl. rewrite wr_Some by lia. bind_simpl.
    rewrite (rd_Some ch1) by lia. bind_simpl. rewrite wr_Some by (rewrite length_upd; lia). eexists. split; [done|].
    rewrite !length_upd. split; [done|]. intros k Hk. destruct (decide (k = j)) as [->|].
    + rewrite arr_upd_ne by lia. rewrite !arr_upd_eq by (rewrite ?length_upd; lia). done.
    + rewrite !arr_upd_ne by lia. apply H. lia.
  - f_equal. apply list_arr; [by rewrite length_interleave|]. intros i Hi.
    assert (exists k, 0 <= k < 240 /\ (i = 2 * k \/ i = 2 * k + 1)) as (k & Hk & Hik).
    { exists (i / 2). pose proof (Z.mod_pos_bound i 2 ltac:(lia)). pose proof (Z.div_mod i 2 ltac:(lia)). lia. }
    destruct (H k ltac:(lia)) as [He Hodd]. destruct (arr_interleave 240 ch2 ch1 k ltac:(lia)) as [Ie Io].
    destruct Hik as [->| ->]; congruence.
Qed.

Lemma copy_loop ys out : length ys = 480%nat -> (480 <= length out)%nat -> exists out',
  for_opt FRAMESAMPLES (fun k out16 => v ← rd ys k; wr out16 k v) out = Some out' /\
  overwritten 1 0 ys out out'.
Proof.
  intros Ly Lo. change FRAMESAMPLES with 480.
  destruct (for_opt_ind (fun j o => length o = length out /\ (forall k, 0 <= k < j -> arr o k = arr ys k) /\
    (forall k, j <= k -> arr o k = arr out k)) (fun k out16 => v ← rd ys k; wr out16 k v) 480 out)
    as (o & -> & L & H & U); [lia|split; [done|split; [lia|done]]| |].
  - intros j o Hj (L & H & U). rewrite rd_Some by lia. bind_simpl. rewrite wr_Some by lia. eexists. split; [done|].
    split; [by rewrite length_upd|]. split; intros k Hk.
    + destruct (decide (k = j)) as [->|]; [by rewrite arr_upd_eq by lia|]. rewrite arr_upd_ne by lia. apply H. lia.
    + rewrite arr_upd_ne by lia. apply U. lia.
  - exists o. split; [done|]. split; [done|]. split.
    + intros k Hk. replace (0 + 1 * k) with k by lia. apply H. lia.
    + intros i Hi Hne. apply U. rewrite Ly in Hne. destruct (decide (480 <= i)); [done|].
      exfalso. apply (Hne i); lia.
Qed.

(** The state behind a frame. *)
Definition next_postfilt (p : PostFiltBankstr) (ch1 ch2 : list Z) : PostFiltBankstr :=
  let y := synthesised p ch1 ch2 in
  {| STATE_0_LOWER_fix := set_state2 (STATE_0_LOWER_fix p) (synthesis_lo p ch2).2;
     STATE_0_UPPER_fix := set_state2 (STATE_0_UPPER_fix p) (synthesis_up p ch1).2;
     HPstates1_fix := set_state2 (HPstates1_fix p) y.2.1; HPstates2_fix := set_state2 (HPstates2_fix p) y.2.2 |}.

(** The filter bank as a function, for its callers. *)
Lemma combine_spec inp ch1 ch2 out p : postfilt_ok p -> length inp = 480%nat ->
  (240 <= length ch1)%nat -> (240 <= length ch2)%nat -> (480 <= length out)%nat ->
  let y := synthesised p ch1 ch2 in
  exists ch1' ch2' out', WebRtcIsacfix_FilterAndCombine1 inp ch1 ch2 out p = Some (ch1', ch2', out', next_postfilt p ch1 ch2) /\
    overwritten 1 0 y.1 out out' /\ length y.1 = 480%nat /\ Forall is_i16 y.1 /\ postfilt_ok (next_postfilt p ch1 ch2).
Proof.
  intros Hp Li Lc1 Lc2 Lo y. pose proof Hp as (S1 & S2 & S3 & S4 & P1 & P2).
  unfold WebRtcIsacfix_FilterAndCombine1. change (FRAMESAMPLES / 2) with 240.
  destruct (AllpassFilter2_spec ch1 ch2 0 WebRtcIsacfix_kLowerApFactorsQ15 WebRtcIsacfix_kUpperApFactorsQ15 240
    (STATE_0_UPPER_fix p) (STATE_0_LOWER_fix p)) as (a & b & E & Oa & Ob); [first [lia|reflexivity]..|].
  cbn zeta in E. change (Z.to_nat 240) with 240%nat in *.
  assert (synthesis_up p ch1 = scan (ap_channel WebRtcIsacfix_kLowerApFactorsQ15)
    (state2 (STATE_0_UPPER_fix p)) (strided 1 0 240 ch1)) as Eu by reflexivity.
  assert (synthesis_lo p ch2 = scan (ap_channel WebRtcIsacfix_kUpperApFactorsQ15)
    (state2 (STATE_0_LOWER_fix p)) (strided 1 0 240 ch2)) as El by reflexivity.
  rewrite <-Eu, <-El in E. rewrite <-Eu in Oa. rewrite <-El in Ob. rewrite E. bind_simpl.
  assert (length (synthesis_up p ch1).1 = 240%nat) as Lu by (rewrite Eu, length_scan; apply length_strided).
  assert (length (synthesis_lo p ch2).1 = 240%nat) as Ll by (rewrite El, length_scan; apply length_strided).
  pose proof Oa as (La & _). pose proof Ob as (Lb & _).
  rewrite merge_loop; [|exact Li|lia|lia]. bind_simpl.
  assert (interleave 240 b a = interleave 240 (synthesis_lo p ch2).1 (synthesis_up p ch1).1) as ->.
  { apply interleave_ext; [|]; intros k Hk.
    - destruct Ob as (_ & Hb & _). rewrite <-Hb by lia. f_equal. lia.
    - destruct Oa as (_ & Ha & _). rewrite <-Ha by lia. f_equal. lia. }
  set (merged := interleave 240 (synthesis_lo p ch2).1 (synthesis_up p ch1).1) in *.
  assert (Forall is_i16 merged) as Fm.
  { apply interleave_i16; [rewrite El|rewrite Eu]; apply ap_channel_i16. }
  assert (length merged = 480%nat) as Lm by apply length_interleave.
  destruct (highpass_twice merged (HPstates1_fix p) (HPstates2_fix p) Lm Fm S3 S4 P1 P2) as (m1 & Em1 & Em2 & Ly & Fy & R1 & R2).
  bind_step Em1. bind_step Em2.
  assert (synthesised p ch1 ch2 = scan (chain (hp_exact WebRtcIsacfix_kHPStCoeffOut1Q30)
    (hp_exact WebRtcIsacfix_kHPStCoeffOut2Q30)) (state2 (HPstates1_fix p), state2 (HPstates2_fix p)) merged)
    as Ey by reflexivity.
  rewrite <-Ey in Ly, Fy, R1, R2. rewrite <-Ey. fold y in Ly, Fy, R1, R2. fold y.
  destruct (copy_loop y.1 out) as (out' & -> & Oo); [exact Ly|exact Lo|]. bind_simpl.
  eexists _, _, out'. split; [reflexivity|]. split; [exact Oo|]. split; [exact Ly|]. split; [exact Fy|].
  unfold next_postfilt, postfilt_ok. cbn [STATE_0_LOWER_fix STATE_0_UPPER_fix HPstates1_fix HPstates2_fix].
  unfold set_state2 at 1 2 3 4. rewrite !length_upd, !state2_set by lia.
  exact (conj S1 (conj S2 (conj S3 (conj S4 (conj R1 R2))))).
Qed.

(** C35: The synthesis filter bank: for every well-formed state nothing is
    accessed out of bounds, whatever the local buffer held, and the output
    frame is the two allpass-filtered bands, interleaved and passed sample by
    sample through the two high-pass filters, of which no 32-bit operation
    wraps; the states after the frame are well formed, and continue all four
    filters. *)
Theorem combine_exact inp ch1 ch2 out p : postfilt_ok p -> length inp = 480%nat ->
  (240 <= length ch1)%nat -> (240 <= length ch2)%nat -> (480 <= length out)%nat ->
  let y := synthesised p ch1 ch2 in
  exists ch1' ch2' out' p', WebRtcIsacfix_FilterAndCombine1 inp ch1 ch2 out p = Some (ch1', ch2', out', p') /\
    overwritten 1 0 y.1 out out' /\ Forall is_i16 y.1 /\ postfilt_ok p' /\
    state2 (STATE_0_UPPER_fix p') = (synthesis_up p ch1).2 /\
    state2 (STATE_0_LOWER_fix p') = (synthesis_lo p ch2).2 /\
    (state2 (HPstates1_fix p'), state2 (HPstates2_fix p')) = y.2.
Proof.
  intros Hp Li Lc1 Lc2 Lo y. destruct (combine_spec inp ch1 ch2 out p Hp Li Lc1 Lc2 Lo) as (ch1' & ch2' & out' & E & O & _ & F & P).
  exists ch1', ch2', out', (next_postfilt p ch1 ch2). split; [exact E|]. split; [exact O|]. split; [exact F|]. split; [exact P|].
  destruct Hp as (S1 & S2 & S3 & S4 & _). unfold next_postfilt.
  cbn [STATE_0_LOWER_fix STATE_0_UPPER_fix HPstates1_fix HPstates2_fix]. rewrite !state2_set by lia.
  split; [reflexivity|]. split; [reflexivity|]. symmetry. apply surjective_pairing.
Qed.

Lemma combine_exact_witness : exists ch1' ch2' out' p',
  WebRtcIsacfix_FilterAndCombine1 (replicate 480 5) (replicate 240 1000) (replicate 240 (-1000)) (replicate 480 0)
    WebRtcIsacfix_InitPostFilterbank = Some (ch1', ch2', out', p') /\ postfilt_ok p'.
Proof.
  destruct (combine_exact (replicate 480 5) (replicate 240 1000) (replicate 240 (-1000)) (replicate 480 0)
    WebRtcIsacfix_InitPostFilterbank) as (ch1' & ch2' & out' & p' & E & _ & _ & H & _).
  - do 4 (split; [reflexivity|]). split; vm_compute; split; split; congruence.
  - reflexivity.
  - rewrite length_replicate. lia.
  - rewrite length_replicate. lia.
  - rewrite length_replicate. lia.
  - exists ch1', ch2', out', p'. split; [exact E|exact H].
Defined.

(** ** The decimator *)

(** The two sections of one channel. *)
Definition dec_channel (f : list Z) : Z * Z -> Z -> Z * (Z * Z) :=
  chain (dec_section (arr f 0)) (dec_section (arr f 1)).

Lemma AllpassDec_spec data base f (n : nat) state sb : 0 <= base -> 0 <= sb ->
  (forall k, 0 <= k < Z.of_nat n -> base + 2 * k < Z.of_nat (length data)) -> sb + 1 < Z.of_nat (length state) ->
  let r := scan (dec_channel f) (arr state sb, arr state (sb + 1)) (strided 2 base n data) in
  exists data', AllpassFilterForDec32 data base f (2 * Z.of_nat n) state sb
      = Some (data', upd (upd state sb r.2.1) (sb + 1) r.2.2) /\
    overwritten 2 base r.1 data data'.
Proof.
  intros Hb Hsb Hr Hq. cbn zeta. unfold dec_channel. rewrite scan_chain. cbn [fst snd].
  unfold AllpassFilterForDec32. replace ((2 * Z.of_nat n + 1) / 2) with (Z.of_nat n) by (Z.div_mod_to_equations; lia).
  destruct (for_scan_cell (dec_section (arr f 0)) 2 base n data state sb) as (d1 & E1 & O1); [lia|done|done|lia|].
  pose proof O1 as (L1 & _ & _).
  set (r1 := scan (dec_section (arr f 0)) (arr state sb) (strided 2 base n data)) in *.
  destruct (for_scan_cell (dec_section (arr f 1)) 2 base n d1 (upd state sb r1.2) (sb + 1)) as (d2 & E2 & O2);
    [lia|done|intros k Hk; rewrite L1; by apply Hr|rewrite length_upd; lia|].
  assert (length r1.1 = n) as Lr by (unfold r1; rewrite length_scan; apply length_strided).
  pose proof (overwritten_strided 2 base r1.1 data d1 O1) as Es. rewrite Lr in Es. rewrite Es in E2, O2.
  rewrite arr_upd_ne in E2, O2 by lia. exists d2. split.
  - change (for_opt ALLPASSSECTIONS ?g ?s) with (t ← g 0 s; t ← g 1 t; Some t). cbv beta iota. rewrite Z.add_0_r.
    rewrite E1, bind_Some. cbv beta iota. rewrite E2. reflexivity.
  - apply (overwritten_again 2 base r1.1 _ data d1 d2 O1 O2). rewrite length_scan. reflexivity.
Qed.

(** The samples of the lower channel: one sample late. *)
Definition delayed (st : list Z) (n : nat) (xs : list Z) : list Z := take n (i16 (arr st 4 ≫ 16) :: strided 2 1 n xs).
Definition dec_upper (st : list Z) (n : nat) (xs : list Z) : list Z * (Z * Z) :=
  scan (dec_channel kApUpperQ15) (arr st 0, arr st 1) (strided 2 0 n xs).
Definition dec_lower (st : list Z) (n : nat) (xs : list Z) : list Z * (Z * Z) :=
  scan (dec_channel kApLowerQ15) (arr st 2, arr st 3) (delayed st n xs).
(** [n] samples from [2 n]. *)
Definition decimated (st : list Z) (n : nat) (xs : list Z) : list Z :=
  zip_with WebRtcSpl_AddSatW16 (dec_lower st n xs).1 (dec_upper st n xs).1.

Lemma length_delayed st n xs : length (delayed st n xs) = n.
Proof. unfold delayed. rewrite length_take. cbn [length]. rewrite length_strided. lia. Qed.

Lemma arr_delayed st n xs k : 0 <= k < Z.of_nat n ->
  arr (delayed st n xs) k = if k =? 0 then i16 (arr st 4 ≫ 16) else arr xs (2 * k - 1).
Proof.
  intros Hk. unfold delayed, arr at 1. rewrite nth_lookup, lookup_take_lt by lia. rewrite <-nth_lookup.
  destruct (Z.eqb_spec k 0) as [->|]; [done|]. replace (Z.to_nat k) with (S (Z.to_nat (k - 1))) by lia. cbn [nth].
  change (arr (strided 2 1 n xs) (k - 1) = arr xs (2 * k - 1)). rewrite arr_strided by lia. f_equal. lia.
Qed.

Lemma length_decimated st n xs : length (decimated st n xs) = n.
Proof.
  unfold decimated, dec_lower, dec_upper. rewrite length_zip_with, !length_scan, length_delayed, length_strided. lia.
Qed.

(** The state array after a block. *)
Definition dec_state (st : list Z) (n : nat) (xs : list Z) : list Z :=
  [(dec_upper st n xs).2.1; (dec_upper st n xs).2.2; (dec_lower st n xs).2.1; (dec_lower st n xs).2.2;
   i32 (u32 (arr xs (2 * Z.of_nat n - 1) ≪ 16))].

(** The output loop. *)
Lemma add_channels dv lo up out (n : nat) : (2 * n <= length dv)%nat -> length lo = n -> length up = n ->
  (forall k, 0 <= k < Z.of_nat n -> arr dv (2 * k) = arr lo k /\ arr dv (2 * k + 1) = arr up k) ->
  (n <= length out)%nat -> exists out',
  for_opt (Z.of_nat n) (fun n out => a ← rd dv (2 * n); b ← rd dv (2 * n + 1); wr out n (WebRtcSpl_AddSatW16 a b)) out
  = Some out' /\ overwritten 1 0 (zip_with WebRtcSpl_AddSatW16 lo up) out out'.
Proof.
  intros HL Ll Lu Hdv Ho.
  destruct (for_opt_ind (fun j o => length o = length out /\
    (forall k, 0 <= k < j -> arr o k = WebRtcSpl_AddSatW16 (arr lo k) (arr up k)) /\
    (forall k, j <= k -> arr o k = arr out k))
    (fun n out => a ← rd dv (2 * n); b ← rd dv (2 * n + 1); wr out n (WebRtcSpl_AddSatW16 a b)) (Z.of_nat n) out)
    as (o & -> & L & H & U); [lia|split; [done|split; [lia|done]]| |].
  - intros j o Hj (L & H & U). rewrite !rd_Some by lia. bind_simpl. rewrite wr_Some by lia. eexists. split; [done|].
    destruct (Hdv j Hj) as [-> ->]. split; [by rewrite length_upd|]. split; intros k Hk.
    + destruct (decide (k = j)) as [->|]; [by rewrite arr_upd_eq by lia|]. rewrite arr_upd_ne by lia. apply H. lia.
    + rewrite arr_upd_ne by lia. apply U. lia.
  - exists o. split; [done|]. split; [done|]. rewrite length_zip_with, Ll, Lu, Nat.min_id. split.
    + intros k Hk. replace (0 + 1 * k) with k by lia. rewrite H by lia. symmetry. unfold arr at 1.
      apply nth_lookup_Some. rewrite lookup_zip_with.
      rewrite !(list_lookup_lookup_total_lt) by lia. cbn. f_equal.
      f_equal; unfold arr; rewrite nth_lookup; rewrite list_lookup_lookup_total_lt by lia; done.
    + intros i Hi Hne. apply U. destruct (decide (Z.of_nat n <= i)); [done|]. exfalso. apply (Hne i); lia.
Qed.

Lemma DecimateAllpass32_spec dv inp st (n : nat) out : length dv = 240%nat -> (0 < n <= 120)%nat ->
  length st = 5%nat -> (2 * n <= length inp)%nat -> (n <= length out)%nat ->
  exists out', WebRtcIsacfix_DecimateAllpass32 dv inp st (2 * Z.of_nat n) out = Some (dec_state st n inp, out') /\
    overwritten 1 0 (decimated st n inp) out out'.
Proof.
  intros Ld Hn Ls Li Lo. unfold WebRtcIsacfix_DecimateAllpass32.
  rewrite mem_read_Some by lia. rewrite bind_Some. set (bs := take (Z.to_nat (2 * Z.of_nat n - 1)) (drop (Z.to_nat 0) inp)).
  assert (length bs = (2 * n - 1)%nat) as Lb by (unfold bs; rewrite length_take, length_drop; lia).
  rewrite mem_write_Some by lia. rewrite bind_Some. set (d0 := take _ dv ++ bs ++ _).
  assert (length d0 = 240%nat) as L0 by (unfold d0; rewrite !length_app, length_take, length_drop; lia).
  assert (forall k, 0 <= k < 2 * Z.of_nat n - 1 -> arr d0 (1 + k) = arr inp k) as H0.
  { intros k Hk. unfold d0. rewrite arr_cat_r by (rewrite length_take; lia). rewrite length_take.
    rewrite arr_cat_l by lia. unfold bs. change (Z.to_nat 0) with 0%nat. rewrite drop_0. unfold arr.
    rewrite !nth_lookup, lookup_take_lt by lia. do 2 f_equal. lia. }
  rewrite (rd_Some st) by (change ALLPASSSECTIONS with 2; lia). rewrite bind_Some. change (2 * ALLPASSSECTIONS) with 4.
  rewrite wr_Some by lia. rewrite bind_Some. rewrite rd_Some by lia. rewrite bind_Some.
  rewrite wr_Some by lia. rewrite bind_Some. set (d1 := upd d0 0 _). set (st1 := upd st 4 _).
  assert (length d1 = 240%nat /\ length st1 = 5%nat) as [L1 L1'] by (unfold d1, st1; by rewrite !length_upd).
  destruct (AllpassDec_spec d1 1 kApUpperQ15 n st1 0) as (d2 & E2 & O2); [lia|lia|lia|lia|].
  assert (strided 2 1 n d1 = strided 2 0 n inp) as Es1.
  { apply strided_ext. intros k Hk. unfold d1. rewrite arr_upd_ne by lia.
    replace (1 + 2 * k) with (1 + (0 + 2 * k)) by lia. apply H0. lia. }
  rewrite Es1 in E2, O2. assert (arr st1 0 = arr st 0 /\ arr st1 (0 + 1) = arr st 1) as [A0 A1]
    by (unfold st1; by rewrite !arr_upd_ne by lia).
  rewrite A0, A1 in E2, O2. assert (dec_upper st n inp = scan (dec_channel kApUpperQ15) (arr st 0, arr st 1)
    (strided 2 0 n inp)) as Eu by reflexivity. rewrite <-Eu in E2, O2.
  rewrite E2, bind_Some. cbv beta iota. clear E2. set (st2 := upd (upd st1 0 _) (0 + 1) _).
  assert (length st2 = 5%nat) as L2' by (unfold st2; by rewrite !length_upd).
  pose proof O2 as (L2 & V2 & U2).
  assert (length (dec_upper st n inp).1 = n) as Lu by (rewrite Eu, length_scan; apply length_strided).
  destruct (AllpassDec_spec d2 0 kApLowerQ15 n st2 ALLPASSSECTIONS) as (d3 & E3 & O3);
    [lia|done|lia|change ALLPASSSECTIONS with 2; lia|]. change ALLPASSSECTIONS with 2 in *.
  assert (strided 2 0 n d2 = delayed st n inp) as Es2.
  { apply list_arr; rewrite length_strided; [by rewrite length_delayed|]. intros k Hk.
    rewrite arr_strided, arr_delayed by lia. rewrite U2 by (try lia; intros; lia). unfold d1.
    destruct (Z.eqb_spec k 0) as [->|]; [by rewrite arr_upd_eq by lia|]. rewrite arr_upd_ne by lia.
    replace (0 + 2 * k) with (1 + (2 * k - 1)) by lia. apply H0. lia. }
  assert (arr st2 2 = arr st 2 /\ arr st2 (2 + 1) = arr st 3) as [A2 A3]
    by (unfold st2, st1; by rewrite !arr_upd_ne by lia).
  rewrite Es2, A2, A3 in E3, O3. assert (dec_lower st n inp = scan (dec_channel kApLowerQ15) (arr st 2, arr st 3)
    (delayed st n inp)) as El by reflexivity. rewrite <-El in E3, O3.
  rewrite E3, bind_Some. cbv beta iota. clear E3. pose proof O3 as (L3 & V3 & U3).
  assert (length (dec_lower st n inp).1 = n) as Ll by (rewrite El, length_scan; apply length_delayed).
  replace (2 * Z.of_nat n / 2) with (Z.of_nat n) by (Z.div_mod_to_equations; lia).
  destruct (add_channels d3 (dec_lower st n inp).1 (dec_upper st n inp).1 out n) as (out' & E4 & O4); [lia|done|done| |done|].
  { intros k Hk. split.
    - replace (2 * k) with (0 + 2 * k) by lia. apply V3. lia.
    - rewrite U3 by (try lia; intros; lia). replace (2 * k + 1) with (1 + 2 * k) by lia. apply V2. lia. }
  rewrite E4, bind_Some. exists out'. split; [|exact O4]. f_equal. f_equal.
  apply list_arr; [unfold dec_state; cbn [length]; by rewrite !length_upd|]. rewrite !length_upd, L2'.
  intros k Hk. assert (k = 0 \/ k = 1 \/ k = 2 \/ k = 3 \/ k = 4) as Hc by lia.
  unfold st2, st1. destruct Hc as [->|[->|[->|[->| ->] ] ] ];
    repeat first [rewrite arr_upd_ne by lia | rewrite arr_upd_eq by (rewrite ?length_upd; lia)]; reflexivity.
Qed.

(** The delayed sample is kept with 16 more bits. *)
Lemma kept_sample x : is_i16 x -> i16 (i32 (u32 (x ≪ 16)) ≫ 16) = x.
Proof.
  intros H. rewrite Z.shiftl_mul_pow2 by lia. change (2 ^ 16) with 65536.
  assert (i32 (u32 (x * 65536)) = x * 65536) as -> by (unfold is_i16 in H; cint).
  rewrite shiftr_div by lia. change (2 ^ 16) with 65536. rewrite Z.div_mul by lia. by apply i16_id.
Qed.

Lemma delayed_app st (n m : nat) xs ys q : (0 < n)%nat -> (0 < m)%nat -> length xs = (2 * n)%nat ->
  is_i16 (arr xs (2 * Z.of_nat n - 1)) -> arr q 4 = i32 (u32 (arr xs (2 * Z.of_nat n - 1) ≪ 16)) ->
  delayed st (n + m) (xs ++ ys) = delayed st n xs ++ delayed q m ys.
Proof.
  intros Hn Hm Lx H16 Hq. apply list_arr; [by rewrite length_app, !length_delayed|]. rewrite length_delayed.
  intros k Hk. rewrite arr_delayed by lia. destruct (decide (k < Z.of_nat n)).
  - rewrite (arr_cat_l (delayed st n xs)) by (rewrite length_delayed; lia). rewrite arr_delayed by lia.
    destruct (Z.eqb_spec k 0); [done|]. by rewrite arr_cat_l by lia.
  - rewrite (arr_cat_r (delayed st n xs)) by (rewrite length_delayed; lia). rewrite length_delayed, arr_delayed by lia.
    destruct (Z.eqb_spec k 0); [lia|]. destruct (Z.eqb_spec (k - Z.of_nat n) 0) as [E|E].
    + rewrite Hq, kept_sample by done. rewrite arr_cat_l by lia. f_equal. lia.
    + rewrite arr_cat_r by lia. f_equal. lia.
Qed.

Lemma decimated_app st (n m : nat) xs ys : (0 < n)%nat -> (0 < m)%nat -> length xs = (2 * n)%nat ->
  length ys = (2 * m)%nat -> Forall is_i16 xs -> let q := dec_state st n xs in
  decimated st n xs ++ decimated q m ys = decimated st (n + m) (xs ++ ys) /\
  dec_state q m ys = dec_state st (n + m) (xs ++ ys).
Proof.
  intros Hn Hm Lx Ly F q.
  assert (dec_upper st (n + m) (xs ++ ys)
    = ((dec_upper st n xs).1 ++ (dec_upper q m ys).1, (dec_upper q m ys).2)) as Eu.
  { unfold dec_upper at 1. rewrite strided_cat by (done || lia). rewrite scan_app.
    assert ((dec_upper st n xs).2 = (arr q 0, arr q 1)) as E by apply surjective_pairing.
    unfold dec_upper at 2 3. rewrite <-E. reflexivity. }
  assert (dec_lower st (n + m) (xs ++ ys)
    = ((dec_lower st n xs).1 ++ (dec_lower q m ys).1, (dec_lower q m ys).2)) as El.
  { unfold dec_lower at 1. rewrite (delayed_app st n m xs ys q); [|done|done|done| |reflexivity].
    - rewrite scan_app. assert ((dec_lower st n xs).2 = (arr q 2, arr q 3)) as E by apply surjective_pairing.
      unfold dec_lower at 2 3. rewrite <-E. reflexivity.
    - apply arr_Forall; [unfold is_i16; lia|done]. }
  split.
  - unfold decimated. rewrite Eu, El. cbn [fst]. rewrite zip_with_app; [done|].
    unfold dec_lower, dec_upper. by rewrite !length_scan, length_delayed, length_strided.
  - unfold dec_state. rewrite Eu, El. cbn [snd]. do 4 f_equal. f_equal.
    rewrite arr_cat_r by lia. do 3 f_equal. f_equal. lia.
Qed.

(** The decimator works on one continuous signal: fed block by block (of
    any even lengths up to a frame), with the state passed on, it returns what
    the two allpass channels, the lower one sample late, give for the
    concatenated signal; it stays inside its arrays, whatever the local buffer
    held. *)
Theorem decimate_streaming dv1 dv2 x1 x2 st (n m : nat) out1 out2 : length dv1 = 240%nat -> length dv2 = 240%nat ->
  (0 < n <= 120)%nat -> (0 < m <= 120)%nat -> length x1 = (2 * n)%nat -> length x2 = (2 * m)%nat ->
  length st = 5%nat -> length out1 = n -> length out2 = m -> Forall is_i16 x1 ->
  exists st1 st2 o1 o2,
    WebRtcIsacfix_DecimateAllpass32 dv1 x1 st (2 * Z.of_nat n) out1 = Some (st1, o1) /\
    WebRtcIsacfix_DecimateAllpass32 dv2 x2 st1 (2 * Z.of_nat m) out2 = Some (st2, o2) /\
    o1 ++ o2 = decimated st (n + m) (x1 ++ x2) /\ st2 = dec_state st (n + m) (x1 ++ x2).
Proof.
  intros D1 D2 Hn Hm Lx1 Lx2 Ls Lo1 Lo2 F1.
  destruct (DecimateAllpass32_spec dv1 x1 st n out1) as (o1 & E1 & O1); [lia..|].
  destruct (DecimateAllpass32_spec dv2 x2 (dec_state st n x1) m out2) as (o2 & E2 & O2); [lia|lia|reflexivity|lia..|].
  apply overwritten_whole in O1; [|rewrite length_decimated; lia].
  apply overwritten_whole in O2; [|rewrite length_decimated; lia]. subst o1 o2.
  exists (dec_state st n x1), (dec_state (dec_state st n x1) m x2), (decimated st n x1),
    (decimated (dec_state st n x1) m x2).
  split; [exact E1|]. split; [exact E2|]. apply decimated_app; [lia|lia|exact Lx1|exact Lx2|exact F1].
Qed.

Lemma decimate_streaming_witness : exists st1 st2 o1 o2,
  WebRtcIsacfix_DecimateAllpass32 (replicate 240 7) [100; -200; 300; 400] [0; 0; 0; 0; 0] 4 [0; 0] = Some (st1, o1) /\
  WebRtcIsacfix_DecimateAllpass32 (replicate 240 9) [5; 6] st1 2 [0] = Some (st2, o2) /\
  o1 ++ o2 = decimated [0; 0; 0; 0; 0] 3 [100; -200; 300; 400; 5; 6].
Proof.
  destruct (decimate_streaming (replicate 240 7) (replicate 240 9) [100; -200; 300; 400] [5; 6] [0; 0; 0; 0; 0]
    2 1 [0; 0] [0]) as (st1 & st2 & o1 & o2 & E1 & E2 & E3 & _); try reflexivity; try lia.
  - repeat constructor; unfold is_i16; lia.
  - exists st1, st2, o1, o2. split; [exact E1|]. split; [exact E2|exact E3].
Defined.
