(* ===== verification/IsacLattice.v ===== *)
(** The normalised lattice filters of the fixed-point iSAC codec:
    [modules/audio_coding/codecs/isac/fix/source/lattice.c] and [lattice_c.c]
    (the portable loops).  The moving-average filter computes one order after
    the other over a block of samples; it is shown to be the sample-by-sample
    lattice.  Local arrays the code does not initialise are arguments. *)
From S2P Require Import Prelude Signal SplInl SplMath IsacPitch IsacLar IsacFilters.

(** ** Macros and constants *)

Definition HALF_SUBFRAMELEN : Z := 40.
Definition MAX_AR_MODEL_ORDER : Z := 12.

Definition WEBRTC_SPL_MUL_16_32_RSFT15 (a b : Z) : Z :=
  i32 (i32 (WEBRTC_SPL_MUL_16_16 a (b ≫ 16) * (1 ≪ 1))
       + (i32 ((WEBRTC_SPL_MUL_16_U16 a (u16 b) ≫ 1) + 0x2000) ≫ 14)).

Definition LATTICE_MUL_32_32_RSFT16 (a32a a32b b32 : Z) : Z :=
  i32 (WEBRTC_SPL_MUL a32a b32 + WEBRTC_SPL_MUL_16_32_RSFT16 a32b b32).

(** ** The moving-average filter *)

(** [ptr0] and [ptr1] point into [gbuf], [ptr2] into [fbuf]; the pointers are
    indices. *)
Definition WebRtcIsacfix_FilterMaLoopC (input0 input1 input2 : Z) (gbuf : list Z) (ptr0 ptr1 : Z)
    (fbuf : list Z) (ptr2 : Z) : option (list Z * list Z) :=
  let t16a := i16 (input2 ≫ 16) in
  let t16b := i16 input2 in
  let t16a := if t16b <? 0 then i16 (t16a + 1) else t16a in
  for_opt (HALF_SUBFRAMELEN - 1) (fun n '(gbuf, fbuf) =>
    x0 ← rd gbuf (ptr0 + n);
    x2 ← rd fbuf (ptr2 + n);
    let tmp32a := WEBRTC_SPL_MUL_16_32_RSFT15 input0 x0 in
    let tmp32b := i32 (x2 + tmp32a) in
    let y2 := LATTICE_MUL_32_32_RSFT16 t16a t16b tmp32b in
    fbuf ← wr fbuf (ptr2 + n) y2;
    let tmp32a := WEBRTC_SPL_MUL_16_32_RSFT15 input1 x0 in
    let tmp32b := WEBRTC_SPL_MUL_16_32_RSFT15 input0 y2 in
    gbuf ← wr gbuf (ptr1 + n) (i32 (tmp32a + tmp32b));
    Some (gbuf, fbuf)) (gbuf, fbuf).

(** The [orderCoef] coefficients from [off] on; the local array they are copied
    to has [MAX_AR_MODEL_ORDER] cells. *)
Definition load_coefs (filt_coefQ15 : list Z) (off orderCoef : Z) : option (list Z) :=
  if orderCoef <=? MAX_AR_MODEL_ORDER then mem_read filt_coefQ15 off orderCoef else None.

(** The gain, in [Q(17 + gain_sh)], times every cosine. *)
Definition gain_product (cthQ15 : list Z) (gain32 : Z) : Z :=
  fold_left (fun gain32 c => WEBRTC_SPL_MUL_16_32_RSFT15 c gain32) cthQ15 gain32.

(** [t16a] and [t16b] of the first sample. *)
Definition split_inverse (tmp32 : Z) : Z * Z :=
  let t16a := i16 (tmp32 ≫ 16) in
  let t16b := i16 (i32 (tmp32 - i32 (t16a ≪ 16))) in
  (if t16b <? 0 then i16 (t16a + 1) else t16a, t16b).

(** The first sample of a subframe through all orders; [gQ15] is the
    two-dimensional array row by row. *)
Definition ma_first (orderCoef : Z) (sthQ15 cthQ15 inv_cthQ16 stateGQ15 : list Z) (fQtmp : Z)
    (gQ15 : list Z) : option (Z * list Z) :=
  for_opt orderCoef (fun d '(fQtmp, gQ15) =>
    let i := d + 1 in
    s ← rd sthQ15 (i - 1); c ← rd cthQ15 (i - 1); inv ← rd inv_cthQ16 (i - 1);
    st ← rd stateGQ15 (i - 1);
    let tmp32b := i32 (fQtmp + WEBRTC_SPL_MUL_16_32_RSFT15 s st) in
    let t := split_inverse inv in
    let fQtmp := LATTICE_MUL_32_32_RSFT16 t.1 t.2 tmp32b in
    let tmp32 := i32 (WEBRTC_SPL_MUL_16_32_RSFT15 c st + WEBRTC_SPL_MUL_16_32_RSFT15 s fQtmp) in
    gQ15 ← wr gQ15 (HALF_SUBFRAMELEN * i) tmp32;
    Some (fQtmp, gQ15)) (fQtmp, gQ15).

(** One output sample. *)
Definition ma_output (gain16 gain_sh f : Z) : Z :=
  i16 (WEBRTC_SPL_SHIFT_W32 (WEBRTC_SPL_MUL_16_32_RSFT16 gain16 f) (i16 (9 - gain_sh))).

(** One round of the loop over the subframes, on [(fQ15vec, gQ15, stateGQ15,
    lat_outQ9)]. *)
Definition ma_subframe (orderCoef : Z) (lat_inQ0 filt_coefQ15 gain_lo_hiQ17 : list Z) (lo_hi u : Z)
    (st : list Z * list Z * list Z * list Z) : option (list Z * list Z * list Z * list Z) :=
  let '(fQ15vec, gQ15, stateGQ15, lat_outQ9) := st in
  let temp1 := u * HALF_SUBFRAMELEN in
  let temp2 := i16 (u * orderCoef) in
  let temp3 := i16 (2 * u + lo_hi) in
  sthQ15 ← load_coefs filt_coefQ15 temp2 orderCoef;
  let cthQ15 := WebRtcSpl_SqrtOfOneMinusXSquared sthQ15 in
  gain32 ← rd gain_lo_hiQ17 temp3;
  let gain_sh := WebRtcSpl_NormW32 gain32 in
  let gain32 := gain_product cthQ15 (i32 (gain32 ≪ gain_sh)) in
  let inv_cthQ16 := map (WebRtcSpl_DivW32W16 2147483647) cthQ15 in
  let gain16 := i16 (gain32 ≫ 16) in
  '(fQ15vec, gQ15) ← for_opt HALF_SUBFRAMELEN (fun i '(fQ15vec, gQ15) =>
    x ← rd lat_inQ0 (i + temp1);
    fQ15vec ← wr fQ15vec i (i32 (x ≪ 15));
    gQ15 ← wr gQ15 i (i32 (x ≪ 15));
    Some (fQ15vec, gQ15)) (fQ15vec, gQ15);
  fQtmp ← rd fQ15vec 0;
  '(fQtmp, gQ15) ← ma_first orderCoef sthQ15 cthQ15 inv_cthQ16 stateGQ15 fQtmp gQ15;
  '(gQ15, fQ15vec) ← for_opt orderCoef (fun k '(gQ15, fQ15vec) =>
    s ← rd sthQ15 k; c ← rd cthQ15 k; inv ← rd inv_cthQ16 k;
    WebRtcIsacfix_FilterMaLoopC s c inv gQ15 (HALF_SUBFRAMELEN * k) (HALF_SUBFRAMELEN * (k + 1) + 1)
      fQ15vec 1) (gQ15, fQ15vec);
  fQ15vec ← wr fQ15vec 0 fQtmp;
  lat_outQ9 ← for_opt HALF_SUBFRAMELEN (fun n lat_outQ9 =>
    f ← rd fQ15vec n; wr lat_outQ9 (n + temp1) (ma_output gain16 gain_sh f)) lat_outQ9;
  stateGQ15 ← for_opt (orderCoef + 1) (fun i stateGQ15 =>
    g ← rd gQ15 (HALF_SUBFRAMELEN * i + (HALF_SUBFRAMELEN - 1)); wr stateGQ15 i g) stateGQ15;
  Some (fQ15vec, gQ15, stateGQ15, lat_outQ9).

(** [fQ15vec] and [gQ15] are the local arrays; the new [stateGQ15] and
    [lat_outQ9]. *)
Definition WebRtcIsacfix_NormLatticeFilterMa (fQ15vec gQ15 : list Z) (orderCoef : Z)
    (stateGQ15 lat_inQ0 filt_coefQ15 gain_lo_hiQ17 : list Z) (lo_hi : Z) (lat_outQ9 : list Z)
  : option (list Z * list Z) :=
  '(_, _, stateGQ15, lat_outQ9) ←
    for_opt SUBFRAMES (ma_subframe orderCoef lat_inQ0 filt_coefQ15 gain_lo_hiQ17 lo_hi)
      (fQ15vec, gQ15, stateGQ15, lat_outQ9);
  Some (stateGQ15, lat_outQ9).

(** ** The autoregressive filter *)

Definition ar_direct (c s f g : Z) : Z :=
  WebRtcSpl_SatW32ToW16 (i32 (i32 (i32 (c * f) - i32 (s * g)) + 16384) ≫ 15).
Definition ar_delayed (c s f g : Z) : Z :=
  WebRtcSpl_SatW32ToW16 (i32 (i32 (i32 (s * f) + i32 (c * g)) + 16384) ≫ 15).

(** [ARgQ0vec] and [ARfQ0vec] in place; the loop over [k] runs downwards. *)
Definition WebRtcIsacfix_FilterArLoop (ar_g_Q0 ar_f_Q0 cth_Q15 sth_Q15 : list Z) (order_coef : Z)
  : option (list Z * list Z) :=
  for_opt (HALF_SUBFRAMELEN - 1) (fun n '(ar_g_Q0, ar_f_Q0) =>
    tmpAR ← rd ar_f_Q0 (n + 1);
    '(tmpAR, ar_g_Q0) ← for_opt order_coef (fun d '(tmpAR, ar_g_Q0) =>
      let k := order_coef - d in
      c ← rd cth_Q15 (k - 1); s ← rd sth_Q15 (k - 1); g ← rd ar_g_Q0 (k - 1);
      ar_g_Q0 ← wr ar_g_Q0 k (ar_delayed c s tmpAR g);
      Some (ar_direct c s tmpAR g, ar_g_Q0)) (tmpAR, ar_g_Q0);
    ar_f_Q0 ← wr ar_f_Q0 (n + 1) tmpAR;
    ar_g_Q0 ← wr ar_g_Q0 0 tmpAR;
    Some (ar_g_Q0, ar_f_Q0)) (ar_g_Q0, ar_f_Q0).

(** The first sample of a subframe, from the saved state. *)
Definition ar_first (orderCoef : Z) (sthQ15 cthQ15 stateGQ0 ARfQ0vec ARgQ0vec : list Z)
  : option (list Z * list Z) :=
  '(ARfQ0vec, ARgQ0vec) ← for_opt orderCoef (fun d '(ARfQ0vec, ARgQ0vec) =>
    let i := orderCoef - d in
    c ← rd cthQ15 (i - 1); s ← rd sthQ15 (i - 1); g ← rd stateGQ0 (i - 1);
    f ← rd ARfQ0vec 0;
    ARgQ0vec ← wr ARgQ0vec i (ar_delayed c s f g);
    ARfQ0vec ← wr ARfQ0vec 0 (ar_direct c s f g);
    Some (ARfQ0vec, ARgQ0vec)) (ARfQ0vec, ARgQ0vec);
  f ← rd ARfQ0vec 0;
  ARgQ0vec ← wr ARgQ0vec 0 f;
  Some (ARfQ0vec, ARgQ0vec).

(** [sh] and [inv_gain16]. *)
Definition inverse_gain (cthQ15 : list Z) (gain : Z) : Z * Z :=
  let tmp32 := gain_product cthQ15 (i32 (gain ≪ 10)) in
  let sh := WebRtcSpl_NormW32 tmp32 in
  let den16 := i16 (WEBRTC_SPL_SHIFT_W32 tmp32 (sh - 16)) in
  let inv_gain32 := WebRtcSpl_DivW32W16 2147483647 den16 in
  (sh, i16 (inv_gain32 ≫ 2)).

(** One input sample divided by the gain. *)
Definition ar_input (sh inv_gain16 x : Z) : Z :=
  let tmp32 := i32 (x ≪ 1) in
  let tmp32 := WEBRTC_SPL_MUL_16_32_RSFT16 inv_gain16 tmp32 in
  WebRtcSpl_SatW32ToW16 (WEBRTC_SPL_SHIFT_W32 tmp32 (- (28 - sh))).

(** One round of the loop over the subframes, on [(ARfQ0vec, ARgQ0vec,
    stateGQ0, lat_outQ0)]. *)
Definition ar_subframe (orderCoef : Z) (lat_inQ25 filt_coefQ15 gain_lo_hiQ17 : list Z) (lo_hi u : Z)
    (st : list Z * list Z * list Z * list Z) : option (list Z * list Z * list Z * list Z) :=
  let '(ARfQ0vec, ARgQ0vec, stateGQ0, lat_outQ0) := st in
  let temp1 := u * HALF_SUBFRAMELEN in
  let temp2 := i16 (u * orderCoef) in
  let temp3 := i16 (2 * u + lo_hi) in
  sthQ15 ← load_coefs filt_coefQ15 temp2 orderCoef;
  let cthQ15 := WebRtcSpl_SqrtOfOneMinusXSquared sthQ15 in
  gain ← rd gain_lo_hiQ17 temp3;
  let ig := inverse_gain cthQ15 gain in
  ARfQ0vec ← for_opt HALF_SUBFRAMELEN (fun i ARfQ0vec =>
    x ← rd lat_inQ25 (i + temp1); wr ARfQ0vec i (ar_input ig.1 ig.2 x)) ARfQ0vec;
  '(ARfQ0vec, ARgQ0vec) ← ar_first orderCoef sthQ15 cthQ15 stateGQ0 ARfQ0vec ARgQ0vec;
  '(ARgQ0vec, ARfQ0vec) ← WebRtcIsacfix_FilterArLoop ARgQ0vec ARfQ0vec cthQ15 sthQ15 orderCoef;
  lat_outQ0 ← for_opt HALF_SUBFRAMELEN (fun n lat_outQ0 =>
    f ← rd ARfQ0vec n; wr lat_outQ0 (n + temp1) f) lat_outQ0;
  stateGQ0 ← for_opt (orderCoef + 1) (fun i stateGQ0 =>
    g ← rd ARgQ0vec i; wr stateGQ0 i g) stateGQ0;
  Some (ARfQ0vec, ARgQ0vec, stateGQ0, lat_outQ0).

(** [ARfQ0vec] and [ARgQ0vec] are the local arrays; the new [stateGQ0] and
    [lat_outQ0]. *)
Definition WebRtcIsacfix_NormLatticeFilterAr (ARfQ0vec ARgQ0vec : list Z) (orderCoef : Z)
    (stateGQ0 lat_inQ25 filt_coefQ15 gain_lo_hiQ17 : list Z) (lo_hi : Z) (lat_outQ0 : list Z)
  : option (list Z * list Z) :=
  '(_, _, stateGQ0, lat_outQ0) ←
    for_opt SUBFRAMES (ar_subframe orderCoef lat_inQ25 filt_coefQ15 gain_lo_hiQ17 lo_hi)
      (ARfQ0vec, ARgQ0vec, stateGQ0, lat_outQ0);
  Some (stateGQ0, lat_outQ0).

(** ** The lattice, sample by sample

    [cs] lists the coefficients [(sth, cth, inv_cth)] of the orders, [gs] the
    delayed values [g_0, ..., g_K]. *)

Definition ma_f (s inv f g : Z) : Z :=
  let t := split_inverse inv in
  LATTICE_MUL_32_32_RSFT16 t.1 t.2 (i32 (f + WEBRTC_SPL_MUL_16_32_RSFT15 s g)).
Definition ma_g (s c f g : Z) : Z :=
  i32 (WEBRTC_SPL_MUL_16_32_RSFT15 c g + WEBRTC_SPL_MUL_16_32_RSFT15 s f).

(** [f_K] and [g_1, ..., g_K]. *)
Fixpoint ma_lattice (cs : list (Z * Z * Z)) (gs : list Z) (f : Z) : Z * list Z :=
  match cs, gs with
  | (s, c, inv) :: cs, g :: gs =>
      let f := ma_f s inv f g in
      let r := ma_lattice cs gs f in
      (r.1, ma_g s c f g :: r.2)
  | _, _ => (f, [])
  end.
Definition ma_step (cs : list (Z * Z * Z)) (gs : list Z) (x : Z) : Z * list Z :=
  let f := i32 (x ≪ 15) in
  let r := ma_lattice cs gs f in (r.1, f :: r.2).

(** [f_0] and [g_1, ..., g_K] of the synthesis lattice, in exact arithmetic:
    rounded to nearest and saturated. *)
Definition sat16 (z : Z) : Z := clamp (- 2 ^ 15) (2 ^ 15 - 1) z.
Fixpoint ar_lattice (cs : list (Z * Z)) (gs : list Z) (f : Z) : Z * list Z :=
  match cs, gs with
  | (s, c) :: cs, g :: gs =>
      let r := ar_lattice cs gs f in
      (sat16 ((c * r.1 - s * g + 2 ^ 14) / 2 ^ 15), sat16 ((s * r.1 + c * g + 2 ^ 14) / 2 ^ 15) :: r.2)
  | _, _ => (f, [])
  end.
Definition ar_step (cs : list (Z * Z)) (gs : list Z) (x : Z) : Z * list Z :=
  let r := ar_lattice cs gs x in (r.1, r.1 :: r.2).

(** ** The stages of the analysis lattice *)

Section Stages.
Implicit Types (cs : list (Z * Z * Z)) (gs : list Z).

Definition coef cs (k : nat) : Z * Z * Z := nth k cs (0, 0, 0).
Definition stage cs gs f (k : nat) : Z := (ma_lattice (take k cs) gs f).1.

Lemma ma_f_eq s inv f g :
  LATTICE_MUL_32_32_RSFT16 (split_inverse inv).1 (split_inverse inv).2
    (i32 (f + WEBRTC_SPL_MUL_16_32_RSFT15 s g)) = ma_f s inv f g.
Proof. unfold ma_f. cbv zeta. reflexivity. Qed.
Lemma ma_g_eq s c f g :
  i32 (WEBRTC_SPL_MUL_16_32_RSFT15 c g + WEBRTC_SPL_MUL_16_32_RSFT15 s f) = ma_g s c f g.
Proof. unfold ma_g. reflexivity. Qed.
#[local] Opaque ma_f ma_g.

Lemma stage_0 cs gs f : stage cs gs f 0 = f.
Proof. reflexivity. Qed.
Lemma coef_0 a cs : coef (a :: cs) 0 = a.
Proof. reflexivity. Qed.
Lemma coef_S a cs k : coef (a :: cs) (S k) = coef cs k.
Proof. reflexivity. Qed.
Lemma nth_0 (a : Z) l : nth 0 (a :: l) 0 = a.
Proof. reflexivity. Qed.
Lemma nth_S (a : Z) l k : nth (S k) (a :: l) 0 = nth k l 0.
Proof. reflexivity. Qed.
Lemma ma_lattice_cons s c inv cs g gs f : (ma_lattice ((s, c, inv) :: cs) (g :: gs) f).2
  = ma_g s c (ma_f s inv f g) g :: (ma_lattice cs gs (ma_f s inv f g)).2.
Proof. reflexivity. Qed.
Lemma stage_cons s c inv cs g gs f k :
  stage ((s, c, inv) :: cs) (g :: gs) f (S k) = stage cs gs (ma_f s inv f g) k.
Proof. reflexivity. Qed.

Lemma stage_S cs : forall gs f k, (k < length cs)%nat -> (length cs <= length gs)%nat ->
  stage cs gs f (S k) = ma_f (coef cs k).1.1 (coef cs k).2 (stage cs gs f k) (nth k gs 0).
Proof.
  induction cs as [|[[s c] inv] cs IH]; intros [|g gs] f k Hk Hl; cbn [length] in *; try lia.
  rewrite stage_cons. destruct k as [|k]; [rewrite !stage_0, coef_0, nth_0; reflexivity|].
  rewrite stage_cons, coef_S, nth_S, IH by lia. reflexivity.
Qed.

Lemma stage_last cs gs f : stage cs gs f (length cs) = (ma_lattice cs gs f).1.
Proof. unfold stage. by rewrite firstn_all. Qed.

Lemma ma_lattice_nth cs : forall gs f k, (k < length cs)%nat -> (length cs <= length gs)%nat ->
  nth k (ma_lattice cs gs f).2 0 = ma_g (coef cs k).1.1 (coef cs k).1.2 (stage cs gs f (S k)) (nth k gs 0).
Proof.
  induction cs as [|[[s c] inv] cs IH]; intros [|g gs] f k Hk Hl; cbn [length] in *; try lia.
  rewrite stage_cons, ma_lattice_cons. destruct k as [|k]; [rewrite stage_0, coef_0, !nth_0; reflexivity|].
  rewrite coef_S, !nth_S, IH by lia. reflexivity.
Qed.

Lemma length_ma_lattice cs : forall gs f, (length cs <= length gs)%nat ->
  length (ma_lattice cs gs f).2 = length cs.
Proof.
  induction cs as [|[[s c] inv] cs IH]; intros [|g gs] f Hl; cbn [length] in *; try lia; [done|done|].
  rewrite ma_lattice_cons. cbn [length]. rewrite IH by lia. done.
Qed.
End Stages.

(** The two ways the source splits an inverse cosine agree. *)
Lemma split_inverse_low inv : i16 (i32 (inv - i32 (i16 (inv ≫ 16) ≪ 16))) = i16 inv.
Proof. rewrite Z.shiftl_mul_pow2 by lia. cint. Qed.

Lemma split_inverse_snd inv : (split_inverse inv).2 = i16 (i32 (inv - i32 (i16 (inv ≫ 16) ≪ 16))).
Proof. unfold split_inverse. reflexivity. Qed.
Lemma split_inverse_fst inv : (split_inverse inv).1
  = if i16 (i32 (inv - i32 (i16 (inv ≫ 16) ≪ 16))) <? 0 then i16 (i16 (inv ≫ 16) + 1) else i16 (inv ≫ 16).
Proof. unfold split_inverse. reflexivity. Qed.

(** ** One subframe of the moving-average filter *)

Section MaSubframe.
Context (cs : list (Z * Z * Z)) (gs xs : list Z).
Context (Hgs : length gs = S (length cs)) (Hxs : length xs = 40%nat).
Notation K := (Z.of_nat (length cs)).

(** The delayed values before sample [n], the value entering order [k] with
    sample [n], and the delayed value it leaves there. *)
Definition delays (n : Z) : list Z := (scan (ma_step cs) gs (take (Z.to_nat n) xs)).2.
Definition input15 (n : Z) : Z := i32 (arr xs n ≪ 15).
Definition Fs (k n : Z) : Z := stage cs (delays n) (input15 n) (Z.to_nat k).
Definition Gs (k n : Z) : Z := arr (delays (n + 1)) k.

Lemma length_delays n : length (delays n) = S (length cs).
Proof.
  unfold delays. generalize (take (Z.to_nat n) xs). intros ys. revert gs Hgs.
  induction ys as [|y ys IH]; intros g Hg; [done|]. cbn [scan snd]. apply IH. cbn [ma_step snd length].
  rewrite length_ma_lattice by lia. done.
Qed.

Lemma delays_S n : 0 <= n < 40 -> delays (n + 1) = input15 n :: (ma_lattice cs (delays n) (input15 n)).2.
Proof.
  intros Hn. unfold delays. by rewrite scan_state_next by lia.
Qed.

Lemma Gs_0 n : 0 <= n < 40 -> Gs 0 n = input15 n.
Proof. intros Hn. unfold Gs. by rewrite delays_S. Qed.
Lemma Fs_0 n : Fs 0 n = input15 n.
Proof. unfold Fs, stage. cbn. by destruct (delays n). Qed.

Lemma Fs_S k n : 0 <= k < K -> 0 <= n < 40 ->
  Fs (k + 1) n = ma_f (coef cs (Z.to_nat k)).1.1 (coef cs (Z.to_nat k)).2 (Fs k n) (arr (delays n) k).
Proof.
  intros Hk Hn. unfold Fs. replace (Z.to_nat (k + 1)) with (S (Z.to_nat k)) by lia.
  apply stage_S; [lia|]. rewrite length_delays. lia.
Qed.

Lemma Gs_S k n : 0 <= k < K -> 0 <= n < 40 ->
  Gs (k + 1) n = ma_g (coef cs (Z.to_nat k)).1.1 (coef cs (Z.to_nat k)).1.2 (Fs (k + 1) n) (arr (delays n) k).
Proof.
  intros Hk Hn. unfold Gs, Fs. rewrite delays_S by done. unfold arr at 1.
  replace (Z.to_nat (k + 1)) with (S (Z.to_nat k)) by lia. cbn [nth].
  apply ma_lattice_nth; [lia|]. rewrite length_delays. lia.
Qed.

Lemma Fs_last n : 0 <= n < 40 -> Fs K n = (ma_step cs (delays n) (arr xs n)).1.
Proof. intros Hn. unfold Fs. rewrite Nat2Z.id. by rewrite stage_last. Qed.

(** The outputs of the subframe, one per sample. *)
Lemma arr_scan_ma n : 0 <= n < 40 -> arr (scan (ma_step cs) gs xs).1 n = Fs K n.
Proof.
  intros Hn. rewrite Fs_last by done. unfold delays. by rewrite arr_scan by lia.
Qed.

(** The arrays of the code hold the coefficients. *)
Context (sth cth inv : list Z).
Context (Hs : sth = map (fun c => c.1.1) cs) (Hc : cth = map (fun c => c.1.2) cs) (Hi : inv = map snd cs).

Lemma coefs_read k : 0 <= k < K ->
  rd sth k = Some (coef cs (Z.to_nat k)).1.1 /\ rd cth k = Some (coef cs (Z.to_nat k)).1.2
  /\ rd inv k = Some (coef cs (Z.to_nat k)).2.
Proof.
  intros Hk. rewrite !rd_Some by (subst; rewrite length_map; lia). unfold arr, coef. subst.
  rewrite (map_nth (fun c => c.1.1) cs (0, 0, 0)), (map_nth (fun c => c.1.2) cs (0, 0, 0)), (map_nth snd cs (0, 0, 0)).
  done.
Qed.

(** The first [n] cells of the rows up to [k] hold their values. *)
Definition rows (g : list Z) (k n : Z) : Prop :=
  forall r m, 0 <= r <= k -> 0 <= m < n -> arr g (40 * r + m) = Gs r m.

Lemma ma_first_spec g : 40 * (K + 1) <= Z.of_nat (length g) -> rows g 0 40 ->
  exists g', ma_first K sth cth inv gs (Fs 0 0) g = Some (Fs K 0, g') /\
    length g' = length g /\ rows g' 0 40 /\ rows g' K 1.
Proof.
  intros Hg Hr. unfold ma_first.
  loop_inv (fun d '(f, g') => f = Fs d 0 /\ length g' = length g /\ rows g' 0 40 /\ rows g' d 1) r E H;
    [lia| | |destruct r as [f g'], H as (-> & H); rewrite E; by exists g'].
  - split_and!; [done|done|exact Hr|]. intros r m Hr' Hm. apply Hr; lia.
  - intros d [f g'] Hd (-> & Hl & R0 & R1). replace (d + 1 - 1) with d by lia.
    destruct (coefs_read d Hd) as (-> & -> & ->). rewrite rd_Some by lia. rewrite !bind_Some. cbv zeta.
    change (arr gs d) with (arr (delays 0) d).
    rewrite ma_f_eq, <-Fs_S, ma_g_eq by lia.
    rewrite <-Gs_S by lia. unfold HALF_SUBFRAMELEN. rewrite wr_Some by lia. rewrite bind_Some.
    eexists; split; [reflexivity|]. cbv beta iota. rewrite length_upd. split_and!; [done|done| |].
    + intros r m Hr' Hm. rewrite arr_upd_ne by lia. by apply R0.
    + intros r m Hr' Hm. destruct (decide (r = d + 1)) as [->|].
      * replace (40 * (d + 1) + m) with (40 * (d + 1)) by lia. rewrite arr_upd_eq by lia. by replace m with 0 by lia.
      * rewrite arr_upd_ne by lia. apply R1; lia.
Qed.

(** The loop over the samples of one order. *)
Lemma FilterMaLoop_spec g f k : 0 <= k < K -> 40 * (K + 1) <= Z.of_nat (length g) -> length f = 40%nat ->
  rows g k 40 -> rows g K 1 -> (forall n, 1 <= n < 40 -> arr f n = Fs k n) ->
  let c := coef cs (Z.to_nat k) in
  exists g' f', WebRtcIsacfix_FilterMaLoopC c.1.1 c.1.2 c.2 g (40 * k) (40 * (k + 1) + 1) f 1 = Some (g', f') /\
    length g' = length g /\ length f' = 40%nat /\ rows g' (k + 1) 40 /\ rows g' K 1 /\
    (forall n, 1 <= n < 40 -> arr f' n = Fs (k + 1) n).
Proof.
  intros Hk Hg Lf Rk RK Hf c. unfold WebRtcIsacfix_FilterMaLoopC. cbv zeta.
  rewrite <-(split_inverse_low c.2), <-split_inverse_fst, <-split_inverse_snd.
  loop_inv (fun n '(g', f') => length g' = length g /\ length f' = 40%nat /\ rows g' k 40 /\ rows g' K 1 /\
    (forall m, 1 <= m < n + 1 -> arr g' (40 * (k + 1) + m) = Gs (k + 1) m) /\
    (forall m, 1 <= m < n + 1 -> arr f' m = Fs (k + 1) m) /\
    (forall m, n + 1 <= m < 40 -> arr f' m = Fs k m)) r E H; unfold HALF_SUBFRAMELEN in *; [lia| | |].
  - split_and!; [done|done|done|done|lia|lia|]. intros m Hm. apply Hf. lia.
  - intros n [g' f'] Hn (Lg & Lf' & R0 & R1 & G1 & F1 & F0). rewrite !rd_Some, !bind_Some by lia.
    rewrite R0, F0, ma_f_eq by lia. rewrite (wr_Some f'), bind_Some, ma_g_eq by lia.
    change (Gs k n) with (arr (delays (n + 1)) k). replace (1 + n) with (n + 1) by lia.
    unfold c. rewrite <-Fs_S, <-Gs_S by lia. rewrite wr_Some, bind_Some by lia.
    eexists; split; [reflexivity|]. cbv beta iota. rewrite !length_upd. split_and!; [done|done| | | | |].
    + intros q m Hq Hm. rewrite arr_upd_ne by lia. by apply R0.
    + intros q m Hq Hm. rewrite arr_upd_ne by lia. by apply R1.
    + intros m Hm. destruct (decide (m = n + 1)) as [->|].
      * replace (40 * (k + 1) + (n + 1)) with (40 * (k + 1) + 1 + n) by lia. by rewrite arr_upd_eq by lia.
      * rewrite arr_upd_ne by lia. apply G1. lia.
    + intros m Hm. destruct (decide (m = n + 1)) as [->|]; [by rewrite arr_upd_eq by lia|].
      rewrite arr_upd_ne by lia. apply F1. lia.
    + intros m Hm. rewrite arr_upd_ne by lia. apply F0. lia.
  - destruct r as [g' f'], H as (Lg & Lf' & R0 & R1 & G1 & F1 & F0). exists g', f'.
    split_and!; [exact E|done|done| |done|intros n Hn; apply F1; lia].
    intros q m Hq Hm. destruct (decide (q = k + 1)) as [->|]; [|apply R0; lia].
    destruct (decide (m = 0)) as [->|]; [apply R1; lia|apply G1; lia].
Qed.

(** All orders. *)
Lemma ma_orders_spec g f : 40 * (K + 1) <= Z.of_nat (length g) -> length f = 40%nat ->
  rows g 0 40 -> rows g K 1 -> (forall n, 1 <= n < 40 -> arr f n = Fs 0 n) ->
  exists g' f', for_opt K (fun k '(gQ15, fQ15vec) =>
      s ← rd sth k; c ← rd cth k; i ← rd inv k;
      WebRtcIsacfix_FilterMaLoopC s c i gQ15 (40 * k) (40 * (k + 1) + 1) fQ15vec 1) (g, f) = Some (g', f') /\
    length g' = length g /\ length f' = 40%nat /\ rows g' K 40 /\
    (forall n, 1 <= n < 40 -> arr f' n = Fs K n).
Proof.
  intros Hg Lf R0 R1 Hf.
  loop_inv (fun k '(g', f') => length g' = length g /\ length f' = 40%nat /\ rows g' k 40 /\ rows g' K 1 /\
    (forall n, 1 <= n < 40 -> arr f' n = Fs k n)) r E H; [lia|done| |].
  - intros k [g' f'] Hk (Lg & Lf' & Rk & RK & F). destruct (coefs_read k Hk) as (-> & -> & ->).
    rewrite !bind_Some. destruct (FilterMaLoop_spec g' f' k) as (g2 & f2 & E & L2 & L3 & H); [done|lia|done..|].
    exists (g2, f2). split; [exact E|]. split_and!; [lia|done|apply H..].
  - destruct r as [g' f'], H as (Lg & Lf' & Rk & _ & F). by exists g', f'.
Qed.
End MaSubframe.

(** ** The whole moving-average filter *)

Definition cos_of (s : Z) : Z := i16 (WebRtcSpl_Sqrt (i32 (1073741823 - i32 (s * s)))).

(** The sines of subframe [u], the lattice coefficients and the gain. *)
Definition sines (K : nat) (coefs : list Z) (u : Z) : list Z := strided 1 (u * Z.of_nat K) K coefs.
Definition ma_coefs (sth : list Z) : list (Z * Z * Z) :=
  map (fun s => (s, cos_of s, WebRtcSpl_DivW32W16 2147483647 (cos_of s))) sth.
Definition ma_gain (sth : list Z) (gain : Z) : Z * Z :=
  let sh := WebRtcSpl_NormW32 gain in
  (i16 (gain_product (map cos_of sth) (i32 (gain ≪ sh)) ≫ 16), sh).

(** The outputs of [n] subframes and the delayed values after them. *)
Fixpoint ma_filter (K : nat) (coefs gains : list Z) (lo_hi : Z) (xs gs : list Z) (n : nat)
  : list Z * list Z :=
  match n with
  | O => ([], gs)
  | S n =>
      let u := Z.of_nat n in
      let r := ma_filter K coefs gains lo_hi xs gs n in
      let sth := sines K coefs u in
      let gain := ma_gain sth (arr gains (2 * u + lo_hi)) in
      let y := scan (ma_step (ma_coefs sth)) r.2 (strided 1 (u * 40) 40 xs) in
      (r.1 ++ map (ma_output gain.1 gain.2) y.1, y.2)
  end.

Lemma ma_filter_S K coefs gains lo_hi xs gs n :
  let r := ma_filter K coefs gains lo_hi xs gs n in
  let sth := sines K coefs (Z.of_nat n) in
  let gain := ma_gain sth (arr gains (2 * Z.of_nat n + lo_hi)) in
  exists y, y = scan (ma_step (ma_coefs sth)) r.2 (strided 1 (Z.of_nat n * 40) 40 xs) /\
  ma_filter K coefs gains lo_hi xs gs (S n) = (r.1 ++ map (ma_output gain.1 gain.2) y.1, y.2).
Proof. intros r sth gain. eexists; split; reflexivity. Qed.

Lemma SqrtOfOneMinusXSquared_map sth : WebRtcSpl_SqrtOfOneMinusXSquared sth = map cos_of sth.
Proof. apply map_ext. intros s. unfold cos_of. cbv zeta. reflexivity. Qed.

Lemma load_coefs_sines (K : nat) coefs u : (K <= 12)%nat -> 0 <= u < 6 -> 6 * Z.of_nat K <= Z.of_nat (length coefs) ->
  load_coefs coefs (i16 (u * Z.of_nat K)) (Z.of_nat K) = Some (sines K coefs u).
Proof.
  intros HK Hu Hl. rewrite i16_id by (unfold is_i16; nia). unfold load_coefs, MAX_AR_MODEL_ORDER.
  rewrite (proj2 (Z.leb_le _ _)) by lia. rewrite mem_read_Some by nia. f_equal.
  apply list_arr; unfold sines; rewrite length_take, length_drop; [rewrite length_strided; nia|]. intros k Hk.
  rewrite arr_strided by lia. unfold arr. rewrite nth_lookup, lookup_take_lt by lia.
  rewrite lookup_drop, <-nth_lookup. f_equal. nia.
Qed.

Lemma coefs_maps sth :
  sth = map (fun c => c.1.1) (ma_coefs sth) /\ map cos_of sth = map (fun c => c.1.2) (ma_coefs sth) /\
  map (WebRtcSpl_DivW32W16 2147483647) (map cos_of sth) = map snd (ma_coefs sth).
Proof. unfold ma_coefs. rewrite !map_map. cbn [fst snd]. by rewrite map_id. Qed.

Lemma map_arr (h : Z -> Z) l i : 0 <= i < Z.of_nat (length l) -> h (arr l i) = arr (map h l) i.
Proof. intros Hi. unfold arr. rewrite (nth_indep (map h l) 0 (h 0)) by (rewrite length_map; lia). by rewrite map_nth. Qed.

Section MaWhole.
Context (K : nat) (coefs gains xs : list Z) (lo_hi : Z).
Context (HK : (K <= 12)%nat) (Hcoefs : 6 * Z.of_nat K <= Z.of_nat (length coefs))
  (Hgains : 12 <= Z.of_nat (length gains)) (Hlh : 0 <= lo_hi <= 1) (Hin : length xs = 240%nat).

(** The input loop. *)
Lemma ma_load u f g : 0 <= u < 6 -> length f = 40%nat -> 40 <= Z.of_nat (length g) ->
  let ys := strided 1 (u * 40) 40 xs in
  exists f' g', for_opt 40 (fun i '(fQ15vec, gQ15) =>
      x ← rd xs (i + u * 40);
      fQ15vec ← wr fQ15vec i (i32 (x ≪ 15));
      gQ15 ← wr gQ15 i (i32 (x ≪ 15));
      Some (fQ15vec, gQ15)) (f, g) = Some (f', g') /\ length f' = 40%nat /\ length g' = length g /\
    (forall n, 0 <= n < 40 -> arr f' n = input15 ys n) /\ (forall n, 0 <= n < 40 -> arr g' n = input15 ys n).
Proof.
  intros Hu Lf Lg ys. loop_inv (fun i '(f', g') => length f' = 40%nat /\ length g' = length g /\
    (forall n, 0 <= n < i -> arr f' n = input15 ys n) /\ (forall n, 0 <= n < i -> arr g' n = input15 ys n)) r E H;
    [lia| | |].
  - split_and!; [done|done|lia|lia].
  - intros i [f' g'] Hi (Lf' & Lg' & F & G). rewrite rd_Some, bind_Some by lia.
    rewrite (wr_Some f'), bind_Some, (wr_Some g'), bind_Some by lia.
    eexists; split; [reflexivity|]. cbv beta iota. rewrite !length_upd.
    assert (i32 (arr xs (i + u * 40) ≪ 15) = input15 ys i) as ->.
    { unfold input15, ys. rewrite arr_strided by lia. do 3 f_equal. lia. }
    split_and!; [done|done| |]; intros n Hn; (destruct (decide (n = i)) as [->|];
      [by rewrite arr_upd_eq by lia|rewrite arr_upd_ne by lia; (apply F || apply G); lia]).
  - destruct r as [f' g'], H as (L1 & L2 & F & G). by exists f', g'.
Qed.

Lemma ma_subframe_spec u f g gs out : 0 <= u < 6 -> length f = 40%nat -> length g = 520%nat ->
  length gs = S K -> length out = 240%nat ->
  let sth := sines K coefs u in
  let gain := ma_gain sth (arr gains (2 * u + lo_hi)) in
  let y := scan (ma_step (ma_coefs sth)) gs (strided 1 (u * 40) 40 xs) in
  exists f' g' out', ma_subframe (Z.of_nat K) xs coefs gains lo_hi u (f, g, gs, out) = Some (f', g', y.2, out') /\
    length f' = 40%nat /\ length g' = 520%nat /\ length y.2 = S K /\
    overwritten 1 (u * 40) (map (ma_output gain.1 gain.2) y.1) out out'.
Proof.
  intros Hu Lf Lg Lgs Lout sth gain y. unfold ma_subframe. unfold HALF_SUBFRAMELEN. cbv zeta.
  bind_step (load_coefs_sines K coefs u HK Hu Hcoefs). rewrite SqrtOfOneMinusXSquared_map.
  rewrite (i16_id (2 * u + lo_hi)) by (unfold is_i16; lia). rewrite (rd_Some gains), bind_Some by lia.
  destruct (ma_load u f g) as (f1 & g1 & E1 & Lf1 & Lg1 & F1 & G1); [done|done|lia|]. bind_step E1. clear E1.
  set (ys := strided 1 (u * 40) 40 xs) in *. fold sth.
  assert (length (ma_coefs sth) = K) as LK by (unfold ma_coefs, sth, sines; by rewrite length_map, length_strided).
  destruct (coefs_maps sth) as (S1 & S2 & S3).
  assert (length ys = 40%nat) as Lys by (unfold ys; by rewrite length_strided).
  assert (arr f1 0 = Fs (ma_coefs sth) gs ys 0 0) as F00 by (rewrite F1 by lia; by rewrite Fs_0).
  rewrite rd_Some, bind_Some, F00 by lia. rewrite <-LK in *.
  destruct (ma_first_spec (ma_coefs sth) gs ys Lgs Lys sth _ _ S1 S2 S3 g1) as (g2 & E2 & Lg2 & R0 & RK);
    [lia|intros r m Hr Hm; replace r with 0 by lia; rewrite Gs_0 by (done || lia); by apply G1|].
  bind_step E2. clear E2.
  destruct (ma_orders_spec (ma_coefs sth) gs ys Lgs Lys sth _ _ S1 S2 S3 g2 f1) as (g3 & f3 & E3 & Lg3 & Lf3 & R3 & F3);
    [lia|done|done|done|intros n Hn; rewrite F1 by lia; by rewrite Fs_0|].
  bind_step E3. clear E3. rewrite (wr_Some f3), bind_Some by lia.
  assert (length y.1 = 40%nat) as Ly by (unfold y; by rewrite length_scan).
  assert (forall n, 0 <= n < 40 -> arr (upd f3 0 (Fs (ma_coefs sth) gs ys (Z.of_nat (length (ma_coefs sth))) 0)) n = arr y.1 n) as Fout.
  { intros n Hn. unfold y. rewrite (arr_scan_ma (ma_coefs sth) gs ys Lgs Lys) by done.
    destruct (decide (n = 0)) as [->|]; [by rewrite arr_upd_eq by lia|]. rewrite arr_upd_ne by lia. apply F3. lia. }
  destruct (for_fill (fun n out => f ← rd (upd f3 0 (Fs (ma_coefs sth) gs ys (Z.of_nat (length (ma_coefs sth))) 0)) n;
      wr out (n + u * 40) (ma_output gain.1 gain.2 f)) (map (ma_output gain.1 gain.2) y.1) (u * 40) out 40)
    as (out' & E4 & O4); [lia|rewrite length_map; lia|lia| |].
  { intros i d Hi Ld. rewrite rd_Some, bind_Some by (rewrite length_upd; lia). rewrite Fout by done.
    rewrite wr_Some by lia. f_equal. f_equal; [lia|]. apply map_arr. lia. }
  unfold gain, ma_gain in E4; cbv zeta in E4; cbn [fst snd] in E4. fold sth in E4. bind_step E4. clear E4.
  assert (y.2 = delays (ma_coefs sth) gs ys 40) as Ey by (unfold y, delays; rewrite take_ge by lia; done).
  assert (length y.2 = S (length (ma_coefs sth))) as Ly2 by (rewrite Ey; by apply length_delays).
  destruct (for_fill (fun i st => g ← rd g3 (40 * i + (40 - 1)); wr st i g) y.2 0 gs
      (Z.of_nat (length (ma_coefs sth)) + 1)) as (gs' & E5 & O5); [lia|lia|lia| |].
  { intros i d Hi Ld. rewrite rd_Some, bind_Some, wr_Some by lia. f_equal. f_equal; [lia|].
    rewrite R3 by lia. rewrite Ey. reflexivity. }
  bind_step E5. clear E5. apply overwritten_whole in O5; [|lia]. subst gs'.
  eexists _, g3, out'. split; [reflexivity|]. rewrite length_upd. split_and!; [done|lia|done|done].
Qed.

Lemma length_ma_state cs gs ys : length gs = S (length cs) -> length ys = 40%nat ->
  length (scan (ma_step cs) gs ys).2 = S (length cs).
Proof.
  intros Hg Hy. pose proof (length_delays cs gs ys Hg Hy 40) as L. unfold delays in L.
  rewrite take_ge in L by (rewrite Hy; reflexivity). exact L.
Qed.

Lemma ma_filter_lengths gs n : length gs = S K ->
  length (ma_filter K coefs gains lo_hi xs gs n).1 = (40 * n)%nat /\
  length (ma_filter K coefs gains lo_hi xs gs n).2 = S K.
Proof.
  intros Hg. induction n as [|n [IH1 IH2] ]; [split; [reflexivity|exact Hg]|].
  assert (length (ma_coefs (sines K coefs (Z.of_nat n))) = K) as LK
    by (unfold ma_coefs, sines; by rewrite length_map, length_strided).
  destruct (ma_filter_S K coefs gains lo_hi xs gs n) as (y & Ey & ->). cbn [fst snd]. split.
  - rewrite length_app, length_map, Ey, length_scan, length_strided, IH1. clear. lia.
  - rewrite Ey, length_ma_state; [by rewrite LK|by rewrite LK|apply length_strided].
Qed.
End MaWhole.

(** C36: The moving-average lattice filter.  For every order up to 12, every
    input and whatever the local arrays held, the filter stays inside its
    arrays, and although the code runs one order after the other over the 40
    samples of a subframe (with the first sample apart), its 240 outputs and the
    state it leaves are those of the lattice run sample by sample with the
    coefficients of each subframe, the delayed values being carried from one
    subframe to the next. *)
Theorem norm_lattice_ma f g K gs xs coefs gains lo_hi out : (K <= 12)%nat -> length f = 40%nat ->
  length g = 520%nat -> length gs = S K -> length xs = 240%nat -> length out = 240%nat ->
  6 * Z.of_nat K <= Z.of_nat (length coefs) -> 12 <= Z.of_nat (length gains) -> 0 <= lo_hi <= 1 ->
  let r := ma_filter K coefs gains lo_hi xs gs 6 in
  WebRtcIsacfix_NormLatticeFilterMa f g (Z.of_nat K) gs xs coefs gains lo_hi out = Some (r.2, r.1).
Proof.
  intros HK Lf Lg Lgs Lx Lo Hc Hg Hl r. unfold WebRtcIsacfix_NormLatticeFilterMa.
  set (R n := ma_filter K coefs gains lo_hi xs gs (Z.to_nat n)).
  loop_inv (fun u '((f', g', s, o) : list Z * list Z * list Z * list Z) => length f' = 40%nat /\ length g' = 520%nat /\ length o = 240%nat /\
    s = (R u).2 /\ overwritten 1 0 (R u).1 out o) st E H; unfold SUBFRAMES in *; [lia| | |].
  - split_and!; [done|done|done|done|apply overwritten_nil].
  - intros u [[[f1 g1] s1] o1] Hu (L1 & L2 & L3 & -> & O).
    destruct (ma_filter_lengths K coefs gains xs lo_hi gs (Z.to_nat u) Lgs) as [M1 M2].
    destruct (ma_subframe_spec K coefs gains xs lo_hi HK Hc Hg Hl Lx u f1 g1 (R u).2 o1)
      as (f2 & g2 & o2 & E2 & Lf2 & Lg2 & _ & O2); [done..|].
    eexists; split; [exact E2|]. cbv beta iota. unfold R in *.
    replace (Z.to_nat (u + 1)) with (S (Z.to_nat u)) by lia.
    destruct (ma_filter_S K coefs gains lo_hi xs gs (Z.to_nat u)) as (y & Ey & ->).
    rewrite Z2Nat.id in * by lia. rewrite <-Ey in *. cbn [fst snd].
    split_and!; [done|done| |done|]; [by destruct O2 as [-> _]|].
    apply (overwritten_app _ _ _ o1); [exact O|]. rewrite M1.
    by replace (Z.of_nat (40 * Z.to_nat u)) with (u * 40) by lia.
  - destruct st as [[[f' g'] s] o], H as (_ & _ & L3 & -> & O). bind_step E.
    destruct (ma_filter_lengths K coefs gains xs lo_hi gs 6 Lgs) as [M1 M2].
    apply overwritten_whole in O; [by rewrite O|]. change (R 6) with r. unfold r. lia.
Qed.


(** The impulse response of a filter of order 2. *)
Lemma norm_lattice_ma_witness :
  let r := ma_filter 2 (repeat 9830 12) (repeat 131072 12) 0 (10 :: repeat 0 239) (repeat 0 3) 6 in
  WebRtcIsacfix_NormLatticeFilterMa (repeat 7 40) (repeat 7 520) 2 (repeat 0 3) (10 :: repeat 0 239)
    (repeat 9830 12) (repeat 131072 12) 0 (repeat 0 240) = Some (r.2, r.1) /\
  take 4 r.1 = [5119; 1996; 1535; 0].
Proof.
  split; [|vm_compute; reflexivity].
  apply (norm_lattice_ma (repeat 7 40) (repeat 7 520) 2 (repeat 0 3) (10 :: repeat 0 239) (repeat 9830 12)
    (repeat 131072 12) 0 (repeat 0 240)); first [lia|reflexivity|cbn; lia].
Defined.

(** ** The cosines *)

(** Drops the innermost 32-bit wraps whose argument stays in range. *)
Local Ltac i32_drop :=
  repeat match goal with
  | |- context [i32 ?z] =>
      lazymatch z with context [i32 _] => fail | _ => rewrite (i32_id z) by (unfold is_i32; lia) end
  end.

Lemma SqrtLocal_range v : 2 ^ 30 <= v <= 2147418112 -> 0 <= WebRtcSpl_SqrtLocal v < 2 ^ 31.
Proof.
  intros Hv. unfold WebRtcSpl_SqrtLocal. rewrite Z.quot_div_nonneg by lia. cbv zeta.
  assert (2 ^ 29 <= v / 2 <= 1073709056) as H0 by (Z.div_mod_to_equations; lia).
  generalize dependent (v / 2). intros h H0. i32_drop.
  assert (- 8192 <= (h - 1073741824) ≫ 16 < 0) as H1 by (apply shiftr_bounds; lia).
  generalize dependent ((h - 1073741824) ≫ 16). intros xh H1. rewrite (i16_id xh) by (unfold is_i16; lia).
  assert (1 <= xh * xh <= 2 ^ 26) as H2 by nia. i32_drop.
  assert (- 2 ^ 26 <= (- (xh * xh * 2)) ≫ 1 < 0) as H3 by (apply shiftr_bounds; lia).
  assert (- 2048 <= (- (xh * xh * 2)) ≫ 16 < 0) as H4 by (apply shiftr_bounds; lia).
  assert (0 <= (xh * xh * 2) ≫ 16 < 2049) as H5 by (apply shiftr_bounds; lia).
  generalize dependent ((- (xh * xh * 2)) ≫ 1). intros h3 H3.
  generalize dependent ((- (xh * xh * 2)) ≫ 16). intros h4 H4.
  generalize dependent ((xh * xh * 2) ≫ 16). intros h5 H5. rewrite (i16_id h5) by (unfold is_i16; lia).
  assert (0 <= h4 * h4 <= 2 ^ 22) as H6 by nia. i32_drop.
  assert (0 <= (h4 * h4 * 2) ≫ 16 < 129) as H7 by (apply shiftr_bounds; lia).
  generalize dependent ((h4 * h4 * 2) ≫ 16). intros h7 H7. rewrite (i16_id h7) by (unfold is_i16; lia).
  assert (- 2 ^ 21 <= xh * h7 <= 0) as H8 by nia. i32_drop.
  assert (- 64 <= (xh * h7 * 2) ≫ 16 < 1) as H9 by (apply shiftr_bounds; lia).
  generalize dependent ((xh * h7 * 2) ≫ 16). intros h9 H9. rewrite (i16_id h9) by (unfold is_i16; lia).
  assert (- 2 ^ 25 <= xh * h5 <= 0) as H10 by nia. i32_drop.
  assert (- 2 ^ 25 <= (xh * h5 * 2) ≫ 1 < 1) as H11 by (apply shiftr_bounds; lia).
  generalize dependent ((xh * h5 * 2) ≫ 1). intros h11 H11. i32_drop. lia.
Qed.

Lemma Sqrt_range v : - 1 <= v < 2 ^ 30 -> 0 <= WebRtcSpl_Sqrt v <= 32767.
Proof.
  intros Hv. unfold WebRtcSpl_Sqrt. destruct (Z.eqb_spec v 0); [lia|].
  destruct (decide (v = -1)) as [->|]; [vm_compute; split; discriminate|].
  rewrite (proj2 (Z.ltb_ge v 0)) by lia. cbv zeta.
  destruct (NormW32_spec v) as (H1 & H2 & H3); [unfold is_i32; lia|lia|]. cbv zeta in *.
  generalize dependent (WebRtcSpl_NormW32 v). intros sh H1 H2 H3.
  assert (1 <= sh) as Hsh by (destruct (decide (sh = 0)) as [->|]; [|lia]; exfalso; apply H3; [lia|unfold is_i32; lia]).
  assert (forall z m, 1 <= m -> 0 <= Z.land z 65535 ≫ m <= 32767) as Hmask.
  { intros z m Hm. change 65535 with (2 ^ 16 - 1). rewrite land_ones_mod, shiftr_div by lia.
    pose proof (Z.mod_pos_bound z (2 ^ 16) ltac:(lia)). assert (2 ^ 1 <= 2 ^ m) by (apply Z.pow_le_mono_r; lia).
    split; [apply Z.div_pos; lia|]. assert (z mod 2 ^ 16 / 2 ^ m < 32768); [|lia].
    apply Z.div_lt_upper_bound; nia. }
  rewrite Z.quot_div_nonneg by lia. assert (0 <= sh / 2 <= 15) by (Z.div_mod_to_equations; lia).
  rewrite (i16_id (sh / 2)) by (unfold is_i16; lia).
  destruct (decide (sh = 1)) as [->|]; [|apply Hmask; Z.div_mod_to_equations; lia].
  change (2 * (1 / 2) =? 1) with false. change (1 / 2) with 0. cbv iota. rewrite Z.shiftr_0_r.
  assert (2 ^ 30 <= v * 2 < 2 ^ 31) as Hv2 by (unfold is_i32 in *; lia).
  unfold WEBRTC_SPL_LSHIFT_W32. rewrite (Z.shiftl_mul_pow2 v) by lia. rewrite (i32_id (v * 2 ^ 1)) by (unfold is_i32; lia).
  set (x := (if v * 2 ^ 1 <? _ then _ else _) ≫ 16).
  assert (16384 <= x <= 32767) as Hx.
  { unfold x, WEBRTC_SPL_WORD32_MAX. destruct (Z.ltb_spec (v * 2 ^ 1) (2147483647 - 32767)); [|done].
    rewrite i32_id by (unfold is_i32; lia). enough (16384 <= (v * 2 ^ 1 + 32768) ≫ 16 < 32768) by lia.
    apply shiftr_bounds; lia. }
  clearbody x. rewrite (i16_id x), Z.shiftl_mul_pow2 by (unfold is_i16; lia).
  unfold WEBRTC_SPL_ABS_W32. rewrite !(i32_id (x * 2 ^ 16)) by (unfold is_i32; lia).
  rewrite (proj2 (Z.leb_le 0 _)) by lia. pose proof (SqrtLocal_range (x * 2 ^ 16) ltac:(lia)) as HR.
  assert (0 <= WebRtcSpl_SqrtLocal (x * 2 ^ 16) ≫ 16 < 32768) by (apply shiftr_bounds; lia).
  change 65535 with (2 ^ 16 - 1). rewrite land_ones_mod, Z.mod_small by lia. lia.
Qed.

(** A cosine is a nonnegative 16-bit number. *)
Lemma cos_range s : is_i16 s -> 0 <= cos_of s <= 32767.
Proof.
  intros Hs. unfold cos_of. assert (0 <= s * s <= 2 ^ 30) as H by (unfold is_i16 in Hs; nia).
  i32_drop. pose proof (Sqrt_range (1073741823 - s * s) ltac:(lia)). rewrite i16_id by (unfold is_i16; lia). done.
Qed.

(** ** The autoregressive lattice *)

Lemma sat16_range z : is_i16 (sat16 z).
Proof. unfold sat16, clamp, is_i16. lia. Qed.

(** A 16-bit sine and a 16-bit cosine other than -32768: no product overflows. *)
Definition rotation (c : Z * Z) : Prop := is_i16 c.1 /\ 0 <= c.2 <= 32767.

Lemma ar_exact s c f g : rotation (s, c) -> is_i16 f -> is_i16 g ->
  ar_direct c s f g = sat16 ((c * f - s * g + 2 ^ 14) / 2 ^ 15) /\
  ar_delayed c s f g = sat16 ((s * f + c * g + 2 ^ 14) / 2 ^ 15).
Proof.
  unfold rotation, is_i16. cbn [fst snd]. intros [Hs Hc] Hf Hg. unfold ar_direct, ar_delayed.
  assert (- (32767 * 32768) <= c * f <= 32767 * 32768) by nia.
  assert (- (32767 * 32768) <= c * g <= 32767 * 32768) by nia.
  assert (- 2 ^ 30 <= s * f <= 2 ^ 30) by nia. assert (- 2 ^ 30 <= s * g <= 2 ^ 30) by nia.
  i32_drop. rewrite !SatW32ToW16_clamp, !shiftr_div by lia. split; reflexivity.
Qed.

Section ArStages.
Context (cs : list (Z * Z)) (Hcs : Forall rotation cs).
Notation K := (Z.of_nat (length cs)).
Definition rot (k : Z) : Z * Z := nth (Z.to_nat k) cs (0, 0).

Lemma rot_rotation k : 0 <= k < K -> rotation (rot k).
Proof. intros Hk. unfold rot. rewrite Forall_forall in Hcs. apply Hcs, nth_In. lia. Qed.

Section Sample.
Context (gs : list Z) (x : Z) (Hgs : length gs = S (length cs)) (Hi : Forall is_i16 gs) (Hx : is_i16 x).

(** The value between order [k + 1] and order [k], from above. *)
Definition ar_stage (k : Z) : Z := (ar_lattice (drop (Z.to_nat k) cs) (drop (Z.to_nat k) gs) x).1.

Lemma ar_lattice_drop k : 0 <= k < K ->
  ar_lattice (drop (Z.to_nat k) cs) (drop (Z.to_nat k) gs) x
  = (sat16 (((rot k).2 * ar_stage (k + 1) - (rot k).1 * arr gs k + 2 ^ 14) / 2 ^ 15),
     sat16 (((rot k).1 * ar_stage (k + 1) + (rot k).2 * arr gs k + 2 ^ 14) / 2 ^ 15)
       :: (ar_lattice (drop (Z.to_nat (k + 1)) cs) (drop (Z.to_nat (k + 1)) gs) x).2).
Proof.
  intros Hk. rewrite (drop_S cs (rot k)), (drop_S gs (arr gs k)).
  - unfold ar_stage. replace (Z.to_nat (k + 1)) with (S (Z.to_nat k)) by lia. by destruct (rot k).
  - apply arr_lookup. lia.
  - unfold rot. destruct (nth_lookup_or_length cs (Z.to_nat k) (0, 0)); [done|lia].
Qed.

Lemma ar_stage_last : ar_stage K = x.
Proof. unfold ar_stage. rewrite drop_ge by lia. reflexivity. Qed.

Lemma ar_stage_i16 k : 0 <= k <= K -> is_i16 (ar_stage k).
Proof.
  intros Hk. destruct (decide (k = K)) as [->|]; [by rewrite ar_stage_last|].
  unfold ar_stage. rewrite ar_lattice_drop by lia. apply sat16_range.
Qed.

(** One step down the lattice is what the code computes. *)
Lemma ar_stage_code k : 0 <= k < K ->
  ar_direct (rot k).2 (rot k).1 (ar_stage (k + 1)) (arr gs k) = ar_stage k /\
  ar_delayed (rot k).2 (rot k).1 (ar_stage (k + 1)) (arr gs k) = arr (ar_step cs gs x).2 (k + 1).
Proof.
  intros Hk. pose proof (rot_rotation k Hk) as Hr. destruct (rot k) as [s c] eqn:Er. cbn [fst snd].
  destruct (ar_exact s c (ar_stage (k + 1)) (arr gs k) Hr) as [-> ->];
    [apply ar_stage_i16; lia|apply arr_Forall; [unfold is_i16; lia|done]|].
  split; [unfold ar_stage at 2; by rewrite ar_lattice_drop, Er by lia|].
  assert (forall n m, 0 <= m -> m + Z.of_nat n = k ->
    nth n (ar_lattice (drop (Z.to_nat m) cs) (drop (Z.to_nat m) gs) x).2 0
    = sat16 ((s * ar_stage (k + 1) + c * arr gs k + 2 ^ 14) / 2 ^ 15)) as H.
  { induction n as [|n IH]; intros m Hm E; (rewrite ar_lattice_drop by lia; cbn [snd nth]).
    - replace m with k by lia. by rewrite Er.
    - apply IH; lia. }
  unfold arr at 2. replace (Z.to_nat (k + 1)) with (S (Z.to_nat k)) by lia. cbn [ar_step snd nth].
  symmetry. apply (H (Z.to_nat k) 0); lia.
Qed.

Lemma ar_step_head : (ar_step cs gs x).1 = ar_stage 0 /\ arr (ar_step cs gs x).2 0 = ar_stage 0.
Proof. split; reflexivity. Qed.

Context (sth cth : list Z) (Hs : sth = map fst cs) (Hc : cth = map snd cs).

Lemma rot_read k : 0 <= k < K -> rd sth k = Some (rot k).1 /\ rd cth k = Some (rot k).2.
Proof.
  intros Hk. rewrite !rd_Some by (subst; rewrite length_map; lia). unfold arr, rot. subst.
  by rewrite (map_nth fst cs (0, 0)), (map_nth snd cs (0, 0)).
Qed.

(** The inner loop of [FilterArLoop], in place. *)
Lemma ar_inner g : K + 1 <= Z.of_nat (length g) -> (forall k, 0 <= k <= K -> arr g k = arr gs k) ->
  exists g', for_opt K (fun d '(tmpAR, ar_g_Q0) =>
      c ← rd cth (K - d - 1); s ← rd sth (K - d - 1); g ← rd ar_g_Q0 (K - d - 1);
      ar_g_Q0 ← wr ar_g_Q0 (K - d) (ar_delayed c s tmpAR g);
      Some (ar_direct c s tmpAR g, ar_g_Q0)) (x, g) = Some ((ar_step cs gs x).1, g') /\
    length g' = length g /\ (forall k, 1 <= k <= K -> arr g' k = arr (ar_step cs gs x).2 k).
Proof.
  intros Lg Hg.
  loop_inv (fun d '((f, g') : Z * list Z) => f = ar_stage (K - d) /\ length g' = length g /\
    (forall k, 0 <= k <= K - d -> arr g' k = arr gs k) /\
    (forall k, K - d < k <= K -> arr g' k = arr (ar_step cs gs x).2 k)) r E H; [lia| | |].
  - split_and!; [by rewrite Z.sub_0_r, ar_stage_last|done|intros k Hk; apply Hg; lia|lia].
  - intros d [f g'] Hd (-> & Lg' & G0 & G1). destruct (rot_read (K - d - 1)) as [-> ->]; [lia|].
    rewrite rd_Some, !bind_Some, G0 by lia. destruct (ar_stage_code (K - d - 1)) as [Ef Eg]; [lia|].
    replace (K - d - 1 + 1) with (K - d) in * by lia. rewrite Ef, Eg, wr_Some, bind_Some by lia.
    eexists; split; [reflexivity|]. cbv beta iota. rewrite length_upd.
    split_and!; [f_equal; lia|done| |].
    + intros k Hk. rewrite arr_upd_ne by lia. apply G0. lia.
    + intros k Hk. destruct (decide (k = K - d)) as [->|]; [by rewrite arr_upd_eq by lia|].
      rewrite arr_upd_ne by lia. apply G1. lia.
  - destruct r as [f g'], H as (-> & Lg' & _ & G1). exists g'. rewrite Z.sub_diag in *.
    split_and!; [exact E|done|intros k Hk; apply G1; lia].
Qed.

(** The first sample of a subframe, from the saved state. *)
Lemma ar_first_spec f g : K + 1 <= Z.of_nat (length g) -> 1 <= Z.of_nat (length f) -> arr f 0 = x ->
  exists g', ar_first K sth cth gs f g = Some (upd f 0 (ar_step cs gs x).1, g') /\
    length g' = length g /\ (forall k, 0 <= k <= K -> arr g' k = arr (ar_step cs gs x).2 k).
Proof.
  intros Lg Lf Hf. unfold ar_first.
  loop_inv (fun d '((f', g') : list Z * list Z) => f' = upd f 0 (ar_stage (K - d)) /\ length g' = length g /\
    (forall k, K - d < k <= K -> arr g' k = arr (ar_step cs gs x).2 k)) r E H; [lia| | |].
  - split_and!; [|done|lia]. rewrite Z.sub_0_r, ar_stage_last, <-Hf. symmetry. apply upd_same. lia.
  - intros d [f' g'] Hd (-> & Lg' & G1). destruct (rot_read (K - d - 1)) as [-> ->]; [lia|].
    rewrite !rd_Some, !bind_Some by (rewrite ?length_upd; lia). rewrite arr_upd_eq by lia.
    destruct (ar_stage_code (K - d - 1)) as [Ef Eg]; [lia|].
    replace (K - d - 1 + 1) with (K - d) in * by lia. rewrite Ef, Eg, (wr_Some g'), bind_Some by lia.
    rewrite wr_Some, bind_Some, upd_twice by (rewrite ?length_upd; lia).
    eexists; split; [reflexivity|]. cbv beta iota. rewrite length_upd.
    split_and!; [do 2 f_equal; lia|done|].
    intros k Hk. destruct (decide (k = K - d)) as [->|]; [by rewrite arr_upd_eq by lia|].
    rewrite arr_upd_ne by lia. apply G1. lia.
  - destruct r as [f' g'], H as (-> & Lg' & G1). rewrite Z.sub_diag in *. destruct ar_step_head as [E1 E2].
    bind_step E. rewrite rd_Some, bind_Some, arr_upd_eq by (rewrite ?length_upd; lia).
    rewrite wr_Some, bind_Some, E1 by lia. eexists; split; [reflexivity|]. rewrite length_upd.
    split; [done|]. intros k Hk. destruct (decide (k = 0)) as [->|]; [by rewrite arr_upd_eq by lia|].
    rewrite arr_upd_ne by lia. apply G1. lia.
Qed.
End Sample.
End ArStages.

(** ** One subframe of the autoregressive filter *)

Lemma ar_lattice_i16 cs : forall gs x, (length cs <= length gs)%nat -> is_i16 x ->
  is_i16 (ar_lattice cs gs x).1 /\ Forall is_i16 (ar_lattice cs gs x).2 /\
  length (ar_lattice cs gs x).2 = length cs.
Proof.
  induction cs as [|[s c] cs IH]; intros [|g gs] x Hl Hx; cbn [length] in *; try lia;
    [by split_and!..|]. cbn [ar_lattice fst snd length].
  destruct (IH gs x) as (_ & H2 & H3); [lia|done|]. split_and!; [apply sat16_range| |by rewrite H3].
  constructor; [apply sat16_range|done].
Qed.

(** States of the filter. *)
Definition ar_state (n : nat) (gs : list Z) : Prop := length gs = S n /\ Forall is_i16 gs.

Lemma ar_step_state cs gs x : ar_state (length cs) gs -> is_i16 x ->
  is_i16 (ar_step cs gs x).1 /\ ar_state (length cs) (ar_step cs gs x).2.
Proof.
  intros [Hl Hg] Hx. destruct (ar_lattice_i16 cs gs x) as (H1 & H2 & H3); [lia|done|].
  split; [done|]. split; [cbn; by rewrite H3|by constructor].
Qed.

Lemma ar_scan_state cs xs : Forall is_i16 xs -> forall gs, ar_state (length cs) gs ->
  Forall is_i16 (scan (ar_step cs) gs xs).1 /\ ar_state (length cs) (scan (ar_step cs) gs xs).2.
Proof.
  intros Hx gs Hg. apply (scan_inv (ar_step cs) (ar_state (length cs)) is_i16 is_i16); [|done|done].
  intros s x Hs Hi. by apply ar_step_state.
Qed.

Section ArSubframe.
Context (cs : list (Z * Z)) (gs xs : list Z) (Hcs : Forall rotation cs) (Hgs : ar_state (length cs) gs)
  (Hxs : w16 40 xs).
Context (sth cth : list Z) (Hs : sth = map fst cs) (Hc : cth = map snd cs).
Notation K := (Z.of_nat (length cs)).
Notation after n := ((scan (ar_step cs) gs (take (Z.to_nat n) xs)).2).
Notation outs := ((scan (ar_step cs) gs xs).1).

Lemma after_state n : ar_state (length cs) (after n).
Proof. apply ar_scan_state; [apply Forall_take, Hxs|done]. Qed.

(** The later samples of a subframe. *)
Lemma FilterArLoop_spec f g : K + 1 <= Z.of_nat (length g) -> length f = 40%nat ->
  arr f 0 = arr outs 0 -> (forall m, 1 <= m < 40 -> arr f m = arr xs m) ->
  (forall k, 0 <= k <= K -> arr g k = arr (after 1) k) ->
  exists g' f', WebRtcIsacfix_FilterArLoop g f cth sth K = Some (g', f') /\ f' = outs /\
    length g' = length g /\ (forall k, 0 <= k <= K -> arr g' k = arr (after 40) k).
Proof.
  intros Lg Lf H0 Hf Hg. pose proof Hxs as [Lx Fx]. unfold WebRtcIsacfix_FilterArLoop.
  loop_inv (fun n '((g', f') : list Z * list Z) => length g' = length g /\ length f' = 40%nat /\
    (forall m, 0 <= m <= n -> arr f' m = arr outs m) /\ (forall m, n < m < 40 -> arr f' m = arr xs m) /\
    (forall k, 0 <= k <= K -> arr g' k = arr (after (n + 1)) k)) r E H; unfold HALF_SUBFRAMELEN in *; [lia| | |].
  - split_and!; [done|done|intros m Hm; by replace m with 0 by lia|intros m Hm; apply Hf; lia|done].
  - intros n [g' f'] Hn (Lg' & Lf' & F0 & F1 & G). rewrite rd_Some, bind_Some, F1 by lia.
    destruct (after_state (n + 1)) as [La Fa].
    destruct (ar_inner cs Hcs (after (n + 1)) (arr xs (n + 1)) La Fa) with sth cth g' as (g2 & E2 & Lg2 & G2);
      [apply arr_Forall; [unfold is_i16; lia|done]|done|done|lia|done|].
    bind_step E2. clear E2. rewrite (wr_Some f'), bind_Some, wr_Some, bind_Some by lia.
    rewrite <-arr_scan by lia.
    eexists; split; [reflexivity|]. cbv beta iota. rewrite !length_upd. split_and!; [lia|done| | |].
    + intros m Hm. destruct (decide (m = n + 1)) as [->|]; [by rewrite arr_upd_eq by lia|].
      rewrite arr_upd_ne by lia. apply F0. lia.
    + intros m Hm. rewrite arr_upd_ne by lia. apply F1. lia.
    + intros k Hk. rewrite scan_state_next by lia. destruct (decide (k = 0)) as [->|].
      * rewrite arr_upd_eq by lia. by rewrite arr_scan by lia.
      * rewrite arr_upd_ne by lia. apply G2. lia.
  - destruct r as [g' f'], H as (Lg' & Lf' & F0 & _ & G). exists g', f'.
    split_and!; [exact E| |done|done]. apply list_arr; [rewrite length_scan; lia|].
    intros k Hk. apply F0. lia.
Qed.
End ArSubframe.

(** ** The whole autoregressive filter *)

Definition ar_coefs (sth : list Z) : list (Z * Z) := map (fun s => (s, cos_of s)) sth.
Definition ar_inputs (sth xs : list Z) (gain u : Z) : list Z :=
  let ig := inverse_gain (map cos_of sth) gain in map (ar_input ig.1 ig.2) (strided 1 (u * 40) 40 xs).

(** The outputs of [n] subframes and the delayed values after them. *)
Fixpoint ar_filter (K : nat) (coefs gains : list Z) (lo_hi : Z) (xs gs : list Z) (n : nat)
  : list Z * list Z :=
  match n with
  | O => ([], gs)
  | S n =>
      let u := Z.of_nat n in
      let r := ar_filter K coefs gains lo_hi xs gs n in
      let sth := sines K coefs u in
      let y := scan (ar_step (ar_coefs sth)) r.2 (ar_inputs sth xs (arr gains (2 * u + lo_hi)) u) in
      (r.1 ++ y.1, y.2)
  end.

Lemma ar_filter_S K coefs gains lo_hi xs gs n :
  let r := ar_filter K coefs gains lo_hi xs gs n in
  let sth := sines K coefs (Z.of_nat n) in
  exists y, y = scan (ar_step (ar_coefs sth)) r.2
                  (ar_inputs sth xs (arr gains (2 * Z.of_nat n + lo_hi)) (Z.of_nat n)) /\
  ar_filter K coefs gains lo_hi xs gs (S n) = (r.1 ++ y.1, y.2).
Proof. intros r sth. eexists; split; reflexivity. Qed.

Lemma ar_inputs_w16 sth xs gain u : w16 40 (ar_inputs sth xs gain u).
Proof.
  split; [unfold ar_inputs; by rewrite length_map, length_strided|].
  unfold ar_inputs. apply Forall_map, Forall_true. intros x. apply SatW32ToW16_range.
Qed.

Lemma ar_coefs_facts (K : nat) coefs u : Forall is_i16 coefs ->
  let sth := sines K coefs u in
  length (ar_coefs sth) = K /\ Forall rotation (ar_coefs sth) /\
  sth = map fst (ar_coefs sth) /\ map cos_of sth = map snd (ar_coefs sth).
Proof.
  intros F sth. unfold ar_coefs. rewrite !map_map. cbn [fst snd]. rewrite map_id.
  split_and!; [unfold sth, sines; by rewrite length_map, length_strided| |done|done].
  apply Forall_map. assert (Forall is_i16 sth) as Fs by (apply Forall_strided; [unfold is_i16; lia|done]).
  revert Fs. apply List.Forall_impl. intros s H. split; [done|by apply cos_range].
Qed.

Section ArWhole.
Context (K : nat) (coefs gains xs : list Z) (lo_hi : Z).
Context (HK : (K <= 12)%nat) (Hcoefs : 6 * Z.of_nat K <= Z.of_nat (length coefs)) (Fcoefs : Forall is_i16 coefs)
  (Hgains : 12 <= Z.of_nat (length gains)) (Hlh : 0 <= lo_hi <= 1) (Hin : length xs = 240%nat).

Lemma ar_filter_lengths gs n : ar_state K gs ->
  w16 (40 * n) (ar_filter K coefs gains lo_hi xs gs n).1 /\
  ar_state K (ar_filter K coefs gains lo_hi xs gs n).2.
Proof.
  intros Hg. induction n as [|n [ [IH1 IH2] IH3] ]; [by repeat split; try apply Hg|].
  destruct (ar_coefs_facts K coefs (Z.of_nat n) Fcoefs) as (LK & _).
  destruct (ar_filter_S K coefs gains lo_hi xs gs n) as (y & Ey & ->). cbn [fst snd].
  destruct (ar_inputs_w16 (sines K coefs (Z.of_nat n)) xs (arr gains (2 * Z.of_nat n + lo_hi)) (Z.of_nat n))
    as [Li Fi].
  edestruct ar_scan_state as [H1 H2]; [exact Fi|rewrite LK; exact IH3|]. rewrite <-Ey, LK in H2.
  split; [split|exact H2].
  - rewrite length_app, IH1, Ey, length_scan, Li. clear. lia.
  - apply Forall_app. split; [exact IH2|]. rewrite Ey. exact H1.
Qed.

Lemma ar_subframe_spec u f g gs out : 0 <= u < 6 -> length f = 40%nat -> length g = 13%nat ->
  ar_state K gs -> length out = 240%nat ->
  let sth := sines K coefs u in
  let y := scan (ar_step (ar_coefs sth)) gs (ar_inputs sth xs (arr gains (2 * u + lo_hi)) u) in
  exists f' g' out', ar_subframe (Z.of_nat K) xs coefs gains lo_hi u (f, g, gs, out) = Some (f', g', y.2, out') /\
    length f' = 40%nat /\ length g' = 13%nat /\ overwritten 1 (u * 40) y.1 out out'.
Proof.
  intros Hu Lf Lg Hgs Lout sth y. unfold ar_subframe. unfold HALF_SUBFRAMELEN. cbv zeta.
  bind_step (load_coefs_sines K coefs u HK Hu Hcoefs). rewrite SqrtOfOneMinusXSquared_map.
  rewrite (i16_id (2 * u + lo_hi)) by (unfold is_i16; lia). rewrite (rd_Some gains), bind_Some by lia.
  fold sth. set (ins := ar_inputs sth xs (arr gains (2 * u + lo_hi)) u) in *.
  pose proof (ar_inputs_w16 sth xs (arr gains (2 * u + lo_hi)) u) as Hins. fold ins in Hins.
  destruct (ar_coefs_facts K coefs u Fcoefs) as (LK & HR & S1 & S2). fold sth in LK, HR, S1, S2.
  set (ig := inverse_gain (map cos_of sth) (arr gains (2 * u + lo_hi))).
  destruct (for_fill (fun i f => x ← rd xs (i + u * 40); wr f i (ar_input ig.1 ig.2 x)) ins 0 f 40)
    as (f1 & E1 & O1); [lia|by destruct Hins as [-> _]|lia| |].
  { intros i d Hi Ld. rewrite rd_Some, bind_Some, wr_Some by lia. f_equal. f_equal; [lia|].
    unfold ins, ar_inputs. fold ig. rewrite <-map_arr by (rewrite length_strided; lia).
    rewrite arr_strided by lia. do 2 f_equal. lia. }
  bind_step E1. clear E1. apply overwritten_whole in O1; [subst f1|destruct Hins as [-> _]; lia].
  destruct Hins as [Lins Fins]. rewrite <-LK in *. destruct Hgs as [Lgs Fgs].
  destruct (ar_first_spec (ar_coefs sth) HR gs (arr ins 0) Lgs Fgs) with sth (map cos_of sth) ins g
    as (g1 & E2 & Lg1 & G1); [apply arr_Forall; [unfold is_i16; lia|done]|done|done|lia|lia|done|].
  bind_step E2. clear E2.
  destruct (FilterArLoop_spec (ar_coefs sth) gs ins HR) with sth (map cos_of sth)
      (upd ins 0 (ar_step (ar_coefs sth) gs (arr ins 0)).1) g1 as (g2 & f2 & E3 & -> & Lg2 & G2);
    [done|done|done|done|lia|by rewrite length_upd| | | |].
  { rewrite arr_upd_eq, arr_scan by lia. reflexivity. }
  { intros m Hm. by rewrite arr_upd_ne by lia. }
  { intros k Hk. rewrite (scan_state_next _ _ _ 0) by lia. by apply G1. }
  bind_step E3. clear E3. fold y in G2 |- *.
  destruct (for_fill (fun n out => f ← rd y.1 n; wr out (n + u * 40) f) y.1 (u * 40) out 40)
    as (out' & E4 & O4); [lia|unfold y; rewrite length_scan; lia|lia| |].
  { intros i d Hi Ld. rewrite rd_Some, bind_Some, wr_Some by (unfold y; rewrite ?length_scan; lia).
    f_equal. f_equal. lia. }
  bind_step E4. clear E4. rewrite take_ge in G2 by lia. fold y in G2.
  assert (ar_state (length (ar_coefs sth)) y.2) as [Ly2 _] by (by apply ar_scan_state).
  destruct (for_fill (fun i st => g ← rd g2 i; wr st i g) y.2 0 gs (Z.of_nat (length (ar_coefs sth)) + 1))
    as (gs' & E5 & O5); [lia|lia|lia| |].
  { intros i d Hi Ld. rewrite rd_Some, bind_Some, wr_Some by lia. f_equal. f_equal; [lia|]. apply G2. lia. }
  bind_step E5. clear E5. apply overwritten_whole in O5; [|lia]. subst gs'.
  eexists _, g2, out'. split; [reflexivity|]. split_and!; [unfold y; by rewrite length_scan|lia|done].
Qed.
End ArWhole.

(** The filter as a function, for its callers. *)
Lemma norm_lattice_ar_spec f g K gs xs coefs gains lo_hi out : (K <= 12)%nat -> length f = 40%nat ->
  length g = 13%nat -> ar_state K gs -> length xs = 240%nat -> length out = 240%nat ->
  6 * Z.of_nat K <= Z.of_nat (length coefs) -> Forall is_i16 coefs -> 12 <= Z.of_nat (length gains) ->
  0 <= lo_hi <= 1 ->
  let r := ar_filter K coefs gains lo_hi xs gs 6 in
  WebRtcIsacfix_NormLatticeFilterAr f g (Z.of_nat K) gs xs coefs gains lo_hi out = Some (r.2, r.1) /\
  ar_state K r.2 /\ w16 240 r.1.
Proof.
  intros HK Lf Lg Hgs Lx Lo Hc Fc Hg Hl r.
  destruct (ar_filter_lengths K coefs gains xs lo_hi Fc gs 6 Hgs) as [W S6]. split; [|by split].
  unfold WebRtcIsacfix_NormLatticeFilterAr. set (R n := ar_filter K coefs gains lo_hi xs gs (Z.to_nat n)).
  loop_inv (fun u '((f', g', s, o) : list Z * list Z * list Z * list Z) => length f' = 40%nat /\
    length g' = 13%nat /\ length o = 240%nat /\ s = (R u).2 /\ overwritten 1 0 (R u).1 out o) st E H;
    unfold SUBFRAMES in *; [lia| | |].
  - split_and!; [done|done|done|done|apply overwritten_nil].
  - intros u [[[f1 g1] s1] o1] Hu (L1 & L2 & L3 & -> & O).
    destruct (ar_filter_lengths K coefs gains xs lo_hi Fc gs (Z.to_nat u) Hgs) as [ [M1 _] M2].
    destruct (ar_subframe_spec K coefs gains xs lo_hi HK Hc Fc Hg Hl Lx u f1 g1 (R u).2 o1)
      as (f2 & g2 & o2 & E2 & Lf2 & Lg2 & O2); [done..|].
    eexists; split; [exact E2|]. cbv beta iota. unfold R in *.
    replace (Z.to_nat (u + 1)) with (S (Z.to_nat u)) by lia.
    destruct (ar_filter_S K coefs gains lo_hi xs gs (Z.to_nat u)) as (y & Ey & ->).
    rewrite Z2Nat.id in * by lia. rewrite <-Ey in *. cbn [fst snd].
    split_and!; [done|done| |done|]; [by destruct O2 as [-> _]|].
    apply (overwritten_app _ _ _ o1); [exact O|]. rewrite M1.
    by replace (Z.of_nat (40 * Z.to_nat u)) with (u * 40) by lia.
  - destruct st as [[[f' g'] s] o], H as (_ & _ & L3 & -> & O). bind_step E.
    apply overwritten_whole in O; [by rewrite O|]. change (R 6) with r. destruct W as [W _]. unfold r. lia.
Qed.

(** C37: The autoregressive lattice filter.  For every order up to 12 and every
    16-bit reflection coefficients and state, the filter stays inside its
    arrays, no 32-bit sum of two products overflows (no cosine is -32768), and
    its outputs and final state are those of the lattice in exact arithmetic,
    rounded to nearest and saturated, run over the gain-scaled input sample by
    sample with the delayed values carried from one subframe to the next; the
    new state is again 16-bit. *)
Theorem norm_lattice_ar f g K gs xs coefs gains lo_hi out : (K <= 12)%nat -> length f = 40%nat ->
  length g = 13%nat -> ar_state K gs -> length xs = 240%nat -> length out = 240%nat ->
  6 * Z.of_nat K <= Z.of_nat (length coefs) -> Forall is_i16 coefs -> 12 <= Z.of_nat (length gains) ->
  0 <= lo_hi <= 1 ->
  let r := ar_filter K coefs gains lo_hi xs gs 6 in
  WebRtcIsacfix_NormLatticeFilterAr f g (Z.of_nat K) gs xs coefs gains lo_hi out = Some (r.2, r.1) /\
  ar_state K r.2 /\ w16 240 r.1.
Proof. exact (norm_lattice_ar_spec f g K gs xs coefs gains lo_hi out). Qed.

(** The impulse response of a filter of order 2. *)
Lemma norm_lattice_ar_witness :
  let r := ar_filter 2 (repeat 9830 12) (repeat 131072 12) 0 (2 ^ 30 :: repeat 0 239) (repeat 0 3) 6 in
  WebRtcIsacfix_NormLatticeFilterAr (repeat 7 40) (repeat 7 13) 2 (repeat 0 3) (2 ^ 30 :: repeat 0 239)
    (repeat 9830 12) (repeat 131072 12) 0 (repeat 0 240) = Some (r.2, r.1) /\
  take 4 r.1 = [-32; 12; 5; -5].
Proof.
  split; [|vm_compute; reflexivity].
  apply (norm_lattice_ar (repeat 7 40) (repeat 7 13) 2 (repeat 0 3) (2 ^ 30 :: repeat 0 239) (repeat 9830 12)
    (repeat 131072 12) 0 (repeat 0 240));
    first [lia|reflexivity|cbn; lia|repeat constructor; (reflexivity || discriminate)].
Defined.
