(* ===== verification/IsacPitchFilter.v ===== *)
(** The pitch filters of the fixed-point iSAC codec:
    [modules/audio_coding/codecs/isac/fix/source/pitch_filter.c] and
    [pitch_filter_c.c] (the portable core loop).  The filter interpolates its
    past output at the pitch lag, damps it and subtracts it from the input; it
    is shown to be a scan over the samples, exact and independent of what its
    local buffer held.  [None] is an access outside an array or a shift by more
    than 31 bits. *)
From S2P Require Import Prelude Signal SplInl SplMath IsacPitch IsacState IsacFilters IsacLattice.

(** ** Constants and tables *)

Definition PITCH_SUBFRAME_LEN : Z := 60.
Definition PITCH_INTBUFFSIZE : Z := 430.
Definition PITCH_FRACS : Z := 8.
Definition PITCH_FRACORDER : Z := 9.
Definition PITCH_MAX_GAIN_Q12 : Z := 1843.

Definition kSegments : Z := 5.
Definition kDivFactor : Z := 6553.

Definition kIntrpCoef : list (list Z) := [
  [-367; 1090; -2706;  9945; 10596; -3318;  1626; -781;  287];
  [-325;  953; -2292;  7301; 12963; -3320;  1570; -743;  271];
  [-240;  693; -1622;  4634; 14809; -2782;  1262; -587;  212];
  [-125;  358;  -817;  2144; 15982; -1668;   721; -329;  118];
  [   0;    0;    -1;     1; 16380;     1;    -1;    0;    0];
  [ 118; -329;   721; -1668; 15982;  2144;  -817;  358; -125];
  [ 212; -587;  1262; -2782; 14809;  4634; -1622;  693; -240];
  [ 271; -743;  1570; -3320; 12963;  7301; -2292;  953; -325] ].

Definition kDampFilter : list Z := [-2294; 8192; 20972; 8192; -2294].

Definition WEBRTC_SPL_MUL_16_16_RSFT_WITH_ROUND (a b c : Z) : Z :=
  i32 (WEBRTC_SPL_MUL_16_16 a b + i32 (1 ≪ (c - 1))) ≫ c.

Definition WEBRTC_SPL_MUL_16_32_RSFT14 (a b : Z) : Z :=
  i32 (i32 (WEBRTC_SPL_MUL_16_16 a (b ≫ 16) * (1 ≪ 2))
       + (i32 ((WEBRTC_SPL_MUL_16_U16 a (u16 b) ≫ 1) + 0x1000) ≫ 13)).

Definition CalcLrIntQ (fixVal qDomain : Z) : Z :=
  let roundVal := i32 (1 ≪ (qDomain - 1)) in
  u64 (i32 (fixVal + roundVal) ≫ qDomain).

(** ** The core loop (pitch_filter_c.c) *)

(** [sum += buf[pos + j] * coefficient[j]] over [j < n]. *)
Definition dot_product (n : Z) (buf : list Z) (pos : Z) (coefficient : list Z) : option Z :=
  for_opt n (fun j tmpW32 =>
    v ← rd buf (pos + j); c ← rd coefficient j;
    Some (i32 (tmpW32 + i32 (v * c)))) 0.

(** One sample, on [(inputState, outputBuf2, outputBuf)]; [i] is [*index2]. *)
Definition pitch_core_sample (gain index sign : Z) (coefficient inputBuf : list Z) (i : Z)
    (st : list Z * list Z * list Z) : option (list Z * list Z * list Z) :=
  let '(inputState, outputBuf2, outputBuf) := st in
  let ubufQQpos2 := PITCH_BUFFSIZE - (index + 2) in
  tmpW32 ← dot_product PITCH_FRACORDER outputBuf2 (ubufQQpos2 + i) coefficient;
  let tmpW32 := WEBRTC_SPL_SAT 536862719 tmpW32 (-536879104) in
  let tmpW16 := i16 (i32 (tmpW32 + 8192) ≫ 14) in
  front ← mem_read inputState 0 (PITCH_DAMPORDER - 1);
  inputState ← mem_write inputState 1 front;
  inputState ← wr inputState 0 (i16 (WEBRTC_SPL_MUL_16_16_RSFT_WITH_ROUND gain tmpW16 12));
  tmpW32 ← dot_product PITCH_DAMPORDER inputState 0 kDampFilter;
  let tmpW32 := WEBRTC_SPL_SAT 1073725439 tmpW32 (-1073758208) in
  let tmpW16 := i16 (i32 (tmpW32 + 16384) ≫ 15) in
  x ← rd inputBuf i;
  let y := WebRtcSpl_SatW32ToW16 (i32 (x - i32 (sign * tmpW16))) in
  outputBuf ← wr outputBuf i y;
  outputBuf2 ← wr outputBuf2 (i + PITCH_BUFFSIZE) (WebRtcSpl_SatW32ToW16 (i32 (x + y)));
  Some (inputState, outputBuf2, outputBuf).

(** The arrays and [*index2]. *)
Definition WebRtcIsacfix_PitchFilterCore (loopNumber gain index sign : Z)
    (inputState outputBuf2 coefficient inputBuf outputBuf : list Z) (index2 : Z)
  : option (list Z * list Z * list Z * Z) :=
  '(inputState, outputBuf2, outputBuf) ← for_opt loopNumber (fun i =>
    pitch_core_sample gain index sign coefficient inputBuf (index2 + i)) (inputState, outputBuf2, outputBuf);
  Some (inputState, outputBuf2, outputBuf, index2 + loopNumber).

(** ** The filter *)

(** [lagsQ7[0]] against [oldLagQ7]: is the step of the lag big? *)
Definition big_step (lag0 oldLagQ7 : Z) : bool :=
  (i32 (lag0 * 3) ≫ 1 <? oldLagQ7) || (i32 (oldLagQ7 * 3) ≫ 1 <? lag0).

Definition lag_delta (lag oldLagQ7 : Z) : Z :=
  i16 (WEBRTC_SPL_MUL_16_16_RSFT_WITH_ROUND (i16 (lag - oldLagQ7)) kDivFactor 15).
Definition gain_delta (gain oldGainQ12 : Z) : Z := i16 (i32 (i16 (gain - oldGainQ12) * kDivFactor) ≫ 15).

(** The index of a lag and the row of the interpolation table. *)
Definition segment_index (curLagQ7 : Z) : Z :=
  let indW32 := i32 (CalcLrIntQ curLagQ7 7) in
  if indW32 <? PITCH_FRACORDER - 2 then PITCH_FRACORDER - 2 else indW32.
Definition lag_fraction (indW32 curLagQ7 : Z) : list Z :=
  let frcQQ := u64 (i32 (i32 (i32 (indW32 ≪ 7) + 64) - curLagQ7) ≫ 4) in
  let frcQQ := if PITCH_FRACS <=? frcQQ then 0 else frcQQ in
  nth (Z.to_nat frcQQ) kIntrpCoef [].

(** The variables the segments change. *)
Record PitchLoop := {
  pl_state : list Z;
  pl_ubuf : list Z;
  pl_out : list Z;
  pl_ind : Z;
  pl_gain : Z;
  pl_lag : Z;
  pl_index : Z;
  pl_coef : list Z
}.

(** One of the five segments of a subframe. *)
Definition pitch_segment (sign gaindeltaQ12 lagdeltaQ7 : Z) (indatQQ : list Z) (p : PitchLoop)
  : option PitchLoop :=
  let curGainQ12 := i16 (pl_gain p + gaindeltaQ12) in
  let curLagQ7 := i16 (pl_lag p + lagdeltaQ7) in
  let indW32 := segment_index curLagQ7 in
  let fracoeffQQ := lag_fraction indW32 curLagQ7 in
  '(st, ubuf, out, ind) ← WebRtcIsacfix_PitchFilterCore (Z.quot PITCH_SUBFRAME_LEN kSegments) curGainQ12
     indW32 sign (pl_state p) (pl_ubuf p) fracoeffQQ indatQQ (pl_out p) (pl_ind p);
  Some {| pl_state := st; pl_ubuf := ubuf; pl_out := out; pl_ind := ind; pl_gain := curGainQ12;
          pl_lag := curLagQ7; pl_index := indW32; pl_coef := fracoeffQQ |}.

(** One subframe, on the loop variables and the old lag and gain. *)
Definition pitch_subframe (sign : Z) (lagsQ7 gainsQ12 indatQQ : list Z) (k : Z)
    (st : PitchLoop * Z * Z) : option (PitchLoop * Z * Z) :=
  let '(p, oldLagQ7, oldGainQ12) := st in
  lag ← rd lagsQ7 k; gain ← rd gainsQ12 k;
  let lagdeltaQ7 := lag_delta lag oldLagQ7 in
  let gaindeltaQ12 := gain_delta gain oldGainQ12 in
  p ← for_opt kSegments (fun _ => pitch_segment sign gaindeltaQ12 lagdeltaQ7 indatQQ)
        {| pl_state := pl_state p; pl_ubuf := pl_ubuf p; pl_out := pl_out p; pl_ind := pl_ind p;
           pl_gain := oldGainQ12; pl_lag := oldLagQ7; pl_index := pl_index p; pl_coef := pl_coef p |};
  Some (p, lag, gain).

(** [ubuf] is the local array of [PITCH_INTBUFFSIZE + QLOOKAHEAD] cells.  The
    new [outdatQQ], filter state and gains (which type 4 scales in place). *)
Definition WebRtcIsacfix_PitchFilter (ubuf indatQQ outdatQQ : list Z) (pfp : PitchFiltstr)
    (lagsQ7 gainsQ12 : list Z) (type : Z) : option (list Z * PitchFiltstr * list Z) :=
  ubuf ← mem_write ubuf 0 (ubufQQ pfp);
  let sign := if type =? 4 then -1 else 1 in
  gainsQ12 ← (if type =? 4 then for_opt PITCH_SUBFRAMES (fun k gainsQ12 =>
                g ← rd gainsQ12 k; wr gainsQ12 k (i16 (i32 (g * 21299) ≫ 14))) gainsQ12
              else Some gainsQ12);
  lag0 ← rd lagsQ7 0; gain0 ← rd gainsQ12 0;
  let big := big_step lag0 (oldlagQ7 pfp) in
  let oldLagQ7 := if big then lag0 else oldlagQ7 pfp in
  let oldGainQ12 := if big then gain0 else oldgainQ12 pfp in
  '(p, oldLagQ7, oldGainQ12) ← for_opt PITCH_SUBFRAMES (pitch_subframe sign lagsQ7 gainsQ12 indatQQ)
     ({| pl_state := ystateQQ pfp; pl_ubuf := ubuf; pl_out := outdatQQ; pl_ind := 0; pl_gain := 0;
         pl_lag := 0; pl_index := 0; pl_coef := [] |}, oldLagQ7, oldGainQ12);
  ub ← mem_read (pl_ubuf p) PITCH_FRAME_LEN PITCH_BUFFSIZE;
  let pfp := {| ubufQQ := ub; ystateQQ := pl_state p; oldlagQ7 := oldLagQ7; oldgainQ12 := oldGainQ12 |} in
  out ← (if type =? 2 then
           '(_, _, out, _) ← WebRtcIsacfix_PitchFilterCore QLOOKAHEAD (pl_gain p) (pl_index p) 1 (pl_state p)
              (pl_ubuf p) (pl_coef p) indatQQ (pl_out p) (pl_ind p);
           Some out
         else Some (pl_out p));
  Some (out, pfp, gainsQ12).

(** ** The gains *)

(** The correlation, the energy, the shift; [ubuf] and the positions. *)
Record GainLoop := {
  gl_csum : Z;
  gl_esum : Z;
  gl_scale : Z;
  gl_ubuf : list Z;
  gl_ind : Z
}.

(** One sample; [pos3QQ] lies [indW16 + 4] cells before [pos]. *)
Definition gains_sample (indatQ0 fracoeffQQ : list Z) (indW16 : Z) (g : GainLoop) : option GainLoop :=
  let ind := gl_ind g in
  let pos := ind + PITCH_BUFFSIZE in
  let pos3QQ := u64 (pos - u64 (indW16 + 4)) in
  tmpW32 ← dot_product PITCH_FRACORDER (gl_ubuf g) pos3QQ fracoeffQQ;
  x ← rd indatQ0 ind;
  ubuf ← wr (gl_ubuf g) pos x;
  let tmp2W32 := WEBRTC_SPL_MUL_16_32_RSFT14 x tmpW32 in
  let tmpW16 := i16 (i32 (tmpW32 + 8192) ≫ 14) in
  let tmpW32 := i32 (tmpW16 * tmpW16) in
  let over := (1073700000 <? tmp2W32) || (1073700000 <? gl_csum g) || (1073700000 <? tmpW32)
              || (1073700000 <? gl_esum g) in
  let scale := if over then i16 (gl_scale g + 1) else gl_scale g in
  let csum1QQ := if over then gl_csum g ≫ 1 else gl_csum g in
  let esumxQQ := if over then gl_esum g ≫ 1 else gl_esum g in
  if 31 <? scale then None
  else Some {| gl_csum := i32 (csum1QQ + (tmp2W32 ≫ scale)); gl_esum := i32 (esumxQQ + (tmpW32 ≫ scale));
               gl_scale := scale; gl_ubuf := ubuf; gl_ind := ind + 1 |}.

(** The index is a [size_t] here and has no lower limit. *)
Definition gains_fraction (indW16 curLagQ7 : Z) : list Z :=
  let frcQQ := u64 (u64 (u64 (indW16 ≪ 7) + 64) - u64 curLagQ7) ≫ 4 in
  let frcQQ := if PITCH_FRACS <=? frcQQ then 0 else frcQQ in
  nth (Z.to_nat frcQQ) kIntrpCoef [].

Definition gains_segment (indatQ0 : list Z) (lagdeltaQ7 : Z) (st : GainLoop * Z) : option (GainLoop * Z) :=
  let '(g, curLagQ7) := st in
  let curLagQ7 := i16 (curLagQ7 + lagdeltaQ7) in
  let indW16 := CalcLrIntQ curLagQ7 7 in
  let fracoeffQQ := gains_fraction indW16 curLagQ7 in
  g ← for_opt (Z.quot PITCH_SUBFRAME_LEN kSegments) (fun _ => gains_sample indatQ0 fracoeffQQ indW16) g;
  Some (g, curLagQ7).

(** The gain from the correlation and the energy. *)
Definition gain_of_sums (csum1QQ esumxQQ : Z) : Z :=
  let tmpW32 := if csum1QQ <? esumxQQ then WebRtcSpl_DivResultInQ31 csum1QQ esumxQQ ≫ 20 else 4096 in
  i16 (WEBRTC_SPL_SAT PITCH_MAX_GAIN_Q12 tmpW32 0).

Definition gains_subframe (indatQ0 lagsQ7 : list Z) (k : Z) (st : GainLoop * Z * list Z)
  : option (GainLoop * Z * list Z) :=
  let '(g, oldLagQ7, gainsQ12) := st in
  lag ← rd lagsQ7 k;
  '(g, _) ← for_opt kSegments (fun _ => gains_segment indatQ0 (lag_delta lag oldLagQ7))
     ({| gl_csum := 1; gl_esum := 1; gl_scale := gl_scale g; gl_ubuf := gl_ubuf g; gl_ind := gl_ind g |}, oldLagQ7);
  gainsQ12 ← wr gainsQ12 k (gain_of_sums (gl_csum g) (gl_esum g));
  Some (g, lag, gainsQ12).

(** [ubuf] is the local array of [PITCH_INTBUFFSIZE] cells.  The new filter
    state and gains. *)
Definition WebRtcIsacfix_PitchFilterGains (ubuf indatQ0 : list Z) (pfp : PitchFiltstr)
    (lagsQ7 gainsQ12 : list Z) : option (PitchFiltstr * list Z) :=
  ubuf ← mem_write ubuf 0 (ubufQQ pfp);
  lag0 ← rd lagsQ7 0;
  let oldLagQ7 := if big_step lag0 (oldlagQ7 pfp) then lag0 else oldlagQ7 pfp in
  '(g, _, gainsQ12) ← for_opt PITCH_SUBFRAMES (gains_subframe indatQ0 lagsQ7)
     ({| gl_csum := 1; gl_esum := 1; gl_scale := 0; gl_ubuf := ubuf; gl_ind := 0 |}, oldLagQ7, gainsQ12);
  ub ← mem_read (gl_ubuf g) PITCH_FRAME_LEN PITCH_BUFFSIZE;
  lag ← rd lagsQ7 (PITCH_SUBFRAMES - 1); gain ← rd gainsQ12 (PITCH_SUBFRAMES - 1);
  Some ({| ubufQQ := ub; ystateQQ := ystateQQ pfp; oldlagQ7 := lag; oldgainQ12 := gain |}, gainsQ12).

(** ** The filter as a scan

    The state is the history of the signal [x + y], which the local buffer
    holds, and the damping filter's memory. *)
Definition pitch_interp (index : Z) (coef hist : list Z) : Z :=
  sat16 ((zsum (fun j => arr hist (Z.of_nat (length hist) - (index + 2) + j) * arr coef j) 9 + 2 ^ 13) / 2 ^ 14).
Definition pitch_memory (gain v : Z) (ys : list Z) : list Z := (gain * v + 2 ^ 11) / 2 ^ 12 :: take 4 ys.
Definition pitch_damp (ys : list Z) : Z :=
  sat16 ((zsum (fun j => arr ys j * arr kDampFilter j) 5 + 2 ^ 14) / 2 ^ 15).
Definition pitch_step (gain index sign : Z) (coef : list Z) (s : list Z * list Z) (x : Z)
  : Z * (list Z * list Z) :=
  let ys := pitch_memory gain (pitch_interp index coef s.1) s.2 in
  let y := sat16 (x - sign * pitch_damp ys) in
  (y, (s.1 ++ [sat16 (x + y)], ys)).

(** Gain, index and interpolation row of a segment. *)
Definition segment : Type := Z * Z * list Z.
Definition segment_at (lag gain : Z) : segment := (gain, segment_index lag, lag_fraction (segment_index lag) lag).

(** The five segments of a subframe: lag and gain move in equal steps. *)
Definition subframe_segments (oldlag lag oldgain gain : Z) : list segment :=
  map (fun c => segment_at (oldlag + c * lag_delta lag oldlag) (oldgain + c * gain_delta gain oldgain))
      [1; 2; 3; 4; 5].

(** Segments of 12 samples from [ind] on. *)
Fixpoint run_segments (sign : Z) (inp : list Z) (ind : Z) (ps : list segment) (s : list Z * list Z)
  : list Z * (list Z * list Z) :=
  match ps with
  | [] => ([], s)
  | p :: ps =>
      let y := scan (pitch_step p.1.1 p.1.2 sign p.2) s (strided 1 ind 12 inp) in
      let r := run_segments sign inp (ind + 12) ps y.2 in
      (y.1 ++ r.1, r.2)
  end.

(** ** Sums of products *)

Fixpoint abs_sum (l : list Z) : Z := match l with [] => 0 | c :: l => Z.abs c + abs_sum l end.

Lemma abs_sum_nonneg l : 0 <= abs_sum l.
Proof. induction l as [|c l IH]; cbn [abs_sum]; lia. Qed.

(** A partial sum of products with bounded samples. *)
Lemma abs_sum_weighted coef B : forall f n, (forall j, - B <= f j <= B) -> (n <= length coef)%nat ->
  Z.abs (zsum (fun j => f j * arr coef j) n) <= B * abs_sum coef.
Proof.
  induction coef as [|c coef IH]; intros f n Hf Hn; cbn [length abs_sum] in *.
  - replace n with 0%nat by lia. cbn. lia.
  - pose proof (Hf 0) as H0. destruct n as [|n].
    { cbn [zsum]. rewrite Z.abs_0. apply Z.mul_nonneg_nonneg; [lia|]. pose proof (abs_sum_nonneg coef). lia. }
    rewrite zsum_head. specialize (IH (fun j => f (j + 1)) n (fun j => Hf (j + 1)) ltac:(lia)).
    rewrite (zsum_ext (fun i => f (i + 1) * arr (c :: coef) (i + 1)) (fun j => f (j + 1) * arr coef j));
      [|intros i Hi; unfold arr; by replace (Z.to_nat (i + 1)) with (S (Z.to_nat i)) by lia].
    change (arr (c :: coef) 0) with c.
    assert (Z.abs (f 0 * c) <= B * Z.abs c) by (rewrite Z.abs_mul; apply Z.mul_le_mono_nonneg_r; lia).
    rewrite Z.mul_add_distr_l. cbv beta in IH. lia.
Qed.

Lemma zsum_products coef f n : (forall j, is_i16 (f j)) -> (n <= length coef)%nat ->
  Z.abs (zsum (fun j => f j * arr coef j) n) <= 2 ^ 15 * abs_sum coef.
Proof. intros Hf. apply abs_sum_weighted. intros j. specialize (Hf j). unfold is_i16 in Hf. lia. Qed.

Lemma dot_product_exact n buf pos coef : Forall is_i16 buf -> 0 <= n -> 0 <= pos ->
  pos + n <= Z.of_nat (length buf) -> n = Z.of_nat (length coef) -> Forall is_i16 coef -> abs_sum coef < 65536 ->
  dot_product n buf pos coef = Some (zsum (fun j => arr buf (pos + j) * arr coef j) (Z.to_nat n)) /\
  is_i32 (zsum (fun j => arr buf (pos + j) * arr coef j) (Z.to_nat n)).
Proof.
  intros Hb Hn Hp Hl Hc Fc Ha. set (f j := arr buf (pos + j)).
  assert (forall j, is_i16 (f j)) as Hf by (intros j; apply arr_Forall; [unfold is_i16; lia|done]).
  assert (forall m, (m <= length coef)%nat -> is_i32 (zsum (fun j => f j * arr coef j) m)) as Hr.
  { intros m Hm. pose proof (zsum_products coef f m Hf Hm). unfold is_i32. lia. }
  split; [|apply Hr; lia]. unfold dot_product.
  loop_inv (fun j s => s = zsum (fun j => f j * arr coef j) (Z.to_nat j)) r E H; [lia|done| |by rewrite E, H].
  intros j s Hj ->. rewrite !rd_Some, !bind_Some by lia. eexists; split; [reflexivity|].
  change (arr buf (pos + j)) with (f j).
  pose proof (mul_i16 (f j) (arr coef j) (Hf j) (arr_Forall is_i16 _ j ltac:(unfold is_i16; lia) Fc)).
  rewrite (i32_id (f j * _)) by (unfold is_i32; lia). rewrite <-(zsum_snoc (fun j => f j * arr coef j)) by lia.
  apply i32_id, Hr. lia.
Qed.

(** The two saturations of the source, which limit before rounding. *)
Lemma round14 v : i16 (i32 (WEBRTC_SPL_SAT 536862719 v (-536879104) + 8192) ≫ 14) = sat16 ((v + 2 ^ 13) / 2 ^ 14).
Proof.
  unfold WEBRTC_SPL_SAT, sat16, clamp. rewrite shiftr_div by lia.
  destruct (Z.ltb_spec 536862719 v); [|destruct (Z.ltb_spec v (-536879104))]; cint.
Qed.
Lemma round15 v : i16 (i32 (WEBRTC_SPL_SAT 1073725439 v (-1073758208) + 16384) ≫ 15) = sat16 ((v + 2 ^ 14) / 2 ^ 15).
Proof.
  unfold WEBRTC_SPL_SAT, sat16, clamp. rewrite shiftr_div by lia.
  destruct (Z.ltb_spec 1073725439 v); [|destruct (Z.ltb_spec v (-1073758208))]; cint.
Qed.
Lemma sat_sat16 v : is_i32 v -> WebRtcSpl_SatW32ToW16 (i32 v) = sat16 v.
Proof. intros H. by rewrite i32_id, SatW32ToW16_clamp by done. Qed.

(** ** One sample *)

Definition coef_ok (coef : list Z) : Prop := length coef = 9%nat /\ Forall is_i16 coef /\ abs_sum coef <= 30716.

Lemma kIntrpCoef_ok n : (n < 8)%nat -> coef_ok (nth n kIntrpCoef []).
Proof.
  intros H. do 8 (destruct n as [|n]; [split; [done|split; [repeat constructor; unfold is_i16; lia|discriminate] ]|]). lia.
Qed.

Lemma lag_fraction_ok ind lag : coef_ok (lag_fraction ind lag).
Proof.
  unfold lag_fraction. generalize (i32 (i32 (i32 (ind ≪ 7) + 64) - lag) ≫ 4). intros z.
  assert (0 <= u64 z) by (apply Z.mod_pos_bound; lia). generalize dependent (u64 z). intros q Hq. cbv zeta.
  unfold PITCH_FRACS. apply kIntrpCoef_ok. destruct (Z.leb_spec 8 q); lia.
Qed.

Lemma segment_index_bounds lag : -1100 <= lag <= 24127 -> 7 <= segment_index lag <= 188.
Proof.
  intros H. unfold segment_index, CalcLrIntQ, PITCH_FRACORDER. change (i32 (1 ≪ (7 - 1))) with 64.
  rewrite (i32_id (lag + 64)) by (unfold is_i32; lia).
  assert (-9 <= (lag + 64) ≫ 7 < 189) by (apply shiftr_bounds; lia).
  assert (i32 (u64 ((lag + 64) ≫ 7)) = (lag + 64) ≫ 7) as -> by (generalize dependent ((lag + 64) ≫ 7); intros; cint).
  destruct (Z.ltb_spec ((lag + 64) ≫ 7) (9 - 2)); lia.
Qed.

(** The states of the filter: a 16-bit history of [n] samples and the memory of
    the damping filter. *)
Definition pitch_state (n : nat) (s : list Z * list Z) : Prop := w16 n s.1 /\ w16 5 s.2.

Lemma pitch_interp_i16 index coef hist : is_i16 (pitch_interp index coef hist).
Proof. apply sat16_range. Qed.
Lemma pitch_interp_eq index coef hist :
  sat16 ((zsum (fun j => arr hist (Z.of_nat (length hist) - (index + 2) + j) * arr coef j) 9 + 2 ^ 13) / 2 ^ 14)
  = pitch_interp index coef hist.
Proof. unfold pitch_interp. reflexivity. Qed.
Lemma pitch_damp_i16 ys : is_i16 (pitch_damp ys).
Proof. apply sat16_range. Qed.

Lemma gain_product_i16 gain v : -4095 <= gain <= 4095 -> is_i16 v ->
  Z.abs (gain * v) <= 4095 * 2 ^ 15 /\ is_i16 ((gain * v + 2 ^ 11) / 2 ^ 12).
Proof.
  intros Hg Hv. unfold is_i16 in *. assert (Z.abs (gain * v) <= 4095 * 2 ^ 15) by (rewrite Z.abs_mul; nia).
  split; [done|]. Z.div_mod_to_equations. lia.
Qed.

Lemma pitch_memory_w16 gain v ys : -4095 <= gain <= 4095 -> is_i16 v -> w16 5 ys -> w16 5 (pitch_memory gain v ys).
Proof.
  intros Hg Hv [L F]. unfold pitch_memory. split; [cbn [length]; rewrite length_take; lia|].
  constructor; [by apply gain_product_i16|by apply Forall_take].
Qed.

Lemma pitch_step_state gain index sign coef n s x : -4095 <= gain <= 4095 -> pitch_state n s ->
  is_i16 (pitch_step gain index sign coef s x).1 /\ pitch_state (S n) (pitch_step gain index sign coef s x).2.
Proof.
  intros Hg [ [L1 F1] H2]. unfold pitch_step. cbv zeta.
  pose proof (pitch_memory_w16 gain _ s.2 Hg (pitch_interp_i16 index coef s.1) H2) as Hm.
  generalize dependent (pitch_memory gain (pitch_interp index coef s.1) s.2). intros ys Hm. cbn [fst snd].
  split; [apply sat16_range|]. split; [|exact Hm]. cbn [fst]. split; [rewrite length_app; cbn [length]; lia|].
  apply Forall_app; split; [done|]. constructor; [apply sat16_range|constructor].
Qed.

(** A sample of the code is a step; the history is the written part of the
    buffer. *)
Lemma pitch_core_sample_spec gain index sign coef inp (i : Z) hist ys tail out :
  -4095 <= gain <= 4095 -> 7 <= index <= 188 -> -1 <= sign <= 1 -> coef_ok coef -> Forall is_i16 inp ->
  0 <= i < Z.of_nat (length inp) -> i < Z.of_nat (length out) -> length hist = (190 + Z.to_nat i)%nat ->
  Forall is_i16 (hist ++ tail) -> w16 5 ys -> (0 < length tail)%nat ->
  let r := pitch_step gain index sign coef (hist, ys) (arr inp i) in
  pitch_core_sample gain index sign coef inp i (ys, hist ++ tail, out)
  = Some (r.2.2, r.2.1 ++ drop 1 tail, upd out i r.1).
Proof.
  intros Hg Hi Hsg (Lc & Fc & Ac) Fi Hin Hout Lh Fb Hy Ht r. unfold pitch_core_sample, PITCH_BUFFSIZE, PITCH_FRACORDER, PITCH_DAMPORDER.
  destruct (dot_product_exact 9 (hist ++ tail) (190 - (index + 2) + i) coef) as [E _];
    [done|lia|lia|rewrite length_app; lia|lia|done|lia|].
  bind_step E. clear E. rewrite round14. change (Z.to_nat 9) with 9%nat.
  rewrite (zsum_ext _ (fun j => arr hist (Z.of_nat (length hist) - (index + 2) + j) * arr coef j));
    [|intros j Hj; rewrite arr_cat_l by lia; do 2 f_equal; lia].
  rewrite pitch_interp_eq. pose proof (pitch_interp_i16 index coef hist) as Hv.
  destruct (gain_product_i16 gain _ Hg Hv) as [Ha Hm]. pose proof (pitch_memory_w16 gain _ ys Hg Hv Hy) as Hw.
  unfold r, pitch_step. cbv zeta. cbn [fst snd]. generalize dependent (pitch_interp index coef hist). intros v Hv Ha Hm Hw. 
  destruct Hy as [Ly Fy]. rewrite (mem_read_Some ys), bind_Some by lia. change (Z.to_nat 0) with 0%nat. rewrite drop_0.
  change (Z.to_nat (5 - 1)) with 4%nat.
  rewrite (mem_write_Some ys), bind_Some by (rewrite ?length_take; lia).
  assert (i16 (WEBRTC_SPL_MUL_16_16_RSFT_WITH_ROUND gain v 12) = (gain * v + 2 ^ 11) / 2 ^ 12) as ->.
  { unfold WEBRTC_SPL_MUL_16_16_RSFT_WITH_ROUND, WEBRTC_SPL_MUL_16_16. change (i32 (1 ≪ (12 - 1))) with (2 ^ 11).
    rewrite (i16_id gain), (i16_id v) by (unfold is_i16 in *; lia).
    rewrite (i32_id (gain * v)) by (unfold is_i32; lia). rewrite i32_id, shiftr_div by (unfold is_i32; lia).
    by apply i16_id. }
  assert (wr (take (Z.to_nat 1) ys ++ take 4 ys ++ drop (Z.to_nat 1 + length (take 4 ys)) ys) 0 ((gain * v + 2 ^ 11) / 2 ^ 12)
    = Some (pitch_memory gain v ys)) as ->.
  { unfold pitch_memory. generalize ((gain * v + 2 ^ 11) / 2 ^ 12). intros m.
    destruct ys as [|a [|b [|c [|d [|e [|] ] ] ] ] ]; try discriminate Ly. reflexivity. }
  rewrite bind_Some. generalize dependent (pitch_memory gain v ys). intros m Hw.
  destruct (dot_product_exact 5 m 0 kDampFilter) as [E _];
    [apply Hw|lia|lia|destruct Hw as [-> _]; lia|reflexivity|repeat constructor; unfold is_i16; lia|reflexivity|].
  bind_step E. clear E. rewrite round15. change (Z.to_nat 5) with 5%nat.
  rewrite (zsum_ext _ (fun j => arr m j * arr kDampFilter j)) by done. fold (pitch_damp m).
  pose proof (pitch_damp_i16 m) as Hd. generalize dependent (pitch_damp m). intros d Hd.
  rewrite rd_Some, bind_Some by lia. assert (is_i16 (arr inp i)) as Hx by (apply arr_Forall; [unfold is_i16; lia|done]).
  assert (Z.abs (sign * d) <= 2 ^ 15) as Hsd by (unfold is_i16 in *; rewrite Z.abs_mul; nia).
  rewrite (i32_id (sign * d)) by (unfold is_i32; lia). rewrite (sat_sat16 (arr inp i - sign * d)) by (unfold is_i16, is_i32 in *; lia).
  rewrite (wr_Some out), bind_Some by lia. pose proof (sat16_range (arr inp i - sign * d)) as Hy2.
  generalize dependent (sat16 (arr inp i - sign * d)). intros y Hy2.
  rewrite sat_sat16 by (unfold is_i16, is_i32 in *; lia). rewrite wr_Some, bind_Some by (rewrite length_app; lia).
  do 2 f_equal. f_equal. unfold upd. replace (Z.to_nat (i + 190)) with (length hist + 0)%nat by lia.
  rewrite insert_app_r. destruct tail as [|t tail]; [cbn in Ht; lia|]. cbn. by rewrite <-app_assoc.
Qed.

(** ** A run of samples *)

Lemma pitch_scan_state gain index sign coef : -4095 <= gain <= 4095 -> forall xs n s, pitch_state n s ->
  Forall is_i16 (scan (pitch_step gain index sign coef) s xs).1 /\
  pitch_state (n + length xs) (scan (pitch_step gain index sign coef) s xs).2.
Proof.
  intros Hg. induction xs as [|x xs IH]; intros n s Hs; [cbn; split; [constructor|by rewrite Nat.add_0_r] |].
  destruct (pitch_step_state gain index sign coef n s x Hg Hs) as [H1 H2].
  cbn [scan fst snd length]. destruct (IH (S n) _ H2) as [H3 H4].
  split; [by constructor|]. by replace (n + S (length xs))%nat with (S n + length xs)%nat by lia.
Qed.

Lemma strided_all_i16 stride base n l : Forall is_i16 l -> Forall is_i16 (strided stride base n l).
Proof. apply Forall_strided. unfold is_i16. lia. Qed.

Lemma PitchFilterCore_spec (n : nat) gain index sign coef inp (ind : nat) hist ys tail out :
  -4095 <= gain <= 4095 -> 7 <= index <= 188 -> -1 <= sign <= 1 -> coef_ok coef -> Forall is_i16 inp ->
  (ind + n <= length inp)%nat -> (ind + n <= length out)%nat -> pitch_state (190 + ind) (hist, ys) ->
  Forall is_i16 tail -> (n <= length tail)%nat ->
  let r := scan (pitch_step gain index sign coef) (hist, ys) (strided 1 (Z.of_nat ind) n inp) in
  exists out', WebRtcIsacfix_PitchFilterCore (Z.of_nat n) gain index sign ys (hist ++ tail) coef inp out (Z.of_nat ind)
    = Some (r.2.2, r.2.1 ++ drop n tail, out', Z.of_nat (ind + n)) /\ overwritten 1 (Z.of_nat ind) r.1 out out'.
Proof.
  intros Hg Hi Hsg Hc Fi Hin Hout Hs Ft Ht r. unfold WebRtcIsacfix_PitchFilterCore.
  set (R m := scan (pitch_step gain index sign coef) (hist, ys) (strided 1 (Z.of_nat ind) (Z.to_nat m) inp)).
  loop_inv (fun m '((ys', ub, o) : list Z * list Z * list Z) =>
    ys' = (R m).2.2 /\ ub = (R m).2.1 ++ drop (Z.to_nat m) tail /\ overwritten 1 (Z.of_nat ind) (R m).1 out o) q E H;
    [lia| | |].
  - split_and!; [reflexivity|by rewrite drop_0|apply overwritten_nil].
  - intros m [[ys' ub] o] Hm (-> & -> & O).
    assert (R (m + 1) = ((R m).1 ++ [(pitch_step gain index sign coef (R m).2 (arr inp (Z.of_nat ind + m))).1],
                         (pitch_step gain index sign coef (R m).2 (arr inp (Z.of_nat ind + m))).2)) as ER.
    { unfold R. replace (Z.to_nat (m + 1)) with (S (Z.to_nat m)) by lia. rewrite strided_snoc, scan_snoc.
      by replace (Z.of_nat ind + 1 * Z.of_nat (Z.to_nat m)) with (Z.of_nat ind + m) by lia. }
    assert (length (R m).1 = Z.to_nat m) as LR by (unfold R; by rewrite length_scan, length_strided).
    destruct (pitch_scan_state gain index sign coef Hg (strided 1 (Z.of_nat ind) (Z.to_nat m) inp) _ _ Hs) as [_ HS].
    rewrite length_strided in HS. fold (R m) in HS. rewrite ER. clear ER. generalize dependent (R m).
    intros [o1 [h1 y1] ] O LR [ [Lh Fh] Hy]. cbn [fst snd] in *.
    assert (length o = length out) as Lo by apply O.
    rewrite pitch_core_sample_spec; [|done|done|done|done|done|lia|lia|lia|
      apply Forall_app; split; [done|by apply Forall_drop]|done|rewrite length_drop; lia].
    eexists; split; [reflexivity|]. cbv beta iota. split_and!; [done| |].
    + rewrite drop_drop. do 2 f_equal. lia.
    + replace (Z.of_nat ind + m) with (Z.of_nat ind + 1 * Z.of_nat (length o1)) by lia.
      apply overwritten_snoc; [lia|lia|done|lia].
  - destruct q as [[ys' ub] o], H as (-> & -> & O). bind_step E. rewrite Nat2Z.id in *.
    exists o. split; [|unfold R in O; by rewrite Nat2Z.id in O]. unfold R. rewrite Nat2Z.id. fold r.
    by replace (Z.of_nat ind + Z.of_nat n) with (Z.of_nat (ind + n)) by lia.
Qed.

Lemma run_segments_cons sign inp ind (p : segment) (ps : list segment) s :
  exists y, y = scan (pitch_step p.1.1 p.1.2 sign p.2) s (strided 1 ind 12 inp) /\
  run_segments sign inp ind (p :: ps) s
  = (y.1 ++ (run_segments sign inp (ind + 12) ps y.2).1, (run_segments sign inp (ind + 12) ps y.2).2).
Proof. eexists; split; reflexivity. Qed.

Lemma run_segments_app sign inp (ps : list segment) : forall (qs : list segment) ind s, exists r r',
  r = run_segments sign inp ind ps s /\ r' = run_segments sign inp (ind + 12 * Z.of_nat (length ps)) qs r.2 /\
  run_segments sign inp ind (ps ++ qs) s = (r.1 ++ r'.1, r'.2).
Proof.
  induction ps as [|p ps IH]; intros qs ind s; cbn [app length].
  - exists ([], s), (run_segments sign inp ind qs s). cbn [fst snd app]. rewrite Z.mul_0_r, Z.add_0_r.
    split_and!; [reflexivity|reflexivity|by destruct (run_segments sign inp ind qs s)].
  - destruct (run_segments_cons sign inp ind p (ps ++ qs) s) as (y & Ey & ->).
    destruct (run_segments_cons sign inp ind p ps s) as (y0 & Ey0 & E0). rewrite <-Ey in Ey0. subst y0.
    destruct (IH qs (ind + 12) y.2) as (r & r' & Er & Er' & ->). rewrite <-Er in E0.
    exists (y.1 ++ r.1, r.2), r'. cbn [fst snd]. rewrite <-app_assoc.
    replace (ind + 12 * Z.of_nat (S (length ps))) with (ind + 12 + 12 * Z.of_nat (length ps)) by lia. by split_and!.
Qed.

Definition segment_ok (p : segment) : Prop := -4095 <= p.1.1 <= 4095 /\ 7 <= p.1.2 <= 188 /\ coef_ok p.2.

Lemma run_segments_state sign inp ps : Forall segment_ok ps -> forall ind n s, pitch_state n s ->
  length (run_segments sign inp ind ps s).1 = (12 * length ps)%nat /\
  Forall is_i16 (run_segments sign inp ind ps s).1 /\
  pitch_state (n + 12 * length ps) (run_segments sign inp ind ps s).2.
Proof.
  induction 1 as [|p ps (Hg & _) _ IH]; intros ind n s Hs; [cbn; split_and!; [done|done|by rewrite Nat.add_0_r] |].
  destruct (run_segments_cons sign inp ind p ps s) as (y & Ey & ->). cbn [fst snd length].
  destruct (pitch_scan_state p.1.1 p.1.2 sign p.2 Hg (strided 1 ind 12 inp) n s Hs) as [H1 H2].
  rewrite <-Ey in H1, H2. rewrite length_strided in H2. destruct (IH (ind + 12) _ _ H2) as (L & F & HS).
  rewrite length_app, L, Ey, length_scan, length_strided, <-Ey.
  split_and!; [lia|by apply Forall_app|].
  by replace (n + 12 * S (length ps))%nat with (n + 12 + 12 * length ps)%nat by lia.
Qed.

(** ** Subframes *)

Definition lag_ok (lag : Z) : Prop := -1000 <= lag <= 24000.
Definition gain_ok (gain : Z) : Prop := 0 <= gain <= 3900.

Lemma lag_delta_exact lag old : lag_ok lag -> lag_ok old ->
  lag_delta lag old = ((lag - old) * 6553 + 2 ^ 14) / 2 ^ 15.
Proof.
  unfold lag_ok. intros H1 H2. unfold lag_delta, WEBRTC_SPL_MUL_16_16_RSFT_WITH_ROUND, WEBRTC_SPL_MUL_16_16, kDivFactor.
  change (i16 6553) with 6553. change (i32 (1 ≪ (15 - 1))) with (2 ^ 14).
  rewrite !(i16_id (lag - old)) by (unfold is_i16; lia). rewrite !i32_id by (unfold is_i32; rewrite ?i32_id; unfold is_i32; lia).
  rewrite shiftr_div by lia. apply i16_id. unfold is_i16. Z.div_mod_to_equations. lia.
Qed.

Lemma gain_delta_exact gain old : gain_ok gain -> gain_ok old ->
  gain_delta gain old = ((gain - old) * 6553) / 2 ^ 15.
Proof.
  unfold gain_ok. intros H1 H2. unfold gain_delta, kDivFactor.
  rewrite !(i16_id (gain - old)) by (unfold is_i16; lia). rewrite i32_id by (unfold is_i32; lia).
  rewrite shiftr_div by lia. apply i16_id. unfold is_i16. Z.div_mod_to_equations. lia.
Qed.

(** Lag and gain stay between the old and the new value, up to rounding. *)
Lemma interpolated_range c lag old gain oldg : 1 <= c <= 5 -> lag_ok lag -> lag_ok old -> gain_ok gain -> gain_ok oldg ->
  Z.min old lag - 6 <= old + c * lag_delta lag old <= Z.max old lag + 6 /\
  Z.min oldg gain - 6 <= oldg + c * gain_delta gain oldg <= Z.max oldg gain.
Proof.
  intros Hc H1 H2 H3 H4. rewrite lag_delta_exact, gain_delta_exact by done. unfold lag_ok, gain_ok in *.
  assert (c = 1 \/ c = 2 \/ c = 3 \/ c = 4 \/ c = 5) as D by lia.
  decompose [or] D; subst c; Z.div_mod_to_equations; lia.
Qed.

Lemma subframe_segments_ok lag old gain oldg : lag_ok lag -> lag_ok old -> gain_ok gain -> gain_ok oldg ->
  Forall segment_ok (subframe_segments old lag oldg gain).
Proof.
  intros H1 H2 H3 H4. unfold subframe_segments. apply Forall_map. rewrite Forall_forall. intros c Hc.
  destruct (interpolated_range c lag old gain oldg) as [Hl Hg]; [cbn in Hc; lia|done..|]. unfold lag_ok, gain_ok in *.
  unfold segment_ok, segment_at. cbn [fst snd]. split_and!; [lia|lia|apply segment_index_bounds; lia| |apply lag_fraction_ok..].
  apply segment_index_bounds. lia.
Qed.

(** What a run of segments leaves in the loop variables. *)
Definition loop_at (p : PitchLoop) (out : list Z) (ind : nat) (s : list Z * list Z) (ys tail : list Z) : Prop :=
  pl_state p = s.2 /\ pl_ubuf p = s.1 ++ tail /\ overwritten 1 0 ys out (pl_out p) /\
  length ys = ind /\ pl_ind p = Z.of_nat ind.

Definition loop_segment (p : PitchLoop) : segment := (pl_gain p, pl_index p, pl_coef p).

Lemma pitch_segment_spec sign inp p out (ind : nat) s ys tail lagd gaind :
  -1 <= sign <= 1 -> Forall is_i16 inp -> (ind + 12 <= length inp)%nat -> (ind + 12 <= length out)%nat ->
  loop_at p out ind s ys tail -> pitch_state (190 + ind) s -> Forall is_i16 tail -> (12 <= length tail)%nat ->
  is_i16 (pl_gain p + gaind) -> is_i16 (pl_lag p + lagd) ->
  let g := segment_at (pl_lag p + lagd) (pl_gain p + gaind) in segment_ok g ->
  exists p' y, y = scan (pitch_step g.1.1 g.1.2 sign g.2) s (strided 1 (Z.of_nat ind) 12 inp) /\
    pitch_segment sign gaind lagd inp p = Some p' /\
    loop_at p' out (ind + 12) y.2 (ys ++ y.1) (drop 12 tail) /\
    loop_segment p' = g /\ pl_lag p' = pl_lag p + lagd.
Proof.
  intros Hsg Fi Li Lo (E1 & E2 & O & Ly & Ei) Hs Ft Lt Hg Hl g Hok. unfold pitch_segment.
  rewrite !(i16_id (pl_gain p + gaind)), !(i16_id (pl_lag p + lagd)) by done.
  unfold segment_at in g. cbv zeta. generalize dependent (lag_fraction (segment_index (pl_lag p + lagd)) (pl_lag p + lagd)).
  generalize dependent (segment_index (pl_lag p + lagd)). intros I C g Hok. unfold g. unfold g, segment_ok in Hok. clear g.
  cbn [fst snd] in *. destruct Hok as (Gg & Gi & Gc).
  change (Z.quot PITCH_SUBFRAME_LEN kSegments) with (Z.of_nat 12). rewrite E1, E2, Ei.
  destruct s as [hist st]. cbn [fst snd] in *.
  destruct (PitchFilterCore_spec 12 (pl_gain p + gaind) I sign C inp ind hist st tail (pl_out p))
    as (out' & E & O'); [exact Gg|exact Gi|done|exact Gc|done|done|destruct O as [-> _]; done|done|done|done|].
  remember (scan (pitch_step (pl_gain p + gaind) I sign C) (hist, st) (strided 1 (Z.of_nat ind) 12 inp)) as y eqn:Ey.
  assert (length y.1 = 12%nat) as Ly1 by (rewrite Ey; by rewrite length_scan, length_strided).
  bind_step E. clear E. eexists _, y. split; [reflexivity|]. split; [reflexivity|]. cbn [loop_segment pl_gain pl_index pl_coef pl_lag].
  split; [|split; reflexivity]. split_and!; cbn [pl_state pl_ubuf pl_out pl_ind]; [done|done| |rewrite length_app; lia|done].
  apply (overwritten_app _ _ _ (pl_out p)); [done|]. by rewrite Ly.
Qed.

Definition nth_segment (old lag oldg gain c : Z) : segment :=
  segment_at (old + c * lag_delta lag old) (oldg + c * gain_delta gain oldg).

Lemma subframe_segments_snoc old lag oldg gain c : 0 <= c < 5 ->
  take (Z.to_nat (c + 1)) (subframe_segments old lag oldg gain)
  = take (Z.to_nat c) (subframe_segments old lag oldg gain) ++ [nth_segment old lag oldg gain (c + 1)].
Proof.
  intros Hc. unfold subframe_segments. change (fun c => segment_at _ _) with (nth_segment old lag oldg gain).
  assert (c = 0 \/ c = 1 \/ c = 2 \/ c = 3 \/ c = 4) as D by lia. decompose [or] D; subst c; reflexivity.
Qed.

Lemma run_segments_snoc sign inp (ps : list segment) (p : segment) ind s : exists y,
  let r := run_segments sign inp ind ps s in
  y = scan (pitch_step p.1.1 p.1.2 sign p.2) r.2 (strided 1 (ind + 12 * Z.of_nat (length ps)) 12 inp) /\
  run_segments sign inp ind (ps ++ [p]) s = (r.1 ++ y.1, y.2).
Proof.
  destruct (run_segments_app sign inp ps [p] ind s) as (r & r' & Er & Er' & ->). rewrite <-Er.
  destruct (run_segments_cons sign inp (ind + 12 * Z.of_nat (length ps)) p [] r.2) as (y & Ey & E).
  exists y. cbv zeta. split; [exact Ey|]. rewrite Er', E. cbn [fst snd run_segments]. by rewrite app_nil_r.
Qed.

Section Subframe.
Context (sign : Z) (inp lags gains : list Z).
Context (Hsg : -1 <= sign <= 1) (Fi : Forall is_i16 inp) (Llags : length lags = 4%nat) (Lgains : length gains = 4%nat)
  (Flags : Forall lag_ok lags) (Fgains : Forall gain_ok gains).

Lemma lag_gain k : 0 <= k < 4 -> lag_ok (arr lags k) /\ gain_ok (arr gains k).
Proof.
  intros Hk. split; (apply arr_Forall; [unfold lag_ok, gain_ok; lia|done]).
Qed.

Lemma pitch_subframe_spec k p out (ind : nat) s ys tail old oldg : 0 <= k < 4 -> lag_ok old -> gain_ok oldg ->
  (ind + 60 <= length inp)%nat -> (ind + 60 <= length out)%nat -> loop_at p out ind s ys tail ->
  pitch_state (190 + ind) s -> Forall is_i16 tail -> (60 <= length tail)%nat ->
  let ps := subframe_segments old (arr lags k) oldg (arr gains k) in
  exists p' r, r = run_segments sign inp (Z.of_nat ind) ps s /\
    pitch_subframe sign lags gains inp k (p, old, oldg) = Some (p', arr lags k, arr gains k) /\
    loop_at p' out (ind + 60) r.2 (ys ++ r.1) (drop 60 tail) /\
    loop_segment p' = nth_segment old (arr lags k) oldg (arr gains k) 5.
Proof.
  intros Hk Ho Hog Li Lo Hp Hs Ft Lt ps. destruct (lag_gain k Hk) as [Hl Hg]. unfold pitch_subframe.
  rewrite !rd_Some, !bind_Some by lia. set (ld := lag_delta (arr lags k) old). set (gd := gain_delta (arr gains k) oldg).
  pose proof (subframe_segments_ok (arr lags k) old (arr gains k) oldg Hl Ho Hg Hog) as Hok. fold ps in Hok.
  assert (length ps = 5%nat) as Lps by reflexivity.
  set (R c := run_segments sign inp (Z.of_nat ind) (take (Z.to_nat c) ps) s).
  loop_inv (fun c (q : PitchLoop) => loop_at q out (ind + 12 * Z.to_nat c) (R c).2 (ys ++ (R c).1) (drop (12 * Z.to_nat c) tail) /\
    pl_gain q = oldg + c * gd /\ pl_lag q = old + c * ld /\
    (0 < c -> loop_segment q = nth_segment old (arr lags k) oldg (arr gains k) c)) q E H; unfold kSegments in *; [lia| | |].
  - change (R 0) with (([] : list Z), s). cbn [fst snd]. rewrite app_nil_r, Nat.mul_0_r, Nat.add_0_r, drop_0.
    split_and!; [exact Hp|cbn [pl_gain]; lia|cbn [pl_lag]; lia|lia].
  - intros c q Hc (Hq & Gq & Lq & _).
    destruct (interpolated_range (c + 1) (arr lags k) old (arr gains k) oldg) as [Rl Rg]; [lia|done..|].
    fold ld in Rl. fold gd in Rg. unfold lag_ok, gain_ok in Ho, Hog, Hl, Hg.
    assert (Forall segment_ok (take (Z.to_nat c) ps)) as Ht by (by apply Forall_take).
    destruct (run_segments_state sign inp _ Ht (Z.of_nat ind) _ _ Hs) as (_ & _ & HS). fold (R c) in HS.
    rewrite length_take, Lps in HS. replace (Z.to_nat c `min` 5)%nat with (Z.to_nat c) in HS by lia.
    assert (segment_ok (nth_segment old (arr lags k) oldg (arr gains k) (c + 1))) as Hn.
    { assert (Forall segment_ok (take (Z.to_nat (c + 1)) ps)) as Hn by (by apply Forall_take).
      unfold ps in Hn. rewrite subframe_segments_snoc in Hn by done. apply Forall_app in Hn as [_ Hn]. by inversion Hn. }
    destruct (pitch_segment_spec sign inp q out (ind + 12 * Z.to_nat c) (R c).2 (ys ++ (R c).1)
      (drop (12 * Z.to_nat c) tail) ld gd) as (q' & y & Ey & Eq & Hq' & Sq & Lq');
      [done|done|lia|lia|exact Hq|by rewrite Nat.add_assoc|by apply Forall_drop|rewrite length_drop; lia|
       rewrite Gq; unfold is_i16; lia|rewrite Lq; unfold is_i16; lia| |].
    { rewrite Gq, Lq. replace (old + c * ld + ld) with (old + (c + 1) * ld) by lia.
      replace (oldg + c * gd + gd) with (oldg + (c + 1) * gd) by lia. exact Hn. }
    exists q'. split; [exact Eq|]. rewrite Gq, Lq in *.
    replace (old + c * ld + ld) with (old + (c + 1) * ld) in * by lia.
    replace (oldg + c * gd + gd) with (oldg + (c + 1) * gd) in * by lia.
    change (segment_at (old + (c + 1) * ld) (oldg + (c + 1) * gd)) with (nth_segment old (arr lags k) oldg (arr gains k) (c + 1)) in *.
    destruct (run_segments_snoc sign inp (take (Z.to_nat c) ps) (nth_segment old (arr lags k) oldg (arr gains k) (c + 1)) (Z.of_nat ind) s)
      as (y' & Ey' & E'). fold (R c) in Ey', E'. rewrite length_take, Lps in Ey'.
    replace (Z.of_nat ind + 12 * Z.of_nat (Z.to_nat c `min` 5)) with (Z.of_nat (ind + 12 * Z.to_nat c)) in Ey' by lia.
    rewrite <-Ey in Ey'. subst y'. unfold ps in E'. rewrite <-subframe_segments_snoc in E' by done. fold ps in E'.
    fold (R (c + 1)) in E'. rewrite E'. cbn [fst snd]. rewrite app_assoc, drop_drop in *.
    replace (12 * Z.to_nat (c + 1))%nat with (12 * Z.to_nat c + 12)%nat by lia. rewrite Nat.add_assoc.
    split_and!; [exact Hq'| |exact Lq'|intros _; exact Sq].
    unfold loop_segment, nth_segment, segment_at in Sq. by injection Sq.
  - destruct H as (Hq & _ & _ & Hseg). bind_step E. exists q, (R 5).
    split_and!; [unfold R; by rewrite (take_ge ps) by lia|reflexivity|exact Hq|by apply Hseg].
Qed.
End Subframe.

(** ** The whole filter *)

Definition previous (old : Z) (l : list Z) (k : Z) : Z := if k =? 0 then old else arr l (k - 1).

(** The segments of the first [n] subframes. *)
Fixpoint segments (old oldg : Z) (lags gains : list Z) (n : nat) : list segment :=
  match n with
  | O => []
  | S n => let k := Z.of_nat n in
      segments old oldg lags gains n
      ++ subframe_segments (previous old lags k) (arr lags k) (previous oldg gains k) (arr gains k)
  end.

Definition pitchfilt_ok (p : PitchFiltstr) : Prop :=
  w16 190 (ubufQQ p) /\ w16 5 (ystateQQ p) /\ lag_ok (oldlagQ7 p) /\ gain_ok (oldgainQ12 p).

(** The gains the filter works with, its sign, and the lag and gain it starts
    from. *)
Definition filter_gains (type : Z) (gains : list Z) : list Z :=
  if type =? 4 then map (fun g => g * 21299 / 2 ^ 14) gains else gains.
Definition filter_sign (type : Z) : Z := if type =? 4 then -1 else 1.
Definition start_segments (p : PitchFiltstr) (lags gains : list Z) : list segment :=
  let big := big_step (arr lags 0) (oldlagQ7 p) in
  segments (if big then arr lags 0 else oldlagQ7 p) (if big then arr gains 0 else oldgainQ12 p) lags gains 4.
Definition pitch_run (type : Z) (p : PitchFiltstr) (lags gains inp : list Z) : list Z * (list Z * list Z) :=
  run_segments (filter_sign type) inp 0 (start_segments p lags gains) (ubufQQ p, ystateQQ p).
Definition filtered_state (type : Z) (p : PitchFiltstr) (lags gains inp : list Z) : PitchFiltstr :=
  let r := pitch_run type p lags gains inp in
  {| ubufQQ := drop 240 r.2.1; ystateQQ := r.2.2; oldlagQ7 := arr lags 3; oldgainQ12 := arr gains 3 |}.

Definition lookahead_length (type : Z) : nat := if type =? 2 then 24%nat else 0%nat.

(** The lookahead of type 2 uses the last segment's parameters. *)
Definition pitch_lookahead (type : Z) (p : PitchFiltstr) (lags gains inp : list Z) : list Z :=
  if type =? 2 then
    let g := nth_segment (arr lags 2) (arr lags 3) (arr gains 2) (arr gains 3) 5 in
    (scan (pitch_step g.1.1 g.1.2 1 g.2) (pitch_run type p lags gains inp).2 (strided 1 240 24 inp)).1
  else [].

Lemma scale_gains type gains : length gains = 4%nat -> Forall (fun g => 0 <= g <= 3000) gains ->
  (if type =? 4 then for_opt 4 (fun k gainsQ12 =>
     g ← rd gainsQ12 k; wr gainsQ12 k (i16 (i32 (g * 21299) ≫ 14))) gains else Some gains)
  = Some (filter_gains type gains) /\ length (filter_gains type gains) = 4%nat /\
  Forall gain_ok (filter_gains type gains).
Proof.
  intros L F. unfold filter_gains. destruct (type =? 4); [|split_and!; [done|done|]].
  - destruct gains as [|a [|b [|c [|d [|] ] ] ] ]; try discriminate L.
    assert (forall g, 0 <= g <= 3000 -> i16 (i32 (g * 21299) ≫ 14) = g * 21299 / 2 ^ 14 /\ gain_ok (g * 21299 / 2 ^ 14)) as H.
    { intros g Hg. assert (gain_ok (g * 21299 / 2 ^ 14)) by (unfold gain_ok; Z.div_mod_to_equations; lia).
      rewrite i32_id, shiftr_div by (unfold is_i32; lia). split; [apply i16_id; unfold gain_ok, is_i16 in *; lia|done]. }
    rewrite List.Forall_forall in F.
    destruct (H a) as [Ea Ha]; [apply F; cbn; tauto|]. destruct (H b) as [Eb Hb]; [apply F; cbn; tauto|].
    destruct (H c) as [Ec Hc]; [apply F; cbn; tauto|]. destruct (H d) as [Ed Hd]; [apply F; cbn; tauto|].
    cbn [map]. rewrite <-Ea, <-Eb, <-Ec, <-Ed in *.
    split_and!; [reflexivity|done|repeat (constructor; [assumption|]); constructor].
  - revert F. apply List.Forall_impl. unfold gain_ok. lia.
Qed.

Section Filter.
Context (inp lags gains : list Z) (sign old oldg : Z).
Context (Hsg : -1 <= sign <= 1) (Fi : Forall is_i16 inp) (Li : (240 <= length inp)%nat).
Context (Llags : length lags = 4%nat) (Flags : Forall lag_ok lags) (Lgains : length gains = 4%nat)
  (Fgains : Forall gain_ok gains) (Hold : lag_ok old) (Holdg : gain_ok oldg).

Lemma previous_ok k : 0 <= k <= 4 -> lag_ok (previous old lags k) /\ gain_ok (previous oldg gains k).
Proof.
  intros Hk. unfold previous. destruct (Z.eqb_spec k 0); [done|].
  split; (apply arr_Forall; [unfold lag_ok, gain_ok; lia|done]).
Qed.

Lemma segments_ok n : (n <= 4)%nat -> Forall segment_ok (segments old oldg lags gains n) /\
  length (segments old oldg lags gains n) = (5 * n)%nat.
Proof.
  induction n as [|n IH]; intros Hn; [by split|]. destruct IH as [F L]; [lia|]. cbn [segments].
  destruct (previous_ok (Z.of_nat n)) as [H1 H2]; [lia|].
  destruct (lag_gain lags gains Llags Lgains Flags Fgains (Z.of_nat n)) as [H3 H4]; [lia|].
  split; [apply Forall_app; split; [done|by apply subframe_segments_ok]|]. rewrite length_app, L. cbn [subframe_segments map length]. lia.
Qed.

(** The four subframes. *)
Lemma pitch_subframes_spec hist ys ub0 out p : pitch_state 190 (hist, ys) -> Forall is_i16 ub0 ->
  (240 <= length ub0)%nat -> (240 <= length out)%nat ->
  pl_state p = ys -> pl_ubuf p = hist ++ ub0 -> pl_out p = out -> pl_ind p = 0 ->
  let r := run_segments sign inp 0 (segments old oldg lags gains 4) (hist, ys) in
  exists p', for_opt 4 (pitch_subframe sign lags gains inp) (p, old, oldg) = Some (p', arr lags 3, arr gains 3) /\
    loop_at p' out 240 r.2 r.1 (drop 240 ub0) /\
    loop_segment p' = nth_segment (arr lags 2) (arr lags 3) (arr gains 2) (arr gains 3) 5.
Proof.
  intros Hs Fu Lu Lo Ps Pu Po Pi r.
  set (R k := run_segments sign inp 0 (segments old oldg lags gains (Z.to_nat k)) (hist, ys)).
  loop_inv (fun k '((q, ol, og) : PitchLoop * Z * Z) => loop_at q out (60 * Z.to_nat k) (R k).2 (R k).1 (drop (60 * Z.to_nat k) ub0) /\
    ol = previous old lags k /\ og = previous oldg gains k /\
    (k = 4 -> loop_segment q = nth_segment (arr lags 2) (arr lags 3) (arr gains 2) (arr gains 3) 5)) q E H; [lia| | |].
  - split_and!; [|done|done|lia]. change (R 0) with (([] : list Z), (hist, ys)). cbn [fst snd]. rewrite drop_0.
    split_and!; [done|done|rewrite Po; apply overwritten_nil|done|done].
  - intros k [[q ol] og] Hk (Hq & -> & -> & _). destruct (previous_ok k) as [H1 H2]; [lia|].
    destruct (segments_ok (Z.to_nat k)) as [Fs Ls]; [lia|].
    destruct (run_segments_state sign inp _ Fs 0 _ _ Hs) as (_ & _ & HS). fold (R k) in HS. rewrite Ls in HS.
    destruct (pitch_subframe_spec sign inp lags gains Hsg Fi Llags Lgains Flags Fgains k q out (60 * Z.to_nat k)
      (R k).2 (R k).1 (drop (60 * Z.to_nat k) ub0) (previous old lags k) (previous oldg gains k))
      as (q' & y & Ey & Eq & Hq' & Sq); [done|done|done|lia|lia|exact Hq| |by apply Forall_drop|rewrite length_drop; lia|].
    { replace (190 + 60 * Z.to_nat k)%nat with (190 + 12 * (5 * Z.to_nat k))%nat by lia. exact HS. }
    exists (q', arr lags k, arr gains k). split; [exact Eq|].
    destruct (run_segments_app sign inp (segments old oldg lags gains (Z.to_nat k))
      (subframe_segments (previous old lags k) (arr lags k) (previous oldg gains k) (arr gains k)) 0 (hist, ys))
      as (r1 & r2 & E1 & E2 & E3). rewrite Ls in E2. fold (R k) in E1. subst r1.
    replace (0 + 12 * Z.of_nat (5 * Z.to_nat k)) with (Z.of_nat (60 * Z.to_nat k)) in E2 by lia.
    rewrite <-Ey in E2. subst r2.
    assert (R (k + 1) = ((R k).1 ++ y.1, y.2)) as ->.
    { rewrite <-E3. unfold R. replace (Z.to_nat (k + 1)) with (S (Z.to_nat k)) by lia. cbn [segments]. by rewrite Z2Nat.id by lia. }
    cbn [fst snd]. rewrite drop_drop in Hq'.
    replace (60 * Z.to_nat (k + 1))%nat with (60 * Z.to_nat k + 60)%nat by lia.
    unfold previous. destruct (Z.eqb_spec (k + 1) 0); [lia|]. replace (k + 1 - 1) with k by lia.
    split_and!; [exact Hq'|done|done|]. intros Hk4. rewrite Sq. unfold previous.
    destruct (Z.eqb_spec k 0); [lia|]. by replace k with 3 by lia.
  - destruct q as [[q ol] og], H as (Hq & -> & -> & Hseg). exists q. split_and!; [exact E|exact Hq|by apply Hseg].
Qed.
End Filter.

(** The filter on a frame. *)
Lemma pitch_filter_spec ub inp (out : list Z) p lags gains (type : Z) : w16 454 ub -> Forall is_i16 inp ->
  (240 + lookahead_length type <= length inp)%nat -> (240 + lookahead_length type <= length out)%nat ->
  pitchfilt_ok p -> length lags = 4%nat -> Forall lag_ok lags ->
  length gains = 4%nat -> Forall (fun g => 0 <= g <= 3000) gains ->
  let g := filter_gains type gains in
  exists out', WebRtcIsacfix_PitchFilter ub inp out p lags gains type
    = Some (out', filtered_state type p lags g inp, g) /\
    overwritten 1 0 ((pitch_run type p lags g inp).1 ++ pitch_lookahead type p lags g inp) out out' /\
    pitchfilt_ok (filtered_state type p lags g inp).
Proof.
  intros [Lub Fub] Fi Li Lo (Hu & Hy & Hol & Hog) Ll Fl Lg Fg g. unfold WebRtcIsacfix_PitchFilter, PITCH_SUBFRAMES. cbv zeta.
  pose proof Hu as [Lu _]. rewrite mem_write_Some, bind_Some by lia. change (Z.to_nat 0) with 0%nat. rewrite take_0, Lu.
  cbn [app Nat.add]. destruct (scale_gains type gains Lg Fg) as (E & Lg' & Fg'). bind_step E. clear E. fold g in Lg', Fg' |- *.
  rewrite !rd_Some, !bind_Some by lia.
  assert (lag_ok (arr lags 0) /\ gain_ok (arr g 0)) as [Hl0 Hg0] by (apply lag_gain; done || lia).
  set (big := big_step (arr lags 0) (oldlagQ7 p)).
  set (old := if big then arr lags 0 else oldlagQ7 p). set (oldg := if big then arr g 0 else oldgainQ12 p).
  assert (lag_ok old) as Hold by (unfold old; by destruct big).
  assert (gain_ok oldg) as Holdg by (unfold oldg; by destruct big).
  assert (-1 <= filter_sign type <= 1) as Hsg by (unfold filter_sign; destruct (type =? 4); lia).
  set (q := {| pl_state := ystateQQ p; pl_ubuf := _; pl_out := _; pl_ind := _; pl_gain := _; pl_lag := _;
               pl_index := _; pl_coef := _ |}).
  destruct (pitch_subframes_spec inp lags g (filter_sign type) old oldg) with (ubufQQ p) (ystateQQ p) (drop 190 ub) out q
    as (p' & E & (Es & Eu & Eo & Lr & Ei) & Hseg);
    [done|done|lia|done|done|done|done|done|done|by split|by apply Forall_drop|rewrite length_drop; lia|lia|done..|].
  change (if type =? 4 then -1 else 1) with (filter_sign type). bind_step E. clear E.
  change (segments old oldg lags g 4) with (start_segments p lags g) in *.
  assert (run_segments (filter_sign type) inp 0 (start_segments p lags g) (ubufQQ p, ystateQQ p) = pitch_run type p lags g inp) as ER by (by unfold pitch_run).
  rewrite ER in *. destruct (segments_ok inp lags g old oldg) with 4%nat as [Fs Ls]; [lia|done|done|done|done|done|done|lia|].
  change (segments old oldg lags g 4) with (start_segments p lags g) in Fs, Ls.
  destruct (run_segments_state (filter_sign type) inp _ Fs 0 190 (ubufQQ p, ystateQQ p)) as (Lrun & Frun & HS); [by split|].
  rewrite ER in *. rewrite Ls in *. change (190 + 12 * (5 * 4))%nat with 430%nat in HS.
  assert (pitchfilt_ok (filtered_state type p lags g inp)) as Hok.
  { destruct (lag_gain lags g Ll Lg' Fl Fg' 3) as [Hl3 Hg3]; [lia|]. destruct HS as [[L1 F1] H2].
    split_and!; [|exact H2|exact Hl3|exact Hg3]. split; [cbn [filtered_state ubufQQ]; rewrite length_drop; lia|by apply Forall_drop]. }
  unfold PITCH_FRAME_LEN, PITCH_BUFFSIZE. unfold filtered_state, pitch_lookahead in *.
  destruct (pitch_run type p lags g inp) as [ro [rh ry] ]. cbn [fst snd] in *. destruct HS as [[Lh Fh] Hys]. cbn [fst snd] in Lh, Fh, Hys.
  rewrite mem_read_Some, bind_Some by (rewrite ?Eu, ?length_app, ?length_drop; lia). rewrite Eu.
  assert (take (Z.to_nat 190) (drop (Z.to_nat 240) (rh ++ drop 240 (drop 190 ub))) = drop 240 rh) as ->.
  { change (Z.to_nat 240) with 240%nat. rewrite drop_app_le by lia. apply take_app_length'. rewrite length_drop. lia. }
  rewrite Es. destruct (Z.eqb_spec type 2) as [->|]; rewrite ?bind_Some.
  - assert (segment_ok (nth_segment (arr lags 2) (arr lags 3) (arr g 2) (arr g 3) 5)) as Hok5.
    { destruct (lag_gain lags g Ll Lg' Fl Fg' 2) as [Hl2 Hg2]; [lia|].
      destruct (lag_gain lags g Ll Lg' Fl Fg' 3) as [Hl3 Hg3]; [lia|].
      pose proof (subframe_segments_ok _ _ _ _ Hl3 Hl2 Hg3 Hg2) as H5. rewrite List.Forall_forall in H5.
      apply H5. unfold subframe_segments, nth_segment. cbn [map In]. tauto. }
    destruct (nth_segment (arr lags 2) (arr lags 3) (arr g 2) (arr g 3) 5) as [[G I] C].
    destruct Hok5 as (HG & HI & HC). cbn [fst snd] in HG, HI, HC |- *. injection Hseg as Eg Ein Ec.
    rewrite Eg, Ein, Ec, Ei. change QLOOKAHEAD with (Z.of_nat 24). change (lookahead_length 2) with 24%nat in *.
    destruct (PitchFilterCore_spec 24 G I 1 C inp 240 rh ry (drop 240 (drop 190 ub)) (pl_out p')) as (out' & E & O);
      [done|done|lia|done|done|lia|destruct Eo as [-> _]; lia|by split|by do 2 apply Forall_drop|rewrite !length_drop; lia|].
    bind_step E. rewrite bind_Some. exists out'. split_and!; [done| |exact Hok].
    apply (overwritten_app _ _ _ (pl_out p')); [exact Eo|]. by rewrite Lr.
  - exists (pl_out p'). rewrite app_nil_r. by split_and!.
Qed.

(** C28: The pitch filter.  From a well-formed filter state, for lags up to 187
    samples and gains up to 0.73, the filter (pre-filter, post-filter or analysis
    with lookahead) stays inside its arrays and never reads a cell of its local
    buffer that it has not written: the result is the scan of one exact,
    rounded and saturated step over the samples, with lag and gain moved in five
    equal steps per subframe, whatever the buffer held.  The new state is the end
    of the history and is well formed again, so frames can follow each other. *)
Theorem pitch_filter_exact ub inp (out : list Z) p lags gains (type : Z) : w16 454 ub -> Forall is_i16 inp ->
  (240 + lookahead_length type <= length inp)%nat -> (240 + lookahead_length type <= length out)%nat ->
  pitchfilt_ok p -> length lags = 4%nat -> Forall lag_ok lags ->
  length gains = 4%nat -> Forall (fun g => 0 <= g <= 3000) gains ->
  let g := filter_gains type gains in
  exists out', WebRtcIsacfix_PitchFilter ub inp out p lags gains type
    = Some (out', filtered_state type p lags g inp, g) /\
    overwritten 1 0 ((pitch_run type p lags g inp).1 ++ pitch_lookahead type p lags g inp) out out' /\
    pitchfilt_ok (filtered_state type p lags g inp).
Proof. apply pitch_filter_spec. Qed.

(** Post-filtering an impulse. *)
Lemma pitch_filter_exact_witness :
  let p := {| ubufQQ := repeat 0 190; ystateQQ := repeat 0 5; oldlagQ7 := 6400; oldgainQ12 := 0 |} in
  let inp := 2000 :: repeat 0 239 in
  exists out p', WebRtcIsacfix_PitchFilter (repeat 7 454) inp (repeat 9 240) p [3200; 3200; 3200; 3200]
      [1000; 1000; 1000; 1000] 4 = Some (out, p', [1299; 1299; 1299; 1299]) /\
    pitchfilt_ok p' /\ oldlagQ7 p' = 3200.
Proof.
  intros p inp.
  destruct (pitch_filter_exact (repeat 7 454) inp (repeat 9 240) p [3200; 3200; 3200; 3200] [1000; 1000; 1000; 1000] 4)
    as (out & E & _ & H);
    [split; [reflexivity|]|..|exists out, (filtered_state 4 p [3200; 3200; 3200; 3200] (filter_gains 4 [1000; 1000; 1000; 1000]) inp);
      split; [exact E|split; [exact H|reflexivity] ] ].
  all: try solve [cbn; lia|reflexivity|repeat constructor; unfold is_i16, lag_ok; lia].
  split_and!; [split; [reflexivity|]|split; [reflexivity|]|..]; cbn; unfold lag_ok, gain_ok; try lia;
    repeat constructor; unfold is_i16; lia.
Defined.

(** ** The gains

    One sample in exact arithmetic, on the two sums, the shift and the history. *)
Record GainSums := { gs_csum : Z; gs_esum : Z; gs_scale : Z; gs_hist : list Z }.

Definition gains_step (index : Z) (coef : list Z) (s : GainSums) (x : Z) : GainSums :=
  let w := zsum (fun j => arr (gs_hist s) (Z.of_nat (length (gs_hist s)) - (index + 4) + j) * arr coef j) 9 in
  let t := WEBRTC_SPL_MUL_16_32_RSFT14 x w in
  let v := (w + 2 ^ 13) / 2 ^ 14 in
  let over := (1073700000 <? t) || (1073700000 <? gs_csum s) || (1073700000 <? v * v) || (1073700000 <? gs_esum s) in
  let scale := if over then gs_scale s + 1 else gs_scale s in
  {| gs_csum := (if over then gs_csum s / 2 else gs_csum s) + t / 2 ^ scale;
     gs_esum := (if over then gs_esum s / 2 else gs_esum s) + v * v / 2 ^ scale;
     gs_scale := scale; gs_hist := gs_hist s ++ [x] |}.

(** The amplitude below which nothing overflows, and the bounds it gives after
    [m] samples of a subframe. *)
Definition small (x : Z) : Prop := -4300 <= x <= 4300.
#[export] Instance small_dec x : Decision (small x).
Proof. unfold small; apply _. Defined.

Definition sums_ok (m : Z) (s : GainSums) : Prop :=
  0 <= gs_scale s <= 3 /\ - (m * 34700000) <= gs_csum s /\ 0 <= gs_esum s /\
  (gs_scale s < 3 -> gs_csum s <= 1140000000 /\ gs_esum s <= 1140000000) /\
  (gs_scale s = 3 -> gs_csum s <= 570000001 + m * 8200000 /\ gs_esum s <= 570000001 + m * 8200000).

Lemma mul_rsft14_bound a b : -4300 <= a <= 4300 -> - 132079000 <= b <= 132079000 ->
  - 34700000 <= WEBRTC_SPL_MUL_16_32_RSFT14 a b <= 34700000.
Proof.
  intros Ha Hb. unfold WEBRTC_SPL_MUL_16_32_RSFT14, WEBRTC_SPL_MUL_16_16, WEBRTC_SPL_MUL_16_U16.
  assert (-2016 <= b ≫ 16 < 2016) as Hh by (apply shiftr_bounds; lia).
  pose proof (shiftr_div b 16 ltac:(lia)) as Eh. pose proof (u16_range b) as Hu. unfold is_u16 in Hu.
  assert (u16 b = b - 2 ^ 16 * (b ≫ 16)) as Eu by (rewrite Eh; unfold u16; rewrite Z.mod_eq; lia).
  generalize dependent (b ≫ 16). intros h Hh Eh Eu. generalize dependent (u16 b). intros l Hl Eu.
  rewrite (i16_id a), (i16_id h) by (unfold is_i16; lia).
  assert (- 4300 * 2016 <= a * h <= 4300 * 2016) by nia. assert (- 4300 * 2 ^ 16 <= a * l <= 4300 * 2 ^ 16) by nia.
  rewrite (u16_id l) by (unfold is_u16; lia). change (1 ≪ 2) with 4.
  assert (Z.abs (a * b) <= 4300 * 132079000) as Hab by (rewrite Z.abs_mul; apply Z.mul_le_mono_nonneg; lia).
  assert (a * b = 2 ^ 16 * (a * h) + a * l) as Eab by (rewrite <-(Z.add_0_r b) at 1; replace (b + 0) with (2 ^ 16 * h + l) by lia; ring).
  clear Eh Eu Hl. generalize dependent (a * b). generalize dependent (a * l). generalize dependent (a * h).
  intros P HP Q HQ R HR E. rewrite (i32_id P), (i32_id Q) by (unfold is_i32; lia).
  rewrite (i32_id (P * 4)) by (unfold is_i32; lia). rewrite (shiftr_div Q), shiftr_div by lia.
  rewrite (i32_id (Q / 2 ^ 1 + _)) by (unfold is_i32; Z.div_mod_to_equations; lia).
  rewrite i32_id by (unfold is_i32; Z.div_mod_to_equations; lia). Z.div_mod_to_equations. lia.
Qed.

(** The loop variables of the code and the exact sums. *)
Definition gains_at (g : GainLoop) (s : GainSums) (tail : list Z) (ind : nat) : Prop :=
  gl_csum g = gs_csum s /\ gl_esum g = gs_esum s /\ gl_scale g = gs_scale s /\
  gl_ubuf g = gs_hist s ++ tail /\ gl_ind g = Z.of_nat ind /\
  length (gs_hist s) = (190 + ind)%nat /\ Forall small (gs_hist s).

Lemma interp_bound index coef hist : coef_ok coef -> Forall small hist ->
  Z.abs (zsum (fun j => arr hist (Z.of_nat (length hist) - (index + 4) + j) * arr coef j) 9) <= 132078800.
Proof.
  intros (L & _ & A) F.
  pose proof (abs_sum_weighted coef 4300 (fun j => arr hist (Z.of_nat (length hist) - (index + 4) + j)) 9) as H.
  transitivity (4300 * abs_sum coef); [|lia]. apply H; [|lia]. intros j.
  exact (arr_Forall small hist _ ltac:(unfold small; lia) F).
Qed.

(** The shift [t >> scale] of a term of bounded size. *)
Lemma scaled_term t B scale : - B <= t <= B -> 0 <= scale -> - B <= t / 2 ^ scale <= B.
Proof.
  intros Ht Hs. assert (1 <= 2 ^ scale) by (apply (Z.pow_le_mono_r 2 0); lia). split.
  - apply Z.div_le_lower_bound; [lia|]. nia.
  - transitivity (B / 2 ^ scale); [apply Z.div_le_mono; lia|]. apply Z.div_le_upper_bound; nia.
Qed.

Lemma sums_step m s (index x t v : Z) : 0 <= m < 60 -> sums_ok m s -> - 34700000 <= t <= 34700000 -> -8063 <= v <= 8063 ->
  let over := (1073700000 <? t) || (1073700000 <? gs_csum s) || (1073700000 <? v * v) || (1073700000 <? gs_esum s) in
  let scale := if over then gs_scale s + 1 else gs_scale s in
  sums_ok (m + 1) {| gs_csum := (if over then gs_csum s / 2 else gs_csum s) + t / 2 ^ scale;
                     gs_esum := (if over then gs_esum s / 2 else gs_esum s) + v * v / 2 ^ scale;
                     gs_scale := scale; gs_hist := gs_hist s ++ [x] |}.
Proof.
  intros Hm (Hs & Hc & He & H1 & H2) Ht Hv over scale. assert (0 <= v * v <= 65100000) as Hvv by nia.
  pose proof (scaled_term t 34700000 scale Ht) as T1.
  assert (0 <= scale -> 0 <= v * v / 2 ^ scale <= 65100000) as T2.
  { intros. split; [apply Z.div_pos; [lia|apply Z.pow_pos_nonneg; lia]|]. apply (scaled_term (v * v) 65100000); lia. }
  assert (scale = 3 -> t / 2 ^ scale <= 8200000 /\ v * v / 2 ^ scale <= 8200000) as T3.
  { intros ->. change (2 ^ 3) with 8. Z.div_mod_to_equations. lia. }
  unfold sums_ok. cbn [gs_scale gs_csum gs_esum].
  assert (over = true <-> 1073700000 < gs_csum s \/ 1073700000 < gs_esum s) as Ho.
  { unfold over. rewrite !orb_true_iff, !Z.ltb_lt. lia. }
  assert (gs_scale s = 3 -> over = false) as H3 by (intros E; apply not_true_is_false; rewrite Ho; lia).
  assert (0 <= scale) as Hsc by (unfold scale; destruct over; lia). specialize (T1 Hsc). specialize (T2 Hsc).
  assert (Z.min (gs_csum s) 0 <= gs_csum s / 2 <= Z.max 0 (gs_csum s / 2)) by (Z.div_mod_to_equations; lia).
  assert (0 <= gs_esum s / 2) by (apply Z.div_pos; lia).
  assert (gs_scale s < 3 -> gs_csum s / 2 <= 570000000 /\ gs_esum s / 2 <= 570000000) by (Z.div_mod_to_equations; lia).
  generalize dependent (t / 2 ^ scale). intros q1 T1 T3. generalize dependent (v * v / 2 ^ scale). intros q2 T3 T2.
  generalize dependent (gs_csum s / 2). intros c2 Hc2 Hd. generalize dependent (gs_esum s / 2). intros e2 He2 Hd.
  assert (over = false -> gs_csum s <= 1073700000 /\ gs_esum s <= 1073700000) as Hf.
  { intros E. rewrite E in Ho. destruct (Z_lt_le_dec 1073700000 (gs_csum s)); [destruct Ho as [_ Ho]; discriminate Ho; lia|].
    destruct (Z_lt_le_dec 1073700000 (gs_esum s)); [destruct Ho as [_ Ho]; discriminate Ho; lia|lia]. }
  clear Ho. destruct over; unfold scale in *.
  - assert (gs_scale s < 3) by (destruct (decide (gs_scale s = 3)); [discriminate H3; done|lia]).
    split_and!; try lia; intros; split_and!; lia.
  - destruct Hf as [Hf1 Hf2]; [done|]. split_and!; try lia; intros; split_and!; lia.
Qed.

Lemma square_bound w : Z.abs w <= 132078800 -> -8063 <= (w + 2 ^ 13) / 2 ^ 14 <= 8063.
Proof. intros H. Z.div_mod_to_equations. lia. Qed.

(** A sample of the code is an exact step. *)
Lemma gains_sample_spec inp coef index g s tail (ind : nat) m : 10 <= index <= 185 -> coef_ok coef ->
  Forall small inp -> (ind < 240 <= length inp)%nat -> Forall is_i16 tail -> (0 < length tail)%nat -> 0 <= m < 60 ->
  sums_ok m s -> gains_at g s tail ind ->
  exists g', gains_sample inp coef index g = Some g' /\
    gains_at g' (gains_step index coef s (arr inp (Z.of_nat ind))) (drop 1 tail) (S ind) /\
    sums_ok (m + 1) (gains_step index coef s (arr inp (Z.of_nat ind))).
Proof.
  intros Hi Hc Fi Hin Ft Lt Hm Hs (Ec & Ee & Es & Eu & En & Lh & Fh). unfold gains_sample.
  rewrite Ec, Ee, Es, Eu, En. unfold PITCH_BUFFSIZE, PITCH_FRACORDER.
  rewrite (u64_id (index + 4)), u64_id by (unfold is_u64; lia).
  destruct (dot_product_exact 9 (gs_hist s ++ tail) (Z.of_nat ind + 190 - (index + 4)) coef) as [E _];
    [|lia|lia|rewrite length_app; lia|destruct Hc as [-> _]; lia|apply Hc|destruct Hc as (_ & _ & Hc); lia|].
  { apply Forall_app. split; [|done]. revert Fh. apply List.Forall_impl. unfold small, is_i16. lia. }
  bind_step E. clear E. change (Z.to_nat 9) with 9%nat. unfold gains_step.
  rewrite (zsum_ext _ (fun j => arr (gs_hist s) (Z.of_nat (length (gs_hist s)) - (index + 4) + j) * arr coef j));
    [|intros j Hj; rewrite arr_cat_l by lia; do 2 f_equal; lia].
  pose proof (interp_bound index coef (gs_hist s) Hc Fh) as Hw.
  generalize dependent (zsum (fun j => arr (gs_hist s) (Z.of_nat (length (gs_hist s)) - (index + 4) + j) * arr coef j) 9).
  intros w Hw. rewrite rd_Some, bind_Some by lia.
  assert (small (arr inp (Z.of_nat ind))) as Hx by (apply arr_Forall; [unfold small; lia|done]).
  generalize dependent (arr inp (Z.of_nat ind)). intros x Hx.
  rewrite wr_Some, bind_Some by (rewrite length_app; lia). cbv zeta.
  pose proof (square_bound w Hw) as Hv. pose proof (mul_rsft14_bound x w Hx ltac:(lia)) as Ht.
  rewrite (i32_id (w + 8192)), shiftr_div by (unfold is_i32; lia). change 8192 with (2 ^ 13).
  generalize dependent (WEBRTC_SPL_MUL_16_32_RSFT14 x w). intros t Ht.
  generalize dependent ((w + 2 ^ 13) / 2 ^ 14). intros v Hv. rewrite (i16_id v) by (unfold is_i16; lia).
  assert (0 <= v * v <= 65100000) as Hvv by nia. rewrite (i32_id (v * v)) by (unfold is_i32; lia).
  pose proof (sums_step m s index x t v Hm Hs Ht Hv) as Hs'. cbv zeta in Hs'.
  destruct Hs as (Hsc & _).
  set (over := (1073700000 <? t) || _ || _ || _) in *.
  rewrite (i16_id (gs_scale s + 1)) by (unfold is_i16; lia).
  set (scale := if over then gs_scale s + 1 else gs_scale s) in *.
  assert (0 <= scale <= 3) as Hscale by (apply Hs').
  rewrite (proj2 (Z.ltb_ge 31 scale)) by lia. rewrite !shiftr_div by lia.
  eexists; split; [reflexivity|]. split; [|exact Hs'].
  destruct Hs' as (_ & B1 & B2 & B3 & B4). cbn [gs_csum gs_esum gs_scale] in *.
  split_and!; cbn [gl_csum gl_esum gl_scale gl_ubuf gl_ind gs_csum gs_esum gs_scale gs_hist].
  - apply i32_id. unfold is_i32. destruct (decide (scale = 3)); [specialize (B4 ltac:(done))|specialize (B3 ltac:(lia))]; lia.
  - apply i32_id. unfold is_i32. destruct (decide (scale = 3)); [specialize (B4 ltac:(done))|specialize (B3 ltac:(lia))]; lia.
  - done.
  - unfold upd. replace (Z.to_nat (Z.of_nat ind + 190)) with (length (gs_hist s) + 0)%nat by lia.
    rewrite insert_app_r. destruct tail as [|y tail]; [cbn in Lt; lia|]. cbn. by rewrite <-app_assoc.
  - lia.
  - rewrite length_app. cbn [length]. lia.
  - apply Forall_app. split; [done|by constructor].
Qed.

(** The sums after a segment of 12 samples, a subframe, and all subframes. *)
Definition gains_segment_sums (inp : list Z) (ind lag : Z) (s : GainSums) : GainSums :=
  let index := CalcLrIntQ lag 7 in
  fold_left (gains_step index (gains_fraction index lag)) (strided 1 ind 12 inp) s.
Fixpoint gains_segments_sums (inp : list Z) (ind old delta : Z) (n : nat) (s : GainSums) : GainSums :=
  match n with
  | O => s
  | S n => gains_segment_sums inp (ind + 12 * Z.of_nat n) (old + Z.of_nat (S n) * delta)
             (gains_segments_sums inp ind old delta n s)
  end.
Definition gains_subframe_sums (inp : list Z) (ind old lag scale : Z) (hist : list Z) : GainSums :=
  gains_segments_sums inp ind old (lag_delta lag old) 5
    {| gs_csum := 1; gs_esum := 1; gs_scale := scale; gs_hist := hist |}.
(** The gains of the first [n] subframes, the shift and the history. *)
Fixpoint gains_run (inp lags : list Z) (old : Z) (hist : list Z) (n : nat) : list Z * Z * list Z :=
  match n with
  | O => ([], 0, hist)
  | S n => let r := gains_run inp lags old hist n in
      let k := Z.of_nat n in
      let s := gains_subframe_sums inp (60 * k) (previous old lags k) (arr lags k) r.1.2 r.2 in
      (r.1.1 ++ [gain_of_sums (gs_csum s) (gs_esum s)], gs_scale s, gs_hist s)
  end.

Definition gains_lag_ok (lag : Z) : Prop := 1280 <= lag <= 23680.

Lemma gains_fraction_ok ind lag : coef_ok (gains_fraction ind lag).
Proof.
  unfold gains_fraction. generalize (u64 (u64 (ind ≪ 7) + 64) - u64 lag). intros z.
  assert (0 <= u64 z ≫ 4) by (rewrite shiftr_div by lia; apply Z.div_pos; [apply Z.mod_pos_bound; lia|lia]).
  generalize dependent (u64 z ≫ 4). intros q Hq. cbv zeta.
  unfold PITCH_FRACS. apply kIntrpCoef_ok. destruct (Z.leb_spec 8 q); lia.
Qed.

Lemma gains_index_range lag : 1270 <= lag <= 23690 -> 10 <= CalcLrIntQ lag 7 <= 185.
Proof.
  intros H. unfold CalcLrIntQ. change (i32 (1 ≪ (7 - 1))) with 64. rewrite (i32_id (lag + 64)) by (unfold is_i32; lia).
  assert (10 <= (lag + 64) ≫ 7 < 186) by (apply shiftr_bounds; lia).
  rewrite u64_id by (unfold is_u64; lia). lia.
Qed.

Section Gains.
Context (inp : list Z) (Fi : Forall small inp) (Li : (240 <= length inp)%nat).

Lemma gains_segment_spec g s tail (ind : nat) m lag delta : 1270 <= lag + delta <= 23690 ->
  (ind + 12 <= 240)%nat -> Forall is_i16 tail -> (12 <= length tail)%nat -> 0 <= m <= 48 ->
  sums_ok m s -> gains_at g s tail ind ->
  exists g', gains_segment inp delta (g, lag) = Some (g', lag + delta) /\
    gains_at g' (gains_segment_sums inp (Z.of_nat ind) (lag + delta) s) (drop 12 tail) (ind + 12) /\
    sums_ok (m + 12) (gains_segment_sums inp (Z.of_nat ind) (lag + delta) s).
Proof.
  intros Hlag Hind Ft Lt Hm Hs Hg. unfold gains_segment, gains_segment_sums.
  rewrite (i16_id (lag + delta)) by (unfold is_i16; lia). cbv zeta.
  pose proof (gains_fraction_ok (CalcLrIntQ (lag + delta) 7) (lag + delta)) as Hc.
  pose proof (gains_index_range _ Hlag) as Hi.
  generalize dependent (gains_fraction (CalcLrIntQ (lag + delta) 7) (lag + delta)). intros C HC.
  generalize dependent (CalcLrIntQ (lag + delta) 7). intros I HI.
  change (Z.quot PITCH_SUBFRAME_LEN kSegments) with 12.
  set (R j := fold_left (gains_step I C) (strided 1 (Z.of_nat ind) (Z.to_nat j) inp) s).
  loop_inv (fun j q => gains_at q (R j) (drop (Z.to_nat j) tail) (ind + Z.to_nat j) /\ sums_ok (m + j) (R j)) q E H;
    [lia| | |].
  - rewrite Nat.add_0_r, drop_0, Z.add_0_r. split; [exact Hg|exact Hs].
  - intros j q Hj [Hq Hsq].
    destruct (gains_sample_spec inp C I q (R j) (drop (Z.to_nat j) tail) (ind + Z.to_nat j) (m + j))
      as (q' & Eq & Hq' & Hs'); [done|done|done|lia|by apply Forall_drop|rewrite length_drop; lia|lia|done|done|].
    exists q'. split; [exact Eq|].
    assert (R (j + 1) = gains_step I C (R j) (arr inp (Z.of_nat (ind + Z.to_nat j)))) as ->.
    { unfold R. replace (Z.to_nat (j + 1)) with (S (Z.to_nat j)) by lia. rewrite strided_snoc, fold_left_app.
      cbn [fold_left]. do 2 f_equal. lia. }
    rewrite drop_drop in Hq'. replace (Z.to_nat (j + 1)) with (Z.to_nat j + 1)%nat by lia.
    replace (ind + (Z.to_nat j + 1))%nat with (S (ind + Z.to_nat j)) by lia.
    by replace (m + (j + 1)) with (m + j + 1) by lia.
  - destruct H as [Hq Hsq]. bind_step E. exists q. by split.
Qed.

Lemma gains_subframe_spec k g old hist tail lag : 0 <= k < 4 -> gains_lag_ok old -> gains_lag_ok lag ->
  Forall is_i16 tail -> (60 <= length tail)%nat ->
  gl_ubuf g = hist ++ tail -> gl_ind g = 60 * k -> length hist = (190 + 60 * Z.to_nat k)%nat ->
  Forall small hist -> 0 <= gl_scale g <= 3 ->
  let s := gains_subframe_sums inp (60 * k) old lag (gl_scale g) hist in
  exists g', for_opt 5 (fun _ => gains_segment inp (lag_delta lag old))
      ({| gl_csum := 1; gl_esum := 1; gl_scale := gl_scale g; gl_ubuf := gl_ubuf g; gl_ind := gl_ind g |}, old)
    = Some (g', old + 5 * lag_delta lag old) /\
    gains_at g' s (drop 60 tail) (60 * Z.to_nat k + 60) /\ sums_ok 60 s.
Proof.
  intros Hk Ho Hl Ft Lt Eu Ei Lh Fh Hsc s.
  set (S0 := {| gs_csum := 1; gs_esum := 1; gs_scale := gl_scale g; gs_hist := hist |}).
  set (R c := gains_segments_sums inp (60 * k) old (lag_delta lag old) (Z.to_nat c) S0).
  loop_inv (fun c '((q, l) : GainLoop * Z) => l = old + c * lag_delta lag old /\
    gains_at q (R c) (drop (12 * Z.to_nat c) tail) (60 * Z.to_nat k + 12 * Z.to_nat c) /\ sums_ok (12 * c) (R c)) q E H;
    [lia| | |].
  - change (R 0) with S0. split_and!; [lia| |].
    + rewrite Eu, Ei, drop_0. unfold gains_at. cbn [gl_csum gl_esum gl_scale gl_ubuf gl_ind gs_csum gs_esum gs_scale gs_hist S0].
      split_and!; [done|done|done|done|lia|lia|done].
    + unfold sums_ok. cbn [gs_csum gs_esum gs_scale S0]. lia.
  - intros c [q l] Hc (-> & Hq & Hs). unfold gains_lag_ok in *.
    assert (1270 <= old + (c + 1) * lag_delta lag old <= 23690) as Hr.
    { destruct (interpolated_range (c + 1) lag old 0 0) as [Hr _]; unfold lag_ok, gain_ok; lia. }
    destruct (gains_segment_spec q (R c) (drop (12 * Z.to_nat c) tail) (60 * Z.to_nat k + 12 * Z.to_nat c) (12 * c)
      (old + c * lag_delta lag old) (lag_delta lag old)) as (q' & Eq & Hq' & Hs');
      [lia|lia|by apply Forall_drop|rewrite length_drop; lia|lia|done|done|].
    replace (old + c * lag_delta lag old + lag_delta lag old) with (old + (c + 1) * lag_delta lag old) in * by lia.
    eexists; split; [exact Eq|]. cbv beta iota.
    assert (R (c + 1) = gains_segment_sums inp (Z.of_nat (60 * Z.to_nat k + 12 * Z.to_nat c)) (old + (c + 1) * lag_delta lag old) (R c)) as ->.
    { unfold R. replace (Z.to_nat (c + 1)) with (S (Z.to_nat c)) by lia. cbn [gains_segments_sums].
      replace (Z.of_nat (S (Z.to_nat c))) with (c + 1) by lia. f_equal. lia. }
    rewrite drop_drop in Hq'. replace (12 * Z.to_nat (c + 1))%nat with (12 * Z.to_nat c + 12)%nat by lia.
    rewrite Nat.add_assoc. replace (12 * (c + 1)) with (12 * c + 12) by lia. by split_and!.
  - destruct q as [q l], H as (-> & Hq & Hs). exists q. by split_and!.
Qed.
End Gains.

Lemma gain_of_sums_range c e : 0 <= gain_of_sums c e <= 1843.
Proof.
  unfold gain_of_sums, WEBRTC_SPL_SAT, PITCH_MAX_GAIN_Q12.
  generalize (if c <? e then WebRtcSpl_DivResultInQ31 c e ≫ 20 else 4096). intros t.
  destruct (Z.ltb_spec 1843 t); [rewrite i16_id; unfold is_i16; lia|].
  destruct (Z.ltb_spec t 0); rewrite i16_id; unfold is_i16; lia.
Qed.

(** The history grows by the input. *)
Lemma strided_join ind n m l : strided 1 ind n l ++ strided 1 (ind + Z.of_nat n) m l = strided 1 ind (n + m) l.
Proof.
  apply list_arr; [by rewrite length_app, !length_strided|]. rewrite length_app, !length_strided. intros k Hk.
  rewrite arr_strided by lia. destruct (decide (k < Z.of_nat n)).
  - rewrite arr_cat_l by (rewrite length_strided; lia). by rewrite arr_strided by lia.
  - rewrite arr_cat_r by (rewrite length_strided; lia). rewrite length_strided, arr_strided by lia. f_equal. lia.
Qed.

Lemma gains_fold_hist I C xs : forall s, gs_hist (fold_left (gains_step I C) xs s) = gs_hist s ++ xs.
Proof.
  induction xs as [|x xs IH]; intros s; cbn [fold_left]; [by rewrite app_nil_r|].
  rewrite IH. unfold gains_step. cbn [gs_hist]. by rewrite <-app_assoc.
Qed.

Lemma gains_segments_hist inp ind old delta n s :
  gs_hist (gains_segments_sums inp ind old delta n s) = gs_hist s ++ strided 1 ind (12 * n) inp.
Proof.
  induction n as [|n IH]; cbn [gains_segments_sums]; [by rewrite app_nil_r|].
  unfold gains_segment_sums. rewrite gains_fold_hist, IH, <-app_assoc. f_equal.
  replace (12 * S n)%nat with (12 * n + 12)%nat by lia. rewrite <-strided_join. do 2 f_equal. lia.
Qed.

Lemma gains_run_hist inp lags old hist n : (gains_run inp lags old hist n).2 = hist ++ strided 1 0 (60 * n) inp.
Proof.
  induction n as [|n IH]; [by rewrite app_nil_r|]. cbn [gains_run snd]. unfold gains_subframe_sums.
  rewrite gains_segments_hist. cbn [gs_hist]. rewrite IH, <-app_assoc. f_equal.
  replace (60 * S n)%nat with (60 * n + 60)%nat by lia. rewrite <-strided_join. do 2 f_equal. lia.
Qed.

Lemma gains_run_gains inp lags old hist n : length (gains_run inp lags old hist n).1.1 = n /\
  Forall (fun g => 0 <= g <= 1843) (gains_run inp lags old hist n).1.1.
Proof.
  induction n as [|n [IH1 IH2] ]; [by split|]. cbn [gains_run fst].
  rewrite length_app, IH1. cbn [length]. split; [lia|]. apply Forall_app. split; [done|].
  constructor; [apply gain_of_sums_range|constructor].
Qed.

(** The gain search on a frame. *)
Lemma pitch_gains_spec ub inp p lags gains : w16 430 ub -> Forall small inp -> (240 <= length inp)%nat ->
  length (ubufQQ p) = 190%nat -> Forall small (ubufQQ p) -> gains_lag_ok (oldlagQ7 p) ->
  length lags = 4%nat -> Forall gains_lag_ok lags -> length gains = 4%nat ->
  let old := if big_step (arr lags 0) (oldlagQ7 p) then arr lags 0 else oldlagQ7 p in
  let gs := (gains_run inp lags old (ubufQQ p) 4).1.1 in
  WebRtcIsacfix_PitchFilterGains ub inp p lags gains
  = Some ({| ubufQQ := drop 240 (ubufQQ p ++ strided 1 0 240 inp); ystateQQ := ystateQQ p;
             oldlagQ7 := arr lags 3; oldgainQ12 := arr gs 3 |}, gs) /\
  length gs = 4%nat /\ Forall (fun g => 0 <= g <= 1843) gs /\
  0 <= (gains_run inp lags old (ubufQQ p) 4).1.2 <= 3.
Proof.
  intros [Lub Fub] Fi Li Lu Fu Hol Ll Fl Lg old gs. unfold WebRtcIsacfix_PitchFilterGains, PITCH_SUBFRAMES. cbv zeta.
  rewrite mem_write_Some, bind_Some by lia. change (Z.to_nat 0) with 0%nat. rewrite take_0, Lu. cbn [app Nat.add].
  rewrite (rd_Some lags 0), bind_Some by lia. fold old.
  assert (forall k, 0 <= k < 4 -> gains_lag_ok (arr lags k)) as Hlag.
  { intros k Hk. rewrite List.Forall_forall in Fl. apply Fl, nth_In. lia. }
  assert (gains_lag_ok old) as Hold by (unfold old; destruct (big_step _ _); [apply Hlag; lia|done]).
  set (R k := gains_run inp lags old (ubufQQ p) (Z.to_nat k)).
  assert (forall k, length (R k).1.1 = Z.to_nat k /\ Forall (fun g => 0 <= g <= 1843) (R k).1.1) as HR
    by (intros k; apply gains_run_gains).
  loop_inv (fun k '((g, ol, gn) : GainLoop * Z * list Z) => ol = previous old lags k /\ gl_scale g = (R k).1.2 /\
    0 <= (R k).1.2 <= 3 /\ gl_ubuf g = (R k).2 ++ drop (60 * Z.to_nat k) (drop 190 ub) /\ gl_ind g = 60 * k /\
    Forall small (R k).2 /\ overwritten 1 0 (R k).1.1 gains gn) q E H; [lia| | |].
  - change (R 0) with (([] : list Z), 0, ubufQQ p). cbn [fst snd gl_scale gl_ubuf gl_ind]. rewrite drop_0.
    split_and!; try done; try lia. apply overwritten_nil.
  - intros k [[g ol] gn] Hk (-> & Es & Hsc & Eu & Ei & Fh & O). unfold gains_subframe.
    rewrite (rd_Some lags), bind_Some by lia. assert (length (R k).2 = (190 + 60 * Z.to_nat k)%nat) as Lh.
    { unfold R. rewrite gains_run_hist, length_app, length_strided. lia. }
    assert (gains_lag_ok (previous old lags k)) as Hp.
    { unfold previous. destruct (Z.eqb_spec k 0); [done|apply Hlag; lia]. }
    destruct (gains_subframe_spec inp Fi Li k g (previous old lags k) (R k).2 (drop (60 * Z.to_nat k) (drop 190 ub)) (arr lags k))
      as (g' & Eg & Hg' & Hs'); [done|done|by apply Hlag|by do 2 apply Forall_drop|rewrite !length_drop; lia|done|done|done|done|by rewrite Es|].
    unfold kSegments. bind_step Eg. clear Eg. rewrite Es in *.
    assert (R (k + 1) = ((R k).1.1 ++ [gain_of_sums (gl_csum g') (gl_esum g')], gl_scale g', 
      gs_hist (gains_subframe_sums inp (60 * k) (previous old lags k) (arr lags k) (R k).1.2 (R k).2))) as ->.
    { destruct Hg' as (-> & -> & -> & _). unfold R. replace (Z.to_nat (k + 1)) with (S (Z.to_nat k)) by lia.
      cbn [gains_run]. by rewrite Z2Nat.id by lia. }
    destruct (HR k) as [LR _]. destruct Hg' as (_ & _ & Esc & Eub & Ein & Lh' & Fh').
    assert (length gn = length gains) as Lgn by apply O.
    rewrite wr_Some, bind_Some by lia. eexists; split; [reflexivity|]. cbv beta iota. cbn [fst snd].
    rewrite drop_drop in Eub. replace (60 * Z.to_nat (k + 1))%nat with (60 * Z.to_nat k + 60)%nat by lia.
    split_and!; [|done|rewrite Esc; apply Hs'|rewrite Esc; apply Hs'|done|lia|done|].
    + unfold previous. destruct (Z.eqb_spec (k + 1) 0); [lia|]. f_equal. lia.
    + pose proof (overwritten_snoc 1 0 (R k).1.1 (gain_of_sums (gl_csum g') (gl_esum g')) gains gn) as Ho.
      rewrite LR in Ho. replace (0 + 1 * Z.of_nat (Z.to_nat k)) with k in Ho by lia. apply Ho; [lia|lia|done|lia].
  - destruct q as [[g ol] gn], H as (-> & _ & Hsc & Eu & _ & _ & O). bind_step E. destruct (HR 4) as [L4 F4].
    change (R 4) with (gains_run inp lags old (ubufQQ p) 4) in *. fold gs in L4, F4, O.
    apply overwritten_whole in O; [|rewrite L4; lia]. subst gn.
    rewrite gains_run_hist in Eu. change (60 * 4)%nat with 240%nat in Eu. unfold PITCH_FRAME_LEN, PITCH_BUFFSIZE.
    rewrite mem_read_Some, bind_Some by (rewrite ?Eu, ?length_app, ?length_strided, ?length_drop; lia). rewrite Eu.
    rewrite (rd_Some lags), bind_Some, (rd_Some gs), bind_Some by lia. split; [|exact (conj L4 (conj F4 Hsc))].
    do 3 f_equal. change (Z.to_nat 240) with 240%nat. rewrite drop_app_le by (rewrite length_app, length_strided; lia).
    apply take_app_length'. rewrite length_drop, length_app, length_strided. lia.
Qed.

(** C29: The pitch gains.  For samples of at most 4300 in magnitude and lags
    between 10 and 185 samples, the gain search stays inside its arrays and reads
    only what it has written; neither sum overflows, so the gains are those of the
    exact sums, which are kept shifted by at most 3 bits; they lie between 0 and
    0.45, and the history takes in the 240 samples. *)
Theorem pitch_gains_exact ub inp p lags gains : w16 430 ub -> Forall small inp -> (240 <= length inp)%nat ->
  length (ubufQQ p) = 190%nat -> Forall small (ubufQQ p) -> gains_lag_ok (oldlagQ7 p) ->
  length lags = 4%nat -> Forall gains_lag_ok lags -> length gains = 4%nat ->
  let old := if big_step (arr lags 0) (oldlagQ7 p) then arr lags 0 else oldlagQ7 p in
  let gs := (gains_run inp lags old (ubufQQ p) 4).1.1 in
  WebRtcIsacfix_PitchFilterGains ub inp p lags gains
  = Some ({| ubufQQ := drop 240 (ubufQQ p ++ strided 1 0 240 inp); ystateQQ := ystateQQ p;
             oldlagQ7 := arr lags 3; oldgainQ12 := arr gs 3 |}, gs) /\
  length gs = 4%nat /\ Forall (fun g => 0 <= g <= 1843) gs /\
  0 <= (gains_run inp lags old (ubufQQ p) 4).1.2 <= 3.
Proof. apply pitch_gains_spec. Qed.

(** A square wave at its own period gets the largest gain. *)
Definition square_wave (a p : Z) (n : nat) : list Z :=
  map (fun k => if k mod p <? p / 2 then a else - a) (seqZ 0 (Z.of_nat n)).
Definition lag50_state (hist : list Z) (lag : Z) : PitchFiltstr :=
  {| ubufQQ := hist; ystateQQ := repeat 0 5; oldlagQ7 := lag; oldgainQ12 := 0 |}.

Lemma pitch_gains_exact_witness :
  let p := lag50_state (square_wave 3000 50 190) 6400 in
  exists p', WebRtcIsacfix_PitchFilterGains (repeat 5 430) (square_wave (-2000) 50 240) p
    [6400; 6400; 6400; 6400] [0; 0; 0; 0] = Some (p', [0; 1843; 1843; 1843]).
Proof.
  intros p. eexists.
  destruct (pitch_gains_exact (repeat 5 430) (square_wave (-2000) 50 240) p [6400; 6400; 6400; 6400] [0; 0; 0; 0])
    as [E _]; [..|rewrite E; vm_compute; reflexivity];
    try solve [reflexivity|cbn; lia|unfold gains_lag_ok; cbn; lia|repeat constructor; unfold gains_lag_ok; lia].
  all: apply (bool_decide_unpack _); vm_compute; exact I.
Defined.

(** Outside the amplitudes of [pitch_gains_exact] the search fails in two ways.
    A full-scale signal of period 4 at a lag of 50.5 samples raises the shift,
    which is not reset between subframes, beyond 31 bits.  A loud onset in
    opposite phase drives the correlation below [- 2^31]: it wraps, and the
    first gain is the largest instead of 0. *)
Theorem pitch_gains_limits :
  WebRtcIsacfix_PitchFilterGains (repeat 5 430)
    (map (fun k => if k mod 4 <? 2 then 32767 else -32768) (seqZ 0 240)) (lag50_state (repeat 0 190) 6464)
    [6464; 6464; 6464; 6464] [0; 0; 0; 0] = None /\
  exists p', WebRtcIsacfix_PitchFilterGains (repeat 5 430) (repeat (-20000) 60 ++ repeat 0 180)
    (lag50_state (repeat 2000 190) 8000) [8000; 8000; 8000; 8000] [0; 0; 0; 0]
    = Some (p', [1843; 0; 0; 1843]) /\
  exists p', WebRtcIsacfix_PitchFilterGains (repeat 5 430) (repeat (-4000) 60 ++ repeat 0 180)
    (lag50_state (repeat 2000 190) 8000) [8000; 8000; 8000; 8000] [0; 0; 0; 0]
    = Some (p', [0; 0; 0; 1843]).
Proof. split; [vm_compute; reflexivity|]. eexists; split; [vm_compute; reflexivity|]. eexists; vm_compute; reflexivity. Qed.
