(* ===== verification/IsacPitchEstimator.v ===== *)
(** The pitch analysis of the fixed-point iSAC encoder:
    [modules/audio_coding/codecs/isac/fix/source/pitch_estimator.c] and the
    portable correlation of [pitch_estimator_c.c].  The lags found lie in the
    range for which the pitch filters are safe, so that analysing frame after
    frame keeps the state well formed.  Local arrays the code does not initialise
    are arguments. *)
From Stdlib Require Import Sorted.
From S2P Require Import Prelude Signal SplInl SplMath SplVec SplFilter IsacPitch IsacState IsacFilters IsacLattice IsacPitchFilter.

(** ** Constants and tables *)

Definition PITCH_MIN_LAG : Z := 20.
Definition PITCH_MIN_LAG_Q8 : Z := 5120.
Definition OFFSET_Q8 : Z := 768.
Definition PITCH_LAG_SPAN2 : Z := 65.

Definition kLogLagWinQ8 : list Z := [-594; -256; -7].
Definition kACoefQ12 : list Z := [4096; -3072; 1024].

(** ** Logarithm, exponential, interpolation *)

Definition WebRtcIsacfix_Log2Q8 (x : Z) : Z :=
  let zeros := WebRtcSpl_NormU32 x in
  let frac := i16 (Z.land (u32 (x ≪ zeros)) 0x7FFFFFFF ≫ 23) in
  i32 (i32 (i32 (31 - zeros) ≪ 8) + frac).

Definition Exp2Q10 (x : Z) : Z :=
  let tmp16_2 := i16 (Z.lor 0x0400 (Z.land x 0x03FF)) in
  let tmp16_1 := i16 (- (x ≫ 10)) in
  if 0 <? tmp16_1 then tmp16_2 ≫ tmp16_1 else i16 (tmp16_2 ≪ (- tmp16_1)).

(** [*y] and [*fy] for the abscissa [x0] and the ordinates [fx0, fx1, fx2]. *)
Definition Intrp1DQ8 (x0 fx0 fx1 fx2 : Z) : Z * Z :=
  if (0 <? fx0) && (0 <? fx2) then
    let r32 := i32 (fx1 - fx2) in
    let q32 := i32 (fx0 - fx1) in
    let nom32 := i32 (q32 + r32) in
    let den32 := i32 (i32 (q32 - r32) * 2) in
    let sign1 := if nom32 <? 0 then -1 else 1 in
    let sign2 := if den32 <? 0 then -1 else 1 in
    let t32 := WebRtcSpl_DivResultInQ31 (i32 (nom32 * sign1)) (i32 (den32 * sign2)) in
    let t16 := i16 (t32 ≫ 23) in
    let t16 := i16 (t16 * sign1 * sign2) in
    let y := i32 (x0 + t16) in
    let tmp16_1 := i16 (t16 * t16) ≫ 2 in
    let t16 := i16 (t16 ≪ 6) in
    let fy := WEBRTC_SPL_MUL_16_32_RSFT15 (i16 (tmp16_1 - t16)) fx0 in
    let fy := i32 (fy + WEBRTC_SPL_MUL_16_32_RSFT14 (i16 (16384 - tmp16_1)) fx1) in
    let fy := i32 (fy + WEBRTC_SPL_MUL_16_32_RSFT15 (i16 (tmp16_1 + t16)) fx2) in
    (y, fy)
  else (x0, fx1).

(** ** The four largest values *)

(** The new [best] and [bestind] for the value [v] at [k]. *)
Definition four_insert (v k : Z) (best bestind : list Z) : list Z * list Z :=
  let b i := arr best i in
  let d i := arr bestind i in
  if b 3 <? v then
    if b 2 <? v then
      if b 1 <? v then
        if b 0 <? v then ([v; b 0; b 1; b 2], [k; d 0; d 1; d 2])
        else ([b 0; v; b 1; b 2], [d 0; k; d 1; d 2])
      else ([b 0; b 1; v; b 2], [d 0; d 1; k; d 2])
    else ([b 0; b 1; b 2; v], [d 0; d 1; d 2; k])
  else (best, bestind).

Definition FindFour32 (inp : list Z) (length : Z) (bestind : list Z) : option (list Z) :=
  '(_, bestind) ← for_opt length (fun k '(best, bestind) =>
    v ← rd inp k; Some (four_insert v k best bestind)) ([-100; -100; -100; -100], bestind);
  Some bestind.

(** ** The correlation (pitch_estimator_c.c) *)

(** [*logcorQ8] from the two sums. *)
Definition log_corr (ysum64 csum32 : Z) : Z :=
  let lys := WebRtcIsacfix_Log2Q8 (u32 ysum64) ≫ 1 in
  if 0 <? csum32 then
    let lcs := WebRtcIsacfix_Log2Q8 (u32 csum32) in
    if i32 (lys + 256) <? lcs then i32 (lcs - lys) else 256
  else 0.

(** [in] is the array [inp] from [base] on; the results go to [logcorQ8] from
    [dst] on, the last lag first. *)
Definition WebRtcIsacfix_PCorr2Q32 (inp : list Z) (base : Z) (logcorQ8 : list Z) (dst : Z)
  : option (list Z) :=
  window ← mem_read inp base PITCH_CORR_LEN2;
  let scaling := WebRtcSpl_GetScalingSquare window PITCH_CORR_LEN2 in
  let x := base + Z.quot PITCH_MAX_LAG 2 + 2 in
  '(ysum64, csum32) ← for_opt PITCH_CORR_LEN2 (fun n '(ysum64, csum32) =>
    a ← rd inp (base + n); b ← rd inp (x + n);
    Some (i64 (ysum64 + (i32 (a * a) ≫ scaling)), i32 (csum32 + (i32 (b * a) ≫ scaling)))) (1, 0);
  logcorQ8 ← wr logcorQ8 (dst + (PITCH_LAG_SPAN2 - 1)) (log_corr ysum64 csum32);
  '(_, logcorQ8) ← for_opt (PITCH_LAG_SPAN2 - 1) (fun j '(ysum64, logcorQ8) =>
    let k := j + 1 in
    a ← rd inp (base + k - 1); b ← rd inp (base + PITCH_CORR_LEN2 + k - 1);
    let ysum64 := i64 (ysum64 - (i32 (a * a) ≫ scaling)) in
    let ysum64 := i64 (ysum64 + (i32 (b * b) ≫ scaling)) in
    csum64_tmp ← for_opt PITCH_CORR_LEN2 (fun n csum64_tmp =>
      a ← rd inp (x + n); b ← rd inp (base + k + n);
      Some (i64 (csum64_tmp + (if scaling =? 0 then i32 (a * b) else i32 (a * b) ≫ scaling)))) 0;
    logcorQ8 ← wr logcorQ8 (dst + (PITCH_LAG_SPAN2 - 1) - k) (log_corr ysum64 (i32 csum64_tmp));
    Some (ysum64, logcorQ8)) (ysum64, logcorQ8);
  Some logcorQ8.

(** ** The first estimate *)

(** The bias of lag [k] towards the old lag. *)
Definition lag_bias (tmp32a gain_bias16 k : Z) : Z :=
  let tmp32b := WebRtcIsacfix_Log2Q8 (u32 (k + (Z.quot PITCH_MIN_LAG 2 - 2))) in
  let tmp16a := i16 (i32 (tmp32b - tmp32a)) in
  let tmp16b := i16 (i32 (tmp16a * tmp16a) ≫ 6) in
  let tmp16c := i16 (i32 (tmp16b * 177) ≫ 8) in
  let tmp16d := Exp2Q10 (i16 (- tmp16c)) in
  let tmp32c := i32 (gain_bias16 * tmp16d) ≫ 13 in
  let bias16 := i16 (1024 + tmp32c) in
  i32 (WebRtcIsacfix_Log2Q8 (u32 bias16) - 2560).

(** Tapers both ends of a correlation that starts at cell 1. *)
Definition taper (cv : list Z) : option (list Z) :=
  for_opt 3 (fun k cv =>
    v ← rd cv (1 + k); cv ← wr cv (1 + k) (i32 (v + arr kLogLagWinQ8 k));
    v ← rd cv (1 + (PITCH_LAG_SPAN2 - 1 - k));
    wr cv (1 + (PITCH_LAG_SPAN2 - 1 - k)) (i32 (v + arr kLogLagWinQ8 k))) cv.

(** The peaks of a zero-padded correlation above a threshold. *)
Definition find_peaks (cv : list Z) (corr_max32 : Z) (peakvq peakiq : list Z)
  : option (list Z * list Z * Z) :=
  for_opt PITCH_LAG_SPAN2 (fun j '(peakvq, peakiq, peaks_indq) =>
    let k := j + 1 in
    corr32 ← rd cv k;
    if corr_max32 <? corr32 then
      before ← rd cv (k - 1); after ← rd cv (k + 1);
      if (before <=? corr32) && (after <? corr32) then
        peakvq ← wr peakvq peaks_indq corr32;
        peakiq ← wr peakiq peaks_indq k;
        Some (peakvq, peakiq, i16 (peaks_indq + 1))
      else Some (peakvq, peakiq, peaks_indq)
    else Some (peakvq, peakiq, peaks_indq)) (peakvq, peakiq, 0).

(** The highest interpolated peak; [slope] biases towards short lags. *)
Definition best_peak (slope : Z) (cv peakiq best4q : list Z) (npkq : Z) : option Z :=
  '(_, best_lag) ← for_opt npkq (fun k '(corr_max32, best_lag) =>
    i ← rd best4q k;
    lag32 ← rd peakiq i;
    fx0 ← rd cv (lag32 - 1); fx1 ← rd cv lag32; fx2 ← rd cv (lag32 + 1);
    let '(y, fy) := Intrp1DQ8 (i32 (lag32 ≪ 8)) fx0 fx1 fx2 in
    let tmp32a := i32 (WebRtcIsacfix_Log2Q8 (u32 y) - 2048) in
    let tmp32b := i32 (i16 tmp32a * slope) ≫ 8 in
    let fy := i32 (fy + i32 (tmp32b + 256)) in
    Some (if corr_max32 <? fy then (fy, y) else (corr_max32, best_lag))) (0, 0);
  Some best_lag.

(** The local arrays of [InitialPitch] (and of the decimator it calls). *)
Record PitchLocals := {
  buf_dec16 : list Z;
  data_vec : list Z;
  cv1q : list Z;
  cv2q : list Z;
  peakvq : list Z;
  peakiq : list Z
}.

Definition set_decimator (s : PitchAnalysisStruct) (dec st : list Z) : PitchAnalysisStruct :=
  {| dec_buffer16 := dec; decimator_state32 := st; inbuf := inbuf s; PFstr_wght := PFstr_wght s; PFstr := PFstr s |}.

(** Decimation and low-pass filtering: the buffer and the new state. *)
Definition pitch_decimate (l : PitchLocals) (inp : list Z) (State : PitchAnalysisStruct)
  : option (list Z * PitchAnalysisStruct) :=
  let start := DEC_BUFFER16_LEN in
  buf ← mem_write (buf_dec16 l) 0 (dec_buffer16 State);
  out ← mem_read buf start (Z.quot PITCH_FRAME_LEN 2);
  '(st, out) ← WebRtcIsacfix_DecimateAllpass32 (data_vec l) inp (decimator_state32 State) PITCH_FRAME_LEN out;
  buf ← mem_write buf start out;
  buf ← WebRtcSpl_FilterARFastQ12 out buf start kACoefQ12 3 (Z.quot PITCH_FRAME_LEN 2);
  dec ← mem_read buf (Z.quot PITCH_FRAME_LEN 2) DEC_BUFFER16_LEN;
  Some (buf, set_decimator State dec st).

(** The two correlations, biased, tapered and zero-padded. *)
Definition pitch_correlations (l : PitchLocals) (buf : list Z) (old_lagQ8 oldgQ12 : Z)
  : option (list Z * list Z) :=
  cv1 ← WebRtcIsacfix_PCorr2Q32 buf 0 (cv1q l) 1;
  cv2 ← WebRtcIsacfix_PCorr2Q32 buf PITCH_CORR_STEP2 (cv2q l) 1;
  let tmp32a := i32 (WebRtcIsacfix_Log2Q8 (u32 old_lagQ8) - 2304) in
  let gain_bias16 := i16 (i32 (oldgQ12 * oldgQ12) ≫ 10) in
  let gain_bias16 := if 3276 <? gain_bias16 then 3276 else gain_bias16 in
  cv1 ← for_opt PITCH_LAG_SPAN2 (fun k cv1 =>
    v ← rd cv1 (1 + k);
    if 0 <? v then wr cv1 (1 + k) (i32 (v + lag_bias tmp32a gain_bias16 k)) else Some cv1) cv1;
  cv1 ← taper cv1; cv2 ← taper cv2;
  cv1 ← wr cv1 0 0; cv2 ← wr cv2 0 0;
  cv1 ← wr cv1 (PITCH_LAG_SPAN2 + 1) 0; cv2 ← wr cv2 (PITCH_LAG_SPAN2 + 1) 0;
  Some (cv1, cv2).

(** The largest value of both correlations. *)
Definition corr_maximum (cv1 cv2 : list Z) : option Z :=
  for_opt PITCH_LAG_SPAN2 (fun j corr_max32 =>
    c1 ← rd cv1 (j + 1); c2 ← rd cv2 (j + 1);
    let corr_max32 := if corr_max32 <? c1 then c1 else corr_max32 in
    let corr32 := i32 (c2 + -4) in
    Some (if corr_max32 <? corr32 then corr32 else corr_max32)) 0.

(** The bias of the second correlation towards a constant pitch. *)
Definition constant_pitch (ratq : Z) (cv2 : list Z) : option (list Z) :=
  for_opt PITCH_LAG_SPAN2 (fun j cv2 =>
    let k := j + 1 in
    let tmp32a := i32 (k ≪ 7) in
    let tmp32b := i32 (i32 (tmp32a * 2) - ratq) in
    let tmp32c := i32 (i16 tmp32b * i16 tmp32b) ≫ 8 in
    let tmp32b := i32 (tmp32c + (ratq ≫ 1)) in
    let tmp32c := i32 (WebRtcIsacfix_Log2Q8 (u32 tmp32a) - 2048) in
    let tmp32d := i32 (WebRtcIsacfix_Log2Q8 (u32 tmp32b) - 2048) in
    let tmp32e := i32 (tmp32c - tmp32d) in
    v ← rd cv2 k; wr cv2 k (i32 (v + (tmp32e ≫ 1)))) cv2.

Definition lag_of_peak (best_lag : Z) : Z := i32 (i32 (i32 (best_lag - OFFSET_Q8) * 2) + PITCH_MIN_LAG_Q8).

Definition WebRtcIsacfix_InitialPitch (l : PitchLocals) (inp : list Z) (State : PitchAnalysisStruct)
    (lagsQ7 : list Z) : option (PitchAnalysisStruct * list Z) :=
  let old_lagQ8 := i32 (oldlagQ7 (PFstr_wght State) ≪ 1) in
  let oldgQ12 := oldgainQ12 (PFstr_wght State) in
  '(buf, State) ← pitch_decimate l inp State;
  '(cv1, cv2) ← pitch_correlations l buf old_lagQ8 oldgQ12;
  corr_max32 ← corr_maximum cv1 cv2;
  let corr_max_o32 := i32 (corr_max32 + -1000) in
  '(pv, pi, peaks_indq) ← find_peaks cv1 corr_max_o32 (peakvq l) (peakiq l);
  '(lag0, best4q) ← (if 0 <? peaks_indq then
      best4q ← FindFour32 pv peaks_indq [0; 0; 0; 0];
      best_lag1q ← best_peak (-42) cv1 pi best4q (Z.min peaks_indq 4);
      Some (lag_of_peak best_lag1q, best4q)
    else Some (old_lagQ8, [0; 0; 0; 0]));
  let ratq := i32 ((i32 (lag0 - PITCH_MIN_LAG_Q8) ≫ 1) + OFFSET_Q8) in
  cv2 ← constant_pitch ratq cv2;
  '(pv, pi, peaks_indq) ← find_peaks cv2 corr_max_o32 pv pi;
  lag2 ← (if 0 <? peaks_indq then
      best4q ← FindFour32 pv peaks_indq best4q;
      best_lag2q ← best_peak (-82) cv2 pi best4q (Z.min peaks_indq 4);
      Some (lag_of_peak best_lag2q)
    else Some lag0);
  lagsQ7 ← wr lagsQ7 0 (i16 (lag0 ≫ 1));
  lagsQ7 ← wr lagsQ7 1 (i16 (lag0 ≫ 1));
  lagsQ7 ← wr lagsQ7 2 (i16 (lag2 ≫ 1));
  lagsQ7 ← wr lagsQ7 3 (i16 (lag2 ≫ 1));
  Some (State, lagsQ7).

(** ** The pitch analysis of a frame *)

(** [ubg], [ubf] and [inbufQ0] are the local buffers of the gain search, of the
    pitch filter and of the function itself.  The new [outQ0], state, lags and
    gains. *)
Definition WebRtcIsacfix_PitchAnalysis (l : PitchLocals) (ubg ubf inbufQ0 inn outQ0 : list Z)
    (State : PitchAnalysisStruct) (PitchLags_Q7 PitchGains_Q12 : list Z)
  : option (list Z * PitchAnalysisStruct * list Z * list Z) :=
  '(State, PitchLags_Q7) ← WebRtcIsacfix_InitialPitch l inn State PitchLags_Q7;
  '(wght, PitchGains_Q12) ← WebRtcIsacfix_PitchFilterGains ubg inn (PFstr_wght State) PitchLags_Q7 PitchGains_Q12;
  head ← mem_read (inbuf State) 0 QLOOKAHEAD;
  inbufQ0 ← mem_write inbufQ0 0 head;
  rest ← mem_read inn 0 PITCH_FRAME_LEN;
  inbufQ0 ← mem_write inbufQ0 QLOOKAHEAD rest;
  '(outQ0, pf, PitchGains_Q12) ← WebRtcIsacfix_PitchFilter ubf inbufQ0 outQ0 (PFstr State) PitchLags_Q7 PitchGains_Q12 2;
  tail ← mem_read inbufQ0 PITCH_FRAME_LEN QLOOKAHEAD;
  ib ← mem_write (inbuf State) 0 tail;
  Some (outQ0, {| dec_buffer16 := dec_buffer16 State; decimator_state32 := decimator_state32 State; inbuf := ib;
                  PFstr_wght := wght; PFstr := pf |}, PitchLags_Q7, PitchGains_Q12).


(** ** The logarithm *)

(** The integer part is the position of the leading bit, the fraction the eight
    bits after it. *)
Lemma Log2Q8_spec x : 0 < x < 2 ^ 32 ->
  WebRtcIsacfix_Log2Q8 x = 256 * Z.log2 x + (x - 2 ^ Z.log2 x) * 256 / 2 ^ Z.log2 x /\
  0 <= (x - 2 ^ Z.log2 x) * 256 / 2 ^ Z.log2 x < 256.
Proof.
  intros Hx. destruct (NormU32_spec x) as (Hn & Hlo & Hhi); [unfold is_u32; lia|lia|].
  unfold WebRtcIsacfix_Log2Q8. set (n := WebRtcSpl_NormU32 x) in *. cbv zeta.
  assert (Z.log2 x = 31 - n) as El.
  { apply Z.log2_unique; [lia|]. assert (2 ^ 31 = 2 ^ (31 - n) * 2 ^ n) as E1 by (rewrite <-Z.pow_add_r by lia; f_equal; lia).
    assert (2 ^ 32 = 2 ^ Z.succ (31 - n) * 2 ^ n) as E2 by (rewrite <-Z.pow_add_r by lia; f_equal; lia).
    assert (0 < 2 ^ n) by (apply Z.pow_pos_nonneg; lia). nia. }
  rewrite El. rewrite !Z.shiftl_mul_pow2 by lia. rewrite (u32_id (x * 2 ^ n)) by (unfold is_u32; lia).
  change 0x7FFFFFFF with (2 ^ 31 - 1). rewrite land_ones_mod by lia.
  assert (2 ^ 31 = 2 ^ (31 - n) * 2 ^ n) as E1 by (rewrite <-Z.pow_add_r by lia; f_equal; lia).
  assert (0 < 2 ^ n) by (apply Z.pow_pos_nonneg; lia). assert (0 < 2 ^ (31 - n)) by (apply Z.pow_pos_nonneg; lia).
  replace ((x * 2 ^ n) mod 2 ^ 31) with ((x - 2 ^ (31 - n)) * 2 ^ n)
    by (apply Z.mod_unique with 1; lia || nia).
  rewrite shiftr_div by lia.
  assert ((x - 2 ^ (31 - n)) * 2 ^ n / 2 ^ 23 = (x - 2 ^ (31 - n)) * 256 / 2 ^ (31 - n)) as ->.
  { rewrite <-(Z.div_mul_cancel_r _ (2 ^ 23) 256) by lia. change (2 ^ 23 * 256) with (2 ^ 31). rewrite E1.
    rewrite <-(Z.div_mul_cancel_r ((x - _) * 256) (2 ^ (31 - n)) (2 ^ n)) by lia. f_equal. lia. }
  assert (0 <= (x - 2 ^ (31 - n)) * 256 / 2 ^ (31 - n) < 256) as Hf.
  { split; [apply Z.div_pos; nia|apply Z.div_lt_upper_bound; nia]. }
  split; [|exact Hf]. rewrite (i16_id _) by (unfold is_i16; lia).
  change (2 ^ 8) with 256. rewrite (i32_id (31 - n)), (i32_id (_ * 256)), i32_id by (unfold is_i32; lia). lia.
Qed.

Lemma Log2Q8_range x : is_u32 x -> 0 <= WebRtcIsacfix_Log2Q8 x <= 8191.
Proof.
  intros Hx. unfold is_u32 in Hx. destruct (decide (x = 0)) as [->|]; [vm_compute; split; discriminate|].
  destruct (Log2Q8_spec x) as [-> Hf]; [lia|]. assert (Z.log2 x < 32) by (apply Z.log2_lt_pow2; lia).
  pose proof (Z.log2_nonneg x). lia.
Qed.

(** It is monotone. *)
Lemma Log2Q8_mono x y : 0 < x <= y -> y < 2 ^ 32 -> WebRtcIsacfix_Log2Q8 x <= WebRtcIsacfix_Log2Q8 y.
Proof.
  intros Hx Hy. destruct (Log2Q8_spec x) as [-> Fx]; [lia|]. destruct (Log2Q8_spec y) as [-> Fy]; [lia|].
  assert (Z.log2 x <= Z.log2 y) by (apply Z.log2_le_mono; lia).
  destruct (decide (Z.log2 x = Z.log2 y)) as [E|]; [|lia]. rewrite E in *.
  assert (0 < 2 ^ Z.log2 y) by (apply Z.pow_pos_nonneg; [lia|apply Z.log2_nonneg]).
  apply Z.add_le_mono_l, Z.div_le_mono; nia.
Qed.

(** ** The correlation *)

(** Energy of the 60 samples from [k] on, one added, and their product sum with
    the 60 samples from 72 on. *)
Definition corr_energy (w : list Z) (s k : Z) : Z :=
  1 + zsum (fun n => (arr w (k + n) * arr w (k + n)) ≫ s) 60.
Definition corr_cross (w : list Z) (s k : Z) : Z :=
  zsum (fun n => (arr w (72 + n) * arr w (k + n)) ≫ s) 60.
Definition corr_at (w : list Z) (s k : Z) : Z := log_corr (corr_energy w s k) (i32 (corr_cross w s k)).

Lemma corr_at_eq w s k : log_corr (corr_energy w s k) (i32 (corr_cross w s k)) = corr_at w s k.
Proof. unfold corr_at. reflexivity. Qed.

Lemma scaled_product a b s : is_i16 a -> is_i16 b -> 0 <= s -> - 2 ^ 30 <= i32 (a * b) ≫ s <= 2 ^ 30 /\ i32 (a * b) = a * b.
Proof.
  intros Ha Hb Hs. pose proof (mul_i16 a b Ha Hb). rewrite i32_id by (unfold is_i32; lia). split; [|done].
  assert (1 <= 2 ^ s) by (apply Z.pow_pos_nonneg with (a := 2) in Hs; lia).
  assert (- 2 ^ 30 <= (a * b) ≫ s < 2 ^ 30 + 1) by (apply shiftr_bounds; [done|nia]). lia.
Qed.

Lemma zsum_shift f n : zsum (fun i => f (i + 1)) n = zsum f n - f 0 + f (Z.of_nat n).
Proof. pose proof (zsum_head f n) as H. cbn [zsum] in H. lia. Qed.

Lemma zsum_nonneg f n : (forall j, 0 <= j -> 0 <= f j) -> 0 <= zsum f n.
Proof. intros H. induction n as [|n IH]; cbn [zsum]; [lia|]. specialize (H (Z.of_nat n) ltac:(lia)). lia. Qed.

Lemma corr_energy_next w s k :
  corr_energy w s (k + 1) = corr_energy w s k - ((arr w k * arr w k) ≫ s) + ((arr w (60 + k) * arr w (60 + k)) ≫ s).
Proof.
  unfold corr_energy. pose proof (zsum_shift (fun n => (arr w (k + n) * arr w (k + n)) ≫ s) 60) as H.
  cbv beta in H. rewrite Z.add_0_r in H. change (Z.of_nat 60) with 60 in H. rewrite (Z.add_comm 60 k).
  rewrite (zsum_ext (fun n => (arr w (k + 1 + n) * arr w (k + 1 + n)) ≫ s)
    (fun i => (arr w (k + (i + 1)) * arr w (k + (i + 1))) ≫ s)) by (intros i Hi; do 3 f_equal; lia).
  revert H. generalize (zsum (fun i => (arr w (k + (i + 1)) * arr w (k + (i + 1))) ≫ s) 60). intros. lia.
Qed.

Lemma GetScalingSquare_range l times : 0 <= WebRtcSpl_GetScalingSquare l times <= 32.
Proof.
  unfold WebRtcSpl_GetScalingSquare. destruct (GetSizeInBits_spec (u32 times) (u32_range _)) as (Hb & _).
  pose proof (NormW32_range (WEBRTC_SPL_MUL (scaling_smax l) (scaling_smax l)) (i32_range _)).
  destruct (_ =? 0); [lia|]. destruct (Z.ltb_spec (WebRtcSpl_GetSizeInBits (u32 times))
    (WebRtcSpl_NormW32 (WEBRTC_SPL_MUL (scaling_smax l) (scaling_smax l)))); [lia|]. rewrite i16_id by (unfold is_i16; lia). lia.
Qed.

Lemma i32_add_l t a : i32 (i32 t + a) = i32 (t + a).
Proof. cint. Qed.

Section Correlation.
Context (inp : list Z) (base : Z) (Fi : Forall is_i16 inp) (Hb : 0 <= base)
  (Hl : base + 132 <= Z.of_nat (length inp)) (s : Z) (Hs : 0 <= s).
Let w : list Z := drop (Z.to_nat base) inp.

Lemma window_rd k : 0 <= k < 132 -> rd inp (base + k) = Some (arr w k) /\ is_i16 (arr w k).
Proof using Fi Hb Hl.
  intros Hk. split; [|apply arr_Forall; [unfold is_i16; lia|by apply Forall_drop]].
  rewrite rd_Some by lia. f_equal. unfold arr, w. rewrite !nth_lookup, lookup_drop. do 2 f_equal. lia.
Qed.

Lemma term_bound j k : - 2 ^ 30 <= (arr w j * arr w k) ≫ s <= 2 ^ 30 /\ i32 (arr w j * arr w k) = arr w j * arr w k.
Proof using Fi Hs.
  assert (forall i, is_i16 (arr w i)) as H by (intros i; apply arr_Forall; [unfold is_i16; lia|by apply Forall_drop]).
  destruct (scaled_product (arr w j) (arr w k) s (H _) (H _) Hs) as [H1 H2]. rewrite H2 in H1. by split.
Qed.

Lemma partial_sum_bound f n : (n <= 60)%nat -> (forall j, - 2 ^ 30 <= f j <= 2 ^ 30) -> - 2 ^ 36 <= zsum f n <= 2 ^ 36.
Proof. intros Hn Hf. pose proof (zsum_bound f (2 ^ 30) n Hf). lia. Qed.

Lemma first_sums : for_opt 60 (fun n '(ysum64, csum32) =>
    a ← rd inp (base + n); b ← rd inp (base + 72 + n);
    Some (i64 (ysum64 + (i32 (a * a) ≫ s)), i32 (csum32 + (i32 (b * a) ≫ s)))) (1, 0)
  = Some (corr_energy w s 0, i32 (corr_cross w s 0)).
Proof using Fi Hb Hl Hs.
  loop_inv (fun j '((y, c) : Z * Z) => y = 1 + zsum (fun n => (arr w (0 + n) * arr w (0 + n)) ≫ s) (Z.to_nat j) /\
    c = i32 (zsum (fun n => (arr w (72 + n) * arr w (0 + n)) ≫ s) (Z.to_nat j))) r E H; [lia|by split| |].
  - intros j [y c] Hj [-> ->]. destruct (window_rd j) as [-> _]; [lia|]. rewrite bind_Some.
    replace (base + 72 + j) with (base + (72 + j)) by lia. destruct (window_rd (72 + j)) as [-> _]; [lia|]. rewrite bind_Some.
    destruct (term_bound j j) as [T1 ->]. destruct (term_bound (72 + j) j) as [T2 ->]. eexists; split; [reflexivity|].
    cbv beta iota. rewrite !zsum_snoc by lia. cbv beta. rewrite !(Z.add_0_l j). split; [|by rewrite i32_add_l].
    pose proof (partial_sum_bound (fun n => (arr w (0 + n) * arr w (0 + n)) ≫ s) (Z.to_nat j) ltac:(lia)
      ltac:(intros i; apply term_bound)). rewrite i64_id by (unfold is_i64; lia). lia.
  - rewrite E. clear E. destruct r as [y c], H as [-> ->]. unfold corr_energy, corr_cross.
    replace (Z.to_nat 60) with 60%nat by lia. reflexivity.
Qed.

Lemma cross_sum k : 0 <= k <= 64 -> for_opt 60 (fun n csum64_tmp =>
    a ← rd inp (base + 72 + n); b ← rd inp (base + k + n);
    Some (i64 (csum64_tmp + (if s =? 0 then i32 (a * b) else i32 (a * b) ≫ s)))) 0
  = Some (corr_cross w s k).
Proof using Fi Hb Hl Hs.
  intros Hk. loop_inv (fun j c => c = zsum (fun n => (arr w (72 + n) * arr w (k + n)) ≫ s) (Z.to_nat j)) r E H; [lia|done| |].
  - intros j c Hj ->. rewrite <-!Z.add_assoc. destruct (window_rd (72 + j)) as [-> _]; [lia|]. rewrite bind_Some.
    destruct (window_rd (k + j)) as [-> _]; [lia|]. rewrite bind_Some. destruct (term_bound (72 + j) (k + j)) as [T ->].
    eexists; split; [reflexivity|]. rewrite zsum_snoc by lia.
    pose proof (partial_sum_bound (fun n => (arr w (72 + n) * arr w (k + n)) ≫ s) (Z.to_nat j) ltac:(lia)
      ltac:(intros i; apply term_bound)).
    assert ((if s =? 0 then arr w (72 + j) * arr w (k + j) else (arr w (72 + j) * arr w (k + j)) ≫ s)
      = (arr w (72 + j) * arr w (k + j)) ≫ s) as -> by (destruct (Z.eqb_spec s 0) as [->|]; [by rewrite Z.shiftr_0_r|done]).
    rewrite i64_id by (unfold is_i64; lia). done.
  - rewrite E, H. unfold corr_cross. replace (Z.to_nat 60) with 60%nat by lia. reflexivity.
Qed.
End Correlation.

(** The shift the routine takes, from the first 60 samples. *)
Definition corr_scaling (inp : list Z) (base : Z) : Z :=
  WebRtcSpl_GetScalingSquare (take 60 (drop (Z.to_nat base) inp)) 60.
(** All 65 values, the longest lag first. *)
Definition correlation (inp : list Z) (base : Z) : list Z :=
  map (fun k => corr_at (drop (Z.to_nat base) inp) (corr_scaling inp base) (64 - k)) (seqZ 0 65).

Lemma length_correlation inp base : length (correlation inp base) = 65%nat.
Proof. unfold correlation. by rewrite length_map, length_seqZ. Qed.

Lemma arr_tabulate f n k : 0 <= k < n -> arr (map f (seqZ 0 n)) k = f k.
Proof.
  intros Hk. unfold arr. apply nth_lookup_Some. change (map ?f ?l) with (f <$> l).
  rewrite list_lookup_fmap, lookup_seqZ_lt by lia. cbn. f_equal. f_equal. lia.
Qed.

Lemma PCorr2Q32_spec inp base cor dst : Forall is_i16 inp -> 0 <= base -> base + 132 <= Z.of_nat (length inp) ->
  0 <= dst -> dst + 65 <= Z.of_nat (length cor) ->
  exists cor', WebRtcIsacfix_PCorr2Q32 inp base cor dst = Some cor' /\
    overwritten 1 dst (correlation inp base) cor cor'.
Proof.
  intros Fi Hb Hl Hd Hc. unfold WebRtcIsacfix_PCorr2Q32, PITCH_CORR_LEN2, PITCH_LAG_SPAN2.
  rewrite mem_read_Some, bind_Some by lia. cbv zeta. change (Z.to_nat 60) with 60%nat.
  fold (corr_scaling inp base).
  replace (base + Z.quot PITCH_MAX_LAG 2 + 2) with (base + 72) by (change (Z.quot PITCH_MAX_LAG 2) with 70; lia).
  unfold correlation. set (w := drop (Z.to_nat base) inp).
  assert (0 <= corr_scaling inp base) as Hs by apply GetScalingSquare_range.
  set (s := corr_scaling inp base) in *. clearbody s. pose proof (first_sums inp base Fi Hb Hl s Hs) as E1.
  bind_step E1. clear E1. fold w. rewrite corr_at_eq.
  rewrite wr_Some, bind_Some by lia. change (65 - 1) with 64.
  loop_inv (fun j '((y, c) : Z * list Z) => y = corr_energy w s j /\ length c = length cor /\
    (forall k, 0 <= k <= j -> arr c (dst + (64 - k)) = corr_at w s k) /\
    (forall i, 0 <= i -> i < dst \/ dst + 64 < i -> arr c i = arr cor i)) r E H; [lia| | |].
  - split_and!; [done|by rewrite length_upd| |].
    + intros k Hk. replace k with 0 by lia. by rewrite arr_upd_eq by lia.
    + intros i Hi Ho. by rewrite arr_upd_ne by lia.
  - intros j [y c] Hj (-> & L & V & U). replace (base + (j + 1) - 1) with (base + j) by lia.
    replace (base + 60 + (j + 1) - 1) with (base + (60 + j)) by lia.
    destruct (window_rd inp base Fi Hb Hl j) as [-> _]; [lia|]. rewrite bind_Some.
    destruct (window_rd inp base Fi Hb Hl (60 + j)) as [-> _]; [lia|]. rewrite bind_Some. fold w.
    destruct (term_bound inp base Fi s Hs j j) as [T1 R1]. destruct (term_bound inp base Fi s Hs (60 + j) (60 + j)) as [T2 R2].
    fold w in T1, R1, T2, R2. rewrite R1, R2.
    rewrite (cross_sum inp base Fi Hb Hl s Hs (j + 1)), bind_Some by lia. fold w.
    pose proof (zsum_bound (fun n => (arr w (j + n) * arr w (j + n)) ≫ s) (2 ^ 30) 60 ltac:(intros i; apply term_bound; done)) as B.
    assert (- 2 ^ 40 <= corr_energy w s j <= 2 ^ 40) as Be by (unfold corr_energy; lia).
    rewrite (i64_id (corr_energy w s j - _)), i64_id by (unfold is_i64; lia). rewrite <-corr_energy_next.
    rewrite corr_at_eq, wr_Some, bind_Some by lia. eexists; split; [reflexivity|]. cbv beta iota. rewrite length_upd.
    split_and!; [done|done| |].
    + intros k Hk. destruct (decide (k = j + 1)) as [->|].
      { replace (dst + 64 - (j + 1)) with (dst + (64 - (j + 1))) by lia. by rewrite arr_upd_eq by lia. }
      rewrite arr_upd_ne by lia. apply V. lia.
    + intros i Hi Ho. rewrite arr_upd_ne by lia. by apply U.
  - rewrite E, bind_Some. destruct r as [y c], H as (_ & L & V & U). cbv beta iota. exists c. split; [done|].
    split; [done|]. rewrite length_map, length_seqZ. change (Z.of_nat (Z.to_nat 65)) with 65. split.
    + intros k Hk. rewrite arr_tabulate by lia. rewrite <-V by lia. f_equal. lia.
    + intros i Hi Hne. apply U; [done|]. destruct (decide (i < dst)); [by left|]. right.
      destruct (decide (i <= dst + 64)); [|lia]. exfalso. apply (Hne (i - dst)); lia.
Qed.

(** [-32768] in the first 60 samples is what the choice of the shift misses. *)
Lemma corr_sums_fit w k : Forall is_i16 w -> (132 <= length w)%nat -> ~ In (-32768) (take 60 w) ->
  (forall j, 0 <= j < 132 -> Z.abs (arr w j) <= max_abs (take 60 w)) -> 0 <= k <= 64 ->
  let s := WebRtcSpl_GetScalingSquare (take 60 w) 60 in
  1 <= corr_energy w s k <= 2 ^ 31 /\ is_i32 (corr_cross w s k).
Proof.
  intros F L Hmin Hmax Hk s. assert (length (take 60 w) = 60%nat) as L60 by (rewrite length_take; lia).
  assert (s = auto_corr_scaling (take 60 w)) as Es.
  { unfold s. replace 60 with (Z.of_nat (length (take 60 w))) by lia. apply energy_scaling; [|by apply Forall_take|done].
    intros E. rewrite E in L60. discriminate. }
  destruct (auto_corr_scaling_products (take 60 w)) as (Hs & B & HB0 & HB & HP); [by apply Forall_take|lia|].
  rewrite <-Es in Hs, HP. clearbody s. rewrite L60 in HB.
  assert (forall f, (forall n, 0 <= n < 60 -> - B <= f n <= B) -> Z.abs (zsum f 60) < 2 ^ 31) as Hz.
  { intros f Hf. assert (Z.abs (zsum f 60) <= B * Z.of_nat 60); [|lia]. apply zsum_abs; [|done]. intros j Hj.
    specialize (Hf j ltac:(lia)). lia. }
  unfold corr_energy, corr_cross, is_i32. split.
  - specialize (Hz (fun n => (arr w (k + n) * arr w (k + n)) ≫ s) ltac:(intros n Hn; apply HP; apply Hmax; lia)).
    assert (0 <= zsum (fun n => (arr w (k + n) * arr w (k + n)) ≫ s) 60); [|lia].
    apply zsum_nonneg. intros j Hj. apply Z.shiftr_nonneg, Z.square_nonneg.
  - specialize (Hz (fun n => (arr w (72 + n) * arr w (k + n)) ≫ s) ltac:(intros n Hn; apply HP; apply Hmax; lia)). lia.
Qed.

Lemma log_corr_range y c : 0 <= log_corr y c <= 8191.
Proof.
  unfold log_corr. cbv zeta. pose proof (Log2Q8_range (u32 y) (u32_range _)) as Hy. pose proof (Log2Q8_range (u32 c) (u32_range _)) as Hc.
  assert (0 <= WebRtcIsacfix_Log2Q8 (u32 y) ≫ 1 <= 4095) as Hy2.
  { assert (0 <= WebRtcIsacfix_Log2Q8 (u32 y) ≫ 1 < 4096); [|lia]. apply shiftr_bounds; lia. }
  destruct (0 <? c); [|lia]. rewrite (i32_id (_ + 256)) by (unfold is_i32; lia).
  destruct (Z.ltb_spec (WebRtcIsacfix_Log2Q8 (u32 y) ≫ 1 + 256) (WebRtcIsacfix_Log2Q8 (u32 c))); [|lia].
  rewrite i32_id by (unfold is_i32; lia). lia.
Qed.

(** C30: The normalised correlation.  For any 16-bit signal the routine stays
    inside its arrays and writes 65 values, the longest lag first: the
    logarithm of the product sum over the root of the energy, of which it
    updates the energy from lag to lag.  When none of the 132 samples exceeds
    the loudest of the first 60 in magnitude, and -32768 is not among those 60
    (its magnitude does not fit 16 bits), no sum wraps. *)
Theorem pitch_correlation_exact inp base cor dst : Forall is_i16 inp -> 0 <= base ->
  base + 132 <= Z.of_nat (length inp) -> 0 <= dst -> dst + 65 <= Z.of_nat (length cor) ->
  let w := drop (Z.to_nat base) inp in
  let s := WebRtcSpl_GetScalingSquare (take 60 w) 60 in
  exists cor', WebRtcIsacfix_PCorr2Q32 inp base cor dst = Some cor' /\
    (forall k, 0 <= k <= 64 ->
       arr cor' (dst + 64 - k) = log_corr (corr_energy w s k) (i32 (corr_cross w s k)) /\
       0 <= arr cor' (dst + 64 - k) <= 8191) /\
    (forall i, 0 <= i -> i < dst \/ dst + 64 < i -> arr cor' i = arr cor i) /\
    (~ In (-32768) (take 60 w) -> (forall j, 0 <= j < 132 -> Z.abs (arr w j) <= max_abs (take 60 w)) ->
     forall k, 0 <= k <= 64 -> 1 <= corr_energy w s k <= 2 ^ 31 /\ i32 (corr_cross w s k) = corr_cross w s k).
Proof.
  intros Fi Hb Hl Hd Hc w s. destruct (PCorr2Q32_spec inp base cor dst Fi Hb Hl Hd Hc) as (cor' & E & L & V & U).
  fold w in E |- *. exists cor'. split; [exact E|]. clear E. rewrite length_correlation in V, U. split_and!.
  - intros k Hk. replace (dst + 64 - k) with (dst + 1 * (64 - k)) by lia. rewrite V by lia. unfold correlation.
    rewrite arr_tabulate by lia. replace (64 - (64 - k)) with k by lia. fold w. unfold corr_at. split; [|apply log_corr_range].
    unfold corr_scaling. fold w. fold s. reflexivity.
  - intros i Hi Ho. apply U; [done|]. intros k Hk. lia.
  - intros Hmin Hmax k Hk. destruct (corr_sums_fit w k) as [H1 H2]; [by apply Forall_drop|unfold w; rewrite length_drop; lia|done|done|done|].
    split; [exact H1|by apply i32_id].
Qed.

Lemma pitch_correlation_exact_witness :
  let x := map (fun k => 100 * ((k * k) mod 7) - 300) (seqZ 0 140) in
  exists cor', WebRtcIsacfix_PCorr2Q32 x 3 (repeat 1 67) 1 = Some cor' /\ arr cor' 1 = 2270 /\
    arr cor' 0 = 1 /\ 1 <= corr_energy (drop 3 x) 0 64 <= 2 ^ 31.
Proof.
  intros x. destruct (pitch_correlation_exact x 3 (repeat 1 67) 1) as (c & E & V & U & W);
    [apply (bool_decide_unpack _); vm_compute; exact I|lia|vm_compute; discriminate|lia|vm_compute; discriminate|].
  exists c. split; [exact E|]. split; [|split].
  - destruct (V 64 ltac:(lia)) as [H _]. change (1 + 64 - 64) with 1 in H. rewrite H. vm_compute. reflexivity.
  - rewrite U by lia. reflexivity.
  - destruct (W ltac:(rewrite <-list_elem_of_In; apply (bool_decide_unpack _); vm_compute; exact I)) with 64 as [H _]; [|lia|exact H].
    intros j Hj. assert (forallb (fun k => Z.abs (arr (drop 3 x) k) <=? max_abs (take 60 (drop 3 x))) (seqZ 0 132) = true) as HF
      by (vm_compute; reflexivity).
    rewrite forallb_forall in HF. apply Z.leb_le, (HF j), list_elem_of_In, elem_of_seqZ. lia.
Defined.

(** The shift comes from the first 60 samples only: when silence is followed
    by a constant of 20000, the sum at lag 60, [2.4e10], wraps to a negative
    number and the perfect correlation is reported as none. *)
Theorem pitch_correlation_wraps :
  let x := repeat 0 60 ++ repeat 20000 72 in
  corr_cross x 0 60 = 24000000000 /\
  exists cor', WebRtcIsacfix_PCorr2Q32 x 0 (repeat 1 65) 0 = Some cor' /\ arr cor' 4 = 0.
Proof. split; [vm_compute; reflexivity|]. eexists; split; vm_compute; reflexivity. Qed.

(** ** The four largest values *)

(** Inserts a value with its index into a list that falls, behind its equals. *)
Fixpoint insert_desc (p : Z * Z) (l : list (Z * Z)) : list (Z * Z) :=
  match l with
  | [] => [p]
  | q :: l => if q.1 <? p.1 then p :: q :: l else q :: insert_desc p l
  end.
Definition ranked (inp : list Z) (n : Z) (l : list (Z * Z)) : list (Z * Z) :=
  fold_left (fun l k => insert_desc (arr inp k, k) l) (seqZ 0 n) l.
Definition falling : list (Z * Z) -> Prop := StronglySorted (fun p q => q.1 <= p.1).

Lemma insert_desc_perm p l : insert_desc p l ≡ₚ p :: l.
Proof.
  induction l as [|q l IH]; cbn [insert_desc]; [done|]. destruct (q.1 <? p.1); [done|]. rewrite IH. constructor.
Qed.

Lemma insert_desc_falling p l : falling l -> falling (insert_desc p l).
Proof.
  unfold falling. induction l as [|q l IH]; intros H; cbn [insert_desc]; [by repeat constructor|].
  inversion H as [|? ? Hl Hq]; subst. destruct (Z.ltb_spec q.1 p.1).
  - constructor; [done|]. constructor; [lia|]. revert Hq. apply List.Forall_impl. intros a; lia.
  - constructor; [by apply IH|]. rewrite insert_desc_perm. by constructor.
Qed.

Lemma falling_take n l : falling l -> falling (take n l).
Proof.
  unfold falling. revert n. induction l as [|q l IH]; intros [|n] H; cbn [take]; try constructor.
  - apply StronglySorted_inv in H as [H _]. by apply IH.
  - apply StronglySorted_inv in H as [_ H]. by apply Forall_take.
Qed.

Lemma insert_desc_take p n : forall l, take n (insert_desc p (take n l)) = take n (insert_desc p l).
Proof.
  induction n as [|n IH]; intros l; [done|]. destruct l as [|q l]; cbn [take insert_desc]; [done|].
  destruct (q.1 <? p.1); cbn [take].
  - f_equal. destruct n as [|n]; cbn [take]; [done|]. f_equal. rewrite take_take. f_equal. lia.
  - f_equal. apply IH.
Qed.

Lemma ranked_next inp n l : 0 <= n -> ranked inp (n + 1) l = insert_desc (arr inp n, n) (ranked inp n l).
Proof. intros Hn. unfold ranked. rewrite seqZ_app, fold_left_app by lia. reflexivity. Qed.

(** What the code does on its two arrays is one insertion. *)
Lemma four_insert_spec v k q0 q1 q2 q3 : falling [q0; q1; q2; q3] -> exists p0 p1 p2 p3 : Z * Z,
  take 4 (insert_desc (v, k) [q0; q1; q2; q3]) = [p0; p1; p2; p3] /\
  four_insert v k [q0.1; q1.1; q2.1; q3.1] [q0.2; q1.2; q2.2; q3.2]
  = ([p0.1; p1.1; p2.1; p3.1], [p0.2; p1.2; p2.2; p3.2]).
Proof.
  intros H. unfold falling in H. apply StronglySorted_inv in H as [H H0]. apply StronglySorted_inv in H as [H H1].
  apply StronglySorted_inv in H as [_ H2]. rewrite !Forall_cons_iff in H0, H1, H2.
  assert (forall a b c d : Z, arr [a; b; c; d] 0 = a /\ arr [a; b; c; d] 1 = b /\ arr [a; b; c; d] 2 = c /\ arr [a; b; c; d] 3 = d)
    as Ha by done.
  unfold four_insert. cbv zeta. cbn [insert_desc fst snd]. destruct (Ha q0.1 q1.1 q2.1 q3.1) as (-> & -> & -> & ->).
  destruct (Ha q0.2 q1.2 q2.2 q3.2) as (-> & -> & -> & _).
  destruct (Z.ltb_spec q0.1 v), (Z.ltb_spec q1.1 v), (Z.ltb_spec q2.1 v), (Z.ltb_spec q3.1 v); try lia;
    cbn [take]; do 4 eexists; (split; [reflexivity|]); reflexivity.
Qed.

Lemma ranked_sorted inp n l : 0 <= n -> falling l ->
  falling (ranked inp n l) /\ ranked inp n l ≡ₚ map (fun k => (arr inp k, k)) (seqZ 0 n) ++ l.
Proof.
  intros Hn Hl. rewrite <-(Z2Nat.id n Hn). induction (Z.to_nat n) as [|m [IH1 IH2] ]; [by split|].
  rewrite Nat2Z.inj_succ. unfold Z.succ. rewrite ranked_next by lia. split; [by apply insert_desc_falling|].
  rewrite insert_desc_perm, IH2, seqZ_app, map_app by lia. rewrite Z.add_0_l. cbn [map seqZ app].
  rewrite (seqZ_cons (Z.of_nat m) 1) by lia. cbn [map Z.pred]. rewrite <-app_assoc. cbn [app].
  apply Permutation_middle.
Qed.

Lemma FindFour32_spec inp n (ind : list Z) : length ind = 4%nat -> 0 <= n <= Z.of_nat (length inp) ->
  FindFour32 inp n ind = Some (map snd (take 4 (ranked inp n (zip [-100; -100; -100; -100] ind)))).
Proof.
  intros L Hn. destruct ind as [|i0 [|i1 [|i2 [|i3 [|] ] ] ] ]; try discriminate L. clear L. cbn [zip zip_with].
  set (l0 := [(-100, i0); (-100, i1); (-100, i2); (-100, i3)]).
  assert (falling l0) as F0 by (unfold falling, l0; repeat constructor; cbn; lia). unfold FindFour32.
  loop_inv (fun k '((b, d) : list Z * list Z) => exists q0 q1 q2 q3 : Z * Z,
    take 4 (ranked inp k l0) = [q0; q1; q2; q3] /\ b = [q0.1; q1.1; q2.1; q3.1] /\ d = [q0.2; q1.2; q2.2; q3.2]) r E H; [lia| | |].
  - by do 4 eexists.
  - intros k [b d] Hk (q0 & q1 & q2 & q3 & Eq & -> & ->). rewrite rd_Some, bind_Some by lia.
    destruct (ranked_sorted inp k l0) as [Fk _]; [lia|done|].
    assert (falling [q0; q1; q2; q3]) as Fq.
    { rewrite <-Eq. by apply falling_take. }
    destruct (four_insert_spec (arr inp k) k q0 q1 q2 q3 Fq) as (p0 & p1 & p2 & p3 & E1 & E2). rewrite E2.
    eexists; split; [reflexivity|]. cbv beta iota. exists p0, p1, p2, p3. split; [|done].
    by rewrite ranked_next, <-insert_desc_take, Eq by lia.
  - rewrite E, bind_Some. destruct r as [b d], H as (q0 & q1 & q2 & q3 & -> & -> & ->). reflexivity.
Qed.

(** ** Peaks *)

Definition is_peak (cv : list Z) (thr k : Z) : bool :=
  (thr <? arr cv k) && ((arr cv (k - 1) <=? arr cv k) && (arr cv (k + 1) <? arr cv k)).
Definition peaks (cv : list Z) (thr n : Z) : list Z := List.filter (is_peak cv thr) (seqZ 1 n).

Lemma peaks_next cv thr n : 0 <= n ->
  peaks cv thr (n + 1) = peaks cv thr n ++ (if is_peak cv thr (n + 1) then [n + 1] else []).
Proof.
  intros Hn. unfold peaks. rewrite seqZ_app, List.filter_app, (seqZ_cons (1 + n) 1) by lia. cbn [List.filter seqZ].
  by rewrite (Z.add_comm 1 n).
Qed.

Lemma length_peaks cv thr n : 0 <= n -> Z.of_nat (length (peaks cv thr n)) <= n.
Proof.
  intros Hn. unfold peaks. pose proof (List.filter_length_le (is_peak cv thr) (seqZ 1 n)) as H.
  rewrite length_seqZ in H. lia.
Qed.

Lemma peaks_range cv thr n k : In k (peaks cv thr n) -> 1 <= k <= n.
Proof. intros H. apply List.filter_In in H as [H _]. apply list_elem_of_In, elem_of_seqZ in H. lia. Qed.

(** Both arrays take the peaks in order. *)
Lemma find_peaks_spec cv thr pv pi : length cv = 67%nat -> (65 <= length pv)%nat -> (65 <= length pi)%nat ->
  exists pv' pi', find_peaks cv thr pv pi = Some (pv', pi', Z.of_nat (length (peaks cv thr 65))) /\
    overwritten 1 0 (map (arr cv) (peaks cv thr 65)) pv pv' /\ overwritten 1 0 (peaks cv thr 65) pi pi'.
Proof.
  intros Lc Lv Li. unfold find_peaks, PITCH_LAG_SPAN2.
  loop_inv (fun j '((v, i, n) : list Z * list Z * Z) => n = Z.of_nat (length (peaks cv thr j)) /\
    overwritten 1 0 (map (arr cv) (peaks cv thr j)) pv v /\ overwritten 1 0 (peaks cv thr j) pi i) r E H; [lia| | |].
  - split; [done|]. split; apply overwritten_nil.
  - intros j [ [v i] n] Hj (-> & Ov & Oi). pose proof (length_peaks cv thr j ltac:(lia)) as Hp.
    rewrite (rd_Some cv (j + 1)), bind_Some by lia. rewrite peaks_next by lia. unfold is_peak.
    destruct (thr <? arr cv (j + 1)); [|eexists; split; [reflexivity|]; cbn [andb]; by rewrite app_nil_r].
    rewrite (rd_Some cv (j + 1 - 1)), bind_Some, (rd_Some cv (j + 1 + 1)), bind_Some by lia. cbn [andb].
    destruct (_ && _); [|eexists; split; [reflexivity|]; by rewrite app_nil_r].
    assert (length v = length pv) as L1 by apply Ov. assert (length i = length pi) as L2 by apply Oi.
    rewrite (wr_Some v), bind_Some, (wr_Some i), bind_Some by lia. eexists; split; [reflexivity|]. cbv beta iota.
    rewrite i16_id by (unfold is_i16; lia). rewrite length_app, map_app. cbn [length map]. split; [lia|]. split.
    + pose proof (overwritten_snoc 1 0 _ (arr cv (j + 1)) pv v ltac:(lia) ltac:(lia) Ov) as H.
      rewrite length_map, Z.mul_1_l, Z.add_0_l in H. apply H. lia.
    + pose proof (overwritten_snoc 1 0 _ (j + 1) pi i ltac:(lia) ltac:(lia) Oi) as H.
      rewrite Z.mul_1_l, Z.add_0_l in H. apply H. lia.
  - rewrite E. destruct r as [ [v i] n], H as (-> & Ov & Oi). exists v, i. by split.
Qed.

(** ** Interpolation *)

(** Whatever the operands, the quotient has 31 bits. *)
Lemma DivResultInQ31_range a b : - 2 ^ 31 < WebRtcSpl_DivResultInQ31 a b < 2 ^ 31.
Proof.
  unfold WebRtcSpl_DivResultInQ31. destruct (a =? 0); [lia|]. cbv zeta.
  generalize (if b <? 0 then i32 (- b) else b), (if a <? 0 then i32 (- a) else a). intros den num.
  assert (forall k, (k <= 31)%nat -> 0 <= (Nat.iter k (q31_step den) (0, num)).1 < 2 ^ Z.of_nat k) as H.
  { induction k as [|k IH]; intros Hk; [cbn; lia|]. specialize (IH ltac:(lia)).
    change (Nat.iter (S k) (q31_step den) (0, num)) with (q31_step den (Nat.iter k (q31_step den) (0, num))).
    destruct (Nat.iter k (q31_step den) (0, num)) as [d r]. cbn [fst] in IH. unfold q31_step.
    rewrite Nat2Z.inj_succ, Z.pow_succ_r, !Z.shiftl_mul_pow2 by lia. change (2 ^ 1) with 2.
    assert (2 ^ Z.of_nat k <= 2 ^ 30) by (apply Z.pow_le_mono_r; lia). rewrite (i32_id (d * 2)) by (unfold is_i32; lia).
    destruct (den <=? _); cbn [fst]; [rewrite i32_id by (unfold is_i32; lia)|]; lia. }
  specialize (H 31%nat (le_n _)). change (Z.of_nat 31) with 31 in H. destruct (Nat.iter 31 _ _) as [d r]. cbn [fst] in H.
  destruct (xorb _ _); [rewrite i32_id by (unfold is_i32; lia)|]; lia.
Qed.

(** The abscissa moves by at most one sample. *)
Lemma Intrp1DQ8_range x0 fx0 fx1 fx2 : 0 <= x0 <= 2 ^ 20 ->
  x0 - 256 <= (Intrp1DQ8 x0 fx0 fx1 fx2).1 <= x0 + 256.
Proof.
  intros Hx. unfold Intrp1DQ8. destruct (_ && _); cbn [fst]; [|lia].
  cbv zeta. cbn [fst]. generalize (i32 (i32 (i32 (fx0 - fx1) - i32 (fx1 - fx2)) * 2)), (i32 (i32 (fx0 - fx1) + i32 (fx1 - fx2))).
  intros den nom. set (s1 := if nom <? 0 then -1 else 1). set (s2 := if den <? 0 then -1 else 1).
  pose proof (DivResultInQ31_range (i32 (nom * s1)) (i32 (den * s2))) as H.
  set (t32 := WebRtcSpl_DivResultInQ31 _ _) in *. clearbody t32.
  assert (-256 <= t32 ≫ 23 < 256) as Ht by (apply shiftr_bounds; lia).
  assert (s1 = 1 \/ s1 = -1) as H1 by (unfold s1; destruct (nom <? 0); tauto).
  assert (s2 = 1 \/ s2 = -1) as H2 by (unfold s2; destruct (den <? 0); tauto). clearbody s1 s2.
  rewrite (i16_id (t32 ≫ 23)) by (unfold is_i16; lia).
  assert (-256 <= t32 ≫ 23 * s1 * s2 <= 256) by (destruct H1 as [-> | ->], H2 as [-> | ->]; lia).
  rewrite i16_id, i32_id by (unfold is_i16, is_i32; lia). lia.
Qed.

(** A lag of the correlation in Q8. *)
Definition lag_q8 (y : Z) : Prop := 0 <= y <= 16896.

Lemma best_peak_spec slope cv pi best npk : length cv = 67%nat -> 0 <= npk <= Z.of_nat (length best) ->
  (forall k, 0 <= k < npk -> 0 <= arr best k < Z.of_nat (length pi) /\ 1 <= arr pi (arr best k) <= 65) ->
  exists y, best_peak slope cv pi best npk = Some y /\ lag_q8 y.
Proof.
  intros Lc Hn Hp. unfold best_peak. loop_inv (fun (_ : Z) (s : Z * Z) => lag_q8 s.2) r E H; [lia|unfold lag_q8; cbn; lia| |].
  - intros j [m y] Hj Hy. destruct (Hp j Hj) as [Hb Hpi]. rewrite (rd_Some best), bind_Some, (rd_Some pi), bind_Some by lia.
    rewrite (rd_Some cv (_ - 1)), bind_Some, (rd_Some cv (arr pi _)), bind_Some, (rd_Some cv (_ + 1)), bind_Some by lia.
    set (k := arr pi (arr best j)) in *. rewrite Z.shiftl_mul_pow2 by lia. change (2 ^ 8) with 256.
    rewrite (i32_id (k * 256)) by (unfold is_i32; lia).
    pose proof (Intrp1DQ8_range (k * 256) (arr cv (k - 1)) (arr cv k) (arr cv (k + 1)) ltac:(lia)) as Hi.
    destruct (Intrp1DQ8 _ _ _ _) as [y' fy']. cbn [fst] in Hi. cbv zeta. eexists; split; [reflexivity|].
    destruct (_ <? _); unfold lag_q8; cbn [snd]; [lia|done].
  - rewrite E, bind_Some. destruct r as [m y]. by exists y.
Qed.

Lemma lag_of_peak_range y : lag_q8 y -> 3584 <= lag_of_peak y <= 37376.
Proof.
  unfold lag_q8, lag_of_peak, OFFSET_Q8, PITCH_MIN_LAG_Q8. intros H.
  rewrite (i32_id (y - 768)), (i32_id (_ * 2)), i32_id by (unfold is_i32; lia). lia.
Qed.

(** ** The first estimate *)

Definition locals_ok (l : PitchLocals) : Prop :=
  w16 192 (buf_dec16 l) /\ length (data_vec l) = 240%nat /\ length (cv1q l) = 67%nat /\
  length (cv2q l) = 67%nat /\ length (peakvq l) = 67%nat /\ length (peakiq l) = 65%nat.

Lemma decimated_i16 st n xs : Forall is_i16 (decimated st n xs).
Proof.
  unfold decimated. generalize (dec_lower st n xs).1, (dec_upper st n xs).1. intros a. induction a as [|x a IH]; intros [|y b]; cbn;
    [constructor..|]. constructor; [|apply IH]. unfold WebRtcSpl_AddSatW16. rewrite SatW32ToW16_clamp. unfold clamp, is_i16. lia.
Qed.

(** The low-pass filtered half-rate signal: old samples, then the 120 new ones,
    each the value of the recursion on what precedes it. *)
Lemma pitch_decimate_spec l inp s : locals_ok l -> (240 <= length inp)%nat -> w16 72 (dec_buffer16 s) ->
  length (decimator_state32 s) = 5%nat ->
  exists buf, pitch_decimate l inp s
    = Some (buf, set_decimator s (drop 120 buf) (dec_state (decimator_state32 s) 120 inp)) /\
    w16 192 buf /\ take 72 buf = dec_buffer16 s /\
    (forall i, 0 <= i < 120 -> arr buf (72 + i)
       = q12_round (4096 * arr (decimated (decimator_state32 s) 120 inp) i - ar_feedback kACoefQ12 buf 2 (72 + i))).
Proof.
  intros ((Lb & Fb) & Ld & _) Li (Ls & Fs) Lst. unfold pitch_decimate. cbv zeta. change DEC_BUFFER16_LEN with 72.
  change (Z.quot PITCH_FRAME_LEN 2) with 120. change PITCH_FRAME_LEN with (2 * Z.of_nat 120).
  rewrite mem_write_Some, bind_Some by lia. change (Z.to_nat 0) with 0%nat. rewrite take_0, Ls. cbn [app Nat.add].
  set (b0 := dec_buffer16 s ++ drop 72 (buf_dec16 l)).
  assert (length b0 = 192%nat) as L0 by (unfold b0; rewrite length_app, length_drop; lia).
  rewrite mem_read_Some, bind_Some by lia. change (Z.to_nat 120) with 120%nat. change (Z.to_nat 72) with 72%nat.
  destruct (DecimateAllpass32_spec (data_vec l) inp (decimator_state32 s) 120 (take 120 (drop 72 b0))) as (out & E & O);
    [done|lia|done|lia|rewrite length_take, length_drop; lia|]. bind_step E. clear E.
  assert (length (decimated (decimator_state32 s) 120 inp) = 120%nat) as Ldec
    by (unfold decimated; rewrite length_zip_with; unfold dec_lower, dec_upper; rewrite !length_scan, length_delayed, length_strided; lia).
  apply overwritten_whole in O; [|rewrite length_take, length_drop; lia].
  pose proof (decimated_i16 (decimator_state32 s) 120 inp) as Fdec. subst out.
  set (D := decimated (decimator_state32 s) 120 inp) in *. clearbody D.
  rewrite mem_write_Some, bind_Some by lia. change (Z.to_nat 72) with 72%nat. rewrite Ldec.
  rewrite (drop_ge b0) by lia. rewrite app_nil_r. assert (take 72 b0 = dec_buffer16 s) as -> by (apply take_app_length'; lia).
  destruct (ar_fast_spec kACoefQ12 D (dec_buffer16 s ++ D) 72 2 120) as (y & E & Ly & Fy & V & U);
    [repeat constructor; unfold is_i16; lia|done|by apply Forall_app|cbn; lia|lia|lia|lia|rewrite length_app; lia|].
  change (Z.of_nat 3) with 3 in E. change (Z.of_nat 120) with 120 in E. bind_step E. clear E. rewrite length_app in Ly.
  rewrite mem_read_Some, bind_Some by lia. change (Z.to_nat 120) with 120%nat. change (Z.to_nat 72) with 72%nat.
  rewrite (take_ge (drop 120 y)) by (rewrite length_drop; lia). exists y. split; [done|]. split; [split; [lia|done]|].
  split; [|exact V]. apply list_arr; rewrite length_take; [lia|]. intros k Hk.
  assert (arr (take 72 y) k = arr y k) as ->.
  { unfold arr. rewrite !nth_lookup, lookup_take_lt by lia. done. }
  rewrite U by lia. rewrite arr_cat_l by lia. done.
Qed.

Definition len67 (l : list Z) : Prop := length l = 67%nat.

Lemma taper_spec cv : len67 cv -> exists cv', taper cv = Some cv' /\ len67 cv'.
Proof.
  unfold len67. intros L. unfold taper, PITCH_LAG_SPAN2. apply (for_opt_ind (fun _ c => length c = 67%nat)); [lia|done|].
  intros k c Hk Lc. rewrite rd_Some, bind_Some, wr_Some, bind_Some by lia.
  rewrite rd_Some, bind_Some, wr_Some by (rewrite ?length_upd; lia). eexists; split; [reflexivity|]. by rewrite !length_upd.
Qed.

Lemma pitch_correlations_spec l buf old gain : locals_ok l -> w16 192 buf ->
  exists cv1 cv2, pitch_correlations l buf old gain = Some (cv1, cv2) /\ len67 cv1 /\ len67 cv2.
Proof.
  intros (_ & _ & L1 & L2 & _) [Lb Fb]. unfold pitch_correlations, PITCH_CORR_STEP2. cbv zeta.
  destruct (PCorr2Q32_spec buf 0 (cv1q l) 1 Fb) as (c1 & E & M1 & _); [lia..|]. bind_step E. clear E.
  destruct (PCorr2Q32_spec buf 60 (cv2q l) 1 Fb) as (c2 & E & M2 & _); [lia..|]. bind_step E. clear E.
  rewrite L1 in M1. rewrite L2 in M2. unfold PITCH_LAG_SPAN2.
  generalize (i32 (WebRtcIsacfix_Log2Q8 (u32 old) - 2304)) as t. intros t.
  generalize (if 3276 <? i16 (i32 (gain * gain) ≫ 10) then 3276 else i16 (i32 (gain * gain) ≫ 10)) as g. intros g.
  loop_inv (fun (_ : Z) c => len67 c) d1 E H; [lia|done| |].
  { intros k c Hk Lc. unfold len67 in *. rewrite rd_Some, bind_Some by lia. destruct (0 <? _); [|by eexists].
    rewrite wr_Some by lia. eexists; split; [reflexivity|]. by rewrite length_upd. }
  bind_step E. clear E. destruct (taper_spec d1 H) as (e1 & E & K1). bind_step E. clear E.
  destruct (taper_spec c2 M2) as (e2 & E & K2). bind_step E. clear E. unfold len67 in *.
  rewrite (wr_Some e1), bind_Some, (wr_Some e2), bind_Some by lia.
  rewrite (wr_Some (upd e1 0 0)), bind_Some, (wr_Some (upd e2 0 0)), bind_Some by (rewrite ?length_upd; lia).
  do 2 eexists; split; [reflexivity|]. by rewrite !length_upd.
Qed.

Lemma corr_maximum_spec cv1 cv2 : len67 cv1 -> len67 cv2 -> exists m, corr_maximum cv1 cv2 = Some m.
Proof.
  unfold len67. intros L1 L2. unfold corr_maximum, PITCH_LAG_SPAN2. cbv zeta.
  loop_inv (fun (_ : Z) (_ : Z) => True) m E H; [lia|done| |by exists m].
  intros j m Hj _. rewrite (rd_Some cv1), bind_Some, (rd_Some cv2), bind_Some by lia. by eexists.
Qed.

Lemma constant_pitch_spec ratq cv : len67 cv -> exists cv', constant_pitch ratq cv = Some cv' /\ len67 cv'.
Proof.
  intros L. unfold constant_pitch, PITCH_LAG_SPAN2. cbv zeta. apply (for_opt_ind (fun _ c => len67 c)); [lia|done|].
  intros j c Hj Lc. unfold len67 in *. rewrite rd_Some, bind_Some, wr_Some by lia. eexists; split; [reflexivity|].
  by rewrite length_upd.
Qed.

(** Every index the search returns is one of the scanned cells or was there
    before. *)
Lemma four_indices inp n ind : length ind = 4%nat -> 0 <= n <= Z.of_nat (length inp) ->
  exists d, FindFour32 inp n ind = Some d /\ length d = 4%nat /\
    Forall (fun i => 0 <= i < n \/ In i ind) d.
Proof.
  intros L Hn. rewrite FindFour32_spec by done. eexists; split; [reflexivity|].
  set (l0 := zip [-100; -100; -100; -100] ind). assert (length l0 = 4%nat) as L0 by (unfold l0; rewrite length_zip_with, L; done).
  assert (falling l0) as F0.
  { destruct ind as [|i0 [|i1 [|i2 [|i3 [|] ] ] ] ]; try discriminate L. unfold falling, l0. repeat constructor; cbn; lia. }
  destruct (ranked_sorted inp n l0 ltac:(lia) F0) as [_ P]. split.
  - rewrite length_map, length_take, (Permutation_length P), length_app. lia.
  - apply Forall_map, Forall_take. rewrite P. apply Forall_app. split.
    + apply Forall_map. apply List.Forall_forall. intros i Hi. apply list_elem_of_In, elem_of_seqZ in Hi. left. cbn. lia.
    + apply List.Forall_forall. intros [v i] Hi. right. cbn. unfold l0 in Hi.
      apply list_elem_of_In in Hi. apply list_elem_of_In. by apply elem_of_zip_r in Hi.
Qed.

(** An index of [best4q] is the initial 0 or points at a position found. *)
Definition best_ok (pi best : list Z) : Prop :=
  length best = 4%nat /\ Forall (fun i => i = 0 \/ (0 <= i < 65 /\ 1 <= arr pi i <= 65)) best.

(** Finding the peaks and the best of them; an index that the second search
    leaves from the first is still valid. *)
Lemma peak_pass slope cv thr pv pi best : len67 cv -> length pv = 67%nat -> length pi = 65%nat -> best_ok pi best ->
  exists pv' pi' n, find_peaks cv thr pv pi = Some (pv', pi', n) /\ length pv' = 67%nat /\ length pi' = 65%nat /\
    best_ok pi' best /\ (0 < n -> exists d y, FindFour32 pv' n best = Some d /\ best_ok pi' d /\
      best_peak slope cv pi' d (Z.min n 4) = Some y /\ lag_q8 y).
Proof.
  intros Lc Lv Li [Lb Fb]. destruct (find_peaks_spec cv thr pv pi) as (pv' & pi' & E & Ov & Oi); [done|lia|lia|].
  exists pv', pi', (Z.of_nat (length (peaks cv thr 65))). split; [exact E|]. clear E.
  pose proof (length_peaks cv thr 65 ltac:(lia)) as Hn. set (n := Z.of_nat (length (peaks cv thr 65))) in *.
  assert (length pv' = 67%nat) as Lv' by (rewrite <-Lv; apply Ov).
  assert (length pi' = 65%nat) as Li' by (rewrite <-Li; apply Oi).
  assert (forall i, 0 <= i < n -> 1 <= arr pi' i <= 65) as Hnew.
  { intros i Hi. destruct Oi as (_ & V & _). specialize (V i Hi). replace (0 + 1 * i) with i in V by lia. rewrite V.
    apply (peaks_range cv thr 65). apply nth_In. lia. }
  assert (Forall (fun i => i = 0 \/ (0 <= i < 65 /\ 1 <= arr pi' i <= 65)) best) as Fb'.
  { revert Fb. apply List.Forall_impl. intros i [->|[Hi Hp] ]; [by left|right]. split; [done|].
    destruct (decide (i < n)); [apply Hnew; lia|]. destruct Oi as (_ & _ & U). rewrite U; [done|lia|]. intros k Hk. fold n in Hk. lia. }
  split; [done|]. split; [done|]. split; [by split|]. intros Hpos.
  destruct (four_indices pv' n best) as (d & E & Ld & Fd); [done|lia|]. exists d.
  assert (forall i, In i d -> 0 <= i < 65 /\ 1 <= arr pi' i <= 65) as Hd.
  { intros i Hi. rewrite List.Forall_forall in Fd, Fb'. destruct (Fd i Hi) as [Hin|Hin]; [split; [lia|by apply Hnew]|].
    destruct (Fb' i Hin) as [->|?]; [split; [lia|apply Hnew; lia]|done]. }
  destruct (best_peak_spec slope cv pi' d (Z.min n 4)) as (y & Ey & Hy); [done|lia| |].
  { intros k Hk. destruct (Hd (arr d k)) as [H1 H2]; [apply nth_In; lia|]. split; [lia|done]. }
  exists y. split; [done|]. split; [|by split]. split; [done|]. apply List.Forall_forall. intros i Hi. right. by apply Hd.
Qed.

(** Lags in Q7 the estimate can take: 14 to 146 samples. *)
Definition found_lag (lag : Z) : Prop := 1792 <= lag <= 18688.

Lemma lag_q7 lag : 3584 <= lag <= 37377 -> found_lag (i16 (lag ≫ 1)).
Proof.
  intros H. assert (1792 <= lag ≫ 1 < 18689) by (apply shiftr_bounds; lia). rewrite i16_id by (unfold is_i16; lia).
  unfold found_lag. lia.
Qed.

Lemma initial_pitch_spec l inp s lags : locals_ok l -> (240 <= length inp)%nat -> w16 72 (dec_buffer16 s) ->
  length (decimator_state32 s) = 5%nat -> found_lag (oldlagQ7 (PFstr_wght s)) -> length lags = 4%nat ->
  exists buf lag0 lag2, pitch_decimate l inp s
      = Some (buf, set_decimator s (drop 120 buf) (dec_state (decimator_state32 s) 120 inp)) /\ w16 192 buf /\
    WebRtcIsacfix_InitialPitch l inp s lags
    = Some (set_decimator s (drop 120 buf) (dec_state (decimator_state32 s) 120 inp), [lag0; lag0; lag2; lag2]) /\
    found_lag lag0 /\ found_lag lag2.
Proof.
  intros Hl Li Hd Hst Hold Ll. destruct (pitch_decimate_spec l inp s Hl Li Hd Hst) as (buf & Ed & Hbuf & _).
  exists buf. unfold WebRtcIsacfix_InitialPitch. cbv zeta. rewrite Ed, bind_Some. cbv beta iota.
  set (s' := set_decimator _ _ _). clearbody s'.
  assert (i32 (oldlagQ7 (PFstr_wght s) ≪ 1) = 2 * oldlagQ7 (PFstr_wght s)) as ->.
  { unfold found_lag in Hold. rewrite Z.shiftl_mul_pow2, i32_id by (unfold is_i32; lia). lia. }
  set (old := 2 * oldlagQ7 (PFstr_wght s)). assert (3584 <= old <= 37376) as Ho by (unfold old, found_lag in *; lia).
  destruct (pitch_correlations_spec l buf old (oldgainQ12 (PFstr_wght s)) Hl Hbuf) as (cv1 & cv2 & E & L1 & L2).
  bind_step E. clear E. destruct (corr_maximum_spec cv1 cv2 L1 L2) as (m & E). bind_step E. clear E.
  set (thr := i32 (m + -1000)). clearbody thr. destruct Hl as (_ & _ & _ & _ & Lv & Li').
  destruct (peak_pass (-42) cv1 thr (peakvq l) (peakiq l) [0; 0; 0; 0] L1 Lv Li') as (pv & pi & n & E & Lpv & Lpi & Hb0 & Hn).
  { split; [done|]. repeat constructor. }
  bind_step E. clear E.
  assert (exists lag0 best, (if 0 <? n then
      best4q ← FindFour32 pv n [0; 0; 0; 0]; best_lag1q ← best_peak (-42) cv1 pi best4q (Z.min n 4);
      Some (lag_of_peak best_lag1q, best4q) else Some (old, [0; 0; 0; 0])) = Some (lag0, best) /\
    3584 <= lag0 <= 37376 /\ best_ok pi best) as (lag0 & best & E & H0 & Hb).
  { destruct (Z.ltb_spec 0 n) as [Hpos|]; [|by do 2 eexists]. destruct (Hn Hpos) as (d & y & -> & Hd' & E & Hy).
    rewrite bind_Some, E, bind_Some. do 2 eexists. split; [reflexivity|]. split; [by apply lag_of_peak_range|done]. }
  bind_step E. clear E Hn. generalize (i32 (i32 (lag0 - PITCH_MIN_LAG_Q8) ≫ 1 + OFFSET_Q8)) as ratq. intros ratq.
  destruct (constant_pitch_spec ratq cv2 L2) as (c2 & E & Lc2). bind_step E. clear E.
  destruct (peak_pass (-82) c2 thr pv pi best Lc2 Lpv Lpi Hb) as (pv2 & pi2 & n2 & E & _ & _ & _ & Hn2). bind_step E. clear E.
  assert (exists lag2, (if 0 <? n2 then
      best4q ← FindFour32 pv2 n2 best; best_lag2q ← best_peak (-82) c2 pi2 best4q (Z.min n2 4);
      Some (lag_of_peak best_lag2q) else Some lag0) = Some lag2 /\ 3584 <= lag2 <= 37376) as (lag2 & E & H2).
  { destruct (Z.ltb_spec 0 n2) as [Hpos|]; [|by eexists]. destruct (Hn2 Hpos) as (d & y & -> & _ & E & Hy).
    rewrite bind_Some, E, bind_Some. eexists. split; [reflexivity|]. by apply lag_of_peak_range. }
  bind_step E. clear E. exists (i16 (lag0 ≫ 1)), (i16 (lag2 ≫ 1)). split; [done|]. split; [done|].
  split; [|split; apply lag_q7; lia]. generalize (i16 (lag0 ≫ 1)), (i16 (lag2 ≫ 1)). intros a b.
  destruct lags as [|x0 [|x1 [|x2 [|x3 [|] ] ] ] ]; try discriminate Ll. reflexivity.
Qed.

(** ** The analysis of a frame *)

Definition analysis_ok (s : PitchAnalysisStruct) : Prop :=
  w16 72 (dec_buffer16 s) /\ length (decimator_state32 s) = 5%nat /\ w16 24 (inbuf s) /\
  length (ubufQQ (PFstr_wght s)) = 190%nat /\ Forall small (ubufQQ (PFstr_wght s)) /\
  found_lag (oldlagQ7 (PFstr_wght s)) /\ pitchfilt_ok (PFstr s).

(** The filter's input: the saved 24 samples, then the frame. *)
Definition analysis_input (s : PitchAnalysisStruct) (inn : list Z) : list Z := inbuf s ++ take 240 inn.

Lemma small_i16 x : small x -> is_i16 x.
Proof. unfold small, is_i16. lia. Qed.

Lemma analysis_init : analysis_ok WebRtcIsacfix_InitPitchAnalysis.
Proof.
  assert (forall n, w16 n (repeat 0 n)) as Hz.
  { intros n. split; [apply repeat_length|]. apply List.Forall_forall. intros x Hx. apply repeat_spec in Hx as ->. unfold is_i16. lia. }
  split_and!; try exact (Hz _); try reflexivity.
  - apply (bool_decide_unpack _). vm_compute. exact I.
  - unfold found_lag. split; vm_compute; discriminate.
  - split_and!; try exact (Hz _); unfold lag_ok, gain_ok; split; vm_compute; discriminate.
Qed.

(** C27: The pitch analysis of a frame of samples of at most 4300 in magnitude.
    From every state reached from the initial one it stays inside its arrays:
    the peak search uses valid positions only, the lags lie between 14 and 146
    samples, where gain search and filter are safe, the gains between 0 and
    0.45.  The output is the pitch filter run over the saved and the new samples
    with these lags and gains, and the new state is again as required, so frames
    follow each other without end. *)
Theorem pitch_analysis_invariant : analysis_ok WebRtcIsacfix_InitPitchAnalysis /\
  forall l ubg ubf ib inn out s lags gains, locals_ok l -> w16 430 ubg -> w16 454 ubf -> length ib = 264%nat ->
  (240 <= length inn)%nat -> Forall small inn -> (264 <= length out)%nat -> analysis_ok s ->
  length lags = 4%nat -> length gains = 4%nat ->
  exists out' s' lag0 lag2 gs,
    let ls := [lag0; lag0; lag2; lag2] in let x := analysis_input s inn in
    WebRtcIsacfix_PitchAnalysis l ubg ubf ib inn out s lags gains = Some (out', s', ls, gs) /\
    found_lag lag0 /\ found_lag lag2 /\ length gs = 4%nat /\ Forall (fun g => 0 <= g <= 1843) gs /\
    overwritten 1 0 ((pitch_run 2 (PFstr s) ls gs x).1 ++ pitch_lookahead 2 (PFstr s) ls gs x) out out' /\
    PFstr s' = filtered_state 2 (PFstr s) ls gs x /\ inbuf s' = drop 240 x /\ analysis_ok s'.
Proof.
  split; [exact analysis_init|].
  intros l ubg ubf ib inn out s lags gains Hl Hg Hf Lib Li Fi Lo (Hd & Hst & Hib & Lw & Fw & Hold & Hpf) Ll Lg.
  destruct (initial_pitch_spec l inn s lags Hl Li Hd Hst Hold Ll) as (buf & lag0 & lag2 & _ & [Lbuf Fbuf] & E & H0 & H2).
  unfold WebRtcIsacfix_PitchAnalysis, set_decimator in *. cbv zeta. bind_step E. clear E. cbn [PFstr_wght PFstr inbuf dec_buffer16 decimator_state32].
  set (ls := [lag0; lag0; lag2; lag2]). assert (Forall found_lag ls) as Fls by (unfold ls; repeat apply List.Forall_cons; done || apply List.Forall_nil).
  destruct (pitch_gains_spec ubg inn (PFstr_wght s) ls gains Hg Fi Li Lw Fw) as (E & Lgs & Fgs & _);
    [unfold gains_lag_ok; unfold found_lag in Hold; lia|done|revert Fls; apply List.Forall_impl; intros a; unfold found_lag, gains_lag_ok; lia|done|].
  cbv zeta in E. set (gs := (gains_run _ _ _ _ _).1.1) in *. clearbody gs. bind_step E. clear E.
  destruct Hib as [Lin Fin]. unfold QLOOKAHEAD, PITCH_FRAME_LEN. rewrite (mem_read_Some (inbuf s)), bind_Some by lia.
  change (Z.to_nat 0) with 0%nat. change (Z.to_nat 24) with 24%nat. rewrite drop_0, (take_ge (inbuf s)) by lia.
  rewrite (mem_write_Some ib), bind_Some by lia. change (Z.to_nat 0) with 0%nat. rewrite take_0, Lin. cbn [app Nat.add].
  rewrite (mem_read_Some inn), bind_Some by lia. change (Z.to_nat 0) with 0%nat. change (Z.to_nat 240) with 240%nat. rewrite drop_0.
  assert (length (take 240 inn) = 240%nat) as L240 by (rewrite length_take; lia).
  rewrite (mem_write_Some (inbuf s ++ _)), bind_Some by (rewrite ?length_app, ?length_drop; lia). change (Z.to_nat 24) with 24%nat.
  rewrite take_app_length' by lia. rewrite L240, (drop_ge (inbuf s ++ _)) by (rewrite length_app, length_drop; lia).
  rewrite app_nil_r. fold (analysis_input s inn). set (x := analysis_input s inn).
  assert (length x = 264%nat) as Lx by (unfold x, analysis_input; rewrite length_app; lia).
  assert (Forall is_i16 x) as Fx.
  { unfold x, analysis_input. apply Forall_app. split; [done|]. apply Forall_take. revert Fi. apply List.Forall_impl. apply small_i16. }
  destruct (pitch_filter_spec ubf x out (PFstr s) ls gs 2 Hf Fx) as (out' & E & O & Hok);
    [cbn; lia|cbn; lia|done|done|revert Fls; apply List.Forall_impl; intros a; unfold found_lag, lag_ok; lia|done|
     revert Fgs; apply List.Forall_impl; intros a; lia|].
  change (filter_gains 2 gs) with gs in *. bind_step E. clear E.
  rewrite (mem_read_Some x), bind_Some by lia. change (Z.to_nat 240) with 240%nat. change (Z.to_nat 24) with 24%nat.
  rewrite (take_ge (drop 240 x)) by (rewrite length_drop; lia).
  rewrite (mem_write_Some (inbuf s)), bind_Some by (rewrite ?length_drop; lia). change (Z.to_nat 0) with 0%nat. rewrite take_0. cbn [app Nat.add].
  rewrite length_drop, (drop_ge (inbuf s)), app_nil_r by lia.
  exists out'. eexists. exists lag0, lag2, gs. cbv zeta. split; [reflexivity|]. fold ls x. cbn [PFstr inbuf].
  split_and!; try done. split_and!; cbn [dec_buffer16 decimator_state32 inbuf PFstr_wght PFstr ubufQQ oldlagQ7]; try done.
  - split; [rewrite length_drop; lia|by apply Forall_drop].
  - split; [rewrite length_drop; lia|by apply Forall_drop].
  - rewrite length_drop, length_app, length_strided. lia.
  - apply Forall_drop, Forall_app. split; [done|]. apply Forall_strided; [unfold small; lia|done].
Qed.

(** Values above -100 go in front of the placeholders. *)
Lemma ranked_prefix inp n l : 0 <= n -> (forall k, 0 <= k < n -> -100 < arr inp k) -> Forall (fun q => q.1 <= -100) l ->
  exists h, ranked inp n l = h ++ l /\ Z.of_nat (length h) = n /\ Forall (fun q => 0 <= q.2 < n) h.
Proof.
  intros Hn Hv Hl. revert Hv. rewrite <-(Z2Nat.id n Hn). induction (Z.to_nat n) as [|m IH]; intros Hv.
  - exists []. by repeat split.
  - destruct IH as (h & E & Lh & Fh); [intros; apply Hv; lia|]. rewrite Nat2Z.inj_succ. unfold Z.succ.
    rewrite ranked_next, E by lia. exists (insert_desc (arr inp (Z.of_nat m), Z.of_nat m) h). split; [|split].
    + specialize (Hv (Z.of_nat m) ltac:(lia)). clear - Hl Hv. induction h as [|q h IH]; cbn [app insert_desc].
      * destruct l as [|q l]; [done|]. apply Forall_cons_iff in Hl as [Hq _]. cbn [insert_desc fst].
        by rewrite (proj2 (Z.ltb_lt _ _)) by lia.
      * destruct (_ <? _); [done|]. by rewrite IH.
    + rewrite insert_desc_perm. cbn [length]. lia.
    + rewrite insert_desc_perm. constructor; [cbn; lia|]. revert Fh. apply List.Forall_impl. intros a. lia.
Qed.

(** C31: The peak search.  The positions found are exactly the local maxima above
    the threshold, in order, and the four indices are the first four of the
    peaks ranked by height, the earlier of equals first.  Peaks of at most -100
    stand behind the indices the array held before; when there are none of
    these, every index used is that of a peak found. *)
Theorem peak_search_exact cv thr pv pi ind : len67 cv -> length pv = 67%nat -> length pi = 65%nat -> length ind = 4%nat ->
  let ps := peaks cv thr 65 in let n := Z.of_nat (length ps) in
  exists pv' pi' d ranking, find_peaks cv thr pv pi = Some (pv', pi', n) /\
    (forall i, 0 <= i < n -> arr pi' i = arr ps i /\ arr pv' i = arr cv (arr ps i)) /\
    FindFour32 pv' n ind = Some d /\ d = map snd (take 4 ranking) /\
    ranking = fold_left (fun l i => insert_desc (arr cv (arr ps i), i) l) (seqZ 0 n) (zip [-100; -100; -100; -100] ind) /\
    falling ranking /\
    ranking ≡ₚ map (fun i => (arr cv (arr ps i), i)) (seqZ 0 n) ++ zip [-100; -100; -100; -100] ind /\
    ((forall k, In k ps -> -100 < arr cv k) -> forall i, 0 <= i < Z.min n 4 -> 0 <= arr d i < n).
Proof.
  intros Lc Lv Li L4 ps n. destruct (find_peaks_spec cv thr pv pi) as (pv' & pi' & E & Ov & Oi); [done|lia|lia|].
  pose proof (length_peaks cv thr 65 ltac:(lia)) as Hn. fold ps n in E, Hn. fold ps in Ov, Oi.
  assert (forall i, 0 <= i < n -> arr pi' i = arr ps i /\ arr pv' i = arr cv (arr ps i)) as Hcells.
  { intros i Hi. destruct Ov as (_ & V & _), Oi as (_ & W & _). rewrite length_map in V. specialize (V i Hi). specialize (W i Hi).
    rewrite Z.mul_1_l, Z.add_0_l in V, W. split; [done|]. rewrite V. unfold arr at 1 3.
    rewrite (nth_indep _ 0 (arr cv 0)) by (rewrite length_map; lia). apply map_nth. }
  assert (length pv' = 67%nat) as Lv' by (rewrite <-Lv; apply Ov).
  set (l0 := zip [-100; -100; -100; -100] ind). assert (falling l0 /\ Forall (fun q => q.1 <= -100) l0) as [F0 H0].
  { destruct ind as [|i0 [|i1 [|i2 [|i3 [|] ] ] ] ]; try discriminate L4. unfold falling, l0. split; repeat constructor; cbn; lia. }
  assert (forall m, (m <= Z.to_nat n)%nat -> ranked pv' (Z.of_nat m) l0
    = fold_left (fun l i => insert_desc (arr cv (arr ps i), i) l) (seqZ 0 (Z.of_nat m)) l0) as ER.
  { induction m as [|m IH]; intros Hm; [done|]. rewrite Nat2Z.inj_succ. unfold Z.succ.
    rewrite ranked_next, seqZ_app, fold_left_app, <-IH by lia. rewrite (seqZ_cons _ 1) by lia. cbn [fold_left seqZ Z.pred].
    rewrite Z.add_0_l. by destruct (Hcells (Z.of_nat m)) as [_ ->]; [lia|]. }
  specialize (ER (Z.to_nat n) ltac:(lia)). rewrite Z2Nat.id in ER by lia.
  destruct (ranked_sorted pv' n l0) as [Fr Pr]; [lia|done|].
  exists pv', pi', (map snd (take 4 (ranked pv' n l0))), (ranked pv' n l0). split; [exact E|]. split; [exact Hcells|].
  split; [by apply FindFour32_spec; [|lia]|]. split; [done|]. split; [exact ER|]. split; [exact Fr|]. split.
  - rewrite Pr. apply Permutation_app_tail. rewrite (map_ext_in _ (fun i => (arr cv (arr ps i), i))); [done|].
    intros i Hi. apply list_elem_of_In, elem_of_seqZ in Hi. by destruct (Hcells i) as [_ ->]; [lia|].
  - intros Hhigh i Hi. destruct (ranked_prefix pv' n l0) as (h & -> & Lh & Fh); [lia| |done|].
    + intros k Hk. destruct (Hcells k Hk) as [_ ->]. apply Hhigh, nth_In. lia.
    + rewrite take_app, map_app. unfold arr. rewrite app_nth1 by (rewrite length_map, length_take; lia).
      rewrite (nth_indep _ 0 (0, 0).2) by (rewrite length_map, length_take; lia). rewrite map_nth.
      apply (Forall_take _ 4) in Fh. rewrite List.Forall_forall in Fh. apply Fh, nth_In. rewrite length_take. lia.
Qed.

(** Two peaks above the threshold, of equal height. *)
Lemma peak_search_exact_witness :
  let cv := 0 :: [5; 300; 10; 20; 300; 4] ++ repeat 0 60 in
  exists pv' pi', find_peaks cv 50 (repeat 9 67) (repeat 8 65) = Some (pv', pi', 2) /\ arr pi' 0 = 2 /\ arr pi' 1 = 5 /\
    FindFour32 pv' 2 [0; 0; 0; 0] = Some [0; 1; 0; 0].
Proof.
  intros cv. destruct (peak_search_exact cv 50 (repeat 9 67) (repeat 8 65) [0; 0; 0; 0])
    as (pv' & pi' & d & rk & E & Hc & Ed & -> & -> & _); [reflexivity..|]. exists pv', pi'. split; [exact E|].
  split; [destruct (Hc 0) as [-> _]; [split; [lia|vm_compute; reflexivity]|vm_compute; reflexivity]|].
  split; [destruct (Hc 1) as [-> _]; [split; [lia|vm_compute; reflexivity]|vm_compute; reflexivity]|].
  change 2 with (Z.of_nat (length (peaks cv 50 65))). rewrite Ed. vm_compute. reflexivity.
Defined.

(** The second search starts from the indices of the first and does not reset
    them: a peak of height -150 or less leaves a first-pass index in place, which
    the interpolation then uses.  In silence the two halves of the frame get lags of
    138 and 14 samples, the latter below [PITCH_MIN_LAG]. *)
Theorem pitch_estimate_limits :
  FindFour32 [-150; -200] 2 [3; 1; 0; 2] = Some [3; 1; 0; 2] /\
  let l := {| buf_dec16 := repeat 9 192; data_vec := repeat 7 240; cv1q := repeat 5 67; cv2q := repeat 6 67;
              peakvq := repeat 4 67; peakiq := repeat 3 65 |} in
  exists s', WebRtcIsacfix_InitialPitch l (repeat 0 240) WebRtcIsacfix_InitPitchAnalysis [1; 2; 3; 4]
    = Some (s', [17664; 17664; 1792; 1792]) /\ 1792 < 128 * PITCH_MIN_LAG.
Proof. split; [vm_compute; reflexivity|]. eexists; split; vm_compute; reflexivity. Qed.

(** A frame of a square wave from the initial state, whatever the local arrays
    hold. *)
Lemma pitch_analysis_invariant_witness :
  let l := {| buf_dec16 := repeat 9 192; data_vec := repeat 7 240; cv1q := repeat 5 67; cv2q := repeat 6 67;
              peakvq := repeat 4 67; peakiq := repeat 3 65 |} in
  exists out' s' gs, WebRtcIsacfix_PitchAnalysis l (repeat 1 430) (repeat 2 454) (repeat 3 264) (square_wave 3000 50 240)
    (repeat 0 264) WebRtcIsacfix_InitPitchAnalysis [0; 0; 0; 0] [0; 0; 0; 0] = Some (out', s', [5376; 5376; 6070; 6070], gs) /\
    analysis_ok s'.
Proof.
  intros l. destruct pitch_analysis_invariant as [H0 H].
  destruct (H l (repeat 1 430) (repeat 2 454) (repeat 3 264) (square_wave 3000 50 240) (repeat 0 264)
    WebRtcIsacfix_InitPitchAnalysis [0; 0; 0; 0] [0; 0; 0; 0]) as (out' & s' & lag0 & lag2 & gs & E & _ & _ & _ & _ & _ & _ & _ & Hok);
    [..|exact H0|reflexivity|reflexivity|].
  - split_and!; try reflexivity. apply (bool_decide_unpack _). vm_compute. exact I.
  - split; [reflexivity|]. apply (bool_decide_unpack _). vm_compute. exact I.
  - split; [reflexivity|]. apply (bool_decide_unpack _). vm_compute. exact I.
  - reflexivity.
  - vm_compute. lia.
  - apply (bool_decide_unpack _). vm_compute. exact I.
  - vm_compute. lia.
  - exists out', s', gs. split; [|exact Hok]. assert ([lag0; lag0; lag2; lag2] = [5376; 5376; 6070; 6070]) as <-; [|exact E].
    revert E. match goal with |- ?f = _ -> _ => assert (match f with Some (_, _, ls, _) => ls | None => [] end
      = [5376; 5376; 6070; 6070]) as Hv by (vm_compute; reflexivity) end. intros E. by rewrite E in Hv.
Defined.
