(* ===== verification/IsacTransform.v ===== *)
(** The transform of the fixed-point iSAC codec:
    [modules/audio_coding/codecs/isac/fix/source/fft.c] (the complex transform of
    240 points in factors 4, 3, 5 and 4), [transform.c] with
    [transform_tables.c] (time signal to spectrum and back).  The portable C
    variants are modelled; [None] is an access outside an array.  A complex
    array is the pair of its real and imaginary arrays. *)
From S2P Require Import Prelude Signal SplInl SplVec IsacSpectrum IsacPitchFilter.

(** ** fft.c *)

Definition kSortTabFft : list Z :=
  [0; 60; 120; 180; 20; 80; 140; 200; 40; 100; 160; 220; 4; 64; 124; 184; 24; 84; 144; 204; 44;
   104; 164; 224; 8; 68; 128; 188; 28; 88; 148; 208; 48; 108; 168; 228; 12; 72; 132; 192; 32; 92;
   152; 212; 52; 112; 172; 232; 16; 76; 136; 196; 36; 96; 156; 216; 56; 116; 176; 236; 1; 61; 121;
   181; 21; 81; 141; 201; 41; 101; 161; 221; 5; 65; 125; 185; 25; 85; 145; 205; 45; 105; 165; 225;
   9; 69; 129; 189; 29; 89; 149; 209; 49; 109; 169; 229; 13; 73; 133; 193; 33; 93; 153; 213; 53;
   113; 173; 233; 17; 77; 137; 197; 37; 97; 157; 217; 57; 117; 177; 237; 2; 62; 122; 182; 22; 82;
   142; 202; 42; 102; 162; 222; 6; 66; 126; 186; 26; 86; 146; 206; 46; 106; 166; 226; 10; 70; 130;
   190; 30; 90; 150; 210; 50; 110; 170; 230; 14; 74; 134; 194; 34; 94; 154; 214; 54; 114; 174;
   234; 18; 78; 138; 198; 38; 98; 158; 218; 58; 118; 178; 238; 3; 63; 123; 183; 23; 83; 143; 203;
   43; 103; 163; 223; 7; 67; 127; 187; 27; 87; 147; 207; 47; 107; 167; 227; 11; 71; 131; 191; 31;
   91; 151; 211; 51; 111; 171; 231; 15; 75; 135; 195; 35; 95; 155; 215; 55; 115; 175; 235; 19; 79;
   139; 199; 39; 99; 159; 219; 59; 119; 179; 239].

Definition kCosTabFfftQ14 : list Z :=
  [16384; 16378; 16362; 16333; 16294; 16244; 16182; 16110; 16026; 15931; 15826; 15709; 15582;
   15444; 15296; 15137; 14968; 14788; 14598; 14399; 14189; 13970; 13741; 13502; 13255; 12998;
   12733; 12458; 12176; 11885; 11585; 11278; 10963; 10641; 10311; 9974; 9630; 9280; 8923; 8561;
   8192; 7818; 7438; 7053; 6664; 6270; 5872; 5469; 5063; 4653; 4240; 3825; 3406; 2986; 2563; 2139;
   1713; 1285; 857; 429; 0; -429; -857; -1285; -1713; -2139; -2563; -2986; -3406; -3825; -4240;
   -4653; -5063; -5469; -5872; -6270; -6664; -7053; -7438; -7818; -8192; -8561; -8923; -9280;
   -9630; -9974; -10311; -10641; -10963; -11278; -11585; -11885; -12176; -12458; -12733; -12998;
   -13255; -13502; -13741; -13970; -14189; -14399; -14598; -14788; -14968; -15137; -15296; -15444;
   -15582; -15709; -15826; -15931; -16026; -16110; -16182; -16244; -16294; -16333; -16362; -16378;
   -16384; -16378; -16362; -16333; -16294; -16244; -16182; -16110; -16026; -15931; -15826; -15709;
   -15582; -15444; -15296; -15137; -14968; -14788; -14598; -14399; -14189; -13970; -13741; -13502;
   -13255; -12998; -12733; -12458; -12176; -11885; -11585; -11278; -10963; -10641; -10311; -9974;
   -9630; -9280; -8923; -8561; -8192; -7818; -7438; -7053; -6664; -6270; -5872; -5469; -5063;
   -4653; -4240; -3825; -3406; -2986; -2563; -2139; -1713; -1285; -857; -429; 0; 429; 857; 1285;
   1713; 2139; 2563; 2986; 3406; 3825; 4240; 4653; 5063; 5469; 5872; 6270; 6664; 7053; 7438; 7818;
   8192; 8561; 8923; 9280; 9630; 9974; 10311; 10641; 10963; 11278; 11585; 11885; 12176; 12458;
   12733; 12998; 13255; 13502; 13741; 13970; 14189; 14399; 14598; 14788; 14968; 15137; 15296;
   15444; 15582; 15709; 15826; 15931; 16026; 16110; 16182; 16244; 16294; 16333; 16362; 16378].

(** [(int16_t)WEBRTC_SPL_MUL_16_16_RSFT(a, b, 14)]. *)
Definition mul_q14 (a b : Z) : Z := i16 (WEBRTC_SPL_MUL_16_16 a b ≫ 14).

Definition ComplexArray : Type := list Z * list Z.
Definition rd_z (D : ComplexArray) (k : Z) : option (Z * Z) := a ← rd D.1 k; b ← rd D.2 k; Some (a, b).
Definition wr_z (D : ComplexArray) (k : Z) (z : Z * Z) : option ComplexArray :=
  re ← wr D.1 k z.1; im ← wr D.2 k z.2; Some (re, im).

(** A factor [cos + j sin]. *)
Definition rotate_q14 (c s : Z) (z : Z * Z) : Z * Z :=
  (i16 (mul_q14 c z.1 - mul_q14 s z.2), i16 (mul_q14 s z.1 + mul_q14 c z.2)).

(** The entry of the cosine table that holds a sine, negated for [iSign = 1]. *)
Definition table_sin (iSign s : Z) : Z := if iSign =? 1 then i16 (- s) else s.

(** The four values for the cells [k0], [k1], [k2] and [k3]. *)
Definition radix4 (iSign : Z) (z0 z1 z2 z3 : Z * Z) : (Z * Z) * (Z * Z) * (Z * Z) * (Z * Z) :=
  let akpQx := i16 (z0.1 + z2.1) in let akmQx := i16 (z0.1 - z2.1) in
  let ajpQx := i16 (z1.1 + z3.1) in let ajmQx := i16 (z1.1 - z3.1) in
  let bkpQx := i16 (z0.2 + z2.2) in let bkmQx := i16 (z0.2 - z2.2) in
  let bjpQx := i16 (z1.2 + z3.2) in let bjmQx := i16 (z1.2 - z3.2) in
  let y0 := (i16 (akpQx + ajpQx), i16 (bkpQx + bjpQx)) in
  let y2 := (i16 (akpQx - ajpQx), i16 (bkpQx - bjpQx)) in
  if iSign <? 0 then (y0, (i16 (akmQx + bjmQx), i16 (bkmQx - ajmQx)), y2, (i16 (akmQx - bjmQx), i16 (bkmQx + ajmQx)))
  else (y0, (i16 (akmQx - bjmQx), i16 (bkmQx + ajmQx)), y2, (i16 (akmQx + bjmQx), i16 (bkmQx - ajmQx))).

(** The first factor of 4, with its rotations. *)
Definition fft_first4 (iSign : Z) (D : ComplexArray) : option ComplexArray :=
  for_opt 60 (fun kk D =>
    z0 ← rd_z D kk; z1 ← rd_z D (kk + 60); z2 ← rd_z D (kk + 60 + 60); z3 ← rd_z D (kk + 60 + 60 + 60);
    let '(y0, y1, y2, y3) := radix4 iSign z0 z1 z2 z3 in
    c1 ← rd kCosTabFfftQ14 kk; c2 ← rd kCosTabFfftQ14 (2 * kk); c3 ← rd kCosTabFfftQ14 (3 * kk);
    s1 ← rd kCosTabFfftQ14 (kk + 60); s2 ← rd kCosTabFfftQ14 (2 * kk + 60); s3 ← rd kCosTabFfftQ14 (3 * kk + 60);
    D ← wr_z D kk y0;
    D ← wr_z D (kk + 60) (rotate_q14 c1 (table_sin iSign s1) y1);
    D ← wr_z D (kk + 60 + 60) (rotate_q14 c2 (table_sin iSign s2) y2);
    wr_z D (kk + 60 + 60 + 60) (rotate_q14 c3 (table_sin iSign s3) y3)) D.

(** The three values for the cells [kk], [k1] and [k2]. *)
Definition radix3 (sss60Q14 : Z) (z0 z1 z2 : Z * Z) : (Z * Z) * (Z * Z) * (Z * Z) :=
  let ajQx := i16 (z1.1 + z2.1) in let bjQx := i16 (z1.2 + z2.2) in
  let y0 := (i16 (z0.1 + ajQx), i16 (z0.2 + bjQx)) in
  let akQx := i16 (z0.1 - (ajQx ≫ 1)) in let bkQx := i16 (z0.2 - (bjQx ≫ 1)) in
  let ajQx := mul_q14 sss60Q14 (i16 (z1.1 - z2.1)) in
  let bjQx := mul_q14 sss60Q14 (i16 (z1.2 - z2.2)) in
  (y0, (i16 (akQx - bjQx), i16 (bkQx + ajQx)), (i16 (akQx + bjQx), i16 (bkQx - ajQx))).

(** The factor of 3; [kk] goes through the loops, [k1] and [k2] stay 20 and 40
    ahead of it. *)
Definition fft_factor3 (sss60Q14 : Z) (D : ComplexArray) : option ComplexArray :=
  '(_, D) ← for_opt 4 (fun _ '(kk, D) =>
    '(kk, D) ← for_opt 20 (fun _ '(kk, D) =>
      z0 ← rd_z D kk; z1 ← rd_z D (kk + 20); z2 ← rd_z D (kk + 40);
      let '(y0, y1, y2) := radix3 sss60Q14 z0 z1 z2 in
      D ← wr_z D kk y0; D ← wr_z D (kk + 20) y1; D ← wr_z D (kk + 40) y2;
      Some (kk + 1, D)) (kk, D);
    Some (kk + 40, D)) (0, D);
  Some D.

(** One rotation of the cell [kk], which then advances by [step]. *)
Definition rotate_cell (c s step : Z) (st : Z * ComplexArray) : option (Z * ComplexArray) :=
  let '(kk, D) := st in
  z ← rd_z D kk; D ← wr_z D kk (rotate_q14 c s z); Some (kk + step, D).

Definition fft_rotate3 (iSign : Z) (D : ComplexArray) : option ComplexArray :=
  '(_, _, D) ← for_opt 19 (fun _ '(kk, ff, D) =>
    let kk := kk + 20 in
    let ff := ff + 4 in
    '(kk, D) ← for_opt 2 (fun hh '(kk, D) =>
      let ee := ff + hh * ff in
      c ← rd kCosTabFfftQ14 ee; s ← rd kCosTabFfftQ14 (ee + 60);
      '(kk, D) ← for_opt 4 (fun _ => rotate_cell c (table_sin iSign s) 60) (kk, D);
      Some (kk - 220, D)) (kk, D);
    Some (kk - 59, ff, D)) (1, 0, D);
  Some D.

(** The five values for the cells [kk] and [k1] to [k4]. *)
Definition radix5 (ccc72Q14 sss72Q14 ccc2Q14 sss2Q14 : Z) (z0 z1 z2 z3 z4 : Z * Z)
  : (Z * Z) * (Z * Z) * (Z * Z) * (Z * Z) * (Z * Z) :=
  let akpQx := i16 (z1.1 + z4.1) in let akmQx := i16 (z1.1 - z4.1) in
  let bkpQx := i16 (z1.2 + z4.2) in let bkmQx := i16 (z1.2 - z4.2) in
  let ajpQx := i16 (z2.1 + z3.1) in let ajmQx := i16 (z2.1 - z3.1) in
  let bjpQx := i16 (z2.2 + z3.2) in let bjmQx := i16 (z2.2 - z3.2) in
  let y0 := (i16 (z0.1 + akpQx + ajpQx), i16 (z0.2 + bkpQx + bjpQx)) in
  let akQx := i16 (mul_q14 ccc72Q14 akpQx + mul_q14 ccc2Q14 ajpQx + z0.1) in
  let bkQx := i16 (mul_q14 ccc72Q14 bkpQx + mul_q14 ccc2Q14 bjpQx + z0.2) in
  let ajQx := i16 (mul_q14 sss72Q14 akmQx + mul_q14 sss2Q14 ajmQx) in
  let bjQx := i16 (mul_q14 sss72Q14 bkmQx + mul_q14 sss2Q14 bjmQx) in
  let y1 := (i16 (akQx - bjQx), i16 (bkQx + ajQx)) in
  let y4 := (i16 (akQx + bjQx), i16 (bkQx - ajQx)) in
  let akQx := i16 (mul_q14 ccc2Q14 akpQx + mul_q14 ccc72Q14 ajpQx + z0.1) in
  let bkQx := i16 (mul_q14 ccc2Q14 bkpQx + mul_q14 ccc72Q14 bjpQx + z0.2) in
  let ajQx := i16 (mul_q14 sss2Q14 akmQx - mul_q14 sss72Q14 ajmQx) in
  let bjQx := i16 (mul_q14 sss2Q14 bkmQx - mul_q14 sss72Q14 bjmQx) in
  (y0, y1, (i16 (akQx - bjQx), i16 (bkQx + ajQx)), (i16 (akQx + bjQx), i16 (bkQx - ajQx)), y4).

Definition fft_factor5 (ccc72Q14 sss72Q14 iSign : Z) (D : ComplexArray) : option ComplexArray :=
  ccc2Q14 ← rd kCosTabFfftQ14 96;
  s ← rd kCosTabFfftQ14 84;
  let sss2Q14 := table_sin iSign s in
  '(_, D) ← for_opt 4 (fun _ '(kk, D) =>
    '(kk, D) ← for_opt 12 (fun _ '(kk, D) =>
      z0 ← rd_z D kk; z1 ← rd_z D (kk + 4); z2 ← rd_z D (kk + 8); z3 ← rd_z D (kk + 12); z4 ← rd_z D (kk + 16);
      let '(y0, y1, y2, y3, y4) := radix5 ccc72Q14 sss72Q14 ccc2Q14 sss2Q14 z0 z1 z2 z3 z4 in
      D ← wr_z D kk y0; D ← wr_z D (kk + 4) y1; D ← wr_z D (kk + 16) y4;
      D ← wr_z D (kk + 8) y2; D ← wr_z D (kk + 12) y3;
      Some (kk + 16 + 4, D)) (kk, D);
    Some (kk - 239, D)) (0, D);
  Some D.

Definition fft_rotate5 (iSign : Z) (D : ComplexArray) : option ComplexArray :=
  '(_, D) ← for_opt 3 (fun gg '(kk, D) =>
    let kk := kk + 4 in
    let dd := 12 + 12 * gg in
    '(kk, _, D) ← for_opt 4 (fun _ '(kk, ff, D) =>
      let ff := ff + dd in
      '(kk, D) ← for_opt 12 (fun _ st =>
        c ← rd kCosTabFfftQ14 ff; s ← rd kCosTabFfftQ14 (ff + 60);
        rotate_cell c (table_sin iSign s) 20 st) (kk, D);
      Some (kk - 236, ff, D)) (kk, 0, D);
    Some (kk - 19, D)) (1, D);
  Some D.

Definition fft_last4 (iSign : Z) (D : ComplexArray) : option ComplexArray :=
  for_opt 60 (fun i D =>
    let kk := 4 * i in
    z0 ← rd_z D kk; z1 ← rd_z D (kk + 1); z2 ← rd_z D (kk + 1 + 1); z3 ← rd_z D (kk + 1 + 1 + 1);
    let '(y0, y1, y2, y3) := radix4 iSign z0 z1 z2 z3 in
    D ← wr_z D kk y0; D ← wr_z D (kk + 1) y1; D ← wr_z D (kk + 1 + 1) y2; wr_z D (kk + 1 + 1 + 1) y3) D.

(** [ReDATAQx], [ImDATAQx] are copies of the first 240 cells. *)
Definition fft_permute (D : ComplexArray) : option ComplexArray :=
  re ← mem_read D.1 0 240; im ← mem_read D.2 0 240;
  for_opt 240 (fun ii D => k ← rd kSortTabFft ii; z ← rd_z (re, im) k; wr_z D ii z) D.

Definition WebRtcIsacfix_FftRadix16Fastest (D : ComplexArray) (iSign : Z) : option ComplexArray :=
  sss60Q14 ← rd kCosTabFfftQ14 20; ccc72Q14 ← rd kCosTabFfftQ14 48; sss72Q14 ← rd kCosTabFfftQ14 12;
  let sss72Q14 := if iSign <? 0 then i16 (- sss72Q14) else sss72Q14 in
  let sss60Q14 := if iSign <? 0 then i16 (- sss60Q14) else sss60Q14 in
  D ← fft_first4 iSign D;
  D ← fft_factor3 sss60Q14 D;
  D ← fft_rotate3 iSign D;
  D ← fft_factor5 ccc72Q14 sss72Q14 iSign D;
  D ← fft_rotate5 iSign D;
  D ← fft_last4 iSign D;
  fft_permute D.

(** ** transform.c and transform_tables.c *)

Definition WebRtcIsacfix_kCosTab1 : list Z :=
  [16384; 16383; 16378; 16371; 16362; 16349; 16333; 16315; 16294; 16270; 16244; 16214; 16182;
   16147; 16110; 16069; 16026; 15980; 15931; 15880; 15826; 15769; 15709; 15647; 15582; 15515;
   15444; 15371; 15296; 15218; 15137; 15053; 14968; 14879; 14788; 14694; 14598; 14500; 14399;
   14295; 14189; 14081; 13970; 13856; 13741; 13623; 13502; 13380; 13255; 13128; 12998; 12867;
   12733; 12597; 12458; 12318; 12176; 12031; 11885; 11736; 11585; 11433; 11278; 11121; 10963;
   10803; 10641; 10477; 10311; 10143; 9974; 9803; 9630; 9456; 9280; 9102; 8923; 8743; 8561; 8377;
   8192; 8006; 7818; 7629; 7438; 7246; 7053; 6859; 6664; 6467; 6270; 6071; 5872; 5671; 5469; 5266;
   5063; 4859; 4653; 4447; 4240; 4033; 3825; 3616; 3406; 3196; 2986; 2775; 2563; 2351; 2139; 1926;
   1713; 1499; 1285; 1072; 857; 643; 429; 214; 0; -214; -429; -643; -857; -1072; -1285; -1499;
   -1713; -1926; -2139; -2351; -2563; -2775; -2986; -3196; -3406; -3616; -3825; -4033; -4240;
   -4447; -4653; -4859; -5063; -5266; -5469; -5671; -5872; -6071; -6270; -6467; -6664; -6859;
   -7053; -7246; -7438; -7629; -7818; -8006; -8192; -8377; -8561; -8743; -8923; -9102; -9280;
   -9456; -9630; -9803; -9974; -10143; -10311; -10477; -10641; -10803; -10963; -11121; -11278;
   -11433; -11585; -11736; -11885; -12031; -12176; -12318; -12458; -12597; -12733; -12867; -12998;
   -13128; -13255; -13380; -13502; -13623; -13741; -13856; -13970; -14081; -14189; -14295; -14399;
   -14500; -14598; -14694; -14788; -14879; -14968; -15053; -15137; -15218; -15296; -15371; -15444;
   -15515; -15582; -15647; -15709; -15769; -15826; -15880; -15931; -15980; -16026; -16069; -16110;
   -16147; -16182; -16214; -16244; -16270; -16294; -16315; -16333; -16349; -16362; -16371; -16378;
   -16383].

Definition WebRtcIsacfix_kSinTab1 : list Z :=
  [0; 214; 429; 643; 857; 1072; 1285; 1499; 1713; 1926; 2139; 2351; 2563; 2775; 2986; 3196; 3406;
   3616; 3825; 4033; 4240; 4447; 4653; 4859; 5063; 5266; 5469; 5671; 5872; 6071; 6270; 6467; 6664;
   6859; 7053; 7246; 7438; 7629; 7818; 8006; 8192; 8377; 8561; 8743; 8923; 9102; 9280; 9456; 9630;
   9803; 9974; 10143; 10311; 10477; 10641; 10803; 10963; 11121; 11278; 11433; 11585; 11736; 11885;
   12031; 12176; 12318; 12458; 12597; 12733; 12867; 12998; 13128; 13255; 13380; 13502; 13623;
   13741; 13856; 13970; 14081; 14189; 14295; 14399; 14500; 14598; 14694; 14788; 14879; 14968;
   15053; 15137; 15218; 15296; 15371; 15444; 15515; 15582; 15647; 15709; 15769; 15826; 15880;
   15931; 15980; 16026; 16069; 16110; 16147; 16182; 16214; 16244; 16270; 16294; 16315; 16333;
   16349; 16362; 16371; 16378; 16383; 16384; 16383; 16378; 16371; 16362; 16349; 16333; 16315;
   16294; 16270; 16244; 16214; 16182; 16147; 16110; 16069; 16026; 15980; 15931; 15880; 15826;
   15769; 15709; 15647; 15582; 15515; 15444; 15371; 15296; 15218; 15137; 15053; 14968; 14879;
   14788; 14694; 14598; 14500; 14399; 14295; 14189; 14081; 13970; 13856; 13741; 13623; 13502;
   13380; 13255; 13128; 12998; 12867; 12733; 12597; 12458; 12318; 12176; 12031; 11885; 11736;
   11585; 11433; 11278; 11121; 10963; 10803; 10641; 10477; 10311; 10143; 9974; 9803; 9630; 9456;
   9280; 9102; 8923; 8743; 8561; 8377; 8192; 8006; 7818; 7629; 7438; 7246; 7053; 6859; 6664; 6467;
   6270; 6071; 5872; 5671; 5469; 5266; 5063; 4859; 4653; 4447; 4240; 4033; 3825; 3616; 3406; 3196;
   2986; 2775; 2563; 2351; 2139; 1926; 1713; 1499; 1285; 1072; 857; 643; 429; 214].

Definition WebRtcIsacfix_kSinTab2 : list Z :=
  [16384; -16381; 16375; -16367; 16356; -16342; 16325; -16305; 16283; -16257; 16229; -16199;
   16165; -16129; 16090; -16048; 16003; -15956; 15906; -15853; 15798; -15739; 15679; -15615;
   15549; -15480; 15408; -15334; 15257; -15178; 15095; -15011; 14924; -14834; 14741; -14647;
   14549; -14449; 14347; -14242; 14135; -14025; 13913; -13799; 13682; -13563; 13441; -13318;
   13192; -13063; 12933; -12800; 12665; -12528; 12389; -12247; 12104; -11958; 11810; -11661;
   11509; -11356; 11200; -11042; 10883; -10722; 10559; -10394; 10227; -10059; 9889; -9717; 9543;
   -9368; 9191; -9013; 8833; -8652; 8469; -8285; 8099; -7912; 7723; -7534; 7342; -7150; 6957;
   -6762; 6566; -6369; 6171; -5971; 5771; -5570; 5368; -5165; 4961; -4756; 4550; -4344; 4137;
   -3929; 3720; -3511; 3301; -3091; 2880; -2669; 2457; -2245; 2032; -1819; 1606; -1392; 1179;
   -965; 750; -536; 322; -107].

(** A local array of [FRAMESAMPLES/2] cells of which the code fills the first
    [n]; where it is used these are all cells, so the content before does not
    matter. *)
Definition fill (n : Z) (f : Z -> option Z) : option (list Z) :=
  for_opt n (fun k l => v ← f k; wr l k v) (replicate (Z.to_nat (Z.quot FRAMESAMPLES 2)) 0).

(** The shift that brings the largest magnitude below [2^7]. *)
Definition shift_for (x y : Z) : Z := i16 (WebRtcSpl_NormW32 (if x <? y then y else x) - 24).
Definition spec_shift (re im : list Z) : option Z :=
  x ← WebRtcSpl_MaxAbsValueW32C re; y ← WebRtcSpl_MaxAbsValueW32C im; Some (shift_for x y).

(** A sample on its way into and out of the transform. *)
Definition to_fft (sh v : Z) : Z :=
  if 0 <=? sh then i16 (i32 (v ≪ sh)) else i16 (i32 (v + i32 (1 ≪ (- sh - 1))) ≫ (- sh)).
Definition from_fft (sh v : Z) : Z := if 0 <=? sh then v ≫ sh else i32 (v ≪ (- sh)).

(** Sample [k] of the modulated signal. *)
Definition modulate_re (tmp1rQ14 tmp1iQ14 a b : Z) : Z :=
  i32 (WEBRTC_SPL_MUL_16_32_RSFT16 16921 (i32 (i32 (tmp1rQ14 * a) + i32 (tmp1iQ14 * b)) ≫ 7) + 4) ≫ 3.
Definition modulate_im (tmp1rQ14 tmp1iQ14 a b : Z) : Z :=
  i32 (WEBRTC_SPL_MUL_16_32_RSFT16 16921 (i32 (i32 (tmp1rQ14 * b) - i32 (tmp1iQ14 * a)) ≫ 7) + 4) ≫ 3.

(** Spectrum values [k] and [239 - k]: real and imaginary parts. *)
Definition separate (tmp1rQ14 tmp1iQ14 xrQ16 xiQ16 yrQ16 yiQ16 : Z) : (Z * Z) * (Z * Z) :=
  let m := WEBRTC_SPL_MUL_16_32_RSFT14 in
  ((i16 (i32 (m tmp1rQ14 xrQ16 - m tmp1iQ14 xiQ16) ≫ 9), i16 (i32 (m tmp1iQ14 xrQ16 + m tmp1rQ14 xiQ16) ≫ 9)),
   (i16 (i32 (- m tmp1iQ14 yrQ16 - m tmp1rQ14 yiQ16) ≫ 9), i16 (i32 (- m tmp1rQ14 yrQ16 + m tmp1iQ14 yiQ16) ≫ 9))).

(** The code transforms in [inre1Q9] and [inre2Q9], which may be the output
    arrays; the outputs are written after the last read of them. *)
Definition WebRtcIsacfix_Time2SpecC (inre1Q9 inre2Q9 outreQ7 outimQ7 : list Z) : option (list Z * list Z) :=
  tmpreQ16 ← fill (Z.quot FRAMESAMPLES 2) (fun k =>
    c ← rd WebRtcIsacfix_kCosTab1 k; s ← rd WebRtcIsacfix_kSinTab1 k; a ← rd inre1Q9 k; b ← rd inre2Q9 k;
    Some (modulate_re c s a b));
  tmpimQ16 ← fill (Z.quot FRAMESAMPLES 2) (fun k =>
    c ← rd WebRtcIsacfix_kCosTab1 k; s ← rd WebRtcIsacfix_kSinTab1 k; a ← rd inre1Q9 k; b ← rd inre2Q9 k;
    Some (modulate_im c s a b));
  sh ← spec_shift tmpreQ16 tmpimQ16;
  D ← for_opt (Z.quot FRAMESAMPLES 2) (fun k D =>
    a ← rd tmpreQ16 k; b ← rd tmpimQ16 k; wr_z D k (to_fft sh a, to_fft sh b)) (inre1Q9, inre2Q9);
  D ← WebRtcIsacfix_FftRadix16Fastest D (-1);
  tmpreQ16 ← fill (Z.quot FRAMESAMPLES 2) (fun k => v ← rd D.1 k; Some (from_fft sh v));
  tmpimQ16 ← fill (Z.quot FRAMESAMPLES 2) (fun k => v ← rd D.2 k; Some (from_fft sh v));
  for_opt (Z.quot FRAMESAMPLES 4) (fun k out =>
    a ← rd tmpreQ16 k; b ← rd tmpimQ16 k;
    a' ← rd tmpreQ16 (Z.quot FRAMESAMPLES 2 - 1 - k); b' ← rd tmpimQ16 (Z.quot FRAMESAMPLES 2 - 1 - k);
    r ← rd WebRtcIsacfix_kSinTab2 (Z.quot FRAMESAMPLES 4 - 1 - k); i ← rd WebRtcIsacfix_kSinTab2 k;
    let '(z, z') := separate (i16 (- r)) i (i32 (a + a')) (i32 (b - b')) (i32 (b + b')) (i32 (- a + a')) in
    out ← wr_z out k z; wr_z out (Z.quot FRAMESAMPLES 2 - 1 - k) z') (outreQ7, outimQ7).

(** The four values of step [k]: for the cells [k] and [239 - k]. *)
Definition combine (tmp1rQ14 tmp1iQ14 re im re2 im2 : Z) : (Z * Z) * (Z * Z) :=
  let m := WEBRTC_SPL_MUL_16_32_RSFT14 in
  let xrQ16 := i32 (m tmp1rQ14 re + m tmp1iQ14 im) in
  let xiQ16 := i32 (m tmp1rQ14 im - m tmp1iQ14 re) in
  let yrQ16 := i32 (- m tmp1rQ14 im2 - m tmp1iQ14 re2) in
  let yiQ16 := i32 (- m tmp1rQ14 re2 + m tmp1iQ14 im2) in
  ((i32 (xrQ16 - yiQ16), i32 (xiQ16 + yrQ16)), (i32 (xrQ16 + yiQ16), i32 (- xiQ16 + yrQ16))).

(** The last step on sample [k]. *)
Definition demodulate (tmp1rQ14 tmp1iQ14 re im : Z) : Z * Z :=
  let m := WEBRTC_SPL_MUL_16_32_RSFT14 in
  (WEBRTC_SPL_MUL_16_32_RSFT11 31727 (i32 (m tmp1rQ14 re - m tmp1iQ14 im)),
   WEBRTC_SPL_MUL_16_32_RSFT11 31727 (i32 (m tmp1rQ14 im + m tmp1iQ14 re))).

(** The input arrays hold the transform afterwards. *)
Definition WebRtcIsacfix_Spec2TimeC (inreQ7 inimQ7 outre1Q16 outre2Q16 : list Z)
  : option (list Z * list Z * list Z * list Z) :=
  out ← for_opt (Z.quot FRAMESAMPLES 4) (fun k out =>
    r ← rd WebRtcIsacfix_kSinTab2 (Z.quot FRAMESAMPLES 4 - 1 - k); i ← rd WebRtcIsacfix_kSinTab2 k;
    re ← rd inreQ7 k; im ← rd inimQ7 k;
    re2 ← rd inreQ7 (Z.quot FRAMESAMPLES 2 - 1 - k); im2 ← rd inimQ7 (Z.quot FRAMESAMPLES 2 - 1 - k);
    let '(z, z') := combine (i16 (- r)) i (i32 (re * (1 ≪ 9))) (i32 (im * (1 ≪ 9))) (i32 (re2 * (1 ≪ 9))) (i32 (im2 * (1 ≪ 9))) in
    out ← wr_z out k z; wr_z out (Z.quot FRAMESAMPLES 2 - 1 - k) z') (outre1Q16, outre2Q16);
  re ← mem_read out.1 0 240; im ← mem_read out.2 0 240;
  sh ← spec_shift re im;
  D ← for_opt 240 (fun k D =>
    z ← rd_z out k; wr_z D k (to_fft sh z.1, to_fft sh z.2)) (inreQ7, inimQ7);
  D ← WebRtcIsacfix_FftRadix16Fastest D 1;
  out ← for_opt 240 (fun k out => z ← rd_z D k; wr_z out k (from_fft sh z.1, from_fft sh z.2)) out;
  out ← for_opt 240 (fun k out =>
    z ← rd_z out k; wr_z out k (WEBRTC_SPL_MUL_16_32_RSFT16 273 z.1, WEBRTC_SPL_MUL_16_32_RSFT16 273 z.2)) out;
  out ← for_opt (Z.quot FRAMESAMPLES 2) (fun k out =>
    c ← rd WebRtcIsacfix_kCosTab1 k; s ← rd WebRtcIsacfix_kSinTab1 k; z ← rd_z out k;
    wr_z out k (demodulate c s z.1 z.2)) out;
  Some (D.1, D.2, out.1, out.2).

(** ** What the arrays hold *)

(** The cells of [D] from 0 to 239 are given by [f]; the others are those of
    [D0]. *)
Definition holds (D0 D : ComplexArray) (f : Z -> Z * Z) : Prop :=
  length D.1 = length D0.1 /\ length D.2 = length D0.2 /\
  (forall k, 0 <= k < 240 -> (arr D.1 k, arr D.2 k) = f k) /\
  (forall k, 240 <= k -> arr D.1 k = arr D0.1 k /\ arr D.2 k = arr D0.2 k).
Definition long (D : ComplexArray) : Prop := (240 <= length D.1)%nat /\ (240 <= length D.2)%nat.
Definition put (k : Z) (z : Z * Z) (f : Z -> Z * Z) (a : Z) : Z * Z := if a =? k then z else f a.

Lemma holds_init D : holds D D (fun k => (arr D.1 k, arr D.2 k)).
Proof. by split. Qed.

Lemma holds_rd D0 D f k : long D0 -> holds D0 D f -> 0 <= k < 240 -> rd_z D k = Some (f k).
Proof.
  intros [L1 L2] (H1 & H2 & H & _) Hk. unfold rd_z. rewrite !rd_Some by lia. cbn. by rewrite H.
Qed.

Lemma holds_wr D0 D f k z : long D0 -> holds D0 D f -> 0 <= k < 240 ->
  exists D', wr_z D k z = Some D' /\ holds D0 D' (put k z f).
Proof.
  intros [L1 L2] (H1 & H2 & H & U) Hk. unfold wr_z. rewrite !wr_Some by lia. cbn. eexists; split; [reflexivity|].
  unfold holds. cbn [fst snd]. split; [by rewrite length_upd|]. split; [by rewrite length_upd|]. split.
  - intros a Ha. unfold put. cbn [fst snd]. destruct (Z.eqb_spec a k) as [->|].
    + rewrite !arr_upd_eq by lia. by destruct z.
    + rewrite !arr_upd_ne by lia. by apply H.
  - intros a Ha. cbn [fst snd]. rewrite !arr_upd_ne by lia. by apply U.
Qed.

Lemma holds_ext D0 D f g : holds D0 D f -> (forall k, 0 <= k < 240 -> f k = g k) -> holds D0 D g.
Proof. intros (H1 & H2 & H & U) E. split; [done|]. split; [done|]. split; [|done]. intros k Hk. by rewrite <-E, H. Qed.

Lemma put_eq k z f : put k z f k = z.
Proof. unfold put. by rewrite Z.eqb_refl. Qed.
Lemma put_ne k z f a : a <> k -> put k z f a = f a.
Proof. intros H. unfold put. by destruct (Z.eqb_spec a k). Qed.

(** A pass over the array in place: the cells [(b, q, j)], at [b * w + q * m + j],
    change in the order of [tau]. *)
Definition staged (B r m w : Z) (tau : Z -> Z -> Z -> Z) (new : Z -> Z -> Z -> Z * Z) (f0 : Z -> Z * Z) (T : Z)
    (f : Z -> Z * Z) : Prop :=
  forall b q j, 0 <= b < B -> 0 <= q < r -> 0 <= j < m ->
    f (b * w + q * m + j) = if tau b q j <? T then new b q j else f0 (b * w + q * m + j).

Lemma staged_start B r m w tau new f0 : (forall b q j, 0 <= b < B -> 0 <= q < r -> 0 <= j < m -> 0 <= tau b q j) ->
  staged B r m w tau new f0 0 f0.
Proof. intros H b q j Hb Hq Hj. specialize (H b q j Hb Hq Hj). destruct (Z.ltb_spec (tau b q j) 0); [lia|done]. Qed.

Lemma staged_end B r m w tau new f0 T f : staged B r m w tau new f0 T f ->
  (forall b q j, 0 <= b < B -> 0 <= q < r -> 0 <= j < m -> tau b q j < T) ->
  forall b q j, 0 <= b < B -> 0 <= q < r -> 0 <= j < m -> f (b * w + q * m + j) = new b q j.
Proof. intros H Ht b q j Hb Hq Hj. rewrite H by done. by rewrite (proj2 (Z.ltb_lt _ _)) by (apply Ht; done). Qed.

Lemma staged_old B r m w tau new f0 T f b q j : staged B r m w tau new f0 T f -> 0 <= b < B -> 0 <= q < r -> 0 <= j < m ->
  T <= tau b q j -> f (b * w + q * m + j) = f0 (b * w + q * m + j).
Proof. intros H Hb Hq Hj Ht. rewrite H by done. by rewrite (proj2 (Z.ltb_ge _ _)) by lia. Qed.

(** One step of the pass changes the cells of one time. *)
Lemma staged_next B r m w tau new f0 T f f' : staged B r m w tau new f0 T f ->
  (forall b q j, 0 <= b < B -> 0 <= q < r -> 0 <= j < m ->
     f' (b * w + q * m + j) = if tau b q j =? T then new b q j else f (b * w + q * m + j)) ->
  staged B r m w tau new f0 (T + 1) f'.
Proof.
  intros H H' b q j Hb Hq Hj. rewrite H', H by done. destruct (Z.eqb_spec (tau b q j) T) as [E|].
  - by rewrite (proj2 (Z.ltb_lt _ _)) by lia.
  - replace (tau b q j <? T + 1) with (tau b q j <? T); [done|].
    destruct (Z.ltb_spec (tau b q j) T), (Z.ltb_spec (tau b q j) (T + 1)); lia.
Qed.

(** Reads and writes of the current array, whose content the context gives. *)
Ltac z_read := match goal with
  | L : long ?D0, H : holds ?D0 ?D _ |- context [rd_z ?D ?k] => rewrite (holds_rd D0 D _ k L H), bind_Some by lia
  end.
Ltac z_write := match goal with
  | L : long ?D0, H : holds ?D0 ?D _ |- context [wr_z ?D ?k ?z] =>
      let D' := fresh "D" in let E := fresh "E" in let H' := fresh "H" in
      destruct (holds_wr D0 D _ k z L H) as (D' & E & H'); [lia|]; rewrite E, ?bind_Some; clear E H
  end.

(** The value of a cell after some writes. *)
Ltac z_cells :=
  unfold put;
  repeat match goal with |- context [?a =? ?b] => destruct (Z.eqb_spec a b); [first [lia | done]|] end;
  first [done | lia].

Definition cos_at (t : Z) : Z := arr kCosTabFfftQ14 t.
Lemma table_rd k : 0 <= k < 240 -> rd kCosTabFfftQ14 k = Some (cos_at k).
Proof. intros H. apply rd_Some. exact H. Qed.
Ltac table_read := match goal with
  | |- context [mbind _ (rd kCosTabFfftQ14 ?k)] => rewrite (table_rd k), bind_Some by lia
  end.

(** ** The transform as a recursion *)

Definition sin_at (iSign t : Z) : Z := table_sin iSign (cos_at (t + 60)).
Definition rotated (iSign t : Z) (z : Z * Z) : Z * Z :=
  if t =? 0 then z else rotate_q14 (cos_at t) (sin_at iSign t) z.
Definition sin_signed (iSign k : Z) : Z := if iSign <? 0 then i16 (- cos_at k) else cos_at k.

(** Output [q] of a butterfly. *)
Definition bfly4 (iSign q : Z) (x : Z -> Z * Z) : Z * Z :=
  let '(y0, y1, y2, y3) := radix4 iSign (x 0) (x 1) (x 2) (x 3) in
  if q =? 0 then y0 else if q =? 1 then y1 else if q =? 2 then y2 else y3.
Definition bfly3 (iSign q : Z) (x : Z -> Z * Z) : Z * Z :=
  let '(y0, y1, y2) := radix3 (sin_signed iSign 20) (x 0) (x 1) (x 2) in
  if q =? 0 then y0 else if q =? 1 then y1 else y2.
Definition bfly5 (iSign q : Z) (x : Z -> Z * Z) : Z * Z :=
  let '(y0, y1, y2, y3, y4) := radix5 (cos_at 48) (sin_signed iSign 12) (cos_at 96) (table_sin iSign (cos_at 84))
    (x 0) (x 1) (x 2) (x 3) (x 4) in
  if q =? 0 then y0 else if q =? 1 then y1 else if q =? 2 then y2 else if q =? 3 then y3 else y4.
Definition butterfly (iSign r : Z) : Z -> (Z -> Z * Z) -> Z * Z :=
  if r =? 3 then bfly3 iSign else if r =? 5 then bfly5 iSign else bfly4 iSign.

(** Decimation in frequency: output [k] of a signal of [r * m] samples is output
    [k / r] of the [m] samples that the butterfly's branch [k mod r] gives,
    rotated.  The stride of the rotations is 240 over the length. *)
Fixpoint dif (iSign : Z) (factors : list Z) (stride : Z) (x : Z -> Z * Z) (k : Z) : Z * Z :=
  match factors with
  | [] => x 0
  | r :: factors =>
      let m := 240 / (stride * r) in
      dif iSign factors (stride * r)
        (fun j => rotated iSign (stride * j * (k mod r)) (butterfly iSign r (k mod r) (fun i => x (i * m + j)))) (k / r)
  end.

(** ** The passes *)

Definition i16_pair (z : Z * Z) : Prop := is_i16 z.1 /\ is_i16 z.2.

(** Rotating by the angle 0 changes nothing. *)
Lemma rotate_zero iSign z : i16_pair z -> rotate_q14 (cos_at 0) (sin_at iSign 0) z = z.
Proof.
  intros [H1 H2]. destruct z as [a b]. cbn [fst snd] in *.
  assert (sin_at iSign 0 = 0) as -> by (unfold sin_at, table_sin; by destruct (iSign =? 1)).
  change (cos_at 0) with 16384. assert (forall x, is_i16 x -> mul_q14 16384 x = x /\ mul_q14 0 x = 0) as Hm.
  { intros x Hx. unfold mul_q14, WEBRTC_SPL_MUL_16_16. rewrite (i16_id x Hx). change (i16 16384) with 16384. change (i16 0) with 0.
    rewrite Z.mul_0_l. split; [|reflexivity]. unfold is_i16 in Hx. rewrite i32_id by (unfold is_i32; lia).
    rewrite shiftr_div by lia. change (2 ^ 14) with 16384. rewrite Z.mul_comm, Z.div_mul by lia. by apply i16_id. }
  unfold rotate_q14. cbn [fst snd]. destruct (Hm a H1) as [-> ->], (Hm b H2) as [-> ->].
  rewrite Z.sub_0_r, Z.add_0_l. f_equal; by apply i16_id.
Qed.

Lemma bfly4_i16 iSign q x : i16_pair (bfly4 iSign q x).
Proof.
  unfold bfly4, radix4. destruct (iSign <? 0); cbv zeta beta iota; destruct (q =? 0), (q =? 1), (q =? 2); split; apply i16_range.
Qed.
Lemma bfly3_i16 iSign q x : i16_pair (bfly3 iSign q x).
Proof. unfold bfly3, radix3. cbv zeta beta iota. destruct (q =? 0), (q =? 1); split; apply i16_range. Qed.
Lemma bfly5_i16 iSign q x : i16_pair (bfly5 iSign q x).
Proof.
  unfold bfly5, radix5. cbv zeta beta iota. destruct (q =? 0), (q =? 1), (q =? 2), (q =? 3); split; apply i16_range.
Qed.

Lemma fft_first4_spec iSign D0 D f : long D0 -> holds D0 D f -> exists D' f', fft_first4 iSign D = Some D' /\ holds D0 D' f' /\
  forall q j, 0 <= q < 4 -> 0 <= j < 60 ->
    f' (q * 60 + j) = rotated iSign (j * q) (bfly4 iSign q (fun i => f (i * 60 + j))).
Proof.
  intros HL Hf. unfold fft_first4.
  set (new := fun b q j : Z => let y := bfly4 iSign q (fun i => f (i * 60 + j)) in
    if q =? 0 then y else rotate_q14 (cos_at (j * q)) (sin_at iSign (j * q)) y).
  loop_inv (fun T D => exists f', holds D0 D f' /\ staged 1 4 60 0 (fun _ _ j => j) new f T f') r E H; [lia| | |].
  - exists f. split; [done|]. apply staged_start. lia.
  - clear Hf D. intros T D HT (f1 & Hh & Hs).
    assert (forall q, 0 <= q < 4 -> f1 (q * 60 + T) = f (q * 60 + T)) as Hold.
    { intros q Hq. apply (staged_old _ _ _ _ _ _ _ _ _ 0 q T Hs); lia. }
    do 4 z_read.
    replace (f1 (T + 60 + 60 + 60)) with (f (3 * 60 + T)) by (rewrite <-Hold by lia; f_equal; lia).
    replace (f1 (T + 60 + 60)) with (f (2 * 60 + T)) by (rewrite <-Hold by lia; f_equal; lia).
    replace (f1 (T + 60)) with (f (1 * 60 + T)) by (rewrite <-Hold by lia; f_equal; lia).
    replace (f1 T) with (f (0 * 60 + T)) by (rewrite <-Hold by lia; f_equal; lia).
    destruct (radix4 iSign _ _ _ _) as [ [ [y0 y1] y2] y3] eqn:Er. do 6 table_read. do 4 z_write.
    eexists; split; [reflexivity|]. eexists; split; [eassumption|]. apply (staged_next _ _ _ _ _ _ _ _ f1); [done|].
    intros b q j Hb Hq Hj. replace (b * 0 + q * 60 + j) with (q * 60 + j) by lia. destruct (Z.eqb_spec j T) as [->|Hne].
    + unfold new, bfly4. rewrite Er. assert (q = 0 \/ q = 1 \/ q = 2 \/ q = 3) as Hc by lia.
      unfold sin_at. destruct Hc as [->|[->|[->| ->] ] ]; cbn [Z.eqb Pos.eqb];
        rewrite ?Z.mul_1_r, ?(Z.mul_comm T 2), ?(Z.mul_comm T 3); z_cells.
    + rewrite !put_ne by lia. done.
  - destruct H as (f' & Hh & Hs). exists r, f'. split; [done|]. split; [done|].
    intros q j Hq Hj. pose proof (staged_end _ _ _ _ _ _ _ _ _ Hs ltac:(lia) 0 q j) as He.
    replace (0 * 0 + q * 60 + j) with (q * 60 + j) in He by lia. rewrite He by lia. unfold new, rotated. cbv zeta.
    destruct (Z.eqb_spec (j * q) 0) as [E0|].
    + destruct (q =? 0); [done|]. rewrite E0. apply rotate_zero, bfly4_i16.
    + by destruct (Z.eqb_spec q 0); [lia|].
Qed.

Lemma fft_factor3_spec iSign D0 D f : long D0 -> holds D0 D f ->
  exists D' f', fft_factor3 (sin_signed iSign 20) D = Some D' /\ holds D0 D' f' /\
  forall b q j, 0 <= b < 4 -> 0 <= q < 3 -> 0 <= j < 20 ->
    f' (b * 60 + q * 20 + j) = bfly3 iSign q (fun i => f (b * 60 + i * 20 + j)).
Proof.
  intros HL Hf. unfold fft_factor3. set (new := fun b q j : Z => bfly3 iSign q (fun i => f (b * 60 + i * 20 + j))).
  set (st := staged 4 3 20 60 (fun b _ j => 20 * b + j) new f).
  loop_inv (fun hh '((kk, D) : Z * ComplexArray) => kk = 60 * hh /\ exists f', holds D0 D f' /\ st (20 * hh) f') r E H; [lia| | |].
  - split; [done|]. exists f. split; [done|]. apply staged_start. lia.
  - clear Hf D. intros hh [kk D] Hhh (-> & f1 & Hh & Hs).
    loop_inv (fun ii '((kk, D) : Z * ComplexArray) => kk = 60 * hh + ii /\ exists f', holds D0 D f' /\ st (20 * hh + ii) f') r E H; [lia| | |].
    + split; [lia|]. exists f1. by rewrite Z.add_0_r.
    + clear Hh Hs f1 D. intros ii [kk D] Hii (-> & f1 & Hh & Hs).
      assert (forall q, 0 <= q < 3 -> f1 (hh * 60 + q * 20 + ii) = f (hh * 60 + q * 20 + ii)) as Hold.
      { intros q Hq. apply (staged_old _ _ _ _ _ _ _ _ _ hh q ii Hs); lia. }
      do 3 z_read.
      replace (f1 (60 * hh + ii)) with (f (hh * 60 + 0 * 20 + ii)) by (rewrite <-Hold by lia; f_equal; lia).
      replace (f1 (60 * hh + ii + 20)) with (f (hh * 60 + 1 * 20 + ii)) by (rewrite <-Hold by lia; f_equal; lia).
      replace (f1 (60 * hh + ii + 40)) with (f (hh * 60 + 2 * 20 + ii)) by (rewrite <-Hold by lia; f_equal; lia).
      destruct (radix3 _ _ _ _) as [ [y0 y1] y2] eqn:Er. do 3 z_write.
      eexists; split; [reflexivity|]. split; [lia|]. eexists; split; [eassumption|].
      replace (20 * hh + (ii + 1)) with (20 * hh + ii + 1) by lia. apply (staged_next _ _ _ _ _ _ _ _ f1); [done|].
      intros b q j Hb Hq Hj. destruct (Z.eqb_spec (20 * b + j) (20 * hh + ii)) as [Et|Hne].
      * assert (b = hh /\ j = ii) as [-> ->] by lia. unfold new, bfly3. rewrite Er.
        assert (q = 0 \/ q = 1 \/ q = 2) as Hc by lia. destruct Hc as [->|[->| ->] ]; cbn [Z.eqb Pos.eqb]; z_cells.
      * rewrite !put_ne by lia. done.
    + bind_step E. destruct r as [kk' D'], H as (-> & f' & Hh' & Hs'). eexists; split; [reflexivity|]. split; [lia|].
      exists f'. split; [done|]. by replace (20 * (hh + 1)) with (20 * hh + 20) by lia.
  - bind_step E. destruct r as [kk' D'], H as (_ & f' & Hh' & Hs'). exists D', f'. split; [done|]. split; [done|].
    intros b q j Hb Hq Hj. apply (staged_end _ _ _ _ _ _ _ _ _ Hs'); lia.
Qed.

(** A rotation of one cell. *)
Lemma rotate_cell_spec D0 D f kk c s step : long D0 -> holds D0 D f -> 0 <= kk < 240 ->
  exists D', rotate_cell c s step (kk, D) = Some (kk + step, D') /\ holds D0 D' (put kk (rotate_q14 c s (f kk)) f).
Proof.
  intros HL Hf Hk. unfold rotate_cell. z_read. z_write. eexists; split; [reflexivity|done].
Qed.

Lemma fft_rotate3_spec iSign D0 D f : long D0 -> holds D0 D f ->
  exists D' f', fft_rotate3 iSign D = Some D' /\ holds D0 D' f' /\
  forall b q j, 0 <= b < 4 -> 0 <= q < 3 -> 0 <= j < 20 ->
    f' (b * 60 + q * 20 + j) = rotated iSign (4 * j * q) (f (b * 60 + q * 20 + j)).
Proof.
  intros HL Hf. unfold fft_rotate3.
  set (new := fun b q j : Z => rotated iSign (4 * j * q) (f (b * 60 + q * 20 + j))).
  set (tau := fun b q j : Z => if (q =? 0) || (j =? 0) then 0 else (j - 1) * 8 + (q - 1) * 4 + b + 1).
  assert (forall b q j, 4 * j * q = 0 -> new b q j = f (b * 60 + q * 20 + j)) as Hid by (intros b q j E; unfold new, rotated; by rewrite E).
  set (st := staged 4 3 20 60 tau new f).
  loop_inv (fun gg '((kk, ff, D) : Z * Z * ComplexArray) => kk = 1 + gg /\ ff = 4 * gg /\
    exists f', holds D0 D f' /\ st (8 * gg + 1) f') r E H; [lia| | |].
  - split; [done|]. split; [done|]. exists f. split; [done|]. change (8 * 0 + 1) with (0 + 1).
    apply (staged_next _ _ _ _ _ _ _ _ f).
    + apply staged_start. intros b q j Hb Hq Hj. unfold tau. destruct (_ || _) eqn:Eo; [lia|]. apply orb_false_iff in Eo. lia.
    + intros b q j Hb Hq Hj. destruct (Z.eqb_spec (tau b q j) 0) as [Et|]; [|done]. symmetry. apply Hid.
      unfold tau in Et. destruct (_ || _) eqn:Eo; [|lia]. apply orb_true_iff in Eo. nia.
  - clear Hf D. intros gg [ [kk ff] D] Hgg (-> & -> & f1 & Hh & Hs).
    loop_inv (fun hh '((kk, D) : Z * ComplexArray) => kk = 21 + gg + 20 * hh /\ exists f', holds D0 D f' /\ st (8 * gg + 4 * hh + 1) f') r E H; [lia| | |].
    + split; [lia|]. exists f1. split; [done|]. by replace (8 * gg + 4 * 0 + 1) with (8 * gg + 1) by lia.
    + clear Hh Hs f1 D. intros hh [kk D] Hhh (-> & f1 & Hh & Hs).
      assert (0 <= 4 * gg + 4 + hh * (4 * gg + 4) <= 152) as Hrange by nia. do 2 table_read.
      loop_inv (fun ii '((kk, D) : Z * ComplexArray) => kk = 21 + gg + 20 * hh + 60 * ii /\
        exists f', holds D0 D f' /\ st (8 * gg + 4 * hh + ii + 1) f') r E H; [lia| | |].
      * split; [lia|]. exists f1. split; [done|]. by replace (8 * gg + 4 * hh + 0 + 1) with (8 * gg + 4 * hh + 1) by lia.
      * clear Hh Hs f1 D. intros ii [kk D] Hii (-> & f1 & Hh & Hs).
        destruct (rotate_cell_spec D0 D f1 (21 + gg + 20 * hh + 60 * ii) (cos_at (4 * gg + 4 + hh * (4 * gg + 4)))
          (table_sin iSign (cos_at (4 * gg + 4 + hh * (4 * gg + 4) + 60))) 60 HL Hh) as (D' & E & H'); [lia|]. rewrite E.
        eexists; split; [reflexivity|]. split; [lia|]. eexists; split; [exact H'|].
        replace (8 * gg + 4 * hh + (ii + 1) + 1) with (8 * gg + 4 * hh + ii + 1 + 1) by lia.
        apply (staged_next _ _ _ _ _ _ _ _ f1); [done|]. intros b q j Hb Hq Hj.
        destruct (Z.eqb_spec (tau b q j) (8 * gg + 4 * hh + ii + 1)) as [Et|Hne].
        -- unfold tau in Et. destruct (_ || _) eqn:Eo; [lia|]. apply orb_false_iff in Eo.
           assert (j = gg + 1 /\ q = hh + 1 /\ b = ii) as (-> & -> & ->) by lia.
           replace (ii * 60 + (hh + 1) * 20 + (gg + 1)) with (21 + gg + 20 * hh + 60 * ii) by lia. rewrite put_eq.
           unfold new, rotated. replace (4 * (gg + 1) * (hh + 1)) with (4 * gg + 4 + hh * (4 * gg + 4)) by lia.
           destruct (Z.eqb_spec (4 * gg + 4 + hh * (4 * gg + 4)) 0); [nia|]. unfold sin_at. f_equal.
           pose proof (staged_old _ _ _ _ _ _ _ _ _ ii (hh + 1) (gg + 1) Hs ltac:(lia) ltac:(lia) ltac:(lia)) as Ho.
           replace (ii * 60 + (hh + 1) * 20 + (gg + 1)) with (21 + gg + 20 * hh + 60 * ii) in Ho |- * by lia. apply Ho.
           unfold tau. destruct (_ || _) eqn:E2; [apply orb_true_iff in E2|]; lia.
        -- rewrite put_ne; [done|]. intros Ea. apply Hne. unfold tau.
           assert (j = gg + 1 /\ q = hh + 1 /\ b = ii) as (-> & -> & ->) by lia.
           destruct (_ || _) eqn:E2; [apply orb_true_iff in E2|]; lia.
      * bind_step E. destruct r as [kk' D'], H as (-> & f' & Hh' & Hs'). eexists; split; [reflexivity|]. split; [lia|].
        exists f'. split; [done|]. by replace (8 * gg + 4 * (hh + 1) + 1) with (8 * gg + 4 * hh + 4 + 1) by lia.
    + bind_step E. destruct r as [kk' D'], H as (-> & f' & Hh' & Hs'). eexists; split; [reflexivity|]. split; [lia|]. split; [lia|].
      exists f'. split; [done|]. by replace (8 * (gg + 1) + 1) with (8 * gg + 4 * 2 + 1) by lia.
  - bind_step E. destruct r as [ [kk' ff'] D'], H as (_ & _ & f' & Hh' & Hs'). exists D', f'. split; [done|]. split; [done|].
    intros b q j Hb Hq Hj. apply (staged_end _ _ _ _ _ _ _ _ _ Hs'); [|lia..]. clear. intros b q j Hb Hq Hj. unfold tau.
    destruct (_ || _) eqn:E2; [lia|]. lia.
Qed.

Lemma fft_factor5_spec iSign D0 D f : long D0 -> holds D0 D f ->
  exists D' f', fft_factor5 (cos_at 48) (sin_signed iSign 12) iSign D = Some D' /\ holds D0 D' f' /\
  forall b q j, 0 <= b < 12 -> 0 <= q < 5 -> 0 <= j < 4 ->
    f' (b * 20 + q * 4 + j) = bfly5 iSign q (fun i => f (b * 20 + i * 4 + j)).
Proof.
  intros HL Hf. unfold fft_factor5. do 2 table_read. set (new := fun b q j : Z => bfly5 iSign q (fun i => f (b * 20 + i * 4 + j))).
  set (st := staged 12 5 4 20 (fun b _ j => 12 * j + b) new f).
  loop_inv (fun hh '((kk, D) : Z * ComplexArray) => kk = hh /\ exists f', holds D0 D f' /\ st (12 * hh) f') r E H; [lia| | |].
  - split; [done|]. exists f. split; [done|]. apply staged_start. lia.
  - clear Hf D. intros hh [kk D] Hhh (-> & f1 & Hh & Hs).
    loop_inv (fun ii '((kk, D) : Z * ComplexArray) => kk = hh + 20 * ii /\ exists f', holds D0 D f' /\ st (12 * hh + ii) f') r E H; [lia| | |].
    + split; [lia|]. exists f1. by rewrite Z.add_0_r.
    + clear Hh Hs f1 D. intros ii [kk D] Hii (-> & f1 & Hh & Hs).
      assert (forall q, 0 <= q < 5 -> f1 (ii * 20 + q * 4 + hh) = f (ii * 20 + q * 4 + hh)) as Hold.
      { intros q Hq. apply (staged_old _ _ _ _ _ _ _ _ _ ii q hh Hs); lia. }
      do 5 z_read.
      replace (f1 (hh + 20 * ii)) with (f (ii * 20 + 0 * 4 + hh)) by (rewrite <-Hold by lia; f_equal; lia).
      replace (f1 (hh + 20 * ii + 4)) with (f (ii * 20 + 1 * 4 + hh)) by (rewrite <-Hold by lia; f_equal; lia).
      replace (f1 (hh + 20 * ii + 8)) with (f (ii * 20 + 2 * 4 + hh)) by (rewrite <-Hold by lia; f_equal; lia).
      replace (f1 (hh + 20 * ii + 12)) with (f (ii * 20 + 3 * 4 + hh)) by (rewrite <-Hold by lia; f_equal; lia).
      replace (f1 (hh + 20 * ii + 16)) with (f (ii * 20 + 4 * 4 + hh)) by (rewrite <-Hold by lia; f_equal; lia).
      destruct (radix5 _ _ _ _ _ _ _ _ _) as [ [ [ [y0 y1] y2] y3] y4] eqn:Er. do 5 z_write.
      eexists; split; [reflexivity|]. split; [lia|]. eexists; split; [eassumption|].
      replace (12 * hh + (ii + 1)) with (12 * hh + ii + 1) by lia. apply (staged_next _ _ _ _ _ _ _ _ f1); [done|].
      intros b q j Hb Hq Hj. destruct (Z.eqb_spec (12 * j + b) (12 * hh + ii)) as [Et|Hne].
      * assert (b = ii /\ j = hh) as [-> ->] by lia. unfold new, bfly5. rewrite Er.
        assert (q = 0 \/ q = 1 \/ q = 2 \/ q = 3 \/ q = 4) as Hc by lia.
        destruct Hc as [->|[->|[->|[->| ->] ] ] ]; cbn [Z.eqb Pos.eqb]; z_cells.
      * rewrite !put_ne by lia. done.
    + bind_step E. destruct r as [kk' D'], H as (-> & f' & Hh' & Hs'). eexists; split; [reflexivity|]. split; [lia|].
      exists f'. split; [done|]. by replace (12 * (hh + 1)) with (12 * hh + 12) by lia.
  - bind_step E. destruct r as [kk' D'], H as (_ & f' & Hh' & Hs'). exists D', f'. split; [done|]. split; [done|].
    intros b q j Hb Hq Hj. apply (staged_end _ _ _ _ _ _ _ _ _ Hs'); lia.
Qed.

Lemma fft_rotate5_spec iSign D0 D f : long D0 -> holds D0 D f ->
  exists D' f', fft_rotate5 iSign D = Some D' /\ holds D0 D' f' /\
  forall b q j, 0 <= b < 12 -> 0 <= q < 5 -> 0 <= j < 4 ->
    f' (b * 20 + q * 4 + j) = rotated iSign (12 * j * q) (f (b * 20 + q * 4 + j)).
Proof.
  intros HL Hf. unfold fft_rotate5.
  set (new := fun b q j : Z => rotated iSign (12 * j * q) (f (b * 20 + q * 4 + j))).
  set (tau := fun b q j : Z => if (q =? 0) || (j =? 0) then 0 else (j - 1) * 48 + (q - 1) * 12 + b + 1).
  assert (forall b q j, 12 * j * q = 0 -> new b q j = f (b * 20 + q * 4 + j)) as Hid by (intros b q j E; unfold new, rotated; by rewrite E).
  set (st := staged 12 5 4 20 tau new f).
  loop_inv (fun gg '((kk, D) : Z * ComplexArray) => kk = 1 + gg /\ exists f', holds D0 D f' /\ st (48 * gg + 1) f') r E H; [lia| | |].
  - split; [done|]. exists f. split; [done|]. change (48 * 0 + 1) with (0 + 1). apply (staged_next _ _ _ _ _ _ _ _ f).
    + apply staged_start. intros b q j Hb Hq Hj. unfold tau. destruct (_ || _) eqn:Eo; [lia|]. apply orb_false_iff in Eo. lia.
    + intros b q j Hb Hq Hj. destruct (Z.eqb_spec (tau b q j) 0) as [Et|]; [|done]. symmetry. apply Hid.
      unfold tau in Et. destruct (_ || _) eqn:Eo; [|lia]. apply orb_true_iff in Eo. nia.
  - clear Hf D. intros gg [kk D] Hgg (-> & f1 & Hh & Hs).
    loop_inv (fun hh '((kk, ff, D) : Z * Z * ComplexArray) => kk = 5 + gg + 4 * hh /\ ff = hh * (12 + 12 * gg) /\
      exists f', holds D0 D f' /\ st (48 * gg + 12 * hh + 1) f') r E H; [lia| | |].
    + split; [lia|]. split; [lia|]. exists f1. split; [done|]. by replace (48 * gg + 12 * 0 + 1) with (48 * gg + 1) by lia.
    + clear Hh Hs f1 D. intros hh [ [kk ff] D] Hhh (-> & -> & f1 & Hh & Hs).
      assert (0 <= hh * (12 + 12 * gg) + (12 + 12 * gg) <= 144) as Hrange by nia.
      set (ff := hh * (12 + 12 * gg) + (12 + 12 * gg)) in *.
      loop_inv (fun ii '((kk, D) : Z * ComplexArray) => kk = 5 + gg + 4 * hh + 20 * ii /\
        exists f', holds D0 D f' /\ st (48 * gg + 12 * hh + ii + 1) f') r E H; [lia| | |].
      * split; [lia|]. exists f1. split; [done|]. by replace (48 * gg + 12 * hh + 0 + 1) with (48 * gg + 12 * hh + 1) by lia.
      * clear Hh Hs f1 D. intros ii [kk D] Hii (-> & f1 & Hh & Hs). do 2 table_read.
        destruct (rotate_cell_spec D0 D f1 (5 + gg + 4 * hh + 20 * ii) (cos_at ff) (table_sin iSign (cos_at (ff + 60))) 20 HL Hh)
          as (D' & E & H'); [lia|]. rewrite E.
        eexists; split; [reflexivity|]. split; [lia|]. eexists; split; [exact H'|].
        replace (48 * gg + 12 * hh + (ii + 1) + 1) with (48 * gg + 12 * hh + ii + 1 + 1) by lia.
        apply (staged_next _ _ _ _ _ _ _ _ f1); [done|]. intros b q j Hb Hq Hj.
        destruct (Z.eqb_spec (tau b q j) (48 * gg + 12 * hh + ii + 1)) as [Et|Hne].
        -- unfold tau in Et. destruct (_ || _) eqn:Eo; [lia|]. apply orb_false_iff in Eo.
           assert (j = gg + 1 /\ q = hh + 1 /\ b = ii) as (-> & -> & ->) by lia.
           replace (ii * 20 + (hh + 1) * 4 + (gg + 1)) with (5 + gg + 4 * hh + 20 * ii) by lia. rewrite put_eq.
           unfold new, rotated. replace (12 * (gg + 1) * (hh + 1)) with ff by lia.
           destruct (Z.eqb_spec ff 0); [unfold ff in *; nia|]. unfold sin_at. f_equal.
           pose proof (staged_old _ _ _ _ _ _ _ _ _ ii (hh + 1) (gg + 1) Hs ltac:(lia) ltac:(lia) ltac:(lia)) as Ho.
           replace (ii * 20 + (hh + 1) * 4 + (gg + 1)) with (5 + gg + 4 * hh + 20 * ii) in Ho |- * by lia. apply Ho.
           unfold tau. destruct (_ || _) eqn:E2; [apply orb_true_iff in E2|]; lia.
        -- rewrite put_ne; [done|]. intros Ea. apply Hne. unfold tau.
           assert (j = gg + 1 /\ q = hh + 1 /\ b = ii) as (-> & -> & ->) by lia.
           destruct (_ || _) eqn:E2; [apply orb_true_iff in E2|]; lia.
      * bind_step E. destruct r as [kk' D'], H as (-> & f' & Hh' & Hs'). eexists; split; [reflexivity|]. split; [lia|].
        split; [unfold ff; lia|]. exists f'. split; [done|].
        by replace (48 * gg + 12 * (hh + 1) + 1) with (48 * gg + 12 * hh + 12 + 1) by lia.
    + bind_step E. destruct r as [ [kk' ff'] D'], H as (-> & _ & f' & Hh' & Hs'). eexists; split; [reflexivity|]. split; [lia|].
      exists f'. split; [done|]. by replace (48 * (gg + 1) + 1) with (48 * gg + 12 * 4 + 1) by lia.
  - bind_step E. destruct r as [kk' D'], H as (_ & f' & Hh' & Hs'). exists D', f'. split; [done|]. split; [done|].
    intros b q j Hb Hq Hj. apply (staged_end _ _ _ _ _ _ _ _ _ Hs'); [|lia..]. clear. intros b q j Hb Hq Hj. unfold tau.
    destruct (_ || _) eqn:E2; [lia|]. lia.
Qed.

Lemma fft_last4_spec iSign D0 D f : long D0 -> holds D0 D f ->
  exists D' f', fft_last4 iSign D = Some D' /\ holds D0 D' f' /\
  forall b q, 0 <= b < 60 -> 0 <= q < 4 -> f' (b * 4 + q) = bfly4 iSign q (fun i => f (b * 4 + i)).
Proof.
  intros HL Hf. unfold fft_last4. set (new := fun b q _ : Z => bfly4 iSign q (fun i => f (b * 4 + i))).
  loop_inv (fun T D => exists f', holds D0 D f' /\ staged 60 4 1 4 (fun b _ _ => b) new f T f') r E H; [lia| | |].
  - exists f. split; [done|]. apply staged_start. lia.
  - clear Hf D. intros T D HT (f1 & Hh & Hs).
    assert (forall q, 0 <= q < 4 -> f1 (T * 4 + q) = f (T * 4 + q)) as Hold.
    { intros q Hq. pose proof (staged_old _ _ _ _ _ _ _ _ _ T q 0 Hs ltac:(lia) ltac:(lia) ltac:(lia)) as Ho.
      replace (T * 4 + q * 1 + 0) with (T * 4 + q) in Ho by lia. apply Ho. lia. }
    do 4 z_read.
    replace (f1 (4 * T)) with (f (T * 4 + 0)) by (rewrite <-Hold by lia; f_equal; lia).
    replace (f1 (4 * T + 1)) with (f (T * 4 + 1)) by (rewrite <-Hold by lia; f_equal; lia).
    replace (f1 (4 * T + 1 + 1)) with (f (T * 4 + 2)) by (rewrite <-Hold by lia; f_equal; lia).
    replace (f1 (4 * T + 1 + 1 + 1)) with (f (T * 4 + 3)) by (rewrite <-Hold by lia; f_equal; lia).
    destruct (radix4 iSign _ _ _ _) as [ [ [y0 y1] y2] y3] eqn:Er. do 4 z_write.
    eexists; split; [reflexivity|]. eexists; split; [eassumption|]. apply (staged_next _ _ _ _ _ _ _ _ f1); [done|].
    intros b q j Hb Hq Hj. replace (b * 4 + q * 1 + j) with (b * 4 + q) by lia. destruct (Z.eqb_spec b T) as [->|Hne].
    + unfold new, bfly4. rewrite Er. assert (q = 0 \/ q = 1 \/ q = 2 \/ q = 3) as Hc by lia.
      destruct Hc as [->|[->|[->| ->] ] ]; cbn [Z.eqb Pos.eqb]; z_cells.
    + rewrite !put_ne by lia. done.
  - destruct H as (f' & Hh & Hs). exists r, f'. split; [done|]. split; [done|].
    intros b q Hb Hq. pose proof (staged_end _ _ _ _ _ _ _ _ _ Hs ltac:(lia) b q 0) as He.
    replace (b * 4 + q * 1 + 0) with (b * 4 + q) in He by lia. by rewrite He by lia.
Qed.

(** Entry [k] of the sorting table reverses the digits of [k] in the factors. *)
Definition digits (k : Z) : Z := k `mod` 4 * 60 + (k / 4) `mod` 3 * 20 + (k / 12) `mod` 5 * 4 + k / 60.

Lemma sort_table k : 0 <= k < 240 -> rd kSortTabFft k = Some (digits k) /\ 0 <= digits k < 240.
Proof.
  assert (forallb (fun k => (arr kSortTabFft k =? digits k) && (0 <=? digits k) && (digits k <? 240)) (seqZ 0 240) = true)
    as H by (by vm_compute).
  intros Hk. apply (proj1 (forallb_forall _ _)) with (x := k) in H.
  - rewrite !andb_true_iff, Z.eqb_eq, Z.leb_le, Z.ltb_lt in H. destruct H as [ [H1 H2] H3].
    rewrite rd_Some, H1; [split; [done|lia]|]. by change (Z.of_nat (length kSortTabFft)) with 240.
  - apply list_elem_of_In, elem_of_seqZ. lia.
Qed.

Lemma fft_permute_spec D0 D f : long D0 -> holds D0 D f ->
  exists D', fft_permute D = Some D' /\ holds D0 D' (fun k => f (digits k)).
Proof.
  intros HL Hf. unfold fft_permute. pose proof HL as [L1 L2]. pose proof Hf as (H1 & H2 & Hc & _).
  destruct (mem_read D.1 0 240) as [re|] eqn:E1; [|rewrite (mem_read_Some D.1) in E1 by lia; done].
  destruct (mem_read D.2 0 240) as [im|] eqn:E2; [|rewrite (mem_read_Some D.2) in E2 by lia; done]. rewrite !bind_Some.
  apply mem_read_cells in E1 as (L1' & C1 & _), E2 as (L2' & C2 & _).
  assert (forall k, 0 <= k < 240 -> rd_z (re, im) k = Some (f k)) as Hrd.
  { intros k Hk. unfold rd_z. cbn [fst snd]. rewrite !rd_Some by lia. cbn [mbind option_bind]. by rewrite C1, C2, <-(Hc k Hk). }
  loop_inv (fun ii D => exists f', holds D0 D f' /\ (forall k, 0 <= k < ii -> f' k = f (digits k))) r E H; [lia| | |].
  - exists f. split; [done|]. lia.
  - clear Hf H1 H2 Hc C1 C2 D. intros ii D Hii (f' & Hh & Hs). destruct (sort_table ii Hii) as [-> Hd]. rewrite bind_Some, Hrd, bind_Some by done.
    z_write. eexists; split; [reflexivity|]. eexists; split; [eassumption|]. intros k Hk.
    destruct (Z.eq_dec k ii) as [->|]; [by rewrite put_eq|]. rewrite put_ne by done. apply Hs. lia.
  - destruct H as (f' & Hh & Hs). exists r. split; [done|]. apply (holds_ext D0 r f'); [done|]. exact Hs.
Qed.

(** ** The whole transform *)

Definition cells (D : ComplexArray) (k : Z) : Z * Z := (arr D.1 k, arr D.2 k).

Lemma bfly4_ext iSign q x y : (forall i, 0 <= i < 4 -> x i = y i) -> bfly4 iSign q x = bfly4 iSign q y.
Proof. intros H. unfold bfly4. by rewrite !H by lia. Qed.
Lemma bfly3_ext iSign q x y : (forall i, 0 <= i < 3 -> x i = y i) -> bfly3 iSign q x = bfly3 iSign q y.
Proof. intros H. unfold bfly3. by rewrite !H by lia. Qed.
Lemma bfly5_ext iSign q x y : (forall i, 0 <= i < 5 -> x i = y i) -> bfly5 iSign q x = bfly5 iSign q y.
Proof. intros H. unfold bfly5. by rewrite !H by lia. Qed.

Lemma dif_240 iSign x k : dif iSign [4; 3; 5; 4] 1 x k =
  let q1 := k `mod` 4 in let q2 := (k / 4) `mod` 3 in let q3 := (k / 4 / 3) `mod` 5 in
  let q4 := (k / 4 / 3 / 5) `mod` 4 in
  rotated iSign (60 * 0 * q4) (bfly4 iSign q4 (fun i => rotated iSign (12 * (i * 1 + 0) * q3)
    (bfly5 iSign q3 (fun i3 => rotated iSign (4 * (i3 * 4 + (i * 1 + 0)) * q2)
      (bfly3 iSign q2 (fun i2 => rotated iSign (1 * (i2 * 20 + (i3 * 4 + (i * 1 + 0))) * q1)
        (bfly4 iSign q1 (fun i1 => x (i1 * 60 + (i2 * 20 + (i3 * 4 + (i * 1 + 0)))))))))))).
Proof. reflexivity. Qed.

(** The code's passes in place, in their order, are the recursion. *)
Lemma fft_spec iSign D : long D ->
  exists D', WebRtcIsacfix_FftRadix16Fastest D iSign = Some D' /\ holds D D' (dif iSign [4; 3; 5; 4] 1 (cells D)).
Proof.
  intros HL. unfold WebRtcIsacfix_FftRadix16Fastest. do 3 table_read. fold (sin_signed iSign 12) (sin_signed iSign 20).
  destruct (fft_first4_spec iSign D D (cells D) HL (holds_init D)) as (D1 & f1 & -> & H1 & E1). rewrite bind_Some.
  destruct (fft_factor3_spec iSign D D1 f1 HL H1) as (D2 & f2 & -> & H2 & E2). rewrite bind_Some.
  destruct (fft_rotate3_spec iSign D D2 f2 HL H2) as (D3 & f3 & -> & H3 & E3). rewrite bind_Some.
  destruct (fft_factor5_spec iSign D D3 f3 HL H3) as (D4 & f4 & -> & H4 & E4). rewrite bind_Some.
  destruct (fft_rotate5_spec iSign D D4 f4 HL H4) as (D5 & f5 & -> & H5 & E5). rewrite bind_Some.
  destruct (fft_last4_spec iSign D D5 f5 HL H5) as (D6 & f6 & -> & H6 & E6). rewrite bind_Some.
  destruct (fft_permute_spec D D6 f6 HL H6) as (D7 & -> & H7). exists D7. split; [done|].
  apply (holds_ext _ _ _ _ H7). intros k Hk. rewrite dif_240. cbv zeta. unfold digits.
  rewrite (Z.div_div k 4 3), (Z.div_div k (4 * 3) 5) by lia. change (4 * 3) with 12. change (12 * 5) with 60.
  assert (0 <= k / 60 < 4) by (clear - Hk; Z.to_euclidean_division_equations; lia). rewrite (Z.mod_small (k / 60) 4) by done.
  set (q1 := k `mod` 4). set (q2 := (k / 4) `mod` 3). set (q3 := (k / 12) `mod` 5). set (q4 := k / 60).
  assert (0 <= q1 < 4 /\ 0 <= q2 < 3 /\ 0 <= q3 < 5 /\ 0 <= q4 < 4) as (Q1 & Q2 & Q3 & Q4) by (unfold q1, q2, q3, q4; clear - Hk; Z.to_euclidean_division_equations; lia).
  clearbody q1 q2 q3 q4.
  replace (q1 * 60 + q2 * 20 + q3 * 4 + q4) with ((q1 * 15 + q2 * 5 + q3) * 4 + q4) by lia.
  rewrite E6 by lia. rewrite Z.mul_0_r, Z.mul_0_l. unfold rotated at 1. cbn [Z.eqb]. apply bfly4_ext. intros i Hi.
  rewrite Z.mul_1_r, Z.add_0_r. replace ((q1 * 15 + q2 * 5 + q3) * 4 + i) with ((q1 * 3 + q2) * 20 + q3 * 4 + i) by lia.
  rewrite E5, E4 by lia. f_equal. apply bfly5_ext. intros i3 Hi3.
  replace ((q1 * 3 + q2) * 20 + i3 * 4 + i) with (q1 * 60 + q2 * 20 + (i3 * 4 + i)) by lia.
  rewrite E3, E2 by lia. f_equal. apply bfly3_ext. intros i2 Hi2.
  replace (q1 * 60 + i2 * 20 + (i3 * 4 + i)) with (q1 * 60 + (i2 * 20 + (i3 * 4 + i))) by lia.
  by rewrite E1, Z.mul_1_l by lia.
Qed.

(** The recursion reads 240 samples. *)
Lemma dif_ext iSign x y k : 0 <= k < 240 -> (forall j, 0 <= j < 240 -> x j = y j) ->
  dif iSign [4; 3; 5; 4] 1 x k = dif iSign [4; 3; 5; 4] 1 y k.
Proof.
  intros Hk H. rewrite !dif_240. cbv zeta. set (q1 := k `mod` 4). set (q2 := (k / 4) `mod` 3).
  set (q3 := (k / 4 / 3) `mod` 5). set (q4 := (k / 4 / 3 / 5) `mod` 4). clearbody q1 q2 q3 q4.
  apply (f_equal (rotated iSign _)), bfly4_ext. intros i Hi. apply (f_equal (rotated iSign _)), bfly5_ext. intros i3 Hi3.
  apply (f_equal (rotated iSign _)), bfly3_ext. intros i2 Hi2. apply (f_equal (rotated iSign _)), bfly4_ext. intros i1 Hi1.
  apply H. lia.
Qed.

(** ** Loops of transform.c *)

Definition table (n : Z) (g : Z -> Z) : list Z := map g (seqZ 0 n).
Lemma length_table n g : length (table n g) = Z.to_nat n.
Proof. unfold table. by rewrite length_map, length_seqZ. Qed.
Lemma arr_table n g k : 0 <= k < n -> arr (table n g) k = g k.
Proof.
  intros Hk. unfold arr, table. rewrite nth_lookup, list_lookup_fmap, lookup_seqZ_lt by lia. cbn. f_equal. lia.
Qed.
Lemma table_ext n f g : (forall k, 0 <= k < n -> f k = g k) -> table n f = table n g.
Proof. intros H. apply map_ext_in. intros k Hk. apply H. apply list_elem_of_In, elem_of_seqZ in Hk. lia. Qed.
Lemma rd_tabulated n g k : 0 <= k < n -> rd (table n g) k = Some (g k).
Proof. intros Hk. rewrite rd_Some by (rewrite length_table; lia). by rewrite arr_table. Qed.

Lemma fill_table f g : (forall k, 0 <= k < 240 -> f k = Some (g k)) -> fill 240 f = Some (table 240 g).
Proof.
  intros Hf. unfold fill. change (Z.quot FRAMESAMPLES 2) with 240.
  loop_inv (fun k l => length l = 240%nat /\ forall j, 0 <= j < k -> arr l j = g j) r E H; [lia|split; [done|intros; lia]| |].
  - intros k l Hk [L H]. rewrite (Hf k Hk), bind_Some, wr_Some by lia. eexists; split; [reflexivity|].
    rewrite length_upd. split; [done|]. intros j Hj. destruct (Z.eq_dec j k) as [->|]; [by rewrite arr_upd_eq by lia|].
    rewrite arr_upd_ne by lia. apply H. lia.
  - rewrite E. f_equal. destruct H as [L H]. apply list_arr; [by rewrite length_table, L|].
    intros k Hk. rewrite arr_table by lia. apply H. lia.
Qed.

(** A loop that writes cell [k] in round [k], from what the array holds there
    and behind it. *)
Lemma pointwise_loop D0 D body f g : long D0 -> holds D0 D f ->
  (forall k D f', 0 <= k < 240 -> holds D0 D f' -> (forall a, k <= a < 240 -> f' a = f a) -> body k D = wr_z D k (g k)) ->
  exists D', for_opt 240 body D = Some D' /\ holds D0 D' g.
Proof.
  intros HL Hf Hb.
  loop_inv (fun k D => exists f', holds D0 D f' /\ (forall a, k <= a < 240 -> f' a = f a) /\ (forall a, 0 <= a < k -> f' a = g a)) r E H;
    [lia| | |].
  - exists f. split; [done|]. split; [done|lia].
  - clear Hf D. intros k D Hk (f' & Hh & Hs & Hg). rewrite (Hb k D f') by done. z_write. eexists; split; [reflexivity|].
    eexists; split; [eassumption|]. split.
    + intros a Ha. rewrite put_ne by lia. apply Hs. lia.
    + intros a Ha. destruct (Z.eq_dec a k) as [->|]; [apply put_eq|]. rewrite put_ne by done. apply Hg. lia.
  - destruct H as (f' & Hh & _ & Hg). exists r. split; [done|]. by apply (holds_ext _ _ f').
Qed.

(** A loop that writes the cells [k] and [239 - k] in round [k]. *)
Definition paired (g : Z -> (Z * Z) * (Z * Z)) (k : Z) : Z * Z := if k <? 120 then (g k).1 else (g (239 - k)).2.
Lemma paired_loop D0 body g : long D0 ->
  (forall k D, 0 <= k < 120 -> body k D = (D ← wr_z D k (g k).1; wr_z D (239 - k) (g k).2)) ->
  exists D', for_opt 120 body D0 = Some D' /\ holds D0 D' (paired g).
Proof.
  intros HL Hb.
  loop_inv (fun k D => exists f', holds D0 D f' /\ (forall a, 0 <= a < k \/ 239 - k < a < 240 -> f' a = paired g a)) r E H;
    [lia| | |].
  - exists (cells D0). split; [apply holds_init|lia].
  - intros k D Hk (f' & Hh & Hs). rewrite (Hb k D) by done. do 2 z_write. eexists; split; [reflexivity|].
    eexists; split; [eassumption|]. intros a Ha. unfold put. destruct (Z.eqb_spec a (239 - k)) as [->|].
    + unfold paired. rewrite (proj2 (Z.ltb_ge _ _)) by lia. do 2 f_equal. lia.
    + destruct (Z.eqb_spec a k) as [->|]; [unfold paired; by rewrite (proj2 (Z.ltb_lt _ _)) by lia|]. apply Hs. lia.
  - destruct H as (f' & Hh & Hs). exists r. split; [done|]. apply (holds_ext _ _ f'); [done|]. intros k Hk. apply Hs. lia.
Qed.

(** ** The transforms *)

(** The transform in block floating point: all samples are shifted alike into
    the range of the 16-bit transform, and its result back. *)
Definition block_shift (z : Z -> Z * Z) : Z :=
  shift_for (max_abs_value_w32 (table 240 (fun k => (z k).1))) (max_abs_value_w32 (table 240 (fun k => (z k).2))).
Lemma block_shift_table z : spec_shift (table 240 (fun k => (z k).1)) (table 240 (fun k => (z k).2)) = Some (block_shift z).
Proof.
  assert (forall f : Z -> Z, table 240 f <> []) as H by (intros f E; apply (f_equal length) in E; by rewrite length_table in E).
  unfold spec_shift, WebRtcSpl_MaxAbsValueW32C, block_shift.
  rewrite (nonempty_op _ _ (H (fun k => (z k).1))), bind_Some, (nonempty_op _ _ (H (fun k => (z k).2))), bind_Some. reflexivity.
Qed.
Definition shifted (shift : Z -> Z -> Z) (sh : Z) (z : Z * Z) : Z * Z := (shift sh z.1, shift sh z.2).
Definition block_fft (iSign : Z) (z : Z -> Z * Z) (k : Z) : Z * Z :=
  shifted from_fft (block_shift z) (dif iSign [4; 3; 5; 4] 1 (fun j => shifted to_fft (block_shift z) (z j)) k).

Definition modulated (a b : Z -> Z) (k : Z) : Z * Z :=
  (modulate_re (arr WebRtcIsacfix_kCosTab1 k) (arr WebRtcIsacfix_kSinTab1 k) (a k) (b k),
   modulate_im (arr WebRtcIsacfix_kCosTab1 k) (arr WebRtcIsacfix_kSinTab1 k) (a k) (b k)).
Definition spectra (X : Z -> Z * Z) (k : Z) : (Z * Z) * (Z * Z) :=
  let z := X k in let z' := X (239 - k) in
  separate (i16 (- arr WebRtcIsacfix_kSinTab2 (119 - k))) (arr WebRtcIsacfix_kSinTab2 k)
    (i32 (z.1 + z'.1)) (i32 (z.2 - z'.2)) (i32 (z.2 + z'.2)) (i32 (- z.1 + z'.1)).
Definition merged (X : Z -> Z * Z) (k : Z) : (Z * Z) * (Z * Z) :=
  let z := X k in let z' := X (239 - k) in
  combine (i16 (- arr WebRtcIsacfix_kSinTab2 (119 - k))) (arr WebRtcIsacfix_kSinTab2 k)
    (i32 (z.1 * 2 ^ 9)) (i32 (z.2 * 2 ^ 9)) (i32 (z'.1 * 2 ^ 9)) (i32 (z'.2 * 2 ^ 9)).
Definition demodulated (X : Z -> Z * Z) (k : Z) : Z * Z :=
  demodulate (arr WebRtcIsacfix_kCosTab1 k) (arr WebRtcIsacfix_kSinTab1 k)
    (WEBRTC_SPL_MUL_16_32_RSFT16 273 (X k).1) (WEBRTC_SPL_MUL_16_32_RSFT16 273 (X k).2).

Lemma cos_table k : 0 <= k < 240 -> rd WebRtcIsacfix_kCosTab1 k = Some (arr WebRtcIsacfix_kCosTab1 k).
Proof. intros H. apply rd_Some. exact H. Qed.
Lemma sin_table k : 0 <= k < 240 -> rd WebRtcIsacfix_kSinTab1 k = Some (arr WebRtcIsacfix_kSinTab1 k).
Proof. intros H. apply rd_Some. exact H. Qed.
Lemma sin_table2 k : 0 <= k < 120 -> rd WebRtcIsacfix_kSinTab2 k = Some (arr WebRtcIsacfix_kSinTab2 k).
Proof. intros H. apply rd_Some. exact H. Qed.

Lemma holds_len D0 D f : long D0 -> holds D0 D f -> long D.
Proof. intros [L1 L2] (E1 & E2 & _). unfold long. by rewrite E1, E2. Qed.

(** [FftRadix16Fastest] on an array of known content. *)
Lemma fft_holds iSign D0 D f : long D0 -> holds D0 D f ->
  exists D', WebRtcIsacfix_FftRadix16Fastest D iSign = Some D' /\ holds D0 D' (dif iSign [4; 3; 5; 4] 1 f).
Proof.
  intros HL Hf. destruct (fft_spec iSign D (holds_len D0 D f HL Hf)) as (D' & E & H1 & H2 & H & U). exists D'. split; [done|].
  destruct Hf as (F1 & F2 & F & FU). split; [by rewrite H1|]. split; [by rewrite H2|]. split.
  - intros k Hk. rewrite H by done. by apply dif_ext.
  - intros k Hk. destruct (U k Hk) as [-> ->]. by apply FU.
Qed.

(** The local array that is filled next holds [g]. *)
Lemma fill_bind {A} f g (K : list Z -> option A) (P : A -> Prop) : (forall k, 0 <= k < 240 -> f k = Some (g k)) ->
  (exists r, K (table 240 g) = Some r /\ P r) -> exists r, mbind K (fill 240 f) = Some r /\ P r.
Proof. intros Hf H. by rewrite (fill_table f g Hf). Qed.
Ltac fill_next g := apply (fill_bind _ g); [intros k Hk; cbv beta|].

Lemma pointwise_bind {A} D0 D body f g (K : ComplexArray -> option A) (P : A -> Prop) : long D0 -> holds D0 D f ->
  (forall k D f', 0 <= k < 240 -> holds D0 D f' -> (forall a, k <= a < 240 -> f' a = f a) -> body k D = wr_z D k (g k)) ->
  (forall D', holds D0 D' g -> exists r, K D' = Some r /\ P r) ->
  exists r, mbind K (for_opt 240 body D) = Some r /\ P r.
Proof.
  intros HL Hf Hb HK. destruct (pointwise_loop D0 D body f g HL Hf Hb) as (D' & E & H).
  destruct (HK D' H) as (r & Er & Hr). exists r. by rewrite E, bind_Some.
Qed.
Lemma fft_bind {A} iSign D0 D f (K : ComplexArray -> option A) (P : A -> Prop) : long D0 -> holds D0 D f ->
  (forall D', holds D0 D' (dif iSign [4; 3; 5; 4] 1 f) -> exists r, K D' = Some r /\ P r) ->
  exists r, mbind K (WebRtcIsacfix_FftRadix16Fastest D iSign) = Some r /\ P r.
Proof.
  intros HL Hf HK. destruct (fft_holds iSign D0 D f HL Hf) as (D' & E & H).
  destruct (HK D' H) as (r & Er & Hr). exists r. by rewrite E, bind_Some.
Qed.

Lemma time2spec_spec a b re im : long (a, b) -> long (re, im) ->
  exists out, WebRtcIsacfix_Time2SpecC a b re im = Some out /\
    holds (re, im) out (paired (spectra (block_fft (-1) (modulated (arr a) (arr b))))).
Proof.
  intros HL HO. unfold WebRtcIsacfix_Time2SpecC. change (Z.quot FRAMESAMPLES 2) with 240. change (Z.quot FRAMESAMPLES 4) with 120.
  pose proof HL as [La Lb]. cbn [fst snd] in La, Lb. set (z := modulated (arr a) (arr b)).
  fill_next (fun k => (z k).1); [rewrite cos_table, sin_table, !rd_Some, !bind_Some by lia; unfold z, modulated; cbn [fst snd]; reflexivity|].
  fill_next (fun k => (z k).2); [rewrite cos_table, sin_table, !rd_Some, !bind_Some by lia; unfold z, modulated; cbn [fst snd]; reflexivity|].
  cbv beta. rewrite (block_shift_table z), bind_Some. set (sh := block_shift z).
  apply (pointwise_bind (a, b) _ _ (cells (a, b)) (fun k => shifted to_fft sh (z k)) _ _ HL (holds_init (a, b))).
  { intros k D f Hk _ _. cbv beta. rewrite !rd_tabulated, !bind_Some by done. unfold shifted. reflexivity. }
  intros D Hh. apply (fft_bind _ (a, b) _ _ _ _ HL Hh). clear Hh D. intros D Hh.
  pose proof (holds_len _ _ _ HL Hh) as [L1 L2]. destruct Hh as (_ & _ & Hc & _). set (X := block_fft (-1) z).
  fill_next (fun k => (X k).1); [rewrite rd_Some, bind_Some by lia; unfold X, block_fft, shifted; rewrite <-Hc by lia; cbn [fst snd]; reflexivity|].
  fill_next (fun k => (X k).2); [rewrite rd_Some, bind_Some by lia; unfold X, block_fft, shifted; rewrite <-Hc by lia; cbn [fst snd]; reflexivity|].
  apply (paired_loop (re, im)); [done|]. intros k D' Hk. rewrite !rd_tabulated, !bind_Some by lia.
  change (120 - 1 - k) with (119 - k). change (240 - 1 - k) with (239 - k). rewrite !sin_table2, !bind_Some by lia.
  unfold spectra. by destruct (separate _ _ _ _ _ _).
Qed.

Lemma paired_bind {A} D0 body g (K : ComplexArray -> option A) (P : A -> Prop) : long D0 ->
  (forall k D, 0 <= k < 120 -> body k D = (D ← wr_z D k (g k).1; wr_z D (239 - k) (g k).2)) ->
  (forall D', holds D0 D' (paired g) -> exists r, K D' = Some r /\ P r) ->
  exists r, mbind K (for_opt 120 body D0) = Some r /\ P r.
Proof.
  intros HL Hb HK. destruct (paired_loop D0 body g HL Hb) as (D' & E & H).
  destruct (HK D' H) as (r & Er & Hr). exists r. by rewrite E, bind_Some.
Qed.

(** The first 240 cells of an array, as [MaxAbsValueW32] reads them. *)
Lemma read_table l g : (240 <= length l)%nat -> (forall k, 0 <= k < 240 -> arr l k = g k) -> mem_read l 0 240 = Some (table 240 g).
Proof.
  intros Hl Hg. destruct (mem_read l 0 240) as [bs|] eqn:E; [|rewrite (mem_read_Some l) in E by lia; done].
  apply mem_read_cells in E as (L & C & _). f_equal. apply list_arr; [rewrite length_table; lia|].
  intros k Hk. rewrite C, arr_table, Hg by lia. done.
Qed.

Lemma spec2time_spec re im o1 o2 : long (re, im) -> long (o1, o2) ->
  exists r, WebRtcIsacfix_Spec2TimeC re im o1 o2 = Some r /\
    length r.1.1.1 = length re /\ length r.1.1.2 = length im /\
    holds (o1, o2) (r.1.2, r.2)
      (demodulated (block_fft 1 (paired (merged (fun k => (arr re k, arr im k)))))).
Proof.
  intros HL HO. unfold WebRtcIsacfix_Spec2TimeC. change (Z.quot FRAMESAMPLES 2) with 240. change (Z.quot FRAMESAMPLES 4) with 120.
  pose proof HL as [La Lb]. cbn [fst snd] in La, Lb. set (z := paired (merged (fun k => (arr re k, arr im k)))).
  apply (paired_bind (o1, o2) _ (merged (fun k => (arr re k, arr im k))) _ _ HO).
  { intros k D Hk. cbv beta. change (120 - 1 - k) with (119 - k). change (240 - 1 - k) with (239 - k).
    rewrite !sin_table2, !bind_Some by lia. rewrite !rd_Some, !bind_Some by lia. change (1 ≪ 9) with (2 ^ 9).
    unfold merged. cbv zeta. cbn [fst snd]. by destruct (combine _ _ _ _ _ _). }
  intros D1 H1. pose proof (holds_len _ _ _ HO H1) as [L1 L2]. pose proof H1 as (_ & _ & Hc & _).
  rewrite (read_table D1.1 (fun k => (z k).1)), bind_Some, (read_table D1.2 (fun k => (z k).2)), bind_Some
    by (try lia; intros k Hk; unfold z; rewrite <-Hc by lia; done).
  cbv beta. rewrite (block_shift_table z), bind_Some. set (sh := block_shift z).
  apply (pointwise_bind (re, im) _ _ (cells (re, im)) (fun k => shifted to_fft sh (z k)) _ _ HL (holds_init (re, im))).
  { intros k D f Hk _ _. cbv beta. rewrite (holds_rd _ _ _ k HO H1), bind_Some by done. unfold shifted, z. reflexivity. }
  intros D Hh. apply (fft_bind _ (re, im) _ _ _ _ HL Hh). clear Hh D. intros D Hh. cbv beta.
  pose proof Hh as (LD1 & LD2 & _). cbn [fst snd] in LD1, LD2. set (X := block_fft 1 z).
  apply (pointwise_bind (o1, o2) _ _ _ X _ _ HO H1).
  { intros k D' f Hk _ _. cbv beta. rewrite (holds_rd _ _ _ k HL Hh), bind_Some by done. unfold X, block_fft, shifted. reflexivity. }
  intros D2 H2. cbv beta.
  apply (pointwise_bind (o1, o2) _ _ X
    (fun k => (WEBRTC_SPL_MUL_16_32_RSFT16 273 (X k).1, WEBRTC_SPL_MUL_16_32_RSFT16 273 (X k).2)) _ _ HO H2).
  { intros k D' f Hk Hf Ha. cbv beta. rewrite (holds_rd _ _ _ k HO Hf), bind_Some by done. by rewrite Ha by lia. }
  intros D3 H3. cbv beta.
  apply (pointwise_bind (o1, o2) _ _ _ (demodulated X) _ _ HO H3).
  { intros k D' f Hk Hf Ha. cbv beta. rewrite cos_table, sin_table, !bind_Some by done.
    rewrite (holds_rd _ _ _ k HO Hf), bind_Some, Ha by lia. unfold demodulated. cbn [fst snd]. reflexivity. }
  intros D4 H4. eexists; split; [reflexivity|]. cbn [fst snd]. split; [done|]. split; [done|]. by destruct D4.
Qed.

(** ** Properties *)

(** C32: The 240-point transform with its five passes in place and its sorting table is
    the mixed-radix decimation in frequency in the factors 4, 3, 5 and 4: it
    never leaves its arrays, cell [k] of the result is output [k] of the
    recursion over the code's rounded 16-bit butterflies and rotations, and
    cells behind the first 240 are untouched. *)
Theorem fft_mixed_radix iSign D : long D ->
  exists D', WebRtcIsacfix_FftRadix16Fastest D iSign = Some D' /\
    (forall k, 0 <= k < 240 -> cells D' k = dif iSign [4; 3; 5; 4] 1 (cells D) k) /\
    (forall k, 240 <= k -> cells D' k = cells D k) /\
    length D'.1 = length D.1 /\ length D'.2 = length D.2.
Proof.
  intros HL. destruct (fft_spec iSign D HL) as (D' & E & H1 & H2 & H & U). exists D'. split; [done|]. split; [done|].
  split; [|done]. intros k Hk. unfold cells. by destruct (U k Hk) as [-> ->].
Qed.
Lemma fft_mixed_radix_witness :
  exists D', WebRtcIsacfix_FftRadix16Fastest (16384 :: replicate 240 0, replicate 240 0) (-1) = Some D' /\
    (forall k, 0 <= k < 240 -> cells D' k = dif (-1) [4; 3; 5; 4] 1 (cells (16384 :: replicate 240 0, replicate 240 0)) k) /\
    (forall k, 240 <= k -> cells D' k = cells (16384 :: replicate 240 0, replicate 240 0) k) /\
    length D'.1 = 241%nat /\ length D'.2 = 240%nat.
Proof. apply (fft_mixed_radix (-1) (16384 :: replicate 240 0, replicate 240 0)). split; apply Nat.leb_le; reflexivity. Defined.

(** Both transforms of a frame, for any samples: time to spectrum modulates the two
    channels, transforms them in block floating point and separates the
    spectrum by its symmetry, writing each pair of mirrored cells once; spectrum
    to time merges the mirrored cells, transforms back and demodulates.  Neither
    leaves an array of at least 240 cells or changes a cell behind. *)
Theorem transforms_exact a b re im : long (a, b) -> long (re, im) ->
  (exists out, WebRtcIsacfix_Time2SpecC a b re im = Some out /\
     (forall k, 0 <= k < 240 -> cells out k = paired (spectra (block_fft (-1) (modulated (arr a) (arr b)))) k) /\
     (forall k, 240 <= k -> cells out k = cells (re, im) k)) /\
  (exists a' b' o1 o2, WebRtcIsacfix_Spec2TimeC a b re im = Some (a', b', o1, o2) /\
     (forall k, 0 <= k < 240 -> cells (o1, o2) k = demodulated (block_fft 1 (paired (merged (cells (a, b))))) k) /\
     (forall k, 240 <= k -> cells (o1, o2) k = cells (re, im) k)).
Proof.
  intros HL HO. split.
  - destruct (time2spec_spec a b re im HL HO) as (out & E & _ & _ & H & U). exists out. split; [done|]. split; [done|].
    intros k Hk. unfold cells. by destruct (U k Hk) as [-> ->].
  - destruct (spec2time_spec a b re im HL HO) as ([ [ [a' b'] o1] o2] & E & _ & _ & _ & _ & H & U). exists a', b', o1, o2.
    split; [done|]. split; [done|]. intros k Hk. destruct (U k Hk) as [E1 E2]. cbn [fst snd] in E1, E2.
    unfold cells. cbn [fst snd]. by rewrite E1, E2.
Qed.
Lemma transforms_exact_witness :
  exists out, WebRtcIsacfix_Time2SpecC (replicate 240 1000) (replicate 240 (-500)) (replicate 240 0) (replicate 240 0) = Some out /\
    (forall k, 0 <= k < 240 -> cells out k = paired (spectra (block_fft (-1)
       (modulated (arr (replicate 240 1000)) (arr (replicate 240 (-500)))))) k) /\
    (forall k, 240 <= k -> cells out k = cells (replicate 240 0, replicate 240 0) k).
Proof.
  refine (proj1 (transforms_exact (replicate 240 1000) (replicate 240 (-500)) (replicate 240 0) (replicate 240 0) _ _));
    split; apply Nat.leb_le; reflexivity.
Defined.

(** ** The range of the 16-bit transform *)

(** Two channels within 16 bits that the modulation turns into a square wave in
    phase with bin 1. *)
Definition loud (k : Z) : Z * Z :=
  let c := arr WebRtcIsacfix_kCosTab1 k in let s := arr WebRtcIsacfix_kSinTab1 k in
  let u := if 0 <=? cos_at k then 15000 else -15000 in
  let v := if 0 <=? cos_at ((k + 180) `mod` 240) then 15000 else -15000 in
  ((u * c - v * s) ≫ 14, (u * s + v * c) ≫ 14).

(** Their samples as [Time2SpecC] hands them to the transform. *)
Definition loud_samples : ComplexArray :=
  let z := modulated (fun k => (loud k).1) (fun k => (loud k).2) in
  let re := table 240 (fun k => (z k).1) in
  let im := table 240 (fun k => (z k).2) in
  let sh := block_shift z in
  (map (to_fft sh) re, map (to_fft sh) im).

(** Normalising to magnitudes below 128 does not keep the transform within 16
    bits: bin 1 of these samples is above 32767, and the code's value is
    negative. *)
Lemma transform_overflow :
  Forall (fun k => is_i16 (loud k).1 /\ is_i16 (loud k).2) (seqZ 0 240) /\
  Forall (fun x => -128 < x < 128) (loud_samples.1 ++ loud_samples.2) /\
  32767 * 2 ^ 14 < foldr Z.add 0 (map (fun j =>
    arr loud_samples.1 j * cos_at j + arr loud_samples.2 j * cos_at ((j + 180) `mod` 240)) (seqZ 0 240)) /\
  exists D, WebRtcIsacfix_FftRadix16Fastest loud_samples (-1) = Some D /\ arr D.1 1 < 0.
Proof.
  split; [|split].
  1,2: apply (bool_decide_unpack (Forall _ _)); vm_compute; exact I.
  assert (loud_samples = (ltac:(let x := eval vm_compute in loud_samples.1 in exact x),
    ltac:(let x := eval vm_compute in loud_samples.2 in exact x))) as E by (vm_compute; reflexivity).
  rewrite E. clear E. split; [vm_compute; reflexivity|].
  eexists. split; [vm_compute; reflexivity|]. vm_compute. reflexivity.
Qed.
