(* ===== verification/IsacApi.v ===== *)
(** The interface of the fixed-point iSAC codec:
    [modules/audio_coding/codecs/isac/fix/source/isacfix.c], without the
    encoding and decoding of speech.

    A function on an instance returns its result and the instance; [None] is an
    access outside an array or an operation C does not define.  [encoded] is the
    caller's array, whose length is the size of the packet. *)
From S2P Require Import Prelude SplInl SplMath IsacArith IsacStream IsacEncoder IsacDecoder IsacLogistic IsacTransmit IsacSpectrum IsacPitch IsacLar IsacLpc IsacPacket IsacBwe IsacState.

Definition STREAM_MAXW16_30MS : Z := 100.
Definition INITIAL_FRAMESAMPLES : Z := 960.
Definition FS : Z := 16000.
Definition ISAC_MODE_MISMATCH : Z := 6020.
Definition ISAC_DISALLOWED_BOTTLENECK : Z := 6030.
Definition ISAC_DISALLOWED_FRAME_LENGTH : Z := 6040.
Definition ISAC_ENCODER_NOT_INITIATED : Z := 6410.
Definition ISAC_DISALLOWED_CODING_MODE : Z := 6420.
Definition ISAC_DECODER_NOT_INITIATED : Z := 6610.
Definition ISAC_EMPTY_PACKET : Z := 6620.
Definition ISAC_PACKET_TOO_SHORT : Z := 6625.
Definition ISAC_LENGTH_MISMATCH : Z := 6730.
Definition kRequiredEncodedLenBytes : Z := 10.

(** Sets the error code and returns -1. *)
Definition fail_with (code : Z) (inst : ISACFIX_SubStruct) : Z * ISACFIX_SubStruct := (-1, set_errorcode code inst).

(** ** Creation and initialisation *)

Definition set_SaveEnc_ptr (v : option IsacSaveEncoderData) (e : IsacFixEncoderInstance) : IsacFixEncoderInstance :=
  mkEncInst (bitstr_obj e) (maskfiltstr_enc e) (prefiltbankstr_obj e) (pitchfiltstr_enc e)
    (pitchanalysisstr_obj e) (rate_data_obj e) (buffer_index e) (current_framesamples e) (data_buffer_fix e)
    (frame_nb e) (BottleNeck e) (MaxDelay e) (new_framelength e) (s2nr e) (MaxBits e) (bitstr_seed e) v
    (payloadLimitBytes30 e) (payloadLimitBytes60 e) (maxPayloadBytes e) (maxRateInBytes e) (enforceFrameSize e).

(** [mem] is the content of the allocated memory, [None] a failed allocation. *)
Definition WebRtcIsacfix_Create (mem : option ISACFIX_SubStruct) : Z * option ISACFIX_SubStruct :=
  match mem with
  | Some m =>
      let m := set_errorcode 0 m in
      let m := set_initflag 0 m in
      let m := set_ISACenc_obj (set_SaveEnc_ptr None (ISACenc_obj m)) m in
      (0, Some (set_bwestimator_obj (snd (WebRtcIsacfix_InitBandwidthEstimator (bwestimator_obj m))) m))
  | None => (-1, None)
  end.

(** [mem] is the block [malloc] returns, with any contents. *)
Definition WebRtcIsacfix_CreateInternal (mem : option IsacSaveEncoderData) (inst : ISACFIX_SubStruct)
  : Z * ISACFIX_SubStruct :=
  let inst := set_ISACenc_obj (set_SaveEnc_ptr mem (ISACenc_obj inst)) inst in
  (match mem with Some _ => 0 | None => -1 end, inst).

Definition WebRtcIsacfix_EncoderInit (inst : ISACFIX_SubStruct) (mode : Z) : Z * ISACFIX_SubStruct :=
  let inst := set_initflag (i16 (Z.lor (initflag inst) 2)) inst in
  let '(statusInit, inst) :=
    if mode =? 0 then (0, set_ISACenc_obj (set_new_framelength INITIAL_FRAMESAMPLES (ISACenc_obj inst)) inst)
    else if mode =? 1 then (0, set_ISACenc_obj (set_new_framelength 480 (ISACenc_obj inst)) inst)
    else fail_with ISAC_DISALLOWED_CODING_MODE inst in
  let inst := set_CodingMode mode inst in
  let e := ISACenc_obj inst in
  let b := bitstr_obj e in
  (statusInit, set_ISACenc_obj
     {| bitstr_obj := mkEnc (zeros STREAM_MAXW16_60MS) (e_W_upper b) (e_streamval b) (e_stream_index b) (e_full b);
        maskfiltstr_enc := WebRtcIsacfix_InitMaskingEnc; prefiltbankstr_obj := WebRtcIsacfix_InitPreFilterbank;
        pitchfiltstr_enc := WebRtcIsacfix_InitPitchFilter; pitchanalysisstr_obj := WebRtcIsacfix_InitPitchAnalysis;
        rate_data_obj := WebRtcIsacfix_InitRateModel; buffer_index := 0; current_framesamples := 0;
        data_buffer_fix := data_buffer_fix e; frame_nb := 0; BottleNeck := 32000; MaxDelay := 10;
        new_framelength := new_framelength e; s2nr := 0; MaxBits := 0; bitstr_seed := 4447;
        SaveEnc_ptr := SaveEnc_ptr e; payloadLimitBytes30 := STREAM_MAXW16_30MS ≪ 1;
        payloadLimitBytes60 := STREAM_MAXW16_60MS ≪ 1; maxPayloadBytes := STREAM_MAXW16_60MS ≪ 1;
        maxRateInBytes := STREAM_MAXW16_30MS ≪ 1; enforceFrameSize := 0 |} inst).

Definition WebRtcIsacfix_DecoderInit (inst : ISACFIX_SubStruct) : ISACFIX_SubStruct :=
  let inst := set_initflag (i16 (Z.lor (initflag inst) 1)) inst in
  let d := ISACdec_obj inst in
  set_ISACdec_obj
    {| dec_bitstr_obj := dec_bitstr_obj d; maskfiltstr_dec := WebRtcIsacfix_InitMaskingDec;
       postfiltbankstr_obj := WebRtcIsacfix_InitPostFilterbank; pitchfiltstr_dec := WebRtcIsacfix_InitPitchFilter;
       plcstr_obj := WebRtcIsacfix_InitPlc (plcstr_obj d) |} inst.

Definition encoder_initiated (inst : ISACFIX_SubStruct) : bool := Z.land (initflag inst) 2 =? 2.
Definition decoder_initiated (inst : ISACFIX_SubStruct) : bool := Z.land (initflag inst) 1 =? 1.

(** ** Packets *)

(** The result, the bytes written to [encoded] and the instance. *)
Definition WebRtcIsacfix_GetNewBitStream (inst : ISACFIX_SubStruct) (bweIndex : Z) (scale : f32) (junk : list Z)
  : option (Z * list Z * ISACFIX_SubStruct) :=
  if negb (encoder_initiated inst) then Some (-1, [], set_errorcode ISAC_ENCODER_NOT_INITIATED inst)
  else
    let e := ISACenc_obj inst in
    '(len, b) ← WebRtcIsacfix_EncodeStoredData (SaveEnc_ptr e) (bitstr_obj e) bweIndex scale junk;
    let stream_len := i16 len in
    let inst := set_ISACenc_obj (set_bitstr_obj b e) inst in
    if stream_len <? 0 then Some (-1, [], set_errorcode (i16 (- stream_len)) inst)
    else Some (stream_len, write_be16 (e_stream b) stream_len, inst).

(** A decoder stream for [packet_size] bytes that holds the first ten. *)
Definition header_stream (encoded : list Z) (packet_size : Z) : option Bitstr_dec :=
  let st := InitializeDecoderBitstream packet_size in
  if kRequiredEncodedLenBytes <=? Z.of_nat (length encoded) then
    Some (mkDec (read_be16 encoded kRequiredEncodedLenBytes (d_stream st)) (d_W_upper st) (d_streamval st)
            (d_stream_index st) (d_full st) (d_stream_size st))
  else None.

(** What both functions do with a packet of acceptable length. *)
Definition estimate_from (inst : ISACFIX_SubStruct) (encoded : list Z) (rtp_seq_number send_ts arr_ts : Z)
  : option (Z * ISACFIX_SubStruct) :=
  let packet_size := Z.of_nat (length encoded) in
  if negb (decoder_initiated inst) then Some (fail_with ISAC_DECODER_NOT_INITIATED inst)
  else
    streamdata ← header_stream encoded packet_size;
    '(err, bwe, _) ← WebRtcIsacfix_EstimateBandwidth (bwestimator_obj inst) streamdata packet_size rtp_seq_number send_ts arr_ts;
    let err := i16 err in
    let inst := set_bwestimator_obj bwe inst in
    Some (if err <? 0 then fail_with (i16 (- err)) inst else (0, inst)).

Definition WebRtcIsacfix_UpdateBwEstimate1 (inst : ISACFIX_SubStruct) (encoded : list Z) (rtp_seq_number arr_ts : Z)
  : option (Z * ISACFIX_SubStruct) :=
  let packet_size := Z.of_nat (length encoded) in
  if packet_size =? 0 then Some (fail_with ISAC_EMPTY_PACKET inst)
  else if (STREAM_MAXW16 ≪ 1) <? packet_size then Some (fail_with ISAC_LENGTH_MISMATCH inst)
  else estimate_from inst encoded rtp_seq_number 0 arr_ts.

Definition WebRtcIsacfix_UpdateBwEstimate (inst : ISACFIX_SubStruct) (encoded : list Z)
    (rtp_seq_number send_ts arr_ts : Z) : option (Z * ISACFIX_SubStruct) :=
  let packet_size := Z.of_nat (length encoded) in
  if packet_size =? 0 then Some (fail_with ISAC_EMPTY_PACKET inst)
  else if packet_size <? kRequiredEncodedLenBytes then Some (fail_with ISAC_PACKET_TOO_SHORT inst)
  else if (STREAM_MAXW16 ≪ 1) <? packet_size then Some (fail_with ISAC_LENGTH_MISMATCH inst)
  else estimate_from inst encoded rtp_seq_number send_ts arr_ts.

(** The result and [*frameLength]. *)
Definition WebRtcIsacfix_ReadFrameLen (encoded : list Z) : option (Z * Z) :=
  let encoded_len_bytes := Z.of_nat (length encoded) in
  if encoded_len_bytes <? kRequiredEncodedLenBytes then Some (-1, 0)
  else
    streamdata ← header_stream encoded encoded_len_bytes;
    '(frameLength, err, _) ← WebRtcIsacfix_DecodeFrameLen streamdata;
    let err := i16 err in
    Some (if err <? 0 then (err, frameLength) else (0, frameLength)).

(** The result and [*rateIndex]. *)
Definition WebRtcIsacfix_ReadBwIndex (encoded : list Z) : option (Z * Z) :=
  let encoded_len_bytes := Z.of_nat (length encoded) in
  if encoded_len_bytes <? kRequiredEncodedLenBytes then Some (-1, 0)
  else
    streamdata ← header_stream encoded encoded_len_bytes;
    '(_, err, streamdata) ← WebRtcIsacfix_DecodeFrameLen streamdata;
    if i16 err <? 0 then Some (i16 err, 0)
    else
      '(rateIndex, err, _) ← WebRtcIsacfix_DecodeSendBandwidth streamdata;
      Some (if i16 err <? 0 then (i16 err, rateIndex) else (0, rateIndex)).

(** ** Control *)

Definition WebRtcIsacfix_Control (inst : ISACFIX_SubStruct) (rate framesize : Z) : Z * ISACFIX_SubStruct :=
  if CodingMode inst =? 0 then fail_with ISAC_MODE_MISMATCH inst
  else if (10000 <=? rate) && (rate <=? 32000) then
    let inst := set_ISACenc_obj (set_BottleNeck rate (ISACenc_obj inst)) inst in
    if (framesize =? 30) || (framesize =? 60) then
      (0, set_ISACenc_obj (set_new_framelength (i16 (Z.quot FS 1000 * framesize)) (ISACenc_obj inst)) inst)
    else fail_with ISAC_DISALLOWED_FRAME_LENGTH inst
  else fail_with ISAC_DISALLOWED_BOTTLENECK inst.

Definition WebRtcIsacfix_SetInitialBweBottleneck (inst : ISACFIX_SubStruct) (bottleneck_bits_per_second : Z)
  : option ISACFIX_SubStruct :=
  _ ← RTC_DCHECK (10000 <=? bottleneck_bits_per_second);
  _ ← RTC_DCHECK (bottleneck_bits_per_second <=? 32000);
  Some (set_bwestimator_obj (set_sendBwAvg (bwestimator_obj inst) (u32 (u32 bottleneck_bits_per_second ≪ 7))) inst).

Definition WebRtcIsacfix_ControlBwe (inst : ISACFIX_SubStruct) (rateBPS frameSizeMs enforce : Z) : Z * ISACFIX_SubStruct :=
  if negb (encoder_initiated inst) then fail_with ISAC_ENCODER_NOT_INITIATED inst
  else if negb (CodingMode inst =? 0) then fail_with ISAC_MODE_MISMATCH inst
  else
    let inst := set_ISACenc_obj (set_enforceFrameSize (if negb (enforce =? 0) then 1 else 0) (ISACenc_obj inst)) inst in
    let frame_size inst :=
      if (frameSizeMs =? 30) || (frameSizeMs =? 60) then
        (0, set_ISACenc_obj (set_new_framelength (i16 (Z.quot FS 1000 * frameSizeMs)) (ISACenc_obj inst)) inst)
      else fail_with ISAC_DISALLOWED_FRAME_LENGTH inst in
    if (10000 <=? rateBPS) && (rateBPS <=? 32000) then
      frame_size (set_bwestimator_obj (set_sendBwAvg (bwestimator_obj inst) (u32 (u32 rateBPS ≪ 7))) inst)
    else if negb (rateBPS =? 0) then fail_with ISAC_DISALLOWED_BOTTLENECK inst
    else frame_size inst.

(** The result, [*rateIndex] and the instance. *)
Definition WebRtcIsacfix_GetDownLinkBwIndex (inst : ISACFIX_SubStruct) : option (Z * Z * ISACFIX_SubStruct) :=
  '(rateIndex, bwe) ← WebRtcIsacfix_GetDownlinkBwIndexImpl (bwestimator_obj inst);
  Some (0, i16 rateIndex, set_bwestimator_obj bwe inst).

Definition WebRtcIsacfix_UpdateUplinkBw (inst : ISACFIX_SubStruct) (rateIndex : Z) : option (Z * ISACFIX_SubStruct) :=
  '(err, bwe) ← WebRtcIsacfix_UpdateUplinkBwRec (bwestimator_obj inst) rateIndex;
  let inst := set_bwestimator_obj bwe inst in
  Some (if err <? 0 then fail_with (i16 (- err)) inst else (0, inst)).

Definition WebRtcIsacfix_GetErrorCode (inst : ISACFIX_SubStruct) : Z := errorcode inst.
Definition WebRtcIsacfix_GetUplinkBw (inst : ISACFIX_SubStruct) : option Z :=
  WebRtcIsacfix_GetUplinkBandwidth (bwestimator_obj inst).
Definition WebRtcIsacfix_GetNewFrameLen (inst : ISACFIX_SubStruct) : Z := new_framelength (ISACenc_obj inst).

Definition WebRtcIsacfix_SetMaxPayloadSize (inst : ISACFIX_SubStruct) (maxBytes : Z) : Z * ISACFIX_SubStruct :=
  if (maxBytes <? 100) || (400 <? maxBytes) then (-1, inst)
  else
    let e := set_maxPayloadBytes maxBytes (ISACenc_obj inst) in
    let e := set_payloadLimitBytes30 (if maxBytes <? maxRateInBytes e then maxBytes else maxRateInBytes e) e in
    let e := set_payloadLimitBytes60
               (if maxBytes <? (maxRateInBytes e ≪ 1) then maxBytes else i16 (maxRateInBytes e ≪ 1)) e in
    (0, set_ISACenc_obj e inst).

Definition WebRtcIsacfix_SetMaxRate (inst : ISACFIX_SubStruct) (maxRate : Z) : Z * ISACFIX_SubStruct :=
  if (maxRate <? 32000) || (53400 <? maxRate) then (-1, inst)
  else
    let rateInBytes := i16 (WebRtcSpl_DivW32W16ResW16 (WEBRTC_SPL_MUL maxRate 3) 800) in
    let e := set_maxRateInBytes rateInBytes (ISACenc_obj inst) in
    let e := set_payloadLimitBytes30
               (if rateInBytes <? maxPayloadBytes e then rateInBytes else maxPayloadBytes e) e in
    let e := set_payloadLimitBytes60
               (if (rateInBytes ≪ 1) <? maxPayloadBytes e then i16 (rateInBytes ≪ 1) else maxPayloadBytes e) e in
    (0, set_ISACenc_obj e inst).

(** ** The first bytes of a packet *)

(** The encoder state determines the interval. *)
Lemma enc_inv_fun st V W n V' W' n' : enc_inv st V W n -> enc_inv st V' W' n' -> V' = V /\ W' = W /\ n' = n.
Proof.
  intros [H _] [H' _]. pose proof (er_n _ _ _ _ H) as En. pose proof (er_n _ _ _ _ H') as En'. rewrite En in En'. subst n'.
  split; [|split; [|done] ].
  - by rewrite (er_V _ _ _ _ H), (er_V _ _ _ _ H').
  - by rewrite <-(er_W _ _ _ _ H), <-(er_W _ _ _ _ H').
Qed.

Lemma bv_agree s s' m : (forall i, (i < m)%nat -> byteat s i = byteat s' i) -> bv s m = bv s' m.
Proof. induction m as [|m IH]; intros H; [done|]. rewrite !bv_S, IH, H by (intros; try apply H; lia). done. Qed.

(** The bytes of a packet, as the caller has them. *)
Definition packet_bytes (src : list Z) (len : Z) : list Z := take (Z.to_nat len) (write_be16 src len).

Lemma length_packet_bytes src len : 0 <= len -> length (packet_bytes src len) = Z.to_nat len.
Proof.
  intros Hlen. unfold packet_bytes. rewrite length_take. unfold write_be16. rewrite length_app.
  pose proof (length_pairs (fun i => u8 (arr src i ≫ 8)) (fun i => u8 (arr src i)) (Z.to_nat (len / 2)) 0) as Hl.
  rewrite Z2Nat.id in Hl by (Z.div_mod_to_equations; lia). rewrite Hl.
  destruct (Z.eqb_spec (len mod 2) 1); cbn [length]; Z.div_mod_to_equations; lia.
Qed.

Section Header.
Context (src : list Z) (len : Z) (Hsrc : Forall is_u16 src) (Hlen : 10 <= len).

Lemma header_pair j : 0 <= j < 5 ->
  arr (packet_bytes src len) (2 * j) = arr (write_be16 src 10) (2 * j) /\
  arr (packet_bytes src len) (2 * j + 1) = arr (write_be16 src 10) (2 * j + 1).
Proof.
  intros Hj. destruct (write_be16_pair src len j) as [E1 E2]; [Z.div_mod_to_equations; lia|].
  destruct (write_be16_pair src 10 j) as [F1 F2]; [change (10 / 2) with 5; lia|].
  rewrite F1, F2, <-E1, <-E2. unfold packet_bytes, arr. rewrite !nth_lookup, !lookup_take_lt by lia. done.
Qed.

Lemma header_read dest : read_be16 (packet_bytes src len) 10 dest = read_be16 (write_be16 src 10) 10 dest.
Proof.
  unfold read_be16. change (10 / 2) with 5. change (10 mod 2 =? 1) with false. cbv iota.
  unfold for_loop. change (Z.to_nat 5) with 5%nat. cbn [for_from].
  repeat match goal with
  | |- context [arr (packet_bytes src len) (2 * ?j)] => rewrite (proj1 (header_pair j ltac:(lia)))
  | |- context [arr (packet_bytes src len) (2 * ?j + 1)] => rewrite (proj2 (header_pair j ltac:(lia)))
  end. done.
Qed.

(** A decoder stream with ten bytes of the packet, zeros behind. *)
Lemma header_stream_reads : exists ds,
  header_stream (packet_bytes src len) len = Some (dec_reset ds ((len + 1) ≫ 1)) /\
  Forall is_u16 ds /\ length ds = Z.to_nat INTERNAL_STREAM_SIZE_W16 /\ zero_from ds ((len + 1) ≫ 1) /\
  (forall i, (i < 10)%nat -> byteat ds i = byteat src i).
Proof.
  unfold header_stream, kRequiredEncodedLenBytes. rewrite length_packet_bytes, (proj2 (Z.leb_le 10 _)), header_read by lia.
  assert (10 <= 2 * INTERNAL_STREAM_SIZE_W16) as H10 by (vm_compute; discriminate).
  destruct (read_write_words src 10 Hsrc ltac:(lia) H10) as (Hl & Hu & _).
  destruct (read_write_bytes src 10 Hsrc ltac:(lia) H10) as [Hb Hz].
  eexists. split; [reflexivity|]. split; [exact Hu|]. split; [exact Hl|]. split; [|exact Hb].
  intros i c Hi. apply Hz. revert Hi. rewrite !shiftr_div by lia. change (2 ^ 1) with 2. change ((10 + 1) / 2) with 5.
  Z.div_mod_to_equations; lia.
Qed.
End Header.

(** ** Packets and the estimator *)

Section Feedback.
Context (s : IsacSaveEncoderData) (bitstr : Bitstr_enc) (BWnumber : Z) (scale : f32) (junk : list Z) (len : Z) (st' : Bitstr_enc).
Context (Hst : startIdx s = 0 \/ startIdx s = 1) (Hfl : framelength s = FRAMESAMPLES * (startIdx s + 1)).
Context (Hf : forall ii, 0 <= ii <= startIdx s ->
  frame_ok s (cells (LPCindex_g s) (KLT_ORDER_GAIN * ii) KLT_ORDER_GAIN)
    (frame_fr (tmp_dft s scale (fre s)) ii) (frame_fi (tmp_dft s scale (fim s)) ii) ii).
Context (Hw : forall st1 st2, WebRtcIsacfix_EncodeFrameLen (framelength s) (enc_reset (e_stream bitstr)) = Some (0, st1) ->
  WebRtcIsacfix_EncodeReceiveBandwidth BWnumber st1 = Some (0, st2) ->
  wide_frames s (tmp_index_g s scale junk) (tmp_dft s scale (fre s)) (tmp_dft s scale (fim s)) 0
    (Z.to_nat (startIdx s + 1)) st2).
Context (Hs : Forall is_u16 (e_stream bitstr)) (Hl : length (e_stream bitstr) = Z.to_nat STREAM_MAXW16_60MS).
Context (E : WebRtcIsacfix_EncodeStoredData (Some s) bitstr BWnumber scale junk = Some (len, st')) (Hlen : 10 <= len).

(** Each symbol takes at most three bytes, so frame length and bandwidth index
    are decided by ten. *)
Lemma header_symbols st1 st2 V1 W1 n1 V2 W2 n2 : 0 <= BWnumber < 24 ->
  WebRtcIsacfix_EncodeFrameLen (framelength s) (enc_reset (e_stream bitstr)) = Some (0, st1) ->
  WebRtcIsacfix_EncodeReceiveBandwidth BWnumber st1 = Some (0, st2) ->
  enc_inv st1 V1 W1 n1 -> enc_inv st2 V2 W2 n2 -> (n2 <= 6)%nat.
Proof.
  intros Hb E1 E2 Hi1 Hi2. apply EncodeFrameLen_mode in E1 as (m & Hm & E1).
  destruct (EncHistMulti_spec _ _ _ _ [m] kFrameLenCdfPtr (enc_reset_inv _ Hs Hl)
    (chunk_ok_syms _ (frame_mode_ok m ltac:(lia)))) as (r & x & F1 & [(-> & V & W & n & Hi & Hn & _)|(-> & Hn)]);
    rewrite E1 in F1; [|discriminate]. injection F1 as <-.
  destruct (enc_inv_fun _ _ _ _ _ _ _ Hi Hi1) as (_ & _ & ->).
  destruct (EncHistMulti_spec st1 V1 W1 n [BWnumber] kBwCdfPtr Hi1
    (chunk_ok_syms _ (bandwidth_ok BWnumber Hb))) as (r & x & F2 & [(-> & V' & W' & n' & Hi' & Hn' & _)|(-> & Hn')]);
    unfold WebRtcIsacfix_EncodeReceiveBandwidth in E2; rewrite E2 in F2; [|discriminate]. injection F2 as <-.
  destruct (enc_inv_fun _ _ _ _ _ _ _ Hi' Hi2) as (_ & _ & ->). cbn [length] in *. lia.
Qed.

Lemma header_decodes : exists d r1 d1 r2 d2, 0 <= BWnumber < 24 /\ len <= 400 /\
  header_stream (packet_bytes (e_stream st') len) len = Some d /\
  WebRtcIsacfix_DecodeFrameLen d = Some (framelength s, r1, d1) /\ 0 <= r1 <= 400 /\
  WebRtcIsacfix_DecodeSendBandwidth d1 = Some (BWnumber, r2, d2) /\ 0 <= r2 <= 400.
Proof.
  destruct (stored_packet_transmits s bitstr BWnumber scale junk len st' Hst Hfl Hf Hw Hs Hl E ltac:(lia))
    as (st1 & st2 & st3 & fs & Hb & E1 & E2 & T1 & T2 & _ & _ & T3 & Et).
  destruct (T1 0 (2 ^ 32 - 1) 0%nat (enc_reset_inv _ Hs Hl)) as (s1 & V1 & W1 & n1 & _ & Hi1 & D1).
  destruct (T2 V1 W1 n1 Hi1) as (s2 & V2 & W2 & n2 & Tr2 & Hi2 & D2).
  destruct (T3 V2 W2 n2 Hi2) as (s3 & V3 & W3 & n3 & Tr3 & Hi3 & _).
  pose proof (header_symbols st1 st2 V1 W1 n1 V2 W2 n2 Hb E1 E2 Hi1 Hi2) as Hn2.
  destruct (decide (n3 + term_bytes W3 <= 400)%nat) as [Hle|];
    [|by rewrite (EncTerminate_overrun st3 V3 W3 n3 Hi3 ltac:(lia)) in Et].
  destruct (EncTerminate_spec st3 V3 W3 n3 Hi3 Hle) as (st4 & E4 & _ & Hu & _). rewrite Et in E4. injection E4 as El <-.
  assert (len <= 2 * INTERNAL_STREAM_SIZE_W16) as Hmax by (unfold INTERNAL_STREAM_SIZE_W16, STREAM_MAXW16; lia).
  destruct (read_write_words _ len Hu ltac:(lia) Hmax) as (HlF & HuF & _).
  destruct (read_write_bytes _ len Hu ltac:(lia) Hmax) as [HbF _].
  destruct (terminate_ready st3 V3 W3 n3 _ len st' Hi3 Et HuF HlF HbF) as (_ & HinF & _).
  pose proof (trace_nested _ _ _ _ _ _ _ _ HuF (proj2 Hi2) Tr3 HinF) as Hin2.
  destruct (header_stream_reads (e_stream st') len Hu Hlen) as (ds & Ehs & Hds & Hld & Hz & Hag).
  assert (in_range ds V2 W2 (n2 + 4)) as Hin.
  { unfold in_range in *. erewrite bv_agree; [exact Hin2|]. intros i Hi. rewrite Hag, HbF by lia. done. }
  pose proof (trace_nested ds _ _ _ _ _ _ _ Hds (proj2 Hi1) Tr2 Hin) as Hin1.
  assert (n1 <= n2)%nat by (eapply trace_mono; eassumption).
  destruct (D1 ds (dec_reset ds ((len + 1) ≫ 1)) Hds Hld) as (r1 & d1 & Ed1 & Hr1 & Rd1 & I1);
    [split; done|split; [done|split; [lia|by left] ]|done|rewrite Hld; change (Z.to_nat INTERNAL_STREAM_SIZE_W16) with 305%nat; lia|].
  destruct (D2 ds d1 Hds Hld Rd1 I1 Hin) as (r2 & d2 & Ed2 & Hr2 & _);
    [rewrite Hld; change (Z.to_nat INTERNAL_STREAM_SIZE_W16) with 305%nat; lia|].
  assert (forall W, (term_bytes W <= 4)%nat) as Htb by (intros W; unfold term_bytes; case_match; lia).
  pose proof (Htb W1). pose proof (Htb W2).
  exists (dec_reset ds ((len + 1) ≫ 1)), r1, d1, r2, d2. unfold stream_length in *. split_and!; try done; lia.
Qed.
End Feedback.

(** ** The instance invariant *)

(** The limits on the packet length follow from the two limits set by the
    user. *)
Record enc_wf (e : IsacFixEncoderInstance) : Prop := {
  enc_payload : 100 <= maxPayloadBytes e <= 400;
  enc_rate : 120 <= maxRateInBytes e <= 200;
  enc_limit30 : payloadLimitBytes30 e = Z.min (maxPayloadBytes e) (maxRateInBytes e);
  enc_limit60 : payloadLimitBytes60 e = Z.min (maxPayloadBytes e) (2 * maxRateInBytes e);
  enc_bottleneck : MIN_ISAC_BW <= BottleNeck e <= MAX_ISAC_BW;
  enc_rate_data : rate_wf (rate_data_obj e);
  enc_enforce : enforceFrameSize e = 0 \/ enforceFrameSize e = 1
}.

Record inst_wf (inst : ISACFIX_SubStruct) : Prop := {
  inst_bwe : bwe_wf (bwestimator_obj inst);
  inst_flag : 0 <= initflag inst <= 3;
  inst_enc : encoder_initiated inst = true -> enc_wf (ISACenc_obj inst);
  inst_frame : encoder_initiated inst = true -> CodingMode inst = 0 \/ CodingMode inst = 1 ->
    new_framelength (ISACenc_obj inst) = 480 \/ new_framelength (ISACenc_obj inst) = 960
}.

(** The calls that change an instance, apart from those that code or decode
    speech. *)
Inductive api_call : ISACFIX_SubStruct -> ISACFIX_SubStruct -> Prop :=
| call_CreateInternal inst mem : api_call inst (snd (WebRtcIsacfix_CreateInternal mem inst))
| call_EncoderInit inst mode : api_call inst (snd (WebRtcIsacfix_EncoderInit inst mode))
| call_DecoderInit inst : api_call inst (WebRtcIsacfix_DecoderInit inst)
| call_GetNewBitStream inst bweIndex scale junk r bytes inst' :
    WebRtcIsacfix_GetNewBitStream inst bweIndex scale junk = Some (r, bytes, inst') -> api_call inst inst'
| call_UpdateBwEstimate1 inst encoded rtp arr_ts r inst' : is_u16 rtp -> is_u32 arr_ts ->
    arr_ts - prevArrivalTime (bwestimator_obj inst) < 2 ^ 31 ->
    WebRtcIsacfix_UpdateBwEstimate1 inst encoded rtp arr_ts = Some (r, inst') -> api_call inst inst'
| call_UpdateBwEstimate inst encoded rtp send_ts arr_ts r inst' : is_u16 rtp -> is_u32 send_ts -> is_u32 arr_ts ->
    arr_ts - prevArrivalTime (bwestimator_obj inst) < 2 ^ 31 ->
    WebRtcIsacfix_UpdateBwEstimate inst encoded rtp send_ts arr_ts = Some (r, inst') -> api_call inst inst'
| call_Control inst rate framesize : api_call inst (snd (WebRtcIsacfix_Control inst rate framesize))
| call_SetInitialBweBottleneck inst rate inst' :
    WebRtcIsacfix_SetInitialBweBottleneck inst rate = Some inst' -> api_call inst inst'
| call_ControlBwe inst rate framesize enforce : api_call inst (snd (WebRtcIsacfix_ControlBwe inst rate framesize enforce))
| call_GetDownLinkBwIndex inst r i inst' :
    WebRtcIsacfix_GetDownLinkBwIndex inst = Some (r, i, inst') -> api_call inst inst'
| call_UpdateUplinkBw inst i r inst' : WebRtcIsacfix_UpdateUplinkBw inst i = Some (r, inst') -> api_call inst inst'
| call_SetMaxPayloadSize inst n : api_call inst (snd (WebRtcIsacfix_SetMaxPayloadSize inst n))
| call_SetMaxRate inst n : api_call inst (snd (WebRtcIsacfix_SetMaxRate inst n)).

Section Calls.
Implicit Types inst : ISACFIX_SubStruct.

(** Changes outside the members the invariant speaks of. *)
Lemma set_errorcode_wf c inst : inst_wf inst -> inst_wf (set_errorcode c inst).
Proof. intros [H1 H2 H3 H4]. constructor; assumption. Qed.

Lemma set_bwe_wf b inst : bwe_wf b -> inst_wf inst -> inst_wf (set_bwestimator_obj b inst).
Proof. intros Hb [H1 H2 H3 H4]. constructor; assumption. Qed.

Lemma set_enc_wf e inst : inst_wf inst -> (enc_wf (ISACenc_obj inst) -> enc_wf e) ->
  new_framelength e = new_framelength (ISACenc_obj inst) \/ new_framelength e = 480 \/ new_framelength e = 960 ->
  inst_wf (set_ISACenc_obj e inst).
Proof.
  intros [H1 H2 H3 H4] He Hn. constructor; [assumption|assumption| |].
  - intros Hi. apply He, H3, Hi.
  - intros Hi Hc. destruct Hn as [Hn|Hn]; [|exact Hn]. isac_simpl. rewrite Hn. apply H4; assumption.
Qed.

Lemma EncoderInit_enc inst mode : enc_wf (ISACenc_obj (snd (WebRtcIsacfix_EncoderInit inst mode))).
Proof.
  unfold WebRtcIsacfix_EncoderInit. destruct (mode =? 0); [|destruct (mode =? 1)]; cbv iota beta zeta delta [fail_with];
    constructor; isac_simpl; try (vm_compute; intuition congruence);
    constructor; cbn; unfold is_i16, BURST_LEN, INIT_BURST_LEN; lia.
Qed.

Lemma EncoderInit_wf inst mode : inst_wf inst -> inst_wf (snd (WebRtcIsacfix_EncoderInit inst mode)).
Proof.
  intros [H1 H2 H3 H4].
  assert (i16 (Z.lor (initflag inst) 2) = 2 \/ i16 (Z.lor (initflag inst) 2) = 3) as Hf.
  { assert (initflag inst = 0 \/ initflag inst = 1 \/ initflag inst = 2 \/ initflag inst = 3) as [-> | [-> | [-> | ->] ] ] by lia;
      vm_compute; tauto. }
  pose proof (EncoderInit_enc inst mode) as He. revert He. unfold WebRtcIsacfix_EncoderInit.
  destruct (Z.eqb_spec mode 0); [|destruct (Z.eqb_spec mode 1)]; cbv iota beta zeta delta [fail_with]; intros He;
    (constructor; [exact H1|isac_simpl; lia|intros _; exact He|isac_simpl; intros _ Hm]); auto; lia.
Qed.

Lemma DecoderInit_wf inst : inst_wf inst -> inst_wf (WebRtcIsacfix_DecoderInit inst).
Proof.
  intros [H1 H2 H3 H4]. unfold WebRtcIsacfix_DecoderInit, encoder_initiated in *.
  assert (0 <= i16 (Z.lor (initflag inst) 1) <= 3 /\
    Z.land (i16 (Z.lor (initflag inst) 1)) 2 = Z.land (initflag inst) 2) as [Hf Hl].
  { assert (initflag inst = 0 \/ initflag inst = 1 \/ initflag inst = 2 \/ initflag inst = 3) as [-> | [-> | [-> | ->] ] ] by lia;
      vm_compute; intuition congruence. }
  constructor; unfold encoder_initiated; isac_simpl; rewrite ?Hl; assumption.
Qed.

Lemma Control_wf inst rate framesize : inst_wf inst -> inst_wf (snd (WebRtcIsacfix_Control inst rate framesize)).
Proof.
  intros H. unfold WebRtcIsacfix_Control, fail_with. destruct (CodingMode inst =? 0); [by apply set_errorcode_wf|].
  destruct ((10000 <=? rate) && (rate <=? 32000)) eqn:Er; [|by apply set_errorcode_wf].
  assert (inst_wf (set_ISACenc_obj (set_BottleNeck rate (ISACenc_obj inst)) inst)) as H1.
  { apply set_enc_wf; [done| |by left]. intros []. constructor; isac_simpl; try assumption.
    unfold MIN_ISAC_BW, MAX_ISAC_BW. lia. }
  destruct ((framesize =? 30) || (framesize =? 60)) eqn:Ef; [|by apply set_errorcode_wf].
  apply set_enc_wf; [done| |].
  - intros []. constructor; isac_simpl; assumption.
  - right. isac_simpl. assert (framesize = 30 \/ framesize = 60) as [-> | ->] by lia; vm_compute; tauto.
Qed.

Lemma set_sendBwAvg_wf s r : 10000 <= r <= 32000 -> bwe_wf s -> bwe_wf (set_sendBwAvg s (u32 (u32 r ≪ 7))).
Proof.
  intros Hr (H & Hinv & Ht). rewrite (u32_id r), Z.shiftl_mul_pow2, u32_id by (unfold is_u32; lia).
  split; [|split; assumption]. keep_base. lia.
Qed.

Lemma ControlBwe_wf inst rate framesize enforce : inst_wf inst ->
  inst_wf (snd (WebRtcIsacfix_ControlBwe inst rate framesize enforce)).
Proof.
  intros H. unfold WebRtcIsacfix_ControlBwe. destruct (negb (encoder_initiated inst)); [by apply set_errorcode_wf|].
  destruct (negb (CodingMode inst =? 0)); [by apply set_errorcode_wf|].
  set (inst1 := set_ISACenc_obj _ inst).
  assert (inst_wf inst1) as H1.
  { subst inst1. apply set_enc_wf; [done| |by left]. intros []. constructor; isac_simpl; try assumption. case_match; auto. }
  clearbody inst1. cbv zeta.
  assert (forall i, inst_wf i -> inst_wf (snd (if (framesize =? 30) || (framesize =? 60) then
    (0, set_ISACenc_obj (set_new_framelength (i16 (Z.quot FS 1000 * framesize)) (ISACenc_obj i)) i)
    else fail_with ISAC_DISALLOWED_FRAME_LENGTH i))) as Hfs.
  { intros i Hi. destruct ((framesize =? 30) || (framesize =? 60)) eqn:Ef; [|by apply set_errorcode_wf].
    apply set_enc_wf; [done| |].
    - intros []. constructor; isac_simpl; assumption.
    - right. isac_simpl. assert (framesize = 30 \/ framesize = 60) as [-> | ->] by lia; vm_compute; tauto. }
  destruct ((10000 <=? rate) && (rate <=? 32000)) eqn:Er.
  - apply Hfs, set_bwe_wf; [|done]. apply set_sendBwAvg_wf; [lia|apply H1].
  - destruct (negb (rate =? 0)); [by apply set_errorcode_wf|by apply Hfs].
Qed.

Lemma SetMaxPayloadSize_wf inst n : inst_wf inst -> inst_wf (snd (WebRtcIsacfix_SetMaxPayloadSize inst n)).
Proof.
  intros H. unfold WebRtcIsacfix_SetMaxPayloadSize. destruct ((n <? 100) || (400 <? n)) eqn:En; [done|].
  apply set_enc_wf; [done| |by left]. intros [H1 H2 H3 H4 H5 H6 H7]. isac_simpl.
  rewrite Z.shiftl_mul_pow2 by lia. rewrite i16_id by (unfold is_i16; lia).
  constructor; isac_simpl; try assumption; [lia|destruct (Z.ltb_spec n (maxRateInBytes (ISACenc_obj inst))); lia|].
  destruct (Z.ltb_spec n (maxRateInBytes (ISACenc_obj inst) * 2 ^ 1)); lia.
Qed.

(** The rate in bytes per 30 ms, rounded down. *)
Lemma max_rate_bytes n : 32000 <= n <= 53400 ->
  i16 (WebRtcSpl_DivW32W16ResW16 (WEBRTC_SPL_MUL n 3) 800) = n * 30 / 8000 /\ 120 <= n * 30 / 8000 <= 200.
Proof.
  intros Hn. unfold WebRtcSpl_DivW32W16ResW16, WEBRTC_SPL_MUL. cbn [Z.eqb negb].
  rewrite (i32_id n), (i32_id 3), (i32_id (n * 3)), Z.quot_div_nonneg by (unfold is_i32; lia).
  replace (n * 30 / 8000) with (n * 3 / 800) by (Z.div_mod_to_equations; lia).
  assert (120 <= n * 3 / 800 <= 200) as Hb by (Z.div_mod_to_equations; lia).
  rewrite i32_id, !i16_id by (unfold is_i32, is_i16; rewrite ?i16_id; unfold is_i16; lia). done.
Qed.

Lemma SetMaxRate_wf inst n : inst_wf inst -> inst_wf (snd (WebRtcIsacfix_SetMaxRate inst n)).
Proof.
  intros H. unfold WebRtcIsacfix_SetMaxRate. destruct ((n <? 32000) || (53400 <? n)) eqn:En; [done|].
  destruct (max_rate_bytes n ltac:(lia)) as [-> Hb]. revert Hb. generalize (n * 30 / 8000) as m. intros m Hb.
  apply set_enc_wf; [done| |by left]. intros [H1 H2 H3 H4 H5 H6 H7]. isac_simpl.
  rewrite Z.shiftl_mul_pow2 by lia. rewrite i16_id by (unfold is_i16; lia).
  constructor; isac_simpl; try assumption; [destruct (Z.ltb_spec m (maxPayloadBytes (ISACenc_obj inst))); lia|].
  destruct (Z.ltb_spec (m * 2 ^ 1) (maxPayloadBytes (ISACenc_obj inst))); lia.
Qed.
End Calls.

(** ** Calls on the estimator *)

Lemma UpdateUplinkBwRec_any s i : bwe_wf s -> exists r s', WebRtcIsacfix_UpdateUplinkBwRec s i = Some (r, s') /\ bwe_wf s'.
Proof.
  intros H. destruct (decide (0 <= i <= 23)) as [Hi|Hi].
  - destruct (UpdateUplinkBwRec_ok s i _ _ H Hi) as (s' & E & H' & EA & _). exists 0, s'.
    split; [done|]. unfold bwe_wf. by rewrite EA.
  - exists (- ISAC_RANGE_ERROR_BW_ESTIMATOR), s. split; [|done]. apply UpdateUplinkBwRec_range; [apply H|lia].
Qed.

Lemma UpdateUplinkBwImpl_any s rtp f send A p i : bwe_wf s -> is_u16 rtp -> f = 30 \/ f = 60 -> is_u32 send -> is_u32 A ->
  A - prevArrivalTime s < 2 ^ 31 -> is_u16 i ->
  exists r s', WebRtcIsacfix_UpdateUplinkBwImpl s rtp f send A p i = Some (r, s') /\ bwe_wf s'.
Proof.
  intros H Hrtp Hf Hs HA Hg Hi. destruct (decide (i <= 23)).
  - destruct (UpdateUplinkBwImpl_ok s rtp f send A p i H Hrtp Hf Hs HA Hg ltac:(unfold is_u16 in Hi; lia)) as (s' & E & H' & _).
    by exists 0, s'.
  - unfold WebRtcIsacfix_UpdateUplinkBwImpl. rewrite (base_external s (proj1 H)). simpl RTC_DCHECK. bind_simpl.
    rewrite UpdateUplinkBwRec_range; [|apply H|cint]. bind_simpl. cbn [Z.ltb Z.compare Z.opp ISAC_RANGE_ERROR_BW_ESTIMATOR].
    by do 2 eexists.
Qed.

Lemma DecodeFrameLen_values d v r d' : WebRtcIsacfix_DecodeFrameLen d = Some (v, r, d') -> 0 <= r -> v = 480 \/ v = 960.
Proof.
  unfold WebRtcIsacfix_DecodeFrameLen.
  destruct (WebRtcIsacfix_DecHistOneStepMulti _ _ _ _) as [ [ [m e] st] |]; [|done]. cbn [mbind option_bind].
  destruct (e <? 0); [intros [= _ <- _]; unfold ISAC_RANGE_ERROR_DECODE_FRAME_LENGTH; lia|].
  destruct (arr m 0 =? 1); [intros [= <- _ _]; auto|]. destruct (arr m 0 =? 2); [intros [= <- _ _]; auto|].
  intros [= _ <- _]. unfold ISAC_DISALLOWED_FRAME_MODE_DECODER. lia.
Qed.

Lemma EstimateBandwidth_wf s d p rtp send A r s' d' : bwe_wf s -> is_u16 rtp -> is_u32 send -> is_u32 A ->
  A - prevArrivalTime s < 2 ^ 31 ->
  WebRtcIsacfix_EstimateBandwidth s d p rtp send A = Some (r, s', d') -> bwe_wf s'.
Proof.
  intros H Hrtp Hs HA Hg. unfold WebRtcIsacfix_EstimateBandwidth.
  destruct (WebRtcIsacfix_DecodeFrameLen d) as [ [ [v r1] d1] |] eqn:E1; [|done]. cbn [mbind option_bind].
  destruct (Z.ltb_spec r1 0); [by intros [= _ <- _]|]. apply DecodeFrameLen_values in E1; [|done].
  destruct (WebRtcIsacfix_DecodeSendBandwidth d1) as [ [ [i r2] d2] |]; [|done]. cbn [mbind option_bind].
  destruct (r2 <? 0); [by intros [= _ <- _]|].
  destruct (UpdateUplinkBwImpl_any s rtp (i16 (Z.quot (v * 1000) 16000)) send A p (u16 i) H Hrtp) as (r3 & s3 & -> & H3);
    [destruct E1 as [-> | ->]; vm_compute; tauto|done..|apply u16_range|].
  cbn [mbind option_bind]. destruct (r3 <? 0); by intros [= _ <- _].
Qed.

Lemma estimate_from_wf inst encoded rtp send A r inst' : inst_wf inst -> is_u16 rtp -> is_u32 send -> is_u32 A ->
  A - prevArrivalTime (bwestimator_obj inst) < 2 ^ 31 ->
  estimate_from inst encoded rtp send A = Some (r, inst') -> inst_wf inst'.
Proof.
  intros H Hrtp Hs HA Hg. unfold estimate_from.
  destruct (negb _); [intros [= _ <-]; by apply set_errorcode_wf|].
  destruct (header_stream _ _) as [d|]; [|done]. cbn [mbind option_bind].
  destruct (WebRtcIsacfix_EstimateBandwidth _ _ _ _ _ _) as [ [ [e b] d'] |] eqn:E; [|done]. cbn [mbind option_bind].
  apply EstimateBandwidth_wf in E; try done; [|apply H].
  destruct (i16 e <? 0); intros [= _ <-]; [apply set_errorcode_wf|]; by apply set_bwe_wf.
Qed.

(** Reporting needs a short-term jitter other than 0. *)
Lemma GetDownlinkBwIndexImpl_wf s i s' : bwe_wf s -> WebRtcIsacfix_GetDownlinkBwIndexImpl s = Some (i, s') -> bwe_wf s'.
Proof.
  intros H E. destruct (decide (recJitterShortTermAbs s = 0)) as [Hz|Hz].
  - unfold WebRtcIsacfix_GetDownlinkBwIndexImpl, WebRtcIsacfix_GetDownlinkBandwidth in E.
    rewrite (base_external s (proj1 H)), Hz in E. discriminate.
  - destruct (GetDownlinkBwIndexImpl_ok s H Hz) as (rate & r & i' & s1 & _ & _ & E1 & _ & H1 & _).
    rewrite E in E1. injection E1 as <- <-. exact H1.
Qed.

Lemma GetNewBitStream_wf inst i scale junk r bytes inst' : inst_wf inst ->
  WebRtcIsacfix_GetNewBitStream inst i scale junk = Some (r, bytes, inst') -> inst_wf inst'.
Proof.
  intros H. unfold WebRtcIsacfix_GetNewBitStream.
  destruct (negb _); [intros [= _ _ <-]; by apply set_errorcode_wf|].
  destruct (WebRtcIsacfix_EncodeStoredData _ _ _ _ _) as [ [len b] |]; [|done]. cbn [mbind option_bind].
  assert (inst_wf (set_ISACenc_obj (set_bitstr_obj b (ISACenc_obj inst)) inst)) as H1.
  { apply set_enc_wf; [done| |by left]. intros []. constructor; isac_simpl; assumption. }
  destruct (i16 len <? 0); intros [= _ _ <-]; [by apply set_errorcode_wf|exact H1].
Qed.

Lemma api_call_wf inst inst' : api_call inst inst' -> inst_wf inst -> inst_wf inst'.
Proof.
  intros Hc H. destruct Hc as [inst mem|inst mode|inst|inst bi sc jk r by_ inst' E|inst enc rtp A r inst' Hr HA Hg E
    |inst enc rtp sd A r inst' Hr Hs HA Hg E|inst rate fs|inst rate inst' E|inst rate fs en|inst r i inst' E|inst i r inst' E
    |inst n|inst n].
  - apply set_enc_wf; [done| |by left]. intros []. constructor; assumption.
  - by apply EncoderInit_wf.
  - by apply DecoderInit_wf.
  - exact (GetNewBitStream_wf _ _ _ _ _ _ _ H E).
  - unfold WebRtcIsacfix_UpdateBwEstimate1 in E. destruct (_ =? 0); [injection E as _ <-; by apply set_errorcode_wf|].
    destruct (_ <? _); [injection E as _ <-; by apply set_errorcode_wf|].
    assert (is_u32 0) as H0 by (unfold is_u32; lia). exact (estimate_from_wf _ _ _ _ _ _ _ H Hr H0 HA Hg E).
  - unfold WebRtcIsacfix_UpdateBwEstimate in E. destruct (_ =? 0); [injection E as _ <-; by apply set_errorcode_wf|].
    destruct (_ <? _); [injection E as _ <-; by apply set_errorcode_wf|].
    destruct (_ <? _); [injection E as _ <-; by apply set_errorcode_wf|].
    exact (estimate_from_wf _ _ _ _ _ _ _ H Hr Hs HA Hg E).
  - by apply Control_wf.
  - unfold WebRtcIsacfix_SetInitialBweBottleneck in E.
    destruct (Z.leb_spec 10000 rate); [|done]. destruct (Z.leb_spec rate 32000); [|done]. injection E as <-.
    apply set_bwe_wf; [|done]. apply set_sendBwAvg_wf; [lia|apply H].
  - by apply ControlBwe_wf.
  - unfold WebRtcIsacfix_GetDownLinkBwIndex in E.
    destruct (WebRtcIsacfix_GetDownlinkBwIndexImpl _) as [ [k b] |] eqn:E1; [|done]. injection E as _ _ <-.
    apply set_bwe_wf; [|done]. apply (GetDownlinkBwIndexImpl_wf _ _ _ (inst_bwe inst H) E1).
  - unfold WebRtcIsacfix_UpdateUplinkBw in E.
    destruct (UpdateUplinkBwRec_any (bwestimator_obj inst) i (inst_bwe inst H)) as (e & b & E1 & Hb).
    rewrite E1 in E. cbn [mbind option_bind] in E.
    destruct (e <? 0); injection E as _ <-; [apply set_errorcode_wf|]; by apply set_bwe_wf.
  - by apply SetMaxPayloadSize_wf.
  - by apply SetMaxRate_wf.
Qed.

Lemma Create_wf mem : is_u32 (startWaitPeriod (bwestimator_obj mem)) ->
  exists inst, WebRtcIsacfix_Create (Some mem) = (0, Some inst) /\ inst_wf inst.
Proof.
  intros Hm. unfold WebRtcIsacfix_Create. cbv zeta. isac_simpl. eexists. split; [reflexivity|].
  constructor; isac_simpl; [|lia|done|done]. exact (init_wf _ Hm).
Qed.

(** ** Properties *)

(** An instance in memory that was never written, and the created one. *)
Definition raw_pitch : PitchFiltstr := mkPitchFilt [] [] 0 0.
Definition raw_isac : ISACFIX_SubStruct :=
  mkIsac
    (mkEncInst (enc_reset []) (mkMaskEnc [] [] [] [] [] [] [] [] 0) (mkPreFilt [] [] [] [] []) raw_pitch
       (mkPitchAnalysis [] [] [] raw_pitch raw_pitch) (mkRate 0 0 0 0 0) 0 0 [] 0 0 0 0 0 0 0 None 0 0 0 0 0)
    (mkDecInst (dec_reset [] 0) (mkMaskDec [] [] 0) (mkPostFilt [] [] [] []) raw_pitch
       (mkPlc [] [] [] 0 0 0 [] [] [] 0 0 0 [] 0 0 0 0 0 0 0)) raw_bwe 0 0 0.
Definition new_isac : ISACFIX_SubStruct := default raw_isac (snd (WebRtcIsacfix_Create (Some raw_isac))).

(** C9: A packet informs the estimator of the other end.  From the first ten
    bytes of a packet that [WebRtcIsacfix_EncodeStoredData] has built, at least
    ten bytes long, [ReadFrameLen] and [ReadBwIndex] return the frame length and
    the bandwidth index, and [UpdateBwEstimate] passes exactly these, with the
    packet size and the time stamps, to the estimator and succeeds. *)
Theorem packet_feedback s bitstr BWnumber scale junk len st' :
  startIdx s = 0 \/ startIdx s = 1 -> framelength s = FRAMESAMPLES * (startIdx s + 1) ->
  (forall ii, 0 <= ii <= startIdx s ->
     frame_ok s (cells (LPCindex_g s) (KLT_ORDER_GAIN * ii) KLT_ORDER_GAIN)
       (frame_fr (tmp_dft s scale (fre s)) ii) (frame_fi (tmp_dft s scale (fim s)) ii) ii) ->
  (forall st1 st2, WebRtcIsacfix_EncodeFrameLen (framelength s) (enc_reset (e_stream bitstr)) = Some (0, st1) ->
     WebRtcIsacfix_EncodeReceiveBandwidth BWnumber st1 = Some (0, st2) ->
     wide_frames s (tmp_index_g s scale junk) (tmp_dft s scale (fre s)) (tmp_dft s scale (fim s)) 0
       (Z.to_nat (startIdx s + 1)) st2) ->
  Forall is_u16 (e_stream bitstr) -> length (e_stream bitstr) = Z.to_nat STREAM_MAXW16_60MS ->
  WebRtcIsacfix_EncodeStoredData (Some s) bitstr BWnumber scale junk = Some (len, st') -> 10 <= len ->
  let encoded := packet_bytes (e_stream st') len in
  WebRtcIsacfix_ReadFrameLen encoded = Some (0, framelength s) /\
  WebRtcIsacfix_ReadBwIndex encoded = Some (0, BWnumber) /\
  forall inst rtp send_ts arr_ts, inst_wf inst -> decoder_initiated inst = true ->
    is_u16 rtp -> is_u32 send_ts -> is_u32 arr_ts -> arr_ts - prevArrivalTime (bwestimator_obj inst) < 2 ^ 31 ->
    exists bwe, WebRtcIsacfix_UpdateUplinkBwImpl (bwestimator_obj inst) rtp (framelength s / 16) send_ts arr_ts len BWnumber
        = Some (0, bwe) /\
      WebRtcIsacfix_UpdateBwEstimate inst encoded rtp send_ts arr_ts = Some (0, set_bwestimator_obj bwe inst).
Proof.
  intros Hst Hfl Hf Hw Hs Hl E Hlen encoded.
  destruct (header_decodes s bitstr BWnumber scale junk len st' Hst Hfl Hf Hw Hs Hl E Hlen)
    as (d & r1 & d1 & r2 & d2 & Hb & Hmax & Eh & E1 & Hr1 & E2 & Hr2).
  assert (Z.of_nat (length encoded) = len) as Hle by (subst encoded; rewrite length_packet_bytes by lia; lia).
  fold encoded in Eh. clearbody encoded.
  split; [|split].
  - unfold WebRtcIsacfix_ReadFrameLen, kRequiredEncodedLenBytes. rewrite Hle, (proj2 (Z.ltb_ge len 10)), Eh by lia.
    bind_simpl. rewrite E1. bind_simpl. rewrite i16_id, (proj2 (Z.ltb_ge r1 0)) by (unfold is_i16; lia). done.
  - unfold WebRtcIsacfix_ReadBwIndex, kRequiredEncodedLenBytes. rewrite Hle, (proj2 (Z.ltb_ge len 10)), Eh by lia.
    bind_simpl. rewrite E1. bind_simpl. rewrite (i16_id r1), (proj2 (Z.ltb_ge r1 0)), E2 by (unfold is_i16; lia).
    bind_simpl. rewrite i16_id, (proj2 (Z.ltb_ge r2 0)) by (unfold is_i16; lia). done.
  - intros inst rtp send A Hi Hd Hrtp Hsend HA Hg.
    assert (framelength s / 16 = 30 \/ framelength s / 16 = 60) as Hf16
      by (rewrite Hfl; destruct Hst as [-> | ->]; vm_compute; tauto).
    destruct (UpdateUplinkBwImpl_ok (bwestimator_obj inst) rtp (framelength s / 16) send A len BWnumber (inst_bwe inst Hi)
      Hrtp Hf16 Hsend HA Hg ltac:(lia)) as (bwe & Eb & _). exists bwe. split; [done|].
    unfold WebRtcIsacfix_UpdateBwEstimate, estimate_from, kRequiredEncodedLenBytes, STREAM_MAXW16.
    rewrite Hle, Hd, Eh. change (300 ≪ 1) with 600.
    rewrite (proj2 (Z.eqb_neq len 0)), (proj2 (Z.ltb_ge len 10)), (proj2 (Z.ltb_ge 600 len)) by lia. cbn [negb]. bind_simpl.
    unfold WebRtcIsacfix_EstimateBandwidth. rewrite E1. bind_simpl. rewrite (proj2 (Z.ltb_ge r1 0)), E2 by lia.
    bind_simpl. rewrite (proj2 (Z.ltb_ge r2 0)), (u16_id BWnumber) by (unfold is_u16; lia).
    assert (i16 (Z.quot (framelength s * 1000) 16000) = framelength s / 16) as ->
      by (rewrite Hfl; destruct Hst as [-> | ->]; reflexivity).
    rewrite Eb. reflexivity.
Qed.

Lemma packet_feedback_witness :
  WebRtcIsacfix_ReadBwIndex (packet_bytes (e_stream ex_built.2) 322) = Some (0, 11).
Proof.
  apply (packet_feedback ex_stored (enc_reset (replicate 200 0)) 11 (f32_of_Z 1) [] 322 ex_built.2).
  - left. reflexivity.
  - reflexivity.
  - intros ii Hii. assert (ii = 0) as -> by (change (startIdx ex_stored) with 0 in Hii; lia). exact ex_stored_frame.
  - exact ex_packet_wide.
  - apply Forall_replicate. unfold is_u16. lia.
  - reflexivity.
  - vm_compute. reflexivity.
  - lia.
Defined.

(** *** The outcomes of the two control functions *)

Lemma rate_check rate : (10000 <=? rate) && (rate <=? 32000) = bool_decide (10000 <= rate <= 32000).
Proof. case_bool_decide; lia. Qed.
Lemma ms_check ms : (ms =? 30) || (ms =? 60) = bool_decide (ms = 30 \/ ms = 60).
Proof. case_bool_decide; lia. Qed.
Lemma frame_samples ms : ms = 30 \/ ms = 60 -> i16 (Z.quot FS 1000 * ms) = 16 * ms.
Proof. by intros [-> | ->]. Qed.

Lemma Control_outcomes inst rate ms :
  let with_rate := set_ISACenc_obj (set_BottleNeck rate (ISACenc_obj inst)) inst in
  (CodingMode inst = 0 -> WebRtcIsacfix_Control inst rate ms = (-1, set_errorcode ISAC_MODE_MISMATCH inst)) /\
  (CodingMode inst <> 0 -> ~ 10000 <= rate <= 32000 ->
     WebRtcIsacfix_Control inst rate ms = (-1, set_errorcode ISAC_DISALLOWED_BOTTLENECK inst)) /\
  (CodingMode inst <> 0 -> 10000 <= rate <= 32000 -> ~ (ms = 30 \/ ms = 60) ->
     WebRtcIsacfix_Control inst rate ms = (-1, set_errorcode ISAC_DISALLOWED_FRAME_LENGTH with_rate)) /\
  (CodingMode inst <> 0 -> 10000 <= rate <= 32000 -> ms = 30 \/ ms = 60 ->
     WebRtcIsacfix_Control inst rate ms
     = (0, set_ISACenc_obj (set_new_framelength (16 * ms) (ISACenc_obj with_rate)) with_rate)).
Proof.
  cbv zeta. unfold WebRtcIsacfix_Control, fail_with. rewrite rate_check, ms_check.
  split; [by intros ->|]. split; [|split]; intros Hc%Z.eqb_neq Hr; rewrite Hc.
  - by rewrite bool_decide_false.
  - intros Hm. by rewrite bool_decide_true, bool_decide_false.
  - intros Hm. by rewrite !bool_decide_true, frame_samples.
Qed.

Lemma ControlBwe_outcomes inst rate ms en :
  let with_enforce :=
    set_ISACenc_obj (set_enforceFrameSize (if en =? 0 then 0 else 1) (ISACenc_obj inst)) inst in
  let with_bwe := set_bwestimator_obj (set_sendBwAvg (bwestimator_obj inst) (rate * 2 ^ 7)) with_enforce in
  let frame_size i :=
    if bool_decide (ms = 30 \/ ms = 60) then (0, set_ISACenc_obj (set_new_framelength (16 * ms) (ISACenc_obj i)) i)
    else (-1, set_errorcode ISAC_DISALLOWED_FRAME_LENGTH i) in
  (encoder_initiated inst = false ->
     WebRtcIsacfix_ControlBwe inst rate ms en = (-1, set_errorcode ISAC_ENCODER_NOT_INITIATED inst)) /\
  (encoder_initiated inst = true -> CodingMode inst <> 0 ->
     WebRtcIsacfix_ControlBwe inst rate ms en = (-1, set_errorcode ISAC_MODE_MISMATCH inst)) /\
  (encoder_initiated inst = true -> CodingMode inst = 0 -> rate <> 0 -> ~ 10000 <= rate <= 32000 ->
     WebRtcIsacfix_ControlBwe inst rate ms en = (-1, set_errorcode ISAC_DISALLOWED_BOTTLENECK with_enforce)) /\
  (encoder_initiated inst = true -> CodingMode inst = 0 -> 10000 <= rate <= 32000 ->
     WebRtcIsacfix_ControlBwe inst rate ms en = frame_size with_bwe) /\
  (encoder_initiated inst = true -> CodingMode inst = 0 -> rate = 0 ->
     WebRtcIsacfix_ControlBwe inst rate ms en = frame_size with_enforce).
Proof.
  cbv zeta. unfold WebRtcIsacfix_ControlBwe, fail_with. rewrite rate_check, ms_check.
  replace (if negb (en =? 0) then 1 else 0) with (if en =? 0 then 0 else 1) by (by destruct (en =? 0)).
  assert (forall A B : Z * ISACFIX_SubStruct, (ms = 30 \/ ms = 60 -> A = B) -> forall C,
    (if bool_decide (ms = 30 \/ ms = 60) then A else C) = (if bool_decide (ms = 30 \/ ms = 60) then B else C)) as Hms
    by (intros A B H C; case_bool_decide; auto).
  split; [by intros ->|]. split; [intros -> Hc%Z.eqb_neq; by rewrite Hc|].
  split; [|split]; intros -> ->.
  - intros Hr0%Z.eqb_neq Hr. by rewrite bool_decide_false, Hr0.
  - intros Hr. rewrite bool_decide_true by done. cbn [negb Z.eqb].
    rewrite (u32_id rate), Z.shiftl_mul_pow2, u32_id by (unfold is_u32; lia). apply Hms. intros Hm. by rewrite frame_samples.
  - intros ->. rewrite bool_decide_false by lia. cbn [negb Z.eqb]. apply Hms. intros Hm. by rewrite frame_samples.
Qed.

(** C40: Errors of the interface.  [UpdateBwEstimate] refuses packets of no, too
    few and too many bytes and a decoder that was not initialised, in this
    order, and changes nothing but the error code; its older variant
    [UpdateBwEstimate1] does not check for too few bytes and reads past a packet
    of one to nine.  [Control] refuses, in this order, the adaptive mode, a wrong
    rate and a wrong frame length, the last after the bottle neck has been set;
    [ControlBwe] refuses an encoder that was not initialised, the other mode, a
    wrong rate and a wrong frame length, the third after the enforcement of the
    frame size has been set, the last after the rate of the estimator has been
    set as well, unless the rate was 0; otherwise both succeed and set the frame
    length.  A wrong coding mode is reported by [EncoderInit], yet leaves the
    encoder marked as initialised. *)
Theorem interface_errors inst encoded rtp send_ts arr_ts rate ms en :
  let n := Z.of_nat (length encoded) in
  let rate_ok := 10000 <= rate <= 32000 in
  let ms_ok := ms = 30 \/ ms = 60 in
  let with_framelength i := set_ISACenc_obj (set_new_framelength (16 * ms) (ISACenc_obj i)) i in
  let with_rate := set_ISACenc_obj (set_BottleNeck rate (ISACenc_obj inst)) inst in
  let with_enforce :=
    set_ISACenc_obj (set_enforceFrameSize (if en =? 0 then 0 else 1) (ISACenc_obj inst)) inst in
  let with_bwe := set_bwestimator_obj (set_sendBwAvg (bwestimator_obj inst) (rate * 2 ^ 7)) with_enforce in
  (n = 0 -> WebRtcIsacfix_UpdateBwEstimate inst encoded rtp send_ts arr_ts
            = Some (-1, set_errorcode ISAC_EMPTY_PACKET inst)) /\
  (0 < n < 10 -> WebRtcIsacfix_UpdateBwEstimate inst encoded rtp send_ts arr_ts
                 = Some (-1, set_errorcode ISAC_PACKET_TOO_SHORT inst)) /\
  (600 < n -> WebRtcIsacfix_UpdateBwEstimate inst encoded rtp send_ts arr_ts
              = Some (-1, set_errorcode ISAC_LENGTH_MISMATCH inst)) /\
  (10 <= n <= 600 -> decoder_initiated inst = false ->
     WebRtcIsacfix_UpdateBwEstimate inst encoded rtp send_ts arr_ts
     = Some (-1, set_errorcode ISAC_DECODER_NOT_INITIATED inst)) /\
  (0 < n < 10 -> decoder_initiated inst = true -> WebRtcIsacfix_UpdateBwEstimate1 inst encoded rtp arr_ts = None) /\
  (CodingMode inst = 0 -> WebRtcIsacfix_Control inst rate ms = (-1, set_errorcode ISAC_MODE_MISMATCH inst)) /\
  (CodingMode inst <> 0 ->
     (~ rate_ok -> WebRtcIsacfix_Control inst rate ms = (-1, set_errorcode ISAC_DISALLOWED_BOTTLENECK inst)) /\
     (rate_ok -> ~ ms_ok ->
        WebRtcIsacfix_Control inst rate ms = (-1, set_errorcode ISAC_DISALLOWED_FRAME_LENGTH with_rate)) /\
     (rate_ok -> ms_ok -> WebRtcIsacfix_Control inst rate ms = (0, with_framelength with_rate))) /\
  (encoder_initiated inst = false ->
     WebRtcIsacfix_ControlBwe inst rate ms en = (-1, set_errorcode ISAC_ENCODER_NOT_INITIATED inst)) /\
  (encoder_initiated inst = true -> CodingMode inst <> 0 ->
     WebRtcIsacfix_ControlBwe inst rate ms en = (-1, set_errorcode ISAC_MODE_MISMATCH inst)) /\
  (encoder_initiated inst = true -> CodingMode inst = 0 ->
     (rate <> 0 -> ~ rate_ok -> WebRtcIsacfix_ControlBwe inst rate ms en
        = (-1, set_errorcode ISAC_DISALLOWED_BOTTLENECK with_enforce)) /\
     (rate_ok -> WebRtcIsacfix_ControlBwe inst rate ms en
        = if bool_decide ms_ok then (0, with_framelength with_bwe)
          else (-1, set_errorcode ISAC_DISALLOWED_FRAME_LENGTH with_bwe)) /\
     (rate = 0 -> WebRtcIsacfix_ControlBwe inst rate ms en
        = if bool_decide ms_ok then (0, with_framelength with_enforce)
          else (-1, set_errorcode ISAC_DISALLOWED_FRAME_LENGTH with_enforce))) /\
  (forall mode, mode <> 0 -> mode <> 1 -> 0 <= initflag inst <= 3 ->
     exists inst', WebRtcIsacfix_EncoderInit inst mode = (-1, inst') /\
       errorcode inst' = ISAC_DISALLOWED_CODING_MODE /\ encoder_initiated inst' = true).
Proof.
  intros n rate_ok ms_ok wf wr we wb. pose proof (conj (Control_outcomes inst rate ms) (ControlBwe_outcomes inst rate ms en))
    as ((C1 & C2 & C3 & C4) & B1 & B2 & B3 & B4 & B5).
  unfold WebRtcIsacfix_UpdateBwEstimate, WebRtcIsacfix_UpdateBwEstimate1, estimate_from, kRequiredEncodedLenBytes.
  change (STREAM_MAXW16 ≪ 1) with 600. fold n.
  split; [|split; [|split; [|split; [|split; [|split; [|split; [|split; [|split; [|split] ] ] ] ] ] ] ] ].
  - by intros ->.
  - intros Hn. rewrite (proj2 (Z.eqb_neq n 0)), (proj2 (Z.ltb_lt n 10)) by lia. done.
  - intros Hn. rewrite (proj2 (Z.eqb_neq n 0)), (proj2 (Z.ltb_ge n 10)), (proj2 (Z.ltb_lt 600 n)) by lia. done.
  - intros Hn Hd. rewrite (proj2 (Z.eqb_neq n 0)), (proj2 (Z.ltb_ge n 10)), (proj2 (Z.ltb_ge 600 n)), Hd by lia. done.
  - intros Hn Hd. rewrite (proj2 (Z.eqb_neq n 0)), (proj2 (Z.ltb_ge 600 n)), Hd by lia. cbn [negb].
    unfold header_stream, kRequiredEncodedLenBytes. fold n. by rewrite (proj2 (Z.leb_gt 10 n)) by lia.
  - exact C1.
  - intros Hc. split; [by apply C2|]. split; [by apply C3|by apply C4].
  - exact B1.
  - exact B2.
  - intros He Hc. split; [by apply B3|]. split; [by apply B4|by apply B5].
  - intros mode H0 H1 Hi. unfold WebRtcIsacfix_EncoderInit.
    rewrite (proj2 (Z.eqb_neq mode 0)), (proj2 (Z.eqb_neq mode 1)) by lia. eexists. split; [reflexivity|]. split; [done|].
    unfold encoder_initiated. isac_simpl.
    assert (initflag inst = 0 \/ initflag inst = 1 \/ initflag inst = 2 \/ initflag inst = 3) as [-> | [-> | [-> | ->] ] ] by lia;
      reflexivity.
Qed.

Lemma interface_errors_witness :
  WebRtcIsacfix_UpdateBwEstimate1 (WebRtcIsacfix_DecoderInit new_isac) [1; 2; 3] 1 1000 = None.
Proof.
  apply (interface_errors (WebRtcIsacfix_DecoderInit new_isac) [1; 2; 3] 1 0 1000 0 0 0).
  - cbn. lia.
  - reflexivity.
Defined.
