(* ===== verification/IsacDecode.v ===== *)
(** The frame decoder of the fixed-point iSAC codec:
    [WebRtcIsacfix_DecodeImpl] of
    [modules/audio_coding/codecs/isac/fix/source/decode.c], with its calls of the
    parameter decoders ([decode_frame] of IsacPacket), the inverse transform, the
    pitch filter, the lattice filters and the synthesis filter bank, and
    [WebRtcIsacfix_Decode] of [isacfix.c].  Local arrays, also those of the
    called functions, are arguments ([Buffers]). *)
From stdpp Require Import list relations.
From S2P Require Import Prelude Signal SplInl SplVec SplFilter IsacArith IsacStream IsacEncoder IsacDecoder IsacLogistic IsacTransmit IsacSpectrum IsacTables IsacPitch IsacLar IsacLpc IsacPacket IsacBwe IsacState IsacApi IsacFilters IsacLattice IsacPitchFilter IsacTransform.

Definition PLC_NOT_USED : Z := 3.
Definition kProcessedSamples : Z := 480.

(** [Vector_Word32_1], [Vector_Word32_2], [overlapWin]; [ubufQQ] of the pitch
    filter; the vectors of the lattice filter; [in] of the filter bank. *)
Record Buffers := mkBuffers {
  Vector_Word32_1 : list Z;
  Vector_Word32_2 : list Z;
  overlapWin : list Z;
  buf_pitch : list Z;
  buf_ARf : list Z;
  buf_ARg : list Z;
  buf_combine : list Z
}.

Definition set_dec_bitstr (v : Bitstr_dec) (d : IsacFixDecoderInstance) : IsacFixDecoderInstance :=
  mkDecInst v (maskfiltstr_dec d) (postfiltbankstr_obj d) (pitchfiltstr_dec d) (plcstr_obj d).

(** The members set in a recovery frame.  The value 4000 of
    [decayCoeffPriodic] for a small [B] is overwritten at once. *)
Definition recovered (plc : PLCstr) : PLCstr :=
  mkPlc (prevPitchInvIn plc) (prevPitchInvOut plc) (prevHP plc) WEBRTC_SPL_WORD16_MAX WEBRTC_SPL_WORD16_MAX
    PLC_NOT_USED (lofilt_coefQ15 plc) (hifilt_coefQ15 plc) (gain_lo_hiQ17 plc) (AvgPitchGain_Q12 plc)
    (lastPitchGain_Q12 plc) (lastPitchLag_Q7 plc) (overlapLP plc) 0 (plc_A plc) (plc_B plc) (plc_pitchIndex plc)
    (stretchLag plc) (plc_seed plc) (plc_std plc).

(** The recovery frame after concealment: state, gains and samples. *)
Definition recovery_frame (overlapWin : list Z) (plc : PLCstr) (PitchGains_Q12 Vector_Word16_1 : list Z)
  : option (PLCstr * list Z * list Z) :=
  if plc_used plc =? PLC_WAS_USED then
    g ← rd PitchGains_Q12 0;
    PitchGains_Q12 ← wr PitchGains_Q12 0 (i16 (i32 (g * 700) ≫ 10));
    overlapWin ← WebRtcSpl_GetHanningWindow overlapWin RECOVERY_OVERLAP;
    Vector_Word16_1 ← for_opt RECOVERY_OVERLAP (fun k Vector_Word16_1 =>
      o ← rd (overlapLP plc) k; w ← rd overlapWin (RECOVERY_OVERLAP - k - 1);
      v ← rd Vector_Word16_1 k; w' ← rd overlapWin k;
      wr Vector_Word16_1 k (WebRtcSpl_AddSatW16 (i16 (i32 (o * w) ≫ 14)) (i16 (i32 (v * w') ≫ 14)))) Vector_Word16_1;
    Some (recovered plc, PitchGains_Q12, Vector_Word16_1)
  else Some (plc, PitchGains_Q12, Vector_Word16_1).

(** The side information of the last frame, for a concealment that may follow. *)
Definition store_side_info (plc : PLCstr) (lofilt hifilt gain_lo_hi PitchLags_Q7 PitchGains_Q12 Vector_Word16_1 : list Z)
  : option PLCstr :=
  lo ← mem_read lofilt ((SUBFRAMES - 1) * ORDERLO) ORDERLO; lo ← mem_write (lofilt_coefQ15 plc) 0 lo;
  hi ← mem_read hifilt ((SUBFRAMES - 1) * ORDERHI) ORDERHI; hi ← mem_write (hifilt_coefQ15 plc) 0 hi;
  g0 ← rd gain_lo_hi ((SUBFRAMES - 1) * 2); g1 ← rd gain_lo_hi ((SUBFRAMES - 1) * 2 + 1);
  gain ← wr (gain_lo_hiQ17 plc) 0 g0; gain ← wr gain 1 g1;
  g3 ← rd PitchGains_Q12 3; l3 ← rd PitchLags_Q7 3;
  inv ← mem_read Vector_Word16_1 0 (Z.quot FRAMESAMPLES 2); inv ← mem_write (prevPitchInvIn plc) 0 inv;
  Some (mkPlc inv (prevPitchInvOut plc) (prevHP plc) (decayCoeffPriodic plc) (decayCoeffNoise plc) (plc_used plc)
    lo hi gain g3 g3 (if l3 <? 3000 then i16 (l3 + l3) else l3) (overlapLP plc) (pitchCycles plc) (plc_A plc)
    (plc_B plc) (plc_pitchIndex plc) (stretchLag plc) (plc_seed plc) (plc_std plc)).

Definition set_prevPitchInvOut (v : list Z) (plc : PLCstr) : PLCstr :=
  mkPlc (prevPitchInvIn plc) v (prevHP plc) (decayCoeffPriodic plc) (decayCoeffNoise plc) (plc_used plc)
    (lofilt_coefQ15 plc) (hifilt_coefQ15 plc) (gain_lo_hiQ17 plc) (AvgPitchGain_Q12 plc) (lastPitchGain_Q12 plc)
    (lastPitchLag_Q7 plc) (overlapLP plc) (pitchCycles plc) (plc_A plc) (plc_B plc) (plc_pitchIndex plc)
    (stretchLag plc) (plc_seed plc) (plc_std plc).
Definition set_prevHP (v : list Z) (plc : PLCstr) : PLCstr :=
  mkPlc (prevPitchInvIn plc) (prevPitchInvOut plc) v (decayCoeffPriodic plc) (decayCoeffNoise plc) (plc_used plc)
    (lofilt_coefQ15 plc) (hifilt_coefQ15 plc) (gain_lo_hiQ17 plc) (AvgPitchGain_Q12 plc) (lastPitchGain_Q12 plc)
    (lastPitchLag_Q7 plc) (overlapLP plc) (pitchCycles plc) (plc_A plc) (plc_B plc) (plc_pitchIndex plc)
    (stretchLag plc) (plc_seed plc) (plc_std plc).

(** [gainQ13]: less gain where the pitch enhancer adds some. *)
Definition enhancer_gain (AvgPitchGain_Q12 : Z) : Z := i16 (i32 (262144 - i32 (AvgPitchGain_Q12 * 29)) ≫ 5).

(** [tmp_1] and [tmp_2]. *)
Definition polyphase (a b : Z) : Z * Z :=
  (i16 (WebRtcSpl_SatW32ToW16 (i32 (a + b + 1))), i16 (WebRtcSpl_SatW32ToW16 (i32 (a - b)))).

(** A loop [for (k = 0; k < n; k++) dst[k] = f(src[k])]. *)
Definition map_into (n : Z) (f : Z -> Z) (src dst : list Z) : option (list Z) :=
  for_opt n (fun k dst => x ← rd src k; wr dst k (f x)) dst.

(** The parameters of a frame: pitch gains and lags, LPC gains, reflection
    coefficients of the lower and of the upper band, spectrum. *)
Definition f_gains (f : frame) : list Z := f.1.1.1.
Definition f_lags (f : frame) : list Z := f.1.1.2.
Definition f_gain_lo_hi (f : frame) : list Z := f.1.2.1.1.1.
Definition f_lo (f : frame) : list Z := f.1.2.1.1.2.
Definition f_hi (f : frame) : list Z := f.1.2.1.2.
Definition f_spectrum (f : frame) : list Z * list Z := f.2.

(** One round of the loop behind the parameter decoders: the samples of a frame
    go to [signal_out16] from [frame_nb * kProcessedSamples] on. *)
Definition synthesise_frame (b : Buffers) (frame_nb frame_mode : Z) (f : frame) (signal_out16 : list Z)
    (d : IsacFixDecoderInstance) : option (list Z * IsacFixDecoderInstance) :=
  let PitchGains_Q12 := f_gains f in let PitchLags_Q7 := f_lags f in let gain_lo_hi := f_gain_lo_hi f in
  let lofilt := f_lo f in let hifilt := f_hi f in let '(Vector_Word16_1, Vector_Word16_2) := f_spectrum f in
  let AvgPitchGain := avg_pitch_gain PitchGains_Q12 in
  '(Vector_Word16_1, Vector_Word16_2, w1, w2) ←
    WebRtcIsacfix_Spec2TimeC Vector_Word16_1 Vector_Word16_2 (Vector_Word32_1 b) (Vector_Word32_2 b);
  Vector_Word16_1 ← map_into 240 (fun x => i16 (i32 (x + 64) ≫ 7)) w1 Vector_Word16_1;
  '(plc, PitchGains_Q12, Vector_Word16_1) ← recovery_frame (overlapWin b) (plcstr_obj d) PitchGains_Q12 Vector_Word16_1;
  plc ← (if frame_nb =? frame_mode
         then store_side_info plc lofilt hifilt gain_lo_hi PitchLags_Q7 PitchGains_Q12 Vector_Word16_1 else Some plc);
  '(Vector_Word16_2, pitch, PitchGains_Q12) ← WebRtcIsacfix_PitchFilter (buf_pitch b) Vector_Word16_1 Vector_Word16_2
     (pitchfiltstr_dec d) PitchLags_Q7 PitchGains_Q12 4;
  plc ← (if frame_nb =? frame_mode
         then inv ← mem_read Vector_Word16_2 (Z.quot FRAMESAMPLES 2 - (PITCH_MAX_LAG + 10)) PITCH_MAX_LAG;
              inv ← mem_write (prevPitchInvOut plc) 0 inv; Some (set_prevPitchInvOut inv plc)
         else Some plc);
  w1 ← map_into 240 (fun x => i32 (i32 (x * enhancer_gain AvgPitchGain) * (1 ≪ 3))) Vector_Word16_2 w1;
  '(lo, Vector_Word16_1) ← WebRtcIsacfix_NormLatticeFilterAr (buf_ARf b) (buf_ARg b) ORDERLO
     (PostStateLoGQ0 (maskfiltstr_dec d)) w1 lofilt gain_lo_hi 0 Vector_Word16_1;
  w1 ← map_into 240 (fun x => i32 (x * (1 ≪ 9))) w2 w1;
  hp ← for_opt (PITCH_MAX_LAG + 10) (fun k hp =>
    x ← rd w1 (Z.quot FRAMESAMPLES 2 - (PITCH_MAX_LAG + 10) + k); wr hp k x) (prevHP plc);
  '(hi, Vector_Word16_2) ← WebRtcIsacfix_NormLatticeFilterAr (buf_ARf b) (buf_ARg b) ORDERHI
     (PostStateHiGQ0 (maskfiltstr_dec d)) w1 hifilt gain_lo_hi 1 Vector_Word16_2;
  '(Vector_Word16_1, Vector_Word16_2) ← for_opt (Z.quot FRAMESAMPLES 2) (fun k '(v1, v2) =>
    a ← rd v1 k; b ← rd v2 k; v1 ← wr v1 k (polyphase a b).1; v2 ← wr v2 k (polyphase a b).2; Some (v1, v2))
    (Vector_Word16_1, Vector_Word16_2);
  let at_ := Z.to_nat (frame_nb * kProcessedSamples) in
  '(_, _, out, post) ← WebRtcIsacfix_FilterAndCombine1 (buf_combine b) Vector_Word16_1 Vector_Word16_2
     (drop at_ signal_out16) (postfiltbankstr_obj d);
  Some (take at_ signal_out16 ++ out,
        mkDecInst (dec_bitstr_obj d) (mkMaskDec lo hi (OldEnergy_dec (maskfiltstr_dec d))) post pitch (set_prevHP hp plc)).

(** The loop over the frames of a packet. *)
Fixpoint decode_rounds (junk : Z -> Buffers) (n : nat) (frame_nb frame_mode len : Z) (signal_out16 : list Z)
    (d : IsacFixDecoderInstance) : option (Z * list Z * IsacFixDecoderInstance) :=
  match n with
  | O => Some (len, signal_out16, d)
  | S n =>
      '(f, len, st) ← decode_frame (dec_bitstr_obj d);
      let d := set_dec_bitstr st d in
      if len <? 0 then Some (len, signal_out16, d)
      else
        '(signal_out16, d) ← synthesise_frame (junk frame_nb) frame_nb frame_mode f signal_out16 d;
        decode_rounds junk n (frame_nb + 1) frame_mode len signal_out16 d
  end.

(** Returns the length or error code, [signal_out16], [*current_framesamples]
    and the instance. *)
Definition WebRtcIsacfix_DecodeImpl (junk : Z -> Buffers) (signal_out16 : list Z) (ISACdec_obj : IsacFixDecoderInstance)
    (current_framesamples : Z) : option (Z * list Z * Z * IsacFixDecoderInstance) :=
  let bitstr := dec_bitstr_obj ISACdec_obj in
  '(framesamples, err, st) ← WebRtcIsacfix_DecodeFrameLen (dec_reset (d_stream bitstr) (d_stream_size bitstr));
  if err <? 0 then Some (err, signal_out16, current_framesamples, set_dec_bitstr st ISACdec_obj)
  else
    let current_framesamples := framesamples in
    let frame_mode := current_framesamples / MAX_FRAMESAMPLES in
    '(BWno, err, st) ← WebRtcIsacfix_DecodeSendBandwidth st;
    if err <? 0 then Some (err, signal_out16, current_framesamples, set_dec_bitstr st ISACdec_obj)
    else
      '(len, signal_out16, d) ←
         decode_rounds junk (S (Z.to_nat frame_mode)) 0 frame_mode 0 signal_out16 (set_dec_bitstr st ISACdec_obj);
      Some (len, signal_out16, current_framesamples, d).

(** ** isacfix.c *)

(** [memset(decoded, 0, n * sizeof(int16_t))]. *)
Definition mute (decoded : list Z) (n : Z) : option (list Z) := mem_write decoded 0 (zeros n).

(** [encoded] holds the [len] bytes of the packet; [number_of_samples] is the
    content of a local variable that is not set.  Returns the result, the
    arrays [decoded] and [*speechType], and the instance. *)
Definition WebRtcIsacfix_Decode (junk : Z -> Buffers) (number_of_samples : Z) (ISAC_inst : ISACFIX_SubStruct)
    (encoded decoded : list Z) (speechType : Z) : option (Z * list Z * Z * ISACFIX_SubStruct) :=
  let len := Z.of_nat (length encoded) in
  let fail code := let '(r, inst) := fail_with code ISAC_inst in Some (r, decoded, speechType, inst) in
  if negb (decoder_initiated ISAC_inst) then fail ISAC_DECODER_NOT_INITIATED
  else if len =? 0 then fail ISAC_EMPTY_PACKET
  else if (STREAM_MAXW16 ≪ 1) <? len then fail ISAC_LENGTH_MISMATCH
  else
    let d := set_dec_bitstr (packet_stream encoded len) (ISACdec_obj ISAC_inst) in
    let speechType := 1 in
    '(declen, decoded, number_of_samples, d) ← WebRtcIsacfix_DecodeImpl junk decoded d number_of_samples;
    let ISAC_inst := set_ISACdec_obj d ISAC_inst in
    if declen <? 0 then
      decoded ← mute decoded MAX_FRAMESAMPLES;
      let '(r, inst) := fail_with (i16 (- i16 declen)) ISAC_inst in Some (r, decoded, speechType, inst)
    else
      mismatch ← (if len =? declen then Some false
                  else w ← rd (d_stream (dec_bitstr_obj d)) (declen ≫ 1);
                       Some (negb (len =? declen + (if Z.land declen 1 =? 1 then Z.land w 0xFF else w ≫ 8))));
      if (mismatch : bool) then
        decoded ← mute decoded number_of_samples;
        let '(r, inst) := fail_with ISAC_LENGTH_MISMATCH ISAC_inst in Some (r, decoded, speechType, inst)
      else Some (number_of_samples, decoded, speechType, ISAC_inst).

(** ** Parsing, then synthesis *)

Lemma set_bitstr_get v d : dec_bitstr_obj (set_dec_bitstr v d) = v.
Proof. done. Qed.
Lemma set_bitstr_set v w d : set_dec_bitstr v (set_dec_bitstr w d) = set_dec_bitstr v d.
Proof. done. Qed.

(** Synthesis does not depend on the bit stream, and keeps it. *)
Lemma synthesise_bitstr b nb mode f signal d v :
  synthesise_frame b nb mode f signal (set_dec_bitstr v d)
  = ('(signal, d') ← synthesise_frame b nb mode f signal d; Some (signal, set_dec_bitstr v d')).
Proof.
  unfold synthesise_frame. destruct (f_spectrum f) as [v1 v2]. cbv zeta.
  cbn [maskfiltstr_dec postfiltbankstr_obj pitchfiltstr_dec plcstr_obj set_dec_bitstr].
  repeat first
    [ match goal with |- match ?p with (_, _) => _ end = _ => destruct p as [? ?]; cbv beta iota end
    | match goal with |- context [mbind _ ?x] =>
        lazymatch x with mbind _ _ => fail | _ => destruct x as [?|]; cbn [mbind option_bind fst snd]; [|reflexivity] end end ].
  reflexivity.
Qed.

(** The synthesis of all frames of a packet. *)
Fixpoint synthesise_all (junk : Z -> Buffers) (frame_nb frame_mode : Z) (fs : list frame) (signal_out16 : list Z)
    (d : IsacFixDecoderInstance) : option (list Z * IsacFixDecoderInstance) :=
  match fs with
  | [] => Some (signal_out16, d)
  | f :: fs =>
      '(signal_out16, d) ← synthesise_frame (junk frame_nb) frame_nb frame_mode f signal_out16 d;
      synthesise_all junk (frame_nb + 1) frame_mode fs signal_out16 d
  end.

Lemma synthesise_all_bitstr junk mode v fs : forall nb signal d,
  synthesise_all junk nb mode fs signal (set_dec_bitstr v d)
  = ('(signal, d') ← synthesise_all junk nb mode fs signal d; Some (signal, set_dec_bitstr v d')).
Proof.
  induction fs as [|f fs IH]; intros nb signal d; [reflexivity|]. cbn [synthesise_all]. rewrite synthesise_bitstr.
  destruct (synthesise_frame (junk nb) nb mode f signal d) as [ [s' d'] |]; cbn [mbind option_bind]; [apply IH|reflexivity].
Qed.

Lemma decode_rounds_parse junk mode n : forall nb len signal d,
  decode_rounds junk n nb mode len signal d
  = ('(fs, len, st) ← decode_frames n len (dec_bitstr_obj d);
     '(signal, d') ← synthesise_all junk nb mode fs signal d; Some (len, signal, set_dec_bitstr st d')).
Proof.
  induction n as [|n IH]; intros nb len signal d; cbn [decode_rounds decode_frames].
  - cbn [mbind option_bind synthesise_all]. by destruct d.
  - destruct (decode_frame (dec_bitstr_obj d)) as [ [ [f len'] st] |]; cbn [mbind option_bind]; [|reflexivity].
    destruct (len' <? 0); [reflexivity|]. rewrite synthesise_bitstr.
    destruct (synthesise_frame (junk nb) nb mode f signal d) as [ [s' d'] |] eqn:E; cbn [mbind option_bind].
    + rewrite IH, set_bitstr_get. destruct (decode_frames n len' st) as [ [ [fs len2] st2] |]; cbn [mbind option_bind synthesise_all]; [|reflexivity].
      rewrite E, bind_Some, synthesise_all_bitstr.
      by destruct (synthesise_all junk (nb + 1) mode fs s' d') as [ [s2 d2] |].
    + destruct (decode_frames n len' st) as [ [ [fs len2] st2] |]; cbn [mbind option_bind synthesise_all]; [|reflexivity]. by rewrite E.
Qed.

Lemma length_frames n : forall len st fs ret st', decode_frames n len st = Some (fs, ret, st') ->
  (length fs <= n)%nat /\ (0 <= ret -> length fs = n).
Proof.
  induction n as [|n IH]; intros len st fs ret st' E; cbn [decode_frames] in E.
  - injection E as <- <- <-. cbn. lia.
  - destruct (decode_frame st) as [ [ [f len1] st1] |]; cbn [mbind option_bind] in E; [|done].
    destruct (Z.ltb_spec len1 0); [injection E as <- <- <-; cbn; lia|].
    destruct (decode_frames n len1 st1) as [ [ [fs2 len2] st2] |] eqn:E2; cbn [mbind option_bind] in E; [|done].
    injection E as <- <- <-. destruct (IH _ _ _ _ _ E2). cbn [length]. lia.
Qed.

(** Decoding is reading all parameters of the packet and then synthesising the
    frames that were read: the code does both frame by frame. *)
Lemma decode_impl_parse junk signal d cur :
  match decode_packet (dec_reset (d_stream (dec_bitstr_obj d)) (d_stream_size (dec_bitstr_obj d))) with
  | None => WebRtcIsacfix_DecodeImpl junk signal d cur = None
  | Some (fs, _, frames, len, st) => exists n, (0 <= len -> n = fs) /\
      (length frames <= S (Z.to_nat (fs / MAX_FRAMESAMPLES)))%nat /\
      (0 <= len -> length frames = S (Z.to_nat (fs / MAX_FRAMESAMPLES))) /\
      WebRtcIsacfix_DecodeImpl junk signal d cur
      = ('(signal, d') ← synthesise_all junk 0 (fs / MAX_FRAMESAMPLES) frames signal d; Some (len, signal, n, set_dec_bitstr st d'))
  end.
Proof.
  unfold decode_packet, dbind at 1, WebRtcIsacfix_DecodeImpl.
  destruct (WebRtcIsacfix_DecodeFrameLen _) as [ [ [fs err] st] |]; cbn [mbind option_bind]; [|reflexivity].
  destruct (Z.ltb_spec err 0).
  { cbn [inhabitant]. exists cur. split; [lia|]. split; [cbn; lia|]. split; [lia|reflexivity]. }
  unfold dbind, dmap. destruct (WebRtcIsacfix_DecodeSendBandwidth st) as [ [ [bw err2] st2] |]; cbn [mbind option_bind]; [|reflexivity].
  destruct (Z.ltb_spec err2 0).
  { exists fs. split; [lia|]. split; [cbn; lia|]. split; [lia|reflexivity]. }
  rewrite decode_rounds_parse, set_bitstr_get.
  destruct (decode_frames _ 0 st2) as [ [ [frames len] st3] |] eqn:E; cbn [mbind option_bind]; [|reflexivity].
  destruct (length_frames _ _ _ _ _ _ E). exists fs. split; [done|]. split; [done|]. split; [done|].
  rewrite synthesise_all_bitstr. by destruct (synthesise_all junk 0 _ frames signal d) as [ [s' d'] |].
Qed.

(** ** The signal of a frame *)

Definition hann (k : Z) : Z := arr kHanningTable ((-0x200000 + (k + 1) * 13421772) ≫ 22).

(** The first 80 cells of the window do not depend on the array. *)
Lemma hanning_80 v : (80 <= length v)%nat -> exists w, WebRtcSpl_GetHanningWindow v RECOVERY_OVERLAP = Some w /\
  length w = length v /\ forall k, 0 <= k < 80 -> arr w k = hann k.
Proof.
  intros Hv. unfold WebRtcSpl_GetHanningWindow, RECOVERY_OVERLAP. rewrite hanning_factor by lia. cbn zeta.
  change (1073741824 / 80) with 13421772. change (80 <? 513) with true. cbv iota.
  loop_inv (fun j '((index, w) : Z * list Z) => index = -0x200000 + j * 13421772 /\ length w = length v /\
    forall k, 0 <= k < j -> arr w k = hann k) r E H; [lia| | |].
  - split; [reflexivity|]. split; [reflexivity|lia].
  - intros j [index w] Hj (-> & L & H). rewrite i32_id by (unfold is_i32; lia).
    replace (-0x200000 + j * 13421772 + 13421772) with (-0x200000 + (j + 1) * 13421772) by lia.
    rewrite rd_Some, bind_Some.
    2: { rewrite (proj1 (proj2 hanning_table_ok)). rewrite shiftr_div by lia. split; [apply Z.div_pos; lia|].
         apply Z.div_lt_upper_bound; lia. }
    rewrite wr_Some, bind_Some by lia. eexists; split; [reflexivity|]. split; [reflexivity|].
    split; [by rewrite length_upd|]. intros k Hk. destruct (Z.eq_dec k j) as [->|].
    + by rewrite arr_upd_eq by lia.
    + rewrite arr_upd_ne by lia. apply H. lia.
  - bind_step E. destruct r as [index w], H as (_ & L & H). by exists w.
Qed.

Section Frame.
Context (d : IsacFixDecoderInstance) (f : frame).

Definition recovering : bool := plc_used (plcstr_obj d) =? PLC_WAS_USED.

(** Both bands in Q16. *)
Definition bands : Z -> Z * Z := demodulated (block_fft 1 (paired (merged (IsacTransform.cells (f_spectrum f))))).

(** The lower band before the pitch filter, in Q9, overlapped with the
    concealed signal after a loss. *)
Definition lower_band : list Z := table 240 (fun k =>
  let v := i16 (i32 ((bands k).1 + 64) ≫ 7) in
  if recovering && (k <? 80)
  then WebRtcSpl_AddSatW16 (i16 (i32 (arr (overlapLP (plcstr_obj d)) k * hann (79 - k)) ≫ 14)) (i16 (i32 (v * hann k) ≫ 14))
  else v).
Definition gains_used : list Z :=
  if recovering then upd (f_gains f) 0 (i16 (i32 (arr (f_gains f) 0 * 700) ≫ 10)) else f_gains f.

Definition pitch_gains : list Z := filter_gains 4 gains_used.
Definition enhanced : list Z := (pitch_run 4 (pitchfiltstr_dec d) (f_lags f) pitch_gains lower_band).1.
Definition lower_residual : list Z :=
  table 240 (fun k => i32 (i32 (arr enhanced k * enhancer_gain (avg_pitch_gain (f_gains f))) * 2 ^ 3)).
Definition upper_residual : list Z := table 240 (fun k => i32 ((bands k).2 * 2 ^ 9)).
Definition lower_filter : list Z * list Z :=
  ar_filter 12 (f_lo f) (f_gain_lo_hi f) 0 lower_residual (PostStateLoGQ0 (maskfiltstr_dec d)) 6.
Definition upper_filter : list Z * list Z :=
  ar_filter 6 (f_hi f) (f_gain_lo_hi f) 1 upper_residual (PostStateHiGQ0 (maskfiltstr_dec d)) 6.
Definition upper_channel : list Z := table 240 (fun k => (polyphase (arr lower_filter.1 k) (arr upper_filter.1 k)).1).
Definition lower_channel : list Z := table 240 (fun k => (polyphase (arr lower_filter.1 k) (arr upper_filter.1 k)).2).

(** The 480 samples. *)
Definition speech : list Z := (synthesised (postfiltbankstr_obj d) upper_channel lower_channel).1.

(** The state of concealment after the frame. *)
Definition last_side_info (plc : PLCstr) : PLCstr :=
  mkPlc lower_band (take 140 (drop 90 enhanced) ++ drop 140 (prevPitchInvOut plc)) (prevHP plc) (decayCoeffPriodic plc)
    (decayCoeffNoise plc) (plc_used plc) (take 12 (drop 60 (f_lo f))) (take 6 (drop 30 (f_hi f)))
    [arr (f_gain_lo_hi f) 10; arr (f_gain_lo_hi f) 11] (arr gains_used 3) (arr gains_used 3)
    (if arr (f_lags f) 3 <? 3000 then i16 (2 * arr (f_lags f) 3) else arr (f_lags f) 3) (overlapLP plc)
    (pitchCycles plc) (plc_A plc) (plc_B plc) (plc_pitchIndex plc) (stretchLag plc) (plc_seed plc) (plc_std plc).
Definition next_plc (last : bool) : PLCstr :=
  let plc := if recovering then recovered (plcstr_obj d) else plcstr_obj d in
  set_prevHP (drop 90 upper_residual) (if last then last_side_info plc else plc).

Definition next_decoder (last : bool) : IsacFixDecoderInstance :=
  mkDecInst (dec_bitstr_obj d)
    (mkMaskDec lower_filter.2 upper_filter.2 (OldEnergy_dec (maskfiltstr_dec d)))
    (next_postfilt (postfiltbankstr_obj d) upper_channel lower_channel)
    (filtered_state 4 (pitchfiltstr_dec d) (f_lags f) pitch_gains lower_band)
    (next_plc last).
End Frame.

(** ** Well-formed instances and frames *)

Definition buffers_ok (b : Buffers) : Prop :=
  length (Vector_Word32_1 b) = 240%nat /\ length (Vector_Word32_2 b) = 240%nat /\ length (overlapWin b) = 240%nat /\
  w16 454 (buf_pitch b) /\ length (buf_ARf b) = 40%nat /\ length (buf_ARg b) = 13%nat /\ length (buf_combine b) = 480%nat.

Definition plc_ok (plc : PLCstr) : Prop :=
  length (prevPitchInvIn plc) = 240%nat /\ length (prevPitchInvOut plc) = 150%nat /\ length (prevHP plc) = 150%nat /\
  length (lofilt_coefQ15 plc) = 12%nat /\ length (hifilt_coefQ15 plc) = 6%nat /\ length (gain_lo_hiQ17 plc) = 2%nat /\
  length (overlapLP plc) = 80%nat.

(** What the decoder keeps between packets. *)
Definition decoder_ok (d : IsacFixDecoderInstance) : Prop :=
  ar_state 12 (PostStateLoGQ0 (maskfiltstr_dec d)) /\ ar_state 6 (PostStateHiGQ0 (maskfiltstr_dec d)) /\
  postfilt_ok (postfiltbankstr_obj d) /\ pitchfilt_ok (pitchfiltstr_dec d) /\ plc_ok (plcstr_obj d).

Definition frame_shape (f : frame) : Prop :=
  length (f_gains f) = 4%nat /\ Forall (fun g => 0 <= g <= 3000) (f_gains f) /\ length (f_lags f) = 4%nat /\ Forall lag_ok (f_lags f) /\
  length (f_gain_lo_hi f) = 12%nat /\ w16 72 (f_lo f) /\ w16 36 (f_hi f) /\
  length (f_spectrum f).1 = 240%nat /\ length (f_spectrum f).2 = 240%nat.

(** ** The steps *)

Lemma map_into_spec n f src dst : 0 <= n -> (Z.to_nat n <= length src)%nat -> length dst = Z.to_nat n ->
  map_into n f src dst = Some (table n (fun k => f (arr src k))).
Proof.
  intros Hn Hs Hd. unfold map_into.
  loop_inv (fun k l => length l = Z.to_nat n /\ forall j, 0 <= j < k -> arr l j = f (arr src j)) r E H; [done|by split; [|lia]| |].
  - intros k l Hk [L H]. rewrite rd_Some, bind_Some, wr_Some by lia. eexists; split; [reflexivity|].
    split; [by rewrite length_upd|]. intros j Hj. destruct (Z.eq_dec j k) as [->|]; [by rewrite arr_upd_eq by lia|].
    rewrite arr_upd_ne by lia. apply H. lia.
  - rewrite E. f_equal. destruct H as [L H]. apply list_arr; [by rewrite length_table|]. intros j Hj.
    rewrite arr_table by lia. apply H. lia.
Qed.

Lemma recovery_frame_spec d f win v : length (overlapLP (plcstr_obj d)) = 80%nat -> length win = 240%nat ->
  length (f_gains f) = 4%nat -> length v = 240%nat ->
  (forall k, 0 <= k < 240 -> arr v k = i16 (i32 ((bands f k).1 + 64) ≫ 7)) ->
  recovery_frame win (plcstr_obj d) (f_gains f) v
  = Some (if recovering d then recovered (plcstr_obj d) else plcstr_obj d, gains_used d f, lower_band d f).
Proof.
  intros Lo Lw Lg Lv Hv. unfold recovery_frame, gains_used, lower_band. fold (recovering d).
  destruct (recovering d); cbn [andb].
  2: { do 2 f_equal. apply list_arr; [by rewrite length_table|]. intros k Hk. rewrite arr_table, Hv by lia. done. }
  rewrite rd_Some, bind_Some, wr_Some, bind_Some by lia.
  destruct (hanning_80 win) as (w & -> & Lw' & Hw); [lia|]. rewrite bind_Some. change RECOVERY_OVERLAP with 80.
  loop_inv (fun j l => length l = 240%nat /\ (forall k, j <= k < 240 -> arr l k = arr v k) /\ forall k, 0 <= k < j ->
    arr l k = WebRtcSpl_AddSatW16 (i16 (i32 (arr (overlapLP (plcstr_obj d)) k * hann (79 - k)) ≫ 14))
                (i16 (i32 (arr v k * hann k) ≫ 14))) r E H; [lia| | |].
  - split; [done|]. split; [done|lia].
  - intros j l Hj (L & H1 & H2). rewrite !rd_Some, !bind_Some, wr_Some by lia. eexists; split; [reflexivity|].
    split; [by rewrite length_upd|]. split; intros k Hk.
    + rewrite arr_upd_ne by lia. apply H1. lia.
    + destruct (Z.eq_dec k j) as [->|]; [|rewrite arr_upd_ne by lia; apply H2; lia].
      rewrite arr_upd_eq, H1, !Hw by lia. by replace (80 - j - 1) with (79 - j) by lia.
  - bind_step E. destruct H as (L & H1 & H2). do 2 f_equal. apply list_arr; [by rewrite length_table|]. intros k Hk.
    rewrite arr_table by lia. cbv zeta. rewrite <-Hv by lia. destruct (Z.ltb_spec k 80); [apply H2|apply H1]; lia.
Qed.

(** A copy over the front of an array, and over a whole array. *)
Lemma mem_write_front (m bs : list Z) : (length bs <= length m)%nat -> mem_write m 0 bs = Some (bs ++ drop (length bs) m).
Proof. intros H. rewrite mem_write_Some by lia. by rewrite Z2Nat.inj_0, take_0. Qed.
Lemma mem_write_whole (m bs : list Z) : length bs = length m -> mem_write m 0 bs = Some bs.
Proof. intros H. rewrite mem_write_front by lia. by rewrite H, drop_all, app_nil_r. Qed.

Lemma polyphase_loop v1 v2 : length v1 = 240%nat -> length v2 = 240%nat ->
  for_opt 240 (fun k '(v1, v2) =>
    a ← rd v1 k; b ← rd v2 k; v1 ← wr v1 k (polyphase a b).1; v2 ← wr v2 k (polyphase a b).2; Some (v1, v2)) (v1, v2)
  = Some (table 240 (fun k => (polyphase (arr v1 k) (arr v2 k)).1), table 240 (fun k => (polyphase (arr v1 k) (arr v2 k)).2)).
Proof.
  intros L1 L2.
  loop_inv (fun j '((a, b) : list Z * list Z) => length a = 240%nat /\ length b = 240%nat /\
    (forall k, j <= k < 240 -> arr a k = arr v1 k /\ arr b k = arr v2 k) /\ forall k, 0 <= k < j ->
    arr a k = (polyphase (arr v1 k) (arr v2 k)).1 /\ arr b k = (polyphase (arr v1 k) (arr v2 k)).2) r E H; [lia| | |].
  - split_and!; [done|done|done|lia].
  - intros j [a b] Hj (La & Lb & H1 & H2). destruct (H1 j) as [Ea Eb]; [lia|].
    rewrite !rd_Some, !bind_Some, !wr_Some, !bind_Some, Ea, Eb by lia. eexists; split; [reflexivity|]. cbv beta iota.
    rewrite !length_upd. split; [done|]. split; [done|]. split; intros k Hk.
    + rewrite !arr_upd_ne by lia. apply H1. lia.
    + destruct (Z.eq_dec k j) as [->|]; [by rewrite !arr_upd_eq by lia|]. rewrite !arr_upd_ne by lia. apply H2. lia.
  - rewrite E. destruct r as [a b], H as (La & Lb & _ & H). do 2 f_equal; apply list_arr; rewrite ?length_table; try done;
      intros k Hk; rewrite arr_table by lia; apply H; lia.
Qed.

Lemma length_run_segments sign inp ps : forall ind s, length (run_segments sign inp ind ps s).1 = (12 * length ps)%nat.
Proof.
  induction ps as [|p ps IH]; intros ind s; [done|]. destruct (run_segments_cons sign inp ind p ps s) as (y & Ey & ->).
  cbn [fst length]. rewrite length_app, IH, Ey, length_scan, length_strided. lia.
Qed.
Lemma length_pitch_run type p lags gains inp : length (pitch_run type p lags gains inp).1 = 240%nat.
Proof. unfold pitch_run. rewrite length_run_segments. reflexivity. Qed.

(** The loop over [prevHP]. *)
Lemma highpass_tail w hp : length w = 240%nat -> length hp = 150%nat ->
  for_opt 150 (fun k hp => x ← rd w (90 + k); wr hp k x) hp = Some (drop 90 w).
Proof.
  intros Lw Lh. loop_inv (fun j l => length l = 150%nat /\ forall k, 0 <= k < j -> arr l k = arr w (90 + k)) r E H;
    [lia|by split; [|lia]| |].
  - intros j l Hj [L H]. rewrite rd_Some, bind_Some, wr_Some by lia. eexists; split; [reflexivity|].
    split; [by rewrite length_upd|]. intros k Hk. destruct (Z.eq_dec k j) as [->|]; [by rewrite arr_upd_eq by lia|].
    rewrite arr_upd_ne by lia. apply H. lia.
  - rewrite E. f_equal. destruct H as [L H]. apply list_arr; [rewrite length_drop; lia|]. intros k Hk.
    rewrite H by lia. unfold arr. rewrite !nth_lookup, lookup_drop. do 2 f_equal. lia.
Qed.

Definition stored_side_info (plc : PLCstr) (f : frame) (gains v : list Z) : PLCstr :=
  mkPlc v (prevPitchInvOut plc) (prevHP plc) (decayCoeffPriodic plc) (decayCoeffNoise plc) (plc_used plc)
    (take 12 (drop 60 (f_lo f))) (take 6 (drop 30 (f_hi f))) [arr (f_gain_lo_hi f) 10; arr (f_gain_lo_hi f) 11]
    (arr gains 3) (arr gains 3)
    (if arr (f_lags f) 3 <? 3000 then i16 (2 * arr (f_lags f) 3) else arr (f_lags f) 3) (overlapLP plc)
    (pitchCycles plc) (plc_A plc) (plc_B plc) (plc_pitchIndex plc) (stretchLag plc) (plc_seed plc) (plc_std plc).

Lemma store_side_info_spec plc f gains v : plc_ok plc -> frame_shape f -> length gains = 4%nat -> length v = 240%nat ->
  store_side_info plc (f_lo f) (f_hi f) (f_gain_lo_hi f) (f_lags f) gains v = Some (stored_side_info plc f gains v).
Proof.
  intros (P1 & P2 & P3 & P4 & P5 & P6 & P7) (G1 & _ & G2 & _ & G3 & [G4 _] & [G5 _] & _) Lg Lv. unfold store_side_info.
  change ((SUBFRAMES - 1) * ORDERLO) with 60. change ((SUBFRAMES - 1) * ORDERHI) with 30. change ((SUBFRAMES - 1) * 2) with 10.
  change ORDERLO with 12. change ORDERHI with 6. change (Z.quot FRAMESAMPLES 2) with 240.
  rewrite (mem_read_Some (f_lo f)), bind_Some, mem_write_whole, bind_Some by (rewrite ?length_take, ?length_drop; lia).
  rewrite (mem_read_Some (f_hi f)), bind_Some, mem_write_whole, bind_Some by (rewrite ?length_take, ?length_drop; lia).
  change (10 + 1) with 11. rewrite (rd_Some (f_gain_lo_hi f) 10), bind_Some, (rd_Some (f_gain_lo_hi f) 11), bind_Some by lia.
  rewrite wr_Some, bind_Some, wr_Some, bind_Some by (rewrite ?length_upd; lia).
  rewrite (rd_Some gains), bind_Some, (rd_Some (f_lags f)), bind_Some by lia.
  rewrite (mem_read_Some v), bind_Some by lia. change (Z.to_nat 0) with 0%nat. change (Z.to_nat 240) with 240%nat.
  rewrite drop_0, (take_ge v), mem_write_whole, bind_Some by lia. unfold stored_side_info. do 2 f_equal.
  - destruct (gain_lo_hiQ17 plc) as [|a [|b [|? ?] ] ]; try done.
  - destruct (_ <? _); [|done]. f_equal. lia.
Qed.

Lemma store_if (last : bool) plc f gains v : plc_ok plc -> frame_shape f -> length gains = 4%nat -> length v = 240%nat ->
  (if last then store_side_info plc (f_lo f) (f_hi f) (f_gain_lo_hi f) (f_lags f) gains v else Some plc)
  = Some (if last then stored_side_info plc f gains v else plc).
Proof. intros. destruct last; [by apply store_side_info_spec|done]. Qed.

Lemma store_out_if (last : bool) plc v : length (prevPitchInvOut plc) = 150%nat -> length v = 240%nat ->
  (if last then inv ← mem_read v (Z.quot FRAMESAMPLES 2 - (PITCH_MAX_LAG + 10)) PITCH_MAX_LAG;
                inv ← mem_write (prevPitchInvOut plc) 0 inv; Some (set_prevPitchInvOut inv plc)
   else Some plc)
  = Some (if last then set_prevPitchInvOut (take 140 (drop 90 v) ++ drop 140 (prevPitchInvOut plc)) plc else plc).
Proof.
  intros L1 L2. destruct last; [|done]. change (Z.quot FRAMESAMPLES 2 - (PITCH_MAX_LAG + 10)) with 90. change PITCH_MAX_LAG with 140.
  rewrite (mem_read_Some v), bind_Some by lia. change (Z.to_nat 90) with 90%nat. change (Z.to_nat 140) with 140%nat.
  rewrite mem_write_front, bind_Some by (rewrite length_take, length_drop; lia). rewrite length_take, length_drop, L2.
  reflexivity.
Qed.

Lemma overwritten_front ys data l : overwritten 1 0 ys data l -> (length ys <= length data)%nat -> l = ys ++ drop (length ys) data.
Proof.
  intros (HL & Hy & Hr) Hle. apply list_arr; [rewrite length_app, length_drop; lia|]. intros k Hk.
  destruct (Z.ltb_spec k (Z.of_nat (length ys))).
  - rewrite arr_cat_l by lia. rewrite <-Hy by lia. f_equal. lia.
  - rewrite arr_cat_r by lia. rewrite Hr by lia. unfold arr. rewrite !nth_lookup, lookup_drop. do 2 f_equal. lia.
Qed.

Section Round.
Context (b : Buffers) (nb mode : Z) (f : frame) (signal : list Z) (d : IsacFixDecoderInstance).
Context (Hb : buffers_ok b) (Hd : decoder_ok d) (Hf : frame_shape f).
Context (Hnb : 0 <= nb) (Hs : 480 * (nb + 1) <= Z.of_nat (length signal)).

Lemma gains_used_ok : length (gains_used d f) = 4%nat /\ Forall (fun g => 0 <= g <= 3000) (gains_used d f).
Proof.
  destruct Hf as (G1 & G2 & _). unfold gains_used. destruct (recovering d); [|done]. rewrite length_upd. split; [done|].
  apply Forall_upd; [done|]. 
  assert (0 <= arr (f_gains f) 0 <= 3000) as Hg by (apply (arr_Forall (fun g => 0 <= g <= 3000)); [lia|done]). rewrite i32_id by (unfold is_i32; lia).
  rewrite shiftr_div by lia. change (2 ^ 10) with 1024.
  assert (0 <= arr (f_gains f) 0 * 700 / 1024 <= 3000).
  { split; [apply Z.div_pos; lia|]. apply Z.div_le_upper_bound; lia. }
  by rewrite i16_id by (unfold is_i16; lia).
Qed.

Lemma lower_band_i16 : Forall is_i16 (lower_band d f).
Proof.
  unfold lower_band, table. apply Forall_map, Forall_true. intros k. cbv zeta. destruct (_ && _); [|apply i16_range].
  unfold WebRtcSpl_AddSatW16. apply SatW32ToW16_range.
Qed.

Lemma spec2time_bands : exists v1 v2 w1 w2,
  WebRtcIsacfix_Spec2TimeC (f_spectrum f).1 (f_spectrum f).2 (Vector_Word32_1 b) (Vector_Word32_2 b) = Some (v1, v2, w1, w2) /\
  length v1 = 240%nat /\ length v2 = 240%nat /\ length w1 = 240%nat /\ length w2 = 240%nat /\
  forall k, 0 <= k < 240 -> arr w1 k = (bands f k).1 /\ arr w2 k = (bands f k).2.
Proof.
  destruct Hf as (_ & _ & _ & _ & _ & _ & _ & S1 & S2). destruct Hb as (B1 & B2 & _).
  destruct (spec2time_spec (f_spectrum f).1 (f_spectrum f).2 (Vector_Word32_1 b) (Vector_Word32_2 b))
    as ([ [ [v1 v2] w1] w2] & E & L1 & L2 & W1 & W2 & H & _); [unfold long; cbn [fst snd]; lia..|].
  cbn [fst snd] in *. exists v1, v2, w1, w2. split; [exact E|]. split_and!; [lia..|]. intros k Hk. specialize (H k Hk).
  unfold bands. unfold IsacTransform.cells. rewrite <-H. by split.
Qed.

Lemma lower_filter_ok : ar_state 12 (lower_filter d f).2 /\ w16 240 (lower_filter d f).1.
Proof.
  destruct Hd as (D1 & _), Hf as (_ & _ & _ & _ & _ & [_ G] & _).
  destruct (ar_filter_lengths 12 (f_lo f) (f_gain_lo_hi f) (lower_residual d f) 0 G _ 6%nat D1) as [W S]. by split.
Qed.
Lemma upper_filter_ok : ar_state 6 (upper_filter d f).2 /\ w16 240 (upper_filter d f).1.
Proof.
  destruct Hd as (_ & D1 & _), Hf as (_ & _ & _ & _ & _ & _ & [_ G] & _).
  destruct (ar_filter_lengths 6 (f_hi f) (f_gain_lo_hi f) (upper_residual f) 1 G _ 6%nat D1) as [W S]. by split.
Qed.

(** A frame of synthesis: no access outside an array, the samples and the state
    are functions of the instance and the frame's parameters, whatever the
    local arrays held. *)
Lemma synthesise_frame_spec :
  synthesise_frame b nb mode f signal d
  = Some (take (Z.to_nat (480 * nb)) signal ++ speech d f ++ drop (Z.to_nat (480 * (nb + 1))) signal, next_decoder d f (nb =? mode)) /\
  decoder_ok (next_decoder d f (nb =? mode)) /\ w16 480 (speech d f).
Proof.
  destruct spec2time_bands as (v1 & v2 & w1 & w2 & E1 & Lv1 & Lv2 & Lw1 & Lw2 & HW).
  destruct gains_used_ok as [Lg Fg]. pose proof lower_band_i16 as Fl.
  pose proof lower_filter_ok as [Slo [Llo Flo] ]. pose proof upper_filter_ok as [Shi [Lhi Fhi] ].
  pose proof Hb as (B1 & B2 & B3 & B4 & B5 & B6 & B7). pose proof Hd as (D1 & D2 & D3 & D4 & D5).
  pose proof Hf as (G1 & G2 & G3 & Hlags & G4 & [G5 G5'] & [G6 G6'] & S1 & S2). pose proof D5 as (P1 & P2 & P3 & P4 & P5 & P6 & P7).
  unfold synthesise_frame. rewrite (surjective_pairing (f_spectrum f)). cbv zeta. bind_step E1. clear E1.
  rewrite map_into_spec, bind_Some by lia.
  rewrite (recovery_frame_spec d f) by (try done; try (rewrite length_table; done); intros k Hk; rewrite arr_table by done; by destruct (HW k Hk) as [-> _]).
  rewrite bind_Some. cbv beta iota. set (plc := if recovering d then _ else _).
  assert (plc_ok plc) as Hplc by (unfold plc; by destruct (recovering d)).
  assert (length (lower_band d f) = 240%nat) as Ll by (by unfold lower_band; rewrite length_table).
  rewrite store_if, bind_Some by done. set (plc1 := if nb =? mode then _ else _).
  destruct (pitch_filter_spec (buf_pitch b) (lower_band d f) v2 (pitchfiltstr_dec d) (f_lags f) (gains_used d f) 4 B4 Fl)
    as (out & Ep & Op & Hp); [cbn [lookahead_length Z.eqb Pos.eqb]; lia|cbn [lookahead_length Z.eqb Pos.eqb]; lia|done..|].
  bind_step Ep. clear Ep. unfold pitch_lookahead in Op. cbn [Z.eqb Pos.eqb] in Op. rewrite app_nil_r in Op.
  apply overwritten_whole in Op; [|by rewrite length_pitch_run].
  fold (pitch_gains d f) in Op, Hp |- *. fold (enhanced d f) in Op. subst out.
  assert (length (enhanced d f) = 240%nat) as Le by (unfold enhanced; apply length_pitch_run).
  rewrite store_out_if, bind_Some; [|by unfold plc1; destruct (nb =? mode); apply Hplc|done].
  rewrite map_into_spec, bind_Some by lia. change (1 ≪ 3) with (2 ^ 3). fold (lower_residual d f).
  change ORDERLO with (Z.of_nat 12). change ORDERHI with (Z.of_nat 6).
  destruct (norm_lattice_ar_spec (buf_ARf b) (buf_ARg b) 12 (PostStateLoGQ0 (maskfiltstr_dec d)) (lower_residual d f)
    (f_lo f) (f_gain_lo_hi f) 0 (lower_band d f)) as (Ea & _ & _); [lia|done|done|done|by unfold lower_residual; rewrite length_table|done|lia|done|lia|lia|].
  bind_step Ea. clear Ea. fold (lower_filter d f).
  assert (length (lower_residual d f) = 240%nat /\ length (upper_residual f) = 240%nat) as [Lr Lu]
    by (unfold lower_residual, upper_residual; by rewrite !length_table).
  rewrite map_into_spec, bind_Some by lia.
  assert (table 240 (fun k => i32 (arr w2 k * (1 ≪ 9))) = upper_residual f) as ->.
  { unfold upper_residual. apply table_ext. intros k Hk. destruct (HW k Hk) as [_ ->]. reflexivity. }
  change (PITCH_MAX_LAG + 10) with 150. change (Z.quot FRAMESAMPLES 2) with 240. change (240 - 150) with 90.
  rewrite highpass_tail, bind_Some; [|done|by unfold plc1; destruct (nb =? mode); apply Hplc].
  destruct (norm_lattice_ar_spec (buf_ARf b) (buf_ARg b) 6 (PostStateHiGQ0 (maskfiltstr_dec d)) (upper_residual f)
    (f_hi f) (f_gain_lo_hi f) 1 (enhanced d f)) as (Ea & _ & _); [lia|done|done|done|done|done|lia|done|lia|lia|].
  bind_step Ea. clear Ea. fold (upper_filter d f).
  rewrite polyphase_loop, bind_Some by done. cbv beta iota. fold (upper_channel d f) (lower_channel d f).
  destruct (combine_spec (buf_combine b) (upper_channel d f) (lower_channel d f)
    (drop (Z.to_nat (nb * kProcessedSamples)) signal) (postfiltbankstr_obj d)) as (c1 & c2 & out & Ec & Oc & Lc & Fc & Pc);
    [done|done|unfold upper_channel; rewrite length_table; lia|unfold lower_channel; rewrite length_table; lia|
     rewrite length_drop; unfold kProcessedSamples; lia|].
  bind_step Ec. clear Ec.
  assert ((synthesised (postfiltbankstr_obj d) (upper_channel d f) (lower_channel d f)).1 = speech d f) as Es by (unfold speech; reflexivity).
  rewrite Es in Oc, Lc, Fc. apply overwritten_front in Oc; [|rewrite length_drop; unfold kProcessedSamples; lia].
  rewrite Lc, drop_drop in Oc.
  assert (set_prevHP (drop 90 (upper_residual f)) (if nb =? mode then
    set_prevPitchInvOut (take 140 (drop 90 (enhanced d f)) ++ drop 140 (prevPitchInvOut plc1)) plc1 else plc1)
    = next_plc d f (nb =? mode)) as ->.
  { unfold next_plc. fold plc. unfold plc1, last_side_info, stored_side_info. by destruct (nb =? mode). }
  assert (take (Z.to_nat (nb * kProcessedSamples)) signal ++ out
    = take (Z.to_nat (480 * nb)) signal ++ speech d f ++ drop (Z.to_nat (480 * (nb + 1))) signal) as ->.
  { rewrite Oc. unfold kProcessedSamples. replace (nb * 480) with (480 * nb) by lia.
    by replace (Z.to_nat (480 * nb) + 480)%nat with (Z.to_nat (480 * (nb + 1))) by lia. }
  split; [unfold next_decoder; reflexivity|]. split; [|by split].
  unfold next_decoder, decoder_ok. cbn [maskfiltstr_dec postfiltbankstr_obj pitchfiltstr_dec plcstr_obj PostStateLoGQ0 PostStateHiGQ0].
  split_and!; [done|done|done|done|]. unfold next_plc. fold plc. unfold plc_ok in Hplc |- *.
  destruct Hplc as (Q1 & Q2 & Q3 & Q4 & Q5 & Q6 & Q7). unfold last_side_info, set_prevHP. destruct (nb =? mode);
    cbn [prevPitchInvIn prevPitchInvOut prevHP lofilt_coefQ15 hifilt_coefQ15 gain_lo_hiQ17 overlapLP];
    rewrite ?length_app, ?length_take, ?length_drop; cbn [length]; lia.
Qed.
End Round.

(** ** The lags of coded indices *)

Definition lmin (l : list Z) : Z := foldr Z.min 30000 l.
Definition lmax (l : list Z) : Z := foldr Z.max (-30000) l.
Lemma lmin_lmax l x : In x l -> lmin l <= x <= lmax l.
Proof. induction l as [|y l IH]; cbn; [done|]. intros [->|H]; [lia|]. specialize (IH H). fold (lmin l) (lmax l). lia. Qed.

(** The three summands of lag [k]. *)
Definition lag_a (c : lag_class) (k x0 : Z) : Z :=
  i16 (WEBRTC_SPL_MUL_16_32_RSFT11 (transform 0 k) (WEBRTC_SPL_SHIFT_W32 (i32 (x0 + arr (lower_limit c) 0)) (11 - shft c)) ≫ 5).
Definition lag_b (k C2 : Z) : Z := i16 (((transform 1 k * i16 C2) ≫ 10) ≫ 5).
Definition lag_d (k C4 : Z) : Z := i16 (((transform 3 k * i16 C4) ≫ 10) ≫ 5).

Lemma lags_of_sum c index : lags_of c index =
  (C2 ← rd (mean_val2Q10 c) (arr index 1); C4 ← rd (mean_val4Q10 c) (arr index 3);
   Some (map (fun k => i16 (i16 (lag_a c k (arr index 0) + lag_b k C2) + lag_d k C4)) (seqZ 0 PITCH_SUBFRAMES))).
Proof. unfold lags_of, lag_a, lag_b, lag_d. reflexivity. Qed.

(** Every index the bisection can return gives lags above -8 samples. *)
Definition class_size (c : lag_class) : Z := arr (cdf_size c) 0.
Definition class_lags_ok (c : lag_class) : bool := (length (cdf_size c) =? 1)%nat && (2 <=? class_size c) && (class_size c <=? 32767) &&
  forallb (fun k =>
  let A := map (lag_a c k) (seqZ 0 (class_size c - 1)) in
  let B := map (lag_b k) (mean_val2Q10 c) in
  let D := map (lag_d k) (mean_val4Q10 c) in
  (-1000 <=? lmin A + lmin B + lmin D) && (lmax A + lmax B + lmax D <=? 24000) &&
  (-32768 <=? lmin A + lmin B) && (lmax A + lmax B <=? 32767)) [0; 1; 2; 3].

Lemma voicing_lags_ok m : class_lags_ok (voicing m) = true.
Proof. unfold voicing. destruct (m <=? 819); [|destruct (m <=? 1638)]; vm_compute; reflexivity. Qed.

Lemma rd_In l i v : rd l i = Some v -> In v l.
Proof. unfold rd. destruct (0 <=? i); [|done]. intros H. apply list_elem_of_In. by apply list_elem_of_lookup_2 in H. Qed.

Lemma lags_of_range c index l : class_lags_ok c = true -> 0 <= arr index 0 < class_size c - 1 ->
  lags_of c index = Some l -> Forall lag_ok l.
Proof.
  intros Hc Hx E. rewrite lags_of_sum in E. generalize dependent (arr index 0). intros x0 Hx E.
  destruct (rd (mean_val2Q10 c) _) as [C2|] eqn:E2; [|done]. destruct (rd (mean_val4Q10 c) _) as [C4|] eqn:E4; [|done].
  rewrite !bind_Some in E. apply (inj Some) in E. subst l. apply rd_In in E2, E4.
  change (seqZ 0 PITCH_SUBFRAMES) with [0; 1; 2; 3]. apply Forall_map, Forall_forall. intros k Hk.
  unfold class_lags_ok in Hc. rewrite !andb_true_iff, forallb_forall in Hc. destruct Hc as [_ Hc]. specialize (Hc k Hk). cbv zeta in Hc.
  rewrite !andb_true_iff, !Z.leb_le in Hc. destruct Hc as [ [ [H1 H2] H3] H4]. unfold lag_ok.
  assert (In (lag_a c k x0) (map (lag_a c k) (seqZ 0 (class_size c - 1)))) as IA
    by (apply in_map, list_elem_of_In, elem_of_seqZ; lia).
  apply lmin_lmax in IA. pose proof (lmin_lmax _ _ (in_map (lag_b k) _ _ E2)) as IB.
  pose proof (lmin_lmax _ _ (in_map (lag_d k) _ _ E4)) as ID.
  rewrite (i16_id (lag_a c k x0 + lag_b k C2)) by (unfold is_i16; lia). rewrite i16_id by (unfold is_i16; lia). lia.
Qed.

(** The bisection only returns indices of its first window. *)
Lemma bisect_range fuel : forall tbl W v sz i lo hi x a b, 1 <= sz ->
  bisect fuel tbl W v sz i lo hi = Some (x, a, b) -> i - sz <= x <= i + sz - 1.
Proof.
  induction fuel as [|fuel IH]; intros tbl W v sz i lo hi x a b Hsz E; cbn [bisect] in E;
    destruct (cell tbl i) as [c|]; try done; rewrite bind_Some in E;
    destruct (Z.eqb_spec (Z.quot sz 2) 0) as [Hq|Hq]; try done.
  - destruct (_ <? v); injection E as <- _ _; lia.
  - destruct (_ <? v); injection E as <- _ _; lia.
  - assert (2 * Z.quot sz 2 <= sz /\ 1 <= Z.quot sz 2) as [H1 H2].
    { rewrite Z.quot_div_nonneg in * by lia. Z.div_mod_to_equations. lia. }
    destruct (_ <? v); apply IH in E; lia.
Qed.

Lemma bisect_index st tbls size xs err st' : 2 <= size <= 32767 ->
  WebRtcIsacfix_DecHistBisectMulti st tbls [size] 1 = Some (xs, err, st') -> 0 <= err ->
  exists x, xs = [x] /\ x < size - 1.
Proof.
  intros Hs. unfold WebRtcIsacfix_DecHistBisectMulti. destruct (_ =? 0); [intros [= <- <- <-]; lia|].
  destruct (dec_start st) as [l|]; [|done]. rewrite bind_Some. change (Z.to_nat 1) with 1%nat. generalize bisect_fuel as fuel. intros fuel.
  cbn [dec_bisect_loop]. destruct tbls as [|tbl tbls]; [done|].
  assert (1 <= Z.quot size 2 <= 16383 /\ 2 * Z.quot size 2 <= size) as [Hq Hq2]
    by (rewrite Z.quot_div_nonneg by lia; Z.div_mod_to_equations; lia).
  unfold dec_bisect_loop. destruct (bisect _ _ _ _ _ _ _ _) as [ [ [x lo] hi]|] eqn:E; [|done].
  rewrite (i16_id (Z.quot size 2)) in E by (unfold is_i16; lia). apply bisect_range in E; [|lia].
  rewrite bind_Some. destruct (dec_renorm _ _ _) as [l'|]; [|done]. rewrite bind_Some.
  destruct (_ =? 0).
  - rewrite bind_Some. intros [= <- <- <-]. lia.
  - destruct tbls; rewrite !bind_Some; destruct (dec_finish st l') as [ret s2]; intros [= <- <- <-] _; exists (i16 x);
      (split; [done|]; rewrite i16_id by (unfold is_i16; lia); lia).
Qed.

Lemma DecodePitchLag_shape g st l err st' : WebRtcIsacfix_DecodePitchLag g st = Some (l, err, st') -> 0 <= err ->
  length l = 4%nat /\ Forall lag_ok l.
Proof.
  unfold WebRtcIsacfix_DecodePitchLag. generalize (voicing_lags_ok (mean_gain g)). generalize (voicing (mean_gain g)). intros c Hc.
  pose proof Hc as Hsz. unfold class_lags_ok in Hsz. rewrite !andb_true_iff in Hsz. destruct Hsz as [ [ [Hl H2] H3] _].
  apply Nat.eqb_eq in Hl. apply Z.leb_le in H2, H3.
  destruct (WebRtcIsacfix_DecHistBisectMulti _ _ _ _) as [ [ [x e] s] |] eqn:E1; [|done].
  cbn [mbind option_bind]. destruct (Z.ltb_spec e 0); [intros [= <- <- <-]; unfold ISAC_RANGE_ERROR_DECODE_PITCH_LAG; lia|].
  destruct (Z.ltb_spec (arr x 0) 0); [intros [= <- <- <-]; unfold ISAC_RANGE_ERROR_DECODE_PITCH_LAG; lia|].
  destruct (WebRtcIsacfix_DecHistOneStepMulti _ _ _ _) as [ [ [y e2] s2] |]; [|done].
  cbn [orb mbind option_bind]. destruct (_ <? 0); [intros [= <- <- <-]; unfold ISAC_RANGE_ERROR_DECODE_PITCH_LAG; lia|].
  destruct (lags_of _ _) as [l'|] eqn:E; [|done]. intros [= <- <- <-] _. split.
  - unfold lags_of in E. destruct (rd (mean_val2Q10 _) _) as [a|]; [|done]. destruct (rd (mean_val4Q10 _) _) as [b|]; [|done].
    rewrite !bind_Some in E. apply (inj Some) in E. by rewrite <-E, length_map, length_seqZ.
  - unfold class_size in *. destruct (cdf_size c) as [|size [|]] eqn:Ec; try done. apply bisect_index in E1 as (x0 & -> & Hx0); [|done..].
    apply (lags_of_range c _ _ Hc) in E; [done|]. unfold class_size. rewrite Ec. change (0 <= x0 < size - 1). by split.
Qed.


(** ** What the parameter decoders return *)

Lemma rd_Forall (P : Z -> Prop) l i v : Forall P l -> rd l i = Some v -> P v.
Proof.
  unfold rd. destruct (0 <=? i); [|done]. intros HF E. rewrite Forall_lookup in HF. by apply (HF (Z.to_nat i)).
Qed.

Definition small_gains (l : list Z) : bool := forallb (fun g => (0 <=? g) && (g <=? 3000)) l.
Lemma small_gains_spec l : small_gains l = true -> Forall (fun g => 0 <= g <= 3000) l.
Proof.
  intros H. apply Forall_forall. intros x Hx. unfold small_gains in H. rewrite forallb_forall in H.
  specialize (H x Hx). rewrite andb_true_iff, !Z.leb_le in H. exact H.
Qed.

Lemma gains_of_shape i g : gains_of i = Some g -> length g = 4%nat /\ Forall (fun g => 0 <= g <= 3000) g.
Proof.
  unfold gains_of. intros E.
  destruct (rd WebRtcIsacfix_kPitchGain1 i) as [a|] eqn:E1; [|done]. destruct (rd WebRtcIsacfix_kPitchGain2 i) as [b|] eqn:E2; [|done].
  destruct (rd WebRtcIsacfix_kPitchGain3 i) as [c|] eqn:E3; [|done]. destruct (rd WebRtcIsacfix_kPitchGain4 i) as [e|] eqn:E4; [|done].
  injection E as <-. split; [done|].
  apply rd_Forall with (P := fun g => 0 <= g <= 3000) in E1; [|by apply small_gains_spec; vm_compute].
  apply rd_Forall with (P := fun g => 0 <= g <= 3000) in E2; [|by apply small_gains_spec; vm_compute].
  apply rd_Forall with (P := fun g => 0 <= g <= 3000) in E3; [|by apply small_gains_spec; vm_compute].
  apply rd_Forall with (P := fun g => 0 <= g <= 3000) in E4; [|by apply small_gains_spec; vm_compute].
  repeat first [assumption | constructor].
Qed.

Lemma DecodePitchGain_shape st g err st' : WebRtcIsacfix_DecodePitchGain st = Some (g, err, st') -> 0 <= err ->
  length g = 4%nat /\ Forall (fun g => 0 <= g <= 3000) g.
Proof.
  unfold WebRtcIsacfix_DecodePitchGain. destruct (WebRtcIsacfix_DecHistBisectMulti _ _ _ _) as [ [ [x e] s] |]; [|done].
  cbn [mbind option_bind]. destruct (_ || _); [intros [= <- <- <-]; unfold ISAC_RANGE_ERROR_DECODE_PITCH_GAIN; lia|].
  destruct (gains_of (arr x 0)) as [g'|] eqn:E; [|done]. intros [= <- <- <-] _. by apply (gains_of_shape _ _ E).
Qed.

Lemma lars_length l : length l = 108%nat ->
  length (Lar2polyFix l ORDERLO ORDERHI SUBFRAMES).1 = 72%nat /\ length (Lar2polyFix l ORDERLO ORDERHI SUBFRAMES).2 = 36%nat.
Proof.
  intros L. unfold Lar2polyFix, Lar2RcFix. change (seqZ 0 SUBFRAMES) with [0; 1; 2; 3; 4; 5]. cbn [map concat fst snd].
  unfold IsacLar.cells, ORDERLO, ORDERHI. rewrite !length_app, !length_map, !length_take, !length_drop, L. by split.
Qed.

Lemma lars_i16 l : Forall is_i16 (Lar2polyFix l ORDERLO ORDERHI SUBFRAMES).1 /\ Forall is_i16 (Lar2polyFix l ORDERLO ORDERHI SUBFRAMES).2.
Proof.
  assert (forall x, is_i16 (lar2rc x)) as H by (intros x; unfold lar2rc; apply i16_range).
  unfold Lar2polyFix, Lar2RcFix. cbn [fst snd]. split; apply Forall_concat, Forall_map, Forall_true; intros k; apply Forall_map, Forall_true, H.
Qed.

Lemma DecodeLpc_shape st g lo hi m err st' : WebRtcIsacfix_DecodeLpc st = Some ((g, lo, hi, m), err, st') -> 0 <= err ->
  length g = 12%nat /\ w16 72 lo /\ w16 36 hi.
Proof.
  unfold WebRtcIsacfix_DecodeLpc.
  destruct (WebRtcIsacfix_DecodeLpcCoef st) as [ [ [ [ [lars g'] m'] e] s] |] eqn:E; [|done]. cbn [mbind option_bind].
  destruct (Z.ltb_spec e 0); [intros [= <- <- <- <- <- <-]; unfold ISAC_RANGE_ERROR_DECODE_LPC; lia|].
  assert (length lars = 108%nat /\ length g' = 12%nat) as [L1 L2].
  { revert E. unfold WebRtcIsacfix_DecodeLpcCoef.
    destruct (WebRtcIsacfix_DecHistOneStepMulti _ _ _ _) as [ [ [x e1] s1] |]; [|done]. cbn [mbind option_bind].
    destruct (Z.ltb_spec e1 0); [intros [= <- <- <- <- <-]; lia|].
    destruct (WebRtcIsacfix_DecHistOneStepMulti _ _ _ _) as [ [ [y e2] s2] |]; [|done]. cbn [mbind option_bind].
    destruct (Z.ltb_spec e2 0); [intros [= <- <- <- <- <-]; lia|].
    unfold shape_of_indices at 1. destruct (look_up _ _ _ _) as [lev|]; [|done]. cbn [mbind option_bind].
    destruct (WebRtcIsacfix_DecHistOneStepMulti _ _ _ _) as [ [ [z e3] s3] |]; [|done]. cbn [mbind option_bind].
    destruct (Z.ltb_spec e3 0); [intros [= <- <- <- <- <-]; lia|].
    unfold gains_of_indices. destruct (look_up _ _ _ _) as [lev2|]; [|done]. cbn [mbind option_bind].
    intros [= <- <- <- <- <-]. unfold restore_shape, restore_gains. by rewrite !length_map, !length_seqZ. }
  pose proof (lars_length lars L1) as [H1 H2]. pose proof (lars_i16 lars) as [H3 H4].
  destruct (Lar2polyFix lars ORDERLO ORDERHI SUBFRAMES) as [lo' hi']. intros [= <- <- <- <- <- <-] _. by repeat split.
Qed.

Lemma DecodeSpec_shape apg st re im len st' : WebRtcIsacfix_DecodeSpec apg st = Some ((re, im), len, st') -> 0 <= len ->
  length re = 240%nat /\ length im = 240%nat.
Proof.
  unfold WebRtcIsacfix_DecodeSpec, decode_spec_data. destruct (decode_model st) as [ [ [ [ar g] e] s] |]; [|done]. cbn [mbind option_bind].
  destruct (e <? 0); [intros [= <- <- <- <-]; unfold ISAC_RANGE_ERROR_DECODE_SPECTRUM; lia|].
  destruct (WebRtcIsacfix_DecLogisticMulti2 _ _ _ _) as [ [ [data l] s2] |]; [|done]. cbn [mbind option_bind].
  destruct (l <? 1); [intros [= <- <- <- <-]; unfold ISAC_RANGE_ERROR_DECODE_SPECTRUM; lia|].
  intros E _. set (out := scale_spec apg (CalcInvArSpec ar g) data) in E. assert (out = (re, im)) as Eo by congruence.
  assert (length out.1 = 240%nat /\ length out.2 = 240%nat) as Hl
    by (unfold out, scale_spec; cbn [fst snd]; by rewrite !length_map, !length_seqZ).
  by rewrite Eo in Hl.
Qed.

Lemma decode_frame_shape st f len st' : decode_frame st = Some (f, len, st') -> 0 <= len -> frame_shape f.
Proof.
  unfold decode_frame. generalize DecodePitchGain_shape DecodePitchLag_shape DecodeLpc_shape DecodeSpec_shape.
  generalize WebRtcIsacfix_DecodePitchGain as dg, WebRtcIsacfix_DecodePitchLag as dl, WebRtcIsacfix_DecodeLpc as dp,
    WebRtcIsacfix_DecodeSpec as dsp. intros dg dl dp dsp Hg Hl Hp Hs E Hlen.
  apply dbind_inv in E as (g & r1 & st1 & E1 & Hr1 & E); [|done].
  apply dbind_inv in E as (l & r2 & st2 & E2 & Hr2 & E); [|done].
  apply dbind_inv in E as ([ [ [gg lo] hi] m] & r3 & st3 & E3 & Hr3 & E); [|done].
  unfold dmap in E. destruct (dsp (avg_pitch_gain g) st3) as [ [ [ [re im] r4] st4] |] eqn:E4; [|done]. injection E as <- <- <-.
  destruct (Hg _ _ _ _ E1 Hr1), (Hp _ _ _ _ _ _ _ E3 Hr3) as (? & ? & ?), (Hs _ _ _ _ _ _ E4 Hlen).
  destruct (Hl _ _ _ _ _ E2 Hr2). unfold frame_shape, f_gains, f_lags, f_gain_lo_hi, f_lo, f_hi, f_spectrum. cbn [fst snd]. tauto.
Qed.

Lemma decode_frames_shape n : forall len st fs ret st', decode_frames n len st = Some (fs, ret, st') -> Forall frame_shape fs.
Proof.
  induction n as [|n IH]; intros len st fs ret st' E; cbn [decode_frames] in E.
  - injection E as <- <- <-. constructor.
  - destruct (decode_frame st) as [ [ [f len1] st1] |] eqn:Ef; cbn [mbind option_bind] in E; [|done].
    destruct (Z.ltb_spec len1 0); [injection E as <- <- <-; constructor|].
    destruct (decode_frames n len1 st1) as [ [ [fs2 len2] st2] |] eqn:E2; cbn [mbind option_bind] in E; [|done].
    injection E as <- <- <-. constructor; [by apply (decode_frame_shape _ _ _ _ Ef)|by apply (IH _ _ _ _ _ E2)].
Qed.

Lemma decode_packet_shape st fs bw frames ret st' : decode_packet st = Some ((fs, bw, frames), ret, st') -> Forall frame_shape frames.
Proof.
  unfold decode_packet, dbind at 1. destruct (WebRtcIsacfix_DecodeFrameLen st) as [ [ [n e] s1] |]; [|done]. cbn [mbind option_bind].
  destruct (e <? 0); [intros [= <- <- <- <- <-]; constructor|]. unfold dbind, dmap.
  destruct (WebRtcIsacfix_DecodeSendBandwidth s1) as [ [ [b e2] s2] |]; [|done]. cbn [mbind option_bind].
  destruct (e2 <? 0); [intros [= <- <- <- <- <-]; constructor|].
  destruct (decode_frames _ 0 s2) as [ [ [fr r] s3] |] eqn:E; [|done]. intros [= <- <- <- <- <-]. exact (decode_frames_shape _ _ _ _ _ _ E).
Qed.
(** ** All frames of a packet *)

Fixpoint frames_speech (d : IsacFixDecoderInstance) (nb mode : Z) (fs : list frame) : list Z :=
  match fs with
  | [] => []
  | f :: fs => speech d f ++ frames_speech (next_decoder d f (nb =? mode)) (nb + 1) mode fs
  end.
Fixpoint frames_decoder (d : IsacFixDecoderInstance) (nb mode : Z) (fs : list frame) : IsacFixDecoderInstance :=
  match fs with
  | [] => d
  | f :: fs => frames_decoder (next_decoder d f (nb =? mode)) (nb + 1) mode fs
  end.

Lemma synthesise_all_spec junk mode fs : (forall k, buffers_ok (junk k)) -> Forall frame_shape fs ->
  forall nb signal d, decoder_ok d -> 0 <= nb ->
  480 * (nb + Z.of_nat (length fs)) <= Z.of_nat (length signal) ->
  synthesise_all junk nb mode fs signal d
  = Some (take (Z.to_nat (480 * nb)) signal ++ frames_speech d nb mode fs
            ++ drop (Z.to_nat (480 * (nb + Z.of_nat (length fs)))) signal, frames_decoder d nb mode fs) /\
  decoder_ok (frames_decoder d nb mode fs) /\ w16 (480 * length fs) (frames_speech d nb mode fs).
Proof.
  intros Hj Hs. induction fs as [|f fs IH]; intros nb signal d Hd Hnb Hlen.
  - cbn [synthesise_all frames_speech frames_decoder length app]. rewrite Z.add_0_r, take_drop. split; [done|]. split; [done|]. split; [done|constructor].
  - apply Forall_cons_iff in Hs as [Hs1 Hs2]. cbn [length] in Hlen.
    destruct (synthesise_frame_spec (junk nb) nb mode f signal d (Hj nb) Hd Hs1 Hnb ltac:(lia)) as (E & Hd' & [Lw Fw]).
    cbn [synthesise_all frames_speech frames_decoder]. bind_step E. clear E.
    set (d' := next_decoder d f (nb =? mode)) in *.
    assert (length (take (Z.to_nat (480 * nb)) signal) = Z.to_nat (480 * nb)) as Lt by (rewrite length_take; lia).
    destruct (IH Hs2 (nb + 1) (take (Z.to_nat (480 * nb)) signal ++ speech d f ++ drop (Z.to_nat (480 * (nb + 1))) signal) d' Hd')
      as (E & H1 & [L F]); [lia|rewrite !length_app, length_drop; lia|].
    rewrite E. split; [|split; [done|]].
    + set (a := take (Z.to_nat (480 * nb)) signal) in *. set (r := drop (Z.to_nat (480 * (nb + 1))) signal).
      assert (take (Z.to_nat (480 * (nb + 1))) (a ++ speech d f ++ r) = a ++ speech d f) as ->
        by (rewrite (app_assoc a (speech d f) r); apply take_app_length'; rewrite length_app; lia).
      assert (drop (Z.to_nat (480 * (nb + 1 + Z.of_nat (length fs)))) (a ++ speech d f ++ r)
        = drop (Z.to_nat (480 * (nb + Z.of_nat (length (f :: fs))))) signal) as ->.
      { rewrite (app_assoc a (speech d f) r), drop_app_ge by (rewrite length_app; lia). unfold r. rewrite drop_drop, length_app, Lt, Lw.
        f_equal. cbn [length]. lia. }
      by rewrite <-!app_assoc.
    + split; [rewrite length_app; cbn [length]; lia|by apply Forall_app].
Qed.

(** ** The decoder *)

Lemma FrameLen_values st n err st' : WebRtcIsacfix_DecodeFrameLen st = Some (n, err, st') ->
  n = 0 /\ err < 0 \/ n = 480 \/ n = 960.
Proof.
  unfold WebRtcIsacfix_DecodeFrameLen. destruct (WebRtcIsacfix_DecHistOneStepMulti _ _ _ _) as [ [ [x e] s] |]; [|done].
  cbn [mbind option_bind]. destruct (Z.ltb_spec e 0); [intros [= <- <- <-]; left; unfold ISAC_RANGE_ERROR_DECODE_FRAME_LENGTH; lia|].
  destruct (_ =? 1); [intros [= <- <- <-]; auto|]. destruct (_ =? 2); [intros [= <- <- <-]; auto|].
  intros [= <- <- <-]. left. unfold ISAC_DISALLOWED_FRAME_MODE_DECODER. lia.
Qed.

Lemma packet_frames st fs bw frames ret st' : decode_packet st = Some ((fs, bw, frames), ret, st') ->
  Z.of_nat (length frames) <= 2 /\ (0 <= ret -> fs = 480 * Z.of_nat (length frames)).
Proof.
  intros E. unfold decode_packet, dbind at 1 in E. destruct (WebRtcIsacfix_DecodeFrameLen st) as [ [ [n e] s1] |] eqn:E0; [|done].
  cbn [mbind option_bind] in E. apply FrameLen_values in E0.
  destruct (Z.ltb_spec e 0); [injection E as <- <- <- <- <-; cbn; lia|]. unfold dbind, dmap in E.
  destruct (WebRtcIsacfix_DecodeSendBandwidth s1) as [ [ [b e2] s2] |]; [|done]. cbn [mbind option_bind] in E.
  destruct (Z.ltb_spec e2 0); [injection E as <- <- <- <- <-; cbn; lia|].
  destruct (decode_frames _ 0 s2) as [ [ [fr r] s3] |] eqn:E1; [|done]. injection E as <- <- <- <- <-.
  apply length_frames in E1 as [L1 L2]. unfold MAX_FRAMESAMPLES in *.
  destruct E0 as [ [_ He] |[-> | ->] ]; [lia| |].
  - change (S (Z.to_nat (480 / 960))) with 1%nat in *. lia.
  - change (S (Z.to_nat (960 / 960))) with 2%nat in *. lia.
Qed.

Section Decode.
Context (junk : Z -> Buffers) (signal : list Z) (d : IsacFixDecoderInstance) (v : Bitstr_dec).
Context (Hj : forall k, buffers_ok (junk k)) (Hd : decoder_ok d) (Hs : 960 <= Z.of_nat (length signal)).

(** What is heard of the frames that were read. *)
Definition packet_speech (fs : Z) (frames : list frame) : list Z := frames_speech d 0 (fs / MAX_FRAMESAMPLES) frames.
Definition packet_decoder (fs : Z) (frames : list frame) : IsacFixDecoderInstance :=
  frames_decoder d 0 (fs / MAX_FRAMESAMPLES) frames.

Lemma decode_impl_spec cur fs bw frames ret st :
  decode_packet (dec_reset (d_stream v) (d_stream_size v)) = Some ((fs, bw, frames), ret, st) ->
  exists n, (0 <= ret -> n = 480 * Z.of_nat (length frames)) /\
    WebRtcIsacfix_DecodeImpl junk signal (set_dec_bitstr v d) cur
    = Some (ret, packet_speech fs frames ++ drop (480 * length frames) signal, n, set_dec_bitstr st (packet_decoder fs frames)) /\
    decoder_ok (packet_decoder fs frames) /\ w16 (480 * length frames) (packet_speech fs frames).
Proof.
  intros E. destruct (packet_frames _ _ _ _ _ _ E) as [Hn Hfs]. pose proof (decode_packet_shape _ _ _ _ _ _ E) as Hsh.
  pose proof (decode_impl_parse junk signal (set_dec_bitstr v d) cur) as H. rewrite set_bitstr_get, E in H.
  destruct H as (n & Hret & _ & _ & ->). exists n. split; [intros H; by rewrite Hret, Hfs|].
  rewrite synthesise_all_bitstr.
  destruct (synthesise_all_spec junk (fs / MAX_FRAMESAMPLES) frames Hj Hsh 0 signal d Hd) as (-> & H1 & H2); [lia|lia|].
  split; [|by split]. rewrite !bind_Some. cbn [mbind option_bind]. rewrite set_bitstr_set.
  change (Z.to_nat (480 * 0)) with 0%nat. rewrite take_0. cbn [app].
  replace (Z.to_nat (480 * (0 + Z.of_nat (length frames)))) with (480 * length frames)%nat by lia. reflexivity.
Qed.
End Decode.

(** ** Packets of the encoder *)

Lemma for_loop_ext {S : Type} (f g : Z -> S -> S) n s : (forall j s, 0 <= j < n -> f j s = g j s) ->
  for_loop n f s = for_loop n g s.
Proof.
  intros H. unfold for_loop. assert (forall m i s, Z.of_nat i + Z.of_nat m <= n -> for_from i m f s = for_from i m g s) as Hm.
  { induction m as [|m IH]; intros i s' Hi; [done|]. cbn [for_from]. rewrite H by lia. apply IH. lia. }
  destruct (Z.le_gt_cases n 0); [by replace (Z.to_nat n) with 0%nat by lia|]. apply Hm. lia.
Qed.

Lemma packet_bytes_stream src len : 0 <= len -> packet_stream (packet_bytes src len) len = packet_stream (write_be16 src len) len.
Proof.
  intros Hl. unfold packet_stream. f_equal. unfold read_be16.
  assert (forall i, 0 <= i < len -> arr (packet_bytes src len) i = arr (write_be16 src len) i) as H.
  { intros i Hi. unfold packet_bytes, arr. rewrite !nth_lookup. by rewrite lookup_take_lt by lia. }
  rewrite (for_loop_ext _ (fun i dest => upd dest i (u16 (Z.lor (arr (write_be16 src len) (2 * i) ≪ 8) (arr (write_be16 src len) (2 * i + 1)))))).
  2: { intros j s Hj. assert (2 * j + 1 < len) by (Z.div_mod_to_equations; lia). by rewrite !H by lia. }
  destruct (len mod 2 =? 1) eqn:Em; [|done]. apply Z.eqb_eq in Em.
  rewrite H; [done|]. assert (len <> 0) by (intros ->; done). lia.
Qed.

Lemma DecoderInit_ok inst : decoder_ok (ISACdec_obj (WebRtcIsacfix_DecoderInit inst)).
Proof.
  unfold WebRtcIsacfix_DecoderInit. cbn [ISACdec_obj set_ISACdec_obj set_initflag]. unfold decoder_ok.
  cbn [maskfiltstr_dec postfiltbankstr_obj pitchfiltstr_dec plcstr_obj]. split_and!.
  - split; [done|]. by apply Forall_replicate.
  - split; [done|]. by apply Forall_replicate.
  - by split_and!.
  - split_and!; try (split; [done|by apply Forall_replicate]); by compute.
  - by split_and!.
Qed.

Lemma mute_spec decoded n : 0 <= n <= Z.of_nat (length decoded) ->
  mute decoded n = Some (zeros n ++ drop (Z.to_nat n) decoded).
Proof.
  intros H. unfold mute, zeros. rewrite mem_write_Some by (rewrite ?length_replicate; lia).
  change (Z.to_nat 0) with 0%nat. rewrite take_0, length_replicate. reflexivity.
Qed.

Lemma mute_front ys decoded (k n : nat) : length ys = k -> (k <= n <= length decoded)%nat ->
  mute (ys ++ drop k decoded) (Z.of_nat n) = Some (zeros (Z.of_nat n) ++ drop n decoded).
Proof.
  intros L H. rewrite mute_spec by (rewrite length_app, length_drop; lia). rewrite Nat2Z.id, drop_app_ge by lia.
  rewrite drop_drop. do 3 f_equal. lia.
Qed.

(** The length a packet may have when [ret] bytes were read: [ret], or [ret] and
    the padding its next byte counts. *)
Definition padding (ret w : Z) : Z := if Z.land ret 1 =? 1 then Z.land w 0xFF else w ≫ 8.

(** All that [WebRtcIsacfix_Decode] does once the length has been checked. *)
Lemma Decode_spec bufs unset inst encoded decoded speechType :
  decoder_initiated inst = true -> decoder_ok (ISACdec_obj inst) -> (forall k, buffers_ok (bufs k)) ->
  960 <= Z.of_nat (length decoded) -> let n := Z.of_nat (length encoded) in 1 <= n <= 600 ->
  let result := WebRtcIsacfix_Decode bufs unset inst encoded decoded speechType in
  match decode_packet (packet_stream encoded n) with
  | None => result = None
  | Some (fs, _, frames, ret, st) =>
      let d := packet_decoder (ISACdec_obj inst) fs frames in
      let speech := packet_speech (ISACdec_obj inst) fs frames in
      let inst' := set_ISACdec_obj (set_dec_bitstr st d) inst in
      decoder_ok d /\ w16 (480 * length frames) speech /\
      (ret < 0 -> result = Some (-1, zeros 960 ++ drop 960 decoded, 1, set_errorcode (i16 (- i16 ret)) inst')) /\
      (0 <= ret -> fs = 480 * Z.of_nat (length frames) /\ forall w, n = ret \/ rd (d_stream st) (ret ≫ 1) = Some w ->
        result = if (n =? ret) || (n =? ret + padding ret w)
                 then Some (fs, speech ++ drop (Z.to_nat fs) decoded, 1, inst')
                 else Some (-1, zeros fs ++ drop (Z.to_nat fs) decoded, 1, set_errorcode ISAC_LENGTH_MISMATCH inst'))
  end.
Proof.
  intros Hi Hd Hb Hdec n Hn result. unfold result, WebRtcIsacfix_Decode. clear result. cbv zeta. fold n. rewrite Hi. change (STREAM_MAXW16 ≪ 1) with 600.
  rewrite (proj2 (Z.eqb_neq n 0)), (proj2 (Z.ltb_ge 600 n)) by lia. cbn [negb]. set (v := packet_stream encoded n).
  assert (dec_reset (d_stream v) (d_stream_size v) = v) as Hv by reflexivity.
  destruct (decode_packet v) as [ [ [ [ [fs bw] frames] ret] st] |] eqn:E.
  - pose proof E as E'. rewrite <-Hv in E'. destruct (packet_frames _ _ _ _ _ _ E) as [Hf Hfs].
    destruct (decode_impl_spec bufs decoded (ISACdec_obj inst) v Hb Hd Hdec unset _ _ _ _ _ E') as (m & Hm & Ed & Hok & Hsp).
    clear Hv E'. clearbody v. split; [exact Hok|]. split; [exact Hsp|]. destruct Hsp as [Ls _]. bind_step Ed. clear Ed. split.
    + intros Hr. rewrite (proj2 (Z.ltb_lt ret 0)) by lia. change MAX_FRAMESAMPLES with (Z.of_nat 960).
      rewrite (mute_front _ _ _ 960 Ls), bind_Some by lia. reflexivity.
    + intros Hr. split; [by apply Hfs|]. intros w Hw. rewrite (proj2 (Z.ltb_ge ret 0)) by lia. rewrite Hm by done. cbn [set_dec_bitstr dec_bitstr_obj].
      specialize (Hfs Hr). set (k := length frames) in *. assert (480 * Z.of_nat k = Z.of_nat (480 * k)) as Ek by lia.
      rewrite Ek in Hfs |- *. clear Ek. subst fs. rewrite Nat2Z.id.
      destruct (Z.eqb_spec n ret) as [|Hne]; [by rewrite bind_Some|]. destruct Hw as [|Hw]; [done|]. bind_step Hw. cbn [orb]. rewrite bind_Some.
      fold (padding ret w). destruct (n =? ret + padding ret w); cbn [negb]; [reflexivity|].
      rewrite (mute_front _ _ _ (480 * k) Ls), bind_Some by lia. reflexivity.
  - pose proof (decode_impl_parse bufs decoded (set_dec_bitstr v (ISACdec_obj inst)) unset) as H.
    rewrite set_bitstr_get, Hv, E in H. by rewrite H.
Qed.

(** ** Properties *)

(** The frame decoder.  From a well-formed instance, with at least 960 cells for
    the signal and whatever the local arrays hold, decoding a packet is reading
    all its parameters, as [decode_packet] does, and then synthesising the frames
    that were read, one after the other: the code alternates the two.  When the
    parameters return, nothing is accessed out of bounds, the result is the
    length or the error the parameters give, the signal is 480 samples for
    every frame read (pitch-enhanced, weighted by both lattice filters,
    recombined, with the overlap after a concealed frame) and the cells behind
    are untouched, and the instance is well formed again. *)
Theorem decode_impl_exact junk signal d cur :
  (forall k, buffers_ok (junk k)) -> decoder_ok d -> 960 <= Z.of_nat (length signal) ->
  match decode_packet (dec_reset (d_stream (dec_bitstr_obj d)) (d_stream_size (dec_bitstr_obj d))) with
  | None => WebRtcIsacfix_DecodeImpl junk signal d cur = None
  | Some (fs, _, frames, ret, st) => exists n, (0 <= ret -> n = 480 * Z.of_nat (length frames)) /\
        WebRtcIsacfix_DecodeImpl junk signal d cur
        = Some (ret, packet_speech d fs frames ++ drop (480 * length frames) signal, n,
                set_dec_bitstr st (packet_decoder d fs frames)) /\
        decoder_ok (packet_decoder d fs frames) /\ w16 (480 * length frames) (packet_speech d fs frames)
  end.
Proof.
  intros Hj Hd Hs. pose proof (decode_impl_parse junk signal d cur) as Hp.
  destruct (decode_packet _) as [ [ [ [ [fs bw] frames] ret] st] |] eqn:E; [|exact Hp].
  destruct (decode_impl_spec junk signal d (dec_bitstr_obj d) Hj Hd Hs cur fs bw frames ret st E) as (n & H1 & H2 & H3).
  exists n. split; [exact H1|]. split; [|exact H3]. rewrite <-H2. by destruct d.
Qed.

(** The call of [DecodeImpl] on the bytes of a packet. *)
Lemma packet_reset encoded len :
  let v := packet_stream encoded len in dec_reset (d_stream v) (d_stream_size v) = packet_stream encoded len.
Proof. reflexivity. Qed.

Lemma stored_packet_read s bitstr BWnumber scale junk len st' :
  startIdx s = 0 \/ startIdx s = 1 -> framelength s = FRAMESAMPLES * (startIdx s + 1) ->
  let tmp_fre := tmp_dft s scale (fre s) in
  let tmp_fim := tmp_dft s scale (fim s) in
  let index_g := tmp_index_g s scale junk in
  (forall ii, 0 <= ii <= startIdx s ->
     frame_ok s (IsacLar.cells (LPCindex_g s) (KLT_ORDER_GAIN * ii) KLT_ORDER_GAIN) (frame_fr tmp_fre ii) (frame_fi tmp_fim ii) ii) ->
  (forall st1 st2, WebRtcIsacfix_EncodeFrameLen (framelength s) (enc_reset (e_stream bitstr)) = Some (0, st1) ->
     WebRtcIsacfix_EncodeReceiveBandwidth BWnumber st1 = Some (0, st2) ->
     wide_frames s index_g tmp_fre tmp_fim 0 (Z.to_nat (startIdx s + 1)) st2) ->
  Forall is_u16 (e_stream bitstr) -> length (e_stream bitstr) = Z.to_nat STREAM_MAXW16_60MS ->
  WebRtcIsacfix_EncodeStoredData (Some s) bitstr BWnumber scale junk = Some (len, st') -> 0 <= len ->
  0 < len <= 400 /\ exists fs stb ste dst, length fs = Z.to_nat (startIdx s + 1) /\
    frames_coded s index_g tmp_fre tmp_fim 0 fs stb ste /\
    decode_packet (packet_stream (packet_bytes (e_stream st') len) len) = Some ((framelength s, BWnumber, fs), len, dst).
Proof.
  intros Hst Hfl tmp_fre tmp_fim index_g Hf Hw Hs Hl E Hlen.
  destruct (stored_packet_transmits s bitstr BWnumber scale junk len st' Hst Hfl Hf Hw Hs Hl E Hlen)
    as (st1 & st2 & st3 & fs & Hb & E1 & E2 & T1 & T2 & Hlf & Hfc & T3 & Et).
  apply (transmits_dmap _ _ _ (fun frames => (framelength s, BWnumber, frames))) in T3.
  assert (transmits stream_length (enc_reset (e_stream bitstr)) st3 decode_packet (framelength s, BWnumber, fs)) as T
    by (eapply transmits_bind; [exact (transmits_weaken _ _ _ _ T1)|];
        eapply transmits_bind; [exact (transmits_weaken _ _ _ _ T2)|exact T3]).
  destruct (T 0 (2 ^ 32 - 1) 0%nat (enc_reset_inv _ Hs Hl)) as (syms & V & W & n & _ & Hi & _).
  destruct (decide (n + term_bytes W <= 400)%nat) as [Hle|];
    [|by rewrite (EncTerminate_overrun st3 V W n Hi ltac:(lia)) in Et].
  destruct (EncTerminate_spec st3 V W n Hi Hle) as (stt & Et' & _). rewrite Et in Et'. injection Et' as Elen _.
  split; [unfold term_bytes in *; destruct (_ <? _); lia|].
  destruct (transmits_bytes _ _ _ _ _ len st' T Hs Hl Et) as (n' & W' & ret & dst & Ed & Hq & Hlw).
  unfold stream_length in Hq, Hlw. rewrite Hq, <- Hlw in Ed. rewrite packet_bytes_stream by done. by exists fs, st2, st3, dst.
Qed.

(** Speech from a packet.  A packet of one or two frames that the encoder builds
    from stored parameters, handed to [WebRtcIsacfix_Decode] of any instance with
    an initialised decoder, gives 480 samples per frame and no error: the
    samples are the synthesis of the parameters the stored indices stand for,
    started from the state of the instance, whatever the local arrays hold, and
    the instance is ready for the next packet. *)
Theorem stored_packet_speech s bitstr BWnumber scale junk len st' bufs unset inst decoded speechType :
  startIdx s = 0 \/ startIdx s = 1 -> framelength s = FRAMESAMPLES * (startIdx s + 1) ->
  let tmp_fre := tmp_dft s scale (fre s) in
  let tmp_fim := tmp_dft s scale (fim s) in
  let index_g := tmp_index_g s scale junk in
  (forall ii, 0 <= ii <= startIdx s ->
     frame_ok s (IsacLar.cells (LPCindex_g s) (KLT_ORDER_GAIN * ii) KLT_ORDER_GAIN) (frame_fr tmp_fre ii) (frame_fi tmp_fim ii) ii) ->
  (forall st1 st2, WebRtcIsacfix_EncodeFrameLen (framelength s) (enc_reset (e_stream bitstr)) = Some (0, st1) ->
     WebRtcIsacfix_EncodeReceiveBandwidth BWnumber st1 = Some (0, st2) ->
     wide_frames s index_g tmp_fre tmp_fim 0 (Z.to_nat (startIdx s + 1)) st2) ->
  Forall is_u16 (e_stream bitstr) -> length (e_stream bitstr) = Z.to_nat STREAM_MAXW16_60MS ->
  WebRtcIsacfix_EncodeStoredData (Some s) bitstr BWnumber scale junk = Some (len, st') -> 0 <= len ->
  decoder_initiated inst = true -> decoder_ok (ISACdec_obj inst) -> (forall k, buffers_ok (bufs k)) ->
  960 <= Z.of_nat (length decoded) ->
  exists fs stb ste inst', frames_coded s index_g tmp_fre tmp_fim 0 fs stb ste /\
    WebRtcIsacfix_Decode bufs unset inst (packet_bytes (e_stream st') len) decoded speechType
    = Some (framelength s,
        packet_speech (ISACdec_obj inst) (framelength s) fs ++ drop (Z.to_nat (framelength s)) decoded, 1, inst') /\
    w16 (Z.to_nat (framelength s)) (packet_speech (ISACdec_obj inst) (framelength s) fs) /\
    decoder_initiated inst' = true /\ decoder_ok (ISACdec_obj inst').
Proof.
  intros Hst Hfl tmp_fre tmp_fim index_g Hf Hw Hs Hl E Hlen Hi Hd Hb Hdec.
  destruct (stored_packet_read s bitstr BWnumber scale junk len st' Hst Hfl Hf Hw Hs Hl E Hlen)
    as (Hrange & fs & stb & ste & dst & Hlf & Hfc & Hp).
  assert (Z.of_nat (length (packet_bytes (e_stream st') len)) = len) as Hlp by (rewrite length_packet_bytes by lia; lia).
  pose proof (Decode_spec bufs unset inst (packet_bytes (e_stream st') len) decoded speechType Hi Hd Hb Hdec) as H. cbv zeta in H.
  rewrite Hlp, Hp in H. destruct H as (Hok & Hsp & _ & H); [lia|]. destruct (H Hlen) as [Hfs Er].
  exists fs, stb, ste, (set_ISACdec_obj (set_dec_bitstr dst (packet_decoder (ISACdec_obj inst) (framelength s) fs)) inst).
  split; [exact Hfc|]. rewrite (Er 0 (or_introl eq_refl)), Z.eqb_refl. cbn [orb].
  split; [reflexivity|]. split; [|by split]. replace (Z.to_nat (framelength s)) with (480 * length fs)%nat by lia. exact Hsp.
Qed.


(** ** The instance *)

(** The state of a created instance between calls. *)
Definition inst_ok (inst : ISACFIX_SubStruct) : Prop :=
  inst_wf inst /\ (decoder_initiated inst = true -> decoder_ok (ISACdec_obj inst)).

(** The calls of [api_call] and the decoding of a packet. *)
Inductive instance_call : ISACFIX_SubStruct -> ISACFIX_SubStruct -> Prop :=
| call_api inst inst' : api_call inst inst' -> instance_call inst inst'
| call_Decode inst bufs unset encoded decoded speechType r decoded' t inst' :
    (forall k, buffers_ok (bufs k)) -> 960 <= Z.of_nat (length decoded) ->
    WebRtcIsacfix_Decode bufs unset inst encoded decoded speechType = Some (r, decoded', t, inst') ->
    instance_call inst inst'.

Lemma set_dec_wf d inst : inst_wf inst -> inst_wf (set_ISACdec_obj d inst).
Proof. intros []. constructor; assumption. Qed.

Lemma Decode_ok inst bufs unset encoded decoded speechType r decoded' t inst' : inst_ok inst ->
  (forall k, buffers_ok (bufs k)) -> 960 <= Z.of_nat (length decoded) ->
  WebRtcIsacfix_Decode bufs unset inst encoded decoded speechType = Some (r, decoded', t, inst') -> inst_ok inst'.
Proof.
  intros [Hw Hd] Hb Hdec. unfold WebRtcIsacfix_Decode. cbv zeta.
  destruct (decoder_initiated inst) eqn:Hi; cbn [negb].
  2: { intros [= _ _ _ <-]. split; [by apply set_errorcode_wf|]. intros Hi'. change (decoder_initiated inst = true) in Hi'. congruence. }
  specialize (Hd eq_refl). set (n := Z.of_nat (length encoded)).
  destruct (n =? 0); [intros [= _ _ _ <-]; split; [by apply set_errorcode_wf|by intros _]|].
  destruct (_ <? n); [intros [= _ _ _ <-]; split; [by apply set_errorcode_wf|by intros _]|].
  set (v := packet_stream encoded n).
  pose proof (decode_impl_parse bufs decoded (set_dec_bitstr v (ISACdec_obj inst)) unset) as Hp.
  destruct (decode_packet _) as [ [ [ [ [fs bw] frames] ret] st] |] eqn:E; [|by rewrite Hp].
  destruct (decode_impl_spec bufs decoded (ISACdec_obj inst) v Hb Hd Hdec unset _ _ _ _ _ E) as (m & _ & Ed & Hok & _).
  rewrite Ed. clear Hp Ed. cbn [mbind option_bind].
  set (d' := set_dec_bitstr st (packet_decoder (ISACdec_obj inst) fs frames)).
  assert (inst_ok (set_ISACdec_obj d' inst)) as Hok' by (split; [by apply set_dec_wf|intros _; exact Hok]).
  assert (forall c, inst_ok (set_errorcode c (set_ISACdec_obj d' inst))) as Herr.
  { intros c. split; [by apply set_errorcode_wf, Hok'|exact (proj2 Hok')]. }
  clearbody d'. destruct (ret <? 0).
  - destruct (mute _ _) as [o|]; [|done]. cbn [mbind option_bind]. intros [= _ _ _ <-]. apply Herr.
  - match goal with |- context [mbind _ ?x] => destruct x as [ [|] |]; [| |done] end; cbn [mbind option_bind].
    + destruct (mute _ _) as [o|]; [|done]. cbn [mbind option_bind]. intros [= _ _ _ <-]. apply Herr.
    + intros [= _ _ _ <-]. exact Hok'.
Qed.

(** The other calls leave the decoder alone or initialise it. *)
Lemma estimate_from_dec inst encoded rtp send A r inst' : estimate_from inst encoded rtp send A = Some (r, inst') ->
  ISACdec_obj inst' = ISACdec_obj inst /\ initflag inst' = initflag inst.
Proof.
  unfold estimate_from. destruct (negb _); [by intros [= _ <-]|].
  destruct (header_stream _ _) as [d|]; [|done]. cbn [mbind option_bind].
  destruct (WebRtcIsacfix_EstimateBandwidth _ _ _ _ _ _) as [ [ [e b] d'] |]; [|done]. cbn [mbind option_bind].
  by destruct (i16 e <? 0); intros [= _ <-].
Qed.

Lemma decoder_flag inst : 0 <= initflag inst <= 3 ->
  Z.land (i16 (Z.lor (initflag inst) 2)) 1 = Z.land (initflag inst) 1.
Proof.
  intros H. assert (initflag inst = 0 \/ initflag inst = 1 \/ initflag inst = 2 \/ initflag inst = 3)
    as [-> | [-> | [-> | ->] ] ] by lia; reflexivity.
Qed.

Lemma api_call_decoder a b : api_call a b -> inst_wf a ->
  b = WebRtcIsacfix_DecoderInit a \/
  (ISACdec_obj b = ISACdec_obj a /\ decoder_initiated b = decoder_initiated a).
Proof.
  intros Hc Ha. unfold decoder_initiated.
  destruct Hc as [inst mem|inst mode|inst|inst bi sc jk r by_ inst' E|inst enc rtp A r inst' Hr HA Hg E
    |inst enc rtp sd A r inst' Hr Hs HA Hg E|inst rate fs|inst rate inst' E|inst rate fs en|inst r i inst' E|inst i r inst' E
    |inst n|inst n].
  - by right.
  - right. unfold WebRtcIsacfix_EncoderInit, fail_with. pose proof (decoder_flag inst (inst_flag inst Ha)) as Hf.
    destruct (mode =? 0); [|destruct (mode =? 1)]; isac_simpl; by rewrite Hf.
  - by left.
  - right. unfold WebRtcIsacfix_GetNewBitStream in E. destruct (negb _); [by injection E as _ _ <-|].
    destruct (WebRtcIsacfix_EncodeStoredData _ _ _ _ _) as [ [len b] |]; [|done]. cbn [mbind option_bind] in E.
    by destruct (i16 len <? 0); injection E as _ _ <-.
  - right. unfold WebRtcIsacfix_UpdateBwEstimate1 in E. destruct (_ =? 0); [by injection E as _ <-|].
    destruct (_ <? _); [by injection E as _ <-|]. by destruct (estimate_from_dec _ _ _ _ _ _ _ E) as [-> ->].
  - right. unfold WebRtcIsacfix_UpdateBwEstimate in E. destruct (_ =? 0); [by injection E as _ <-|].
    destruct (_ <? _); [by injection E as _ <-|]. destruct (_ <? _); [by injection E as _ <-|].
    by destruct (estimate_from_dec _ _ _ _ _ _ _ E) as [-> ->].
  - right. unfold WebRtcIsacfix_Control, fail_with. destruct (CodingMode inst =? 0); [done|].
    destruct ((10000 <=? rate) && _); [|done]. by destruct ((fs =? 30) || _).
  - right. unfold WebRtcIsacfix_SetInitialBweBottleneck in E.
    destruct (10000 <=? rate); [|done]. destruct (rate <=? 32000); [|done]. by injection E as <-.
  - right. unfold WebRtcIsacfix_ControlBwe, fail_with. destruct (negb (encoder_initiated inst)); [done|].
    destruct (negb (CodingMode inst =? 0)); [done|]. cbv zeta.
    destruct ((10000 <=? rate) && _); [|destruct (negb (rate =? 0)); [done|] ]; by destruct ((fs =? 30) || _).
  - right. unfold WebRtcIsacfix_GetDownLinkBwIndex in E.
    destruct (WebRtcIsacfix_GetDownlinkBwIndexImpl _) as [ [k b] |]; [|done]. by injection E as _ _ <-.
  - right. unfold WebRtcIsacfix_UpdateUplinkBw in E. destruct (WebRtcIsacfix_UpdateUplinkBwRec _ _) as [ [e b] |]; [|done].
    cbn [mbind option_bind] in E. by destruct (e <? 0); injection E as _ <-.
  - right. unfold WebRtcIsacfix_SetMaxPayloadSize. by destruct (_ || _).
  - right. unfold WebRtcIsacfix_SetMaxRate. by destruct (_ || _).
Qed.

Lemma instance_call_ok a b : instance_call a b -> inst_ok a -> inst_ok b.
Proof.
  intros Hc Ha. destruct Hc as [a b Hc|a bufs unset enc dec sp r dec' t b Hb Hdec E].
  - destruct Ha as [Hw Hd]. split; [exact (api_call_wf a b Hc Hw)|].
    destruct (api_call_decoder a b Hc Hw) as [-> | [-> ->] ]; [|exact Hd]. intros _. apply DecoderInit_ok.
  - exact (Decode_ok _ _ _ _ _ _ _ _ _ _ Ha Hb Hdec E).
Qed.

(** C10: The instance invariant.  An instance that was created keeps, through
    every sequence, in any order and with any arguments, of the calls
    [CreateInternal], [EncoderInit], [DecoderInit], [GetNewBitStream],
    [UpdateBwEstimate1], [UpdateBwEstimate], [Control], [SetInitialBweBottleneck],
    [ControlBwe], [GetDownLinkBwIndex], [UpdateUplinkBw], [SetMaxPayloadSize],
    [SetMaxRate] and [Decode] (all calls that change an instance but [Encode],
    [DecodePlc] and the two that free memory): a well-formed bandwidth estimator;
    once the encoder is initialised, limits on the packet length that are the
    smaller of the payload limit and the rate limit (twice the rate limit for
    60 ms), a bottle neck between 10000 and 32000 bit/s, a frame length of 480 or
    960 samples in the two coding modes and a well-formed rate model; and once
    the decoder is initialised, filter states of the sizes and ranges the frame
    decoder needs.  The caller's array for speech has at least 960 cells, and the
    time stamps given to the estimator do not run ahead of the last one by 2^31
    or more. *)
Theorem instance_invariant mem inst inst' :
  is_u32 (startWaitPeriod (bwestimator_obj mem)) -> WebRtcIsacfix_Create (Some mem) = (0, Some inst) ->
  rtc instance_call inst inst' -> inst_ok inst'.
Proof.
  intros Hm E Hr. destruct (Create_wf mem Hm) as (i & E' & H). rewrite E in E'. injection E' as <-.
  assert (inst_ok inst) as Hok.
  { split; [exact H|]. unfold WebRtcIsacfix_Create in E. cbv zeta in E. injection E as <-. done. }
  clear E H. induction Hr as [|a b c Hab Hbc IH]; [done|]. apply IH. exact (instance_call_ok a b Hab Hok).
Qed.

(** ** A decoder and a packet, for the witnesses *)

Definition ex_buffers : Buffers :=
  mkBuffers (replicate 240 1) (replicate 240 2) (replicate 240 3) (replicate 454 4) (replicate 40 5) (replicate 13 6)
    (replicate 480 7).
Definition ex_decoder : ISACFIX_SubStruct := WebRtcIsacfix_DecoderInit new_isac.
Definition ex_bytes : list Z := packet_bytes (e_stream ex_built.2) 322.

Lemma ex_buffers_ok (k : Z) : buffers_ok ex_buffers.
Proof. split_and!; try reflexivity. split; [reflexivity|]. apply Forall_replicate. unfold is_i16. lia. Qed.

Lemma stored_packet_speech_witness :
  exists fs inst', WebRtcIsacfix_Decode (fun _ => ex_buffers) 0 ex_decoder ex_bytes (replicate 960 9) 0
    = Some (480, packet_speech (ISACdec_obj ex_decoder) 480 fs ++ replicate 480 9, 1, inst') /\
    decoder_ok (ISACdec_obj inst').
Proof.
  destruct (stored_packet_speech ex_stored (enc_reset (replicate 200 0)) 11 (f32_of_Z 1) [] 322 ex_built.2
    (fun _ => ex_buffers) 0 ex_decoder (replicate 960 9) 0) as (fs & stb & ste & inst' & _ & H & _ & _ & H').
  - left. reflexivity.
  - reflexivity.
  - intros ii Hii. assert (ii = 0) as -> by (change (startIdx ex_stored) with 0 in Hii; lia). exact ex_stored_frame.
  - exact ex_packet_wide.
  - apply Forall_replicate. unfold is_u16. lia.
  - reflexivity.
  - vm_compute. reflexivity.
  - lia.
  - reflexivity.
  - apply DecoderInit_ok.
  - apply ex_buffers_ok.
  - rewrite length_replicate. lia.
  - exists fs, inst'. split; [exact H|exact H'].
Defined.

Definition ex_parsed : option (Z * Z * list frame * Z * Bitstr_dec) := Eval vm_compute in
  decode_packet (packet_stream ex_bytes (Z.of_nat (length ex_bytes))).

Lemma ex_parsed_eq : decode_packet (packet_stream ex_bytes (Z.of_nat (length ex_bytes))) = ex_parsed.
Proof. vm_compute. reflexivity. Qed.


Lemma instance_invariant_witness :
  inst_ok (set_errorcode ISAC_EMPTY_PACKET
    (WebRtcIsacfix_DecoderInit (snd (WebRtcIsacfix_SetMaxRate (snd (WebRtcIsacfix_EncoderInit new_isac 1)) 40000)))).
Proof.
  apply (instance_invariant raw_isac new_isac).
  - unfold is_u32. cbn. lia.
  - reflexivity.
  - eapply rtc_l; [apply call_api, (call_EncoderInit new_isac 1)|]. eapply rtc_l; [apply call_api, (call_SetMaxRate _ 40000)|].
    eapply rtc_l; [apply call_api, call_DecoderInit|].
    eapply rtc_l; [|apply rtc_refl].
    eapply (call_Decode _ (fun _ => ex_buffers) 0 [] (replicate 960 0) 0); [apply ex_buffers_ok|rewrite length_replicate; lia|reflexivity].
Defined.

(** Nothing checks the pitch lags a packet stands for: this one of 126 bytes, which
    decodes without an error, has a first lag of -352 (in Q7), that is -2.75
    samples. *)
Example corrupt_packet_lags :
  let words := [32092; 46248; 63717] ++ replicate 60 2 in
  let packet := concat (map (fun w => [w / 256; w mod 256]) words) in
  from_option (fun r => (r.1.2, map f_lags r.1.1.2)) (0, []) (decode_packet (packet_stream packet 126))
  = (62, [ [-352; 1540; 1146; 3038] ]).
Proof. vm_compute. reflexivity. Qed.
